(* ===== verification/_CoqProject ===== *)
-Q . S2P
Prelude.v
Platform.v
GpuDataKey.v
GpuResidencyTable.v
CudaDeviceGuard.v
SimplePlatform.v
TableBehaviour.v
GpuDataCacheEntry.v
IntrusiveList.v
CacheTypes.v
GpuDataCache.v
GpuDataAccess.v
CacheLifecycle.v
CacheSpec.v
CacheRefinement.v
CacheCriticalSections.v
CacheLookup.v
CacheCompletion.v
CacheLeases.v
CacheLifetime.v
CacheProtocol.v
CacheScenario.v
CacheProperties.v
CacheBehaviour.v
CacheOrder.v
CacheWaiting.v
CacheFailure.v
CacheService.v
CacheAccounting.v
GpuTopology.v
GpuContextManager.v
RegistryInvariant.v
TopologyBehaviour.v
RegistryBehaviour.v
NumberText.v
NumaExecutor.v
Diagnostics.v
RegistryContexts.v
RegistryScenario.v
StaticGpuData.v
DeviceMemory.v
StaticUpload.v
StaticLifecycle.v
StaticData.v
StaticOwner.v
StaticScenario.v
ParameterRegistry.v
DemoTypes.v
DeviceCalls.v
DummyTask.v
MatrixAlgo.v
MatrixKernel.v
MatrixBehaviour.v
TaskBehaviour.v
DummyGraph.v
GraphScheduler.v
GraphWorkers.v
GraphOwner.v
GraphSetup.v
GraphService.v
GraphProgress.v
GraphBehaviour.v
GraphStartup.v
GraphScenario.v
Program.v
ProgramBehaviour.v
TaskScenario.v
ResultTasks.v
ResultTaskBehaviour.v
ResultCompute.v
ResultPipeline.v
ResultPipelineInvariant.v
ResultPipelineControl.v
ResultPipelineProgress.v
ResultPipelineBehaviour.v
Benchmarks.v
BenchmarkBehaviour.v
ResultScenario.v
KernelScenario.v
ProgramScenario.v
