(* ===== verification/Prelude.v ===== *)
(** * GPUInfra: a verification development (root file)

    GPUInfra is a C++ library (under [src/src]) that lets the worker threads of a
    task graph share one copy of the data a GPU works on, and a demo (under
    [src/demo]) that drives it.  A process discovers its GPUs once; every graph
    then registers its tasks on the GPU of its NUMA node, keeps fixed device
    buffers, and runs its frames through a bounded cache of device memory: a task
    asks the cache for the frame's payload, is given a lease (a hit, the right to
    fill an entry, or its own fallback buffer), works on a stream and returns the
    lease.

    ** The parts, bottom up

    Paths are relative to the repository.  A file named [...Behaviour],
    [...Properties] or after a promise holds theorems about the model the file
    above it defines; a file named [...Scenario] holds the concrete machines and
    runs on which the theorems are witnessed.

    - [Prelude] (this file): 64-bit arithmetic with its wrap-around, vectors with a
      64-bit index, record updates, the option monad in which following a dangling
      pointer or indexing out of range is [None].  [Platform] is the class of what
      the library calls and does not define: the CUDA runtime, the allocator,
      [std::hash]; [SimplePlatform] is an instance.
    - Residency table, [src/src/DataCache/GpuResidencyTable.*]: [GpuDataKey] (keys,
      hashes, frame metadata), [GpuResidencyTable] (ring arithmetic, the
      open-addressing table and its probe invariant),
      [TableBehaviour] (any session is a bounded finite map).
    - [CudaDeviceGuard]: the scoped device selection.
    - Payload cache, [src/src/DataCache]: [GpuDataCacheEntry] (an entry and its
      device allocations), [IntrusiveList] (the lists threaded through the entries),
      [CacheTypes], [GpuDataCache] (one definition per critical section of the
      manager's mutex), [GpuDataAccess] (the lease), [CacheLifecycle]
      (initialization and release).  [CacheSpec] is the abstract cache, a directory
      of cells with the orders of the policies; [CacheRefinement],
      [CacheCriticalSections], [CacheLookup] and [CacheCompletion] prove that every
      critical section implements its operation; [CacheLeases], [CacheLifetime] and
      [CacheProtocol] add the leases that are out, the sleepers and the steps of all
      threads.  The theorems are in [CacheProperties] (definedness, protection,
      refinement), [CacheBehaviour] (publication), [CacheOrder] (eviction orders),
      [CacheWaiting] (deadlines, no lost wakeup), [CacheFailure] (failed streams,
      returned leases), [CacheService] (initialization, release) and
      [CacheAccounting] (statistics).
    - GPU registry, [src/src/Context]: [GpuTopology] (placement and the parser of
      the online-node list), [GpuContextManager] (discovery, registration, shutdown
      over a store of objects), with [RegistryInvariant], [TopologyBehaviour],
      [RegistryBehaviour] and [RegistryContexts].
    - Diagnostics, [src/src/CudaCheck.h] and [GpuDiagnostics.cpp]: [Diagnostics] (the
      identities of the threads, the scopes, the lines of failures, and the theorems
      on them).
    - Static data, [src/src/StaticData]: [StaticGpuData] (the fixed buffers),
      [DeviceMemory] (documented behaviour of device memory and streams: an
      asynchronous copy reads its source at any moment until its stream is
      synchronized),
      [StaticUpload], [StaticLifecycle]; [StaticData] (their owner, which also owns
      the cache), [StaticOwner] (the composed protocol and its theorem).
    - GPU code and its memory: [DeviceCalls] (the class of the calls that copy, pin
      and launch, and their documented effect on bytes; a kernel is a function of one
      thread, a launch runs all threads in an order of the device's).
    - Demo, [src/demo]: [ParameterRegistry] and its theorems; [DemoTypes] (sizing,
      frames, results, the class of algorithms); [DummyTask] with [TaskBehaviour];
      [MatrixAlgo] (the three algorithms of [Algo], kernel
      included), [MatrixKernel] (what a launch computes) and [MatrixBehaviour] (what
      a task computes with them).  [DummyGraph] is the graph: scheduler, worker loop,
      owner's calls, initialization.  [GraphScheduler] is its system of steps and the
      invariant, [GraphWorkers] and [GraphOwner] the preservation by workers and
      owner, [GraphService] the reachable states, [GraphProgress] the measure and
      the enabled steps; the theorems are in [GraphBehaviour].  [GraphSetup] is what
      the setup makes and unloading leaves, [GraphStartup] the start of the threads
      and what [initialize] answers.
    - Result pipeline, [src/demo/ResultPipeline]: [ResultTasks] with
      [ResultTaskBehaviour] and [ResultCompute] (the bytes they leave);
      [ResultPipeline] (the stages' threads and their queues), with
      [ResultPipelineInvariant], [ResultPipelineControl] (sleepers and
      notifications), [ResultPipelineProgress] and [ResultPipelineBehaviour].
    - Benchmark programs, [src/tools]: [Benchmarks] (of the cache's eviction policies
      the command line, [measure] as a machine of its threads, the way out; the calls
      both programs make) with [BenchmarkBehaviour], which proves its theorems on
      [CacheSpec]'s directory, once for a machine that answers every call and once for
      any machine.
    - Threads and program: [NumberText] (the standard library's number parsers),
      [NumaExecutor] (placement of threads and its theorem), [Program] with
      [ProgramBehaviour] ([src/demo/main.cpp]: command line, plan, calls, verdict).

    ** How state and concurrency are modelled

    An object is a record, a method a function from the object (and the machine's
    state [world], where it reaches the platform) to its results; [None] is
    undefined behaviour.  Objects shared by pointer (registered tasks, contexts,
    frames) live in stores indexed by address.  Code under a mutex is one function
    per critical section, and an execution is any sequence of such steps by any
    number of threads.  A wait on a condition variable ends a critical section; the
    sleeper is part of the system's state, wakes spuriously or on notification, and
    evaluates its predicate again.  A worker of the graph is a machine whose states
    are the points between its atomic operations, the loads and stores of the
    cancellation flag included.

    ** What the theorems show

    - Safety of every interleaving: the cache (C1, C2), its owner (C20), the
      registry (C21), the graph (C3, C17) and the result pipeline (C13)
      are defined whatever is called in whatever order, and keep their invariants.
    - Refinement of abstract specifications: the cache's critical sections (C6,
      C7, C8), the residency table (C19), the orders of eviction (C34), the consumer of the result pipeline (C26).
    - Termination and liveness: [initialize] returns (C16) and its answer is so, with what was
      made undone where it is no (C15), phases
      finish (C5), shutdown joins its workers (C14), waits are bounded and no wakeup is lost (C33, C32), the pipeline's
      call ends (C12), and with every frame completed where nothing outside fails (C25).
    - What is computed, byte by byte: a launch of the kernel is the matrix product
      (C22), a task collects the squares of the frame's regions
      (C4), the pipeline's producer leaves the transform of its frame on the
      device and the consumer accepts nothing else (C23, C24), and completed
      frames were verified (C11).
    - The whole program: it respects the graphs' protocol whatever they answer, and
      tears everything down (C9); exit code 0 means what it says (C10); frames are
      numbered without overlap (C29); threads are placed on their node (C30).
    - Lines for failures name the identity their own thread has at that moment
      (C36), whole and unambiguously (C37).
    - A client of the cache with threads of its own: on a machine that answers, the
      benchmark measures what it means to measure (C27); on
      any machine, and whichever threads cannot be created or placed, it ends
      (C28).
    - A task's [execute] refuses what it should and publishes only work its stream
      has finished (C31); static data read back from the device is what was
      uploaded, with no copy of it left in flight (C39).
    - Functional behaviour on every branch: the remaining ones, with the failures of
      CUDA calls, of allocations and of registrations as ordinary cases.

    ** Bounds and fuel

    Loops over a vector or a list are structural.  The table's probe loops count
    their probes as the code does; its back-shift loop and the doubling of the slot
    count, which the code does not bound, run on fuel that is proved never to run
    out on a well-formed table, as does the walk past busy entries in the fill
    order.  Parsers recurse on the text that is left.  The graph's theorems
    assume fewer than [2 ^ 64] frames and workers, as vectors do; the registry's
    assume fewer than [2 ^ 31] slots per GPU, which an [int] id can number.  The
    pipeline's measure is at most [15 * (frames * (stages + 4) + 3) + 35], for any
    configuration the code accepts.

    ** Not modelled, and why

    - Profiler ranges ([Nvtx]).  The diagnostic scopes are modelled by themselves:
      the code they surround neither reads nor writes them, so that its model leaves
      them out.
    - The tests, and the scripts in [src/tools].
    - Floating-point figures ([framesPerSecond], the throughput [main] prints, the
      percentiles of the benchmarks), the lines the benchmarks print, and the delay of the CPU tasks.
    - Time: the cache's sums of waits are integers without a bound, where the code has
      64-bit counts of nanoseconds; the wait itself does not throw, so that the branch
      of [waitForCacheChange] that catches and throws again is left out.  In the cache's protocol
      [initialize] and [release], which give the mutex back between their two critical
      sections, are one step each: before the second [initialize] builds only what is its
      own, and meanwhile the flag [releasing] makes every call that would change an entry
      be refused.
    - A callback's exception, which [NumaExecutor::run] catches, prints and answers
      with no, as it does a callback that answers no.  A launch runs its threads one after another, in any order, and does not
      interleave their instructions; no thread of the kernels reads what another writes.
    - What is assumed of code outside of the repository: the class of each library's
      calls states it.  Two assumptions go beyond the letter of the documentation or
      leave it open: a failed [cudaMalloc] leaves its out pointer null, as the caller set
      it; a failed [cuDevicePrimaryCtxRelease] may or may not have given its reference
      back, and the theorem on contexts (C38) counts the failures.
    - Within the modelled parts: the destructors that run where the benchmark's
      [measure] throws before it has threads; an allocation failure inside the algorithms a task
      makes, and the printed statistics.  A graph is modelled with a sink of its own,
      where the program's graphs count into one.  In the graph's steps a task's [execute] is one operation with an
      arbitrary outcome, cache and machine; [TaskBehaviour] and [MatrixBehaviour] say
      what it may be.  In the program's run a graph's call is one event with an
      arbitrary answer; [GraphBehaviour] says what the calls do. *)
From stdpp Require Export functions base numbers list gmap.
From stdpp Require Export options.

#[export] Set Default Proof Using "Type".
#[export] Set Warnings "-clear-no-such-hyp".

(** ** Machine integers

    [size_t] and [std::uint64_t] are 64 bits wide.  A value is an [N] below
    [2 ^ 64]; every operation that can leave that range wraps explicitly. *)

Abbreviation size_t := N (only parsing).
Abbreviation uint64 := N (only parsing).
Abbreviation uint32 := N (only parsing).

(** Device pointers, streams and object addresses; [nullptr] is 0. *)
Abbreviation ptr := N (only parsing).
Definition nullptr : ptr := 0%N.

Definition two64 : N := 18446744073709551616%N.
(** [std::numeric_limits<std::size_t>::max()] *)
Definition SIZE_MAX : size_t := 18446744073709551615%N.

Definition wrap64 (x : N) : N := (x mod two64)%N.
Definition add64 (a b : N) : N := wrap64 (a + b)%N.
Definition sub64 (a b : N) : N := wrap64 (a + (two64 - b mod two64))%N.
Definition mul64 (a b : N) : N := wrap64 (a * b)%N.
Definition inc64 (a : N) : N := add64 a 1%N.
Definition dec64 (a : N) : N := sub64 a 1%N.

Lemma wrap64_small x : (x < two64)%N → wrap64 x = x.
Proof. apply N.mod_small. Qed.

Lemma wrap64_lt x : (wrap64 x < two64)%N.
Proof. apply N.mod_lt. done. Qed.

Lemma add64_small a b : (a + b < two64)%N → add64 a b = (a + b)%N.
Proof. apply wrap64_small. Qed.

Lemma inc64_small a : (a + 1 < two64)%N → inc64 a = (a + 1)%N.
Proof. apply wrap64_small. Qed.

Lemma mul64_small a b : (a * b < two64)%N → mul64 a b = (a * b)%N.
Proof. apply wrap64_small. Qed.

Lemma sub64_small a b : (b ≤ a)%N → (a < two64)%N → sub64 a b = (a - b)%N.
Proof.
  intros Hle Hlt. unfold sub64, wrap64.
  rewrite (N.mod_small b) by lia.
  replace (a + (two64 - b))%N with ((a - b) + 1 * two64)%N by lia.
  rewrite N.Div0.mod_add. apply N.mod_small. lia.
Qed.

Lemma dec64_small a : (0 < a)%N → (a < two64)%N → dec64 a = (a - 1)%N.
Proof. intros. apply sub64_small; lia. Qed.

Lemma sub64_max n : (n < two64)%N → sub64 SIZE_MAX n = (SIZE_MAX - n)%N.
Proof. unfold SIZE_MAX, two64. intros Hn. apply sub64_small; unfold two64; lia. Qed.

(** The guard on a product: it is over exactly when the product does not fit. *)
Lemma product_over n t : (0 < n)%N → (SIZE_MAX / n <? t)%N = negb (t * n <? two64)%N.
Proof.
  intros Hn. pose proof (N.Div0.mul_div_le SIZE_MAX n) as Hdiv.
  destruct (N.ltb_spec (SIZE_MAX / n) t) as [Hlt|Hge], (N.ltb_spec (t * n) two64) as [Hs|Hs]; simpl; try done; exfalso.
  - apply N.lt_nge in Hlt. apply Hlt. apply N.div_le_lower_bound; [lia|]. unfold SIZE_MAX, two64 in *. lia.
  - assert (n * t ≤ n * (SIZE_MAX / n))%N by (by apply N.mul_le_mono_l). unfold SIZE_MAX, two64 in *. lia.
Qed.

(** ** Vectors

    [vec[index]] with a [size_t] index.  [vat] is [None] out of range, where
    the C++ expression has no defined behaviour; [vset] is only used on an
    index that [vat] accepted. *)
Section vectors.
Context {A : Type}.
Implicit Types (l : list A) (i j : N).

Fixpoint vat l i : option A :=
  match l with
  | [] => None
  | x :: l' => if N.eqb i 0 then Some x else vat l' (N.pred i)
  end.

Fixpoint vset l i (y : A) : list A :=
  match l with
  | [] => []
  | x :: l' => if N.eqb i 0 then y :: l' else x :: vset l' (N.pred i) y
  end.

Definition vsize l : size_t := N.of_nat (length l).

Lemma vat_lookup l i : vat l i = l !! N.to_nat i.
Proof.
  revert i. induction l as [|x l IH]; intros i; simpl; [done|].
  destruct (N.eqb_spec i 0) as [->|Hi]; [done|].
  rewrite IH. replace (N.to_nat i) with (S (N.to_nat (N.pred i))) by lia. done.
Qed.

Lemma vset_insert l i y : vset l i y = <[N.to_nat i := y]> l.
Proof.
  revert i. induction l as [|x l IH]; intros i; simpl; [done|].
  destruct (N.eqb_spec i 0) as [->|Hi]; [done|].
  rewrite IH. replace (N.to_nat i) with (S (N.to_nat (N.pred i))) by lia. done.
Qed.

Lemma vat_lt l i x : vat l i = Some x → (i < vsize l)%N.
Proof. rewrite vat_lookup. intros ?%lookup_lt_Some. unfold vsize. lia. Qed.

Lemma vat_is_Some l i : is_Some (vat l i) ↔ (i < vsize l)%N.
Proof. rewrite vat_lookup, lookup_lt_is_Some. unfold vsize. lia. Qed.

Lemma vat_None l i : vat l i = None ↔ (vsize l ≤ i)%N.
Proof. rewrite vat_lookup, lookup_ge_None. unfold vsize. lia. Qed.

Lemma vat_ge l i : (vsize l ≤ i)%N → vat l i = None.
Proof. apply vat_None. Qed.

Lemma vat_exists l i : (i < vsize l)%N → ∃ x, vat l i = Some x.
Proof. intros ?%vat_is_Some. done. Qed.

Lemma vsize_vset l i y : vsize (vset l i y) = vsize l.
Proof. unfold vsize. rewrite vset_insert, length_insert. done. Qed.

Lemma vat_vset_eq l i y : (i < vsize l)%N → vat (vset l i y) i = Some y.
Proof.
  intros. rewrite vat_lookup, vset_insert. apply list_lookup_insert_eq.
  unfold vsize in *. lia.
Qed.

Lemma vat_vset_ne l i j y : i ≠ j → vat (vset l i y) j = vat l j.
Proof.
  intros. rewrite !vat_lookup, vset_insert. apply list_lookup_insert_ne. lia.
Qed.

Lemma vat_vset l i j y :
  vat (vset l i y) j =
    if decide (i = j ∧ (i < vsize l)%N) then Some y else vat l j.
Proof.
  case_decide as Hd; [destruct Hd as [-> ?]; by apply vat_vset_eq|].
  destruct (decide (i = j)) as [->|]; [|by apply vat_vset_ne].
  rewrite !(vat_ge _ j); [done| |rewrite vsize_vset]; destruct (N.lt_ge_cases j (vsize l)); naive_solver.
Qed.

Lemma vset_vset l i x y : vset (vset l i x) i y = vset l i y.
Proof. rewrite !vset_insert. apply list_insert_insert_eq. Qed.

Lemma vat_snoc l x i :
  vat (l ++ [x]) i = if decide (i = vsize l) then Some x else vat l i.
Proof.
  rewrite !vat_lookup. unfold vsize. case_decide as Hd; subst.
  - rewrite Nat2N.id, lookup_app_r by lia. by rewrite Nat.sub_diag.
  - destruct (decide (N.to_nat i < length l)).
    + by rewrite lookup_app_l.
    + rewrite !lookup_ge_None_2; [done| lia | rewrite length_app; simpl; lia].
Qed.

Lemma vat_ext l1 l2 : (∀ i, vat l1 i = vat l2 i) → l1 = l2.
Proof.
  intros Heq. apply list_eq. intros i. specialize (Heq (N.of_nat i)).
  by rewrite !vat_lookup, Nat2N.id in Heq.
Qed.

Lemma vat_elem_of l i x : vat l i = Some x → x ∈ l.
Proof. rewrite vat_lookup. apply list_elem_of_lookup_2. Qed.

Lemma elem_of_vat l x : x ∈ l → ∃ i, vat l i = Some x.
Proof.
  intros [i Hi]%list_elem_of_lookup. exists (N.of_nat i).
  by rewrite vat_lookup, Nat2N.id.
Qed.
End vectors.

Lemma vat_fmap {A B} (f : A → B) (l : list A) i : vat (f <$> l) i = f <$> vat l i.
Proof. by rewrite !vat_lookup, list_lookup_fmap. Qed.

Lemma vsize_cons {A} (x : A) (l : list A) : vsize (x :: l) = (1 + vsize l)%N.
Proof. unfold vsize. simpl. lia. Qed.

Lemma vsize_fmap {A B} (f : A → B) (l : list A) : vsize (f <$> l) = vsize l.
Proof. unfold vsize. by rewrite length_fmap. Qed.

Lemma vat_replicate {A} n (x : A) i :
  vat (replicate n x) i = if decide (i < N.of_nat n)%N then Some x else None.
Proof.
  rewrite vat_lookup. case_decide.
  - apply lookup_replicate_2. lia.
  - apply lookup_ge_None_2. rewrite length_replicate. lia.
Qed.

Lemma NoDup_vat_inj {A} (l : list A) i j x :
  NoDup l → vat l i = Some x → vat l j = Some x → i = j.
Proof.
  rewrite !vat_lookup. intros Hnd Hi Hj.
  pose proof (NoDup_lookup _ _ _ _ Hnd Hi Hj). lia.
Qed.

Lemma fn_insert_same {A B} `{EqDecision A} (f : A → B) (i j : A) : <[i := f i]> f j = f j.
Proof.
  by destruct (decide (j = i)) as [->|]; rewrite ?fn_lookup_insert, ?fn_lookup_insert_ne.
Qed.

(** ** Sums along a list *)

Lemma insert_others {A} (l : list A) i x y :
  l !! i = Some x → l ≡ₚ x :: delete i l ∧ <[i := y]> l ≡ₚ y :: delete i l.
Proof.
  intros Hx. split; [by apply delete_Permutation|].
  rewrite insert_take_drop by (by eapply lookup_lt_Some). rewrite delete_take_drop.
  symmetry. apply Permutation_middle.
Qed.

Lemma sum_insert {A} (f : A → nat) (l : list A) i x y :
  l !! i = Some x → (sum_list_with f (<[i := y]> l) + f x = sum_list_with f l + f y)%nat.
Proof.
  intros Hx. destruct (insert_others l i x y Hx) as [Hp Hp'].
  rewrite (sum_list_with_Permutation_proper _ _ _ Hp), (sum_list_with_Permutation_proper _ _ _ Hp'). csimpl. lia.
Qed.

(** The sum in [N], for 64-bit counters. *)
Definition nsum {A} (f : A → N) (l : list A) : N := foldr (λ x total, f x + total)%N 0%N l.

Lemma nsum_app {A} (f : A → N) (l k : list A) : nsum f (l ++ k) = (nsum f l + nsum f k)%N.
Proof. induction l as [|x l IH]; simpl; [done|]. rewrite IH. lia. Qed.

Lemma nsum_perm {A} (f : A → N) (l k : list A) : l ≡ₚ k → nsum f l = nsum f k.
Proof. induction 1; simpl; lia. Qed.

Lemma nsum_insert {A} (f : A → N) (l : list A) i x y :
  l !! i = Some x → (nsum f (<[i := y]> l) + f x = nsum f l + f y)%N.
Proof.
  intros Hx. destruct (insert_others l i x y Hx) as [Hp Hp'].
  rewrite (nsum_perm _ _ _ Hp), (nsum_perm _ _ _ Hp'). simpl. lia.
Qed.

Lemma nsum_le {A} (f : A → N) (l : list A) n : (∀ x, x ∈ l → f x ≤ n)%N → (nsum f l ≤ N.of_nat (length l) * n)%N.
Proof.
  induction l as [|x l IH]; intros Hall; simpl; [lia|].
  pose proof (Hall x ltac:(by left)). specialize (IH (λ y Hy, Hall y ltac:(by right))). lia.
Qed.

Lemma nsum_const {A} (f : A → N) (l : list A) n : (∀ x, x ∈ l → f x = n)%N → nsum f l = (N.of_nat (length l) * n)%N.
Proof.
  induction l as [|x l IH]; intros Hall; simpl; [done|].
  rewrite (Hall x) by left. rewrite IH; [lia|]. intros y Hy. apply Hall. by right.
Qed.

(** An address above every key of a map is a new one. *)
Lemma above_keys_fresh {A} (m : gmap N A) :
  let top := map_fold (λ k _ highest, N.max k highest) 0%N m in
  N.succ top ≠ 0%N ∧ m !! N.succ top = None.
Proof.
  intros top. split; [lia|].
  assert (∀ k x, m !! k = Some x → (k ≤ top)%N) as Htop.
  { unfold top. apply (map_fold_weak_ind (λ r m, ∀ k x, m !! k = Some x → (k ≤ r)%N)).
    - intros k x. by rewrite lookup_empty.
    - intros i x m' r Hi IH k y. destruct (decide (k = i)) as [->|Hne]; [lia|].
      rewrite lookup_insert_ne by done. intros Hk%IH. lia. }
  destruct (m !! N.succ top) as [x|] eqn:Hx; [|done]. apply Htop in Hx. lia.
Qed.

(** ** Field assignment

    [r <| field := v |>] is the record [r] after the assignment
    [r.field = v].  Each record type declares its fields' setters from its
    eta expansion. *)
Class Setter {R T : Type} (field : R → T) := set_field : (T → T) → R → R.
#[global] Arguments set_field {R T} field {_} _ _ / : assert.

Ltac make_setter field eta :=
  intros f r;
  let t := eval cbv beta delta [eta] in (eta r) in
  match eval pattern (field r) in t with
  | ?g _ => let t' := eval cbv beta in (g (f (field r))) in exact t'
  end.

Declare Scope gpuinfra_scope.
Delimit Scope gpuinfra_scope with gpu.
Notation "r <| field := v |>" := (set_field field (λ _, v) r)
  (at level 1, left associativity, field constr, v at level 200)
  : gpuinfra_scope.
#[global] Open Scope gpuinfra_scope.
