(* ===== verification/Platform.v ===== *)
(** The platform the library runs on: what the source calls and does not
    define.  One class gathers the CUDA runtime calls, the host allocator and
    [std::hash]; every definition that reaches one of them takes the class as
    an argument.  A call consumes and returns a [world], the state of the
    machine outside the program, so that a call may fail once and succeed
    later.  Statuses are the raw [cudaError_t]/[CUresult] codes. *)
From S2P Require Import Prelude.

(** A runtime or driver status; [cudaSuccess] and [CUDA_SUCCESS] are 0. *)
Abbreviation cuda_status := Z (only parsing).
Definition cudaSuccess : cuda_status := 0%Z.

Class Platform := {
  world : Type;
  (** Storage for a host container of that many elements: [false] is the
      exception ([std::bad_alloc], [std::length_error]) the code catches. *)
  host_alloc : N → world → bool * world;
  (** [std::hash<std::uint64_t>] and [std::hash<std::uint32_t>]. *)
  std_hash_u64 : N → N;
  std_hash_u32 : N → N;
  (** [cudaGetDevice(&device)]: the status and the value written. *)
  cudaGetDevice : world → cuda_status * Z * world;
  cudaSetDevice : Z → world → cuda_status * world;
  (** [cudaMalloc(&pointer, bytes)]: the status and the pointer written. *)
  cudaMalloc : N → world → cuda_status * ptr * world;
  cudaFree : ptr → world → cuda_status * world;
  cudaStreamSynchronize : ptr → world → cuda_status * world;
  (** [cudaStreamCreateWithFlags(&stream, cudaStreamNonBlocking)] *)
  cudaStreamCreate : world → cuda_status * ptr * world;
  cudaStreamDestroy : ptr → world → cuda_status * world;
  (** [cudaMemsetAsync(pointer, 0, bytes, stream)] *)
  cudaMemsetAsync : ptr → N → ptr → world → cuda_status * world;
  (** [cudaMemcpyAsync(destination, source, bytes, cudaMemcpyHostToDevice,
      stream)] *)
  cudaMemcpyAsync : ptr → ptr → N → ptr → world → cuda_status * world;
  (** [cudaMemGetInfo(&free, &total)] *)
  cudaMemGetInfo : world → cuda_status * N * N * world;
}.

(** [CUDA_CHECK(call, onError)] evaluates [call] once and runs [onError]
    exactly when the status is not success; the report it prints has no effect
    on the program state. *)
Definition cuda_ok (status : cuda_status) : bool := Z.eqb status cudaSuccess.

(** Documented behaviour of the runtime that some properties rely on. *)
Class PlatformLaws `{Platform} := {
  (** A successful allocation of a positive size returns a device address. *)
  malloc_nonnull bytes w st p w' :
    cudaMalloc bytes w = (st, p, w') → cuda_ok st = true → bytes ≠ 0%N →
    p ≠ nullptr;
  (** A failed allocation leaves the out pointer as the caller set it, null.  The
      runtime promises nothing of it; the code's clean-up relies on it. *)
  malloc_failed bytes w st p w' :
    cudaMalloc bytes w = (st, p, w') → cuda_ok st = false → p = nullptr;
}.
