(* ===== verification/GpuDataKey.v ===== *)
(** Payload identity: [GpuDataKey] with its equality and hash
    ([src/DataCache/GpuDataKey.h]) and the frame layout it is cached under
    ([src/Types/FrameMetadata.h]). *)
From S2P Require Import Prelude.
From S2P Require Import Platform.
#[local] Open Scope N_scope.

Record GpuDataKey := mkKey {
  frameId : uint64;
  cameraId : uint32;
  variantId : uint64;
}.

(** [GpuDataKey()] *)
Definition GpuDataKey_default : GpuDataKey := mkKey 0 0 0.

#[export] Instance GpuDataKey_eq_dec : EqDecision GpuDataKey.
Proof. solve_decision. Defined.

#[export] Instance GpuDataKey_countable : Countable GpuDataKey.
Proof.
  refine (inj_countable' (λ k, (frameId k, cameraId k, variantId k))
    (λ '(f, c, v), mkKey f c v) _).
  by intros [].
Defined.

(** [operator==] compares all three fields. *)
Definition key_eqb (a b : GpuDataKey) : bool :=
  (frameId a =? frameId b) && (cameraId a =? cameraId b)
  && (variantId a =? variantId b).

Lemma key_eqb_spec a b : reflect (a = b) (key_eqb a b).
Proof.
  apply iff_reflect. unfold key_eqb.
  rewrite !andb_true_iff, !N.eqb_eq. 
  split; [by intros ->|]. destruct a, b; simpl. intuition congruence.
Qed.

Lemma key_eqb_refl a : key_eqb a a = true.
Proof. by destruct (key_eqb_spec a a). Qed.

Lemma key_eqb_ne a b : a ≠ b → key_eqb a b = false.
Proof. by destruct (key_eqb_spec a b). Qed.

Definition GpuDataKeyHash `{Platform} (key : GpuDataKey) : size_t :=
  let golden := 11400714819323198485 in
  let value := std_hash_u64 (frameId key) in
  let value := N.lxor value
    (add64 (add64 (add64 (std_hash_u32 (cameraId key)) golden)
       (wrap64 (N.shiftl value 6))) (N.shiftr value 2)) in
  let value := N.lxor value
    (add64 (add64 (add64 (std_hash_u64 (variantId key)) golden)
       (wrap64 (N.shiftl value 6))) (N.shiftr value 2)) in
  value.

Record FrameMetadata := mkMetadata {
  md_key : GpuDataKey;
  md_bytes : size_t;
  md_width : Z;
  md_height : Z;
  md_dtype : Z;
}.

(** [FrameMetadata()] *)
Definition FrameMetadata_default : FrameMetadata :=
  mkMetadata GpuDataKey_default 0 0 0 0.

#[export] Instance FrameMetadata_eq_dec : EqDecision FrameMetadata.
Proof. solve_decision. Defined.

(** [operator==] compares the key and the whole layout. *)
Definition metadata_eqb (a b : FrameMetadata) : bool :=
  key_eqb (md_key a) (md_key b) && (md_bytes a =? md_bytes b) && (md_width a =? md_width b)%Z
  && (md_height a =? md_height b)%Z && (md_dtype a =? md_dtype b)%Z.

Lemma metadata_eqb_spec a b : reflect (a = b) (metadata_eqb a b).
Proof.
  apply iff_reflect. unfold metadata_eqb.
  rewrite !andb_true_iff, !N.eqb_eq, !Z.eqb_eq.
  rewrite <-(reflect_iff _ _ (key_eqb_spec _ _)).
  split; [by intros ->|]. destruct a, b; simpl. intuition congruence.
Qed.

Lemma metadata_eqb_refl a : metadata_eqb a a = true.
Proof. by destruct (metadata_eqb_spec a a). Qed.
