(* ===== verification/GpuResidencyTable.v ===== *)
(** [GpuResidencyTable]: the fixed-capacity open-addressing index from resident
    payload keys to cache entries ([src/DataCache/GpuResidencyTable.h] and
    [.cpp]), with linear probing and backward-shift deletion.

    The definitions follow the code slot by slot.  The result [None] of an
    operation stands for an execution with no defined behaviour (an index out
    of range) or a loop that exceeds its fuel; the theorems show that on a
    well-formed table it never occurs.  [table_rep t m] relates a table to the
    finite map it implements, and every operation is shown to implement the
    operation of that map. *)
From S2P Require Import Prelude.
From S2P Require Import Platform.
From S2P Require Import GpuDataKey.
#[local] Open Scope N_scope.

(** ** Ring arithmetic

    The successor and the forward distance on a ring of [n] slots, and their
    agreement with the masked and guarded arithmetic the table uses when [n] is a
    power of two. *)

Definition ring_next (n i : N) : N := if i + 1 =? n then 0 else i + 1.
Definition ring_dist (n i j : N) : N := if i <=? j then j - i else n - (i - j).

Lemma ring_next_cases n i :
  i + 1 = n ∧ ring_next n i = 0 ∨ i + 1 ≠ n ∧ ring_next n i = i + 1.
Proof. unfold ring_next. destruct (N.eqb_spec (i + 1) n); lia. Qed.

Lemma ring_dist_cases n i j :
  i ≤ j ∧ ring_dist n i j = j - i ∨ j < i ∧ ring_dist n i j = n - (i - j).
Proof. unfold ring_dist. destruct (N.leb_spec i j); lia. Qed.

(** Linear arithmetic with the ring operations: every occurrence is replaced by
    a variable constrained by its two cases. *)
Ltac ring_lia :=
  repeat match goal with
  | |- context [ring_next ?n ?i] =>
      pose proof (ring_next_cases n i); generalize dependent (ring_next n i); intros
  | H : context [ring_next ?n ?i] |- _ =>
      pose proof (ring_next_cases n i); generalize dependent (ring_next n i); intros
  end;
  repeat match goal with
  | |- context [ring_dist ?n ?i ?j] =>
      pose proof (ring_dist_cases n i j); generalize dependent (ring_dist n i j); intros
  | H : context [ring_dist ?n ?i ?j] |- _ =>
      pose proof (ring_dist_cases n i j); generalize dependent (ring_dist n i j); intros
  end; lia.

Lemma ring_next_lt n i : i < n → ring_next n i < n.
Proof. ring_lia. Qed.

Lemma ring_dist_lt n i j : i < n → j < n → ring_dist n i j < n.
Proof. ring_lia. Qed.

Lemma ring_dist_self n i : ring_dist n i i = 0.
Proof. ring_lia. Qed.

Lemma ring_dist_0 n i j : i < n → j < n → ring_dist n i j = 0 → i = j.
Proof. ring_lia. Qed.

(** Walking one slot forward adds one to the distance walked so far... *)
Lemma ring_dist_next n h i :
  h < n → i < n → ring_dist n h i + 1 < n →
  ring_dist n h (ring_next n i) = ring_dist n h i + 1.
Proof. ring_lia. Qed.

(** ... and removes one from the distance still to walk. *)
Lemma ring_dist_from_next n i j :
  i < n → j < n → i ≠ j →
  ring_dist n (ring_next n i) j + 1 = ring_dist n i j.
Proof. ring_lia. Qed.

Lemma ring_dist_inj n h i j :
  h < n → i < n → j < n → ring_dist n h i = ring_dist n h j → i = j.
Proof. ring_lia. Qed.

(** Beyond an intermediate stop, distances add up. *)
Lemma ring_dist_split n h e j :
  h < n → e < n → j < n → ring_dist n h e ≤ ring_dist n h j →
  ring_dist n h j = ring_dist n h e + ring_dist n e j.
Proof. ring_lia. Qed.

(** A stop reached from [e] no later than [j] lies on the walk from [h]
    through [e] to [j]. *)
Lemma ring_dist_between n h e s j :
  h < n → e < n → s < n → j < n →
  ring_dist n h e ≤ ring_dist n h j → ring_dist n e s ≤ ring_dist n e j →
  ring_dist n h s ≤ ring_dist n h j.
Proof.
  intros Hh He Hs Hj Hhe Hes.
  destruct (N.le_gt_cases (ring_dist n h e) (ring_dist n h s)); [|lia].
  rewrite (ring_dist_split n h e s), (ring_dist_split n h e j) by done. lia.
Qed.

(** Nothing lies between a slot and its successor. *)
Lemma ring_dist_next_first n i j :
  1 < n → i < n → j < n → j ≠ i → ring_dist n i (ring_next n i) ≤ ring_dist n i j.
Proof. ring_lia. Qed.

Lemma ring_next_between n i p :
  1 < n → i < n → p < n → 0 < ring_dist n i p →
  ring_dist n i (ring_next n i) ≤ ring_dist n i p.
Proof. ring_lia. Qed.

Lemma ring_next_ne n i : 1 < n → i < n → ring_next n i ≠ i.
Proof. ring_lia. Qed.

Lemma ring_dist_pos n i j : i < n → j < n → i ≠ j → 0 < ring_dist n i j.
Proof. ring_lia. Qed.

(** ** Powers of two *)

Lemma land_pow2_mod x k : N.land x (2 ^ k - 1) = x mod 2 ^ k.
Proof. rewrite N.sub_1_r, <-N.ones_equiv. apply N.land_ones. Qed.

Lemma land_pow2_lt x k : N.land x (2 ^ k - 1) < 2 ^ k.
Proof. rewrite land_pow2_mod. apply N.mod_lt, N.pow_nonzero. done. Qed.

Lemma land_pow2_next i k :
  i < 2 ^ k → N.land (i + 1) (2 ^ k - 1) = ring_next (2 ^ k) i.
Proof.
  intros Hi. rewrite land_pow2_mod. unfold ring_next.
  destruct (N.eqb_spec (i + 1) (2 ^ k)) as [->|].
  - apply N.Div0.mod_same.
  - apply N.mod_small. lia.
Qed.

Lemma ring_dist_sub64 n i j :
  i < n → j < n → n < two64 →
  (if i <=? j then sub64 j i else sub64 n (sub64 i j)) = ring_dist n i j.
Proof.
  intros Hi Hj Hn. unfold ring_dist. destruct (N.leb_spec i j).
  - apply sub64_small; lia.
  - rewrite (sub64_small i j) by lia. apply sub64_small; lia.
Qed.

(** ** The table *)

Record Slot := mkSlot {
  slot_key : GpuDataKey;
  slot_entryIndex : size_t;
  slot_occupied : bool;
}.

(** [Slot()] *)
Definition Slot_default : Slot := mkSlot GpuDataKey_default 0 false.

Record GpuResidencyTable := mkTable {
  slots : list Slot;
  residentLimit : size_t;
  residentCount : size_t;
  table_initialized : bool;
}.

(** [GpuResidencyTable()] *)
Definition GpuResidencyTable_default : GpuResidencyTable := mkTable [] 0 0 false.

Definition NO_SLOT : size_t := SIZE_MAX.

(** The doubling loop of [initialize]: [Some None] is its [return false]. *)
Fixpoint growSlotCount (fuel : nat) (newSlotCount requiredSlots : size_t) :
    option (option size_t) :=
  match fuel with
  | O => None
  | S fuel' =>
      if newSlotCount <? requiredSlots then
        if SIZE_MAX / 2 <? newSlotCount then Some None
        else growSlotCount fuel' (mul64 newSlotCount 2) requiredSlots
      else Some (Some newSlotCount)
  end.

Definition table_clear (t : GpuResidencyTable) : GpuResidencyTable :=
  mkTable ((λ _, Slot_default) <$> slots t) (residentLimit t) 0
    (table_initialized t).

Definition table_release (t : GpuResidencyTable) : GpuResidencyTable :=
  mkTable [] 0 0 false.

Definition table_swap (t other : GpuResidencyTable) :
    GpuResidencyTable * GpuResidencyTable :=
  (mkTable (slots other) (residentLimit other) (residentCount other)
     (table_initialized other),
   mkTable (slots t) (residentLimit t) (residentCount t) (table_initialized t)).

Definition slotCount (t : GpuResidencyTable) : size_t := vsize (slots t).

Definition nextSlot (slots : list Slot) (index : size_t) : size_t :=
  N.land (add64 index 1) (sub64 (vsize slots) 1).

Definition probeDistance (slots : list Slot) (home index : size_t) : size_t :=
  if home <=? index then sub64 index home
  else sub64 (vsize slots) (sub64 home index).

Section operations.
Context `{Platform}.

Definition table_initialize (t : GpuResidencyTable)
    (maxResidentEntries : size_t) (w : world) :
    option (bool * GpuResidencyTable * world) :=
  if table_initialized t || negb (vsize (slots t) =? 0)
     || negb (residentLimit t =? 0) || negb (residentCount t =? 0)
  then Some (false, t, w)
  else if negb (maxResidentEntries =? 0)
          && (SIZE_MAX / 2 <? maxResidentEntries)
  then Some (false, t, w)
  else
    let requiredSlots :=
      if maxResidentEntries =? 0 then 0 else mul64 maxResidentEntries 2 in
    grown ← growSlotCount 65 (if requiredSlots =? 0 then 0 else 1) requiredSlots;
    match grown with
    | None => Some (false, t, w)
    | Some newSlotCount =>
        let '(resized, w) := host_alloc newSlotCount w in
        if resized then
          Some (true, mkTable (replicate (N.to_nat newSlotCount) Slot_default)
                        maxResidentEntries 0 true, w)
        else Some (false, t, w)
    end.

Definition homeSlot (slots : list Slot) (key : GpuDataKey) : size_t :=
  N.land (GpuDataKeyHash key) (sub64 (vsize slots) 1).

(** The [for] loop of [findSlot], [probes] iterations from the end. *)
Fixpoint findSlot_loop (slots : list Slot) (key : GpuDataKey) (probes : nat)
    (index : size_t) : option size_t :=
  match probes with
  | O => Some NO_SLOT
  | S probes' =>
      slot ← vat slots index;
      if negb (slot_occupied slot) then Some NO_SLOT
      else if key_eqb (slot_key slot) key then Some index
      else findSlot_loop slots key probes' (nextSlot slots index)
  end.

Definition findSlot (slots : list Slot) (key : GpuDataKey) : option size_t :=
  if vsize slots =? 0 then Some NO_SLOT
  else findSlot_loop slots key (length slots) (homeSlot slots key).

(** [find] returns a flag and writes the entry index when it is true:
    [Some None] is [false], [Some (Some i)] is [true] with [i] written. *)
Definition table_find (t : GpuResidencyTable) (key : GpuDataKey) :
    option (option size_t) :=
  if negb (table_initialized t) then Some None
  else
    index ← findSlot (slots t) key;
    if index =? NO_SLOT then Some None
    else slot ← vat (slots t) index; Some (Some (slot_entryIndex slot)).

(** The [for] loop of [insert]: the slot list after the insertion, or the
    [return false] of a duplicate key or an exhausted table. *)
Fixpoint insert_loop (slots : list Slot) (key : GpuDataKey)
    (entryIndex : size_t) (probes : nat) (index : size_t) :
    option (option (list Slot)) :=
  match probes with
  | O => Some None
  | S probes' =>
      slot ← vat slots index;
      if negb (slot_occupied slot) then
        Some (Some (vset slots index (mkSlot key entryIndex true)))
      else if key_eqb (slot_key slot) key then Some None
      else insert_loop slots key entryIndex probes' (nextSlot slots index)
  end.

Definition table_insert (t : GpuResidencyTable) (key : GpuDataKey)
    (entryIndex : size_t) : option (bool * GpuResidencyTable) :=
  if negb (table_initialized t) || (residentLimit t <=? residentCount t)
     || (vsize (slots t) =? 0)
  then Some (false, t)
  else
    inserted ← insert_loop (slots t) key entryIndex (length (slots t))
                 (homeSlot (slots t) key);
    match inserted with
    | None => Some (false, t)
    | Some slots' =>
        Some (true, mkTable slots' (residentLimit t) (inc64 (residentCount t))
                      (table_initialized t))
    end.

(** The [while] loop of [eraseSlot]: shift back every entry whose probe path
    crosses the hole, then clear the last hole. *)
Fixpoint eraseSlot_loop (fuel : nat) (slots : list Slot)
    (emptyIndex scanIndex : size_t) : option (list Slot) :=
  match fuel with
  | O => None
  | S fuel' =>
      scanned ← vat slots scanIndex;
      if slot_occupied scanned then
        let homeIndex := homeSlot slots (slot_key scanned) in
        if probeDistance slots homeIndex emptyIndex
           <? probeDistance slots homeIndex scanIndex
        then eraseSlot_loop fuel' (vset slots emptyIndex scanned) scanIndex
               (nextSlot slots scanIndex)
        else eraseSlot_loop fuel' slots emptyIndex (nextSlot slots scanIndex)
      else Some (vset slots emptyIndex Slot_default)
  end.

Definition eraseSlot (slots : list Slot) (index : size_t) : option (list Slot) :=
  eraseSlot_loop (length slots) slots index (nextSlot slots index).

Definition table_erase (t : GpuResidencyTable) (key : GpuDataKey)
    (entryIndex : size_t) : option (bool * GpuResidencyTable) :=
  if negb (table_initialized t) then Some (false, t)
  else
    index ← findSlot (slots t) key;
    if index =? NO_SLOT then Some (false, t)
    else
      slot ← vat (slots t) index;
      if negb (slot_entryIndex slot =? entryIndex) then Some (false, t)
      else
        slots' ← eraseSlot (slots t) index;
        Some (true, mkTable slots' (residentLimit t) (dec64 (residentCount t))
                      (table_initialized t)).

End operations.

(** ** What a slot array represents *)

Definition holds (s : list Slot) (i : N) (k : GpuDataKey) (v : N) : Prop :=
  vat s i = Some (mkSlot k v true).

Definition occupied (s : list Slot) (i : N) : Prop := ∃ k v, holds s i k v.

Section representation.
Context `{Platform}.

Definition home (n : N) (k : GpuDataKey) : N := N.land (GpuDataKeyHash k) (n - 1).

(** [slots_rep n s e m]: the slot array [s] of size [n] holds exactly the
    entries of the map [m], each key once, and every slot on the probe path of
    a stored entry is occupied.  With [e = Some i], slot [i] is a hole: its
    content does not count as an entry, but it still counts as occupied. *)
Record slots_rep (n : N) (s : list Slot) (e : option N) (m : gmap GpuDataKey N) : Prop := {
  rep_map k v : m !! k = Some v ↔ ∃ i, Some i ≠ e ∧ holds s i k v;
  rep_unique i j k v v' :
    Some i ≠ e → Some j ≠ e → holds s i k v → holds s j k v' → i = j;
  rep_path i k v p :
    Some i ≠ e → holds s i k v → p < n →
    ring_dist n (home n k) p < ring_dist n (home n k) i → occupied s p;
}.

(** A power of two that the 64-bit index arithmetic can mask with. *)
Definition slot_size (n : N) : Prop := (∃ b, n = 2 ^ b) ∧ n < two64.

(** The whole table implements the map [m]. *)
Record table_rep (t : GpuResidencyTable) (m : gmap GpuDataKey N) : Prop := {
  table_ready : table_initialized t = true;
  table_slots : slots_rep (vsize (slots t)) (slots t) None m;
  table_size : residentLimit t = 0 ∧ vsize (slots t) = 0
    ∨ slot_size (vsize (slots t)) ∧ residentLimit t ≠ 0
      ∧ 2 * residentLimit t ≤ vsize (slots t);
  table_count : residentCount t = N.of_nat (size m);
  table_bound : N.of_nat (size m) ≤ residentLimit t;
}.

End representation.

Section slot_arrays.
Context `{Platform}.
Implicit Types (s : list Slot) (m : gmap GpuDataKey N) (n i j p : N).

Lemma slot_size_pos n : slot_size n → 0 < n.
Proof. intros [[b ->] _]. apply N.neq_0_lt_0, N.pow_nonzero. done. Qed.

Lemma home_lt n k : slot_size n → home n k < n.
Proof. intros [[b ->] _]. apply land_pow2_lt. Qed.

Lemma homeSlot_home s k : slot_size (vsize s) → homeSlot s k = home (vsize s) k.
Proof.
  intros Hn. pose proof (slot_size_pos _ Hn). destruct Hn as [_ Hlt].
  unfold homeSlot, home. by rewrite sub64_small by lia.
Qed.

Lemma nextSlot_next s i :
  slot_size (vsize s) → i < vsize s → nextSlot s i = ring_next (vsize s) i.
Proof.
  intros Hn Hi. pose proof (slot_size_pos _ Hn). destruct Hn as [[b Hb] Hlt].
  unfold nextSlot. rewrite sub64_small, add64_small by lia.
  rewrite Hb in *. by apply land_pow2_next.
Qed.

Lemma probeDistance_dist s i j :
  slot_size (vsize s) → i < vsize s → j < vsize s →
  probeDistance s i j = ring_dist (vsize s) i j.
Proof. intros [_ ?] ??. by apply ring_dist_sub64. Qed.

Lemma holds_lt s i k v : holds s i k v → i < vsize s.
Proof. apply vat_lt. Qed.

Lemma occupied_lt s i : occupied s i → i < vsize s.
Proof. intros (? & ? & ?%holds_lt). done. Qed.

Lemma holds_inj s i k v k' v' :
  holds s i k v → holds s i k' v' → k' = k ∧ v' = v.
Proof. unfold holds. intros. by simplify_eq. Qed.

(** Reading a slot: it is occupied by an entry or free. *)
Lemma vat_slot_cases s i :
  i < vsize s →
  (∃ k v, vat s i = Some (mkSlot k v true) ∧ holds s i k v)
  ∨ ∃ k v, vat s i = Some (mkSlot k v false) ∧ ¬ occupied s i.
Proof.
  intros [[k v []] Hs]%vat_exists; [left|right]; exists k, v; split; try done.
  intros (k' & v' & Hh). unfold holds in Hh. congruence.
Qed.

Lemma occupied_dec s i : occupied s i ∨ ¬ occupied s i.
Proof.
  destruct (N.lt_ge_cases i (vsize s)) as [Hi|Hi].
  - destruct (vat_slot_cases s i Hi) as [(k & v & _ & ?)|(k & v & _ & ?)]; [left|by right].
    by exists k, v.
  - right. intros ?%occupied_lt. lia.
Qed.

(** Pigeonhole: an array with more slots than keys has a free slot. *)
Lemma free_slot s m :
  slots_rep (vsize s) s None m → N.of_nat (size m) < vsize s →
  ∃ u, u < vsize s ∧ ¬ occupied s u.
Proof.
  intros Hrep Hsize.
  destruct (decide (Forall (λ sl, slot_occupied sl = true) s)) as [Hall|Hfree].
  - exfalso. rewrite Forall_forall in Hall.
    assert (∀ i sl, vat s i = Some sl → holds s i (slot_key sl) (slot_entryIndex sl)) as Hholds.
    { intros i sl Hi. unfold holds. rewrite Hi. f_equal.
      specialize (Hall sl (vat_elem_of _ _ _ Hi)). by destruct sl; simpl in *; subst. }
    assert (NoDup (slot_key <$> s)) as Hnodup.
    { apply NoDup_alt. intros i j k Hi Hj.
      apply list_lookup_fmap_Some in Hi as (sl & -> & Hi).
      apply list_lookup_fmap_Some in Hj as (sl' & Heq & Hj).
      assert (N.of_nat i = N.of_nat j) as Hij; [|lia].
      eapply (rep_unique _ _ _ _ Hrep); [done..| |].
      - apply Hholds. by rewrite vat_lookup, Nat2N.id.
      - rewrite Heq. apply Hholds. by rewrite vat_lookup, Nat2N.id. }
    assert (list_to_set (slot_key <$> s) ⊆ dom m) as Hsub.
    { intros k. rewrite elem_of_list_to_set, list_elem_of_fmap.
      intros (sl & -> & [i Hi]%elem_of_vat). apply elem_of_dom. eexists.
      apply (rep_map _ _ _ _ Hrep). exists i. split; [done|]. by apply Hholds. }
    apply subseteq_size in Hsub.
    rewrite size_dom, (size_list_to_set _ Hnodup), length_fmap in Hsub.
    unfold vsize in Hsize. lia.
  - apply not_Forall_Exists, Exists_exists in Hfree; [|apply _].
    destruct Hfree as (sl & [i Hi]%elem_of_vat & Hocc).
    exists i. split; [by eapply vat_lt|].
    intros (k & v & Hh). unfold holds in Hh. simplify_eq/=.
Qed.

(** *** Probing *)

(** The first [d] slots of the probe sequence of [key] hold other keys. *)
Definition probed s (key : GpuDataKey) (d : N) : Prop :=
  ∀ p, p < vsize s → ring_dist (vsize s) (home (vsize s) key) p < d →
  ∃ k v, holds s p k v ∧ k ≠ key.

Lemma probed_0 s key : probed s key 0.
Proof. intros p _ ?. lia. Qed.

Lemma probed_next s key i k v :
  slot_size (vsize s) → holds s i k v → k ≠ key →
  probed s key (ring_dist (vsize s) (home (vsize s) key) i) →
  probed s key (ring_dist (vsize s) (home (vsize s) key) i + 1).
Proof.
  intros Hn Hi Hk Hprobed p Hp Hd.
  destruct (decide (p = i)) as [->|Hne]; [by exists k, v|].
  apply Hprobed; [done|]. pose proof (home_lt _ key Hn).
  pose proof (holds_lt _ _ _ _ Hi).
  assert (ring_dist (vsize s) (home (vsize s) key) p
    ≠ ring_dist (vsize s) (home (vsize s) key) i); [|lia].
  intros Heq. apply Hne. by eapply (ring_dist_inj (vsize s) (home (vsize s) key)).
Qed.

Lemma probed_all_absent s m key i :
  slot_size (vsize s) → slots_rep (vsize s) s None m →
  probed s key (vsize s) → m !! key = None.
Proof.
  intros Hn Hrep Hall. destruct (m !! key) as [v|] eqn:Hm; [|done].
  apply (rep_map _ _ _ _ Hrep) in Hm as (j & _ & Hj).
  pose proof (holds_lt _ _ _ _ Hj).
  destruct (Hall j) as (k & v' & Hj' & Hk); [done| |].
  { apply ring_dist_lt; [by apply home_lt|done]. }
  destruct (holds_inj _ _ _ _ _ _ Hj Hj'). by subst.
Qed.

(** A free slot ends the probe path of every stored entry. *)
Lemma probed_free_absent s m key i :
  slot_size (vsize s) → slots_rep (vsize s) s None m →
  i < vsize s → ¬ occupied s i →
  probed s key (ring_dist (vsize s) (home (vsize s) key) i) → m !! key = None.
Proof.
  intros Hn Hrep Hi Hfree Hprobed. destruct (m !! key) as [v|] eqn:Hm; [|done].
  apply (rep_map _ _ _ _ Hrep) in Hm as (j & Hne & Hj).
  pose proof (holds_lt _ _ _ _ Hj) as Hjn. pose proof (home_lt _ key Hn).
  destruct (N.lt_trichotomy (ring_dist (vsize s) (home (vsize s) key) i)
    (ring_dist (vsize s) (home (vsize s) key) j)) as [Hlt|[Heq|Hgt]].
  - destruct Hfree. by eapply (rep_path _ _ _ _ Hrep).
  - apply ring_dist_inj in Heq; [|done..]. subst. destruct Hfree. by exists key, v.
  - destruct (Hprobed j Hjn Hgt) as (k & v' & Hj' & Hk).
    destruct (holds_inj _ _ _ _ _ _ Hj Hj'). by subst.
Qed.

(** The probe position after [d] steps, and the fuel left. *)
Definition probe_at s (key : GpuDataKey) (fuel : nat) (i : N) : Prop :=
  fuel = O ∧ probed s key (vsize s)
  ∨ i < vsize s
    ∧ N.of_nat fuel + ring_dist (vsize s) (home (vsize s) key) i = vsize s
    ∧ probed s key (ring_dist (vsize s) (home (vsize s) key) i).

Lemma probe_at_home s key :
  slot_size (vsize s) → probe_at s key (length s) (home (vsize s) key).
Proof.
  intros Hn. right. rewrite ring_dist_self. split; [by apply home_lt|].
  split; [unfold vsize; lia|]. apply probed_0.
Qed.

Lemma probe_at_next s key fuel i k v :
  slot_size (vsize s) → probe_at s key (S fuel) i → holds s i k v → k ≠ key →
  probe_at s key fuel (nextSlot s i).
Proof.
  intros Hn [[? _]|(Hi & Hfuel & Hprobed)] Hh Hk; [done|].
  pose proof (probed_next _ _ _ _ _ Hn Hh Hk Hprobed) as Hnext.
  pose proof (home_lt _ key Hn). rewrite nextSlot_next by done.
  destruct fuel as [|fuel].
  - left. split; [done|].
    assert (ring_dist (vsize s) (home (vsize s) key) i + 1 = vsize s) as Hall by lia.
    by rewrite Hall in Hnext.
  - right. rewrite ring_dist_next by lia.
    split; [by apply ring_next_lt|]. split; [lia|done].
Qed.

(** [findSlot] finds the slot of a stored key and nothing else. *)
Lemma findSlot_loop_spec s m key fuel i :
  slot_size (vsize s) → slots_rep (vsize s) s None m →
  probe_at s key fuel i →
  ∃ r, findSlot_loop s key fuel i = Some r
    ∧ (r = NO_SLOT ∧ m !! key = None
       ∨ r < vsize s ∧ ∃ v, holds s r key v ∧ m !! key = Some v).
Proof.
  intros Hn Hrep. revert i. induction fuel as [|fuel IH]; intros i Hat; simpl.
  - exists NO_SLOT. split; [done|]. left. split; [done|].
    destruct Hat as [[_ Hall]|(Hi & Hd & _)]; [by eapply probed_all_absent|].
    pose proof (ring_dist_lt (vsize s) (home (vsize s) key) i (home_lt _ _ Hn) Hi). lia.
  - pose proof Hat as [[? _]|(Hi & _ & Hprobed)]; [done|].
    destruct (vat_slot_cases s i Hi) as [(k & v & -> & Hh)|(k & v & -> & Hfree)]; simpl.
    + destruct (key_eqb_spec k key) as [->|Hne].
      * exists i. split; [done|]. right. split; [done|]. exists v. split; [done|].
        apply (rep_map _ _ _ _ Hrep). by exists i.
      * apply IH. by eapply probe_at_next.
    + exists NO_SLOT. split; [done|]. left. split; [done|].
      by eapply probed_free_absent.
Qed.

Lemma findSlot_spec s m key :
  slot_size (vsize s) → slots_rep (vsize s) s None m →
  ∃ r, findSlot s key = Some r
    ∧ (r = NO_SLOT ∧ m !! key = None
       ∨ r < vsize s ∧ ∃ v, holds s r key v ∧ m !! key = Some v).
Proof.
  intros Hn Hrep. unfold findSlot. pose proof (slot_size_pos _ Hn).
  destruct (N.eqb_spec (vsize s) 0); [lia|].
  rewrite homeSlot_home by done. apply findSlot_loop_spec; [done..|].
  by apply probe_at_home.
Qed.

(** *** Insertion *)

Lemma holds_vset s i sl j k v :
  i < vsize s →
  holds (vset s i sl) j k v ↔ (i = j ∧ sl = mkSlot k v true) ∨ (i ≠ j ∧ holds s j k v).
Proof.
  intros Hi. unfold holds. rewrite vat_vset. case_decide as Hd.
  - destruct Hd as [-> _]. split; [intros [= ->]; auto|intros [[_ ->]|[? _]]; done].
  - assert (i ≠ j) by (intros ->; apply Hd; done). split; [auto|intros [[? _]|[_ ?]]; done].
Qed.

Lemma occupied_vset s i k v p :
  i < vsize s → occupied s p → occupied (vset s i (mkSlot k v true)) p.
Proof.
  intros Hi (k' & v' & Hp). destruct (decide (i = p)) as [->|].
  - exists k, v. apply holds_vset; [done|]. by left.
  - exists k', v'. apply holds_vset; [done|]. by right.
Qed.

(** Filling the first free slot of the probe sequence keeps the array
    well-formed. *)
Lemma slots_rep_insert s m key val i :
  slot_size (vsize s) → slots_rep (vsize s) s None m → m !! key = None →
  i < vsize s → ¬ occupied s i →
  probed s key (ring_dist (vsize s) (home (vsize s) key) i) →
  slots_rep (vsize s) (vset s i (mkSlot key val true)) None (<[key := val]> m).
Proof.
  intros Hn Hrep Hm Hi Hfree Hprobed.
  assert (∀ j v, ¬ holds s j key v) as Habsent.
  { intros j v Hj. assert (m !! key = Some v); [|by simplify_eq].
    apply (rep_map _ _ _ _ Hrep). by exists j. }
  split.
  - intros k v. rewrite lookup_insert. case_decide as Hk.
    + subst k. split.
      * intros [= ->]. exists i. split; [done|]. apply holds_vset; [done|]. by left.
      * intros (j & _ & Hj). apply holds_vset in Hj as [[_ [= <-]]|[_ Hj]];
          [done|by apply Habsent in Hj|done].
    + rewrite (rep_map _ _ _ _ Hrep). split; intros (j & Hj & Hh); exists j; (split; [done|]).
      * apply holds_vset; [done|]. right. split; [|done].
        intros ->. apply Hfree. by exists k, v.
      * apply holds_vset in Hh as [[_ [= ? ?]]|[_ Hh]]; done.
  - intros a b k v v' Ha Hb Hha Hhb.
    apply holds_vset in Hha as [[Hia Hea]|[Hia Hha]]; [| |done];
      (apply holds_vset in Hhb as [[Hib Heb]|[Hib Hhb]]; [| |done]);
      try (injection Hea as Hka Hva; subst k);
      try (injection Heb as Hkb Hvb; subst k); try congruence.
    + by apply Habsent in Hhb.
    + by apply Habsent in Hha.
    + by eapply (rep_unique _ _ _ _ Hrep).
  - intros j k v p _ [[<- [= -> ->]]|[Hij Hj]]%holds_vset Hp Hd; [| |done].
    + apply occupied_vset; [done|]. destruct (Hprobed p Hp Hd) as (k' & v' & ? & _).
      by exists k', v'.
    + apply occupied_vset; [done|]. by eapply (rep_path _ _ _ _ Hrep).
Qed.

(** The insertion loop fills the first free slot, or finds the key. *)
Lemma insert_loop_spec s m key val fuel i :
  slot_size (vsize s) → slots_rep (vsize s) s None m →
  N.of_nat (size m) < vsize s → probe_at s key fuel i →
  if decide (m !! key = None) then
    ∃ s', insert_loop s key val fuel i = Some (Some s')
      ∧ vsize s' = vsize s ∧ slots_rep (vsize s) s' None (<[key := val]> m)
  else insert_loop s key val fuel i = Some None.
Proof.
  intros Hn Hrep Hsize. destruct (free_slot s m Hrep Hsize) as (u & Hu & Hufree).
  revert i. induction fuel as [|fuel IH]; intros i Hat; simpl.
  - exfalso. destruct Hat as [[_ Hall]|(Hi & Hd & _)].
    + destruct (Hall u) as (k & v & ? & _); [done| |].
      { apply ring_dist_lt; [by apply home_lt|done]. }
      apply Hufree. by exists k, v.
    + pose proof (ring_dist_lt (vsize s) (home (vsize s) key) i (home_lt _ _ Hn) Hi). lia.
  - pose proof Hat as [[? _]|(Hi & _ & Hprobed)]; [done|].
    destruct (vat_slot_cases s i Hi) as [(k & v & -> & Hh)|(k & v & -> & Hfree)]; simpl.
    + destruct (key_eqb_spec k key) as [->|Hne].
      * rewrite decide_False; [done|]. intros Hnone.
        assert (m !! key = Some v); [|by simplify_eq].
        apply (rep_map _ _ _ _ Hrep). by exists i.
      * apply IH. by eapply probe_at_next.
    + rewrite decide_True by (by eapply probed_free_absent). eexists.
      split; [done|]. split; [apply vsize_vset|].
      apply slots_rep_insert; try done. by eapply probed_free_absent.
Qed.

(** *** Backward-shift deletion *)

(** The state of the [eraseSlot] loop: slot [e] is a hole, the entries whose
    probe path crosses it have not been scanned yet, and every slot between
    the hole and the scan position is occupied. *)
Record shifting s (e sc : N) m : Prop := {
  shift_rep : slots_rep (vsize s) s (Some e) m;
  shift_hole : occupied s e;
  shift_scan : sc < vsize s ∧ sc ≠ e;
  shift_pending j k v :
    j ≠ e → holds s j k v →
    ring_dist (vsize s) (home (vsize s) k) e
      < ring_dist (vsize s) (home (vsize s) k) j →
    ring_dist (vsize s) e sc ≤ ring_dist (vsize s) e j;
  shift_between p :
    p < vsize s → 0 < ring_dist (vsize s) e p →
    ring_dist (vsize s) e p < ring_dist (vsize s) e sc → occupied s p;
}.

Lemma not_hole (i e : N) : Some i ≠ Some e ↔ i ≠ e.
Proof. split; congruence. Qed.

(** Removing an entry leaves a hole; the scan starts behind it. *)
Lemma shifting_start s m i key v :
  slot_size (vsize s) → 1 < vsize s → slots_rep (vsize s) s None m →
  holds s i key v → shifting s i (ring_next (vsize s) i) (delete key m).
Proof.
  intros Hn Hlen Hrep Hi. pose proof (holds_lt _ _ _ _ Hi) as Hilt.
  split.
  - split.
    + intros k v'. rewrite lookup_delete_Some, (rep_map _ _ _ _ Hrep). split.
      * intros (Hk & j & _ & Hj). exists j. split; [|done]. rewrite not_hole.
        intros ->. destruct (holds_inj _ _ _ _ _ _ Hi Hj). by subst.
      * intros (j & Hj & Hh). rewrite not_hole in Hj. split; [|by exists j].
        intros <-. apply Hj. by eapply (rep_unique _ _ _ _ Hrep).
    + intros. by eapply (rep_unique _ _ _ _ Hrep).
    + intros. by eapply (rep_path _ _ _ _ Hrep).
  - by exists key, v.
  - split; [by apply ring_next_lt|by apply ring_next_ne].
  - intros j k v' Hj Hh _. apply ring_dist_next_first; try done. by eapply holds_lt.
  - intros p Hp Hpos Hlt. exfalso.
    pose proof (ring_next_between _ _ _ Hlen Hilt Hp Hpos). lia.
Qed.

(** The scanned entry stays: its path does not cross the hole. *)
Lemma shifting_skip s m e sc k v u :
  slot_size (vsize s) → shifting s e sc m → holds s sc k v →
  ring_dist (vsize s) (home (vsize s) k) sc
    ≤ ring_dist (vsize s) (home (vsize s) k) e →
  u < vsize s → ¬ occupied s u →
  shifting s e (ring_next (vsize s) sc) m.
Proof.
  intros Hn [Hrep Hhole [Hsc Hne] Hpend Hbetween] Hh Hstay Hu Hfree.
  pose proof (occupied_lt _ _ Hhole) as He.
  assert (u ≠ e) by (intros ->; done).
  assert (u ≠ sc) by (intros ->; apply Hfree; by exists k, v).
  assert (ring_dist (vsize s) e sc < ring_dist (vsize s) e u) as Hsu.
  { destruct (N.lt_ge_cases (ring_dist (vsize s) e sc) (ring_dist (vsize s) e u)); [done|].
    destruct Hfree. apply Hbetween; [done|by apply ring_dist_pos, not_eq_sym|].
    assert (ring_dist (vsize s) e u ≠ ring_dist (vsize s) e sc); [|lia].
    intros Heq%ring_dist_inj; done. }
  pose proof (ring_dist_lt (vsize s) e u He Hu).
  assert (ring_dist (vsize s) e (ring_next (vsize s) sc)
    = ring_dist (vsize s) e sc + 1) as Hnext by (apply ring_dist_next; lia).
  split; try done.
  - split; [by apply ring_next_lt|]. intros Heq. rewrite Heq, ring_dist_self in Hnext. lia.
  - intros j k' v' Hj Hh' Hcross. rewrite Hnext.
    specialize (Hpend j k' v' Hj Hh' Hcross).
    assert (ring_dist (vsize s) e sc ≠ ring_dist (vsize s) e j); [|lia].
    intros Heq. apply ring_dist_inj in Heq; [|done..|by eapply holds_lt]. subst.
    destruct (holds_inj _ _ _ _ _ _ Hh Hh') as [-> ->]. lia.
  - intros p Hp Hpos Hlt. rewrite Hnext in Hlt.
    destruct (decide (p = sc)) as [->|Hpsc]; [by exists k, v|].
    apply Hbetween; [done..|].
    assert (ring_dist (vsize s) e p ≠ ring_dist (vsize s) e sc); [|lia].
    intros Heq%ring_dist_inj; done.
Qed.

(** The scanned entry moves into the hole and leaves a new hole behind. *)
Lemma shifting_move s m e sc k v :
  slot_size (vsize s) → 1 < vsize s → shifting s e sc m → holds s sc k v →
  ring_dist (vsize s) (home (vsize s) k) e
    < ring_dist (vsize s) (home (vsize s) k) sc →
  shifting (vset s e (mkSlot k v true)) sc (ring_next (vsize s) sc) m.
Proof.
  intros Hn Hlen [Hrep Hhole [Hsc Hne] Hpend Hbetween] Hh Hmove.
  pose proof (occupied_lt _ _ Hhole) as He.
  assert (∀ p, occupied s p → occupied (vset s e (mkSlot k v true)) p) as Hocc.
  { intros p. by apply occupied_vset. }
  split; rewrite ?vsize_vset.
  - split.
    + intros k' v'. rewrite (rep_map _ _ _ _ Hrep). setoid_rewrite not_hole.
      split; intros (j & Hj & Hh').
      * destruct (decide (j = sc)) as [->|Hjsc].
        -- exists e. split; [done|]. apply holds_vset; [done|]. left.
           destruct (holds_inj _ _ _ _ _ _ Hh Hh'). by subst.
        -- exists j. split; [done|]. apply holds_vset; [done|]. auto.
      * apply holds_vset in Hh' as [[<- [= -> ->]]|[Hj' Hh']]; [|by exists j|done].
        by exists sc.
    + intros i j k' v1 v2. rewrite !not_hole. intros Hi Hj Hhi Hhj.
      assert (∀ i v1, i ≠ sc → holds (vset s e (mkSlot k v true)) i k' v1 →
        ∃ i', i' ≠ e ∧ holds s i' k' v1 ∧ (i = e ∧ i' = sc ∨ i = i' ∧ i ≠ sc)) as Horigin.
      { clear -Hh Hne He. intros i v1 Hi Hhi.
        apply holds_vset in Hhi as [[<- [= -> ->]]|[Hi' Hhi]]; [|exists i|done];
          [exists sc|]; auto. }
      destruct (Horigin i v1 Hi Hhi) as (i' & Hi' & Hhi' & Hci).
      destruct (Horigin j v2 Hj Hhj) as (j' & Hj' & Hhj' & Hcj).
      assert (i' = j') by (eapply (rep_unique _ _ _ _ Hrep);
        [by apply not_hole|by apply not_hole|done..]).
      intuition congruence.
    + intros j k' v' p. rewrite not_hole. intros Hj Hhj Hp Hd. apply Hocc.
      apply holds_vset in Hhj as [[<- [= -> ->]]|[Hj' Hhj]]; [| |done].
      * eapply (rep_path _ _ _ _ Hrep); [by apply not_hole|exact Hh|done|]. lia.
      * eapply (rep_path _ _ _ _ Hrep); [by apply not_hole, not_eq_sym|done..].
  - apply Hocc. by exists k, v.
  - split; [by apply ring_next_lt|by apply ring_next_ne].
  - intros j k' v' Hj Hhj _. apply holds_lt in Hhj. rewrite vsize_vset in Hhj.
    by apply ring_dist_next_first.
  - intros p Hp Hpos Hlt. exfalso.
    pose proof (ring_next_between _ _ _ Hlen Hsc Hp Hpos). lia.
Qed.

(** At a free slot the scan stops: clearing the hole restores the invariant. *)
Lemma shifting_stop s m e sc :
  slot_size (vsize s) → shifting s e sc m → ¬ occupied s sc →
  slots_rep (vsize s) (vset s e Slot_default) None m.
Proof.
  intros Hn [Hrep Hhole [Hsc Hne] Hpend Hbetween] Hfree.
  pose proof (occupied_lt _ _ Hhole) as He.
  assert (∀ j k v, holds (vset s e Slot_default) j k v ↔ j ≠ e ∧ holds s j k v) as Hkeep.
  { intros j k v. rewrite holds_vset by done. unfold Slot_default. intuition congruence. }
  split.
  - intros k v. rewrite (rep_map _ _ _ _ Hrep). setoid_rewrite Hkeep.
    setoid_rewrite not_hole.
    split; [intros (i & ? & ?)|intros (i & _ & ? & ?)]; by exists i.
  - intros i j k v v' _ _ [??]%Hkeep [??]%Hkeep.
    eapply (rep_unique _ _ _ _ Hrep); [by apply not_hole|by apply not_hole|done..].
  - intros j k v p _ [Hj Hh]%Hkeep Hp Hd.
    assert (occupied s p) as (k' & v' & Hp').
    { eapply (rep_path _ _ _ _ Hrep); [by apply not_hole|done..]. }
    exists k', v'. apply Hkeep. split; [|done]. intros ->.
    pose proof (holds_lt _ _ _ _ Hh) as Hjlt. pose proof (home_lt _ k Hn).
    specialize (Hpend j k v Hj Hh Hd).
    assert (ring_dist (vsize s) (home (vsize s) k) sc
      ≤ ring_dist (vsize s) (home (vsize s) k) j) as Hle
      by (apply (ring_dist_between _ _ e); [done..|lia|done]).
    destruct (decide (sc = j)) as [->|]; [apply Hfree; by exists k, v|].
    apply Hfree. eapply (rep_path _ _ _ _ Hrep); [by apply not_hole|done..|].
    assert (ring_dist (vsize s) (home (vsize s) k) sc
      ≠ ring_dist (vsize s) (home (vsize s) k) j); [|lia].
    intros Heq%ring_dist_inj; done.
Qed.

(** The loop ends before its fuel does: the distance from the scan position to
    a free slot decreases, and no step occupies that slot. *)
Lemma eraseSlot_loop_spec fuel s m e sc u :
  slot_size (vsize s) → 1 < vsize s → shifting s e sc m →
  u < vsize s → ¬ occupied s u →
  ring_dist (vsize s) sc u < N.of_nat fuel →
  ∃ s', eraseSlot_loop fuel s e sc = Some s'
    ∧ vsize s' = vsize s ∧ slots_rep (vsize s) s' None m.
Proof.
  revert s e sc. induction fuel as [|fuel IH]; intros s e sc Hn Hlen Hshift Hu Hfree Hfuel;
    [lia|]. simpl.
  pose proof (shift_scan _ _ _ _ Hshift) as [Hsc Hne].
  pose proof (occupied_lt _ _ (shift_hole _ _ _ _ Hshift)) as He.
  destruct (vat_slot_cases s sc Hsc) as [(k & v & -> & Hh)|(k & v & -> & Hstop)]; simpl.
  - assert (u ≠ sc) by (intros ->; apply Hfree; by exists k, v).
    assert (u ≠ e) by (intros ->; apply Hfree, (shift_hole _ _ _ _ Hshift)).
    pose proof (ring_dist_from_next (vsize s) sc u Hsc Hu (not_eq_sym H0)).
    pose proof (home_lt _ k Hn).
    rewrite homeSlot_home, !probeDistance_dist, nextSlot_next by done.
    destruct (N.ltb_spec (ring_dist (vsize s) (home (vsize s) k) e)
      (ring_dist (vsize s) (home (vsize s) k) sc)) as [Hmove|Hstay].
    + rewrite <-(vsize_vset s e (mkSlot k v true)).
      apply (IH (vset s e (mkSlot k v true))); rewrite ?vsize_vset; try done; [| |lia].
      * by apply shifting_move.
      * intros (k' & v' & Hu'). apply Hfree.
        apply holds_vset in Hu' as [[? _]|[_ ?]]; [congruence|by exists k', v'|done].
    + apply IH; try done; [|lia]. by eapply (shifting_skip _ _ _ _ k v u).
  - eexists. split; [done|]. split; [apply vsize_vset|]. by eapply shifting_stop.
Qed.

Lemma eraseSlot_spec s m i key v :
  slot_size (vsize s) → 1 < vsize s → slots_rep (vsize s) s None m →
  N.of_nat (size m) < vsize s → holds s i key v →
  ∃ s', eraseSlot s i = Some s'
    ∧ vsize s' = vsize s ∧ slots_rep (vsize s) s' None (delete key m).
Proof.
  intros Hn Hlen Hrep Hsize Hi. pose proof (holds_lt _ _ _ _ Hi).
  destruct (free_slot s m Hrep Hsize) as (u & Hu & Hfree).
  unfold eraseSlot. rewrite nextSlot_next by done.
  eapply (eraseSlot_loop_spec _ _ (delete key m) _ _ u);
    [done|done|by eapply shifting_start|done|done|].
  assert (ring_dist (vsize s) (ring_next (vsize s) i) u < vsize s)
    by (apply ring_dist_lt; [by apply ring_next_lt|done]).
  unfold vsize in *. lia.
Qed.

End slot_arrays.

(** ** The table operations implement a bounded finite map *)
Section table_operations.
Context `{Platform}.
Implicit Types (t : GpuResidencyTable) (m : gmap GpuDataKey N).

Lemma table_rep_empty_slots t m :
  table_rep t m → vsize (slots t) = 0 → m = ∅.
Proof.
  intros Hrep Hzero. destruct (table_size _ _ Hrep) as [[Hlim _]|([_ _] & Hlim & ?)]; [|lia].
  apply map_size_empty_inv. pose proof (table_bound _ _ Hrep). lia.
Qed.

Lemma table_rep_sizes t m :
  table_rep t m → vsize (slots t) ≠ 0 →
  slot_size (vsize (slots t)) ∧ residentLimit t ≠ 0
  ∧ 2 * residentLimit t ≤ vsize (slots t).
Proof. intros Hrep ?. destruct (table_size _ _ Hrep) as [[_ ?]|?]; done. Qed.

Lemma table_slot_ne_NO_SLOT t m i :
  table_rep t m → i < vsize (slots t) → i ≠ NO_SLOT.
Proof.
  intros Hrep Hi. destruct (table_size _ _ Hrep) as [[_ ?]|[[_ Hlt] _]]; [lia|].
  unfold NO_SLOT, SIZE_MAX. unfold two64 in Hlt. lia.
Qed.

(** The lookup path shared by [find] and [erase]. *)
Lemma table_findSlot t m k :
  table_rep t m →
  ∃ r, findSlot (slots t) k = Some r
    ∧ (r = NO_SLOT ∧ m !! k = None
       ∨ r ≠ NO_SLOT ∧ ∃ v, vat (slots t) r = Some (mkSlot k v true) ∧ m !! k = Some v).
Proof.
  intros Hrep. destruct (decide (vsize (slots t) = 0)) as [Hz|Hz].
  - exists NO_SLOT. unfold findSlot. rewrite Hz. split; [done|]. left.
    by rewrite (table_rep_empty_slots t m Hrep Hz).
  - destruct (table_rep_sizes t m Hrep Hz) as (Hn & _ & _).
    destruct (findSlot_spec _ m k Hn (table_slots _ _ Hrep))
      as (r & Hr & [[-> ?]|(Hlt & v & Hv & ?)]); exists r || exists NO_SLOT.
    + split; [done|]. by left.
    + split; [done|]. right. split; [by eapply table_slot_ne_NO_SLOT|]. by exists v.
Qed.

(** Looking a key up returns exactly what the represented map holds for
    it: no defined behaviour is lost, every resident key is found whatever
    collisions and deletions preceded, and no other key is. *)
Lemma table_find_spec t m k :
  table_rep t m → table_find t k = Some (m !! k).
Proof.
  intros Hrep. unfold table_find. rewrite (table_ready _ _ Hrep). simpl.
  destruct (table_findSlot t m k Hrep) as (r & -> & [[-> ->]|(Hne & v & Hv & ->)]); simpl.
  - done.
  - apply N.eqb_neq in Hne. by rewrite Hne, Hv.
Qed.

(** Inserting a fresh key below the resident limit succeeds, adds exactly
    that binding and keeps the slot array's size; a key already resident and a
    full table are refused without any change. *)
Lemma table_insert_spec t m k v :
  table_rep t m →
  if decide (m !! k = None ∧ N.of_nat (size m) < residentLimit t) then
    ∃ t', table_insert t k v = Some (true, t') ∧ table_rep t' (<[k := v]> m)
      ∧ slotCount t' = slotCount t ∧ residentLimit t' = residentLimit t
  else table_insert t k v = Some (false, t).
Proof.
  intros Hrep. unfold table_insert. rewrite (table_ready _ _ Hrep), (table_count _ _ Hrep).
  pose proof (table_bound _ _ Hrep) as Hbound. simpl.
  destruct (N.leb_spec (residentLimit t) (N.of_nat (size m))) as [Hfull|Hroom]; simpl.
  { rewrite decide_False; [done|]. lia. }
  destruct (N.eqb_spec (vsize (slots t)) 0) as [Hz|Hz].
  { rewrite (table_rep_empty_slots t m Hrep Hz) in *. rewrite decide_False; [done|].
    destruct (table_size _ _ Hrep) as [[? _]|(_ & _ & ?)]; lia. }
  destruct (table_rep_sizes t m Hrep Hz) as (Hn & Hlim & Hhalf).
  assert (N.of_nat (size m) < vsize (slots t)) as Hsize by lia.
  rewrite homeSlot_home by done.
  pose proof (insert_loop_spec _ m k v _ _ Hn (table_slots _ _ Hrep) Hsize
    (probe_at_home _ k Hn)) as Hloop.
  destruct (decide (m !! k = None)) as [Hm|Hm].
  - destruct Hloop as (s' & -> & Hlen & Hrep'). rewrite decide_True by done.
    eexists. split; [done|]. split; [|by unfold slotCount].
    assert (size (<[k:=v]> m) = S (size m)) as Hs by by apply map_size_insert_None.
    destruct Hn as [Hpow Hlt].
    split; simpl; rewrite ?Hlen, ?Hs; try done.
    + right. by split; [split|].
    + rewrite inc64_small; lia.
    + lia.
  - rewrite Hloop, decide_False; [done|]. by intros [? _].
Qed.

(** Erasing a key with the entry index it maps to removes exactly that
    binding (backward shifting loses no other entry); a key that is absent, or
    resident under another index, is refused without any change. *)
Lemma table_erase_spec t m k v :
  table_rep t m →
  if decide (m !! k = Some v) then
    ∃ t', table_erase t k v = Some (true, t') ∧ table_rep t' (delete k m)
      ∧ slotCount t' = slotCount t ∧ residentLimit t' = residentLimit t
  else table_erase t k v = Some (false, t).
Proof.
  intros Hrep. unfold table_erase. rewrite (table_ready _ _ Hrep). simpl.
  destruct (table_findSlot t m k Hrep) as (r & -> & [[-> Hm]|(Hne & v' & Hv & Hm)]); simpl.
  { rewrite decide_False; [done|]. by rewrite Hm. }
  apply N.eqb_neq in Hne. rewrite Hne, Hv. simpl.
  destruct (N.eqb_spec v' v) as [->|Hvv]; simpl.
  2: { rewrite decide_False; [done|]. rewrite Hm. congruence. }
  rewrite decide_True by done.
  destruct (decide (vsize (slots t) = 0)) as [Hz|Hz].
  { rewrite vat_ge in Hv; [done|]. lia. }
  destruct (table_rep_sizes t m Hrep Hz) as (Hn & Hlim & Hhalf).
  pose proof (table_bound _ _ Hrep) as Hbound.
  destruct (eraseSlot_spec (slots t) m r k v Hn) as (s' & -> & Hlen & Hrep');
    [lia|apply Hrep|lia|done|].
  eexists. split; [done|]. split; [|by unfold slotCount].
  assert (size m ≠ 0%nat).
  { intros Hz'%map_size_empty_inv. by rewrite Hz', lookup_empty in Hm. }
  assert (size (delete k m) = Nat.pred (size m)) as Hs
    by (rewrite map_size_delete, Hm; done).
  destruct Hn as [Hpow Hlt].
  split; simpl; rewrite ?Hlen, ?Hs; try done.
  - right. by split; [split|].
  - rewrite (table_count _ _ Hrep), dec64_small; lia.
  - lia.
Qed.

Lemma slots_rep_replicate n : slots_rep n (replicate (N.to_nat n) Slot_default) None ∅.
Proof.
  assert (∀ i k v, ¬ holds (replicate (N.to_nat n) Slot_default) i k v) as Hno.
  { intros i k v. unfold holds. rewrite vat_replicate. by case_decide. }
  split.
  - intros k v. rewrite lookup_empty. split; [done|]. by intros (i & _ & ?%Hno).
  - by intros i j k v v' _ _ ?%Hno.
  - by intros i k v p _ ?%Hno.
Qed.

Lemma table_clear_slots t :
  slots (table_clear t) = replicate (N.to_nat (vsize (slots t))) Slot_default.
Proof.
  simpl. unfold vsize. rewrite Nat2N.id.
  induction (slots t); csimpl; congruence.
Qed.

Lemma table_clear_spec t m :
  table_rep t m →
  table_rep (table_clear t) ∅ ∧ slotCount (table_clear t) = slotCount t
  ∧ residentLimit (table_clear t) = residentLimit t.
Proof.
  intros Hrep.
  assert (vsize (slots (table_clear t)) = vsize (slots t)) as Hlen by apply vsize_fmap.
  split; [|done]. split; rewrite ?Hlen; simpl; try done.
  - apply Hrep.
  - change (slots_rep (vsize (slots t)) (slots (table_clear t)) None ∅).
    rewrite table_clear_slots. apply slots_rep_replicate.
  - apply Hrep.
  - rewrite map_size_empty. lia.
Qed.

End table_operations.

(** ** Initialization *)
Section initialization.
Context `{Platform}.

(** The doubling loop ends: it reaches the first power of two that is large
    enough, or reports that none fits in [size_t]. *)
Lemma growSlotCount_spec fuel b required :
  b ≤ 63 → 65 ≤ b + N.of_nat fuel →
  if decide (required ≤ 2 ^ 63) then
    ∃ c, growSlotCount fuel (2 ^ b) required = Some (Some (2 ^ c))
      ∧ b ≤ c ≤ 63 ∧ required ≤ 2 ^ c ∧ (c = b ∨ 2 ^ c < 2 * required)
  else growSlotCount fuel (2 ^ b) required = Some None.
Proof.
  revert b. induction fuel as [|fuel IH]; intros b Hb Hfuel; [lia|].
  cbn [growSlotCount]. assert (2 ^ b ≤ 2 ^ 63) as Hpow by (by apply N.pow_le_mono_r).
  destruct (N.ltb_spec (2 ^ b) required) as [Hsmall|Hbig].
  - destruct (N.ltb_spec (SIZE_MAX / 2) (2 ^ b)) as [Hover|Hroom].
    + rewrite decide_False; [done|]. change (SIZE_MAX / 2) with (2 ^ 63 - 1) in Hover. lia.
    + change (SIZE_MAX / 2) with (2 ^ 63 - 1) in Hroom.
      assert (b ≠ 63) by (intros ->; lia).
      assert (mul64 (2 ^ b) 2 = 2 ^ (b + 1)) as ->.
      { rewrite N.pow_add_r. apply wrap64_small.
        change two64 with (2 ^ 63 * 2). change (2 ^ 1) with 2. lia. }
      specialize (IH (b + 1) ltac:(lia) ltac:(lia)).
      case_decide as Hreq; [|done]. destruct IH as (c & -> & Hc & Hle & Hmin).
      exists c. split; [done|]. split; [lia|]. split; [done|]. right.
      destruct Hmin as [->|?]; [|done]. rewrite N.pow_add_r. change (2 ^ 1) with 2. lia.
  - rewrite decide_True by lia. exists b. split; [done|]. split; [lia|]. auto.
Qed.

(** The slot count [initialize] chooses. *)
Lemma table_slot_count max :
  0 < max → max ≤ 2 ^ 62 →
  ∃ n, growSlotCount 65 1 (mul64 max 2) = Some (Some n)
    ∧ slot_size n ∧ 2 * max ≤ n < 4 * max.
Proof.
  intros Hpos Hmax. assert (mul64 max 2 = 2 * max) as ->.
  { unfold mul64. rewrite wrap64_small; [lia|]. change two64 with (2 ^ 62 * 4). lia. }
  pose proof (growSlotCount_spec 65 0 (2 * max) ltac:(done) ltac:(done)) as Hgrow.
  rewrite decide_True in Hgrow by (change (2 ^ 63) with (2 * 2 ^ 62); lia).
  destruct Hgrow as (c & Hc & Hrange & Hle & Hmin). exists (2 ^ c).
  split; [exact Hc|]. split; [|destruct Hmin as [->|?]; [change (2 ^ 0) with 1 in *|]; lia].
  split; [by exists c|]. apply N.le_lt_trans with (2 ^ 63); [|done].
  apply N.pow_le_mono_r; lia.
Qed.

(** Initializing a fresh table for [max] entries returns (the doubling
    loop ends): beyond [2 ^ 62] entries, or when the slots cannot be allocated,
    it refuses and changes nothing; otherwise the table is empty, accepts [max]
    entries, and has a power-of-two slot count between twice and four times
    that number. *)
Lemma table_initialize_spec max w :
  ∃ ok t' w',
    table_initialize GpuResidencyTable_default max w = Some (ok, t', w')
    ∧ (ok = true → table_rep t' ∅ ∧ residentLimit t' = max ∧ max ≤ 2 ^ 62
         ∧ 2 * max ≤ slotCount t' ∧ (0 < max → slotCount t' < 4 * max))
    ∧ (ok = false → t' = GpuResidencyTable_default)
    ∧ (2 ^ 62 < max → ok = false).
Proof.
  unfold table_initialize. change (vsize (slots GpuResidencyTable_default)) with 0.
  cbn [table_initialized orb negb GpuResidencyTable_default residentLimit residentCount
    N.eqb].
  destruct (N.eqb_spec max 0) as [->|Hmax]; cbn [negb andb].
  { cbn [N.eqb growSlotCount N.ltb N.compare mbind option_bind].
    destruct (host_alloc 0 w) as [[] w'] eqn:?; [|by exists false; eexists _, _].
    eexists true, _, w'. split; [done|]. split; [|done]. intros _.
    split; [|done]. split; try done; [apply (slots_rep_replicate 0)|by left]. }
  destruct (N.ltb_spec (SIZE_MAX / 2) max) as [Hhuge|Hok].
  { exists false, GpuResidencyTable_default, w. split_and!; try done. }
  change (SIZE_MAX / 2) with (2 ^ 63 - 1) in Hok.
  assert (mul64 max 2 = 2 * max) as Hmul.
  { unfold mul64. rewrite wrap64_small; [lia|]. change two64 with (2 ^ 63 * 2). lia. }
  destruct (N.eqb_spec (mul64 max 2) 0) as [|_]; [lia|].
  destruct (decide (max ≤ 2 ^ 62)) as [Hle|Hgt].
  - destruct (table_slot_count max) as (n & -> & Hn & Hbounds); [lia|done|].
    cbn [mbind option_bind].
    destruct (host_alloc n w) as [[] w'];
      [|exists false; eexists _, _; split; [done|]; split_and!; done].
    eexists true, _, w'. split; [done|]. split_and!; [|done|lia].
    intros _. unfold slotCount. simpl.
    assert (vsize (replicate (N.to_nat n) Slot_default) = n) as Hlen.
    { unfold vsize. rewrite length_replicate. lia. }
    rewrite Hlen. split_and!; try done; [|lia..].
    split; simpl; rewrite ?Hlen; try done; [apply slots_rep_replicate|right|].
    + split_and!; [done|lia|lia].
    + rewrite map_size_empty. lia.
  - pose proof (growSlotCount_spec 65 0 (mul64 max 2) ltac:(done) ltac:(done)) as Hgrow.
    rewrite decide_False in Hgrow by (change (2 ^ 63) with (2 * 2 ^ 62); lia).
    change (2 ^ 0) with 1 in Hgrow. rewrite Hgrow. cbn [mbind option_bind].
    exists false, GpuResidencyTable_default, w. split_and!; done.
Qed.

End initialization.
