(* ===== verification/CudaDeviceGuard.v ===== *)
(** [CudaDeviceGuard] ([src/CudaDeviceGuard.h] and [.cpp]): the scoped
    selection of a CUDA device for the calling host thread.  The constructor
    and the destructor are two functions; a scope that declares a guard calls
    the first where it is declared and the second on every way out. *)
From S2P Require Import Prelude.
From S2P Require Import Platform.
#[local] Open Scope Z_scope.

Record CudaDeviceGuard := mkGuard {
  previousDevice : Z;
  selected : bool;
  restorePrevious : bool;
}.

Section guard.
Context `{Platform}.

Definition CudaDeviceGuard_construct (gpuId : Z) (w : world) :
    CudaDeviceGuard * world :=
  if gpuId <? 0 then (mkGuard (-1) false false, w)
  else
    let '(status, device, w) := cudaGetDevice w in
    if negb (cuda_ok status) then (mkGuard device false false, w)
    else if negb (device =? gpuId) then
      let '(status, w) := cudaSetDevice gpuId w in
      if negb (cuda_ok status) then (mkGuard device false false, w)
      else (mkGuard device true true, w)
    else (mkGuard device true false, w).

Definition CudaDeviceGuard_destruct (guard : CudaDeviceGuard) (w : world) : world :=
  if restorePrevious guard then snd (cudaSetDevice (previousDevice guard) w) else w.

Definition guard_ok (guard : CudaDeviceGuard) : bool := selected guard.

End guard.

(** ** The guard leaves the thread's current device as it found it *)

(** What the runtime documents about the current device of a thread. *)
Class DeviceLaws `{Platform} := {
  current_device : world → Z;
  get_device_reads w st d w' :
    cudaGetDevice w = (st, d, w') → current_device w' = current_device w;
  get_device_ok w st d w' :
    cudaGetDevice w = (st, d, w') → cuda_ok st = true → d = current_device w;
  set_device_ok g w st w' :
    cudaSetDevice g w = (st, w') → cuda_ok st = true → current_device w' = g;
  set_device_failed g w st w' :
    cudaSetDevice g w = (st, w') → cuda_ok st = false →
    current_device w' = current_device w;
}.

Section guard_theorems.
Context `{DeviceLaws}.

(** An accepted guard has selected the requested device. *)
Lemma guard_selects gpuId w g w' :
  CudaDeviceGuard_construct gpuId w = (g, w') → guard_ok g = true →
  current_device w' = gpuId ∧ previousDevice g = current_device w
  ∧ restorePrevious g = negb (previousDevice g =? gpuId).
Proof.
  unfold CudaDeviceGuard_construct, guard_ok. intros Hg Hok.
  destruct (Z.ltb_spec gpuId 0); [by simplify_eq/=|].
  destruct (cudaGetDevice w) as [[st d] w1] eqn:Hget.
  destruct (cuda_ok st) eqn:Hst; [|by simplify_eq/=]. simpl in Hg.
  pose proof (get_device_reads _ _ _ _ Hget). pose proof (get_device_ok _ _ _ _ Hget Hst).
  destruct (Z.eqb_spec d gpuId); simpl in Hg.
  - simplify_eq. simpl. rewrite Z.eqb_refl. auto.
  - destruct (cudaSetDevice gpuId w1) as [st' w2] eqn:Hset.
    destruct (cuda_ok st') eqn:Hst'; simplify_eq/=.
    destruct (Z.eqb_spec (current_device w) gpuId); [done|].
    split; [by eapply set_device_ok|]. done.
Qed.

(** A refused guard changes nothing and restores nothing. *)
Lemma guard_refused gpuId w g w' :
  CudaDeviceGuard_construct gpuId w = (g, w') → guard_ok g = false →
  current_device w' = current_device w ∧ restorePrevious g = false.
Proof.
  unfold CudaDeviceGuard_construct, guard_ok. intros Hg Hok.
  destruct (Z.ltb_spec gpuId 0); [by simplify_eq/=|].
  destruct (cudaGetDevice w) as [[st d] w1] eqn:Hget.
  pose proof (get_device_reads _ _ _ _ Hget).
  destruct (cuda_ok st) eqn:Hst; [|by simplify_eq/=]. simpl in Hg.
  destruct (d =? gpuId); simpl in Hg; [by simplify_eq/=|].
  destruct (cudaSetDevice gpuId w1) as [st' w2] eqn:Hset.
  destruct (cuda_ok st') eqn:Hst'; simplify_eq/=.
  split; [|done]. pose proof (set_device_failed _ _ _ _ Hset Hst'). congruence.
Qed.

(** A scope guarded by [CudaDeviceGuard] gives the thread back the
    device it was using, whatever the construction's outcome, as long as
    selecting that previous device again succeeds. *)
Theorem guard_restores gpuId w g w1 w2 :
  CudaDeviceGuard_construct gpuId w = (g, w1) →
  current_device w2 = current_device w1 →
  (∀ st w3, cudaSetDevice (previousDevice g) w2 = (st, w3) → cuda_ok st = true) →
  current_device (CudaDeviceGuard_destruct g w2) = current_device w.
Proof.
  intros Hg Hbody Hrestore. unfold CudaDeviceGuard_destruct.
  destruct (guard_ok g) eqn:Hok.
  - destruct (guard_selects _ _ _ _ Hg Hok) as (Hcur & Hprev & ->).
    destruct (Z.eqb_spec (previousDevice g) gpuId) as [Heq|Hne]; simpl; [congruence|].
    destruct (cudaSetDevice (previousDevice g) w2) as [st w3] eqn:Hset. simpl.
    rewrite <-Hprev. by eapply set_device_ok, Hrestore.
  - destruct (guard_refused _ _ _ _ Hg Hok) as [Hsame ->]. congruence.
Qed.

End guard_theorems.
