(* ===== verification/SimplePlatform.v ===== *)
(** A concrete platform, on which the witnesses run: one host thread with its
    current device, a bump allocator for device memory and streams, and a flag
    that makes stream synchronization fail.  [std::hash] of an integer is the
    integer, as in libstdc++. *)
From S2P Require Import Prelude.
From S2P Require Import Platform.
From S2P Require Import CudaDeviceGuard.
#[local] Open Scope N_scope.

Record machine := mkMachine {
  next_address : N;
  thread_device : Z;
  sync_fails : bool;
}.

Definition idle_machine : machine := mkMachine 4096 0 false.
Definition broken_machine : machine := mkMachine 4096 0 true.

Definition bump (size : N) (w : machine) : machine :=
  mkMachine (next_address w + size) (thread_device w) (sync_fails w).

#[export] Instance SimplePlatform : Platform := {|
  world := machine;
  host_alloc _ w := (true, w);
  std_hash_u64 x := x;
  std_hash_u32 x := x;
  cudaGetDevice w := (0%Z, thread_device w, w);
  cudaSetDevice g w := (0%Z, mkMachine (next_address w) g (sync_fails w));
  cudaMalloc size w :=
    if next_address w =? 0 then (2%Z, nullptr, w) else (0%Z, next_address w, bump size w);
  cudaFree _ w := (0%Z, w);
  cudaStreamSynchronize _ w := (if sync_fails w then 700%Z else 0%Z, w);
  cudaStreamCreate w := (0%Z, next_address w, bump 1 w);
  cudaStreamDestroy _ w := (0%Z, w);
  cudaMemsetAsync _ _ _ w := (0%Z, w);
  cudaMemcpyAsync _ _ _ _ w := (0%Z, w);
  cudaMemGetInfo w := (0%Z, 1073741824, 8589934592, w);
|}.

#[export] Instance SimplePlatform_laws : PlatformLaws.
Proof.
  split; simpl; intros bytes w st p w' Hm Hok; destruct (N.eqb_spec (next_address w) 0);
    by simplify_eq.
Qed.

#[export] Instance SimplePlatform_device : DeviceLaws.
Proof.
  refine (Build_DeviceLaws SimplePlatform thread_device _ _ _ _);
    simpl; intros; by simplify_eq/=.
Defined.

(** A scope that works on device 3 of a thread whose current device is 0. *)
Lemma guard_restores_witness :
  current_device (CudaDeviceGuard_destruct (fst (CudaDeviceGuard_construct 3 idle_machine))
                    (snd (CudaDeviceGuard_construct 3 idle_machine)))
  = current_device idle_machine.
Proof.
  apply (@guard_restores SimplePlatform _ 3%Z idle_machine _ (mkMachine 4096 3 false)).
  - reflexivity.
  - reflexivity.
  - intros st w Hset. injection Hset as <- _. reflexivity.
Defined.
