(* ===== verification/TableBehaviour.v ===== *)
(** The residency table in use: any sequence of its operations behaves like a
    finite map bounded by the number of entries it was initialized for. *)
From S2P Require Import Prelude.
From S2P Require Import Platform.
From S2P Require Import GpuDataKey.
From S2P Require Import GpuResidencyTable.
From S2P Require Import SimplePlatform.
#[local] Open Scope N_scope.

Inductive table_call :=
| Find (key : GpuDataKey)
| Insert (key : GpuDataKey) (index : size_t)
| Erase (key : GpuDataKey) (index : size_t)
| Clear.

Inductive table_answer :=
| Found (index : option size_t)
| Accepted (flag : bool)
| Cleared.

Section behaviour.
Context `{Platform}.
Implicit Types (t : GpuResidencyTable) (m : gmap GpuDataKey N).

Definition table_perform t (call : table_call) : option (table_answer * GpuResidencyTable) :=
  match call with
  | Find key => found ← table_find t key; Some (Found found, t)
  | Insert key index => '(ok, t) ← table_insert t key index; Some (Accepted ok, t)
  | Erase key index => '(ok, t) ← table_erase t key index; Some (Accepted ok, t)
  | Clear => Some (Cleared, table_clear t)
  end.

(** The bounded map. *)
Definition map_perform (limit : N) m (call : table_call) : table_answer * gmap GpuDataKey N :=
  match call with
  | Find key => (Found (m !! key), m)
  | Insert key index =>
      if decide (m !! key = None ∧ N.of_nat (size m) < limit)
      then (Accepted true, <[key := index]> m) else (Accepted false, m)
  | Erase key index =>
      if decide (m !! key = Some index)
      then (Accepted true, delete key m) else (Accepted false, m)
  | Clear => (Cleared, ∅)
  end.

Fixpoint table_session t (calls : list table_call) :
    option (list table_answer * GpuResidencyTable) :=
  match calls with
  | [] => Some ([], t)
  | call :: calls =>
      '(answer, t) ← table_perform t call;
      '(answers, t) ← table_session t calls;
      Some (answer :: answers, t)
  end.

Fixpoint map_session (limit : N) m (calls : list table_call) :
    list table_answer * gmap GpuDataKey N :=
  match calls with
  | [] => ([], m)
  | call :: calls =>
      let '(answer, m) := map_perform limit m call in
      let '(answers, m) := map_session limit m calls in
      (answer :: answers, m)
  end.

Lemma table_perform_map t m call :
  table_rep t m →
  ∃ t', table_perform t call = Some (fst (map_perform (residentLimit t) m call), t')
    ∧ table_rep t' (snd (map_perform (residentLimit t) m call))
    ∧ residentLimit t' = residentLimit t ∧ slotCount t' = slotCount t.
Proof.
  intros Hrep. destruct call as [key|key index|key index|]; simpl.
  - rewrite (table_find_spec t m) by done. by exists t.
  - pose proof (table_insert_spec t m key index Hrep) as Hins. case_decide.
    + destruct Hins as (t' & -> & ? & ? & ?). by exists t'.
    + rewrite Hins. by exists t.
  - pose proof (table_erase_spec t m key index Hrep) as Her. case_decide.
    + destruct Her as (t' & -> & ? & ? & ?). by exists t'.
    + rewrite Her. by exists t.
  - exists (table_clear t). split; [done|]. by destruct (table_clear_spec t m Hrep) as (? & ? & ?).
Qed.

(** C19.  After a successful initialization for [max] entries, every sequence of
    lookups, insertions, erasures and clears is defined and answers exactly
    like a finite map of at most [max] bindings; the slot array keeps its size,
    between twice and four times [max]. *)
Theorem table_is_a_bounded_map max w t w' calls :
  table_initialize GpuResidencyTable_default max w = Some (true, t, w') →
  ∃ t', table_session t calls = Some (fst (map_session max ∅ calls), t')
    ∧ table_rep t' (snd (map_session max ∅ calls))
    ∧ slotCount t' = slotCount t ∧ 2 * max ≤ slotCount t ∧ (0 < max → slotCount t < 4 * max).
Proof.
  intros Hinit. destruct (table_initialize_spec max w) as (ok & t0 & w0 & Hinit' & Hok & _).
  rewrite Hinit in Hinit'. simplify_eq.
  destruct Hok as (Hrep & Hlim & _ & Hsize); [done|]. clear Hinit.
  assert (∃ t', table_session t0 calls = Some (fst (map_session max ∅ calls), t')
    ∧ table_rep t' (snd (map_session max ∅ calls)) ∧ slotCount t' = slotCount t0)
    as (t' & ? & ? & ?); [|by exists t'].
  clear Hsize. revert t0 Hrep Hlim. generalize (∅ : gmap GpuDataKey N).
  induction calls as [|call calls IH]; intros m t Hrep Hlim; [by exists t|]. cbn [table_session].
  destruct (table_perform_map t m call Hrep) as (t1 & -> & Hrep1 & Hlim1 & Hcount1).
  cbn [mbind option_bind map_session]. rewrite Hlim in Hrep1, Hlim1 |- *.
  destruct (map_perform max m call) as [answer m1]. cbn [fst snd] in *.
  destruct (IH m1 t1 Hrep1 Hlim1) as (t' & -> & Hrep' & Hcount').
  destruct (map_session max m1 calls) as [answers m2].
  exists t'. split; [done|]. split; [done|]. by rewrite Hcount'.
Qed.

(** Initialization ends, refuses what cannot be represented, and otherwise
    allocates a power of two of slots. *)
Theorem table_initialization max w :
  ∃ ok t w', table_initialize GpuResidencyTable_default max w = Some (ok, t, w')
    ∧ if ok : bool then
        max ≤ 2 ^ 62 ∧ residentLimit t = max ∧ residentCount t = 0
        ∧ 2 * max ≤ slotCount t ∧ (0 < max → slotCount t < 4 * max ∧ ∃ b, slotCount t = 2 ^ b)
      else t = GpuResidencyTable_default.
Proof.
  destruct (table_initialize_spec max w) as (ok & t & w' & Hinit & Hok & Hfail & _).
  exists ok, t, w'. split; [done|]. destruct ok; [|by apply Hfail].
  destruct (Hok eq_refl) as (Hrep & Hlim & Hmax & Hsize & Hupper).
  split_and!; try done.
  - rewrite (table_count _ _ Hrep), map_size_empty. done.
  - intros Hpos. split; [by apply Hupper|].
    destruct (table_size _ _ Hrep) as [[Hz _]|([[b Hb] _] & _)]; [lia|]. by exists b.
Qed.

End behaviour.

Definition table_2 : GpuResidencyTable :=
  Eval vm_compute in
    match @table_initialize SimplePlatform GpuResidencyTable_default 2 idle_machine with
    | Some (_, t, _) => t
    | None => GpuResidencyTable_default
    end.

(** Two keys with the same home slot, one erased, and a third refused. *)
Definition calls_w : list table_call :=
  [Insert (mkKey 0 0 0) 5; Insert (mkKey 4 0 0) 6; Erase (mkKey 0 0 0) 5;
   Find (mkKey 4 0 0); Insert (mkKey 1 0 0) 7; Insert (mkKey 2 0 0) 8].

Lemma table_is_a_bounded_map_witness :
  ∃ t, table_session table_2 calls_w
    = Some ([Accepted true; Accepted true; Accepted true; Found (Some 6);
             Accepted true; Accepted false], t).
Proof.
  destruct (@table_is_a_bounded_map SimplePlatform 2 idle_machine
    table_2 idle_machine calls_w)
    as (t & Hrun & _).
  - vm_compute. reflexivity.
  - exists t. rewrite Hrun. vm_compute. reflexivity.
Defined.
