(* ===== verification/GpuDataCacheEntry.v ===== *)
(** [GpuDataCacheEntry] ([src/DataCache/GpuDataCacheEntry.h] and [.cpp]): one
    reusable cache slot with its per-GPU device allocations.  Its bookkeeping
    fields (state, lease count, list links) are written by [GpuDataCache]. *)
From S2P Require Import Prelude.
From S2P Require Import Platform.
From S2P Require Import GpuDataKey.
From S2P Require Import CudaDeviceGuard.
#[local] Open Scope N_scope.

Record GpuReplica := mkReplica {
  replica_gpuId : Z;
  replica_d_data : ptr;
  replica_valid : bool;
}.

#[export] Instance set_replica_d_data : Setter replica_d_data :=
  λ f r, mkReplica (replica_gpuId r) (f (replica_d_data r)) (replica_valid r).
#[export] Instance set_replica_valid : Setter replica_valid :=
  λ f r, mkReplica (replica_gpuId r) (replica_d_data r) (f (replica_valid r)).
#[global] Arguments set_replica_d_data _ _ / : assert.
#[global] Arguments set_replica_valid _ _ / : assert.

Inductive GpuCacheState := Empty | Loading | Valid.

#[export] Instance GpuCacheState_eq_dec : EqDecision GpuCacheState.
Proof. solve_decision. Defined.

Definition state_eqb (a b : GpuCacheState) : bool := bool_decide (a = b).

(** [std::numeric_limits<std::size_t>::max()], the null link. *)
Definition NO_ENTRY : size_t := SIZE_MAX.

Record GpuDataCacheEntry := mkEntry {
  metadata : FrameMetadata;
  cacheState : GpuCacheState;
  activeAccesses : size_t;
  previousEvictable : size_t;
  nextEvictable : size_t;
  previousFilled : size_t;
  nextFilled : size_t;
  replicas : list GpuReplica;
  entry_dataBytes : size_t;
  inEvictableList : bool;
  inFilledList : bool;
  discardWhenUnused : bool;
  entry_initialized : bool;
}.

Definition GpuDataCacheEntry_eta (e : GpuDataCacheEntry) : GpuDataCacheEntry :=
  mkEntry (metadata e) (cacheState e) (activeAccesses e) (previousEvictable e)
    (nextEvictable e) (previousFilled e) (nextFilled e) (replicas e)
    (entry_dataBytes e) (inEvictableList e) (inFilledList e)
    (discardWhenUnused e) (entry_initialized e).

#[export] Instance set_metadata : Setter metadata := ltac:(make_setter metadata GpuDataCacheEntry_eta).
#[export] Instance set_cacheState : Setter cacheState := ltac:(make_setter cacheState GpuDataCacheEntry_eta).
#[export] Instance set_activeAccesses : Setter activeAccesses := ltac:(make_setter activeAccesses GpuDataCacheEntry_eta).
#[export] Instance set_previousEvictable : Setter previousEvictable := ltac:(make_setter previousEvictable GpuDataCacheEntry_eta).
#[export] Instance set_nextEvictable : Setter nextEvictable := ltac:(make_setter nextEvictable GpuDataCacheEntry_eta).
#[export] Instance set_previousFilled : Setter previousFilled := ltac:(make_setter previousFilled GpuDataCacheEntry_eta).
#[export] Instance set_nextFilled : Setter nextFilled := ltac:(make_setter nextFilled GpuDataCacheEntry_eta).
#[export] Instance set_replicas : Setter replicas := ltac:(make_setter replicas GpuDataCacheEntry_eta).
#[export] Instance set_entry_dataBytes : Setter entry_dataBytes := ltac:(make_setter entry_dataBytes GpuDataCacheEntry_eta).
#[export] Instance set_inEvictableList : Setter inEvictableList := ltac:(make_setter inEvictableList GpuDataCacheEntry_eta).
#[export] Instance set_inFilledList : Setter inFilledList := ltac:(make_setter inFilledList GpuDataCacheEntry_eta).
#[export] Instance set_discardWhenUnused : Setter discardWhenUnused := ltac:(make_setter discardWhenUnused GpuDataCacheEntry_eta).
#[export] Instance set_entry_initialized : Setter entry_initialized := ltac:(make_setter entry_initialized GpuDataCacheEntry_eta).
#[global] Arguments set_metadata _ _ / : assert.
#[global] Arguments set_cacheState _ _ / : assert.
#[global] Arguments set_activeAccesses _ _ / : assert.
#[global] Arguments set_previousEvictable _ _ / : assert.
#[global] Arguments set_nextEvictable _ _ / : assert.
#[global] Arguments set_previousFilled _ _ / : assert.
#[global] Arguments set_nextFilled _ _ / : assert.
#[global] Arguments set_replicas _ _ / : assert.
#[global] Arguments set_entry_dataBytes _ _ / : assert.
#[global] Arguments set_inEvictableList _ _ / : assert.
#[global] Arguments set_inFilledList _ _ / : assert.
#[global] Arguments set_discardWhenUnused _ _ / : assert.
#[global] Arguments set_entry_initialized _ _ / : assert.

(** [GpuDataCacheEntry()] *)
Definition GpuDataCacheEntry_default : GpuDataCacheEntry :=
  mkEntry FrameMetadata_default Empty 0 NO_ENTRY NO_ENTRY NO_ENTRY NO_ENTRY []
    0 false false false false.

(** ** Replica lookups *)

Fixpoint dataForGpu_loop (replicas : list GpuReplica) (gpuId : Z) : ptr :=
  match replicas with
  | [] => nullptr
  | replica :: rest =>
      if (replica_gpuId replica =? gpuId)%Z then replica_d_data replica
      else dataForGpu_loop rest gpuId
  end.

Definition dataForGpu (e : GpuDataCacheEntry) (gpuId : Z) : ptr :=
  dataForGpu_loop (replicas e) gpuId.

Fixpoint replicaValid_loop (replicas : list GpuReplica) (gpuId : Z) : bool :=
  match replicas with
  | [] => false
  | replica :: rest =>
      if (replica_gpuId replica =? gpuId)%Z then replica_valid replica
      else replicaValid_loop rest gpuId
  end.

Definition replicaValid (e : GpuDataCacheEntry) (gpuId : Z) : bool :=
  replicaValid_loop (replicas e) gpuId.

Definition invalidateReplicas (e : GpuDataCacheEntry) : GpuDataCacheEntry :=
  e <| replicas := (λ replica, replica <| replica_valid := false |>) <$> replicas e |>.

Fixpoint markReplicaValid_loop (replicas : list GpuReplica) (gpuId : Z) :
    bool * list GpuReplica :=
  match replicas with
  | [] => (false, [])
  | replica :: rest =>
      if (replica_gpuId replica =? gpuId)%Z
      then (true, replica <| replica_valid := true |> :: rest)
      else let '(marked, rest) := markReplicaValid_loop rest gpuId in
           (marked, replica :: rest)
  end.

Definition markReplicaValid (e : GpuDataCacheEntry) (gpuId : Z) :
    bool * GpuDataCacheEntry :=
  let '(marked, replicas') := markReplicaValid_loop (replicas e) gpuId in
  (marked, e <| replicas := replicas' |>).

(** ** Allocation and release *)
Section allocation.
Context `{Platform}.

(** The first loop of [release]: free every allocation that can be freed. *)
Fixpoint releaseReplicas (replicas : list GpuReplica) (w : world) :
    bool * list GpuReplica * world :=
  match replicas with
  | [] => (true, [], w)
  | replica :: rest =>
      if replica_d_data replica =? nullptr then
        let '(ok, rest, w) := releaseReplicas rest w in (ok, replica :: rest, w)
      else
        let '(deviceGuard, w) := CudaDeviceGuard_construct (replica_gpuId replica) w in
        if negb (guard_ok deviceGuard) then
          let w := CudaDeviceGuard_destruct deviceGuard w in
          let '(_, rest, w) := releaseReplicas rest w in (false, replica :: rest, w)
        else
          let '(status, w) := cudaFree (replica_d_data replica) w in
          let freed := cuda_ok status in
          let replica :=
            if freed then
              replica <| replica_d_data := nullptr |> <| replica_valid := false |>
            else replica in
          let w := CudaDeviceGuard_destruct deviceGuard w in
          let '(ok, rest, w) := releaseReplicas rest w in
          (freed && ok, replica :: rest, w)
  end.

Definition allReplicasReleased (replicas : list GpuReplica) : bool :=
  forallb (λ replica, replica_d_data replica =? nullptr) replicas.

Definition entry_release (e : GpuDataCacheEntry) (w : world) :
    bool * GpuDataCacheEntry * world :=
  if negb (activeAccesses e =? 0) || state_eqb (cacheState e) Loading
  then (false, e, w)
  else
    let '(ok, replicas', w) := releaseReplicas (replicas e) w in
    let e := e <| replicas := replicas' |> in
    if allReplicasReleased replicas' then
      (ok, e <| metadata := FrameMetadata_default |> <| cacheState := Empty |>
             <| activeAccesses := 0 |>
             <| previousEvictable := NO_ENTRY |> <| nextEvictable := NO_ENTRY |>
             <| previousFilled := NO_ENTRY |> <| nextFilled := NO_ENTRY |>
             <| replicas := [] |> <| entry_dataBytes := 0 |>
             <| inEvictableList := false |> <| inFilledList := false |>
             <| discardWhenUnused := false |> <| entry_initialized := false |>, w)
    else (ok, e, w).

(** The second loop of [initialize], with the replicas already allocated. *)
Fixpoint allocateReplicas (e : GpuDataCacheEntry) (allocated pending : list GpuReplica)
    (w : world) : bool * GpuDataCacheEntry * world :=
  match pending with
  | [] => (true, e <| entry_initialized := true |>, w)
  | replica :: rest =>
      let '(deviceGuard, w) := CudaDeviceGuard_construct (replica_gpuId replica) w in
      let '(ok, replica, w) :=
        if guard_ok deviceGuard then
          let '(status, p, w) := cudaMalloc (entry_dataBytes e) w in
          (cuda_ok status, replica <| replica_d_data := p |>, w)
        else (false, replica, w) in
      let e := e <| replicas := allocated ++ replica :: rest |> in
      if negb ok then
        let '(_, e, w) := entry_release e w in
        (false, e, CudaDeviceGuard_destruct deviceGuard w)
      else
        allocateReplicas e (allocated ++ [replica]) rest
          (CudaDeviceGuard_destruct deviceGuard w)
  end.

Definition entry_initialize (e : GpuDataCacheEntry) (gpuIds : list Z)
    (bytes : size_t) (w : world) : bool * GpuDataCacheEntry * world :=
  if entry_initialized e || negb (vsize (replicas e) =? 0)
     || negb (state_eqb (cacheState e) Empty) || negb (activeAccesses e =? 0)
     || negb (previousEvictable e =? NO_ENTRY) || negb (nextEvictable e =? NO_ENTRY)
     || inEvictableList e
     || negb (previousFilled e =? NO_ENTRY) || negb (nextFilled e =? NO_ENTRY)
     || inFilledList e || discardWhenUnused e
     || negb (vsize gpuIds =? 1) || (default 0 (head gpuIds) <? 0)%Z || (bytes =? 0)
  then (false, e, w)
  else
    let '(reserved, w) := host_alloc (vsize gpuIds) w in
    if negb reserved then (false, e <| replicas := [] |>, w)
    else
      let replicas' := (λ gpuId, mkReplica gpuId nullptr false) <$> gpuIds in
      let e := e <| replicas := replicas' |> <| entry_dataBytes := bytes |> in
      allocateReplicas e [] replicas' w.

End allocation.
