(* ===== verification/IntrusiveList.v ===== *)
(** Doubly linked lists threaded through the elements of an array, as the cache
    keeps its eviction and fill orders: the links an element must carry are a
    function of the list of indices, and appending or unlinking an element
    changes that function exactly where the code writes a link. *)
From S2P Require Import Prelude.
From S2P Require Import GpuDataCacheEntry.
#[local] Open Scope N_scope.

Record link := mkLink { link_prev : N; link_next : N; link_in : bool }.

#[export] Instance set_link_prev : Setter link_prev :=
  λ f k, mkLink (f (link_prev k)) (link_next k) (link_in k).
#[export] Instance set_link_next : Setter link_next :=
  λ f k, mkLink (link_prev k) (f (link_next k)) (link_in k).
#[global] Arguments set_link_prev _ _ / : assert.
#[global] Arguments set_link_next _ _ / : assert.

Definition no_link : link := mkLink NO_ENTRY NO_ENTRY false.

(** First and last index, or the null link. *)
Definition first_of (l : list N) : N := default NO_ENTRY (head l).
Definition last_of (l : list N) : N := default NO_ENTRY (last l).

(** The links of element [i] in the list [l] that starts behind [prev]. *)
Fixpoint link_from (prev : N) (l : list N) (i : N) : link :=
  match l with
  | [] => no_link
  | x :: l' => if decide (i = x) then mkLink prev (first_of l') true
               else link_from x l' i
  end.

Definition link_of (l : list N) (i : N) : link := link_from NO_ENTRY l i.

(** The list without [x]. *)
Definition unlink (x : N) (l : list N) : list N := filter (λ y, y ≠ x) l.

Section links.
Implicit Types (l : list N) (i x p : N).

Lemma link_from_not_in p l i : i ∉ l → link_from p l i = no_link.
Proof.
  revert p. induction l as [|y l IH]; intros p; [done|].
  intros [Hne Hni]%not_elem_of_cons. simpl. rewrite decide_False by done. by apply IH.
Qed.

Lemma link_from_in p l i : link_in (link_from p l i) = true ↔ i ∈ l.
Proof.
  revert p. induction l as [|y l IH]; intros p; simpl; [by rewrite elem_of_nil|].
  rewrite elem_of_cons. case_decide; [naive_solver|]. rewrite IH. naive_solver.
Qed.

(** *** Appending *)

Lemma last_of_snoc l x : last_of (l ++ [x]) = x.
Proof. unfold last_of. by rewrite last_snoc. Qed.

Lemma first_of_snoc l x : first_of (l ++ [x]) = if decide (l = []) then x else first_of l.
Proof. unfold first_of. destruct l; by case_decide. Qed.

Lemma link_from_snoc p l x i :
  NoDup l → x ∉ l →
  link_from p (l ++ [x]) i =
    if decide (i = x) then mkLink (default p (last l)) NO_ENTRY true
    else if decide (last l = Some i) then (link_from p l i) <| link_next := x |>
    else link_from p l i.
Proof.
  revert p. induction l as [|y l IH]; intros p Hnd Hx; simpl; [done|].
  apply NoDup_cons in Hnd as [Hy Hnd]. apply not_elem_of_cons in Hx as [Hxy Hx].
  rewrite (IH y Hnd Hx), first_of_snoc.
  destruct l as [|z l]; simpl.
  { repeat case_decide; by simplify_eq/=. }
  change (last (y :: z :: l)) with (last (z :: l)).
  assert (last (z :: l) ≠ Some y).
  { intros Hl. apply Hy. by apply last_Some_elem_of. }
  destruct (last (z :: l)) eqn:Hlast; [|by apply last_None in Hlast].
  repeat case_decide; simplify_eq; try done.
Qed.

(** *** Unlinking *)

Lemma elem_of_unlink x l i : i ∈ unlink x l ↔ i ≠ x ∧ i ∈ l.
Proof. unfold unlink. rewrite list_elem_of_filter. done. Qed.

Lemma not_elem_of_unlink x l : x ∉ unlink x l.
Proof. rewrite elem_of_unlink. by intros []. Qed.

Lemma NoDup_unlink x l : NoDup l → NoDup (unlink x l).
Proof. apply NoDup_filter. Qed.

Lemma unlink_not_in x l : x ∉ l → unlink x l = l.
Proof.
  intros Hx. induction l as [|y l IH]; [done|]. unfold unlink in *.
  apply not_elem_of_cons in Hx as [Hne Hx].
  rewrite filter_cons_True by done. by rewrite IH.
Qed.

Lemma unlink_cons x y l :
  unlink x (y :: l) = if decide (y = x) then unlink x l else y :: unlink x l.
Proof.
  unfold unlink. case_decide; subst.
  - by rewrite filter_cons_False by auto.
  - by rewrite filter_cons_True.
Qed.

Lemma link_prev_in p l x : x ∈ l → link_prev (link_from p l x) ∈ p :: l.
Proof.
  revert p. induction l as [|y l IH]; intros p Hx; [by apply elem_of_nil in Hx|]. simpl.
  destruct (decide (x = y)) as [->|Hne]; [left|].
  apply elem_of_cons in Hx as [?|Hx]; [done|]. right. by apply IH.
Qed.

Lemma link_next_in p l x :
  x ∈ l → link_next (link_from p l x) = NO_ENTRY ∨ link_next (link_from p l x) ∈ l.
Proof.
  revert p. induction l as [|y l IH]; intros p Hx; [by apply elem_of_nil in Hx|]. simpl.
  destruct (decide (x = y)) as [->|Hne].
  - destruct l as [|z l]; [by left|]. right. right. left.
  - apply elem_of_cons in Hx as [?|Hx]; [done|].
    destruct (IH y Hx) as [?|?]; [by left|]. right. by right.
Qed.

(** After unlinking [x], its predecessor points to its successor and back. *)
Lemma link_from_unlink p l x i :
  NoDup l → p ∉ l → NO_ENTRY ∉ l → x ∈ l → i ∈ l → i ≠ x →
  link_from p (unlink x l) i =
    if decide (i = link_prev (link_from p l x))
    then (link_from p l i) <| link_next := link_next (link_from p l x) |>
    else if decide (i = link_next (link_from p l x))
    then (link_from p l i) <| link_prev := link_prev (link_from p l x) |>
    else link_from p l i.
Proof.
  revert p. induction l as [|y l IH]; intros p Hnd Hp Hno Hx Hi Hix;
    [by apply elem_of_nil in Hx|].
  apply NoDup_cons in Hnd as [Hy Hnd]. apply not_elem_of_cons in Hp as [Hpy Hp].
  apply not_elem_of_cons in Hno as [Hnoy Hno]. rewrite unlink_cons.
  destruct (decide (y = x)) as [->|Hyx].
  - rewrite (unlink_not_in x l) by done. apply elem_of_cons in Hi as [?|Hi]; [done|].
    simpl. rewrite (decide_True (P := x = x)) by done. simpl.
    rewrite (decide_False (P := i = p)) by (intros ->; done).
    rewrite (decide_False (P := i = x)) by done.
    destruct l as [|z l]; [by apply elem_of_nil in Hi|]. unfold first_of. simpl.
    by destruct (decide (i = z)).
  - apply elem_of_cons in Hx as [?|Hx]; [done|]. simpl.
    rewrite (decide_False (P := x = y)) by done.
    destruct (decide (i = y)) as [->|Hiy].
    + destruct l as [|z l]; [by apply elem_of_nil in Hx|]. rewrite unlink_cons. simpl.
      destruct (decide (z = x)) as [->|Hzx].
      * rewrite (unlink_not_in x l) by (by apply NoDup_cons in Hnd as [??]).
        rewrite (decide_True (P := x = x)) by done. simpl.
        by rewrite (decide_True (P := y = y)).
      * apply elem_of_cons in Hx as [?|Hx]; [done|].
        rewrite (decide_False (P := x = z)) by done.
        rewrite !decide_False; [done|..].
        -- intros Heq. destruct (link_next_in z l x Hx) as [Hn|Hn].
           ++ congruence.
           ++ apply Hy. right. congruence.
        -- intros Heq. apply Hy. pose proof (link_prev_in z l x Hx). congruence.
    + apply elem_of_cons in Hi as [?|Hi]; [done|]. by apply IH.
Qed.

(** The list's ends after unlinking [x]. *)
Lemma first_of_unlink p l x :
  NoDup l → x ∈ l → p ∉ l →
  first_of (unlink x l) =
    if decide (link_prev (link_from p l x) = p) then link_next (link_from p l x)
    else first_of l.
Proof.
  destruct l as [|y l]; intros Hnd Hx Hp; [by apply elem_of_nil in Hx|].
  apply NoDup_cons in Hnd as [Hy Hnd]. apply not_elem_of_cons in Hp as [Hpy Hp].
  rewrite unlink_cons. simpl.
  destruct (decide (y = x)) as [->|Hyx].
  - rewrite unlink_not_in, (decide_True (P := x = x)) by done. simpl. by rewrite decide_True.
  - rewrite (decide_False (P := x = y)) by done. apply elem_of_cons in Hx as [?|Hx]; [done|].
    rewrite decide_False; [done|]. intros Heq.
    pose proof (link_prev_in y l x Hx) as Hin. rewrite Heq in Hin.
    apply elem_of_cons in Hin as [?|?]; [congruence|done].
Qed.

Lemma last_of_cons y l : l ≠ [] → last_of (y :: l) = last_of l.
Proof. by destruct l. Qed.

Lemma last_of_in l : l ≠ [] → last_of l ∈ l.
Proof.
  intros Hl. unfold last_of. destruct (last l) eqn:Heq; [by apply last_Some_elem_of|].
  by apply last_None in Heq.
Qed.

Lemma last_of_unlink p l x :
  NoDup l → x ∈ l → NO_ENTRY ∉ l →
  default p (last (unlink x l)) =
    if decide (link_next (link_from p l x) = NO_ENTRY) then link_prev (link_from p l x)
    else default p (last l).
Proof.
  revert p. induction l as [|y l IH]; intros p Hnd Hx Hno; [by apply elem_of_nil in Hx|].
  apply NoDup_cons in Hnd as [Hy Hnd]. apply not_elem_of_cons in Hno as [Hnoy Hno].
  rewrite unlink_cons. simpl. destruct (decide (y = x)) as [->|Hyx].
  - rewrite unlink_not_in, (decide_True (P := x = x)) by done. simpl.
    destruct l as [|z l]; [done|]. unfold first_of. simpl.
    rewrite decide_False by (intros ->; apply Hno; left).
    by destruct (last (z :: l)) eqn:Hlast; [|apply last_None in Hlast].
  - rewrite (decide_False (P := x = y)) by done. apply elem_of_cons in Hx as [?|Hx]; [done|].
    specialize (IH y Hnd Hx Hno).
    assert (∀ l, default p (last (y :: l)) = default y (last l)) as Hshift.
    { intros [|z l']; [done|]. change (last (y :: z :: l')) with (last (z :: l')).
      by destruct (last (z :: l')) eqn:Hlast; [|apply last_None in Hlast]. }
    by rewrite !Hshift.
Qed.

(** The neighbours of an element differ from it and from each other. *)
Lemma link_neighbours p l x :
  NoDup l → p ∉ l → NO_ENTRY ∉ l → x ∈ l →
  link_prev (link_from p l x) ≠ x ∧ link_next (link_from p l x) ≠ x
  ∧ (link_next (link_from p l x) ≠ NO_ENTRY →
     link_prev (link_from p l x) ≠ link_next (link_from p l x)).
Proof.
  revert p. induction l as [|y l IH]; intros p Hnd Hp Hno Hx; [by apply elem_of_nil in Hx|].
  apply NoDup_cons in Hnd as [Hy Hnd]. apply not_elem_of_cons in Hp as [Hpy Hp].
  apply not_elem_of_cons in Hno as [Hnoy Hno]. simpl.
  destruct (decide (x = y)) as [->|Hxy]; simpl.
  - split; [done|]. destruct l as [|z l]; [done|]. unfold first_of. simpl.
    apply not_elem_of_cons in Hy as [? _], Hp as [? _]. done.
  - apply elem_of_cons in Hx as [?|Hx]; [done|]. by apply IH.
Qed.

Lemma link_next_app p l1 l2 x :
  NoDup (l1 ++ x :: l2) → link_next (link_from p (l1 ++ x :: l2) x) = first_of l2.
Proof.
  revert p. induction l1 as [|y l1 IH]; intros p Hnd; simpl.
  - by rewrite decide_True.
  - apply NoDup_cons in Hnd as [Hy Hnd].
    rewrite decide_False by (intros ->; apply Hy; set_solver). by apply IH.
Qed.

(** *** What the code writes *)

(** The links after the assignments of an append. *)
Definition append_links l i (links : N → link) : N → link :=
  let links := <[i := mkLink (last_of l) NO_ENTRY true]> links in
  if last_of l =? NO_ENTRY then links
  else <[last_of l := (links (last_of l)) <| link_next := i |>]> links.

(** The links after the assignments of a removal. *)
Definition remove_links i (links : N → link) : N → link :=
  let prev := link_prev (links i) in
  let next := link_next (links i) in
  let links := if prev =? NO_ENTRY then links
               else <[prev := (links prev) <| link_next := next |>]> links in
  let links := if next =? NO_ENTRY then links
               else <[next := (links next) <| link_prev := prev |>]> links in
  <[i := no_link]> links.

Lemma last_of_None l : NO_ENTRY ∉ l → (last_of l = NO_ENTRY ↔ l = []).
Proof.
  intros Hno. split; [|by intros ->]. intros Heq. destruct (decide (l = [])); [done|].
  destruct Hno. rewrite <-Heq. by apply last_of_in.
Qed.

Lemma first_of_None l : NO_ENTRY ∉ l → (first_of l = NO_ENTRY ↔ l = []).
Proof.
  intros Hno. split; [|by intros ->]. destruct l; [done|]. unfold first_of. simpl.
  intros ->. destruct Hno. left.
Qed.

Lemma append_links_of l i j :
  NoDup l → i ∉ l → NO_ENTRY ∉ l →
  append_links l i (link_of l) j = link_of (l ++ [i]) j.
Proof.
  intros Hnd Hi Hno. unfold append_links, link_of. rewrite link_from_snoc by done.
  change (default NO_ENTRY (last l)) with (last_of l).
  destruct (N.eqb_spec (last_of l) NO_ENTRY) as [Hlast|Hlast].
  - apply last_of_None in Hlast as ->; [|done].
    destruct (decide (j = i)) as [->|]; [by rewrite fn_lookup_insert|].
    by rewrite fn_lookup_insert_ne.
  - assert (last l = Some (last_of l)) as Hl.
    { unfold last_of in *. by destruct (last l). }
    assert (last_of l ≠ i).
    { intros <-. apply Hi. by apply last_Some_elem_of. }
    rewrite Hl. destruct (decide (j = last_of l)) as [->|Hjl].
    + rewrite fn_lookup_insert, fn_lookup_insert_ne by done.
      by rewrite decide_False, decide_True.
    + rewrite fn_lookup_insert_ne by done. destruct (decide (j = i)) as [->|].
      * by rewrite fn_lookup_insert.
      * rewrite fn_lookup_insert_ne by done. by rewrite decide_False by congruence.
Qed.

Lemma remove_links_of l i j :
  NoDup l → i ∈ l → NO_ENTRY ∉ l →
  remove_links i (link_of l) j = link_of (unlink i l) j.
Proof.
  intros Hnd Hi Hno. unfold remove_links, link_of.
  destruct (decide (j = i)) as [->|Hji].
  { rewrite fn_lookup_insert. symmetry. apply link_from_not_in. rewrite elem_of_unlink. naive_solver. }
  rewrite fn_lookup_insert_ne by done.
  destruct (link_neighbours NO_ENTRY l i) as (Hprev & Hnext & Hdiff); try done.
  pose proof (link_prev_in NO_ENTRY l i Hi) as Hprevl.
  pose proof (link_next_in NO_ENTRY l i Hi) as Hnextl.
  set (prev := link_prev _) in *. set (next := link_next _) in *.
  destruct (decide (j ∈ l)) as [Hj|Hj].
  - rewrite link_from_unlink by done. fold prev next. clearbody prev next.
    assert (j ≠ NO_ENTRY) by (by intros ->).
    destruct (decide (j = prev)) as [<-|Hjp]; [|destruct (decide (j = next)) as [<-|Hjn]].
    + rewrite (proj2 (N.eqb_neq j NO_ENTRY)) by done.
      destruct (N.eqb_spec next NO_ENTRY) as [|Hn]; [|specialize (Hdiff Hn)];
        rewrite ?fn_lookup_insert_ne by congruence; by rewrite fn_lookup_insert.
    + rewrite (proj2 (N.eqb_neq j NO_ENTRY)), fn_lookup_insert by done.
      destruct (N.eqb_spec prev NO_ENTRY); by rewrite ?fn_lookup_insert_ne by congruence.
    + destruct (N.eqb_spec next NO_ENTRY); destruct (N.eqb_spec prev NO_ENTRY);
        by rewrite ?fn_lookup_insert_ne by congruence.
  - assert (j ≠ prev ∨ prev = NO_ENTRY) as Hjp.
    { apply elem_of_cons in Hprevl as [?|?]; [by right|left; by intros ->]. }
    assert (j ≠ next ∨ next = NO_ENTRY) as Hjn.
    { destruct Hnextl as [?|?]; [by right|left; by intros ->]. }
    rewrite (link_from_not_in _ (unlink i l)) by (rewrite elem_of_unlink; naive_solver).
    destruct (N.eqb_spec next NO_ENTRY); destruct (N.eqb_spec prev NO_ENTRY);
      rewrite ?fn_lookup_insert_ne by (destruct Hjp, Hjn; congruence); by apply link_from_not_in.
Qed.

End links.
