(* ===== verification/CacheTypes.v ===== *)
(** The data of the GPU data cache: policies, statistics, requests, accesses
    and the manager's own state ([src/DataCache/CachePolicy.h],
    [CacheStatistics.h], [GpuCacheRequest.h], [GpuDataAccess.h],
    [GpuDataCache.h]). *)
From S2P Require Import Prelude.
From S2P Require Import Platform.
From S2P Require Import GpuDataKey.
From S2P Require Import GpuResidencyTable.
From S2P Require Import GpuDataCacheEntry.
#[local] Open Scope N_scope.

(** ** Policies

    Both enumerations reach the library from its callers, which may pass a
    value outside the enumerators; the code rejects it, so the types keep it. *)
Inductive CacheEvictionPolicy := LRU | FIFO | UnknownPolicy (value : Z).
Inductive CacheRetention := Keep | Discard | UnknownRetention (value : Z).

#[export] Instance CacheEvictionPolicy_eq_dec : EqDecision CacheEvictionPolicy.
Proof. solve_decision. Defined.
#[export] Instance CacheRetention_eq_dec : EqDecision CacheRetention.
Proof. solve_decision. Defined.

Definition policy_eqb (a b : CacheEvictionPolicy) : bool := bool_decide (a = b).
Definition retention_eqb (a b : CacheRetention) : bool := bool_decide (a = b).

(** ** Statistics: 64-bit counters and nanosecond totals *)

Inductive CacheFallbackReason :=
  CapacityZero | LoadingTimeout | FullTimeout | LoadingNoWait | FullNoWait
| ReplicaUnavailable.

Record CacheFallbackStatistics := mkFallbackStatistics {
  capacityZero : uint64;
  loadingTimeout : uint64;
  fullTimeout : uint64;
  loadingNoWait : uint64;
  fullNoWait : uint64;
  replicaUnavailable : uint64;
}.

Definition CacheFallbackStatistics_eta s :=
  mkFallbackStatistics (capacityZero s) (loadingTimeout s) (fullTimeout s)
    (loadingNoWait s) (fullNoWait s) (replicaUnavailable s).

#[export] Instance set_capacityZero : Setter capacityZero := ltac:(make_setter capacityZero CacheFallbackStatistics_eta).
#[export] Instance set_loadingTimeout : Setter loadingTimeout := ltac:(make_setter loadingTimeout CacheFallbackStatistics_eta).
#[export] Instance set_fullTimeout : Setter fullTimeout := ltac:(make_setter fullTimeout CacheFallbackStatistics_eta).
#[export] Instance set_loadingNoWait : Setter loadingNoWait := ltac:(make_setter loadingNoWait CacheFallbackStatistics_eta).
#[export] Instance set_fullNoWait : Setter fullNoWait := ltac:(make_setter fullNoWait CacheFallbackStatistics_eta).
#[export] Instance set_replicaUnavailable : Setter replicaUnavailable := ltac:(make_setter replicaUnavailable CacheFallbackStatistics_eta).
#[global] Arguments set_capacityZero _ _ / : assert.
#[global] Arguments set_loadingTimeout _ _ / : assert.
#[global] Arguments set_fullTimeout _ _ / : assert.
#[global] Arguments set_loadingNoWait _ _ / : assert.
#[global] Arguments set_fullNoWait _ _ / : assert.
#[global] Arguments set_replicaUnavailable _ _ / : assert.

Record CacheStatistics := mkStatistics {
  stat_hit : uint64;
  stat_fill : uint64;
  stat_fallback : uint64;
  stat_invalid : uint64;
  stat_fillSucceeded : uint64;
  stat_fillFailed : uint64;
  stat_eviction : uint64;
  stat_discard : uint64;
  stat_syncFailures : uint64;
  stat_firstBlockedLoading : uint64;
  stat_firstBlockedFull : uint64;
  fallbackReasons : CacheFallbackStatistics;
  stat_waitedRequests : uint64;
  totalWaitTime : Z;
  maxWaitTime : Z;
}.

(** [CacheStatistics()] *)
Definition CacheStatistics_default : CacheStatistics :=
  mkStatistics 0 0 0 0 0 0 0 0 0 0 0 (mkFallbackStatistics 0 0 0 0 0 0) 0 0 0.

Definition CacheStatistics_eta s :=
  mkStatistics (stat_hit s) (stat_fill s) (stat_fallback s) (stat_invalid s)
    (stat_fillSucceeded s) (stat_fillFailed s) (stat_eviction s) (stat_discard s)
    (stat_syncFailures s) (stat_firstBlockedLoading s) (stat_firstBlockedFull s)
    (fallbackReasons s) (stat_waitedRequests s) (totalWaitTime s) (maxWaitTime s).

#[export] Instance set_stat_hit : Setter stat_hit := ltac:(make_setter stat_hit CacheStatistics_eta).
#[export] Instance set_stat_fill : Setter stat_fill := ltac:(make_setter stat_fill CacheStatistics_eta).
#[export] Instance set_stat_fallback : Setter stat_fallback := ltac:(make_setter stat_fallback CacheStatistics_eta).
#[export] Instance set_stat_invalid : Setter stat_invalid := ltac:(make_setter stat_invalid CacheStatistics_eta).
#[export] Instance set_stat_fillSucceeded : Setter stat_fillSucceeded := ltac:(make_setter stat_fillSucceeded CacheStatistics_eta).
#[export] Instance set_stat_fillFailed : Setter stat_fillFailed := ltac:(make_setter stat_fillFailed CacheStatistics_eta).
#[export] Instance set_stat_eviction : Setter stat_eviction := ltac:(make_setter stat_eviction CacheStatistics_eta).
#[export] Instance set_stat_discard : Setter stat_discard := ltac:(make_setter stat_discard CacheStatistics_eta).
#[export] Instance set_stat_syncFailures : Setter stat_syncFailures := ltac:(make_setter stat_syncFailures CacheStatistics_eta).
#[export] Instance set_stat_firstBlockedLoading : Setter stat_firstBlockedLoading := ltac:(make_setter stat_firstBlockedLoading CacheStatistics_eta).
#[export] Instance set_stat_firstBlockedFull : Setter stat_firstBlockedFull := ltac:(make_setter stat_firstBlockedFull CacheStatistics_eta).
#[export] Instance set_fallbackReasons : Setter fallbackReasons := ltac:(make_setter fallbackReasons CacheStatistics_eta).
#[export] Instance set_stat_waitedRequests : Setter stat_waitedRequests := ltac:(make_setter stat_waitedRequests CacheStatistics_eta).
#[export] Instance set_totalWaitTime : Setter totalWaitTime := ltac:(make_setter totalWaitTime CacheStatistics_eta).
#[export] Instance set_maxWaitTime : Setter maxWaitTime := ltac:(make_setter maxWaitTime CacheStatistics_eta).
#[global] Arguments set_stat_hit _ _ / : assert.
#[global] Arguments set_stat_fill _ _ / : assert.
#[global] Arguments set_stat_fallback _ _ / : assert.
#[global] Arguments set_stat_invalid _ _ / : assert.
#[global] Arguments set_stat_fillSucceeded _ _ / : assert.
#[global] Arguments set_stat_fillFailed _ _ / : assert.
#[global] Arguments set_stat_eviction _ _ / : assert.
#[global] Arguments set_stat_discard _ _ / : assert.
#[global] Arguments set_stat_syncFailures _ _ / : assert.
#[global] Arguments set_stat_firstBlockedLoading _ _ / : assert.
#[global] Arguments set_stat_firstBlockedFull _ _ / : assert.
#[global] Arguments set_fallbackReasons _ _ / : assert.
#[global] Arguments set_stat_waitedRequests _ _ / : assert.
#[global] Arguments set_totalWaitTime _ _ / : assert.
#[global] Arguments set_maxWaitTime _ _ / : assert.

(** ** Requests and accesses *)

Record GpuCacheRequest := mkRequest {
  request_gpuId : Z;
  request_stream : ptr;
  request_d_fallback : ptr;
  request_fallbackBytes : size_t;
}.

Inductive CacheStatus := Invalid | CacheHit | CacheFill | TaskFallback.

#[export] Instance CacheStatus_eq_dec : EqDecision CacheStatus.
Proof. solve_decision. Defined.
Definition status_eqb (a b : CacheStatus) : bool := bool_decide (a = b).

(** [owner] is the address of the manager, null in an invalid access. *)
Record GpuDataAccess := mkAccess {
  owner : ptr;
  d_data : ptr;
  access_dataBytes : size_t;
  entryIndex : size_t;
  dataKey : GpuDataKey;
  stream : ptr;
  deviceId : Z;
  accessStatus : CacheStatus;
}.

(** [GpuDataAccess()], and what [reset] leaves. *)
Definition GpuDataAccess_default : GpuDataAccess :=
  mkAccess nullptr nullptr 0 0 GpuDataKey_default nullptr (-1) Invalid.

(** ** The manager *)

(** [self] is the address of the object ([this]); [cacheChanged] counts the
    [notify_all] calls on the condition variable. *)
Record GpuDataCache := mkCache {
  self : ptr;
  statistics : CacheStatistics;
  cacheChanged : N;
  waitTimeout : Z;
  evictionPolicy : CacheEvictionPolicy;
  waitingAccesses : size_t;
  entries : list (option GpuDataCacheEntry);
  eligibleGpuIds : list Z;
  residencyTable : GpuResidencyTable;
  emptyEntries : list size_t;
  leastRecentlyUsed : size_t;
  mostRecentlyUsed : size_t;
  oldestFilled : size_t;
  newestFilled : size_t;
  cache_dataBytes : size_t;
  activeFallbackAccesses : size_t;
  cache_initialized : bool;
  releasing : bool;
  failed : bool;
}.

(** A manager as constructed at address [this]. *)
Definition GpuDataCache_default (this : ptr) : GpuDataCache :=
  mkCache this CacheStatistics_default 0 50 LRU 0 [] [] GpuResidencyTable_default []
    NO_ENTRY NO_ENTRY NO_ENTRY NO_ENTRY 0 0 false false false.

Definition GpuDataCache_eta c :=
  mkCache (self c) (statistics c) (cacheChanged c) (waitTimeout c) (evictionPolicy c)
    (waitingAccesses c) (entries c) (eligibleGpuIds c) (residencyTable c)
    (emptyEntries c) (leastRecentlyUsed c) (mostRecentlyUsed c) (oldestFilled c)
    (newestFilled c) (cache_dataBytes c) (activeFallbackAccesses c)
    (cache_initialized c) (releasing c) (failed c).

#[export] Instance set_statistics : Setter statistics := ltac:(make_setter statistics GpuDataCache_eta).
#[export] Instance set_cacheChanged : Setter cacheChanged := ltac:(make_setter cacheChanged GpuDataCache_eta).
#[export] Instance set_waitTimeout : Setter waitTimeout := ltac:(make_setter waitTimeout GpuDataCache_eta).
#[export] Instance set_evictionPolicy : Setter evictionPolicy := ltac:(make_setter evictionPolicy GpuDataCache_eta).
#[export] Instance set_waitingAccesses : Setter waitingAccesses := ltac:(make_setter waitingAccesses GpuDataCache_eta).
#[export] Instance set_entries : Setter entries := ltac:(make_setter entries GpuDataCache_eta).
#[export] Instance set_eligibleGpuIds : Setter eligibleGpuIds := ltac:(make_setter eligibleGpuIds GpuDataCache_eta).
#[export] Instance set_residencyTable : Setter residencyTable := ltac:(make_setter residencyTable GpuDataCache_eta).
#[export] Instance set_emptyEntries : Setter emptyEntries := ltac:(make_setter emptyEntries GpuDataCache_eta).
#[export] Instance set_leastRecentlyUsed : Setter leastRecentlyUsed := ltac:(make_setter leastRecentlyUsed GpuDataCache_eta).
#[export] Instance set_mostRecentlyUsed : Setter mostRecentlyUsed := ltac:(make_setter mostRecentlyUsed GpuDataCache_eta).
#[export] Instance set_oldestFilled : Setter oldestFilled := ltac:(make_setter oldestFilled GpuDataCache_eta).
#[export] Instance set_newestFilled : Setter newestFilled := ltac:(make_setter newestFilled GpuDataCache_eta).
#[export] Instance set_cache_dataBytes : Setter cache_dataBytes := ltac:(make_setter cache_dataBytes GpuDataCache_eta).
#[export] Instance set_activeFallbackAccesses : Setter activeFallbackAccesses := ltac:(make_setter activeFallbackAccesses GpuDataCache_eta).
#[export] Instance set_cache_initialized : Setter cache_initialized := ltac:(make_setter cache_initialized GpuDataCache_eta).
#[export] Instance set_releasing : Setter releasing := ltac:(make_setter releasing GpuDataCache_eta).
#[export] Instance set_failed : Setter failed := ltac:(make_setter failed GpuDataCache_eta).
#[global] Arguments set_statistics _ _ / : assert.
#[global] Arguments set_cacheChanged _ _ / : assert.
#[global] Arguments set_waitTimeout _ _ / : assert.
#[global] Arguments set_evictionPolicy _ _ / : assert.
#[global] Arguments set_waitingAccesses _ _ / : assert.
#[global] Arguments set_entries _ _ / : assert.
#[global] Arguments set_eligibleGpuIds _ _ / : assert.
#[global] Arguments set_residencyTable _ _ / : assert.
#[global] Arguments set_emptyEntries _ _ / : assert.
#[global] Arguments set_leastRecentlyUsed _ _ / : assert.
#[global] Arguments set_mostRecentlyUsed _ _ / : assert.
#[global] Arguments set_oldestFilled _ _ / : assert.
#[global] Arguments set_newestFilled _ _ / : assert.
#[global] Arguments set_cache_dataBytes _ _ / : assert.
#[global] Arguments set_activeFallbackAccesses _ _ / : assert.
#[global] Arguments set_cache_initialized _ _ / : assert.
#[global] Arguments set_releasing _ _ / : assert.
#[global] Arguments set_failed _ _ / : assert.

(** ** Computations on the manager

    A critical section is a function of the manager's state; [None] is an
    execution with no defined behaviour (a null or out-of-range entry is
    dereferenced) or a loop out of fuel. *)
Definition M (A : Type) : Type := GpuDataCache → option (A * GpuDataCache).

#[export] Instance M_ret : MRet M := λ A x c, Some (x, c).
#[export] Instance M_bind : MBind M := λ A B f m c,
  match m c with None => None | Some (x, c') => f x c' end.

(** The object the critical section works on. *)
Definition this_cache : M GpuDataCache := λ c, Some (c, c).
Definition assign (f : GpuDataCache → GpuDataCache) : M () := λ c, Some ((), f c).
Definition defined {A} (o : option A) : M A := λ c,
  match o with None => None | Some x => Some (x, c) end.

(** [++statistics.counter] *)
Definition count {T} (counter : CacheStatistics → T) `{!Setter counter} (f : T → T) : M () :=
  assign (λ c, c <| statistics := set_field counter f (statistics c) |>).

(** [cacheChanged.notify_all()] *)
Definition notify_all : M () := assign (λ c, c <| cacheChanged := cacheChanged c + 1 |>).

(** [entries[index].get()], null when there is none. *)
Definition entry_at (c : GpuDataCache) (index : size_t) : option GpuDataCacheEntry :=
  match vat (entries c) index with Some (Some e) => Some e | _ => None end.

(** [*entries[index]], which must exist. *)
Definition entry_deref (index : size_t) : M GpuDataCacheEntry :=
  c ← this_cache; defined (entry_at c index).

(** Assignments through [entries[index]->]. *)
Definition entry_assign (index : size_t) (f : GpuDataCacheEntry → GpuDataCacheEntry) : M () :=
  e ← entry_deref index;
  assign (λ c, c <| entries := vset (entries c) index (Some (f e)) |>).
