(* ===== verification/GpuDataCache.v ===== *)
(** [GpuDataCache]: the bounded cache manager ([src/DataCache/GpuDataCache.h]
    and [.cpp]).  Every definition is one critical section of the manager's
    mutex, or a helper called inside one, in the order of the code.  A request
    that waits on the condition variable releases the mutex: [getCacheData] is
    therefore split at that point into the part before the wait, the part after
    it, and the loop iteration both lead to. *)
From S2P Require Import Prelude.
From S2P Require Import Platform.
From S2P Require Import GpuDataKey.
From S2P Require Import GpuResidencyTable.
From S2P Require Import GpuDataCacheEntry.
From S2P Require Import CacheTypes.
#[local] Open Scope N_scope.

Section operations.
Context `{Platform}.

(** ** The residency table inside the manager *)

Definition residency_find (key : GpuDataKey) : M (option size_t) :=
  c ← this_cache; defined (table_find (residencyTable c) key).

Definition residency_insert (key : GpuDataKey) (index : size_t) : M bool :=
  c ← this_cache;
  '(inserted, t) ← defined (table_insert (residencyTable c) key index);
  _ ← assign (λ c, c <| residencyTable := t |>);
  mret inserted.

Definition residency_erase (key : GpuDataKey) (index : size_t) : M bool :=
  c ← this_cache;
  '(erased, t) ← defined (table_erase (residencyTable c) key index);
  _ ← assign (λ c, c <| residencyTable := t |>);
  mret erased.

(** ** The intrusive lists *)

Definition addEvictableEntry (index : size_t) : M bool :=
  c ← this_cache;
  match entry_at c index with
  | None => mret false
  | Some entry =>
      if negb (state_eqb (cacheState entry) Valid) || negb (activeAccesses entry =? 0)
         || inEvictableList entry
      then mret false
      else
        _ ← entry_assign index (λ e, e <| previousEvictable := mostRecentlyUsed c |>
              <| nextEvictable := NO_ENTRY |> <| inEvictableList := true |>);
        _ ← (if negb (mostRecentlyUsed c =? NO_ENTRY)
             then entry_assign (mostRecentlyUsed c) (λ e, e <| nextEvictable := index |>)
             else assign (λ c, c <| leastRecentlyUsed := index |>));
        _ ← assign (λ c, c <| mostRecentlyUsed := index |>);
        _ ← notify_all;
        mret true
  end.

Definition removeEvictableEntry (index : size_t) : M bool :=
  c ← this_cache;
  match entry_at c index with
  | None => mret false
  | Some entry =>
      if negb (inEvictableList entry) then mret false
      else
        _ ← (if negb (previousEvictable entry =? NO_ENTRY)
             then entry_assign (previousEvictable entry)
                    (λ e, e <| nextEvictable := nextEvictable entry |>)
             else assign (λ c, c <| leastRecentlyUsed := nextEvictable entry |>));
        entry ← entry_deref index;
        _ ← (if negb (nextEvictable entry =? NO_ENTRY)
             then entry_assign (nextEvictable entry)
                    (λ e, e <| previousEvictable := previousEvictable entry |>)
             else assign (λ c, c <| mostRecentlyUsed := previousEvictable entry |>));
        _ ← entry_assign index (λ e, e <| previousEvictable := NO_ENTRY |>
              <| nextEvictable := NO_ENTRY |> <| inEvictableList := false |>);
        mret true
  end.

Definition addFilledEntry (index : size_t) : M bool :=
  c ← this_cache;
  if negb (policy_eqb (evictionPolicy c) FIFO) then mret true
  else
    match entry_at c index with
    | None => mret false
    | Some entry =>
        if negb (state_eqb (cacheState entry) Valid) || negb (activeAccesses entry =? 0)
           || inFilledList entry
        then mret false
        else
          _ ← entry_assign index (λ e, e <| previousFilled := newestFilled c |>
                <| nextFilled := NO_ENTRY |> <| inFilledList := true |>);
          _ ← (if negb (newestFilled c =? NO_ENTRY)
               then entry_assign (newestFilled c) (λ e, e <| nextFilled := index |>)
               else assign (λ c, c <| oldestFilled := index |>));
          _ ← assign (λ c, c <| newestFilled := index |>);
          mret true
    end.

Definition removeFilledEntry (index : size_t) : M bool :=
  c ← this_cache;
  match entry_at c index with
  | None => mret false
  | Some entry =>
      if negb (inFilledList entry) then mret false
      else
        _ ← (if negb (previousFilled entry =? NO_ENTRY)
             then entry_assign (previousFilled entry)
                    (λ e, e <| nextFilled := nextFilled entry |>)
             else assign (λ c, c <| oldestFilled := nextFilled entry |>));
        entry ← entry_deref index;
        _ ← (if negb (nextFilled entry =? NO_ENTRY)
             then entry_assign (nextFilled entry)
                    (λ e, e <| previousFilled := previousFilled entry |>)
             else assign (λ c, c <| newestFilled := previousFilled entry |>));
        _ ← entry_assign index (λ e, e <| previousFilled := NO_ENTRY |>
              <| nextFilled := NO_ENTRY |> <| inFilledList := false |>);
        mret true
  end.

(** ** Candidates for a fill *)

(** The FIFO scan of [takeCandidate] past the entries still being read. *)
Fixpoint skipBusyEntries (fuel : nat) (index : size_t) : M size_t :=
  match fuel with
  | O => λ _, None
  | S fuel' =>
      if index =? NO_ENTRY then mret NO_ENTRY
      else
        entry ← entry_deref index;
        if negb (activeAccesses entry =? 0)
        then skipBusyEntries fuel' (nextFilled entry)
        else mret index
  end.

(** The candidate index and whether it was empty; [NO_ENTRY] if there is none. *)
Definition takeCandidate : M (size_t * bool) :=
  c ← this_cache;
  match last (emptyEntries c) with
  | Some index =>
      _ ← assign (λ c, c <| emptyEntries := removelast (emptyEntries c) |>);
      mret (index, true)
  | None =>
      if leastRecentlyUsed c =? NO_ENTRY then mret (NO_ENTRY, false)
      else
        index ← (if policy_eqb (evictionPolicy c) FIFO
                 then skipBusyEntries (S (length (entries c))) (oldestFilled c)
                 else mret (leastRecentlyUsed c));
        if index =? NO_ENTRY then mret (NO_ENTRY, false)
        else
          removed ← removeEvictableEntry index;
          if negb removed then mret (NO_ENTRY, false) else mret (index, false)
  end.

Definition restoreCandidate (index : size_t) (wasEmpty : bool) : M () :=
  if wasEmpty then assign (λ c, c <| emptyEntries := emptyEntries c ++ [index] |>)
  else _ ← addEvictableEntry index; mret ().

(** ** Returning an entry to Empty *)

Definition clearEntry (e : GpuDataCacheEntry) : GpuDataCacheEntry :=
  invalidateReplicas (e <| metadata := FrameMetadata_default |>)
    <| cacheState := Empty |> <| activeAccesses := 0 |>
    <| previousEvictable := NO_ENTRY |> <| nextEvictable := NO_ENTRY |>
    <| inEvictableList := false |>
    <| previousFilled := NO_ENTRY |> <| nextFilled := NO_ENTRY |>
    <| inFilledList := false |> <| discardWhenUnused := false |>.

Definition resetEntry (index : size_t) : M () :=
  entry ← entry_deref index;
  _ ← (if inEvictableList entry then removeEvictableEntry index else mret false);
  entry ← entry_deref index;
  _ ← (if inFilledList entry then removeFilledEntry index else mret false);
  entry ← entry_deref index;
  _ ← residency_erase (md_key (metadata entry)) index;
  _ ← entry_assign index clearEntry;
  _ ← assign (λ c, c <| emptyEntries := emptyEntries c ++ [index] |>);
  notify_all.

Definition releaseReaderEntry (index : size_t) : M bool :=
  entry ← entry_deref index;
  if negb (activeAccesses entry =? 0) then mret true
  else if discardWhenUnused entry then
    _ ← resetEntry index;
    _ ← count stat_discard inc64;
    mret true
  else addEvictableEntry index.

(** ** Reset *)

Definition canResetLocked (c : GpuDataCache) : bool :=
  if negb (activeFallbackAccesses c =? 0) || negb (waitingAccesses c =? 0) then false
  else forallb (λ entry, match entry with
      | None => false
      | Some e => (activeAccesses e =? 0) && negb (state_eqb (cacheState e) Loading)
      end) (entries c).

(** The loop of [resetEntriesLocked], [n] entries from the end. *)
Fixpoint resetEntries_loop (n : nat) : M () :=
  match n with
  | O => mret ()
  | S n' =>
      _ ← entry_assign (N.of_nat n') clearEntry;
      _ ← assign (λ c, c <| emptyEntries := emptyEntries c ++ [N.of_nat n'] |>);
      resetEntries_loop n'
  end.

Definition resetEntriesLocked : M () :=
  _ ← assign (λ c, c <| residencyTable := table_clear (residencyTable c) |>
        <| emptyEntries := [] |>
        <| leastRecentlyUsed := NO_ENTRY |> <| mostRecentlyUsed := NO_ENTRY |>
        <| oldestFilled := NO_ENTRY |> <| newestFilled := NO_ENTRY |>);
  c ← this_cache;
  resetEntries_loop (length (entries c)).

(** The flag and the statistics written to the caller's output argument. *)
Definition resetCache (output : option CacheStatistics) :
    M (bool * option CacheStatistics) :=
  c ← this_cache;
  if negb (cache_initialized c) || releasing c || failed c || negb (canResetLocked c)
  then mret (false, output)
  else
    let output := match output with None => None | Some _ => Some (statistics c) end in
    _ ← assign (λ c, c <| statistics := CacheStatistics_default |>);
    _ ← resetEntriesLocked;
    mret (true, output).

Definition noteSyncFailure : M () :=
  _ ← count stat_syncFailures inc64;
  _ ← assign (λ c, c <| failed := true |>);
  notify_all.

(** ** Lookups *)

Definition count_fallback_reason (reason : CacheFallbackReason)
    (s : CacheFallbackStatistics) : CacheFallbackStatistics :=
  match reason with
  | CapacityZero => s <| capacityZero := inc64 (capacityZero s) |>
  | LoadingTimeout => s <| loadingTimeout := inc64 (loadingTimeout s) |>
  | FullTimeout => s <| fullTimeout := inc64 (fullTimeout s) |>
  | LoadingNoWait => s <| loadingNoWait := inc64 (loadingNoWait s) |>
  | FullNoWait => s <| fullNoWait := inc64 (fullNoWait s) |>
  | ReplicaUnavailable => s <| replicaUnavailable := inc64 (replicaUnavailable s) |>
  end.

Definition makeFallbackAccess (md : FrameMetadata) (request : GpuCacheRequest)
    (reason : CacheFallbackReason) : M GpuDataAccess :=
  _ ← count stat_fallback inc64;
  _ ← count fallbackReasons (count_fallback_reason reason);
  _ ← assign (λ c, c <| activeFallbackAccesses := inc64 (activeFallbackAccesses c) |>);
  c ← this_cache;
  mret (mkAccess (self c) (request_d_fallback request) (cache_dataBytes c) NO_ENTRY
          (md_key md) (request_stream request) (request_gpuId request) TaskFallback).

(** The local variables of [getCacheData] that live across a wait. *)
Record PendingRequest := mkPending {
  pending_metadata : FrameMetadata;
  pending_request : GpuCacheRequest;
  pending_deadline : Z;
  pending_blocked : bool;
  pending_waited : bool;
  pending_requestWait : Z;
  pending_waitStarted : Z;
}.

(** The outcome of the critical section: an access, or a thread that sleeps on
    the condition variable with its request. *)
Inductive LookupResult :=
  | Returned (access : GpuDataAccess)
  | Sleeping (pending : PendingRequest).

(** [++statistics.invalid; report; return GpuDataAccess();] *)
Definition return_invalid : M LookupResult :=
  _ ← count stat_invalid inc64;
  mret (Returned GpuDataAccess_default).

(** Nanoseconds per millisecond, and [steady_clock::time_point::max()]. *)
Definition NS_PER_MS : Z := 1000000.
Definition TIME_POINT_MAX : Z := 9223372036854775807.

Definition request_deadline (waitTimeout started : Z) : Z :=
  let maximumWait := ((TIME_POINT_MAX - started) ÷ NS_PER_MS)%Z in
  (started + Z.min waitTimeout maximumWait * NS_PER_MS)%Z.

(** [getCacheData] up to its loop; [started] is the clock at entry. *)
Definition getCacheData_begin (md : FrameMetadata) (request : GpuCacheRequest)
    (started : Z) : M (GpuDataAccess + PendingRequest) :=
  c ← this_cache;
  if negb (cache_initialized c) || releasing c || failed c
     || negb (md_bytes md =? cache_dataBytes c)
     || (md_width md <=? 0)%Z || (md_height md <=? 0)%Z
     || (request_gpuId request <? 0)%Z
     || (request_stream request =? nullptr)
     || (request_d_fallback request =? nullptr)
     || (request_fallbackBytes request <? cache_dataBytes c)
     || negb (existsb (Z.eqb (request_gpuId request)) (eligibleGpuIds c))
  then
    _ ← count stat_invalid inc64;
    mret (inl GpuDataAccess_default)
  else
    mret (inr (mkPending md request (request_deadline (waitTimeout c) started)
                 false false 0 0)).

(** [waitForCacheChange] up to the wait, with its two clock readings; [None]
    is its [return false]. *)
Definition waitForCacheChange_enter (p : PendingRequest) (now waitStarted : Z) :
    M (option PendingRequest) :=
  c ← this_cache;
  if (vsize (entries c) =? 0) || (waitTimeout c =? 0)%Z || (pending_deadline p <=? now)%Z
  then mret None
  else
    _ ← (if pending_waited p then mret () else count stat_waitedRequests inc64);
    _ ← assign (λ c, c <| waitingAccesses := inc64 (waitingAccesses c) |>);
    mret (Some (mkPending (pending_metadata p) (pending_request p) (pending_deadline p)
                  (pending_blocked p) true (pending_requestWait p) waitStarted)).

(** [waitForCacheChange] after the wait, the mutex held again. *)
Definition waitForCacheChange_leave (p : PendingRequest) (now : Z) : M PendingRequest :=
  _ ← assign (λ c, c <| waitingAccesses := dec64 (waitingAccesses c) |>);
  let elapsed := (now - pending_waitStarted p)%Z in
  let requestWait := (pending_requestWait p + elapsed)%Z in
  _ ← count totalWaitTime (λ total, total + elapsed)%Z;
  _ ← count maxWaitTime (λ longest, Z.max longest requestWait);
  mret (mkPending (pending_metadata p) (pending_request p) (pending_deadline p)
          (pending_blocked p) (pending_waited p) requestWait (pending_waitStarted p)).

(** The two obstructed branches of the loop: count the request's first
    obstruction, then wait or fall back. *)
Definition blocked_lookup {T} (firstBlocked : CacheStatistics → T) `{!Setter firstBlocked}
    (f : T → T) (noWait timeout : CacheFallbackReason)
    (p : PendingRequest) (now waitStarted : Z) : M LookupResult :=
  _ ← (if pending_blocked p then mret () else count firstBlocked f);
  let p := mkPending (pending_metadata p) (pending_request p) (pending_deadline p)
             true (pending_waited p) (pending_requestWait p) (pending_waitStarted p) in
  waiting ← waitForCacheChange_enter p now waitStarted;
  match waiting with
  | Some p => mret (Sleeping p)
  | None =>
      c ← this_cache;
      access ← makeFallbackAccess (pending_metadata p) (pending_request p)
                 (if (waitTimeout c =? 0)%Z then noWait else timeout);
      mret (Returned access)
  end.

(** The loop body when the key is resident at [index]. *)
Definition lookup_resident (index : size_t) (p : PendingRequest) (now waitStarted : Z) :
    M LookupResult :=
  let md := pending_metadata p in
  let request := pending_request p in
  c ← this_cache;
  match entry_at c index with
  | None => return_invalid
  | Some entry =>
      if negb (metadata_eqb (metadata entry) md) then return_invalid
      else if state_eqb (cacheState entry) Loading then
        blocked_lookup stat_firstBlockedLoading inc64 LoadingNoWait LoadingTimeout
          p now waitStarted
      else if negb (state_eqb (cacheState entry) Valid) then return_invalid
      else
        let deviceData := dataForGpu entry (request_gpuId request) in
        if (deviceData =? nullptr) || negb (replicaValid entry (request_gpuId request))
        then
          access ← makeFallbackAccess md request ReplicaUnavailable;
          mret (Returned access)
        else
          inconsistent ←
            (if policy_eqb (evictionPolicy c) FIFO && negb (inFilledList entry)
             then mret true
             else if activeAccesses entry =? 0
             then removed ← removeEvictableEntry index; mret (negb removed)
             else mret (inEvictableList entry));
          if (inconsistent : bool) then return_invalid
          else
            _ ← count stat_hit inc64;
            _ ← entry_assign index (λ e, e <| activeAccesses := inc64 (activeAccesses e) |>);
            mret (Returned (mkAccess (self c) deviceData (cache_dataBytes c) index
                              (md_key md) (request_stream request)
                              (request_gpuId request) CacheHit))
  end.

(** The checks on a candidate before its old residency is dropped; [false]
    restores it and rejects the request. *)
Definition claim_candidate (candidateIndex : size_t) (wasEmpty : bool)
    (md : FrameMetadata) (request : GpuCacheRequest) : M bool :=
  candidate ← entry_deref candidateIndex;
  if dataForGpu candidate (request_gpuId request) =? nullptr then
    _ ← restoreCandidate candidateIndex wasEmpty; mret false
  else
    claimed ←
      (if wasEmpty then
         if negb (state_eqb (cacheState candidate) Empty)
            || negb (activeAccesses candidate =? 0) || inEvictableList candidate
         then _ ← restoreCandidate candidateIndex true; mret false
         else mret true
       else
         if negb (state_eqb (cacheState candidate) Valid)
            || negb (activeAccesses candidate =? 0) || inEvictableList candidate
         then _ ← restoreCandidate candidateIndex false; mret false
         else
           erased ← residency_erase (md_key (metadata candidate)) candidateIndex;
           if negb erased
           then _ ← restoreCandidate candidateIndex false; mret false
           else mret true);
    if negb claimed then mret false
    else
      inserted ← residency_insert (md_key md) candidateIndex;
      if negb inserted then
        _ ← (if wasEmpty then mret false
             else residency_insert (md_key (metadata candidate)) candidateIndex);
        _ ← restoreCandidate candidateIndex wasEmpty;
        mret false
      else
        c ← this_cache;
        unlinked ← (if negb wasEmpty && policy_eqb (evictionPolicy c) FIFO
                    then removeFilledEntry candidateIndex else mret true);
        if negb unlinked then
          _ ← residency_erase (md_key md) candidateIndex;
          _ ← residency_insert (md_key (metadata candidate)) candidateIndex;
          _ ← restoreCandidate candidateIndex false;
          mret false
        else mret true.

(** The loop body when the key is not resident. *)
Definition lookup_absent (p : PendingRequest) (now waitStarted : Z) : M LookupResult :=
  let md := pending_metadata p in
  let request := pending_request p in
  '(candidateIndex, wasEmpty) ← takeCandidate;
  if candidateIndex =? NO_ENTRY then
    c ← this_cache;
    if vsize (entries c) =? 0 then
      access ← makeFallbackAccess md request CapacityZero;
      mret (Returned access)
    else
      blocked_lookup stat_firstBlockedFull inc64 FullNoWait FullTimeout p now waitStarted
  else
    claimed ← claim_candidate candidateIndex wasEmpty md request;
    if negb claimed then return_invalid
    else
      candidate ← entry_deref candidateIndex;
      _ ← count stat_fill inc64;
      _ ← (if (wasEmpty : bool) then mret () else count stat_eviction inc64);
      _ ← entry_assign candidateIndex (λ e,
            invalidateReplicas (e <| metadata := md |>) <| cacheState := Loading |>
              <| activeAccesses := 1 |> <| discardWhenUnused := false |>);
      c ← this_cache;
      mret (Returned (mkAccess (self c) (dataForGpu candidate (request_gpuId request))
                        (cache_dataBytes c) candidateIndex (md_key md)
                        (request_stream request) (request_gpuId request) CacheFill)).

(** One iteration of the loop of [getCacheData], with the two clock readings an
    obstructed iteration makes. *)
Definition getCacheData_iteration (p : PendingRequest) (now waitStarted : Z) :
    M LookupResult :=
  c ← this_cache;
  if failed c then return_invalid
  else
    resident ← residency_find (md_key (pending_metadata p));
    match resident with
    | Some index => lookup_resident index p now waitStarted
    | None => lookup_absent p now waitStarted
    end.

(** [getCacheData] from its entry to its return or its first wait. *)
Definition getCacheData (md : FrameMetadata) (request : GpuCacheRequest)
    (started now waitStarted : Z) : M LookupResult :=
  begun ← getCacheData_begin md request started;
  match begun with
  | inl access => mret (Returned access)
  | inr p => getCacheData_iteration p now waitStarted
  end.

(** [getCacheData] from the end of a wait to its return or its next wait. *)
Definition getCacheData_resume (p : PendingRequest) (woken now waitStarted : Z) :
    M LookupResult :=
  p ← waitForCacheChange_leave p woken;
  getCacheData_iteration p now waitStarted.

(** ** Completion *)

(** The access object after [access.reset()], with the flag returned. *)
Definition finished (result : bool) : M (bool * GpuDataAccess) :=
  mret (result, GpuDataAccess_default).

(** The checks shared by both kinds of cache-backed access. *)
Definition access_matches (c : GpuDataCache) (access : GpuDataAccess)
    (entry : GpuDataCacheEntry) : bool :=
  key_eqb (md_key (metadata entry)) (dataKey access)
  && (dataForGpu entry (deviceId access) =? d_data access)
  && (access_dataBytes access =? cache_dataBytes c).

(** The CacheHit branch of [completeAccess]; [valid] on return. *)
Definition completeHit (access : GpuDataAccess) (entry : GpuDataCacheEntry)
    (retention : CacheRetention) : M bool :=
  if negb (state_eqb (cacheState entry) Valid && negb (activeAccesses entry =? 0)
           && negb (inEvictableList entry) && replicaValid entry (deviceId access))
  then mret false
  else
    let index := entryIndex access in
    _ ← entry_assign index (λ e,
          e <| discardWhenUnused := discardWhenUnused e || retention_eqb retention Discard |>
            <| activeAccesses := dec64 (activeAccesses e) |>);
    releaseReaderEntry index.

(** The CacheFill branch: [valid] and [succeeded] on return. *)
Definition completeFill (access : GpuDataAccess) (entry : GpuDataCacheEntry)
    (succeeded : bool) (retention : CacheRetention) : M (bool * bool) :=
  let index := entryIndex access in
  if negb (state_eqb (cacheState entry) Loading && (activeAccesses entry =? 1)
           && negb (inEvictableList entry))
  then mret (false, false)
  else if succeeded then
    let '(marked, entry') := markReplicaValid entry (deviceId access) in
    _ ← entry_assign index (λ _, entry');
    if marked then
      _ ← entry_assign index (λ e, e <| cacheState := Valid |> <| activeAccesses := 0 |>);
      if retention_eqb retention Discard then
        _ ← resetEntry index;
        _ ← count stat_discard inc64;
        mret (true, true)
      else
        added ← addFilledEntry index;
        added ← (if (added : bool) then addEvictableEntry index else mret false);
        if (added : bool) then mret (true, true)
        else _ ← resetEntry index; mret (true, false)
    else
      _ ← resetEntry index;
      mret (true, false)
  else
    _ ← resetEntry index;
    mret (true, false).

Definition completeAccess (access : GpuDataAccess) (succeeded : bool)
    (retention : CacheRetention) : M (bool * GpuDataAccess) :=
  c ← this_cache;
  if negb (owner access =? self c) then mret (false, access)
  else if status_eqb (accessStatus access) TaskFallback then
    let valid := cache_initialized c && negb (releasing c)
                 && negb (activeFallbackAccesses c =? 0)
                 && (entryIndex access =? NO_ENTRY)
                 && negb (d_data access =? nullptr)
                 && (access_dataBytes access =? cache_dataBytes c) in
    _ ← (if valid
         then assign (λ c, c <| activeFallbackAccesses := dec64 (activeFallbackAccesses c) |>)
         else mret ());
    finished (valid && succeeded)
  else
    let entry :=
      if cache_initialized c && negb (releasing c)
         && (entryIndex access <? vsize (entries c))
      then match entry_at c (entryIndex access) with
           | Some e => if access_matches c access e then Some e else None
           | None => None
           end
      else None in
    match accessStatus access with
    | CacheHit =>
        valid ← match entry with
                | Some e => completeHit access e retention
                | None => mret false
                end;
        finished ((valid : bool) && succeeded)
    | CacheFill =>
        '(valid, succeeded) ← match entry with
                | Some e => completeFill access e succeeded retention
                | None => mret (false, false)
                end;
        _ ← (if (valid : bool) && (succeeded : bool)
             then count stat_fillSucceeded inc64 else count stat_fillFailed inc64);
        finished (valid && succeeded)
    | _ => finished false
    end.

(** [abortAccess]; the access object it leaves. *)
Definition abortAccess (access : GpuDataAccess) : M GpuDataAccess :=
  c ← this_cache;
  if negb (owner access =? self c) then mret access
  else if status_eqb (accessStatus access) TaskFallback then
    _ ← (if negb (activeFallbackAccesses c =? 0)
         then assign (λ c, c <| activeFallbackAccesses := dec64 (activeFallbackAccesses c) |>)
         else mret ());
    mret GpuDataAccess_default
  else
    _ ← (if status_eqb (accessStatus access) CacheFill
         then count stat_fillFailed inc64 else mret ());
    let index := entryIndex access in
    _ ← (if index <? vsize (entries c) then
           entry ← entry_deref index;
           let matchingAccess := access_matches c access entry in
           if matchingAccess && status_eqb (accessStatus access) CacheHit
              && state_eqb (cacheState entry) Valid && negb (activeAccesses entry =? 0)
              && negb (inEvictableList entry)
           then
             _ ← entry_assign index (λ e,
                   e <| activeAccesses := dec64 (activeAccesses e) |>);
             _ ← releaseReaderEntry index;
             mret ()
           else if matchingAccess && status_eqb (accessStatus access) CacheFill
                   && state_eqb (cacheState entry) Loading && (activeAccesses entry =? 1)
                   && negb (inEvictableList entry)
           then resetEntry index
           else mret ()
         else mret ());
    mret GpuDataAccess_default.

End operations.
