(* ===== verification/GpuDataAccess.v ===== *)
(** [GpuDataAccess]: the scoped lease a caller holds
    ([src/DataCache/GpuDataAccess.h] and [.cpp]).  Its completion first
    synchronizes the borrowed stream, outside the manager's mutex. *)
From S2P Require Import Prelude.
From S2P Require Import Platform.
From S2P Require Import GpuDataKey.
From S2P Require Import GpuResidencyTable.
From S2P Require Import GpuDataCacheEntry.
From S2P Require Import CacheTypes.
From S2P Require Import GpuDataCache.
#[local] Open Scope N_scope.

(** ** Accessors *)

Definition access_bool (a : GpuDataAccess) : bool := negb (owner a =? nullptr).

Definition writableData (a : GpuDataAccess) : ptr :=
  if status_eqb (accessStatus a) CacheFill || status_eqb (accessStatus a) TaskFallback
  then d_data a else nullptr.

Section operations.
Context `{Platform}.

(** [takeAccess]: the destination after the move, and the moved-from source. *)
Definition takeAccess (other : GpuDataAccess) : GpuDataAccess * GpuDataAccess :=
  (mkAccess (owner other) (d_data other) (access_dataBytes other) (entryIndex other)
     (dataKey other) (stream other) (deviceId other) (accessStatus other),
   GpuDataAccess_default).

(** [abortUnfinishedAccess], with the manager that owns the access. *)
Definition abortUnfinishedAccess (a : GpuDataAccess) (c : GpuDataCache) (w : world) :
    option (GpuDataAccess * GpuDataCache * world) :=
  if owner a =? nullptr then Some (a, c, w)
  else
    let '(status, w) := cudaStreamSynchronize (stream a) w in
    '(_, c) ← (if cuda_ok status then Some ((), c) else noteSyncFailure c);
    '(a, c) ← abortAccess a c;
    Some (a, c, w).

(** The destructor. *)
Definition access_destruct (a : GpuDataAccess) (c : GpuDataCache) (w : world) :
    option (GpuDataCache * world) :=
  '(_, c, w) ← abortUnfinishedAccess a c w;
  Some (c, w).

(** Move assignment of a distinct source: the destination's own lease is
    aborted first.  (Assigning an access to itself changes nothing.) *)
Definition access_move_assign (a other : GpuDataAccess) (c : GpuDataCache) (w : world) :
    option (GpuDataAccess * GpuDataAccess * GpuDataCache * world) :=
  '(_, c, w) ← abortUnfinishedAccess a c w;
  let '(a, other) := takeAccess other in
  Some (a, other, c, w).

Definition freeCacheData (a : GpuDataAccess) (submittedSuccessfully : bool)
    (retention : CacheRetention) (c : GpuDataCache) (w : world) :
    option (bool * GpuDataAccess * GpuDataCache * world) :=
  if (owner a =? nullptr) || (stream a =? nullptr) then Some (false, a, c, w)
  else
    let validRetention := retention_eqb retention Keep || retention_eqb retention Discard in
    let succeeded := submittedSuccessfully && validRetention in
    let '(status, w) := cudaStreamSynchronize (stream a) w in
    let synchronized := cuda_ok status in
    let succeeded := succeeded && synchronized in
    '(_, c) ← (if synchronized then Some ((), c) else noteSyncFailure c);
    '(result, a, c) ← completeAccess a succeeded (if validRetention then retention else Keep) c;
    Some (result, a, c, w).

End operations.
