(* ===== verification/CacheLifecycle.v ===== *)
(** Initialization and release of the cache manager
    ([GpuDataCache::initialize], [release] and the destructor in
    [src/DataCache/GpuDataCache.cpp]).  Both leave the mutex between two
    critical sections: the parts are separate definitions, and [initialize] and
    [release] compose them as one undisturbed call does. *)
From S2P Require Import Prelude.
From S2P Require Import Platform.
From S2P Require Import GpuDataKey.
From S2P Require Import GpuResidencyTable.
From S2P Require Import GpuDataCacheEntry.
From S2P Require Import CacheTypes.
From S2P Require Import GpuDataCache.
#[local] Open Scope N_scope.

Section lifecycle.
Context `{Platform}.

(** The condition both critical sections of [initialize] test: something of a
    previous life of the manager is left. *)
Definition not_pristine (c : GpuDataCache) : bool :=
  cache_initialized c || releasing c || negb (vsize (entries c) =? 0)
  || negb (vsize (eligibleGpuIds c) =? 0) || table_initialized (residencyTable c)
  || negb (vsize (emptyEntries c) =? 0)
  || negb (leastRecentlyUsed c =? NO_ENTRY) || negb (mostRecentlyUsed c =? NO_ENTRY)
  || negb (oldestFilled c =? NO_ENTRY) || negb (newestFilled c =? NO_ENTRY).

Definition initialize_rejects (c : GpuDataCache) (gpuIds : list Z) (bytes : size_t)
    (configuredWaitTimeout : Z) (configuredEvictionPolicy : CacheEvictionPolicy) : bool :=
  not_pristine c || negb (vsize gpuIds =? 1) || (default 0%Z (head gpuIds) <? 0)%Z
  || (bytes =? 0) || (configuredWaitTimeout <? 0)%Z
  || (negb (policy_eqb configuredEvictionPolicy LRU)
      && negb (policy_eqb configuredEvictionPolicy FIFO)).

(** The destructors of the entries built so far. *)
Fixpoint destroyEntries (es : list GpuDataCacheEntry) (w : world) : world :=
  match es with
  | [] => w
  | e :: es => let '(_, _, w) := entry_release e w in destroyEntries es w
  end.

(** The loop that allocates [n] more entries. *)
Fixpoint makeEntries (n : nat) (gpuIds : list Z) (bytes : size_t)
    (made : list GpuDataCacheEntry) (w : world) :
    option (list GpuDataCacheEntry) * world :=
  match n with
  | O => (Some made, w)
  | S n' =>
      let '(allocated, w) := host_alloc 1 w in
      if negb allocated then (None, destroyEntries made w)
      else
        let '(ok, e, w) := entry_initialize GpuDataCacheEntry_default gpuIds bytes w in
        if negb ok then (None, destroyEntries (e :: made) w)
        else makeEntries n' gpuIds bytes (made ++ [e]) w
  end.

Definition initialEmptyEntries (cacheEntryCount : size_t) : list size_t :=
  N.of_nat <$> reverse (seq 0 (N.to_nat cacheEntryCount)).

(** The part of [initialize] outside the mutex. *)
Definition initialize_build (gpuIds : list Z) (bytes cacheEntryCount : size_t)
    (w : world) :
    option (option (GpuResidencyTable * list GpuDataCacheEntry * list size_t) * world) :=
  '(ok, t, w) ← table_initialize GpuResidencyTable_default cacheEntryCount w;
  if negb ok then Some (None, w)
  else
    let '(reserved, w) := host_alloc cacheEntryCount w in
    if negb reserved then Some (None, w)
    else
      let '(reserved, w) := host_alloc cacheEntryCount w in
      if negb reserved then Some (None, w)
      else
        match makeEntries (N.to_nat cacheEntryCount) gpuIds bytes [] w with
        | (None, w) => Some (None, w)
        | (Some es, w) => Some (Some (t, es, initialEmptyEntries cacheEntryCount), w)
        end.

(** The second critical section. *)
Definition initialize_commit (c : GpuDataCache) (gpuIds : list Z) (bytes : size_t)
    (configuredWaitTimeout : Z) (configuredEvictionPolicy : CacheEvictionPolicy)
    (built : GpuResidencyTable * list GpuDataCacheEntry * list size_t) (w : world) :
    bool * GpuDataCache * world :=
  let '(t, es, empties) := built in
  if not_pristine c then (false, c, destroyEntries es w)
  else
    let '(copied, w) := host_alloc (vsize gpuIds) w in
    if negb copied then (false, c <| eligibleGpuIds := [] |>, destroyEntries es w)
    else
      (true,
       c <| eligibleGpuIds := gpuIds |> <| entries := Some <$> es |>
         <| residencyTable := fst (table_swap (residencyTable c) t) |>
         <| emptyEntries := empties |> <| cache_dataBytes := bytes |>
         <| waitTimeout := configuredWaitTimeout |>
         <| evictionPolicy := configuredEvictionPolicy |>
         <| activeFallbackAccesses := 0 |> <| statistics := CacheStatistics_default |>
         <| failed := false |> <| cache_initialized := true |>, w).

Definition initialize (c : GpuDataCache) (gpuIds : list Z)
    (bytes cacheEntryCount : size_t) (configuredWaitTimeout : Z)
    (configuredEvictionPolicy : CacheEvictionPolicy) (w : world) :
    option (bool * GpuDataCache * world) :=
  if initialize_rejects c gpuIds bytes configuredWaitTimeout configuredEvictionPolicy
  then Some (false, c, w)
  else
    '(built, w) ← initialize_build gpuIds bytes cacheEntryCount w;
    match built with
    | None => Some (false, c, w)
    | Some built =>
        Some (initialize_commit c gpuIds bytes configuredWaitTimeout
                configuredEvictionPolicy built w)
    end.

(** ** Release *)

(** The first critical section: a result, or the start of the release. *)
Definition release_begin (c : GpuDataCache) : option bool * GpuDataCache :=
  if negb (cache_initialized c) && (vsize (entries c) =? 0)
     && (vsize (eligibleGpuIds c) =? 0) && negb (table_initialized (residencyTable c))
     && (vsize (emptyEntries c) =? 0)
  then (Some true, c)
  else if releasing c || negb (canResetLocked c) then (Some false, c)
  else (None, c <| cache_initialized := false |> <| releasing := true |>).

(** The loop outside the mutex: [ok], [allReleased] and the entries left. *)
Fixpoint releaseEntries (es : list (option GpuDataCacheEntry)) (w : world) :
    bool * bool * list (option GpuDataCacheEntry) * world :=
  match es with
  | [] => (true, true, [], w)
  | None :: rest =>
      let '(ok, allReleased, rest, w) := releaseEntries rest w in
      (ok, allReleased, None :: rest, w)
  | Some e :: rest =>
      let '(released, e, w) := entry_release e w in
      let '(ok, allReleased, rest, w) := releaseEntries rest w in
      (released && ok, negb (entry_initialized e) && allReleased, Some e :: rest, w)
  end.

(** The last critical section. *)
Definition release_end (allReleased : bool) (c : GpuDataCache) : GpuDataCache :=
  let c :=
    if allReleased then
      c <| entries := [] |> <| eligibleGpuIds := [] |>
        <| residencyTable := table_release (residencyTable c) |> <| emptyEntries := [] |>
        <| leastRecentlyUsed := NO_ENTRY |> <| mostRecentlyUsed := NO_ENTRY |>
        <| oldestFilled := NO_ENTRY |> <| newestFilled := NO_ENTRY |>
        <| cache_dataBytes := 0 |> <| activeFallbackAccesses := 0 |>
        <| failed := false |> <| cache_initialized := false |>
    else c in
  c <| releasing := false |>.

Definition release (c : GpuDataCache) (w : world) : bool * GpuDataCache * world :=
  match release_begin c with
  | (Some result, c) => (result, c, w)
  | (None, c) =>
      let '(ok, allReleased, es, w) := releaseEntries (entries c) w in
      (ok, release_end allReleased (c <| entries := es |>), w)
  end.

End lifecycle.
