(* ===== verification/CacheSpec.v ===== *)
(** The abstract cache: what the manager's entries, links and residency table
    stand for.  A cell of the directory is free, reserved by one fill, or ready
    with a number of readers; the eviction order, the fill order and the free
    list are lists of indices and the residency table is a finite map.  The
    operations of the cache are specified here as functions of that state;
    [concrete] lays a state out as the code stores it, and [refines] says that
    a critical section, started on the layout of a state, ends on the layout of
    the specified one. *)
From S2P Require Import Prelude.
From S2P Require Import Platform.
From S2P Require Import GpuDataKey.
From S2P Require Import GpuResidencyTable.
From S2P Require Import GpuDataCacheEntry.
From S2P Require Import IntrusiveList.
From S2P Require Import CacheTypes.
From S2P Require Import GpuDataCache.
#[local] Open Scope N_scope.

(** ** The abstract state *)

Inductive usage :=
| Free
| Reserved (md : FrameMetadata)
| Ready (md : FrameMetadata) (readers : N) (discard : bool).

(** A cell: its device allocation and its use. *)
Record Cell := mkCell { cell_data : ptr; cell_use : usage }.

Record Directory := mkDirectory {
  d_self : ptr;
  d_stats : CacheStatistics;
  d_notified : N;
  d_waitTimeout : Z;
  d_policy : CacheEvictionPolicy;
  d_waiting : N;
  d_fallbacks : N;
  d_failed : bool;
  d_gpu : Z;
  d_bytes : N;
  d_cells : list Cell;
  d_lru : list N;
  d_fifo : list N;
  d_index : gmap GpuDataKey N;
  d_free : list N;
}.

Definition Directory_eta d :=
  mkDirectory (d_self d) (d_stats d) (d_notified d) (d_waitTimeout d) (d_policy d)
    (d_waiting d) (d_fallbacks d) (d_failed d) (d_gpu d) (d_bytes d) (d_cells d)
    (d_lru d) (d_fifo d) (d_index d) (d_free d).

#[export] Instance set_d_stats : Setter d_stats := ltac:(make_setter d_stats Directory_eta).
#[export] Instance set_d_notified : Setter d_notified := ltac:(make_setter d_notified Directory_eta).
#[export] Instance set_d_waiting : Setter d_waiting := ltac:(make_setter d_waiting Directory_eta).
#[export] Instance set_d_fallbacks : Setter d_fallbacks := ltac:(make_setter d_fallbacks Directory_eta).
#[export] Instance set_d_failed : Setter d_failed := ltac:(make_setter d_failed Directory_eta).
#[export] Instance set_d_cells : Setter d_cells := ltac:(make_setter d_cells Directory_eta).
#[export] Instance set_d_lru : Setter d_lru := ltac:(make_setter d_lru Directory_eta).
#[export] Instance set_d_fifo : Setter d_fifo := ltac:(make_setter d_fifo Directory_eta).
#[export] Instance set_d_index : Setter d_index := ltac:(make_setter d_index Directory_eta).
#[export] Instance set_d_free : Setter d_free := ltac:(make_setter d_free Directory_eta).
#[global] Arguments set_d_stats _ _ / : assert.
#[global] Arguments set_d_notified _ _ / : assert.
#[global] Arguments set_d_waiting _ _ / : assert.
#[global] Arguments set_d_fallbacks _ _ / : assert.
#[global] Arguments set_d_failed _ _ / : assert.
#[global] Arguments set_d_cells _ _ / : assert.
#[global] Arguments set_d_lru _ _ / : assert.
#[global] Arguments set_d_fifo _ _ / : assert.
#[global] Arguments set_d_index _ _ / : assert.
#[global] Arguments set_d_free _ _ / : assert.

Definition use_at (d : Directory) (i : N) : option usage := cell_use <$> vat (d_cells d) i.

(** The metadata a cell is resident under. *)
Definition resident_md (u : usage) : option FrameMetadata :=
  match u with Free => None | Reserved md => Some md | Ready md _ _ => Some md end.

(** ** The layout *)

(** The replicas, state and counters of a cell as its entry stores them. *)
Definition cell_entry (gpu : Z) (bytes : N) (evictable filled : link) (cell : Cell) :
    GpuDataCacheEntry :=
  let '(md, state, accesses, valid, discard) :=
    match cell_use cell with
    | Free => (FrameMetadata_default, Empty, 0, false, false)
    | Reserved md => (md, Loading, 1, false, false)
    | Ready md readers discard => (md, Valid, readers, true, discard)
    end in
  mkEntry md state accesses (link_prev evictable) (link_next evictable)
    (link_prev filled) (link_next filled) [mkReplica gpu (cell_data cell) valid] bytes
    (link_in evictable) (link_in filled) discard true.

Definition entries_of (gpu : Z) (bytes : N) (evictable filled : N → link)
    (cells : list Cell) : list (option GpuDataCacheEntry) :=
  imap (λ n cell, Some (cell_entry gpu bytes (evictable (N.of_nat n))
                          (filled (N.of_nat n)) cell)) cells.

Definition concrete (d : Directory) (t : GpuResidencyTable) : GpuDataCache :=
  mkCache (d_self d) (d_stats d) (d_notified d) (d_waitTimeout d) (d_policy d)
    (d_waiting d)
    (entries_of (d_gpu d) (d_bytes d) (link_of (d_lru d)) (link_of (d_fifo d)) (d_cells d))
    [d_gpu d] t (d_free d) (first_of (d_lru d)) (last_of (d_lru d))
    (first_of (d_fifo d)) (last_of (d_fifo d)) (d_bytes d) (d_fallbacks d)
    true false (d_failed d).

(** ** The specified operations *)

Definition bump {T} (counter : CacheStatistics → T) `{!Setter counter} (f : T → T)
    (d : Directory) : Directory :=
  d <| d_stats := set_field counter f (d_stats d) |>.

Definition notify (d : Directory) : Directory := d <| d_notified := d_notified d + 1 |>.

Definition set_use (i : N) (u : usage) (d : Directory) : Directory :=
  match vat (d_cells d) i with
  | None => d
  | Some cell => d <| d_cells := vset (d_cells d) i (mkCell (cell_data cell) u) |>
  end.

(** An idle ready cell joins the eviction order as the most recently used. *)
Definition make_evictable (i : N) (d : Directory) : Directory :=
  notify (d <| d_lru := d_lru d ++ [i] |>).

(** Under FIFO a published cell joins the fill order as the newest. *)
Definition make_filled (i : N) (d : Directory) : Directory :=
  if policy_eqb (d_policy d) FIFO then d <| d_fifo := d_fifo d ++ [i] |> else d.

(** A cell loses its payload and becomes the first choice for the next fill. *)
Definition free_cell (i : N) (key : GpuDataKey) (d : Directory) : Directory :=
  notify ((set_use i Free (d <| d_lru := unlink i (d_lru d) |>
    <| d_fifo := unlink i (d_fifo d) |> <| d_index := delete key (d_index d) |>))
    <| d_free := d_free d ++ [i] |>).

(** The cell a fill takes: the free cell freed last, else the least recently
    used idle cell, or under FIFO the idle cell filled first. *)
Definition is_idle (d : Directory) (i : N) : bool :=
  match use_at d i with Some (Ready _ 0 _) => true | _ => false end.

Definition victim (d : Directory) : option (N * bool) :=
  match last (d_free d) with
  | Some i => Some (i, true)
  | None =>
      (λ i, (i, false)) <$>
        (if policy_eqb (d_policy d) FIFO then head (filter (λ i, is_idle d i = true) (d_fifo d))
         else head (d_lru d))
  end.

(** The victim leaves its lists; its old payload leaves the index. *)
Definition take_victim (i : N) (wasEmpty : bool) (d : Directory) : Directory :=
  if wasEmpty then d <| d_free := removelast (d_free d) |>
  else
    d <| d_lru := unlink i (d_lru d) |> <| d_fifo := unlink i (d_fifo d) |>
      <| d_index := match use_at d i with
                    | Some u => match resident_md u with
                                | Some md => delete (md_key md) (d_index d)
                                | None => d_index d end
                    | None => d_index d end |>.

Definition reserve (i : N) (wasEmpty : bool) (md : FrameMetadata) (d : Directory) :
    Directory :=
  let d := take_victim i wasEmpty d in
  let d := set_use i (Reserved md) (d <| d_index := <[md_key md := i]> (d_index d) |>) in
  let d := bump stat_fill inc64 d in
  if wasEmpty then d else bump stat_eviction inc64 d.

Definition lease (i : N) (data : ptr) (md : FrameMetadata) (request : GpuCacheRequest)
    (status : CacheStatus) (d : Directory) : GpuDataAccess :=
  mkAccess (d_self d) data (d_bytes d) i (md_key md) (request_stream request)
    (request_gpuId request) status.

(** A fallback leases the caller's own buffer. *)
Definition count_fallback (reason : CacheFallbackReason) (d : Directory) : Directory :=
  let d := bump fallbackReasons (count_fallback_reason reason)
             (bump stat_fallback inc64 d) in
  d <| d_fallbacks := inc64 (d_fallbacks d) |>.

Definition fallback (md : FrameMetadata) (request : GpuCacheRequest)
    (reason : CacheFallbackReason) (d : Directory) : LookupResult * Directory :=
  (Returned (lease NO_ENTRY (request_d_fallback request) md request TaskFallback d),
   count_fallback reason d).

Definition reject (d : Directory) : LookupResult * Directory :=
  (Returned GpuDataAccess_default, bump stat_invalid inc64 d).

(** What obstructs a request, with the counter of first obstructions and the
    two reasons a fallback reports. *)
Inductive obstacle := KeyLoading | CacheFull.

Definition count_obstacle (o : obstacle) (d : Directory) : Directory :=
  match o with
  | KeyLoading => bump stat_firstBlockedLoading inc64 d
  | CacheFull => bump stat_firstBlockedFull inc64 d
  end.

Definition obstacle_reason (o : obstacle) (noWait : bool) : CacheFallbackReason :=
  match o, noWait with
  | KeyLoading, true => LoadingNoWait | KeyLoading, false => LoadingTimeout
  | CacheFull, true => FullNoWait | CacheFull, false => FullTimeout
  end.

(** An obstructed request sleeps until its deadline has passed. *)
Definition obstructed (o : obstacle) (p : PendingRequest) (now waitStarted : Z)
    (d : Directory) : LookupResult * Directory :=
  let d := if pending_blocked p then d else count_obstacle o d in
  if (d_waitTimeout d =? 0)%Z || (pending_deadline p <=? now)%Z then
    fallback (pending_metadata p) (pending_request p)
      (obstacle_reason o (d_waitTimeout d =? 0)%Z) d
  else
    let d := if pending_waited p then d else bump stat_waitedRequests inc64 d in
    (Sleeping (mkPending (pending_metadata p) (pending_request p) (pending_deadline p)
                 true true (pending_requestWait p) waitStarted),
     d <| d_waiting := inc64 (d_waiting d) |>).

(** One evaluation of a request against the directory. *)
Definition attempt (p : PendingRequest) (now waitStarted : Z) (d : Directory) :
    LookupResult * Directory :=
  let md := pending_metadata p in
  let request := pending_request p in
  if d_failed d then reject d
  else
    match d_index d !! md_key md with
    | Some i =>
        match vat (d_cells d) i with
        | Some (mkCell data (Ready md' readers discard)) =>
            if decide (md' = md) then
              (Returned (lease i data md request CacheHit d),
               set_use i (Ready md (inc64 readers) discard)
                 (bump stat_hit inc64 (d <| d_lru := unlink i (d_lru d) |>)))
            else reject d
        | Some (mkCell data (Reserved md')) =>
            if decide (md' = md) then obstructed KeyLoading p now waitStarted d
            else reject d
        | _ => reject d
        end
    | None =>
        match victim d with
        | Some (i, wasEmpty) =>
            match vat (d_cells d) i with
            | Some cell =>
                (Returned (lease i (cell_data cell) md request CacheFill d),
                 reserve i wasEmpty md d)
            | None => reject d
            end
        | None =>
            if vsize (d_cells d) =? 0 then fallback md request CapacityZero d
            else obstructed CacheFull p now waitStarted d
        end
    end.

(** What [getCacheData] demands of a call. *)
Definition valid_request (md : FrameMetadata) (request : GpuCacheRequest)
    (d : Directory) : bool :=
  (md_bytes md =? d_bytes d) && (0 <? md_width md)%Z && (0 <? md_height md)%Z
  && (0 <=? request_gpuId request)%Z && (request_gpuId request =? d_gpu d)%Z
  && negb (request_stream request =? nullptr) && negb (request_d_fallback request =? nullptr)
  && (d_bytes d <=? request_fallbackBytes request).

Definition new_request (md : FrameMetadata) (request : GpuCacheRequest) (started : Z)
    (d : Directory) : PendingRequest :=
  mkPending md request (request_deadline (d_waitTimeout d) started) false false 0 0.

(** A call up to its return or its first wait. *)
Definition request_access (md : FrameMetadata) (request : GpuCacheRequest)
    (started now waitStarted : Z) (d : Directory) : LookupResult * Directory :=
  if negb (d_failed d) && valid_request md request d
  then attempt (new_request md request started d) now waitStarted d
  else reject d.

(** A sleeper wakes, accounts for the time it slept and tries again. *)
Definition woken_request (p : PendingRequest) (woken : Z) : PendingRequest :=
  mkPending (pending_metadata p) (pending_request p) (pending_deadline p)
    (pending_blocked p) (pending_waited p)
    (pending_requestWait p + (woken - pending_waitStarted p)) (pending_waitStarted p).

Definition end_wait (p : PendingRequest) (woken : Z) (d : Directory) : Directory :=
  let elapsed := (woken - pending_waitStarted p)%Z in
  bump maxWaitTime (λ longest, Z.max longest (pending_requestWait p + elapsed))
    (bump totalWaitTime (λ total, total + elapsed)%Z
       (d <| d_waiting := dec64 (d_waiting d) |>)).

Definition resume_access (p : PendingRequest) (woken now waitStarted : Z)
    (d : Directory) : LookupResult * Directory :=
  attempt (woken_request p woken) now waitStarted (end_wait p woken d).

(** A reader returns its lease; the last one discards the payload if any
    reader asked for it. *)
Definition finish_hit (i : N) (discardNow : bool) (d : Directory) : Directory :=
  match use_at d i with
  | Some (Ready md readers discard) =>
      let discard := discard || discardNow in
      let d := set_use i (Ready md (dec64 readers) discard) d in
      if negb (dec64 readers =? 0) then d
      else if discard then bump stat_discard inc64 (free_cell i (md_key md) d)
      else make_evictable i d
  | _ => d
  end.

(** A fill is published, discarded or given up. *)
Definition finish_fill (i : N) (succeeded discardNow : bool) (d : Directory) : Directory :=
  match use_at d i with
  | Some (Reserved md) =>
      if succeeded then
        bump stat_fillSucceeded inc64
          (if discardNow then bump stat_discard inc64 (free_cell i (md_key md) d)
           else make_evictable i (make_filled i (set_use i (Ready md 0 false) d)))
      else bump stat_fillFailed inc64 (free_cell i (md_key md) d)
  | _ => d
  end.

Definition finish_fallback (d : Directory) : Directory :=
  d <| d_fallbacks := dec64 (d_fallbacks d) |>.

(** A live lease of the directory: the access says what the directory says
    about the cell it leases, and the cell (or the fallback counter) counts it. *)
Definition holds_lease (d : Directory) (a : GpuDataAccess) : Prop :=
  owner a = d_self d ∧ access_dataBytes a = d_bytes d ∧ deviceId a = d_gpu d ∧
  match accessStatus a with
  | TaskFallback => entryIndex a = NO_ENTRY ∧ d_data a ≠ nullptr ∧ d_fallbacks d ≠ 0
  | CacheHit =>
      ∃ md readers discard,
        vat (d_cells d) (entryIndex a) = Some (mkCell (d_data a) (Ready md readers discard))
        ∧ md_key md = dataKey a ∧ readers ≠ 0
  | CacheFill =>
      ∃ md, vat (d_cells d) (entryIndex a) = Some (mkCell (d_data a) (Reserved md))
        ∧ md_key md = dataKey a
  | Invalid => False
  end.

(** What ending a lease does. *)
Definition end_access (a : GpuDataAccess) (succeeded discardNow : bool) (d : Directory) :
    Directory :=
  match accessStatus a with
  | TaskFallback => finish_fallback d
  | CacheHit => finish_hit (entryIndex a) discardNow d
  | CacheFill => finish_fill (entryIndex a) succeeded discardNow d
  | Invalid => d
  end.

(** Nothing is leased, filling or waiting. *)
Definition can_reset (d : Directory) : bool :=
  (d_fallbacks d =? 0) && (d_waiting d =? 0)
  && forallb (λ cell, match cell_use cell with
       | Free => true | Reserved _ => false | Ready _ readers _ => readers =? 0 end) (d_cells d).

(** Every payload is dropped; cell 0 is the next candidate. *)
Definition drop_payloads (d : Directory) : Directory :=
  d <| d_cells := (λ cell, mkCell (cell_data cell) Free) <$> d_cells d |>
    <| d_lru := [] |> <| d_fifo := [] |> <| d_index := ∅ |>
    <| d_free := N.of_nat <$> reverse (seq 0 (length (d_cells d))) |>.

Definition reset_directory (d : Directory) : Directory :=
  drop_payloads (d <| d_stats := CacheStatistics_default |>).

Definition sync_failure (d : Directory) : Directory :=
  notify ((bump stat_syncFailures inc64 d) <| d_failed := true |>).

(** ** Well-formed directories *)

Record wf (d : Directory) : Prop := {
  wf_size : vsize (d_cells d) < NO_ENTRY;
  wf_policy : d_policy d = LRU ∨ d_policy d = FIFO;
  wf_data i cell : vat (d_cells d) i = Some cell → cell_data cell ≠ nullptr;
  wf_discard i md readers : use_at d i = Some (Ready md readers true) → readers ≠ 0;
  wf_readers i md readers discard :
    use_at d i = Some (Ready md readers discard) → readers < two64;
  wf_lru_NoDup : NoDup (d_lru d);
  wf_lru i : i ∈ d_lru d ↔ ∃ md discard, use_at d i = Some (Ready md 0 discard);
  wf_fifo_NoDup : NoDup (d_fifo d);
  wf_fifo i : i ∈ d_fifo d ↔
    d_policy d = FIFO ∧ ∃ md readers discard, use_at d i = Some (Ready md readers discard);
  wf_free_NoDup : NoDup (d_free d);
  wf_free i : i ∈ d_free d ↔ use_at d i = Some Free;
  wf_index k i : d_index d !! k = Some i ↔
    ∃ u md, use_at d i = Some u ∧ resident_md u = Some md ∧ md_key md = k;
}.

(** ** Refinement *)

(** The table that goes with a directory. *)
Definition table_for `{Platform} (d : Directory) (t : GpuResidencyTable) : Prop :=
  table_rep t (d_index d) ∧ residentLimit t = vsize (d_cells d).

(** The critical section [m], from the layout of [d], returns [x] and leaves
    the layout of [d']. *)
Definition refines `{Platform} {A} (m : M A) (d : Directory) (x : A) (d' : Directory) : Prop :=
  ∀ t, table_for d t → ∃ t', m (concrete d t) = Some (x, concrete d' t') ∧ table_for d' t'.

(** A manager in a well-formed state. *)
Definition represents `{Platform} (c : GpuDataCache) (d : Directory) : Prop :=
  wf d ∧ ∃ t, table_for d t ∧ c = concrete d t.
