(* ===== verification/CacheRefinement.v ===== *)
(** The manager's critical sections implement the operations of the abstract
    cache: every one, started on the layout of a well-formed directory, has
    defined behaviour and ends on the layout of the directory that [CacheSpec]
    specifies. *)
From S2P Require Import Prelude.
From S2P Require Import Platform.
From S2P Require Import GpuDataKey.
From S2P Require Import GpuResidencyTable.
From S2P Require Import GpuDataCacheEntry.
From S2P Require Import IntrusiveList.
From S2P Require Import CacheTypes.
From S2P Require Import GpuDataCache.
From S2P Require Import CacheSpec.
#[local] Open Scope N_scope.

(** Evaluates a computation made of assignments. *)
Ltac run_assigns := cbv [mbind M_bind mret M_ret assign notify_all this_cache count]; simpl.

(** ** Layouts with arbitrary links

    While a list is being relinked the entries do not lay out any list: [laid]
    takes the links and the list ends as they are. *)
Definition laid (d : Directory) (t : GpuResidencyTable) (evictable filled : N → link)
    (lru mru oldest newest : N) : GpuDataCache :=
  mkCache (d_self d) (d_stats d) (d_notified d) (d_waitTimeout d) (d_policy d)
    (d_waiting d) (entries_of (d_gpu d) (d_bytes d) evictable filled (d_cells d))
    [d_gpu d] t (d_free d) lru mru oldest newest (d_bytes d) (d_fallbacks d)
    true false (d_failed d).

Lemma concrete_laid d t :
  concrete d t = laid d t (link_of (d_lru d)) (link_of (d_fifo d))
    (first_of (d_lru d)) (last_of (d_lru d)) (first_of (d_fifo d)) (last_of (d_fifo d)).
Proof. done. Qed.

Lemma vat_entries_of gpu bytes ev fi cells i :
  vat (entries_of gpu bytes ev fi cells) i =
    (λ cell, Some (cell_entry gpu bytes (ev i) (fi i) cell)) <$> vat cells i.
Proof.
  unfold entries_of. rewrite !vat_lookup, list_lookup_imap, N2Nat.id. done.
Qed.

Lemma vsize_entries_of gpu bytes ev fi cells :
  vsize (entries_of gpu bytes ev fi cells) = vsize cells.
Proof. unfold entries_of, vsize. by rewrite length_imap. Qed.

Lemma vsize_entries_concrete d t : vsize (entries (concrete d t)) = vsize (d_cells d).
Proof. apply vsize_entries_of. Qed.

Lemma entries_of_ext gpu bytes ev fi ev' fi' cells :
  (∀ i, i < vsize cells → ev i = ev' i ∧ fi i = fi' i) →
  entries_of gpu bytes ev fi cells = entries_of gpu bytes ev' fi' cells.
Proof.
  intros Heq. apply vat_ext. intros i. rewrite !vat_entries_of.
  destruct (vat cells i) as [cell|] eqn:Hi; [|done]. simpl.
  destruct (Heq i) as [-> ->]; [by eapply vat_lt|done].
Qed.

Lemma laid_ext d t ev fi ev' fi' a b a' b' :
  (∀ i, i < vsize (d_cells d) → ev i = ev' i ∧ fi i = fi' i) →
  laid d t ev fi a b a' b' = laid d t ev' fi' a b a' b'.
Proof. intros Heq. unfold laid. by rewrite (entries_of_ext _ _ ev fi ev' fi'). Qed.

Lemma vset_entries_of gpu bytes ev fi cells i k1 k2 cell :
  i < vsize cells →
  vset (entries_of gpu bytes ev fi cells) i (Some (cell_entry gpu bytes k1 k2 cell)) =
    entries_of gpu bytes (<[i:=k1]> ev) (<[i:=k2]> fi) (vset cells i cell).
Proof.
  intros Hi. apply vat_ext. intros j.
  rewrite vat_entries_of, vat_vset, vat_entries_of, vat_vset, vsize_entries_of.
  destruct (decide (i = j)) as [->|Hne].
  - rewrite !decide_True by done. simpl. by rewrite !fn_lookup_insert.
  - rewrite !decide_False by naive_solver. by rewrite !fn_lookup_insert_ne by done.
Qed.

(** Entries of cells with the links changed only. *)
Lemma cell_entry_links gpu bytes k1 k2 cell :
  cell_entry gpu bytes k1 k2 cell =
    (cell_entry gpu bytes no_link no_link cell)
      <| previousEvictable := link_prev k1 |> <| nextEvictable := link_next k1 |>
      <| inEvictableList := link_in k1 |>
      <| previousFilled := link_prev k2 |> <| nextFilled := link_next k2 |>
      <| inFilledList := link_in k2 |>.
Proof. unfold cell_entry. by destruct (cell_use cell). Qed.

(** Reading the fields of a laid out entry. *)
Section fields.
Context (gpu : Z) (bytes : N) (k1 k2 : link) (cell : Cell).
Let e := cell_entry gpu bytes k1 k2 cell.

Lemma cell_previousEvictable : previousEvictable e = link_prev k1.
Proof. unfold e. by rewrite cell_entry_links. Qed.
Lemma cell_nextEvictable : nextEvictable e = link_next k1.
Proof. unfold e. by rewrite cell_entry_links. Qed.
Lemma cell_inEvictableList : inEvictableList e = link_in k1.
Proof. unfold e. by rewrite cell_entry_links. Qed.
Lemma cell_previousFilled : previousFilled e = link_prev k2.
Proof. unfold e. by rewrite cell_entry_links. Qed.
Lemma cell_nextFilled : nextFilled e = link_next k2.
Proof. unfold e. by rewrite cell_entry_links. Qed.
Lemma cell_inFilledList : inFilledList e = link_in k2.
Proof. unfold e. by rewrite cell_entry_links. Qed.
Lemma cell_dataForGpu : dataForGpu e gpu = cell_data cell.
Proof.
  unfold e, cell_entry, dataForGpu. destruct (cell_use cell); simpl; by rewrite Z.eqb_refl.
Qed.
End fields.

Create Rewrite HintDb cell_entry.
#[export] Hint Rewrite cell_previousEvictable cell_nextEvictable cell_inEvictableList
  cell_previousFilled cell_nextFilled cell_inFilledList cell_dataForGpu : cell_entry.

Section runs.
Context `{Platform}.

(** ** Running the manager's computations *)

Lemma bind_Some {A B} (m : M A) (f : A → M B) c x c' :
  m c = Some (x, c') → (x ← m; f x) c = f x c'.
Proof. intros Hm. unfold mbind, M_bind. by rewrite Hm. Qed.

Lemma entry_at_laid d t ev fi a b a' b' i :
  entry_at (laid d t ev fi a b a' b') i =
    (λ cell, cell_entry (d_gpu d) (d_bytes d) (ev i) (fi i) cell) <$> vat (d_cells d) i.
Proof. unfold entry_at. simpl. rewrite vat_entries_of. by destruct (vat (d_cells d) i). Qed.

Lemma entry_deref_run c i e : entry_at c i = Some e → entry_deref i c = Some (e, c).
Proof.
  intros He. unfold entry_deref, this_cache, mbind, M_bind, defined. by rewrite He.
Qed.

Lemma entry_assign_run c i e f :
  entry_at c i = Some e →
  entry_assign i f c = Some ((), c <| entries := vset (entries c) i (Some (f e)) |>).
Proof.
  intros He. unfold entry_assign. rewrite (bind_Some _ _ _ _ _ (entry_deref_run _ _ _ He)).
  done.
Qed.

Lemma entry_assign_laid d t ev fi a b a' b' i f cell cell' k1 k2 :
  vat (d_cells d) i = Some cell →
  f (cell_entry (d_gpu d) (d_bytes d) (ev i) (fi i) cell) =
    cell_entry (d_gpu d) (d_bytes d) k1 k2 cell' →
  entry_assign i f (laid d t ev fi a b a' b') =
    Some ((), laid (d <| d_cells := vset (d_cells d) i cell' |>) t
                (<[i:=k1]> ev) (<[i:=k2]> fi) a b a' b').
Proof.
  intros Hcell Hf. erewrite entry_assign_run by (by rewrite entry_at_laid, Hcell).
  rewrite Hf. do 2 f_equal. unfold laid. simpl.
  by rewrite vset_entries_of by (by eapply vat_lt).
Qed.

Lemma vset_id {A} (l : list A) i x : vat l i = Some x → vset l i x = l.
Proof.
  intros Hi. apply vat_ext. intros j. rewrite vat_vset.
  case_decide as Hd; [destruct Hd as [<- _]|]; done.
Qed.

Lemma laid_cells_id d t ev fi a b a' b' i cell :
  vat (d_cells d) i = Some cell →
  laid (d <| d_cells := vset (d_cells d) i cell |>) t ev fi a b a' b'
  = laid d t ev fi a b a' b'.
Proof. intros Hi. unfold laid. simpl. by rewrite vset_id. Qed.

(** Assignments to the links of an entry. *)
Lemma entry_assign_links d t ev fi a b a' b' i f cell k1 k2 :
  vat (d_cells d) i = Some cell →
  f (cell_entry (d_gpu d) (d_bytes d) (ev i) (fi i) cell) =
    cell_entry (d_gpu d) (d_bytes d) k1 k2 cell →
  entry_assign i f (laid d t ev fi a b a' b') =
    Some ((), laid d t (<[i:=k1]> ev) (<[i:=k2]> fi) a b a' b').
Proof.
  intros Hcell Hf. erewrite entry_assign_laid by done. by rewrite laid_cells_id.
Qed.

(** Assignments to the eviction links, or to the fill links, of an entry. *)
Lemma entry_assign_evictable d t ev fi a b a' b' i f cell k :
  vat (d_cells d) i = Some cell →
  f (cell_entry (d_gpu d) (d_bytes d) (ev i) (fi i) cell) =
    cell_entry (d_gpu d) (d_bytes d) k (fi i) cell →
  entry_assign i f (laid d t ev fi a b a' b') =
    Some ((), laid d t (<[i:=k]> ev) fi a b a' b').
Proof.
  intros Hcell Hf. erewrite entry_assign_links by done. do 2 f_equal.
  apply laid_ext. auto using fn_insert_same.
Qed.

Lemma entry_assign_filled d t ev fi a b a' b' i f cell k :
  vat (d_cells d) i = Some cell →
  f (cell_entry (d_gpu d) (d_bytes d) (ev i) (fi i) cell) =
    cell_entry (d_gpu d) (d_bytes d) (ev i) k cell →
  entry_assign i f (laid d t ev fi a b a' b') =
    Some ((), laid d t ev (<[i:=k]> fi) a b a' b').
Proof.
  intros Hcell Hf. erewrite entry_assign_links by done. do 2 f_equal.
  apply laid_ext. auto using fn_insert_same.
Qed.

(** The successor of [p], or the first element if there is no [p], becomes [n];
    and the same for predecessors and the last element. *)
Definition relinked (field : (N → N) → link → link) (p n : N) (links : N → link) : N → link :=
  if p =? NO_ENTRY then links else <[p := field (λ _, n) (links p)]> links.

Lemma relinked_ne field p n links i : i ≠ p → relinked field p n links i = links i.
Proof. intros. unfold relinked. case_match; [done|]. by rewrite fn_lookup_insert_ne. Qed.

Lemma relink_next_evictable d t ev fi a b a' b' p n :
  (p ≠ NO_ENTRY → is_Some (vat (d_cells d) p)) →
  (if negb (p =? NO_ENTRY) then entry_assign p (λ e, e <| nextEvictable := n |>)
   else assign (λ c, c <| leastRecentlyUsed := n |>)) (laid d t ev fi a b a' b') =
  Some ((), laid d t (relinked set_link_next p n ev) fi (if p =? NO_ENTRY then n else a)
              b a' b').
Proof.
  intros Hp. unfold relinked. destruct (N.eqb_spec p NO_ENTRY); [done|].
  destruct Hp as [cell Hcell]; [done|]. eapply entry_assign_evictable; [done|].
  unfold cell_entry. by destruct (cell_use cell).
Qed.

Lemma relink_prev_evictable d t ev fi a b a' b' p n :
  (p ≠ NO_ENTRY → is_Some (vat (d_cells d) p)) →
  (if negb (p =? NO_ENTRY) then entry_assign p (λ e, e <| previousEvictable := n |>)
   else assign (λ c, c <| mostRecentlyUsed := n |>)) (laid d t ev fi a b a' b') =
  Some ((), laid d t (relinked set_link_prev p n ev) fi a (if p =? NO_ENTRY then n else b)
              a' b').
Proof.
  intros Hp. unfold relinked. destruct (N.eqb_spec p NO_ENTRY); [done|].
  destruct Hp as [cell Hcell]; [done|]. eapply entry_assign_evictable; [done|].
  unfold cell_entry. by destruct (cell_use cell).
Qed.

Lemma relink_next_filled d t ev fi a b a' b' p n :
  (p ≠ NO_ENTRY → is_Some (vat (d_cells d) p)) →
  (if negb (p =? NO_ENTRY) then entry_assign p (λ e, e <| nextFilled := n |>)
   else assign (λ c, c <| oldestFilled := n |>)) (laid d t ev fi a b a' b') =
  Some ((), laid d t ev (relinked set_link_next p n fi) a b (if p =? NO_ENTRY then n else a')
              b').
Proof.
  intros Hp. unfold relinked. destruct (N.eqb_spec p NO_ENTRY); [done|].
  destruct Hp as [cell Hcell]; [done|]. eapply entry_assign_filled; [done|].
  unfold cell_entry. by destruct (cell_use cell).
Qed.

Lemma relink_prev_filled d t ev fi a b a' b' p n :
  (p ≠ NO_ENTRY → is_Some (vat (d_cells d) p)) →
  (if negb (p =? NO_ENTRY) then entry_assign p (λ e, e <| previousFilled := n |>)
   else assign (λ c, c <| newestFilled := n |>)) (laid d t ev fi a b a' b') =
  Some ((), laid d t ev (relinked set_link_prev p n fi) a b a'
              (if p =? NO_ENTRY then n else b')).
Proof.
  intros Hp. unfold relinked. destruct (N.eqb_spec p NO_ENTRY); [done|].
  destruct Hp as [cell Hcell]; [done|]. eapply entry_assign_filled; [done|].
  unfold cell_entry. by destruct (cell_use cell).
Qed.

End runs.

(** ** Refinement, compositionally *)
Section refinement.
Context `{Platform}.
Implicit Types (d : Directory) (i : N).

Lemma refines_ret {A} (x : A) d : refines (mret x) d x d.
Proof. intros t Ht. by exists t. Qed.

Lemma refines_bind {A B} (m : M A) (f : A → M B) d x d1 y d2 :
  refines m d x d1 → refines (f x) d1 y d2 → refines (x ← m; f x) d y d2.
Proof.
  intros Hm Hf t Ht. destruct (Hm t Ht) as (t1 & Hrun & Ht1).
  rewrite (bind_Some _ _ _ _ _ Hrun). by apply Hf.
Qed.

(** A computation that first reads the manager. *)
Lemma refines_this {B} (f : GpuDataCache → M B) d y d' :
  (∀ t, table_for d t → refines (f (concrete d t)) d y d') →
  refines (c ← this_cache; f c) d y d'.
Proof. intros Hf t Ht. by apply Hf. Qed.

Lemma refines_assign f d d' :
  (∀ t, f (concrete d t) = concrete d' t) → (∀ t, table_for d t → table_for d' t) →
  refines (assign f) d () d'.
Proof. intros Hf Ht t ?. exists t. unfold assign. rewrite Hf. auto. Qed.

Lemma refines_count {T} (counter : CacheStatistics → T) `{!Setter counter} f d :
  refines (count counter f) d () (bump counter f d).
Proof. by apply refines_assign. Qed.

Lemma refines_notify d : refines notify_all d () (notify d).
Proof. by apply refines_assign. Qed.

Definition links_at d i : link * link := (link_of (d_lru d) i, link_of (d_fifo d) i).

Lemma entry_at_concrete d t i :
  entry_at (concrete d t) i =
    (λ cell, cell_entry (d_gpu d) (d_bytes d) (link_of (d_lru d) i) (link_of (d_fifo d) i)
               cell) <$> vat (d_cells d) i.
Proof. rewrite concrete_laid. apply entry_at_laid. Qed.

Lemma refines_deref {B} i (f : GpuDataCacheEntry → M B) d cell y d' :
  vat (d_cells d) i = Some cell →
  refines (f (cell_entry (d_gpu d) (d_bytes d) (link_of (d_lru d) i)
                (link_of (d_fifo d) i) cell)) d y d' →
  refines (e ← entry_deref i; f e) d y d'.
Proof.
  intros Hcell Hf t Ht. erewrite bind_Some; [by apply Hf|].
  apply entry_deref_run. by rewrite entry_at_concrete, Hcell.
Qed.

(** An assignment that changes the use of a cell. *)
Lemma refines_entry_assign i f d cell u :
  vat (d_cells d) i = Some cell →
  f (cell_entry (d_gpu d) (d_bytes d) (link_of (d_lru d) i) (link_of (d_fifo d) i) cell) =
    cell_entry (d_gpu d) (d_bytes d) (link_of (d_lru d) i) (link_of (d_fifo d) i)
      (mkCell (cell_data cell) u) →
  refines (entry_assign i f) d () (set_use i u d).
Proof.
  intros Hcell Hf t [Ht Hlim]. exists t. rewrite concrete_laid.
  erewrite entry_assign_laid by done. unfold set_use. rewrite Hcell. split.
  - do 2 f_equal. apply (laid_ext (d <| d_cells := _ |>)). intros j _.
    by destruct (decide (j = i)) as [->|]; rewrite ?fn_lookup_insert, ?fn_lookup_insert_ne.
  - split; [done|]. simpl. by rewrite vsize_vset.
Qed.

End refinement.

(** ** The intrusive lists *)
Section lists.
Context `{Platform}.
Implicit Types (d : Directory) (i : N) (l : list N).

(** A list of cells, each once. *)
Record cell_list (n : N) l : Prop := {
  list_NoDup : NoDup l;
  list_range i : i ∈ l → i < n;
  list_null : n < NO_ENTRY;
}.

Lemma cell_list_null n l : cell_list n l → NO_ENTRY ∉ l.
Proof. intros [_ Hr Hn] Hin. specialize (Hr _ Hin). lia. Qed.

Lemma cell_list_cell d l i : cell_list (vsize (d_cells d)) l → i ∈ l → ∃ cell, vat (d_cells d) i = Some cell.
Proof. intros Hl Hi. apply vat_exists. by eapply list_range. Qed.

Lemma cell_list_last d l :
  cell_list (vsize (d_cells d)) l → last_of l ≠ NO_ENTRY → is_Some (vat (d_cells d) (last_of l)).
Proof.
  intros Hl Hlast. eapply cell_list_cell; [done|]. apply last_of_in.
  intros ->. by apply Hlast.
Qed.

Lemma cell_list_prev d l i :
  cell_list (vsize (d_cells d)) l → i ∈ l → link_prev (link_of l i) ≠ NO_ENTRY →
  is_Some (vat (d_cells d) (link_prev (link_of l i))).
Proof.
  intros Hl Hi Hne. eapply cell_list_cell; [done|].
  pose proof (link_prev_in NO_ENTRY l i Hi) as [?|?]%elem_of_cons; done.
Qed.

Lemma cell_list_next d l i :
  cell_list (vsize (d_cells d)) l → i ∈ l → link_next (link_of l i) ≠ NO_ENTRY →
  is_Some (vat (d_cells d) (link_next (link_of l i))).
Proof.
  intros Hl Hi Hne. eapply cell_list_cell; [done|].
  destruct (link_next_in NO_ENTRY l i Hi); done.
Qed.

(** The first element after an append, as the code computes it. *)
Lemma first_of_snoc_code n l i :
  cell_list n l → first_of (l ++ [i]) = if last_of l =? NO_ENTRY then i else first_of l.
Proof.
  intros Hl%cell_list_null. rewrite first_of_snoc.
  destruct (N.eqb_spec (last_of l) NO_ENTRY) as [Heq|Hne].
  - apply last_of_None in Heq; [|done]. by rewrite decide_True.
  - rewrite decide_False; [done|]. by intros ->.
Qed.

Lemma link_of_in l i : i ∈ l → link_in (link_of l i) = true.
Proof. by intros ?%(link_from_in NO_ENTRY). Qed.

Lemma link_of_not_in l i : i ∉ l → link_of l i = no_link.
Proof. apply link_from_not_in. Qed.

Lemma first_of_unlink_of n l i :
  cell_list n l → i ∈ l →
  first_of (unlink i l) =
    if link_prev (link_of l i) =? NO_ENTRY then link_next (link_of l i) else first_of l.
Proof.
  intros Hl Hi. rewrite (first_of_unlink NO_ENTRY) by (try done; eauto using cell_list_null; apply Hl).
  unfold link_of. by case_decide as Hd; destruct (N.eqb_spec (link_prev (link_from NO_ENTRY l i)) NO_ENTRY).
Qed.

Lemma last_of_unlink_of n l i :
  cell_list n l → i ∈ l →
  last_of (unlink i l) =
    if link_next (link_of l i) =? NO_ENTRY then link_prev (link_of l i) else last_of l.
Proof.
  intros Hl Hi. unfold last_of at 1.
  rewrite (last_of_unlink NO_ENTRY) by (try done; eauto using cell_list_null; apply Hl).
  unfold link_of. by case_decide as Hd; destruct (N.eqb_spec (link_next (link_from NO_ENTRY l i)) NO_ENTRY).
Qed.

Lemma addEvictableEntry_refines d i md discard :
  cell_list (vsize (d_cells d)) (d_lru d) → i ∉ d_lru d → use_at d i = Some (Ready md 0 discard) →
  refines (addEvictableEntry i) d true (make_evictable i d).
Proof.
  intros Hl Hi Huse t Ht. exists t. split; [|done]. pose proof (cell_list_null _ _ Hl) as Hno.
  unfold use_at in Huse. destruct (vat (d_cells d) i) as [[p u]|] eqn:Hcell; simplify_eq/=.
  unfold addEvictableEntry. rewrite (bind_Some this_cache _ _ _ _ eq_refl).
  rewrite entry_at_concrete, Hcell. cbn [fmap option_fmap option_map].
  rewrite (link_of_not_in _ i Hi). simpl. rewrite concrete_laid.
  erewrite bind_Some by (by apply (entry_assign_evictable _ _ _ _ _ _ _ _ _ _ _
    (mkLink (last_of (d_lru d)) NO_ENTRY true) Hcell)).
  erewrite bind_Some by (apply relink_next_evictable; eauto using cell_list_last).
  run_assigns. unfold concrete, laid. simpl. do 2 f_equal. f_equal.
  - apply entries_of_ext. intros j _. split; [|done].
    apply append_links_of; [apply Hl|done..].
  - symmetry. by eapply first_of_snoc_code.
  - by rewrite last_of_snoc.
Qed.

Lemma removeEvictableEntry_refines d i :
  cell_list (vsize (d_cells d)) (d_lru d) → i ∈ d_lru d →
  refines (removeEvictableEntry i) d true (d <| d_lru := unlink i (d_lru d) |>).
Proof.
  intros Hl Hi t Ht. exists t. split; [|done]. pose proof (cell_list_null _ _ Hl) as Hno.
  destruct (cell_list_cell _ _ _ Hl Hi) as [cell Hcell].
  destruct (link_neighbours NO_ENTRY (d_lru d) i) as (Hpi & _ & _); [apply Hl|done..|].
  fold (link_of (d_lru d) i) in Hpi.
  unfold removeEvictableEntry. rewrite (bind_Some this_cache _ _ _ _ eq_refl).
  rewrite entry_at_concrete, Hcell. cbn [fmap option_fmap option_map].
  autorewrite with cell_entry. rewrite link_of_in by done. cbn [negb].
  rewrite concrete_laid.
  erewrite bind_Some by (apply relink_next_evictable; eauto using cell_list_prev).
  erewrite bind_Some by (apply entry_deref_run; by rewrite entry_at_laid, Hcell).
  autorewrite with cell_entry. rewrite relinked_ne by done.
  erewrite bind_Some by (apply relink_prev_evictable; eauto using cell_list_next).
  erewrite bind_Some by (by apply (entry_assign_evictable _ _ _ _ _ _ _ _ _ _ _ no_link Hcell);
    unfold cell_entry; destruct (cell_use cell)).
  unfold mret, M_ret, concrete, laid. simpl. do 2 f_equal. f_equal.
  - apply entries_of_ext. intros j _. split; [|done].
    apply (remove_links_of (d_lru d) i j); [apply Hl|done..].
  - symmetry. by eapply first_of_unlink_of.
  - symmetry. by eapply last_of_unlink_of.
Qed.

Lemma addFilledEntry_refines d i md discard :
  cell_list (vsize (d_cells d)) (d_fifo d) → i ∉ d_fifo d → use_at d i = Some (Ready md 0 discard) →
  refines (addFilledEntry i) d true (make_filled i d).
Proof.
  intros Hl Hi Huse t Ht. exists t. split; [|by unfold make_filled; case_match]. pose proof (cell_list_null _ _ Hl) as Hno.
  unfold use_at in Huse. destruct (vat (d_cells d) i) as [[p u]|] eqn:Hcell; simplify_eq/=.
  unfold addFilledEntry. rewrite (bind_Some this_cache _ _ _ _ eq_refl).
  unfold make_filled. simpl. destruct (policy_eqb (d_policy d) FIFO); [|done]. simpl.
  rewrite entry_at_concrete, Hcell. cbn [fmap option_fmap option_map].
  rewrite (link_of_not_in _ i Hi). simpl. rewrite concrete_laid.
  erewrite bind_Some by (by apply (entry_assign_filled _ _ _ _ _ _ _ _ _ _ _
    (mkLink (last_of (d_fifo d)) NO_ENTRY true) Hcell)).
  erewrite bind_Some by (apply relink_next_filled; eauto using cell_list_last).
  run_assigns. unfold concrete, laid. simpl. do 2 f_equal. f_equal.
  - apply entries_of_ext. intros j _. split; [done|].
    apply append_links_of; [apply Hl|done..].
  - symmetry. by eapply first_of_snoc_code.
  - by rewrite last_of_snoc.
Qed.

Lemma removeFilledEntry_refines d i :
  cell_list (vsize (d_cells d)) (d_fifo d) → i ∈ d_fifo d →
  refines (removeFilledEntry i) d true (d <| d_fifo := unlink i (d_fifo d) |>).
Proof.
  intros Hl Hi t Ht. exists t. split; [|done]. pose proof (cell_list_null _ _ Hl) as Hno.
  destruct (cell_list_cell _ _ _ Hl Hi) as [cell Hcell].
  destruct (link_neighbours NO_ENTRY (d_fifo d) i) as (Hpi & _ & _); [apply Hl|done..|].
  fold (link_of (d_fifo d) i) in Hpi.
  unfold removeFilledEntry. rewrite (bind_Some this_cache _ _ _ _ eq_refl).
  rewrite entry_at_concrete, Hcell. cbn [fmap option_fmap option_map].
  autorewrite with cell_entry. rewrite link_of_in by done. cbn [negb].
  rewrite concrete_laid.
  erewrite bind_Some by (apply relink_next_filled; eauto using cell_list_prev).
  erewrite bind_Some by (apply entry_deref_run; by rewrite entry_at_laid, Hcell).
  autorewrite with cell_entry. rewrite relinked_ne by done.
  erewrite bind_Some by (apply relink_prev_filled; eauto using cell_list_next).
  erewrite bind_Some by (by apply (entry_assign_filled _ _ _ _ _ _ _ _ _ _ _ no_link Hcell);
    unfold cell_entry; destruct (cell_use cell)).
  unfold mret, M_ret, concrete, laid. simpl. do 2 f_equal. f_equal.
  - apply entries_of_ext. intros j _. split; [done|].
    apply (remove_links_of (d_fifo d) i j); [apply Hl|done..].
  - symmetry. by eapply first_of_unlink_of.
  - symmetry. by eapply last_of_unlink_of.
Qed.

End lists.
