(* ===== verification/CacheCriticalSections.v ===== *)
(** The critical sections of the manager, one by one: each refines the
    operation [CacheSpec] gives for it and keeps the directory well formed. *)
From S2P Require Import Prelude.
From S2P Require Import Platform.
From S2P Require Import GpuDataKey.
From S2P Require Import GpuResidencyTable.
From S2P Require Import GpuDataCacheEntry.
From S2P Require Import IntrusiveList.
From S2P Require Import CacheTypes.
From S2P Require Import GpuDataCache.
From S2P Require Import CacheSpec.
From S2P Require Import CacheRefinement.
#[local] Open Scope N_scope.

(** ** Well-formedness after a change of one cell *)
Section well_formed.
Implicit Types (d : Directory) (i j : N) (u : usage).

Lemma use_at_Some d i u :
  use_at d i = Some u → ∃ p, vat (d_cells d) i = Some (mkCell p u).
Proof.
  unfold use_at. destruct (vat (d_cells d) i) as [[p u']|]; simpl; [|done].
  intros [= ->]. by exists p.
Qed.

Lemma set_use_cells d i p u u' :
  vat (d_cells d) i = Some (mkCell p u) →
  set_use i u' d = d <| d_cells := vset (d_cells d) i (mkCell p u') |>.
Proof. unfold set_use. by intros ->. Qed.

(** [d'] differs from [d] in the use of cell [i], and its lists and index say
    so for that cell and what they said for the others. *)
Record changes_cell d d' i u : Prop := {
  change_cells : d_cells d' = d_cells (set_use i u d);
  change_policy : d_policy d' = d_policy d;
  change_use : match u with
               | Ready _ readers discard =>
                   readers < two64 ∧ (discard = true → readers ≠ 0)
               | _ => True
               end;
  change_lru_NoDup : NoDup (d_lru d');
  change_lru j : j ≠ i → j ∈ d_lru d' ↔ j ∈ d_lru d;
  change_lru_self : i ∈ d_lru d' ↔ ∃ md discard, u = Ready md 0 discard;
  change_fifo_NoDup : NoDup (d_fifo d');
  change_fifo j : j ≠ i → j ∈ d_fifo d' ↔ j ∈ d_fifo d;
  change_fifo_self : i ∈ d_fifo d' ↔
    d_policy d = FIFO ∧ ∃ md readers discard, u = Ready md readers discard;
  change_free_NoDup : NoDup (d_free d');
  change_free j : j ≠ i → j ∈ d_free d' ↔ j ∈ d_free d;
  change_free_self : i ∈ d_free d' ↔ u = Free;
  change_index k j : j ≠ i → d_index d' !! k = Some j ↔ d_index d !! k = Some j;
  change_index_self k : d_index d' !! k = Some i ↔
    ∃ md, resident_md u = Some md ∧ md_key md = k;
}.

Lemma changes_cell_wf d d' i u u' :
  wf d → use_at d i = Some u → changes_cell d d' i u' → wf d'.
Proof.
  intros Hwf Hu Hch. destruct (use_at_Some _ _ _ Hu) as [p Hp].
  pose proof (change_cells _ _ _ _ Hch) as Hcells.
  rewrite (set_use_cells _ _ _ _ _ Hp) in Hcells. simpl in Hcells.
  pose proof (vat_lt _ _ _ Hp) as Hlt.
  assert (∀ j, use_at d' j = if decide (i = j) then Some u' else use_at d j) as Huse.
  { intros j. unfold use_at. rewrite Hcells, vat_vset.
    destruct (decide (i = j)) as [->|]; [by rewrite decide_True|].
    by rewrite decide_False by naive_solver. }
  pose proof (change_use _ _ _ _ Hch) as Hself.
  split.
  - rewrite Hcells, vsize_vset. apply Hwf.
  - rewrite (change_policy _ _ _ _ Hch). apply Hwf.
  - intros j cell. rewrite Hcells, vat_vset. case_decide as Hd.
    + destruct Hd as [<- _]. intros [= <-]. by apply (wf_data _ Hwf i (mkCell p u)).
    + apply Hwf.
  - intros j md readers. rewrite Huse. case_decide; [|apply (wf_discard _ Hwf)].
    intros [= ->]. by apply Hself.
  - intros j md readers discard. rewrite Huse. case_decide; [|apply (wf_readers _ Hwf)].
    intros [= ->]. by apply Hself.
  - apply Hch.
  - intros j. rewrite Huse. case_decide; [subst j; rewrite (change_lru_self _ _ _ _ Hch)|];
      [naive_solver|]. rewrite (change_lru _ _ _ _ Hch) by done. apply Hwf.
  - apply Hch.
  - intros j. rewrite Huse, (change_policy _ _ _ _ Hch).
    case_decide; [subst j; rewrite (change_fifo_self _ _ _ _ Hch)|]; [naive_solver|].
    rewrite (change_fifo _ _ _ _ Hch) by done. apply Hwf.
  - apply Hch.
  - intros j. rewrite Huse. case_decide; [subst j; rewrite (change_free_self _ _ _ _ Hch)|];
      [naive_solver|]. rewrite (change_free _ _ _ _ Hch) by done. apply Hwf.
  - intros k j. rewrite Huse.
    case_decide; [subst j; rewrite (change_index_self _ _ _ _ Hch)|]; [naive_solver|].
    rewrite (change_index _ _ _ _ Hch) by done. apply Hwf.
Qed.

(** The parts of a directory that [wf] does not read. *)
Lemma wf_same d d' :
  wf d → d_cells d' = d_cells d → d_policy d' = d_policy d → d_lru d' = d_lru d →
  d_fifo d' = d_fifo d → d_free d' = d_free d → d_index d' = d_index d → wf d'.
Proof.
  intros [] Hc Hp Hl Hf Hr Hi. split; unfold use_at in *; rewrite ?Hc, ?Hp, ?Hl, ?Hf, ?Hr, ?Hi;
    done.
Qed.

Lemma wf_lru_list d : wf d → cell_list (vsize (d_cells d)) (d_lru d).
Proof.
  intros Hwf. split; [apply Hwf| |apply Hwf]. intros i (md & disc & Hu)%(wf_lru _ Hwf).
  destruct (use_at_Some _ _ _ Hu) as [p Hp]. by eapply vat_lt.
Qed.

Lemma wf_fifo_list d : wf d → cell_list (vsize (d_cells d)) (d_fifo d).
Proof.
  intros Hwf. split; [apply Hwf| |apply Hwf]. intros i (_ & md & r & disc & Hu)%(wf_fifo _ Hwf).
  destruct (use_at_Some _ _ _ Hu) as [p Hp]. by eapply vat_lt.
Qed.

Lemma cell_list_unlink n l i : cell_list n l → cell_list n (unlink i l).
Proof.
  intros [Hnd Hr Hn]. split; [by apply NoDup_unlink| |done].
  intros j [_ Hj]%elem_of_unlink. by apply Hr.
Qed.

(** Two cells never hold the same key. *)
Lemma wf_key_unique d i j u u' md md' :
  wf d → use_at d i = Some u → resident_md u = Some md →
  use_at d j = Some u' → resident_md u' = Some md' → md_key md = md_key md' → i = j.
Proof.
  intros Hwf Hi Hmd Hj Hmd' Hkey.
  assert (d_index d !! md_key md = Some i) by (apply (wf_index _ Hwf); eauto).
  assert (d_index d !! md_key md = Some j) by (rewrite Hkey; apply (wf_index _ Hwf); eauto).
  congruence.
Qed.

End well_formed.

(** ** Counting resident keys *)

(** A map with distinct values below [n], none of them [i], has fewer than [n]
    keys. *)
Lemma map_size_lt (m : gmap GpuDataKey N) (n i : N) :
  i < n → (∀ k j, m !! k = Some j → j < n ∧ j ≠ i) →
  (∀ k k' j, m !! k = Some j → m !! k' = Some j → k = k') →
  N.of_nat (size m) < n.
Proof.
  intros Hi Hrange Hinj.
  set (vs := snd <$> map_to_list m).
  assert (NoDup (i :: vs)) as Hnd.
  { apply NoDup_cons. split.
    - intros ([k j] & -> & Hkj%elem_of_map_to_list)%list_elem_of_fmap. by destruct (Hrange _ _ Hkj).
    - apply NoDup_fmap_2_strong, NoDup_map_to_list. intros [k j] [k' j'] Hk Hk' Heq.
      simpl in Heq. subst j'. apply elem_of_map_to_list in Hk, Hk'. f_equal. eauto. }
  assert (i :: vs ⊆ N.of_nat <$> seq 0 (N.to_nat n)) as Hsub.
  { intros j Hj. apply list_elem_of_fmap. exists (N.to_nat j). split; [lia|].
    apply elem_of_seq. apply elem_of_cons in Hj as [->|Hj]; [lia|].
    apply list_elem_of_fmap in Hj as ([k j'] & -> & Hkj%elem_of_map_to_list).
    destruct (Hrange _ _ Hkj). simpl. lia. }
  apply NoDup_submseteq in Hsub; [|done]. apply submseteq_length in Hsub.
  rewrite length_fmap, length_seq in Hsub. subst vs. simpl in Hsub.
  rewrite length_fmap in Hsub. rewrite length_map_to_list in Hsub. lia.
Qed.

(** ** The residency table in the manager *)
Section critical_sections.
Context `{Platform}.
Implicit Types (d : Directory) (i j : N) (u : usage).

Lemma residency_find_refines d k : refines (residency_find k) d (d_index d !! k) d.
Proof.
  intros t [Hrep Hlim]. exists t. split; [|done].
  unfold residency_find. rewrite (bind_Some this_cache _ _ _ _ eq_refl). simpl.
  by rewrite (table_find_spec _ _ _ Hrep).
Qed.

Lemma residency_insert_refines d k i :
  d_index d !! k = None → N.of_nat (size (d_index d)) < vsize (d_cells d) →
  refines (residency_insert k i) d true (d <| d_index := <[k := i]> (d_index d) |>).
Proof.
  intros Hk Hsize t [Hrep Hlim]. pose proof (table_insert_spec t _ k i Hrep) as Hins.
  rewrite decide_True in Hins by (split; [done|lia]).
  destruct Hins as (t' & Hrun & Hrep' & _ & Hlim'). exists t'.
  unfold residency_insert. rewrite (bind_Some this_cache _ _ _ _ eq_refl). simpl.
  rewrite Hrun. split; [done|]. split; [done|]. simpl. congruence.
Qed.

Lemma residency_erase_refines d k i :
  d_index d !! k = Some i →
  refines (residency_erase k i) d true (d <| d_index := delete k (d_index d) |>).
Proof.
  intros Hk t [Hrep Hlim]. pose proof (table_erase_spec t _ k i Hrep) as Hers.
  rewrite decide_True in Hers by done.
  destruct Hers as (t' & Hrun & Hrep' & _ & Hlim'). exists t'.
  unfold residency_erase. rewrite (bind_Some this_cache _ _ _ _ eq_refl). simpl.
  rewrite Hrun. split; [done|]. split; [done|]. simpl. congruence.
Qed.

(** ** Freeing a cell *)

(** The guarded removals of [resetEntry]. *)
Lemma drop_evictable_refines d i cell :
  cell_list (vsize (d_cells d)) (d_lru d) → vat (d_cells d) i = Some cell →
  ∃ b, refines (if inEvictableList (cell_entry (d_gpu d) (d_bytes d)
                  (link_of (d_lru d) i) (link_of (d_fifo d) i) cell)
                then removeEvictableEntry i else mret false) d b
         (d <| d_lru := unlink i (d_lru d) |>).
Proof.
  intros Hl Hcell. rewrite cell_inEvictableList. destruct (decide (i ∈ d_lru d)) as [Hi|Hi].
  - rewrite link_of_in by done. exists true. by apply removeEvictableEntry_refines.
  - rewrite link_of_not_in by done. exists false. simpl. rewrite unlink_not_in by done.
    destruct d. apply refines_ret.
Qed.

Lemma drop_filled_refines d i cell :
  cell_list (vsize (d_cells d)) (d_fifo d) → vat (d_cells d) i = Some cell →
  ∃ b, refines (if inFilledList (cell_entry (d_gpu d) (d_bytes d)
                  (link_of (d_lru d) i) (link_of (d_fifo d) i) cell)
                then removeFilledEntry i else mret false) d b
         (d <| d_fifo := unlink i (d_fifo d) |>).
Proof.
  intros Hl Hcell. rewrite cell_inFilledList. destruct (decide (i ∈ d_fifo d)) as [Hi|Hi].
  - rewrite link_of_in by done. exists true. by apply removeFilledEntry_refines.
  - rewrite link_of_not_in by done. exists false. simpl. rewrite unlink_not_in by done.
    destruct d. apply refines_ret.
Qed.

Lemma cell_metadata gpu bytes k1 k2 cell md :
  resident_md (cell_use cell) = Some md → metadata (cell_entry gpu bytes k1 k2 cell) = md.
Proof. unfold cell_entry. destruct (cell_use cell); simpl; congruence. Qed.

Lemma clearEntry_cell gpu bytes k1 k2 cell :
  clearEntry (cell_entry gpu bytes k1 k2 cell) =
    cell_entry gpu bytes no_link no_link (mkCell (cell_data cell) Free).
Proof. unfold cell_entry, clearEntry, invalidateReplicas. by destruct (cell_use cell). Qed.

Lemma resetEntry_refines d i u md :
  cell_list (vsize (d_cells d)) (d_lru d) → cell_list (vsize (d_cells d)) (d_fifo d) →
  use_at d i = Some u → resident_md u = Some md → d_index d !! md_key md = Some i →
  refines (resetEntry i) d () (free_cell i (md_key md) d).
Proof.
  intros Hl Hf Hu Hmd Hidx. destruct (use_at_Some _ _ _ Hu) as [p Hp]. unfold resetEntry.
  eapply refines_deref; [done|].
  destruct (drop_evictable_refines d i _ Hl Hp) as [b Hdrop].
  eapply refines_bind; [apply Hdrop|]. clear b Hdrop.
  set (d1 := d <| d_lru := unlink i (d_lru d) |>).
  eapply (refines_deref _ _ d1); [done|].
  destruct (drop_filled_refines d1 i _ Hf Hp) as [b Hdrop].
  eapply refines_bind; [apply Hdrop|]. clear b Hdrop.
  set (d2 := d1 <| d_fifo := unlink i (d_fifo d1) |>).
  eapply (refines_deref _ _ d2); [done|]. rewrite (cell_metadata _ _ _ _ _ md) by done.
  eapply refines_bind; [by apply residency_erase_refines|].
  set (d3 := d2 <| d_index := delete (md_key md) (d_index d2) |>).
  eapply refines_bind.
  { eapply (refines_entry_assign _ _ d3); [done|]. rewrite clearEntry_cell.
    rewrite !link_of_not_in by apply not_elem_of_unlink. done. }
  unfold free_cell. rewrite !(set_use_cells _ i p u Free) by done.
  eapply refines_bind; [|apply refines_notify]. by apply refines_assign.
Qed.

(** ** Choosing a cell for a fill *)

Lemma cell_list_length n (l : list N) : cell_list n l → N.of_nat (length l) ≤ n.
Proof.
  intros Hl. assert (l ⊆ N.of_nat <$> seq 0 (N.to_nat n)) as Hsub.
  { intros j Hj%(list_range _ _ Hl). apply list_elem_of_fmap. exists (N.to_nat j).
    split; [lia|]. apply elem_of_seq. lia. }
  apply NoDup_submseteq in Hsub; [|apply Hl]. apply submseteq_length in Hsub.
  rewrite length_fmap, length_seq in Hsub. lia.
Qed.

Lemma cell_activeAccesses gpu bytes k1 k2 p md readers discard :
  activeAccesses (cell_entry gpu bytes k1 k2 (mkCell p (Ready md readers discard))) = readers.
Proof. done. Qed.

(** Scanning the fill order from any suffix finds its first idle cell. *)
Lemma skipBusyEntries_refines d l1 l2 fuel :
  cell_list (vsize (d_cells d)) (d_fifo d) → d_fifo d = l1 ++ l2 →
  (∀ i, i ∈ d_fifo d → ∃ md r disc, use_at d i = Some (Ready md r disc)) →
  (length l2 < fuel)%nat →
  refines (skipBusyEntries fuel (first_of l2)) d
    (default NO_ENTRY (head (filter (λ i, is_idle d i = true) l2))) d.
Proof.
  intros Hl. revert l1 l2. induction fuel as [|fuel IH]; intros l1 l2 Heq Hready Hfuel; [lia|].
  destruct l2 as [|i l2]; [apply refines_ret|]. change (first_of (i :: l2)) with i. cbn [skipBusyEntries].
  assert (i ∈ d_fifo d) as Hi by (rewrite Heq; set_solver).
  rewrite (proj2 (N.eqb_neq i NO_ENTRY))
    by (intros ->; by apply (cell_list_null _ _ Hl)).
  destruct (Hready i Hi) as (md & r & disc & Hu).
  destruct (use_at_Some _ _ _ Hu) as [p Hp].
  eapply refines_deref; [done|]. rewrite cell_activeAccesses, cell_nextFilled.
  assert (is_idle d i = (r =? 0)) as Hidle.
  { unfold is_idle. rewrite Hu. by destruct r. }
  destruct (N.eqb_spec r 0) as [->|Hr]; simpl.
  - rewrite filter_cons_True by done. apply refines_ret.
  - rewrite filter_cons_False by (by rewrite Hidle).
    assert (link_next (link_of (d_fifo d) i) = first_of l2) as ->.
    { rewrite Heq. apply link_next_app. rewrite <-Heq. apply Hl. }
    apply (IH (l1 ++ [i])); [by rewrite Heq, <-app_assoc|done|]. simpl in Hfuel. lia.
Qed.

#[local] Arguments skipBusyEntries : simpl never.

Lemma is_idle_lru d i : wf d → is_idle d i = true ↔ i ∈ d_lru d.
Proof.
  intros Hwf. rewrite (wf_lru _ Hwf). unfold is_idle. split.
  - destruct (use_at d i) as [[| |md [|] disc]|]; naive_solver.
  - intros (md & disc & ->). done.
Qed.

Lemma victim_free d i : victim d = Some (i, true) → last (d_free d) = Some i.
Proof.
  unfold victim. destruct (last (d_free d)) as [j|]; [congruence|].
  by destruct (if policy_eqb (d_policy d) FIFO then _ else _).
Qed.

Lemma victim_idle d i :
  wf d → victim d = Some (i, false) → last (d_free d) = None ∧ i ∈ d_lru d.
Proof.
  intros Hwf. unfold victim. destruct (last (d_free d)) as [j|]; [congruence|].
  intros (j & Hj & [= <-])%fmap_Some. split; [done|].
  destruct (policy_eqb (d_policy d) FIFO).
  - apply head_Some_elem_of, list_elem_of_filter in Hj as [Hj _]. by apply is_idle_lru.
  - by apply head_Some_elem_of.
Qed.

Lemma takeCandidate_none d :
  wf d → victim d = None → refines takeCandidate d (NO_ENTRY, false) d.
Proof.
  intros Hwf Hv. unfold victim in Hv. apply refines_this. intros t Ht. simpl.
  destruct (last (d_free d)); [done|]. apply fmap_None in Hv.
  destruct (N.eqb_spec (first_of (d_lru d)) NO_ENTRY) as [|Hne]; [apply refines_ret|].
  assert (policy_eqb (d_policy d) FIFO = true) as Hpol.
  { destruct (policy_eqb _ _); [done|]. unfold first_of in Hne. by rewrite Hv in Hne. }
  rewrite Hpol in *. pose proof (cell_list_length _ _ (wf_fifo_list _ Hwf)) as Hlen.
  eapply refines_bind.
  { eapply (skipBusyEntries_refines d [] (d_fifo d)); [by apply wf_fifo_list|done| |].
    - intros j Hj. apply (wf_fifo _ Hwf) in Hj as [_ ?]. done.
    - unfold entries_of. rewrite length_imap. unfold vsize in Hlen. lia. }
  rewrite Hv. simpl. apply refines_ret.
Qed.

Lemma takeCandidate_free d i :
  wf d → victim d = Some (i, true) →
  refines takeCandidate d (i, true) (d <| d_free := removelast (d_free d) |>).
Proof.
  intros Hwf Hv%victim_free. apply refines_this. intros t Ht. simpl. rewrite Hv.
  eapply refines_bind; [|apply refines_ret]. by apply refines_assign.
Qed.

Lemma takeCandidate_idle d i :
  wf d → victim d = Some (i, false) →
  refines takeCandidate d (i, false) (d <| d_lru := unlink i (d_lru d) |>).
Proof.
  intros Hwf Hv. destruct (victim_idle d i Hwf Hv) as [Hfree Hi].
  pose proof (wf_lru_list _ Hwf) as Hl. pose proof (cell_list_null _ _ Hl) as Hno.
  assert (i ≠ NO_ENTRY) by (by intros ->).
  apply refines_this. intros t Ht. simpl. rewrite Hfree.
  unfold victim in Hv. rewrite Hfree in Hv. apply fmap_Some in Hv as (j & Hj & [= <-]).
  rewrite (proj2 (N.eqb_neq _ NO_ENTRY)); [|rewrite first_of_None by done; by intros Heq; rewrite Heq in Hi; apply elem_of_nil in Hi].
  eapply refines_bind with (x := i) (d1 := d).
  { destruct (policy_eqb (d_policy d) FIFO).
    - pose proof (cell_list_length _ _ (wf_fifo_list _ Hwf)) as Hlen.
      pose proof (skipBusyEntries_refines d [] (d_fifo d)
        (S (length (entries_of (d_gpu d) (d_bytes d) (link_of (d_lru d)) (link_of (d_fifo d)) (d_cells d))))
        (wf_fifo_list _ Hwf) eq_refl) as Hskip.
      rewrite Hj in Hskip. apply Hskip.
      + intros j Hjf. apply (wf_fifo _ Hwf) in Hjf as [_ ?]. done.
      + unfold entries_of. rewrite length_imap. unfold vsize in Hlen. lia.
    - unfold first_of. rewrite Hj. apply refines_ret. }
  rewrite (proj2 (N.eqb_neq i NO_ENTRY)) by done.
  eapply refines_bind; [by apply removeEvictableEntry_refines|]. apply refines_ret.
Qed.

End critical_sections.
