(* ===== verification/CacheLookup.v ===== *)
(** Requests: an iteration of [getCacheData] implements one evaluation of the
    request against the directory, the entry checks and the end of a wait
    implement theirs, and all of them keep the directory well formed. *)
From S2P Require Import Prelude.
From S2P Require Import Platform.
From S2P Require Import GpuDataKey.
From S2P Require Import GpuResidencyTable.
From S2P Require Import GpuDataCacheEntry.
From S2P Require Import IntrusiveList.
From S2P Require Import CacheTypes.
From S2P Require Import GpuDataCache.
From S2P Require Import CacheSpec.
From S2P Require Import CacheRefinement.
From S2P Require Import CacheCriticalSections.
#[local] Open Scope N_scope.

Section lookups.
Context `{Platform}.
Implicit Types (d : Directory) (i j : N) (u : usage) (p : PendingRequest).

(** [m] implements an operation that returns a result and a directory. *)
Abbreviation implements m d r := (refines m d (fst r) (snd r)) (only parsing).

Lemma refines_this_eq {B} (f : GpuDataCache → M B) d y d' :
  (∀ t, refines (f (concrete d t)) d y d') → refines (c ← this_cache; f c) d y d'.
Proof. intros Hf. apply refines_this. auto. Qed.

Lemma makeFallbackAccess_refines md request reason d :
  refines (makeFallbackAccess md request reason) d
    (lease NO_ENTRY (request_d_fallback request) md request TaskFallback d)
    (count_fallback reason d).
Proof.
  unfold makeFallbackAccess.
  eapply refines_bind; [apply refines_count|].
  eapply refines_bind; [apply refines_count|].
  eapply refines_bind; [by apply (refines_assign _ _ (count_fallback reason d))|].
  apply refines_this_eq. intros t. apply refines_ret.
Qed.

Lemma fallback_refines md request reason d :
  implements (access ← makeFallbackAccess md request reason; mret (Returned access)) d
    (fallback md request reason d).
Proof. eapply refines_bind; [apply makeFallbackAccess_refines|]. apply refines_ret. Qed.

Lemma return_invalid_refines d : implements return_invalid d (reject d).
Proof. eapply refines_bind; [apply refines_count|]. apply refines_ret. Qed.

Lemma waitForCacheChange_enter_refines p now waitStarted d :
  vsize (d_cells d) ≠ 0 →
  if (d_waitTimeout d =? 0)%Z || (pending_deadline p <=? now)%Z
  then refines (waitForCacheChange_enter p now waitStarted) d None d
  else
    refines (waitForCacheChange_enter p now waitStarted) d
      (Some (mkPending (pending_metadata p) (pending_request p) (pending_deadline p)
               (pending_blocked p) true (pending_requestWait p) waitStarted))
      (let d := if pending_waited p then d else bump stat_waitedRequests inc64 d in
       d <| d_waiting := inc64 (d_waiting d) |>).
Proof.
  intros Hne. assert (∀ t, (vsize (entries (concrete d t)) =? 0) = false) as Hz.
  { intros t. simpl. rewrite vsize_entries_of. by apply N.eqb_neq. }
  destruct ((d_waitTimeout d =? 0)%Z || (pending_deadline p <=? now)%Z) eqn:Hstop;
    (apply refines_this_eq; intros t; rewrite Hz; simpl; rewrite Hstop);
    [apply refines_ret|].
  eapply refines_bind with (x := ())
    (d1 := if pending_waited p then d else bump stat_waitedRequests inc64 d).
  { destruct (pending_waited p); [apply refines_ret|apply refines_count]. }
  destruct (pending_waited p);
    (eapply refines_bind; [|apply refines_ret]; by apply refines_assign).
Qed.

(** The obstructed branches, whatever they count. *)
Lemma blocked_lookup_refines {T} (firstBlocked : CacheStatistics → T)
    `{!Setter firstBlocked} f o p now waitStarted d :
  vsize (d_cells d) ≠ 0 →
  (∀ d, count_obstacle o d = bump firstBlocked f d) →
  implements (blocked_lookup firstBlocked f (obstacle_reason o true)
                (obstacle_reason o false) p now waitStarted) d
    (obstructed o p now waitStarted d).
Proof.
  intros Hne Hcount. unfold blocked_lookup, obstructed.
  set (d1 := if pending_blocked p then d else count_obstacle o d).
  assert (d_waitTimeout d1 = d_waitTimeout d) as Hwait
    by (unfold d1; destruct (pending_blocked p), o; done).
  eapply refines_bind with (x := ()) (d1 := d1).
  { unfold d1. destruct (pending_blocked p); [apply refines_ret|].
    rewrite Hcount. apply refines_count. }
  set (p1 := mkPending _ _ _ true _ _ _).
  assert (vsize (d_cells d1) ≠ 0) as Hne1
    by (unfold d1; destruct (pending_blocked p), o; done).
  pose proof (waitForCacheChange_enter_refines p1 now waitStarted d1 Hne1) as Henter.
  change (pending_deadline p1) with (pending_deadline p) in Henter.
  destruct ((d_waitTimeout d1 =? 0)%Z || (pending_deadline p <=? now)%Z).
  - eapply refines_bind; [apply Henter|]. cbn [mbind option_bind].
    apply refines_this_eq. intros t. cbn [waitTimeout concrete].
    destruct (d_waitTimeout d1 =? 0)%Z; apply fallback_refines.
  - eapply refines_bind; [apply Henter|]. apply refines_ret.
Qed.

(** *** A resident key *)

Lemma cell_replicaValid gpu bytes k1 k2 q md readers discard :
  replicaValid (cell_entry gpu bytes k1 k2 (mkCell q (Ready md readers discard))) gpu = true.
Proof. unfold replicaValid, cell_entry. simpl. by rewrite Z.eqb_refl. Qed.

Lemma policy_eqb_FIFO x : policy_eqb x FIFO = true ↔ x = FIFO.
Proof. unfold policy_eqb. by rewrite bool_decide_eq_true. Qed.

Lemma index_use d k i :
  wf d → d_index d !! k = Some i →
  ∃ q u md, vat (d_cells d) i = Some (mkCell q u) ∧ use_at d i = Some u
    ∧ resident_md u = Some md ∧ md_key md = k.
Proof.
  intros Hwf Hk. apply (wf_index _ Hwf) in Hk as (u & md & Hu & Hmd & Hkey).
  destruct (use_at_Some _ _ _ Hu) as [q Hq]. by exists q, u, md.
Qed.

(** Taking a reader's lease removes the cell from the eviction order. *)
Lemma reader_check_refines d i q md readers discard :
  wf d → vat (d_cells d) i = Some (mkCell q (Ready md readers discard)) →
  let entry := cell_entry (d_gpu d) (d_bytes d) (link_of (d_lru d) i) (link_of (d_fifo d) i)
                 (mkCell q (Ready md readers discard)) in
  refines (if policy_eqb (d_policy d) FIFO && negb (inFilledList entry) then mret true
           else if activeAccesses entry =? 0
           then removed ← removeEvictableEntry i; mret (negb removed)
           else mret (inEvictableList entry)) d false
    (d <| d_lru := unlink i (d_lru d) |>).
Proof.
  intros Hwf Hq entry. assert (use_at d i = Some (Ready md readers discard)) as Hu
    by (unfold use_at; by rewrite Hq).
  unfold entry. rewrite cell_inFilledList, cell_activeAccesses, cell_inEvictableList.
  assert (policy_eqb (d_policy d) FIFO && negb (link_in (link_of (d_fifo d) i)) = false) as ->.
  { destruct (policy_eqb (d_policy d) FIFO) eqn:Hpol; [|done]. apply policy_eqb_FIFO in Hpol.
    rewrite link_of_in; [done|]. apply (wf_fifo _ Hwf). eauto. }
  destruct (N.eqb_spec readers 0) as [->|Hr].
  - eapply refines_bind; [apply removeEvictableEntry_refines|apply refines_ret].
    + by apply wf_lru_list.
    + apply (wf_lru _ Hwf). eauto.
  - assert (i ∉ d_lru d) as Hi.
    { rewrite (wf_lru _ Hwf). intros (md' & disc' & ?). congruence. }
    rewrite link_of_not_in, unlink_not_in by done. destruct d. apply refines_ret.
Qed.

Lemma lookup_resident_refines i p now waitStarted d :
  wf d → d_failed d = false → request_gpuId (pending_request p) = d_gpu d →
  d_index d !! md_key (pending_metadata p) = Some i →
  implements (lookup_resident i p now waitStarted) d (attempt p now waitStarted d).
Proof.
  intros Hwf Hfailed Hgpu Hk. unfold attempt. rewrite Hfailed, Hk.
  destruct (index_use _ _ _ Hwf Hk) as (q & u & md & Hq & Hu & Hmd & Hkey). rewrite Hq.
  apply refines_this_eq. intros t. rewrite entry_at_concrete, Hq.
  cbn [fmap option_fmap option_map]. rewrite (cell_metadata _ _ _ _ _ md) by done.
  destruct (metadata_eqb_spec md (pending_metadata p)) as [->|Hne]; cbn [negb];
    destruct u as [|md'|md' readers discard]; simpl in Hmd; simplify_eq.
  - rewrite decide_True by done.
    apply (blocked_lookup_refines stat_firstBlockedLoading inc64 KeyLoading); [|done].
    apply vat_lt in Hq. lia.
  - rewrite decide_True by done. unfold lease. rewrite Hgpu, cell_dataForGpu, cell_replicaValid.
    pose proof (wf_data _ Hwf _ _ Hq) as Hdata. simpl in Hdata.
    apply N.eqb_neq in Hdata. cbn [cell_data]. rewrite Hdata. cbn [orb negb].
    eapply refines_bind; [by apply reader_check_refines|]. cbn [fst snd].
    eapply refines_bind; [apply refines_count|].
    eapply refines_bind; [|apply refines_ret].
    by eapply refines_entry_assign; [exact Hq|].
  - rewrite decide_False by done. apply return_invalid_refines.
  - rewrite decide_False by done. apply return_invalid_refines.
Qed.

(** *** An absent key *)

(** A map of resident keys that spares cell [i] leaves room for one more. *)
Lemma index_room d (m : gmap GpuDataKey N) i :
  wf d → i < vsize (d_cells d) → m ⊆ d_index d → (∀ k, m !! k ≠ Some i) →
  N.of_nat (size m) < vsize (d_cells d).
Proof.
  intros Hwf Hi Hsub Hno. apply (map_size_lt _ _ i Hi).
  - intros k j Hk. pose proof (lookup_weaken _ _ _ _ Hk Hsub) as Hk'.
    destruct (index_use _ _ _ Hwf Hk') as (q & u & md & Hq & _).
    split; [by eapply vat_lt|]. intros ->. by eapply Hno.
  - intros k k' j Hk Hk'.
    apply (lookup_weaken _ (d_index d)) in Hk, Hk'; [|done..].
    destruct (index_use _ _ _ Hwf Hk) as (q & u & md & Hq & Hu & Hmd & <-).
    destruct (index_use _ _ _ Hwf Hk') as (q' & u' & md' & Hq' & Hu' & Hmd' & <-). congruence.
Qed.

Lemma delete_not_indexed d i k k' :
  wf d → d_index d !! k = Some i → delete k (d_index d) !! k' ≠ Some i.
Proof.
  intros Hwf Hk Hk'. apply lookup_delete_Some in Hk' as [Hne Hk'].
  destruct (index_use _ _ _ Hwf Hk) as (q & u & md & Hq & Hu & Hmd & <-).
  destruct (index_use _ _ _ Hwf Hk') as (q' & u' & md' & Hq' & Hu' & Hmd' & <-). congruence.
Qed.

Lemma free_not_indexed d i k : wf d → use_at d i = Some Free → d_index d !! k ≠ Some i.
Proof. intros Hwf Hu (u & md & Hu' & Hmd & _)%(wf_index _ Hwf). by simplify_eq. Qed.

Lemma claim_free_refines d i md request :
  wf d → victim d = Some (i, true) → request_gpuId request = d_gpu d →
  d_index d !! md_key md = None →
  let d1 := d <| d_free := removelast (d_free d) |> in
  refines (claim_candidate i true md request) d1 true
    (d1 <| d_index := <[md_key md := i]> (d_index d) |>).
Proof.
  intros Hwf Hv%victim_free Hgpu Hk d1.
  assert (use_at d i = Some Free) as Hu.
  { apply (wf_free _ Hwf). by apply last_Some_elem_of. }
  destruct (use_at_Some _ _ _ Hu) as [q Hq].
  assert (i ∉ d_lru d) as Hi.
  { rewrite (wf_lru _ Hwf). intros (? & ? & ?). congruence. }
  unfold claim_candidate. eapply (refines_deref _ _ d1); [done|].
  rewrite Hgpu. change (d_gpu d) with (d_gpu d1). rewrite cell_dataForGpu. cbn [cell_data].
  rewrite (proj2 (N.eqb_neq q nullptr)) by (by apply (wf_data _ Hwf _ _ Hq)).
  rewrite cell_inEvictableList. change (d_lru d1) with (d_lru d).
  rewrite link_of_not_in by done. simpl.
  eapply refines_bind; [apply refines_ret|]. cbn [negb].
  eapply refines_bind; [apply residency_insert_refines; [done|]|].
  { apply (index_room d _ i Hwf); [by eapply vat_lt|done|]. intros k. by apply (free_not_indexed d). }
  cbn [negb]. apply refines_this_eq. intros t.
  eapply refines_bind; [apply refines_ret|]. apply refines_ret.
Qed.

(** The idle victim of an eviction holds a payload nobody reads. *)
Lemma idle_use d i :
  wf d → i ∈ d_lru d →
  ∃ q md, vat (d_cells d) i = Some (mkCell q (Ready md 0 false))
    ∧ use_at d i = Some (Ready md 0 false) ∧ d_index d !! md_key md = Some i.
Proof.
  intros Hwf (md & disc & Hu)%(wf_lru _ Hwf).
  destruct disc; [by destruct (wf_discard _ Hwf _ _ _ Hu)|].
  destruct (use_at_Some _ _ _ Hu) as [q Hq]. exists q, md. split_and!; [done..|].
  apply (wf_index _ Hwf). eauto.
Qed.

Lemma claim_idle_refines d i md request :
  wf d → victim d = Some (i, false) → request_gpuId request = d_gpu d →
  d_index d !! md_key md = None →
  let d1 := d <| d_lru := unlink i (d_lru d) |> in
  let d2 := take_victim i false d in
  refines (claim_candidate i false md request) d1 true
    (d2 <| d_index := <[md_key md := i]> (d_index d2) |>).
Proof.
  intros Hwf Hv Hgpu Hk d1 d2. destruct (victim_idle _ _ Hwf Hv) as [_ Hi].
  destruct (idle_use _ _ Hwf Hi) as (q & md' & Hq & Hu & Hk').
  unfold d2, take_victim. rewrite Hu. cbn [resident_md].
  unfold claim_candidate. eapply (refines_deref _ _ d1); [done|].
  rewrite Hgpu. change (d_gpu d) with (d_gpu d1). rewrite cell_dataForGpu. cbn [cell_data].
  rewrite (proj2 (N.eqb_neq q nullptr)) by (by apply (wf_data _ Hwf _ _ Hq)).
  rewrite cell_inEvictableList. change (d_lru d1) with (unlink i (d_lru d)).
  rewrite link_of_not_in by apply not_elem_of_unlink.
  change (negb (state_eqb (cacheState (cell_entry _ _ _ _ (mkCell q (Ready md' 0 false)))) Valid)
    || negb (activeAccesses (cell_entry _ _ _ _ (mkCell q (Ready md' 0 false))) =? 0)
    || link_in no_link) with false.
  rewrite (cell_metadata _ _ _ _ _ md') by done. cbv iota.
  eapply refines_bind.
  { eapply refines_bind; [by apply residency_erase_refines|apply refines_ret]. }
  cbn [negb]. set (d3 := d1 <| d_index := delete (md_key md') (d_index d1) |>).
  assert (d_index d3 !! md_key md = None) as Hk3.
  { simpl. rewrite lookup_delete_None. by right. }
  eapply refines_bind; [apply residency_insert_refines; [done|]|].
  { apply (index_room d _ i Hwf); [by eapply vat_lt|apply delete_subseteq|].
    intros k. by apply (delete_not_indexed d). }
  set (d4 := d3 <| d_index := <[md_key md := i]> (d_index d3) |>).
  cbn [negb]. apply refines_this_eq. intros t. cbn [evictionPolicy concrete andb].
  eapply refines_bind with (x := true) (d1 := d4 <| d_fifo := unlink i (d_fifo d4) |>);
    [|apply refines_ret].
  change (policy_eqb (d_policy d4) FIFO) with (policy_eqb (d_policy d) FIFO).
  destruct (policy_eqb (d_policy d) FIFO) eqn:Hpol.
  - apply removeFilledEntry_refines.
    + change (cell_list (vsize (d_cells d)) (d_fifo d)). by apply wf_fifo_list.
    + change (i ∈ d_fifo d). apply (wf_fifo _ Hwf). apply policy_eqb_FIFO in Hpol. eauto.
  - rewrite unlink_not_in; [apply refines_ret|]. change (i ∉ d_fifo d).
    intros [Hfifo _]%(wf_fifo _ Hwf). apply policy_eqb_FIFO in Hfifo. congruence.
Qed.

Lemma set_use_bump {T} (counter : CacheStatistics → T) `{!Setter counter} f i u d :
  set_use i u (bump counter f d) = bump counter f (set_use i u d).
Proof. unfold set_use. simpl. by destruct (vat (d_cells d) i). Qed.

Definition claimed i (wasEmpty : bool) md d : Directory :=
  let d := take_victim i wasEmpty d in
  d <| d_index := <[md_key md := i]> (d_index d) |>.

Lemma take_victim_cells i wasEmpty d : d_cells (take_victim i wasEmpty d) = d_cells d.
Proof. by destruct wasEmpty. Qed.

Lemma victim_cell d i wasEmpty :
  wf d → victim d = Some (i, wasEmpty) →
  ∃ q u, vat (d_cells d) i = Some (mkCell q u) ∧ use_at d i = Some u
    ∧ (if wasEmpty then u = Free else ∃ md, u = Ready md 0 false ∧ i ∈ d_lru d).
Proof.
  intros Hwf Hv. destruct wasEmpty.
  - apply victim_free, last_Some_elem_of, (wf_free _ Hwf) in Hv as Hu.
    destruct (use_at_Some _ _ _ Hu) as [q Hq]. by exists q, Free.
  - destruct (victim_idle _ _ Hwf Hv) as [_ Hi].
    destruct (idle_use _ _ Hwf Hi) as (q & md & Hq & Hu & _). eauto 10.
Qed.

(** Taking the candidate and dropping its old residency, both ways. *)
Lemma candidate_refines d i wasEmpty md request :
  wf d → victim d = Some (i, wasEmpty) → request_gpuId request = d_gpu d →
  d_index d !! md_key md = None →
  ∃ d1, refines takeCandidate d (i, wasEmpty) d1
    ∧ refines (claim_candidate i wasEmpty md request) d1 true (claimed i wasEmpty md d).
Proof.
  intros Hwf Hv Hgpu Hk. destruct wasEmpty; eexists; split.
  - by apply takeCandidate_free.
  - by apply claim_free_refines.
  - by apply takeCandidate_idle.
  - by apply claim_idle_refines.
Qed.

Lemma lookup_absent_refines p now waitStarted d :
  wf d → d_failed d = false → request_gpuId (pending_request p) = d_gpu d →
  d_index d !! md_key (pending_metadata p) = None →
  implements (lookup_absent p now waitStarted) d (attempt p now waitStarted d).
Proof.
  intros Hwf Hfailed Hgpu Hk. unfold attempt, lookup_absent. rewrite Hfailed, Hk.
  destruct (victim d) as [[i wasEmpty]|] eqn:Hv.
  - destruct (victim_cell _ _ _ Hwf Hv) as (q & u & Hq & Hu & _). rewrite Hq.
    destruct (candidate_refines d i wasEmpty (pending_metadata p) (pending_request p))
      as (d1 & Htake & Hclaim); [done..|].
    eapply refines_bind; [apply Htake|]. cbn beta iota.
    rewrite (proj2 (N.eqb_neq i NO_ENTRY))
      by (apply vat_lt in Hq; pose proof (wf_size _ Hwf); lia).
    eapply refines_bind; [apply Hclaim|]. cbn [negb].
    assert (vat (d_cells (claimed i wasEmpty (pending_metadata p) d)) i = Some (mkCell q u)) as Hq'
      by (unfold claimed; simpl; by rewrite take_victim_cells).
    eapply refines_deref; [done|].
    eapply refines_bind; [apply refines_count|].
    set (d2 := bump stat_fill inc64 _).
    eapply refines_bind with (x := ()) (d1 := if wasEmpty then d2 else bump stat_eviction inc64 d2).
    { destruct wasEmpty; [apply refines_ret|apply refines_count]. }
    assert (reserve i wasEmpty (pending_metadata p) d =
      set_use i (Reserved (pending_metadata p))
        (if wasEmpty then d2 else bump stat_eviction inc64 d2)) as ->
      by (unfold reserve, d2; by destruct wasEmpty; rewrite ?set_use_bump).
    eapply refines_bind.
    { apply (refines_entry_assign _ _ _ (mkCell q u) (Reserved (pending_metadata p)));
        [by destruct wasEmpty|]. unfold cell_entry. by destruct u. }
    apply refines_this_eq. intros t. cbn [fst snd].
    match goal with |- refines (mret ?x) ?d' ?y _ => assert (y = x) as -> end;
      [|apply refines_ret].
    unfold lease. rewrite Hgpu. destruct wasEmpty; rewrite (set_use_cells _ i q u) by done;
      do 2 f_equal; symmetry; apply cell_dataForGpu.
  - eapply refines_bind; [by apply takeCandidate_none|]. cbn [N.eqb].
    rewrite N.eqb_refl. apply refines_this_eq. intros t.
    cbn [entries concrete]. rewrite vsize_entries_of.
    destruct (N.eqb_spec (vsize (d_cells d)) 0); [apply fallback_refines|].
    by apply (blocked_lookup_refines stat_firstBlockedFull inc64 CacheFull).
Qed.

(** ** A whole iteration *)

Lemma getCacheData_iteration_refines p now waitStarted d :
  wf d → request_gpuId (pending_request p) = d_gpu d →
  implements (getCacheData_iteration p now waitStarted) d (attempt p now waitStarted d).
Proof.
  intros Hwf Hgpu. apply refines_this_eq. intros t. cbn [failed concrete].
  destruct (d_failed d) eqn:Hfailed.
  { unfold attempt. rewrite Hfailed. apply return_invalid_refines. }
  eapply refines_bind; [apply residency_find_refines|].
  destruct (d_index d !! md_key (pending_metadata p)) as [i|] eqn:Hk.
  - by apply lookup_resident_refines.
  - by apply lookup_absent_refines.
Qed.

(** ** Calls and wake-ups *)

Lemma begin_rejects md request d t :
  negb (cache_initialized (concrete d t)) || releasing (concrete d t) || failed (concrete d t)
     || negb (md_bytes md =? cache_dataBytes (concrete d t))
     || (md_width md <=? 0)%Z || (md_height md <=? 0)%Z
     || (request_gpuId request <? 0)%Z
     || (request_stream request =? nullptr)
     || (request_d_fallback request =? nullptr)
     || (request_fallbackBytes request <? cache_dataBytes (concrete d t))
     || negb (existsb (Z.eqb (request_gpuId request)) (eligibleGpuIds (concrete d t)))
  = negb (negb (d_failed d) && valid_request md request d).
Proof.
  unfold valid_request. simpl. rewrite !Z.ltb_antisym, !N.ltb_antisym, orb_false_r.
  destruct (d_failed d), (md_bytes md =? d_bytes d), (md_width md <=? 0)%Z, (md_height md <=? 0)%Z,
    (0 <=? request_gpuId request)%Z, (request_gpuId request =? d_gpu d)%Z,
    (request_stream request =? nullptr), (request_d_fallback request =? nullptr),
    (d_bytes d <=? request_fallbackBytes request); done.
Qed.

Lemma getCacheData_refines md request started now waitStarted d :
  wf d →
  implements (getCacheData md request started now waitStarted) d
    (request_access md request started now waitStarted d).
Proof.
  intros Hwf. unfold request_access, getCacheData, getCacheData_begin.
  destruct (negb (d_failed d) && valid_request md request d) eqn:Hok.
  - eapply refines_bind with (x := inr (new_request md request started d)) (d1 := d).
    { apply refines_this_eq. intros t. rewrite begin_rejects, Hok. apply refines_ret. }
    apply (getCacheData_iteration_refines (new_request md request started d)); [done|].
    apply andb_prop in Hok as [_ Hok]. unfold valid_request in Hok.
    repeat (apply andb_prop in Hok as [Hok ?]). simpl. by apply Z.eqb_eq.
  - eapply refines_bind with (x := inl GpuDataAccess_default) (d1 := bump stat_invalid inc64 d).
    { apply refines_this_eq. intros t. rewrite begin_rejects, Hok. cbn [negb].
      eapply refines_bind; [apply refines_count|apply refines_ret]. }
    apply refines_ret.
Qed.

Lemma waitForCacheChange_leave_refines p woken d :
  refines (waitForCacheChange_leave p woken) d (woken_request p woken) (end_wait p woken d).
Proof.
  eapply refines_bind; [by apply (refines_assign _ _ (d <| d_waiting := dec64 (d_waiting d) |>))|].
  eapply refines_bind; [apply refines_count|].
  eapply refines_bind; [apply refines_count|]. apply refines_ret.
Qed.

Lemma getCacheData_resume_refines p woken now waitStarted d :
  wf d → request_gpuId (pending_request p) = d_gpu d →
  implements (getCacheData_resume p woken now waitStarted) d
    (resume_access p woken now waitStarted d).
Proof.
  intros Hwf Hgpu. eapply refines_bind; [apply waitForCacheChange_leave_refines|].
  apply getCacheData_iteration_refines; [|done]. by eapply wf_same.
Qed.

End lookups.

(** ** Well-formedness *)
Section well_formedness.
Implicit Types (d : Directory) (i j : N) (u : usage) (p : PendingRequest).

(** Every cell can take one more reader: the leases that exist, each an object
    of the program, are fewer than [2 ^ 64]. *)
Definition reader_room d : Prop :=
  ∀ i md readers discard, use_at d i = Some (Ready md readers discard) → readers + 1 < two64.

Lemma set_use_wf_fields i u d :
  d_policy (set_use i u d) = d_policy d ∧ d_lru (set_use i u d) = d_lru d
  ∧ d_fifo (set_use i u d) = d_fifo d ∧ d_free (set_use i u d) = d_free d
  ∧ d_index (set_use i u d) = d_index d.
Proof. unfold set_use. by destruct (vat (d_cells d) i). Qed.

Lemma obstructed_wf o p now waitStarted d :
  wf d → wf (snd (obstructed o p now waitStarted d)).
Proof.
  intros Hwf. apply (wf_same d); [done|..]; unfold obstructed;
    by destruct (pending_blocked p), o; simpl; case_match; simpl; destruct (pending_waited p).
Qed.

Lemma hit_wf d i md readers discard :
  wf d → reader_room d → use_at d i = Some (Ready md readers discard) →
  wf (set_use i (Ready md (inc64 readers) discard)
        (bump stat_hit inc64 (d <| d_lru := unlink i (d_lru d) |>))).
Proof.
  intros Hwf Hroom Hu. destruct (use_at_Some _ _ _ Hu) as [q Hq].
  specialize (Hroom _ _ _ _ Hu). pose proof (inc64_small _ Hroom) as Hinc.
  eapply (changes_cell_wf d); [done|exact Hu|].
  rewrite (set_use_cells _ i q (Ready md readers discard)) by done.
  split; simpl; try done.
  - by erewrite set_use_cells.
  - rewrite Hinc. split; [done|]. lia.
  - apply NoDup_unlink, Hwf.
  - intros j Hj. rewrite elem_of_unlink. naive_solver.
  - rewrite elem_of_unlink. split; [by intros []|]. intros (? & ? & ?). simplify_eq.
    rewrite Hinc in *. lia.
  - apply Hwf.
  - rewrite (wf_fifo _ Hwf). split; intros [? _]; (split; [done|]); eauto.
  - apply Hwf.
  - rewrite (wf_free _ Hwf), Hu. done.
  - intros k. rewrite (wf_index _ Hwf). rewrite Hu. naive_solver.
Qed.

Lemma elem_of_removelast (l : list N) i j :
  NoDup l → last l = Some i → j ∈ removelast l ↔ j ≠ i ∧ j ∈ l.
Proof.
  intros Hnd Hl. destruct (last_Some l i) as [Hs _]. destruct (Hs Hl) as [l' ->].
  rewrite removelast_last, elem_of_app, list_elem_of_singleton.
  apply NoDup_app in Hnd as (_ & Hni & _).
  split; [|naive_solver]. intros Hj. split; [|by left]. intros ->.
  by destruct (Hni i Hj); left.
Qed.

Lemma NoDup_removelast (l : list N) : NoDup l → NoDup (removelast l).
Proof.
  destruct (last l) as [i|] eqn:Hl; [|by apply last_None in Hl as ->].
  apply last_Some in Hl as [l' ->]. rewrite removelast_last. by intros [? _]%NoDup_app.
Qed.

Lemma reserve_free_wf d i md :
  wf d → victim d = Some (i, true) → d_index d !! md_key md = None → wf (reserve i true md d).
Proof.
  intros Hwf Hv%victim_free Hk.
  assert (use_at d i = Some Free) as Hu by (apply (wf_free _ Hwf); by apply last_Some_elem_of).
  destruct (use_at_Some _ _ _ Hu) as [q Hq].
  apply (changes_cell_wf d _ i Free (Reserved md)); [done|exact Hu|]. unfold reserve.
  rewrite (set_use_cells _ i q Free) by done.
  split; simpl; try done.
  - by erewrite set_use_cells.
  - apply Hwf.
  - rewrite (wf_lru _ Hwf), Hu. naive_solver.
  - apply Hwf.
  - rewrite (wf_fifo _ Hwf), Hu. naive_solver.
  - apply NoDup_removelast, Hwf.
  - intros j Hj. rewrite elem_of_removelast by (done || apply Hwf). naive_solver.
  - rewrite elem_of_removelast by (done || apply Hwf). naive_solver.
  - intros k j Hj. rewrite lookup_insert_Some. naive_solver.
  - intros k. rewrite lookup_insert_Some. split.
    + intros [[<- _]|[_ Hk']]; [eauto|]. by destruct (free_not_indexed d i k).
    + intros (? & [= <-] & <-). by left.
Qed.

Lemma reserve_idle_wf d i md :
  wf d → victim d = Some (i, false) → d_index d !! md_key md = None →
  wf (reserve i false md d).
Proof.
  intros Hwf Hv Hk. destruct (victim_idle _ _ Hwf Hv) as [_ Hi].
  destruct (idle_use _ _ Hwf Hi) as (q & md' & Hq & Hu & Hk').
  apply (changes_cell_wf d _ i (Ready md' 0 false) (Reserved md)); [done|exact Hu|]. unfold reserve, take_victim. rewrite Hu.
  rewrite (set_use_cells _ i q (Ready md' 0 false)) by done.
  split; simpl; try done.
  - by erewrite set_use_cells.
  - apply NoDup_unlink, Hwf.
  - intros j Hj. rewrite elem_of_unlink. naive_solver.
  - rewrite elem_of_unlink. naive_solver.
  - apply NoDup_unlink, Hwf.
  - intros j Hj. rewrite elem_of_unlink. naive_solver.
  - rewrite elem_of_unlink. naive_solver.
  - apply Hwf.
  - rewrite (wf_free _ Hwf), Hu. done.
  - intros k j Hj. rewrite lookup_insert_Some, lookup_delete_Some. split; [naive_solver|].
    intros Hkj. right. split; [by intros <-; congruence|]. split; [|done]. by intros <-; congruence.
  - intros k. rewrite lookup_insert_Some. split.
    + intros [[<- _]|[_ Hkd]]; [eauto|]. by destruct (delete_not_indexed d i (md_key md') k).
    + intros (? & [= <-] & <-). by left.
Qed.

(** An evaluated request leaves the directory well formed. *)
Lemma attempt_wf p now waitStarted d :
  wf d → reader_room d → wf (snd (attempt p now waitStarted d)).
Proof.
  intros Hwf Hroom. unfold attempt. destruct (d_failed d); [by eapply wf_same|].
  destruct (d_index d !! md_key (pending_metadata p)) as [i|] eqn:Hk.
  - destruct (vat (d_cells d) i) as [[q [|md|md readers discard]]|] eqn:Hq;
      try by eapply wf_same.
    + case_decide; [by apply obstructed_wf|by eapply wf_same].
    + case_decide; [|by eapply wf_same]. subst md.
      apply hit_wf; [done..|]. unfold use_at. by rewrite Hq.
  - destruct (victim d) as [[i wasEmpty]|] eqn:Hv.
    + destruct (victim_cell _ _ _ Hwf Hv) as (q & u & Hq & _ & _). rewrite Hq.
      destruct wasEmpty; [by apply reserve_free_wf|by apply reserve_idle_wf].
    + destruct (vsize (d_cells d) =? 0); [by eapply wf_same|by apply obstructed_wf].
Qed.

Lemma request_access_wf md request started now waitStarted d :
  wf d → reader_room d → wf (snd (request_access md request started now waitStarted d)).
Proof.
  intros Hwf Hroom. unfold request_access. case_match; [by apply attempt_wf|by eapply wf_same].
Qed.

Lemma resume_access_wf p woken now waitStarted d :
  wf d → reader_room d → wf (snd (resume_access p woken now waitStarted d)).
Proof. intros Hwf Hroom. apply attempt_wf; [by eapply wf_same|done]. Qed.

End well_formedness.
