(* ===== verification/CacheCompletion.v ===== *)
(** The end of an access: completing or aborting a lease the manager granted
    implements the specified end of that lease, and keeps the directory well
    formed; so do the reset and the failure report. *)
From S2P Require Import Prelude.
From S2P Require Import Platform.
From S2P Require Import GpuDataKey.
From S2P Require Import GpuResidencyTable.
From S2P Require Import GpuDataCacheEntry.
From S2P Require Import IntrusiveList.
From S2P Require Import CacheTypes.
From S2P Require Import GpuDataCache.
From S2P Require Import CacheSpec.
From S2P Require Import CacheRefinement.
From S2P Require Import CacheCriticalSections.
From S2P Require Import CacheLookup.
#[local] Open Scope N_scope.

(** Comparisons of literal statuses. *)
Ltac eval_status :=
  repeat match goal with
  | |- context [status_eqb ?x ?y] =>
      let b := eval vm_compute in (status_eqb x y) in change (status_eqb x y) with b
  end; cbn [negb andb].

Section completion.
Context `{Platform}.
Implicit Types (d : Directory) (i j : N) (u : usage) (a : GpuDataAccess).

Lemma refines_this_now {B} (f : GpuDataCache → M B) d y d' :
  (∀ t, refines (f (concrete d t)) d y d') → refines (c ← this_cache; f c) d y d'.
Proof. intros Hf. apply refines_this. auto. Qed.

(** Two assignments to the same entry are one. *)
Lemma refines_entry_assign_fuse {B} i f g (k : M B) d cell y d' :
  vat (d_cells d) i = Some cell →
  refines (_ ← entry_assign i (λ e, g (f e)); k) d y d' →
  refines (_ ← entry_assign i f; _ ← entry_assign i g; k) d y d'.
Proof.
  intros Hcell Hk t Ht. destruct (Hk t Ht) as (t' & Hrun & Ht'). exists t'. split; [|done].
  rewrite <-Hrun. clear Hrun. pose proof (entry_at_concrete d t i) as Hat. rewrite Hcell in Hat.
  rewrite (bind_Some _ _ _ _ _ (entry_assign_run _ _ _ f Hat)).
  rewrite (bind_Some _ _ _ _ _ (entry_assign_run _ _ _ (λ e, g (f e)) Hat)).
  set (c1 := _ <| entries := _ |>).
  assert (i < vsize (entries (concrete d t))) as Hlt.
  { simpl. rewrite vsize_entries_of. by eapply vat_lt. }
  assert (entry_at c1 i = Some (f (cell_entry (d_gpu d) (d_bytes d) (link_of (d_lru d) i)
            (link_of (d_fifo d) i) cell))) as Hat1.
  { unfold entry_at, c1. simpl. by rewrite vat_vset_eq. }
  rewrite (bind_Some _ _ _ _ _ (entry_assign_run _ _ _ g Hat1)). unfold c1. simpl.
  by rewrite vset_vset.
Qed.

Lemma set_use_twice d i u u' : set_use i u' (set_use i u d) = set_use i u' d.
Proof.
  unfold set_use. destruct (vat (d_cells d) i) as [[q u0]|] eqn:Hq; [|by rewrite Hq].
  simpl. rewrite vat_vset_eq by (by eapply vat_lt). simpl. by rewrite vset_vset.
Qed.

Lemma use_at_set_use d i u u' :
  use_at d i = Some u → use_at (set_use i u' d) i = Some u'.
Proof.
  intros Hu. destruct (use_at_Some _ _ _ Hu) as [q Hq].
  rewrite (set_use_cells _ i q u) by done. unfold use_at. simpl.
  by rewrite vat_vset_eq by (by eapply vat_lt).
Qed.

(** ** A reader's lease *)

Lemma not_idle_not_evictable d i md readers discard :
  wf d → use_at d i = Some (Ready md readers discard) → readers ≠ 0 → i ∉ d_lru d.
Proof. intros Hwf Hu Hr (? & ? & ?)%(wf_lru _ Hwf). congruence. Qed.

Lemma reserved_not_listed d i md :
  wf d → use_at d i = Some (Reserved md) → (i ∉ d_lru d) ∧ (i ∉ d_fifo d).
Proof.
  intros Hwf Hu. rewrite (wf_lru _ Hwf), (wf_fifo _ Hwf). split; naive_solver.
Qed.

(** The rest of a reader's completion, once its lease count is down. *)
Lemma releaseReaderEntry_refines d i md readers discard discard' :
  wf d → use_at d i = Some (Ready md readers discard) → readers ≠ 0 →
  refines (releaseReaderEntry i) (set_use i (Ready md (dec64 readers) discard') d) true
    (if negb (dec64 readers =? 0) then set_use i (Ready md (dec64 readers) discard') d
     else if discard' then
       bump stat_discard inc64
         (free_cell i (md_key md) (set_use i (Ready md (dec64 readers) discard') d))
     else make_evictable i (set_use i (Ready md (dec64 readers) discard') d)).
Proof.
  intros Hwf Hu Hr. destruct (use_at_Some _ _ _ Hu) as [q Hq].
  pose proof (not_idle_not_evictable _ _ _ _ _ Hwf Hu Hr) as Hi.
  assert (d_index d !! md_key md = Some i) as Hk by (apply (wf_index _ Hwf); eauto).
  pose proof (wf_lru_list _ Hwf) as Hl. pose proof (wf_fifo_list _ Hwf) as Hf.
  pose proof (use_at_set_use d i _ (Ready md (dec64 readers) discard') Hu) as Hu1.
  unfold releaseReaderEntry. set (d1 := set_use i _ d) in *.
  destruct (use_at_Some _ _ _ Hu1) as [q1 Hq1].
  assert (cell_list (vsize (d_cells d1)) (d_lru d1) ∧ cell_list (vsize (d_cells d1)) (d_fifo d1)
    ∧ (d_index d1 = d_index d) ∧ (d_lru d1 = d_lru d)) as (Hl1 & Hf1 & Hk1 & Hlru1).
  { unfold d1. rewrite (set_use_cells _ i q (Ready md readers discard)) by done.
    simpl. by rewrite vsize_vset. }
  eapply refines_deref; [done|]. rewrite cell_activeAccesses.
  destruct (N.eqb_spec (dec64 readers) 0) as [Hz|Hz]; cbn [negb]; [|apply refines_ret].
  change (discardWhenUnused _) with discard'. destruct discard'.
  - eapply refines_bind.
    { eapply (resetEntry_refines d1 i _ md); [done..|by rewrite Hk1]. }
    eapply refines_bind; [apply refines_count|apply refines_ret].
  - eapply addEvictableEntry_refines; [done|by rewrite Hlru1|]. by rewrite Hu1, Hz.
Qed.

(** ** The checks of a completion *)

Lemma access_matches_lease d t a q u md :
  access_dataBytes a = d_bytes d → deviceId a = d_gpu d → q = d_data a →
  resident_md u = Some md → md_key md = dataKey a →
  access_matches (concrete d t) a
    (cell_entry (d_gpu d) (d_bytes d) (link_of (d_lru d) (entryIndex a))
       (link_of (d_fifo d) (entryIndex a)) (mkCell q u)) = true.
Proof.
  intros Hbytes Hgpu -> Hmd Hkey. unfold access_matches.
  rewrite (cell_metadata _ _ _ _ _ md) by done. rewrite Hkey, key_eqb_refl, Hgpu, cell_dataForGpu.
  simpl. rewrite N.eqb_refl, Hbytes, N.eqb_refl. done.
Qed.

Lemma complete_finds d t a q u md :
  vat (d_cells d) (entryIndex a) = Some (mkCell q u) →
  access_dataBytes a = d_bytes d → deviceId a = d_gpu d → q = d_data a →
  resident_md u = Some md → md_key md = dataKey a →
  (if cache_initialized (concrete d t) && negb (releasing (concrete d t))
      && (entryIndex a <? vsize (entries (concrete d t)))
   then match entry_at (concrete d t) (entryIndex a) with
        | Some e => if access_matches (concrete d t) a e then Some e else None
        | None => None
        end
   else None)
  = Some (cell_entry (d_gpu d) (d_bytes d) (link_of (d_lru d) (entryIndex a))
            (link_of (d_fifo d) (entryIndex a)) (mkCell q u)).
Proof.
  intros Hq Hbytes Hgpu Hdata Hmd Hkey. cbn [cache_initialized releasing concrete negb andb].
  rewrite vsize_entries_concrete.
  rewrite (proj2 (N.ltb_lt _ _)) by (by eapply vat_lt).
  rewrite entry_at_concrete, Hq. cbn [fmap option_fmap option_map].
  by rewrite (access_matches_lease _ _ _ _ _ md).
Qed.

Lemma retention_discard r : retention_eqb r Discard = bool_decide (r = Discard).
Proof. done. Qed.

Lemma completeHit_refines d a md readers discard retention :
  wf d → deviceId a = d_gpu d →
  vat (d_cells d) (entryIndex a) = Some (mkCell (d_data a) (Ready md readers discard)) →
  readers ≠ 0 →
  refines (completeHit a (cell_entry (d_gpu d) (d_bytes d) (link_of (d_lru d) (entryIndex a))
             (link_of (d_fifo d) (entryIndex a)) (mkCell (d_data a) (Ready md readers discard)))
             retention) d true
    (finish_hit (entryIndex a) (retention_eqb retention Discard) d).
Proof.
  intros Hwf Hgpu Hq Hr.
  assert (use_at d (entryIndex a) = Some (Ready md readers discard)) as Hu
    by (unfold use_at; by rewrite Hq).
  unfold completeHit. rewrite cell_activeAccesses, cell_inEvictableList, Hgpu, cell_replicaValid.
  rewrite link_of_not_in by (by eapply not_idle_not_evictable).
  rewrite (proj2 (N.eqb_neq readers 0)) by done.
  change (negb (state_eqb _ Valid && _ && _ && _)) with false. cbv iota.
  unfold finish_hit. rewrite Hu.
  eapply refines_bind; [|by eapply releaseReaderEntry_refines].
  by eapply refines_entry_assign; [exact Hq|].
Qed.

(** ** A fill *)

(** Publishing a fill: the cell turns valid and joins the orders. *)
Lemma publish_refines d i md q :
  wf d → vat (d_cells d) i = Some (mkCell q (Reserved md)) →
  let d1 := set_use i (Ready md 0 false) d in
  refines (addFilledEntry i) d1 true (make_filled i d1)
  ∧ refines (addEvictableEntry i) (make_filled i d1) true
      (make_evictable i (make_filled i d1)).
Proof.
  intros Hwf Hq d1. unfold d1.
  assert (use_at d i = Some (Reserved md)) as Hu by (unfold use_at; by rewrite Hq).
  destruct (reserved_not_listed _ _ _ Hwf Hu) as [Hl Hf].
  pose proof (wf_lru_list _ Hwf). pose proof (wf_fifo_list _ Hwf).
  pose proof (use_at_set_use d i _ (Ready md 0 false) Hu) as Hu1.
  rewrite (set_use_cells _ i q (Reserved md)) in * by done.
  split.
  - eapply addFilledEntry_refines; [|done|exact Hu1]. simpl. by rewrite vsize_vset.
  - unfold make_filled. case_match; (eapply addEvictableEntry_refines; [|done|exact Hu1]);
      simpl; by rewrite vsize_vset.
Qed.

Lemma fill_check d i q md :
  wf d → vat (d_cells d) i = Some (mkCell q (Reserved md)) →
  let entry := cell_entry (d_gpu d) (d_bytes d) (link_of (d_lru d) i) (link_of (d_fifo d) i)
                 (mkCell q (Reserved md)) in
  state_eqb (cacheState entry) Loading && (activeAccesses entry =? 1)
    && negb (inEvictableList entry) = true.
Proof.
  intros Hwf Hq entry. assert (use_at d i = Some (Reserved md)) as Hu by (unfold use_at; by rewrite Hq).
  unfold entry. rewrite cell_inEvictableList, link_of_not_in; [done|].
  by destruct (reserved_not_listed _ _ _ Hwf Hu).
Qed.

Lemma completeFill_refines d a md succeeded retention :
  wf d → deviceId a = d_gpu d →
  vat (d_cells d) (entryIndex a) = Some (mkCell (d_data a) (Reserved md)) →
  let discard := retention_eqb retention Discard in
  refines (completeFill a (cell_entry (d_gpu d) (d_bytes d) (link_of (d_lru d) (entryIndex a))
             (link_of (d_fifo d) (entryIndex a)) (mkCell (d_data a) (Reserved md)))
             succeeded retention) d (true, succeeded)
    (if succeeded then
       if discard
       then bump stat_discard inc64 (free_cell (entryIndex a) (md_key md)
              (set_use (entryIndex a) (Ready md 0 false) d))
       else make_evictable (entryIndex a) (make_filled (entryIndex a)
              (set_use (entryIndex a) (Ready md 0 false) d))
     else free_cell (entryIndex a) (md_key md) d).
Proof.
  intros Hwf Hgpu Hq discard. set (i := entryIndex a) in *.
  assert (use_at d i = Some (Reserved md)) as Hu by (unfold use_at; by rewrite Hq).
  assert (d_index d !! md_key md = Some i) as Hk by (apply (wf_index _ Hwf); eauto).
  pose proof (wf_lru_list _ Hwf) as Hl. pose proof (wf_fifo_list _ Hwf) as Hf.
  unfold completeFill. fold i. rewrite (fill_check d i _ md) by done. cbn [negb].
  destruct succeeded.
  2: { eapply refines_bind; [by eapply resetEntry_refines|apply refines_ret]. }
  unfold markReplicaValid, cell_entry at 1. cbn [cell_use replicas].
  simpl markReplicaValid_loop. rewrite Hgpu, Z.eqb_refl. cbv beta iota zeta.
  eapply refines_entry_assign_fuse; [exact Hq|].
  eapply refines_bind with (x := ()) (d1 := set_use i (Ready md 0 false) d).
  { by eapply refines_entry_assign; [exact Hq|]. }
  pose proof (use_at_set_use d i _ (Ready md 0 false) Hu) as Hu1.
  destruct (publish_refines d i md _ Hwf Hq) as [Hfill Hpub].
  rewrite (set_use_cells _ i (d_data a) (Reserved md)) in * by done.
  fold discard. destruct discard.
  - eapply refines_bind.
    { eapply resetEntry_refines; [..|exact Hu1|done|exact Hk]; simpl; by rewrite vsize_vset. }
    eapply refines_bind; [apply refines_count|apply refines_ret].
  - eapply refines_bind; [apply Hfill|]. cbv iota.
    eapply refines_bind; [apply Hpub|apply refines_ret].
Qed.
(** ** Completing and aborting a held lease *)

Lemma set_use_id d i u : use_at d i = Some u → set_use i u d = d.
Proof.
  intros Hu. destruct (use_at_Some _ _ _ Hu) as [q Hq]. rewrite (set_use_cells _ _ _ _ _ Hq).
  destruct d. simpl in *. by rewrite vset_id.
Qed.

Lemma use_at_vat d i q u : vat (d_cells d) i = Some (mkCell q u) → use_at d i = Some u.
Proof. unfold use_at. by intros ->. Qed.

Lemma free_cell_set_use d i k u u' :
  use_at d i = Some u → free_cell i k (set_use i u' d) = free_cell i k d.
Proof.
  intros Hu. destruct (use_at_Some _ _ _ Hu) as [q Hq].
  rewrite (set_use_cells _ _ _ _ _ Hq). unfold free_cell.
  rewrite (set_use_cells _ i q u') by (simpl; rewrite vat_vset_eq; [done|by eapply vat_lt]).
  rewrite (set_use_cells _ i q u) by done. simpl. by rewrite vset_vset.
Qed.

Lemma completeAccess_refines d a succeeded retention :
  wf d → holds_lease d a →
  refines (completeAccess a succeeded retention) d (succeeded, GpuDataAccess_default)
    (end_access a succeeded (retention_eqb retention Discard) d).
Proof.
  intros Hwf (Howner & Hbytes & Hgpu & Hlease). unfold completeAccess, end_access.
  apply refines_this_now. intros t.
  assert ((owner a =? self (concrete d t)) = true) as -> by (by apply N.eqb_eq).
  destruct (accessStatus a) eqn:Hstatus; [done| | |]; eval_status.
  - destruct Hlease as (md & readers & discard & Hq & Hkey & Hr).
    erewrite complete_finds by done.
    eapply refines_bind; [by apply completeHit_refines|]. apply refines_ret.
  - destruct Hlease as (md & Hq & Hkey). erewrite complete_finds by done.
    eapply refines_bind; [by apply completeFill_refines|]. cbv beta iota zeta.
    unfold finish_fill. rewrite (use_at_vat _ _ _ _ Hq).
    destruct succeeded; (eapply refines_bind; [|apply refines_ret]);
      [|apply refines_count]. cbn [andb].
    rewrite (free_cell_set_use _ _ _ _ _ (use_at_vat _ _ _ _ Hq)). apply refines_count.
  - destruct Hlease as (Hidx & Hdata & Hactive). rewrite Hidx, Hbytes. simpl.
    rewrite (proj2 (N.eqb_neq _ _) Hactive), (proj2 (N.eqb_neq _ _) Hdata), !N.eqb_refl. simpl.
    eapply refines_bind; [|apply refines_ret]. by apply refines_assign.
Qed.

Lemma free_cell_bump {T} (counter : CacheStatistics → T) `{!Setter counter} f i k d :
  free_cell i k (bump counter f d) = bump counter f (free_cell i k d).
Proof. unfold free_cell, set_use. simpl. by destruct (vat (d_cells d) i). Qed.

(** Aborting ends the lease like an unsuccessful completion. *)
Lemma abortAccess_refines d a :
  wf d → holds_lease d a →
  refines (abortAccess a) d GpuDataAccess_default (end_access a false false d).
Proof.
  intros Hwf (Howner & Hbytes & Hgpu & Hlease). unfold abortAccess, end_access.
  apply refines_this_now. intros t.
  assert ((owner a =? self (concrete d t)) = true) as -> by (by apply N.eqb_eq).
  destruct (accessStatus a) eqn:Hstatus; [done| | |]; eval_status.
  - destruct Hlease as (md & readers & discard & Hq & Hkey & Hr).
    eapply refines_bind; [apply refines_ret|]. eapply refines_bind; [|apply refines_ret].
    rewrite vsize_entries_concrete, (proj2 (N.ltb_lt _ _)) by (by eapply vat_lt).
    eapply refines_deref; [exact Hq|]. rewrite (access_matches_lease _ _ _ _ _ md) by done.
    pose proof (use_at_vat _ _ _ _ Hq) as Hu.
    rewrite cell_activeAccesses, cell_inEvictableList.
    rewrite link_of_not_in by (by eapply not_idle_not_evictable).
    rewrite (proj2 (N.eqb_neq readers 0)) by done. eval_status.
    change (state_eqb _ Valid && _ && _) with true. cbv iota.
    unfold finish_hit. rewrite Hu, orb_false_r.
    eapply refines_bind
      with (x := ()) (d1 := set_use (entryIndex a) (Ready md (dec64 readers) discard) d);
      [by eapply refines_entry_assign; [exact Hq|]|].
    eapply refines_bind; [by eapply releaseReaderEntry_refines|apply refines_ret].
  - destruct Hlease as (md & Hq & Hkey). pose proof (use_at_vat _ _ _ _ Hq) as Hu.
    eapply refines_bind; [apply refines_count|]. eapply refines_bind; [|apply refines_ret].
    rewrite vsize_entries_concrete, (proj2 (N.ltb_lt _ _)) by (by eapply vat_lt).
    set (d1 := bump stat_fillFailed inc64 d).
    eapply (refines_deref _ _ d1); [exact Hq|].
    pose proof (access_matches_lease d t a (d_data a) (Reserved md) md) as Hmatch.
    pose proof (fill_check d _ _ _ Hwf Hq) as Hcheck.
    change (d_gpu d1) with (d_gpu d). change (d_bytes d1) with (d_bytes d).
    change (d_lru d1) with (d_lru d). change (d_fifo d1) with (d_fifo d).
    rewrite Hmatch by done. eval_status. rewrite Hcheck.
    unfold finish_fill. rewrite Hu. rewrite <-free_cell_bump. fold d1.
    eapply (resetEntry_refines d1); [by apply (wf_lru_list d)|by apply (wf_fifo_list d)
      |exact Hu|done|]. apply (wf_index _ Hwf). eauto.
  - destruct Hlease as (Hidx & Hdata & Hactive).
    cbn [activeFallbackAccesses concrete]. rewrite (proj2 (N.eqb_neq _ _) Hactive). cbn [negb].
    eapply refines_bind; [|apply refines_ret]. by apply refines_assign.
Qed.

(** ** Reset and failure *)

Lemma forallb_imap {A B} (f : B → bool) (g : nat → A → B) (h : A → bool) (l : list A) :
  (∀ n x, f (g n x) = h x) → forallb f (imap g l) = forallb h l.
Proof.
  intros Heq. revert g Heq. induction l as [|x l IH]; intros g Heq; [done|].
  simpl. rewrite Heq. f_equal. apply IH. intros n y. apply (Heq (S n)).
Qed.

Lemma canResetLocked_concrete d t : canResetLocked (concrete d t) = can_reset d.
Proof.
  unfold canResetLocked, can_reset. simpl.
  destruct (N.eqb_spec (d_fallbacks d) 0), (N.eqb_spec (d_waiting d) 0); try done. simpl.
  apply forallb_imap. intros n [q u]. unfold cell_entry. destruct u as [| |md readers discard]; try done.
  simpl. by rewrite andb_true_r.
Qed.

Definition freed (cell : Cell) : Cell := mkCell (cell_data cell) Free.

Definition free_first (n : N) (cells : list Cell) : list Cell :=
  imap (λ m cell, if decide (N.of_nat m < n) then freed cell else cell) cells.

Lemma vat_free_first n cells i :
  vat (free_first n cells) i =
    (λ cell, if decide (i < n) then freed cell else cell) <$> vat cells i.
Proof. unfold free_first. by rewrite !vat_lookup, list_lookup_imap, N2Nat.id. Qed.

Lemma free_first_vset n cells cell :
  vat cells n = Some cell →
  free_first n (vset cells n (freed cell)) = free_first (n + 1) cells.
Proof.
  intros Hn. apply vat_ext. intros i. rewrite !vat_free_first, vat_vset.
  destruct (decide (n = i)) as [<-|Hne].
  - rewrite decide_True by (split; [done|by eapply vat_lt]). rewrite Hn. simpl.
    by rewrite decide_False, decide_True by lia.
  - rewrite decide_False by naive_solver. destruct (vat cells i); [|done]. simpl.
    repeat case_decide; done || lia.
Qed.

Lemma free_first_0 cells : free_first 0 cells = cells.
Proof.
  apply vat_ext. intros i. rewrite vat_free_first. destruct (vat cells i); [|done]. simpl.
  by rewrite decide_False by lia.
Qed.

Lemma free_first_all cells : free_first (vsize cells) cells = freed <$> cells.
Proof.
  apply vat_ext. intros i. rewrite vat_free_first, vat_fmap.
  destruct (vat cells i) eqn:Hi; [|done]. simpl. by rewrite decide_True by (by eapply vat_lt).
Qed.

Definition unlink_first (n : N) (links : N → link) : N → link :=
  λ i, if decide (i < n) then no_link else links i.

Lemma unlink_first_insert (n : nat) links i :
  unlink_first (N.of_nat n) (<[N.of_nat n := no_link]> links) i
  = unlink_first (N.of_nat (S n)) links i.
Proof.
  unfold unlink_first. destruct (decide (i = N.of_nat n)) as [->|Hne].
  - rewrite decide_False, decide_True by lia. apply fn_lookup_insert.
  - rewrite fn_lookup_insert_ne by done. repeat case_decide; done || lia.
Qed.

(** The loop frees the first [n] cells, from the last one down. *)
Lemma resetEntries_loop_run n d t ev fi h1 h2 h3 h4 :
  (n ≤ length (d_cells d))%nat →
  resetEntries_loop n (laid d t ev fi h1 h2 h3 h4) =
    Some ((), laid (d <| d_cells := free_first (N.of_nat n) (d_cells d) |>
                      <| d_free := d_free d ++ (N.of_nat <$> reverse (seq 0 n)) |>) t
                (unlink_first (N.of_nat n) ev) (unlink_first (N.of_nat n) fi) h1 h2 h3 h4).
Proof.
  revert d ev fi. induction n as [|n IH]; intros d ev fi Hn.
  - simpl. unfold mret, M_ret, laid. simpl. rewrite app_nil_r, free_first_0.
    do 2 f_equal. f_equal. apply entries_of_ext. intros j _. unfold unlink_first.
    by rewrite !decide_False by lia.
  - rewrite seq_S, reverse_snoc. simpl resetEntries_loop. destruct (vat_exists (d_cells d) (N.of_nat n)) as [cell Hcell].
    { unfold vsize. lia. }
    erewrite bind_Some by (eapply (entry_assign_laid _ _ _ _ _ _ _ _ _ _ _ (freed cell) no_link no_link);
      [done|apply clearEntry_cell]).
    erewrite bind_Some by done.
    set (d1 := d <| d_cells := vset (d_cells d) (N.of_nat n) (freed cell) |>
                 <| d_free := d_free d ++ [N.of_nat n] |>).
    erewrite (eq_trans (y := resetEntries_loop n (laid d1 t (<[N.of_nat n:=no_link]> ev)
      (<[N.of_nat n:=no_link]> fi) h1 h2 h3 h4))); [done|done|]. rewrite IH.
    2: { change (n ≤ length (vset (d_cells d) (N.of_nat n) (freed cell)))%nat.
         rewrite vset_insert, length_insert. lia. }
    unfold laid, d1. simpl. rewrite free_first_vset by done.
    rewrite N.add_1_r, <-Nat2N.inj_succ, <-app_assoc.
    do 2 f_equal. f_equal. apply entries_of_ext. intros j _. by rewrite !unlink_first_insert.
Qed.

Lemma resetEntriesLocked_refines d : refines resetEntriesLocked d () (drop_payloads d).
Proof.
  intros t [Hrep Hlim]. destruct (table_clear_spec _ _ Hrep) as (Hclear & _ & Hlim').
  exists (table_clear t). split; [|split; [exact Hclear|]].
  2: { rewrite Hlim', Hlim. unfold drop_payloads. simpl. by rewrite vsize_fmap. }
  unfold resetEntriesLocked. erewrite bind_Some by done.
  rewrite (bind_Some this_cache _ _ _ _ eq_refl).
  match goal with |- resetEntries_loop _ ?c = _ =>
    assert (c = laid (d <| d_free := [] |>) (table_clear t) (link_of (d_lru d))
      (link_of (d_fifo d)) NO_ENTRY NO_ENTRY NO_ENTRY NO_ENTRY) as -> by done
  end.
  replace (length (entries (laid _ _ _ _ _ _ _ _))) with (length (d_cells d))
    by (symmetry; apply length_imap).
  rewrite resetEntries_loop_run by done.
  unfold laid, concrete, drop_payloads. simpl. do 2 f_equal.
    change (N.of_nat (length (d_cells d))) with (vsize (d_cells d)).
    rewrite free_first_all. f_equal. apply entries_of_ext. intros i. rewrite vsize_fmap.
    intros Hi. unfold unlink_first. by rewrite !decide_True.
Qed.

Lemma resetCache_refines d (output : option CacheStatistics) :
  if negb (d_failed d) && can_reset d
  then refines (resetCache output) d (true, (λ _, d_stats d) <$> output) (reset_directory d)
  else refines (resetCache output) d (false, output) d.
Proof.
  destruct (negb (d_failed d) && can_reset d) eqn:Hok; apply refines_this; intros t Ht;
    rewrite canResetLocked_concrete;
    replace (negb (cache_initialized (concrete d t)) || releasing (concrete d t)
             || failed (concrete d t) || negb (can_reset d))
      with (negb (negb (d_failed d) && can_reset d))
      by (simpl; by destruct (d_failed d)); rewrite Hok; [|apply refines_ret].
  cbn [negb]. eapply refines_bind;
    [by apply (refines_assign _ _ (d <| d_stats := CacheStatistics_default |>))|].
  eapply refines_bind; [apply resetEntriesLocked_refines|]. destruct output; apply refines_ret.
Qed.

Lemma noteSyncFailure_refines d : refines noteSyncFailure d () (sync_failure d).
Proof.
  eapply refines_bind; [apply refines_count|].
  eapply refines_bind; [|apply refines_notify]. by apply refines_assign.
Qed.

End completion.

(** ** Well-formedness *)
Section completion_wf.
Implicit Types (d : Directory) (i j : N) (u : usage).

Lemma wf_bump {T} (counter : CacheStatistics → T) `{!Setter counter} f d :
  wf d → wf (bump counter f d).
Proof. intros Hwf. by apply (wf_same d). Qed.

Lemma free_cell_wf d i u md :
  wf d → use_at d i = Some u → resident_md u = Some md → wf (free_cell i (md_key md) d).
Proof.
  intros Hwf Hu Hmd. destruct (use_at_Some _ _ _ Hu) as [q Hq].
  assert (d_index d !! md_key md = Some i) as Hk by (apply (wf_index _ Hwf); eauto).
  assert (i ∉ d_free d) as Hfree.
  { rewrite (wf_free _ Hwf), Hu. intros [= ->]. done. }
  apply (changes_cell_wf d _ i u Free); [done..|]. unfold free_cell.
  rewrite (set_use_cells _ i q u) by done. split; simpl; try done.
  - by rewrite (set_use_cells _ i q u).
  - apply NoDup_unlink, Hwf.
  - intros j Hj. rewrite elem_of_unlink. naive_solver.
  - rewrite elem_of_unlink. naive_solver.
  - apply NoDup_unlink, Hwf.
  - intros j Hj. rewrite elem_of_unlink. naive_solver.
  - rewrite elem_of_unlink. naive_solver.
  - apply NoDup_app. split; [apply Hwf|]. split; [|apply NoDup_singleton].
    intros j Hj ->%list_elem_of_singleton. done.
  - intros j Hj. rewrite elem_of_app, list_elem_of_singleton. naive_solver.
  - rewrite elem_of_app, list_elem_of_singleton. naive_solver.
  - intros k j Hj. rewrite lookup_delete_Some. split; [naive_solver|].
    intros Hkj. split; [|done]. intros <-. congruence.
  - intros k. split; [|naive_solver]. intros Hkd. by destruct (delete_not_indexed d i (md_key md) k).
Qed.

(** A cell that turns idle is appended to the eviction order. *)
Lemma idle_wf d i u md :
  wf d → use_at d i = Some u → resident_md u = Some md → i ∉ d_lru d →
  (i ∈ d_fifo d ↔ d_policy d = FIFO) →
  wf (make_evictable i (set_use i (Ready md 0 false) d)).
Proof.
  intros Hwf Hu Hmd Hl Hf. destruct (use_at_Some _ _ _ Hu) as [q Hq].
  apply (changes_cell_wf d _ i u (Ready md 0 false)); [done..|].
  rewrite (set_use_cells _ i q u) by done. split; simpl; try done.
  - by rewrite (set_use_cells _ i q u).
  - apply NoDup_app. split; [apply Hwf|]. split; [|apply NoDup_singleton].
    intros j Hj ->%list_elem_of_singleton. done.
  - intros j Hj. rewrite elem_of_app, list_elem_of_singleton. naive_solver.
  - rewrite elem_of_app, list_elem_of_singleton. naive_solver.
  - apply Hwf.
  - rewrite Hf. naive_solver.
  - apply Hwf.
  - rewrite (wf_free _ Hwf), Hu. split; [by intros [= ->]|done].
  - intros k. rewrite (wf_index _ Hwf), Hu. naive_solver.
Qed.

(** A published fill joins the eviction order, and under FIFO the fill order. *)
Lemma publish_wf d i md :
  wf d → use_at d i = Some (Reserved md) →
  wf (make_evictable i (make_filled i (set_use i (Ready md 0 false) d))).
Proof.
  intros Hwf Hu. destruct (use_at_Some _ _ _ Hu) as [q Hq].
  destruct (reserved_not_listed _ _ _ Hwf Hu) as [Hl Hf].
  apply (changes_cell_wf d _ i (Reserved md) (Ready md 0 false)); [done..|].
  unfold make_filled. rewrite (set_use_cells _ i q (Reserved md)) by done. simpl.
  assert (∀ l, i ∉ l → NoDup l → NoDup (l ++ [i])) as Hsnoc.
  { intros l Hi Hnd. apply NoDup_app. split; [done|]. split; [|apply NoDup_singleton].
    by intros j Hj ->%list_elem_of_singleton. }
  destruct (policy_eqb (d_policy d) FIFO) eqn:Hpol; split; simpl; try done;
    try (by rewrite (set_use_cells _ i q (Reserved md)));
    try (apply Hsnoc; [done|apply Hwf]); try apply Hwf;
    try (intros j Hj; rewrite elem_of_app, list_elem_of_singleton; naive_solver);
    try (rewrite (wf_free _ Hwf), Hu; naive_solver);
    try (intros k; rewrite (wf_index _ Hwf), Hu; naive_solver);
    rewrite ?elem_of_app, ?list_elem_of_singleton; try naive_solver.
  - apply policy_eqb_FIFO in Hpol. naive_solver.
  - split; [done|]. intros [Hp _]. apply policy_eqb_FIFO in Hp. congruence.
Qed.

Lemma finish_fill_wf d i succeeded discardNow :
  wf d → wf (finish_fill i succeeded discardNow d).
Proof.
  intros Hwf. unfold finish_fill. destruct (use_at d i) as [[|md|]|] eqn:Hu; try done.
  pose proof (free_cell_wf d i _ md Hwf Hu eq_refl) as Hfree.
  pose proof (publish_wf d i md Hwf Hu) as Hpub.
  destruct succeeded, discardNow; repeat apply wf_bump; done.
Qed.

Lemma finish_hit_wf d i discardNow :
  wf d → (∀ md readers discard, use_at d i = Some (Ready md readers discard) → readers ≠ 0) →
  wf (finish_hit i discardNow d).
Proof.
  intros Hwf Hr. unfold finish_hit. destruct (use_at d i) as [[| |md readers discard]|] eqn:Hu; try done.
  specialize (Hr _ _ _ eq_refl). destruct (use_at_Some _ _ _ Hu) as [q Hq].
  pose proof (wf_readers _ Hwf _ _ _ _ Hu) as Hlt.
  pose proof (not_idle_not_evictable _ _ _ _ _ Hwf Hu Hr) as Hl.
  destruct (N.eqb_spec (dec64 readers) 0) as [Hz|Hz]; cbn [negb].
  - rewrite Hz. destruct (discard || discardNow).
    + rewrite (free_cell_set_use _ _ _ _ _ Hu).
      apply wf_bump. by eapply free_cell_wf.
    + apply (idle_wf d i _ md Hwf Hu); [done..|]. rewrite (wf_fifo _ Hwf). naive_solver.
  - rewrite dec64_small in * by lia.
    apply (changes_cell_wf d _ i _ (Ready md (readers - 1) (discard || discardNow)) Hwf Hu).
    rewrite (set_use_cells _ _ _ _ _ Hq). split; simpl; try apply Hwf; try done.
    + by rewrite (set_use_cells _ _ _ _ _ Hq).
    + split; [lia|]. intros _. lia.
    + split; [done|]. intros (? & ? & [=]). lia.
    + rewrite (wf_fifo _ Hwf). naive_solver.
    + rewrite (wf_free _ Hwf), Hu. done.
    + intros k. rewrite (wf_index _ Hwf), Hu. naive_solver.
Qed.

Lemma end_access_wf d a succeeded discardNow :
  wf d → holds_lease d a → wf (end_access a succeeded discardNow d).
Proof.
  intros Hwf (_ & _ & _ & Hlease). unfold end_access.
  destruct (accessStatus a); [done| |by apply finish_fill_wf|by eapply wf_same].
  destruct Hlease as (md & readers & discard & Hq & _ & Hr).
  apply finish_hit_wf; [done|]. rewrite (use_at_vat _ _ _ _ Hq). naive_solver.
Qed.

Lemma drop_payloads_wf d : wf d → wf (drop_payloads d).
Proof.
  intros Hwf. assert (∀ i, use_at (drop_payloads d) i = (λ _, Free) <$> vat (d_cells d) i) as Huse.
  { intros i. unfold use_at. simpl. rewrite vat_fmap. by destruct (vat (d_cells d) i). }
  split; simpl; try (intros * ; rewrite Huse; by destruct (vat (d_cells d) _));
    try apply NoDup_nil_2; try apply Hwf.
  - rewrite vsize_fmap. apply Hwf.
  - intros i cell. rewrite vat_fmap. intros (c & Hc & ->)%fmap_Some.
    exact (wf_data _ Hwf i c Hc).
  - intros i. rewrite Huse, elem_of_nil. destruct (vat (d_cells d) i); naive_solver.
  - intros i. rewrite Huse, elem_of_nil. destruct (vat (d_cells d) i); naive_solver.
  - apply NoDup_fmap_2; [apply _|]. rewrite reverse_Permutation. apply NoDup_seq.
  - intros i. rewrite Huse, list_elem_of_fmap. split.
    + intros (n & -> & Hn). rewrite elem_of_reverse, elem_of_seq in Hn.
      destruct (vat_exists (d_cells d) (N.of_nat n)) as [c ->]; [unfold vsize; lia|done].
    + intros (c & Hc & _)%fmap_Some. apply vat_lt in Hc. exists (N.to_nat i).
      split; [lia|]. rewrite elem_of_reverse, elem_of_seq. unfold vsize in Hc. lia.
  - intros k i. rewrite lookup_empty, Huse. destruct (vat (d_cells d) i); naive_solver.
Qed.

End completion_wf.
