(* ===== verification/CacheLeases.v ===== *)
(** The leases that are out: which accesses and sleeping requests a directory
    has granted and not yet taken back, and that every operation keeps the
    account.  [agree d live asleep] says that [live] are the unfinished accesses
    of [d] and [asleep] its waiting requests: each cell counts exactly its
    readers, a reserved cell has exactly one fill, and every access still
    describes the cell it leases. *)
From S2P Require Import Prelude.
From S2P Require Import Platform.
From S2P Require Import GpuDataKey.
From S2P Require Import GpuResidencyTable.
From S2P Require Import GpuDataCacheEntry.
From S2P Require Import IntrusiveList.
From S2P Require Import CacheTypes.
From S2P Require Import GpuDataCache.
From S2P Require Import CacheSpec.
From S2P Require Import CacheRefinement.
From S2P Require Import CacheCriticalSections.
From S2P Require Import CacheLookup.
From S2P Require Import CacheCompletion.
From S2P Require Import GpuDataAccess.
#[local] Open Scope N_scope.

(** ** Counting leases *)

Definition leases_of (status : CacheStatus) (i : N) (a : GpuDataAccess) : bool :=
  status_eqb (accessStatus a) status && (entryIndex a =? i).

Fixpoint tally (f : GpuDataAccess → bool) (live : list GpuDataAccess) : N :=
  match live with
  | [] => 0
  | a :: live => (if f a then 1 else 0) + tally f live
  end.

Definition readers_of (i : N) (live : list GpuDataAccess) : N := tally (leases_of CacheHit i) live.
Definition fills_of (i : N) (live : list GpuDataAccess) : N := tally (leases_of CacheFill i) live.
Definition fallbacks_of (live : list GpuDataAccess) : N :=
  tally (λ a, status_eqb (accessStatus a) TaskFallback) live.

Definition expected_readers (u : option usage) : N :=
  match u with Some (Ready _ readers _) => readers | _ => 0 end.
Definition expected_fills (u : option usage) : N :=
  match u with Some (Reserved _) => 1 | _ => 0 end.

(** What a lease says about its cell. *)
Definition describes (d : Directory) (a : GpuDataAccess) : Prop :=
  owner a = d_self d ∧ access_dataBytes a = d_bytes d ∧ deviceId a = d_gpu d ∧
  match accessStatus a with
  | Invalid => False
  | TaskFallback => entryIndex a = NO_ENTRY ∧ d_data a ≠ nullptr
  | CacheHit | CacheFill =>
      ∃ u md, vat (d_cells d) (entryIndex a) = Some (mkCell (d_data a) u)
        ∧ resident_md u = Some md ∧ md_key md = dataKey a
  end.

Record agree (d : Directory) (live : list GpuDataAccess) (asleep : list PendingRequest) : Prop := {
  agree_self : d_self d ≠ nullptr;
  agree_describes a : a ∈ live → describes d a;
  agree_readers i : readers_of i live = expected_readers (use_at d i);
  agree_fills i : fills_of i live = expected_fills (use_at d i);
  agree_fallbacks : d_fallbacks d = fallbacks_of live;
  agree_waiting : d_waiting d = vsize asleep;
  agree_requests p : p ∈ asleep → valid_request (pending_metadata p) (pending_request p) d = true;
  agree_room : vsize live < two64 ∧ vsize asleep < two64;
}.

Section tallies.
Implicit Types (live : list GpuDataAccess) (a : GpuDataAccess) (f : GpuDataAccess → bool).

Lemma tally_le f live : tally f live ≤ vsize live.
Proof.
  unfold vsize. induction live as [|a live IH]; simpl; [lia|]. destruct (f a); lia.
Qed.

Lemma tally_in f live a : a ∈ live → f a = true → 1 ≤ tally f live.
Proof.
  induction 1 as [|a b live Ha IH]; intros Hf; simpl; [rewrite Hf; lia|].
  specialize (IH Hf). lia.
Qed.

Lemma tally_zero f live : (∀ a, a ∈ live → f a = false) → tally f live = 0.
Proof.
  induction live as [|a live IH]; intros Hf; [done|]. simpl.
  rewrite Hf by left. rewrite IH; [done|]. intros b Hb. apply Hf. by right.
Qed.

Lemma tally_pos f live : tally f live ≠ 0 → ∃ a, a ∈ live ∧ f a = true.
Proof.
  induction live as [|a live IH]; simpl; [done|]. destruct (f a) eqn:Hf; intros Hne.
  - exists a. split; [left|done].
  - destruct IH as (b & Hb & ?); [lia|]. exists b. split; [by right|done].
Qed.

Lemma tally_perm f live live' : live ≡ₚ live' → tally f live = tally f live'.
Proof. induction 1; simpl; lia. Qed.

Lemma leases_of_spec status i a :
  leases_of status i a = true ↔ accessStatus a = status ∧ entryIndex a = i.
Proof.
  unfold leases_of, status_eqb. by rewrite andb_true_iff, bool_decide_eq_true, N.eqb_eq.
Qed.

End tallies.

Section agreement.
Implicit Types (d : Directory) (live : list GpuDataAccess) (asleep : list PendingRequest)
  (a : GpuDataAccess) (i : N).

Lemma agree_perm d live live' asleep asleep' :
  live ≡ₚ live' → asleep ≡ₚ asleep' → agree d live asleep → agree d live' asleep'.
Proof.
  intros Hl Ha [Hs Hd Hr Hf Hfb Hw Hq Hroom].
  assert (vsize live' = vsize live ∧ vsize asleep' = vsize asleep) as [Hlen Hlen']
    by (unfold vsize; by rewrite Hl, Ha).
  split; try done.
  - intros a. rewrite <-Hl. auto.
  - intros i. rewrite <-Hr. unfold readers_of. symmetry. by apply tally_perm.
  - intros i. rewrite <-Hf. unfold fills_of. symmetry. by apply tally_perm.
  - rewrite Hfb. by apply tally_perm.
  - by rewrite Hw, Hlen'.
  - intros p. rewrite <-Ha. auto.
  - by rewrite Hlen, Hlen'.
Qed.

(** A live access is a held lease. *)
Lemma agree_holds d live asleep a : agree d live asleep → a ∈ live → holds_lease d a.
Proof.
  intros Hag Ha. destruct (agree_describes _ _ _ Hag a Ha) as (Ho & Hb & Hg & Hm).
  split_and!; [done..|]. destruct (accessStatus a) eqn:Hstatus; [done| | |].
  - destruct Hm as (u & md & Hq & Hmd & Hkey).
    assert (1 ≤ readers_of (entryIndex a) live) as Hone
      by (eapply tally_in; [done|by apply leases_of_spec]).
    rewrite (agree_readers _ _ _ Hag), (use_at_vat _ _ _ _ Hq) in Hone.
    destruct u as [|md'|md' readers discard]; simpl in *; simplify_eq; try lia.
    exists md, readers, discard. split_and!; [done..|lia].
  - destruct Hm as (u & md & Hq & Hmd & Hkey).
    assert (1 ≤ fills_of (entryIndex a) live) as Hone
      by (eapply tally_in; [done|by apply leases_of_spec]).
    rewrite (agree_fills _ _ _ Hag), (use_at_vat _ _ _ _ Hq) in Hone.
    destruct u as [|md'|md' readers discard]; simpl in *; simplify_eq; try lia.
    by exists md.
  - destruct Hm as [Hi Hd]. split_and!; [done..|].
    rewrite (agree_fallbacks _ _ _ Hag).
    assert (1 ≤ fallbacks_of live); [|lia]. eapply tally_in; [done|].
    rewrite Hstatus. done.
Qed.

(** A cell nobody leases is described by no live access. *)
Lemma agree_unleased d live asleep a i :
  agree d live asleep → a ∈ live → accessStatus a = CacheHit ∨ accessStatus a = CacheFill →
  expected_readers (use_at d i) = 0 → expected_fills (use_at d i) = 0 → entryIndex a ≠ i.
Proof.
  intros Hag Ha Hst Hr Hf <-.
  rewrite <-(agree_readers _ _ _ Hag) in Hr. rewrite <-(agree_fills _ _ _ Hag) in Hf.
  destruct Hst as [Hst|Hst].
  - assert (1 ≤ readers_of (entryIndex a) live); [|lia].
    eapply tally_in; [done|by apply leases_of_spec].
  - assert (1 ≤ fills_of (entryIndex a) live); [|lia].
    eapply tally_in; [done|by apply leases_of_spec].
Qed.

Lemma agree_reader_room d live asleep :
  agree d live asleep → vsize live + 1 < two64 → reader_room d.
Proof.
  intros Hag Hroom i md readers discard Hu.
  pose proof (agree_readers _ _ _ Hag i) as Hr. rewrite Hu in Hr. simpl in Hr.
  pose proof (tally_le (leases_of CacheHit i) live) as Hle. unfold readers_of in Hr. lia.
Qed.

(** Directories that agree on what [agree] reads. *)
Lemma agree_same d d' live asleep :
  agree d live asleep → d_self d' = d_self d → d_gpu d' = d_gpu d → d_bytes d' = d_bytes d →
  d_cells d' = d_cells d → d_fallbacks d' = d_fallbacks d → d_waiting d' = d_waiting d →
  agree d' live asleep.
Proof.
  intros [] Hs Hg Hb Hc Hf Hw. unfold describes, use_at, valid_request in *.
  split; unfold describes, use_at, valid_request; rewrite ?Hs, ?Hg, ?Hb, ?Hc, ?Hf, ?Hw; done.
Qed.

End agreement.

(** ** Granting a lease *)
Section granting.
Implicit Types (d : Directory) (live : list GpuDataAccess) (asleep : list PendingRequest)
  (a : GpuDataAccess) (i : N) (p : PendingRequest).

(** What the caller of a lookup is left with. *)
Definition granted (r : LookupResult) live : list GpuDataAccess :=
  match r with
  | Returned a => if access_bool a then a :: live else live
  | Sleeping _ => live
  end.

Definition sleeping (r : LookupResult) asleep : list PendingRequest :=
  match r with Returned _ => asleep | Sleeping p => p :: asleep end.

Lemma describes_cell d d' a i q u u' :
  describes d a → d_self d' = d_self d → d_gpu d' = d_gpu d → d_bytes d' = d_bytes d →
  vat (d_cells d) i = Some (mkCell q u) → d_cells d' = vset (d_cells d) i (mkCell q u') →
  (accessStatus a = CacheHit ∨ accessStatus a = CacheFill →
   entryIndex a ≠ i ∨ resident_md u' = resident_md u) →
  describes d' a.
Proof.
  intros (Ho & Hb & Hg & Hm) Hs' Hg' Hb' Hq Hcells Hsame. unfold describes.
  rewrite Hs', Hg', Hb'. split_and!; [done..|].
  assert (∀ u0 md, vat (d_cells d) (entryIndex a) = Some (mkCell (d_data a) u0) →
    resident_md u0 = Some md → (entryIndex a ≠ i ∨ resident_md u' = resident_md u) →
    ∃ u1, vat (d_cells d') (entryIndex a) = Some (mkCell (d_data a) u1)
      ∧ resident_md u1 = Some md) as Hcell.
  { intros u0 md Hq0 Hmd Hor. rewrite Hcells. destruct (decide (entryIndex a = i)) as [Heq|Hne].
    - rewrite Heq in *. simplify_eq. rewrite vat_vset_eq by (by eapply vat_lt).
      exists u'. split; [done|]. destruct Hor as [?|Hor]; [done|]. congruence.
    - rewrite vat_vset_ne by done. eauto. }
  destruct (accessStatus a); [done| | |done];
    destruct Hm as (u0 & md & Hq0 & Hmd & Hkey);
    destruct (Hcell u0 md) as (u1 & ? & ?); eauto 10.
Qed.

(** One cell and the leases on it change. *)
Lemma agree_cell d d' live live' asleep i q u u' :
  agree d live asleep →
  d_self d' = d_self d → d_gpu d' = d_gpu d → d_bytes d' = d_bytes d →
  d_waiting d' = d_waiting d → d_fallbacks d' = d_fallbacks d →
  vat (d_cells d) i = Some (mkCell q u) → d_cells d' = vset (d_cells d) i (mkCell q u') →
  (∀ a, a ∈ live' → describes d' a) →
  (∀ j, j ≠ i → readers_of j live' = readers_of j live ∧ fills_of j live' = fills_of j live) →
  readers_of i live' = expected_readers (Some u') →
  fills_of i live' = expected_fills (Some u') →
  fallbacks_of live' = fallbacks_of live → vsize live' < two64 →
  agree d' live' asleep.
Proof.
  intros Hag Hs Hg Hb Hw Hfb Hq Hcells Hdesc Hother Hr Hf Hfall Hroom.
  assert (∀ j, use_at d' j = if decide (i = j) then Some u' else use_at d j) as Huse.
  { intros j. unfold use_at. rewrite Hcells, vat_vset. destruct (decide (i = j)) as [->|].
    - by rewrite decide_True by (split; [done|by eapply vat_lt]).
    - by rewrite decide_False by naive_solver. }
  destruct Hag as [Hself Hd Hrd Hfl Hfa Hwa Hreq [_ Hroom']]. split.
  - by rewrite Hs.
  - done.
  - intros j. rewrite Huse. case_decide; [by subst|]. rewrite <-Hrd. by apply Hother.
  - intros j. rewrite Huse. case_decide; [by subst|]. rewrite <-Hfl. by apply Hother.
  - by rewrite Hfb, Hfa.
  - by rewrite Hw.
  - intros p Hp. rewrite <-(Hreq p Hp). unfold valid_request. by rewrite Hg, Hb.
  - done.
Qed.

(** *** The outcomes of an evaluation *)

Lemma fallback_agree md request reason d live asleep :
  agree d live asleep → valid_request md request d = true → vsize live + 1 < two64 →
  agree (snd (fallback md request reason d))
    (granted (fst (fallback md request reason d)) live) asleep.
Proof.
  intros Hag Hvalid Hroom. unfold valid_request in Hvalid.
  repeat (apply andb_prop in Hvalid as [Hvalid ?]).
  assert (fallbacks_of live + 1 < two64).
  { pose proof (tally_le (λ a, status_eqb (accessStatus a) TaskFallback) live).
    unfold fallbacks_of. lia. }
  simpl. unfold access_bool. simpl.
  rewrite (proj2 (N.eqb_neq _ _) (agree_self _ _ _ Hag)). cbn [negb].
  pose proof Hag as [Hself Hd Hrd Hfl Hfa Hwa Hreq [_ Hroom']].
  split; try done.
  - intros a [->|Ha]%elem_of_cons; [|by apply Hd].
    split_and!; try done; simpl.
    + by apply Z.eqb_eq.
    + split; [done|]. by apply N.eqb_neq, negb_true_iff.
  - simpl. rewrite inc64_small, Hfa by lia. unfold fallbacks_of. simpl. lia.
  - rewrite vsize_cons. split; [lia|done].
Qed.

Lemma obstructed_agree o p now waitStarted d live asleep :
  agree d live asleep → valid_request (pending_metadata p) (pending_request p) d = true →
  vsize live + 1 < two64 → vsize asleep + 1 < two64 →
  let r := obstructed o p now waitStarted d in
  agree (snd r) (granted (fst r) live) (sleeping (fst r) asleep).
Proof.
  intros Hag Hvalid Hroom Hroom' r. unfold r, obstructed.
  set (d1 := if pending_blocked p then d else count_obstacle o d).
  assert (agree d1 live asleep) as Hag1
    by (unfold d1; destruct (pending_blocked p), o; try done; by eapply agree_same).
  assert (valid_request (pending_metadata p) (pending_request p) d1 = true) as Hvalid1
    by (unfold d1; by destruct (pending_blocked p), o).
  destruct ((d_waitTimeout d1 =? 0)%Z || (pending_deadline p <=? now)%Z).
  - pose proof (fallback_agree (pending_metadata p) (pending_request p)
      (obstacle_reason o (d_waitTimeout d1 =? 0)%Z) d1 live asleep) as Hfb.
    by apply Hfb.
  - simpl. set (d2 := if pending_waited p then d1 else bump stat_waitedRequests inc64 d1).
    assert (agree d2 live asleep) as [Hself Hd Hrd Hfl Hfa Hwa Hreq [Hrm Hrm']]
      by (unfold d2; destruct (pending_waited p); try done; by eapply agree_same).
    assert (valid_request (pending_metadata p) (pending_request p) d2 = true) as Hvalid2
      by (unfold d2; by destruct (pending_waited p)).
    split; simpl; try done.
    + rewrite Hwa, vsize_cons, inc64_small by lia. lia.
    + intros p' [->|Hp']%elem_of_cons; [done|by apply Hreq].
    + rewrite vsize_cons. split; [done|lia].
Qed.

Lemma leases_of_other status i j a :
  entryIndex a = i → j ≠ i → leases_of status j a = false.
Proof.
  intros <- Hj. apply not_true_is_false. intros [_ Heq]%leases_of_spec. by apply Hj.
Qed.

(** A new lease on cell [i]. *)
Lemma grant_agree d d' a live asleep i q u u' :
  agree d live asleep →
  d_self d' = d_self d → d_gpu d' = d_gpu d → d_bytes d' = d_bytes d →
  d_waiting d' = d_waiting d → d_fallbacks d' = d_fallbacks d →
  vat (d_cells d) i = Some (mkCell q u) → d_cells d' = vset (d_cells d) i (mkCell q u') →
  entryIndex a = i → describes d' a →
  (accessStatus a = CacheHit ∧ resident_md u' = resident_md u
     ∧ expected_readers (Some u') = expected_readers (Some u) + 1
     ∧ expected_fills (Some u') = expected_fills (Some u)
   ∨ accessStatus a = CacheFill
     ∧ expected_readers (Some u) = 0 ∧ expected_fills (Some u) = 0
     ∧ expected_readers (Some u') = 0 ∧ expected_fills (Some u') = 1) →
  vsize live + 1 < two64 →
  agree d' (a :: live) asleep.
Proof.
  intros Hag Hs Hg Hb Hw Hfb Hq Hcells Hi Hdesc Hst Hroom.
  pose proof (agree_readers _ _ _ Hag i) as Hrd. pose proof (agree_fills _ _ _ Hag i) as Hfl.
  rewrite (use_at_vat _ _ _ _ Hq) in Hrd, Hfl.
  assert (status_eqb (accessStatus a) TaskFallback = false) as Hnf
    by (by destruct Hst as [(-> & _)|(-> & _)]).
  eapply (agree_cell d d'); [done..| | | | | |].
  - intros b [->|Hb']%elem_of_cons; [done|].
    eapply describes_cell; [by eapply agree_describes|done..|].
    intros Hsb. destruct Hst as [(_ & Hmd & _)|(_ & Hr & Hf & _)]; [by right|left].
    eapply agree_unleased; [done..| |]; by rewrite (use_at_vat _ _ _ _ Hq).
  - intros j Hj. unfold readers_of, fills_of. simpl. by rewrite !(leases_of_other _ i j).
  - unfold readers_of in *. cbn [tally]. unfold leases_of at 1. rewrite Hi, N.eqb_refl, Hrd.
    destruct Hst as [(-> & _ & Heq & _)|(-> & Hr & _ & Hr' & _)]; rewrite ?Hr, ?Hr', ?Heq; eval_status; lia.
  - unfold fills_of in *. cbn [tally]. unfold leases_of at 1. rewrite Hi, N.eqb_refl, Hfl.
    destruct Hst as [(-> & _ & _ & Heq)|(-> & _ & Hf & _ & Hf')]; rewrite ?Hf, ?Hf', ?Heq; eval_status; lia.
  - unfold fallbacks_of. simpl. by rewrite Hnf.
  - rewrite vsize_cons. lia.
Qed.

Lemma reserve_frame d i wasEmpty md q u :
  vat (d_cells d) i = Some (mkCell q u) →
  let d' := reserve i wasEmpty md d in
  d_self d' = d_self d ∧ d_gpu d' = d_gpu d ∧ d_bytes d' = d_bytes d
  ∧ d_waiting d' = d_waiting d ∧ d_fallbacks d' = d_fallbacks d
  ∧ d_cells d' = vset (d_cells d) i (mkCell q (Reserved md)).
Proof.
  intros Hq d'. unfold d', reserve.
  rewrite (set_use_cells _ i q u) by (simpl; by rewrite take_victim_cells).
  by destruct wasEmpty.
Qed.

Lemma attempt_agree p now waitStarted d live asleep :
  wf d → agree d live asleep →
  valid_request (pending_metadata p) (pending_request p) d = true →
  vsize live + 1 < two64 → vsize asleep + 1 < two64 →
  let r := attempt p now waitStarted d in
  agree (snd r) (granted (fst r) live) (sleeping (fst r) asleep).
Proof.
  intros Hwf Hag Hvalid Hroom Hroom' r.
  assert (agree (snd (reject d)) (granted (fst (reject d)) live) (sleeping (fst (reject d)) asleep))
    as Hreject by (by eapply agree_same).
  assert (request_gpuId (pending_request p) = d_gpu d) as Hgpu.
  { unfold valid_request in Hvalid. repeat (apply andb_prop in Hvalid as [Hvalid ?]).
    by apply Z.eqb_eq. }
  pose proof (agree_self _ _ _ Hag) as Hself. apply N.eqb_neq in Hself.
  unfold r, attempt. destruct (d_failed d); [done|].
  destruct (d_index d !! md_key (pending_metadata p)) as [i|] eqn:Hk.
  - destruct (vat (d_cells d) i) as [[q [|md|md readers discard]]|] eqn:Hq; try done.
    + case_decide; [by apply obstructed_agree|done].
    + case_decide; [subst md|done]. simpl. unfold access_bool. simpl. rewrite Hself. cbn [negb].
      pose proof (agree_reader_room _ _ _ Hag Hroom i) as Hrr.
      specialize (Hrr _ _ _ (use_at_vat _ _ _ _ Hq)).
      rewrite (set_use_cells _ i q (Ready (pending_metadata p) readers discard)) by done.
      eapply (grant_agree d); [done..| |left|done].
      * split_and!; simpl; try done. rewrite vat_vset_eq by (by eapply vat_lt). eauto.
      * split_and!; try done. simpl. by rewrite inc64_small.
  - destruct (victim d) as [[i wasEmpty]|] eqn:Hv.
    + destruct (victim_cell _ _ _ Hwf Hv) as (q & u & Hq & _ & Hu). rewrite Hq.
      simpl. unfold access_bool. simpl. rewrite Hself. cbn [negb].
      destruct (reserve_frame d i wasEmpty (pending_metadata p) q u Hq)
        as (Hs & Hg & Hb & Hw & Hf & Hcells).
      eapply (grant_agree d); [done..| |right|done].
      * split_and!; [by rewrite Hs|by rewrite Hb|by rewrite Hg|]. simpl.
        rewrite Hcells, vat_vset_eq by (by eapply vat_lt). eauto.
      * split; [done|]. destruct wasEmpty; [by subst|]. by destruct Hu as (? & -> & _).
    + destruct (vsize (d_cells d) =? 0); [by apply fallback_agree|by apply obstructed_agree].
Qed.

End granting.

(** ** Taking a lease back *)
Section returning.
Implicit Types (d : Directory) (live : list GpuDataAccess) (asleep : list PendingRequest)
  (a b : GpuDataAccess) (i : N) (p : PendingRequest).

Lemma request_access_agree md request started now waitStarted d live asleep :
  wf d → agree d live asleep → vsize live + 1 < two64 → vsize asleep + 1 < two64 →
  let r := request_access md request started now waitStarted d in
  agree (snd r) (granted (fst r) live) (sleeping (fst r) asleep).
Proof.
  intros Hwf Hag Hroom Hroom' r. unfold r, request_access. case_match eqn:Hok.
  - apply andb_prop in Hok as [_ Hok]. by apply attempt_agree.
  - by eapply agree_same.
Qed.

Lemma end_wait_agree p woken d live asleep :
  agree d live (p :: asleep) → agree (end_wait p woken d) live asleep.
Proof.
  intros [Hself Hd Hrd Hfl Hfa Hwa Hreq [Hr Hr']]. rewrite vsize_cons in *.
  split; try done; simpl.
  - rewrite Hwa, dec64_small by lia. lia.
  - intros p' Hp'. apply (Hreq p'). by right.
  - split; [done|lia].
Qed.

Lemma resume_access_agree p woken now waitStarted d live asleep :
  wf d → agree d live (p :: asleep) → vsize live + 1 < two64 →
  let r := resume_access p woken now waitStarted d in
  agree (snd r) (granted (fst r) live) (sleeping (fst r) asleep).
Proof.
  intros Hwf Hag Hroom.
  pose proof (agree_room _ _ _ Hag) as [_ Hroom']. rewrite vsize_cons in Hroom'.
  apply attempt_agree; [by eapply wf_same|by apply end_wait_agree| |done|lia].
  apply (agree_requests _ _ _ Hag p). left.
Qed.

Lemma unleased live b i :
  readers_of i live = 0 → fills_of i live = 0 → b ∈ live →
  accessStatus b = CacheHit ∨ accessStatus b = CacheFill → entryIndex b ≠ i.
Proof.
  intros Hr Hf Hb Hst <-. destruct Hst as [Hst|Hst].
  - assert (1 ≤ readers_of (entryIndex b) live); [|lia].
    eapply tally_in; [done|by apply leases_of_spec].
  - assert (1 ≤ fills_of (entryIndex b) live); [|lia].
    eapply tally_in; [done|by apply leases_of_spec].
Qed.

(** The last lease counted on a cell is returned, or one of several readers'. *)
Lemma return_agree d d' a live asleep i q u u' :
  agree d (a :: live) asleep →
  d_self d' = d_self d → d_gpu d' = d_gpu d → d_bytes d' = d_bytes d →
  d_waiting d' = d_waiting d → d_fallbacks d' = d_fallbacks d →
  vat (d_cells d) i = Some (mkCell q u) → d_cells d' = vset (d_cells d) i (mkCell q u') →
  entryIndex a = i →
  (accessStatus a = CacheHit
     ∧ expected_readers (Some u) = expected_readers (Some u') + 1
     ∧ (resident_md u' = resident_md u ∨ expected_readers (Some u') = 0)
   ∨ accessStatus a = CacheFill ∧ expected_fills (Some u) = 1
     ∧ expected_readers (Some u) = 0 ∧ expected_readers (Some u') = 0) →
  expected_fills (Some u') = 0 → (accessStatus a = CacheHit → expected_fills (Some u) = 0) →
  agree d' live asleep.
Proof.
  intros Hag Hs Hg Hb Hw Hfb Hq Hcells Hi Hst Hf' Hnofill.
  pose proof (agree_readers _ _ _ Hag i) as Hrd. pose proof (agree_fills _ _ _ Hag i) as Hfl.
  rewrite (use_at_vat _ _ _ _ Hq) in Hrd, Hfl.
  pose proof (agree_room _ _ _ Hag) as [Hroom _]. rewrite vsize_cons in Hroom.
  assert (readers_of i live = expected_readers (Some u') ∧ fills_of i live = 0) as [Hrd' Hfl'].
  { unfold readers_of, fills_of in *. cbn [tally] in Hrd, Hfl.
    unfold leases_of at 1 in Hrd. unfold leases_of at 1 in Hfl.
    rewrite Hi, N.eqb_refl in Hrd, Hfl.
    destruct Hst as [(Hst & Heq & _)|(Hst & Heq & Hr & Hr')]; rewrite Hst in Hrd, Hfl.
    - specialize (Hnofill Hst). revert Hrd Hfl. eval_status. lia.
    - revert Hrd Hfl. eval_status. lia. }
  assert (tally (λ a, status_eqb (accessStatus a) TaskFallback) (a :: live)
    = tally (λ a, status_eqb (accessStatus a) TaskFallback) live) as Hnf
    by (cbn [tally]; by destruct Hst as [(-> & _)|(-> & _)]).
  assert (∀ b, b ∈ live → describes d' b) as Hdesc.
  { intros b Hb'. eapply describes_cell; [|done..|].
    { eapply agree_describes; [done|]. by right. }
    intros Hsb. destruct Hst as [(_ & _ & [?|Hz])|(_ & _ & _ & Hz)]; [by right| |];
      left; apply (unleased live); try done; by rewrite Hrd'. }
  assert (∀ j, j ≠ i → readers_of j live = readers_of j (a :: live)
    ∧ fills_of j live = fills_of j (a :: live)) as Hother.
  { intros j Hj. unfold readers_of, fills_of. cbn [tally]. by rewrite !(leases_of_other _ i j). }
  eapply (agree_cell d d' (a :: live)); try done; [by rewrite Hf'|lia].
Qed.

Lemma finish_hit_frame d i q md readers discard discardNow :
  vat (d_cells d) i = Some (mkCell q (Ready md readers discard)) →
  let d' := finish_hit i discardNow d in
  let discard' := discard || discardNow in
  d_self d' = d_self d ∧ d_gpu d' = d_gpu d ∧ d_bytes d' = d_bytes d
  ∧ d_waiting d' = d_waiting d ∧ d_fallbacks d' = d_fallbacks d
  ∧ d_cells d' = vset (d_cells d) i (mkCell q
      (if (dec64 readers =? 0) && discard' then Free else Ready md (dec64 readers) discard')).
Proof.
  intros Hq d' discard'. unfold d', finish_hit. rewrite (use_at_vat _ _ _ _ Hq). fold discard'.
  destruct (dec64 readers =? 0); cbn [negb andb].
  - destruct discard'.
    + rewrite (free_cell_set_use _ _ _ _ _ (use_at_vat _ _ _ _ Hq)). unfold free_cell.
      by rewrite (set_use_cells _ i q (Ready md readers discard)).
    + by rewrite (set_use_cells _ i q (Ready md readers discard)).
  - by rewrite (set_use_cells _ i q (Ready md readers discard)).
Qed.

Lemma finish_fill_frame d i q md succeeded discardNow :
  vat (d_cells d) i = Some (mkCell q (Reserved md)) →
  let d' := finish_fill i succeeded discardNow d in
  d_self d' = d_self d ∧ d_gpu d' = d_gpu d ∧ d_bytes d' = d_bytes d
  ∧ d_waiting d' = d_waiting d ∧ d_fallbacks d' = d_fallbacks d
  ∧ d_cells d' = vset (d_cells d) i (mkCell q
      (if succeeded && negb discardNow then Ready md 0 false else Free)).
Proof.
  intros Hq d'. unfold d', finish_fill. rewrite (use_at_vat _ _ _ _ Hq). unfold free_cell, make_filled.
  rewrite !(set_use_cells _ i q (Reserved md)) by done.
  destruct succeeded, discardNow; simpl; try done. by destruct (policy_eqb (d_policy d) FIFO).
Qed.

(** Ending a live access leaves the account of the others. *)
Lemma end_access_agree d a live asleep succeeded discardNow :
  wf d → agree d (a :: live) asleep →
  agree (end_access a succeeded discardNow d) live asleep.
Proof.
  intros Hwf Hag. pose proof (agree_holds _ _ _ a Hag ltac:(left)) as (_ & _ & _ & Hlease).
  unfold end_access. destruct (accessStatus a) eqn:Hst; [done| | |].
  - destruct Hlease as (md & readers & discard & Hq & Hkey & Hr).
    pose proof (wf_readers _ Hwf _ _ _ _ (use_at_vat _ _ _ _ Hq)) as Hlt.
    destruct (finish_hit_frame d _ _ _ _ _ discardNow Hq) as (Hs & Hg & Hb & Hw & Hf & Hcells).
    rewrite dec64_small in Hcells by lia.
    eapply (return_agree d); try done; [|by case_match]. left. split; [done|].
    destruct (N.eqb_spec (readers - 1) 0), (discard || discardNow); simpl; (split; [lia|]); auto.
  - destruct Hlease as (md & Hq & Hkey).
    destruct (finish_fill_frame d _ _ _ succeeded discardNow Hq) as (Hs & Hg & Hb & Hw & Hf & Hcells).
    eapply (return_agree d); try done; [|by case_match|by rewrite Hst]. right.
    split_and!; try done. by case_match.
  - destruct Hag as [Hself Hd Hrd Hfl Hfa Hwa Hreq [Hr Hr']].
    unfold fallbacks_of, readers_of, fills_of in *. cbn [tally] in *. unfold leases_of in *.
    rewrite Hst in *. rewrite vsize_cons in Hr. split; try done; simpl.
    + intros b Hb. apply (Hd b). by right.
    + pose proof (tally_le (λ a, status_eqb (accessStatus a) TaskFallback) live) as Hle.
      revert Hfa. eval_status. intros Hfa. rewrite Hfa, dec64_small by lia.
      unfold fallbacks_of. lia.
    + split; [lia|done].
Qed.

End returning.
