(* ===== verification/CacheLifetime.v ===== *)
(** The life of the manager: what [initialize] and [release] do to the
    manager's state and to its entries' allocations. *)
From S2P Require Import Prelude.
From S2P Require Import Platform.
From S2P Require Import GpuDataKey.
From S2P Require Import GpuResidencyTable.
From S2P Require Import CudaDeviceGuard.
From S2P Require Import GpuDataCacheEntry.
From S2P Require Import IntrusiveList.
From S2P Require Import CacheTypes.
From S2P Require Import GpuDataCache.
From S2P Require Import CacheLifecycle.
From S2P Require Import CacheSpec.
From S2P Require Import CacheRefinement.
From S2P Require Import CacheCriticalSections.
From S2P Require Import CacheLookup.
From S2P Require Import CacheCompletion.
#[local] Open Scope N_scope.

(** ** One entry *)
Section entry_life.
Context `{PlatformLaws}.

Definition free_cell_entry (gpu : Z) (bytes : N) (p : ptr) : GpuDataCacheEntry :=
  cell_entry gpu bytes no_link no_link (mkCell p Free).

(** Releasing an entry whose allocation is already gone resets it. *)
Lemma entry_release_empty gpu bytes w :
  entry_release (GpuDataCacheEntry_default <| replicas := [mkReplica gpu nullptr false] |>
                   <| entry_dataBytes := bytes |>) w = (true, GpuDataCacheEntry_default, w).
Proof. done. Qed.

Lemma entry_initialize_one gpu bytes w :
  (0 ≤ gpu)%Z → bytes ≠ 0 →
  ∃ ok e w', entry_initialize GpuDataCacheEntry_default [gpu] bytes w = (ok, e, w')
    ∧ (ok = true → ∃ p, p ≠ nullptr ∧ e = free_cell_entry gpu bytes p)
    ∧ (ok = false → e = GpuDataCacheEntry_default).
Proof using All.
  intros Hgpu Hbytes. unfold entry_initialize.
  assert ((gpu <? 0)%Z = false) as Hneg by (by apply Z.ltb_ge).
  assert ((bytes =? 0) = false) as Hzero by (by apply N.eqb_neq).
  simpl. rewrite Hneg, Hzero. simpl.
  destruct (host_alloc (vsize [gpu]) w) as [[] w1]; simpl; [|by eexists false, _, _].
  destruct (CudaDeviceGuard_construct gpu w1) as [guard w2].
  destruct (guard_ok guard) eqn:Hguard; simpl.
  - destruct (cudaMalloc bytes w2) as [[status p] w3] eqn:Hmalloc.
    destruct (cuda_ok status) eqn:Hok; simpl.
    + eexists true, _, _. split; [done|]. split; [|done]. intros _. exists p.
      split; [by eapply malloc_nonnull|done].
    + pose proof (malloc_failed _ _ _ _ _ Hmalloc Hok) as ->. simpl.
      eexists false, _, _. split; [done|]. split; done.
  - eexists false, _, _. split; [done|]. split; done.
Qed.

(** Freeing the replicas: those that could not be freed keep their pointer. *)
Lemma releaseReplicas_result reps w ok reps' w' :
  releaseReplicas reps w = (ok, reps', w') → ok = allReplicasReleased reps'.
Proof.
  revert w ok reps' w'. induction reps as [|r reps IH]; intros w ok reps' w'; simpl; [naive_solver|].
  destruct (replica_d_data r =? nullptr) eqn:Hnull.
  - destruct (releaseReplicas reps w) as [[ok1 reps1] w1] eqn:Hrel. intros [= <- <- <-].
    simpl. rewrite Hnull. by eapply IH.
  - destruct (CudaDeviceGuard_construct (replica_gpuId r) w) as [guard w1].
    destruct (guard_ok guard); simpl.
    + destruct (cudaFree (replica_d_data r) w1) as [status w2].
      destruct (releaseReplicas reps (CudaDeviceGuard_destruct guard w2))
        as [[ok1 reps1] w3] eqn:Hrel. intros [= <- <- <-].
      specialize (IH _ _ _ _ Hrel). destruct (cuda_ok status); simpl; [|by rewrite Hnull].
      done.
    + destruct (releaseReplicas reps (CudaDeviceGuard_destruct guard w1))
        as [[ok1 reps1] w3] eqn:Hrel. intros [= <- <- <-]. simpl. by rewrite Hnull.
Qed.

(** An entry that is neither leased nor loading. *)
Definition resettable (e : GpuDataCacheEntry) : bool :=
  (activeAccesses e =? 0) && negb (state_eqb (cacheState e) Loading).

(** Release leaves an idle entry as constructed when everything was freed, and
    otherwise only forgets the allocations that were freed. *)
Lemma entry_release_result e w :
  resettable e = true →
  ∃ ok e' w', entry_release e w = (ok, e', w') ∧ resettable e' = true
    ∧ (ok = true → e' = GpuDataCacheEntry_default)
    ∧ (ok = false → e' = e <| replicas := replicas e' |>
                    ∧ allReplicasReleased (replicas e') = false).
Proof.
  unfold resettable. intros [Ha Hs]%andb_prop. unfold entry_release.
  rewrite Ha. rewrite negb_true_iff in Hs. rewrite Hs. simpl.
  destruct (releaseReplicas (replicas e) w) as [[ok reps] w'] eqn:Hrel.
  pose proof (releaseReplicas_result _ _ _ _ _ Hrel) as ->.
  destruct (allReplicasReleased reps) eqn:Hall; eexists _, _, _; (split; [done|]).
  - split_and!; done.
  - simpl. rewrite Ha, Hs. split_and!; done.
Qed.

(** A leased or loading entry is never released. *)
Lemma entry_release_refused e w :
  resettable e = false → entry_release e w = (false, e, w).
Proof.
  unfold resettable, entry_release. intros Hr. 
  destruct (activeAccesses e =? 0), (state_eqb (cacheState e) Loading); done.
Qed.

End entry_life.

(** ** Initialization *)
Section initialization.
Context `{PlatformLaws}.

(** Freshly allocated cells. *)
Definition fresh_cells (cells : list Cell) : Prop :=
  ∀ cell, cell ∈ cells → cell_use cell = Free ∧ cell_data cell ≠ nullptr.

Lemma makeEntries_result n gpu bytes cells w :
  (0 ≤ gpu)%Z → bytes ≠ 0 → fresh_cells cells →
  ∃ r w', makeEntries n [gpu] bytes
      (cell_entry gpu bytes no_link no_link <$> cells) w = (r, w')
    ∧ ∀ es, r = Some es → ∃ cells', fresh_cells cells' ∧ length cells' = (length cells + n)%nat
        ∧ es = cell_entry gpu bytes no_link no_link <$> cells'.
Proof using All.
  intros Hgpu Hbytes. revert cells w. induction n as [|n IH]; intros cells w Hcells; simpl.
  { eexists _, _. split; [done|]. intros es [= <-]. exists cells. by rewrite Nat.add_0_r. }
  destruct (host_alloc 1 w) as [[] w1]; simpl; [|by eexists _, _].
  destruct (entry_initialize_one gpu bytes w1 Hgpu Hbytes) as (ok & e & w2 & -> & Hok & _).
  destruct ok; simpl; [|by eexists _, _].
  destruct Hok as (p & Hp & ->); [done|].
  destruct (IH (cells ++ [mkCell p Free]) w2) as (r & w' & Hrun & Hr).
  { intros cell [Hc| ->%list_elem_of_singleton]%elem_of_app; [by apply Hcells|done]. }
  rewrite fmap_app in Hrun. exists r, w'. split; [exact Hrun|].
  intros es Hes. destruct (Hr es Hes) as (cells' & ? & Hlen & ?). exists cells'.
  rewrite Hlen, length_app. simpl. split_and!; [done|lia|done].
Qed.

(** The directory of a manager that was just initialized. *)
Definition initial_directory (c : GpuDataCache) (gpu : Z) (bytes : size_t)
    (wait : Z) (policy : CacheEvictionPolicy) (cells : list Cell) : Directory :=
  mkDirectory (self c) CacheStatistics_default (cacheChanged c) wait policy
    (waitingAccesses c) 0 false gpu bytes cells [] [] ∅
    (initialEmptyEntries (vsize cells)).

Lemma initial_directory_wf c gpu bytes wait policy cells :
  vsize cells < NO_ENTRY → policy = LRU ∨ policy = FIFO → fresh_cells cells →
  wf (initial_directory c gpu bytes wait policy cells).
Proof.
  intros Hsize Hpol Hfresh.
  assert (∀ i, use_at (initial_directory c gpu bytes wait policy cells) i
    = (λ _, Free) <$> vat cells i) as Huse.
  { intros i. unfold use_at. simpl. destruct (vat cells i) as [cell|] eqn:Hc; [|done]. simpl.
    f_equal. apply Hfresh. by eapply vat_elem_of. }
  split; simpl; try done; try (intros *; rewrite Huse; by destruct (vat cells _));
    try apply NoDup_nil_2.
  - intros i cell Hc. apply Hfresh. by eapply vat_elem_of.
  - intros i. rewrite Huse, elem_of_nil. destruct (vat cells i); naive_solver.
  - intros i. rewrite Huse, elem_of_nil. destruct (vat cells i); naive_solver.
  - apply NoDup_fmap_2; [apply _|]. rewrite reverse_Permutation. apply NoDup_seq.
  - intros i. rewrite Huse. unfold initialEmptyEntries. rewrite list_elem_of_fmap. split.
    + intros (n & -> & Hn). rewrite elem_of_reverse, elem_of_seq in Hn.
      destruct (vat_exists cells (N.of_nat n)) as [c' ->]; [unfold vsize in *; lia|done].
    + intros (c' & Hc & _)%fmap_Some. apply vat_lt in Hc. exists (N.to_nat i).
      split; [lia|]. rewrite elem_of_reverse, elem_of_seq. lia.
  - intros k i. rewrite lookup_empty, Huse. destruct (vat cells i); naive_solver.
Qed.

Lemma entries_of_fresh gpu bytes cells :
  Some <$> (cell_entry gpu bytes no_link no_link <$> cells)
  = entries_of gpu bytes (link_of []) (link_of []) cells.
Proof.
  apply vat_ext. intros i. rewrite vat_entries_of, !vat_fmap. by destruct (vat cells i).
Qed.

(** What [initialize] requires of the manager: nothing of a previous life. *)
Definition pristine (c : GpuDataCache) : Prop :=
  not_pristine c = false ∧ waitingAccesses c = 0.

Definition valid_parameters (gpuIds : list Z) (bytes : size_t) (wait : Z)
    (policy : CacheEvictionPolicy) : Prop :=
  (∃ gpu, gpuIds = [gpu] ∧ (0 ≤ gpu)%Z) ∧ bytes ≠ 0 ∧ (0 ≤ wait)%Z
  ∧ (policy = LRU ∨ policy = FIFO).

Lemma initialize_accepts c gpuIds bytes wait policy :
  initialize_rejects c gpuIds bytes wait policy = false →
  not_pristine c = false ∧ valid_parameters gpuIds bytes wait policy.
Proof.
  unfold initialize_rejects.
  intros [[[[[Hp Hsize]%orb_false_elim Hgpu]%orb_false_elim Hb]%orb_false_elim
    Hw]%orb_false_elim Hpol]%orb_false_elim.
  split; [done|]. apply negb_false_iff, N.eqb_eq in Hsize.
  split_and!.
  - destruct gpuIds as [|gpu [|? ?]]; unfold vsize in Hsize; simpl in *; try lia.
    exists gpu. split; [done|]. by apply Z.ltb_ge.
  - by apply N.eqb_neq.
  - by apply Z.ltb_ge.
  - unfold policy_eqb in Hpol. apply andb_false_iff in Hpol as [Hp'|Hp'];
      apply negb_false_iff, bool_decide_eq_true in Hp'; auto.
Qed.

Lemma pristine_fields c :
  not_pristine c = false →
  cache_initialized c = false ∧ releasing c = false ∧ entries c = []
  ∧ eligibleGpuIds c = [] ∧ emptyEntries c = []
  ∧ leastRecentlyUsed c = NO_ENTRY ∧ mostRecentlyUsed c = NO_ENTRY
  ∧ oldestFilled c = NO_ENTRY ∧ newestFilled c = NO_ENTRY.
Proof.
  unfold not_pristine. intros Hp. repeat apply orb_false_elim in Hp as [Hp ?].
  assert (∀ A (l : list A), negb (vsize l =? 0) = false → l = []) as Hnil.
  { intros A l Hl%negb_false_iff%N.eqb_eq. destruct l; [done|]. unfold vsize in Hl. simpl in Hl. lia. }
  repeat match goal with
  | Hx : negb (_ =? NO_ENTRY) = false |- _ => apply negb_false_iff, N.eqb_eq in Hx
  end. split_and!; auto.
Qed.

Lemma initialize_refines c gpuIds bytes count wait policy w :
  waitingAccesses c = 0 →
  ∃ ok c' w', initialize c gpuIds bytes count wait policy w = Some (ok, c', w')
    ∧ (ok = false → c' = c)
    ∧ (ok = true → ∃ gpu cells, gpuIds = [gpu] ∧ vsize cells = count ∧ fresh_cells cells
        ∧ valid_parameters gpuIds bytes wait policy
        ∧ represents c' (initial_directory c gpu bytes wait policy cells)).
Proof using All.
  intros Hwait. unfold initialize.
  destruct (initialize_rejects c gpuIds bytes wait policy) eqn:Hrej.
  { by eexists false, c, w. }
  destruct (initialize_accepts _ _ _ _ _ Hrej) as [Hpris Hparams].
  pose proof Hparams as ((gpu & -> & Hgpu) & Hbytes & Hw & Hpol).
  unfold initialize_build.
  destruct (table_initialize_spec count w) as (ok & t & w1 & -> & Htable & _ & _).
  cbn [mbind option_bind]. destruct ok; cbn [negb]; [|by eexists false, c, w1].
  destruct Htable as (Hrep & Hlim & Hmax & _); [done|].
  destruct (host_alloc count w1) as [[] w2]; cbn [negb]; [|by eexists false, c, w2].
  destruct (host_alloc count w2) as [[] w3]; cbn [negb]; [|by eexists false, c, w3].
  destruct (makeEntries_result (N.to_nat count) gpu bytes [] w3 Hgpu Hbytes) as (r & w4 & Hrun & Hr).
  { by intros cell ?%elem_of_nil. }
  simpl in Hrun. rewrite Hrun. destruct r as [es|]; [|by eexists false, c, w4].
  destruct (Hr es eq_refl) as (cells & Hfresh & Hlen & ->). simpl in Hlen.
  assert (vsize cells = count) as Hsize by (unfold vsize; lia).
  unfold initialize_commit. rewrite Hpris.
  destruct (pristine_fields _ Hpris) as (Hi & Hrl & He & Hg & Hem & H1 & H2 & H3 & H4).
  cbn [mbind option_bind].
  destruct (host_alloc (vsize [gpu]) w4) as [[] w5]; cbn [negb].
  2: { eexists false, _, _. split; [done|]. split; [|done]. intros _.
       destruct c. simpl in *. by rewrite Hg. }
  eexists true, _, w5. split; [done|]. split; [done|]. intros _. exists gpu, cells.
  split_and!; try done. split.
  { apply initial_directory_wf; [|done..]. rewrite Hsize.
    apply N.le_lt_trans with (2 ^ 62); done. }
  exists t. split; [split; simpl; [done|congruence]|].
  destruct t as [ts tl tc ti]. unfold concrete, initial_directory. simpl.
  rewrite <-entries_of_fresh, Hsize, Hrl, H1, H2, H3, H4. done.
Qed.

End initialization.

(** ** Release *)
Section release.
Context `{Platform}.

(** A manager out of service: before its first initialization, or after a
    release, whether or not every allocation could be freed. *)
Record dormant (c : GpuDataCache) : Prop := {
  dormant_initialized : cache_initialized c = false;
  dormant_releasing : releasing c = false;
  dormant_idle : canResetLocked c = true;
  dormant_empty : entries c = [] → not_pristine c = false;
}.

Definition entry_idle (entry : option GpuDataCacheEntry) : bool :=
  match entry with Some e => resettable e | None => false end.

Lemma canResetLocked_spec c :
  canResetLocked c = true ↔
    activeFallbackAccesses c = 0 ∧ waitingAccesses c = 0 ∧ forallb entry_idle (entries c) = true.
Proof.
  unfold canResetLocked. destruct (N.eqb_spec (activeFallbackAccesses c) 0),
    (N.eqb_spec (waitingAccesses c) 0); simpl; naive_solver.
Qed.

Lemma dormant_pristine c : dormant c → entries c = [] → pristine c.
Proof.
  intros Hd He. split; [by apply Hd|]. by apply canResetLocked_spec, Hd.
Qed.

Lemma releaseEntries_result es w :
  forallb entry_idle es = true →
  ∃ ok allReleased es' w', releaseEntries es w = (ok, allReleased, es', w')
    ∧ forallb entry_idle es' = true ∧ length es' = length es
    ∧ (ok = true → allReleased = true).
Proof.
  revert w. induction es as [|[e|] es IH]; intros w Hall; simpl in *; [by eexists _, _, _, _| |done].
  apply andb_prop in Hall as [He Hall].
  destruct (entry_release_result e w He) as (ok & e' & w1 & -> & He' & Hok & _).
  destruct (IH w1 Hall) as (ok1 & all1 & es' & w' & -> & Hidle & Hlen & Hall1).
  eexists _, _, _, _. split; [done|]. split_and!.
  - simpl. by rewrite He', Hidle.
  - simpl. by rewrite Hlen.
  - intros [Hok1 Hok2]%andb_prop. rewrite (Hok Hok1), (Hall1 Hok2). done.
Qed.

(** The work of a release that may proceed. *)
Lemma release_proceeds c w :
  releasing c = false → canResetLocked c = true →
  ∃ ok c' w', release c w = (ok, c', w') ∧ self c' = self c
    ∧ (cache_initialized c = true ∨ dormant c → dormant c' ∧ (ok = true → pristine c')).
Proof.
  intros Hr Hcan. unfold release, release_begin. rewrite Hr, Hcan. cbn [negb orb].
  match goal with |- context [if ?b then (Some true, c) else _] => destruct b eqn:Hdone end.
  { eexists _, _, _. split; [done|]. split; [done|].
    repeat apply andb_prop in Hdone as [Hdone ?]. apply negb_true_iff in Hdone.
    assert (entries c = []) as He.
    { destruct (entries c); [done|]. unfold vsize in *. simpl in *. lia. }
    intros [?|Hd]; [congruence|]. split; [done|]. intros _. by apply dormant_pristine. }
  apply canResetLocked_spec in Hcan as (Hf & Hw & Hidle).
  destruct (releaseEntries_result _ w Hidle) as (ok & all & es' & w' & Hrun & Hidle' & Hlen & Hok).
  change (entries (c <| cache_initialized := false |> <| releasing := true |>)) with (entries c).
  rewrite Hrun. eexists _, _, _. split; [done|]. split; [by destruct all|]. intros Hin.
  destruct all; simpl.
  - assert (pristine (release_end true (c <| cache_initialized := false |>
      <| releasing := true |> <| entries := es' |>))) as Hp by (split; [done|exact Hw]).
    split; [|done]. split; try done. apply canResetLocked_spec. done.
  - split; [|by intros ->%Hok]. split; try done.
    + apply canResetLocked_spec. done.
    + simpl. intros ->. destruct (entries c) as [|]; [|done]. simpl in Hrun. by simplify_eq.
Qed.

End release.
