(* ===== verification/CacheProtocol.v ===== *)
(** The manager in use: any number of threads call it, hold its accesses and
    sleep in it.  Each critical section is atomic, so an execution is a sequence
    of actions on the manager, the accesses that are out and the requests that
    sleep.  An action that names an access or a sleeper that does not exist is no
    call at all.  A stream synchronization happens outside the mutex: its
    failure report and the completion it precedes are separate actions, and may
    interleave with any others. *)
From S2P Require Import Prelude.
From S2P Require Import Platform.
From S2P Require Import GpuDataKey.
From S2P Require Import GpuResidencyTable.
From S2P Require Import GpuDataCacheEntry.
From S2P Require Import IntrusiveList.
From S2P Require Import CacheTypes.
From S2P Require Import GpuDataCache.
From S2P Require Import GpuDataAccess.
From S2P Require Import CacheLifecycle.
From S2P Require Import CacheSpec.
From S2P Require Import CacheRefinement.
From S2P Require Import CacheCriticalSections.
From S2P Require Import CacheLookup.
From S2P Require Import CacheCompletion.
From S2P Require Import CacheLeases.
From S2P Require Import CacheLifetime.
#[local] Open Scope N_scope.

Section system.
Context `{Platform}.

Record System := mkSystem {
  manager : GpuDataCache;
  live : list GpuDataAccess;
  asleep : list PendingRequest;
  outside : world;
}.

Inductive action :=
| Initialize (gpuIds : list Z) (bytes count : size_t) (wait : Z) (policy : CacheEvictionPolicy)
| Release
| Request (md : FrameMetadata) (request : GpuCacheRequest) (started now waitStarted : Z)
| Wake (sleeper : nat) (woken now waitStarted : Z)
| SyncFailure
| Complete (access : nat) (succeeded : bool) (retention : CacheRetention)
| Abandon (access : nat)
| Reset (output : option CacheStatistics).

(** Room in memory for one more access and one more sleeper. *)
Definition has_room (s : System) : bool :=
  (vsize (live s) + 1 <? two64) && (vsize (asleep s) + 1 <? two64).

Definition without {A} (n : nat) (l : list A) : list A := delete n l.

(** One action; [None] is undefined behaviour or a loop that does not end. *)
Definition perform (s : System) (act : action) : option System :=
  match act with
  | Initialize gpuIds bytes count wait policy =>
      '(_, c, w) ← initialize (manager s) gpuIds bytes count wait policy (outside s);
      Some (mkSystem c (live s) (asleep s) w)
  | Release =>
      let '(_, c, w) := release (manager s) (outside s) in
      Some (mkSystem c (live s) (asleep s) w)
  | Request md request started now waitStarted =>
      if negb (has_room s) then Some s
      else
        '(r, c) ← getCacheData md request started now waitStarted (manager s);
        Some (mkSystem c (granted r (live s)) (sleeping r (asleep s)) (outside s))
  | Wake n woken now waitStarted =>
      match asleep s !! n with
      | None => Some s
      | Some p =>
          if negb (has_room s) then Some s
          else
            '(r, c) ← getCacheData_resume p woken now waitStarted (manager s);
            Some (mkSystem c (granted r (live s)) (sleeping r (without n (asleep s)))
                    (outside s))
      end
  | SyncFailure =>
      '(_, c) ← noteSyncFailure (manager s);
      Some (mkSystem c (live s) (asleep s) (outside s))
  | Complete n succeeded retention =>
      match live s !! n with
      | None => Some s
      | Some a =>
          '(_, _, c) ← completeAccess a succeeded retention (manager s);
          Some (mkSystem c (without n (live s)) (asleep s) (outside s))
      end
  | Abandon n =>
      match live s !! n with
      | None => Some s
      | Some a =>
          '(_, c) ← abortAccess a (manager s);
          Some (mkSystem c (without n (live s)) (asleep s) (outside s))
      end
  | Reset output =>
      '(_, c) ← resetCache output (manager s);
      Some (mkSystem c (live s) (asleep s) (outside s))
  end.

Fixpoint run (s : System) (acts : list action) : option System :=
  match acts with
  | [] => Some s
  | act :: acts => s' ← perform s act; run s' acts
  end.

Lemma run_snoc s acts s1 act s' :
  run s acts = Some s1 → perform s1 act = Some s' → run s (acts ++ [act]) = Some s'.
Proof.
  revert s. induction acts as [|a acts IH]; intros s; simpl; [by intros [= ->] ->|].
  destruct (perform s a) as [s2|]; [|done]. simpl. apply IH.
Qed.

(** A manager just constructed at address [this]. *)
Definition start (this : ptr) (w : world) : System :=
  mkSystem (GpuDataCache_default this) [] [] w.

(** ** The invariant *)

(** In service, the manager lays out a well-formed directory that accounts for
    exactly the live accesses and the sleepers; out of service there are none. *)
Definition invariant (s : System) : Prop :=
  self (manager s) ≠ nullptr ∧
  ((∃ d, represents (manager s) d ∧ agree d (live s) (asleep s))
   ∨ dormant (manager s) ∧ live s = [] ∧ asleep s = []).

Lemma start_invariant this w : this ≠ nullptr → invariant (start this w).
Proof. intros Hthis. split; [done|]. right. split; [|done]. by split. Qed.

Lemma represents_run {A} (m : M A) c d x d' :
  represents c d → refines m d x d' → wf d' → ∃ c', m c = Some (x, c') ∧ represents c' d'.
Proof.
  intros (_ & t & Ht & ->) Hm Hwf. destruct (Hm t Ht) as (t' & Hrun & Ht').
  exists (concrete d' t'). split; [done|]. split; [done|]. eauto.
Qed.

Lemma represents_self c d : represents c d → self c = d_self d.
Proof. by intros (_ & t & _ & ->). Qed.

(** Out of service, nothing is out. *)
Definition out_of_service (s : System) : Prop :=
  self (manager s) ≠ nullptr ∧ dormant (manager s) ∧ live s = [] ∧ asleep s = [].

(** A step of the abstract cache with its accesses and sleepers. *)
Inductive dir_step (d : Directory) (lv : list GpuDataAccess) (sl : list PendingRequest) :
    Directory → list GpuDataAccess → list PendingRequest → Prop :=
| step_nothing : dir_step d lv sl d lv sl
| step_request md request started now waitStarted :
    let r := request_access md request started now waitStarted d in
    dir_step d lv sl (snd r) (granted (fst r) lv) (sleeping (fst r) sl)
| step_wake n p woken now waitStarted :
    sl !! n = Some p →
    let r := resume_access p woken now waitStarted d in
    dir_step d lv sl (snd r) (granted (fst r) lv) (sleeping (fst r) (without n sl))
| step_failure : dir_step d lv sl (sync_failure d) lv sl
| step_end n a succeeded discardNow :
    lv !! n = Some a → holds_lease d a →
    dir_step d lv sl (end_access a succeeded discardNow d) (without n lv) sl
| step_reset :
    lv = [] → sl = [] → dir_step d lv sl (reset_directory d) lv sl.

(** The manager steps to one in service that lays out a step of its directory. *)
Definition steps_to (d : Directory) (s s' : System) : Prop :=
  self (manager s') = d_self d ∧
  ∃ d', represents (manager s') d' ∧ agree d' (live s') (asleep s')
    ∧ dir_step d (live s) (asleep s) d' (live s') (asleep s').

(** A manager in service steps within service, or is released with nothing out. *)
Definition proceeds (d : Directory) (act : action) (s s' : System) : Prop :=
  steps_to d s s'
  ∨ act = Release ∧ live s = [] ∧ asleep s = [] ∧ out_of_service s'.

Lemma in_service c' d d' lv sl lv' sl' s w' :
  live s = lv → asleep s = sl →
  represents c' d' → agree d' lv' sl' → dir_step d lv sl d' lv' sl' → d_self d' = d_self d →
  steps_to d s (mkSystem c' lv' sl' w').
Proof.
  intros <- <- Hc' Hag Hstep Hself. split; simpl.
  - by rewrite (represents_self _ _ Hc').
  - eauto.
Qed.

Lemma delete_Permutation {A} (l : list A) n x : l !! n = Some x → l ≡ₚ x :: without n l.
Proof. apply delete_Permutation. Qed.

Lemma has_room_spec s :
  has_room s = true ↔ vsize (live s) + 1 < two64 ∧ vsize (asleep s) + 1 < two64.
Proof. unfold has_room. by rewrite andb_true_iff, !N.ltb_lt. Qed.

(** *** Out of service *)

Lemma dormant_request c md request started now waitStarted :
  dormant c →
  getCacheData md request started now waitStarted c
  = Some (Returned GpuDataAccess_default,
          c <| statistics := set_field stat_invalid inc64 (statistics c) |>).
Proof.
  intros Hd. unfold getCacheData, getCacheData_begin.
  rewrite (bind_Some _ _ c (inl GpuDataAccess_default)
    (c <| statistics := set_field stat_invalid inc64 (statistics c) |>)); [done|].
  rewrite (bind_Some this_cache _ _ _ _ eq_refl), (dormant_initialized _ Hd). done.
Qed.

(** Every call but [initialize] leaves the manager out of service. *)
Lemma out_of_service_step s act :
  out_of_service s →
  (∀ gpuIds bytes count wait policy, act ≠ Initialize gpuIds bytes count wait policy) →
  ∃ s', perform s act = Some s' ∧ out_of_service s'.
Proof.
  destruct s as [c lv as_ w]. intros (Hself & Hd & Hlv & Has) Hinit. simpl in *. subst lv as_.
  pose proof (dormant_releasing _ Hd) as Hr. pose proof (dormant_idle _ Hd) as Hidle.
  assert (∀ c', dormant c' → self c' = self c → ∀ w', out_of_service (mkSystem c' [] [] w')) as Hinv.
  { intros c' Hd' Hs w'. split; simpl; [by rewrite Hs|done]. }
  destruct act; simpl.
  - exfalso. by eapply Hinit.
  - destruct (release_proceeds c w Hr Hidle) as (ok & c' & w' & Hrun & Hs & Hc').
    rewrite Hrun. eexists. split; [done|]. apply Hinv; [by apply Hc'; right|done].
  - rewrite dormant_request by done. eexists. split; [done|].
    apply Hinv; [|done]. by destruct Hd; split.
  - eexists. split; [done|]. by apply Hinv.
  - eexists. split; [done|]. apply Hinv; [|done].
    by destruct Hd; split.
  - eexists. split; [done|]. by apply Hinv.
  - eexists. split; [done|]. by apply Hinv.
  - unfold resetCache. rewrite (bind_Some this_cache _ _ _ _ eq_refl), (dormant_initialized _ Hd).
    eexists. split; [done|]. by apply Hinv.
Qed.

(** *** In service *)

Lemma agree_idle d lv sl :
  agree d lv sl → can_reset d = true → lv = [] ∧ sl = [].
Proof.
  intros Hag. unfold can_reset. intros [[Hf Hw]%andb_prop Hcells]%andb_prop.
  apply N.eqb_eq in Hf, Hw.
  split.
  - destruct lv as [|a lv]; [done|]. exfalso.
    pose proof (agree_holds _ _ _ a Hag ltac:(left)) as (_ & _ & _ & Hm).
    rewrite forallb_forall in Hcells.
    destruct (accessStatus a); [done| | |by destruct Hm as (_ & _ & ?)].
    + destruct Hm as (md & r & disc & Hq & _ & Hr).
      apply vat_elem_of, list_elem_of_In, Hcells, N.eqb_eq in Hq. done.
    + destruct Hm as (md & Hq & _). by apply vat_elem_of, list_elem_of_In, Hcells in Hq.
  - rewrite (agree_waiting _ _ _ Hag) in Hw. destruct sl; [done|].
    unfold vsize in Hw. simpl in Hw. lia.
Qed.

Lemma agree_nothing d : agree d [] [] → can_reset d = true.
Proof.
  intros Hag. unfold can_reset. rewrite (agree_fallbacks _ _ _ Hag), (agree_waiting _ _ _ Hag).
  simpl. apply forallb_forall. intros [q u] Hin%list_elem_of_In.
  apply elem_of_vat in Hin as [i Hi].
  pose proof (agree_readers _ _ _ Hag i) as Hr. pose proof (agree_fills _ _ _ Hag i) as Hf.
  rewrite (use_at_vat _ _ _ _ Hi) in Hr, Hf. by destruct u; simpl in *; subst.
Qed.

Lemma in_service_canReset c d : represents c d → canResetLocked c = can_reset d.
Proof. intros (_ & t & _ & ->). apply canResetLocked_concrete. Qed.

Lemma in_service_initialize c d gpuIds bytes count wait policy w :
  represents c d → initialize c gpuIds bytes count wait policy w = Some (false, c, w).
Proof. by intros (_ & t & _ & ->). Qed.

Lemma drop_payloads_agree d : wf d → agree d [] [] → agree (reset_directory d) [] [].
Proof.
  intros Hwf [Hself _ Hr Hf Hfb Hw _ Hroom].
  assert (∀ i, use_at (reset_directory d) i = (λ _, Free) <$> vat (d_cells d) i) as Huse.
  { intros i. unfold use_at, reset_directory, drop_payloads. simpl.
    rewrite vat_fmap. by destruct (vat (d_cells d) i). }
  split; try done; try (by intros ? ?%elem_of_nil); intros i; rewrite Huse;
    by destruct (vat (d_cells d) i).
Qed.

Lemma attempt_self p now waitStarted d : d_self (snd (attempt p now waitStarted d)) = d_self d.
Proof.
  unfold attempt. destruct (d_failed d); [done|].
  assert (∀ o, d_self (snd (obstructed o p now waitStarted d)) = d_self d) as Hobs.
  { intros o. unfold obstructed. destruct (pending_blocked p), o; simpl; case_match; simpl;
      by destruct (pending_waited p). }
  destruct (d_index d !! md_key (pending_metadata p)) as [i|].
  - destruct (vat (d_cells d) i) as [[q [|md|md readers discard]]|] eqn:Hq; try done;
      case_decide; try done. cbn [snd].
    by rewrite (set_use_cells _ i q (Ready md readers discard)).
  - destruct (victim d) as [[i wasEmpty]|].
    + destruct (vat (d_cells d) i) as [[q u]|] eqn:Hq; [|done].
      apply (reserve_frame d i wasEmpty (pending_metadata p) q u Hq).
    + by destruct (vsize (d_cells d) =? 0).
Qed.

Lemma request_access_self md request started now waitStarted d :
  d_self (snd (request_access md request started now waitStarted d)) = d_self d.
Proof. unfold request_access. case_match; [apply attempt_self|done]. Qed.

Lemma resume_access_self p woken now waitStarted d :
  d_self (snd (resume_access p woken now waitStarted d)) = d_self d.
Proof. unfold resume_access. by rewrite attempt_self. Qed.

Lemma end_access_self a succeeded discardNow d :
  holds_lease d a → d_self (end_access a succeeded discardNow d) = d_self d.
Proof.
  intros (_ & _ & _ & Hm). unfold end_access. destruct (accessStatus a); [done| | |done].
  - destruct Hm as (md & readers & discard & Hq & _).
    apply (finish_hit_frame d _ _ _ _ _ discardNow Hq).
  - destruct Hm as (md & Hq & _). apply (finish_fill_frame d _ _ _ succeeded discardNow Hq).
Qed.

Lemma in_service_release s d :
  represents (manager s) d → agree d (live s) (asleep s) →
  ∃ s', perform s Release = Some s' ∧ proceeds d Release s s'.
Proof.
  destruct s as [c lv sl w]. cbn [perform manager live asleep outside]. intros Hc Hag.
  destruct (canResetLocked c) eqn:Hcan.
  - assert (can_reset d = true) as Hcr by (by rewrite <-(in_service_canReset c)).
    destruct (agree_idle _ _ _ Hag Hcr) as [-> ->]. destruct Hc as (_ & t & _ & ->).
    destruct (release_proceeds (concrete d t) w eq_refl Hcan) as (ok & c' & w' & -> & Hs & Hd).
    eexists. split; [done|]. right. split_and!; [done..|]. split; simpl; [rewrite Hs; apply Hag|].
    split; [by apply Hd; left|done].
  - exists (mkSystem c lv sl w). split.
    + destruct Hc as (_ & t & _ & ->). unfold release, release_begin. by rewrite Hcan.
    + left. by eapply in_service; try done; constructor.
Qed.

(** Completing or abandoning the [n]th live access. *)
Lemma in_service_end {A} (m : M A) x n a succeeded discardNow s d :
  represents (manager s) d → agree d (live s) (asleep s) → live s !! n = Some a →
  (holds_lease d a → refines m d x (end_access a succeeded discardNow d)) →
  ∃ c', m (manager s) = Some (x, c')
    ∧ steps_to d s (mkSystem c' (without n (live s)) (asleep s) (outside s)).
Proof.
  intros Hc Hag Ha Hm. pose proof Hc as (Hwf & _).
  assert (agree d (a :: without n (live s)) (asleep s)) as Hag'
    by (eapply agree_perm; [by apply delete_Permutation|done|done]).
  pose proof (agree_holds _ _ _ a Hag' ltac:(left)) as Hholds.
  destruct (represents_run _ _ _ _ _ Hc (Hm Hholds)) as (c' & Hrun & Hc');
    [by apply end_access_wf|].
  exists c'. split; [done|].
  eapply in_service; [done..|by apply end_access_agree|by eapply step_end|].
  by apply end_access_self.
Qed.

Lemma in_service_request s d md request started now waitStarted :
  represents (manager s) d → agree d (live s) (asleep s) → has_room s = true →
  ∃ r c', getCacheData md request started now waitStarted (manager s) = Some (r, c')
    ∧ steps_to d s (mkSystem c' (granted r (live s)) (sleeping r (asleep s)) (outside s)).
Proof.
  intros Hc Hag [Hl Hs]%has_room_spec. pose proof Hc as (Hwf & _).
  destruct (represents_run _ _ _ _ _ Hc
    (getCacheData_refines md request started now waitStarted d Hwf)) as (c' & Hrun & Hc').
  { apply request_access_wf; [done|]. by eapply agree_reader_room. }
  eexists _, _. split; [exact Hrun|].
  eapply in_service; [done..|by apply request_access_agree|by constructor|].
  apply request_access_self.
Qed.

Lemma agree_request_gpu d lv sl p :
  agree d lv sl → p ∈ sl → request_gpuId (pending_request p) = d_gpu d.
Proof.
  intros Hag Hp. pose proof (agree_requests _ _ _ Hag p Hp) as Hv. unfold valid_request in Hv.
  repeat (apply andb_prop in Hv as [Hv ?]). by apply Z.eqb_eq.
Qed.

Lemma in_service_wake s d n p woken now waitStarted :
  represents (manager s) d → agree d (live s) (asleep s) → asleep s !! n = Some p →
  has_room s = true →
  ∃ r c', getCacheData_resume p woken now waitStarted (manager s) = Some (r, c')
    ∧ steps_to d s (mkSystem c' (granted r (live s)) (sleeping r (without n (asleep s)))
                      (outside s)).
Proof.
  intros Hc Hag Hp [Hl _]%has_room_spec. pose proof Hc as (Hwf & _).
  assert (agree d (live s) (p :: without n (asleep s))) as Hag'
    by (eapply agree_perm; [done|by apply delete_Permutation|done]).
  pose proof (agree_request_gpu _ _ _ p Hag' ltac:(left)) as Hgpu.
  destruct (represents_run _ _ _ _ _ Hc
    (getCacheData_resume_refines p woken now waitStarted d Hwf Hgpu)) as (c' & Hrun & Hc').
  { apply resume_access_wf; [done|]. by eapply agree_reader_room. }
  eexists _, _. split; [exact Hrun|].
  eapply in_service; [done..|by apply resume_access_agree|by constructor|].
  apply resume_access_self.
Qed.

Lemma in_service_reset s d output :
  represents (manager s) d → agree d (live s) (asleep s) →
  ∃ r c', resetCache output (manager s) = Some (r, c')
    ∧ steps_to d s (mkSystem c' (live s) (asleep s) (outside s)).
Proof.
  intros Hc Hag. pose proof Hc as (Hwf & _). pose proof (resetCache_refines d output) as Hreset.
  destruct (negb (d_failed d) && can_reset d) eqn:Hok.
  - apply andb_prop in Hok as [_ Hok]. destruct (agree_idle _ _ _ Hag Hok) as [Hl Hs].
    rewrite Hl, Hs in *.
    destruct (represents_run _ _ _ _ _ Hc Hreset) as (c' & Hrun & Hc').
    { apply drop_payloads_wf. by eapply wf_same. }
    eexists _, _. split; [exact Hrun|].
    by eapply in_service; [done..|apply drop_payloads_agree|apply step_reset|].
  - destruct (represents_run _ _ _ _ _ Hc Hreset Hwf) as (c' & Hrun & Hc').
    eexists _, _. split; [exact Hrun|]. by eapply in_service; try done; constructor.
Qed.

(** Every action of a manager in service is defined and simulated. *)
Lemma in_service_step s act d :
  represents (manager s) d → agree d (live s) (asleep s) →
  ∃ s', perform s act = Some s' ∧ proceeds d act s s'.
Proof.
  intros Hc Hag. pose proof Hc as (Hwf & _).
  assert (steps_to d s s) as Hsame.
  { split; [by apply represents_self|]. exists d. split_and!; try done. constructor. }
  assert (act ≠ Release → ∃ s', perform s act = Some s' ∧ steps_to d s s') as Hwithin.
  2: { destruct act; try (destruct Hwithin as (s' & ? & ?); [done|]; exists s'; by split; [|left]).
       by apply in_service_release. }
  intros Hnr. destruct act; cbn [perform].
  - rewrite (in_service_initialize _ d) by done. destruct s. by eexists.
  - done.
  - destruct (has_room s) eqn:Hroom; cbn [negb]; [|by eexists].
    destruct (in_service_request s d md request started now waitStarted)
      as (r & c' & -> & ?); [done..|]. by eexists.
  - destruct (asleep s !! sleeper) as [p|] eqn:Hp; [|by eexists].
    destruct (has_room s) eqn:Hroom; cbn [negb]; [|by eexists].
    destruct (in_service_wake s d sleeper p woken now waitStarted)
      as (r & c' & -> & ?); [done..|]. by eexists.
  - destruct (represents_run _ _ _ _ _ Hc (noteSyncFailure_refines d)) as (c' & -> & Hc').
    { by eapply wf_same. }
    eexists. split; [done|].
    eapply in_service; [done..|by eapply agree_same|apply step_failure|done].
  - destruct (live s !! access) as [a|] eqn:Ha; [|by eexists].
    edestruct (in_service_end (completeAccess a succeeded retention)) as (c' & -> & ?);
      [done..|by apply completeAccess_refines; apply Hc|]. by eexists.
  - destruct (live s !! access) as [a|] eqn:Ha; [|by eexists].
    edestruct (in_service_end (abortAccess a)) as (c' & -> & ?);
      [done..|by apply abortAccess_refines; apply Hc|]. by eexists.
  - destruct (in_service_reset s d output Hc Hag) as ([ok out] & c' & -> & ?). by eexists.
Qed.

End system.

(** ** Safety of every execution *)
Section safety.
Context `{PlatformLaws}.
Implicit Types (s : System) (a : GpuDataAccess).

Lemma initial_directory_agree c gpu bytes wait policy cells :
  self c ≠ nullptr → waitingAccesses c = 0 → fresh_cells cells →
  agree (initial_directory c gpu bytes wait policy cells) [] [].
Proof.
  intros Hself Hw Hfresh.
  assert (∀ i, use_at (initial_directory c gpu bytes wait policy cells) i
    = (λ _, Free) <$> vat cells i) as Huse.
  { intros i. unfold use_at. simpl. destruct (vat cells i) as [cell|] eqn:Hc; [|done]. simpl.
    f_equal. apply Hfresh. by eapply vat_elem_of. }
  split; try done; try (by intros ? ?%elem_of_nil); intros i; rewrite Huse;
    by destruct (vat cells i).
Qed.

(** Bringing a manager into service, or failing to. *)
Lemma out_of_service_initialize s gpuIds bytes count wait policy :
  out_of_service s →
  ∃ s', perform s (Initialize gpuIds bytes count wait policy) = Some s'
    ∧ (out_of_service s'
       ∨ ∃ gpu cells, live s' = [] ∧ asleep s' = [] ∧ fresh_cells cells
           ∧ let d := initial_directory (manager s) gpu bytes wait policy cells in
             represents (manager s') d ∧ agree d [] []).
Proof using All.
  destruct s as [c lv sl w]. intros (Hself & Hd & Hlv & Hsl). simpl in *. subst lv sl.
  pose proof (dormant_idle _ Hd) as (_ & Hw & _)%canResetLocked_spec.
  destruct (initialize_refines c gpuIds bytes count wait policy w Hw)
    as (ok & c' & w' & -> & Hfail & Hok).
  eexists. split; [done|]. destruct ok; [right|left; by rewrite (Hfail eq_refl)].
  destruct (Hok eq_refl) as (gpu & cells & -> & _ & Hfresh & _ & Hc').
  exists gpu, cells. split_and!; try done. by apply initial_directory_agree.
Qed.

Definition is_initialize (act : action) : bool :=
  match act with Initialize _ _ _ _ _ => true | _ => false end.

(** The rule of the manager in service: what holds of a fresh directory and is
    kept by every step holds whenever the manager is in service. *)
Section rule.
Context (P : Directory → list GpuDataAccess → list PendingRequest → Prop).

Definition serves s : Prop :=
  (∃ d, represents (manager s) d ∧ agree d (live s) (asleep s) ∧ P d (live s) (asleep s))
  ∨ out_of_service s.

Context (Hfresh : ∀ c gpu bytes wait policy cells, fresh_cells cells →
  P (initial_directory c gpu bytes wait policy cells) [] []).
Context (Hstep : ∀ d lv sl d' lv' sl', wf d → agree d lv sl → P d lv sl →
  dir_step d lv sl d' lv' sl' → P d' lv' sl').

Lemma perform_serves s act : serves s → ∃ s', perform s act = Some s' ∧ serves s'.
Proof using All.
  intros [(d & Hc & Hag & HP)|Hout].
  - destruct (in_service_step s act d Hc Hag) as (s' & Hrun & Hor). exists s'.
    split; [done|]. destruct Hor as [(_ & d' & Hc' & Hag' & Hd)|(_ & _ & _ & Hout)]; [left|by right].
    exists d'. split_and!; [done..|]. eapply Hstep; [apply Hc|done..].
  - destruct (is_initialize act) eqn:Hact.
    + destruct act; try done.
      destruct (out_of_service_initialize s gpuIds bytes count wait policy Hout)
        as (s' & Hrun & [?|(gpu & cells & Hl & Hs & Hcells & Hc & Hag)]).
      * exists s'. split; [done|by right].
      * exists s'. split; [done|]. left. eexists. rewrite Hl, Hs. split_and!; [done..|].
        by apply Hfresh.
    + destruct (out_of_service_step s act Hout) as (s' & ? & ?).
      * by intros * ->.
      * exists s'. split; [done|by right].
Qed.

Lemma run_serves s acts : serves s → ∃ s', run s acts = Some s' ∧ serves s'.
Proof using All.
  revert s. induction acts as [|act acts IH]; intros s Hs; [by exists s|]. simpl.
  destruct (perform_serves s act Hs) as (s1 & -> & Hs1). by apply IH.
Qed.

End rule.

Lemma start_out_of_service this w : this ≠ nullptr → out_of_service (start this w).
Proof. intros Hthis. split; [done|]. split; [|done]. by split. Qed.

Lemma serves_invariant s : invariant s ↔ serves (λ _ _ _, True) s.
Proof.
  unfold invariant, serves, out_of_service. split.
  - intros (Hself & [(d & Hc & Hag)|Hd]); [left; eauto|by right].
  - intros [(d & Hc & Hag & _)|(Hself & Hd)]; split; eauto.
    rewrite (represents_self _ _ Hc). apply Hag.
Qed.

Lemma perform_invariant s act :
  invariant s → ∃ s', perform s act = Some s' ∧ invariant s'.
Proof using All.
  intros Hs%serves_invariant.
  destruct (perform_serves (λ _ _ _, True)) with (act := act) (3 := Hs) as (s' & ? & ?); [done..|].
  exists s'. by rewrite serves_invariant.
Qed.

Lemma run_invariant s acts :
  invariant s → ∃ s', run s acts = Some s' ∧ invariant s'.
Proof using All.
  revert s. induction acts as [|act acts IH]; intros s Hs; [by exists s|]. simpl.
  destruct (perform_invariant s act Hs) as (s1 & -> & Hs1). by apply IH.
Qed.

(** States that some execution of a fresh manager reaches. *)
Definition reachable s : Prop :=
  ∃ this w acts, this ≠ nullptr ∧ run (start this w) acts = Some s.

Lemma reachable_serves P s :
  (∀ c gpu bytes wait policy cells, fresh_cells cells →
     P (initial_directory c gpu bytes wait policy cells) [] []) →
  (∀ d lv sl d' lv' sl', wf d → agree d lv sl → P d lv sl →
     dir_step d lv sl d' lv' sl' → P d' lv' sl') →
  reachable s → serves P s.
Proof using All.
  intros Hfresh Hstep (this & w & acts & Hthis & Hrun).
  destruct (run_serves P Hfresh Hstep (start this w) acts) as (s' & Hrun' & Hs');
    [right; by apply start_out_of_service|]. congruence.
Qed.

Lemma reachable_invariant s : reachable s → invariant s.
Proof using All.
  intros (this & w & acts & Hthis & Hrun).
  destruct (run_invariant (start this w) acts) as (s' & Hrun' & Hinv);
    [by apply start_invariant|]. congruence.
Qed.

Lemma reachable_live s a :
  reachable s → a ∈ live s → ∃ d, represents (manager s) d ∧ agree d (live s) (asleep s).
Proof using All.
  intros Hs Ha. destruct (reachable_invariant s Hs) as (_ & [?|(_ & Hl & _)]); [done|].
  rewrite Hl in Ha. by apply elem_of_nil in Ha.
Qed.

(** A reachable manager in service. *)
Lemma reachable_in_service s :
  reachable s → cache_initialized (manager s) = true →
  ∃ d, represents (manager s) d ∧ agree d (live s) (asleep s).
Proof using All.
  intros Hs Hi. destruct (reachable_invariant s Hs) as (_ & [?|(Hd & _)]); [done|].
  rewrite (dormant_initialized _ Hd) in Hi. done.
Qed.

(** Its next step, when it stays in service. *)
Lemma reachable_step s s' act :
  reachable s → cache_initialized (manager s) = true → perform s act = Some s' →
  cache_initialized (manager s') = true →
  ∃ d d', represents (manager s) d ∧ agree d (live s) (asleep s)
    ∧ represents (manager s') d' ∧ agree d' (live s') (asleep s')
    ∧ dir_step d (live s) (asleep s) d' (live s') (asleep s').
Proof using All.
  intros Hs Hi Hstep Hi'. destruct (reachable_in_service s Hs Hi) as (d & Hc & Hag).
  destruct (in_service_step s act d Hc Hag) as (s1 & Hstep' & Hor).
  rewrite Hstep in Hstep'. injection Hstep' as <-.
  destruct Hor as [(_ & d' & ? & ? & ?)|(_ & _ & _ & _ & Hd & _)]; [by exists d, d'|].
  rewrite (dormant_initialized _ Hd) in Hi'. done.
Qed.

End safety.
