(* ===== verification/CacheScenario.v ===== *)
(** A concrete scenario, on which the properties of the cache are witnessed: a
    manager with two 64-byte entries on GPU 0 of the platform of [SimplePlatform],
    just initialized, and after its first request. *)
From S2P Require Import Prelude.
From S2P Require Import Platform.
From S2P Require Import GpuDataKey.
From S2P Require Import GpuResidencyTable.
From S2P Require Import CudaDeviceGuard.
From S2P Require Import SimplePlatform.
From S2P Require Import GpuDataCacheEntry.
From S2P Require Import IntrusiveList.
From S2P Require Import CacheTypes.
From S2P Require Import GpuDataCache.
From S2P Require Import GpuDataAccess.
From S2P Require Import CacheLifecycle.
From S2P Require Import CacheSpec.
From S2P Require Import CacheRefinement.
From S2P Require Import CacheCriticalSections.
From S2P Require Import CacheLookup.
From S2P Require Import CacheCompletion.
From S2P Require Import CacheLeases.
From S2P Require Import CacheLifetime.
From S2P Require Import CacheProtocol.
#[local] Open Scope N_scope.


Definition key_a : GpuDataKey := mkKey 7 1 0.
Definition md_a : FrameMetadata := mkMetadata key_a 64 8 8 1.
Definition md_b : FrameMetadata := mkMetadata (mkKey 8 1 0) 64 8 8 1.
Definition request_a : GpuCacheRequest := mkRequest 0 11 900 64.
Definition this_a : ptr := 77.

Definition boot : list action := [Initialize [0%Z] 64 2 10 LRU].
Definition boot_fifo : list action := [Initialize [0%Z] 64 2 10 FIFO].
Definition ask (md : FrameMetadata) : action := Request md request_a 1000 1000 1000.

Definition state_after (acts : list action) : System :=
  default (start this_a idle_machine) (run (start this_a idle_machine) acts).

(** *** The booted manager and its directory *)

Lemma same_result {A B} (o : option (A * B)) x y x' y' :
  o = Some (x, y) → o = Some (x', y') → x = x' ∧ y = y'.
Proof. intros ->. by intros [= -> ->]. Qed.

Definition booted : GpuDataCache := manager (state_after boot).

Definition directory_0 : Directory :=
  initial_directory (GpuDataCache_default this_a) 0 64 10 LRU
    [mkCell 4096 Free; mkCell 4160 Free].

Lemma cells_0_fresh : fresh_cells [mkCell 4096 Free; mkCell 4160 Free].
Proof. intros cell [-> | [-> | []%elem_of_nil]%elem_of_cons]%elem_of_cons; done. Qed.

Lemma booted_represents : represents booted directory_0.
Proof.
  split; [apply initial_directory_wf; [done|by left|apply cells_0_fresh]|].
  exists (residencyTable booted). split; [|vm_compute; reflexivity]. split; [|done].
  destruct (@table_initialize_spec SimplePlatform 2 idle_machine) as (ok & t & w & Hrun & Hok & _).
  assert (ok = true ∧ t = residencyTable booted) as [-> ->]; [|by apply Hok].
  assert (table_initialize GpuResidencyTable_default 2 idle_machine
    = Some (true, residencyTable booted, idle_machine)) as Hrun' by (vm_compute; reflexivity).
  rewrite Hrun in Hrun'. by simplify_eq.
Qed.

Lemma directory_0_agree : agree directory_0 [] [].
Proof. apply initial_directory_agree; [done..|apply cells_0_fresh]. Qed.

Lemma directory_0_room : reader_room directory_0.
Proof. by eapply agree_reader_room; [apply directory_0_agree|]. Qed.

(** After one request: entry 0 is being filled. *)
Definition asked : System := state_after (boot ++ [ask md_a]).
Abbreviation filling := (manager asked) (only parsing).
Definition directory_1 : Directory :=
  snd (request_access md_a request_a 1000 1000 1000 directory_0).
Definition fill_a : GpuDataAccess := mkAccess 77 4096 64 0 key_a 11 0 CacheFill.

Lemma filling_represents : represents filling directory_1.
Proof.
  destruct (represents_run _ _ _ _ _ booted_represents
    (getCacheData_refines md_a request_a 1000 1000 1000 directory_0
       (proj1 booted_represents))) as (c' & Hrun & Hc').
  { apply request_access_wf; [apply booted_represents|apply directory_0_room]. }
  assert (getCacheData md_a request_a 1000 1000 1000 booted
    = Some (Returned fill_a, filling)) as Hrun' by (vm_compute; reflexivity).
  destruct (same_result _ _ _ _ _ Hrun Hrun') as [_ Heq]. by rewrite <-Heq.
Qed.

Lemma directory_1_agree : agree directory_1 [fill_a] [].
Proof.
  apply (request_access_agree md_a request_a 1000 1000 1000 directory_0 [] []);
    [apply booted_represents|apply directory_0_agree|done..].
Qed.

Lemma fill_a_held : holds_lease directory_1 fill_a.
Proof. by eapply agree_holds; [apply directory_1_agree|left]. Qed.

(** *** Any state of the scenario *)

Lemma reachable_after acts : reachable (state_after acts).
Proof.
  destruct (run_invariant (state_after []) acts) as (s & Hrun & _);
    [by apply start_invariant|].
  exists this_a, idle_machine, acts. split; [done|]. 
  change (run (state_after []) acts = Some (default (state_after []) (run (state_after []) acts))).
  by rewrite Hrun.
Qed.

Lemma in_service_after acts :
  cache_initialized (manager (state_after acts)) = true →
  ∃ d, represents (manager (state_after acts)) d
    ∧ agree d (live (state_after acts)) (asleep (state_after acts)).
Proof. apply reachable_in_service, reachable_after. Qed.

Definition md_c : FrameMetadata := mkMetadata (mkKey 9 1 0) 64 8 8 1.
Definition fill_both : list action :=
  [ask md_a; Complete 0 true Keep; ask md_b; Complete 0 true Keep].

(** States of the scenario in normal form. *)
Lemma settled s acts :
  s = state_after acts → cache_initialized (manager s) = true →
  reachable s ∧ ∃ d, represents (manager s) d ∧ agree d (live s) (asleep s).
Proof. intros -> Hi. split; [apply reachable_after|by apply in_service_after]. Qed.
