(* ===== verification/CacheProperties.v ===== *)
(** What the cache manager guarantees, for every execution and every state an
    execution can reach. *)
From S2P Require Import Prelude.
From S2P Require Import Platform.
From S2P Require Import GpuDataKey.
From S2P Require Import GpuResidencyTable.
From S2P Require Import CudaDeviceGuard.
From S2P Require Import SimplePlatform.
From S2P Require Import GpuDataCacheEntry.
From S2P Require Import IntrusiveList.
From S2P Require Import CacheTypes.
From S2P Require Import GpuDataCache.
From S2P Require Import GpuDataAccess.
From S2P Require Import CacheLifecycle.
From S2P Require Import CacheSpec.
From S2P Require Import CacheRefinement.
From S2P Require Import CacheCriticalSections.
From S2P Require Import CacheLookup.
From S2P Require Import CacheCompletion.
From S2P Require Import CacheLeases.
From S2P Require Import CacheLifetime.
From S2P Require Import CacheProtocol.
From S2P Require Import CacheScenario.
#[local] Open Scope N_scope.

Section properties.
Context `{PlatformLaws}.
Implicit Types (s : System) (c : GpuDataCache) (d : Directory) (a b : GpuDataAccess).

(** C1.  Every execution of the manager is defined: whatever the threads call,
    in whatever order, with whatever arguments, clocks, allocation failures and
    stream failures, no critical section dereferences a missing entry or loops
    for ever, and the state reached is again a well-formed cache that accounts
    for exactly the accesses and sleepers that are out (or a manager out of
    service with none). *)
Theorem every_execution_is_defined this w acts :
  this ≠ nullptr → ∃ s, run (start this w) acts = Some s ∧ invariant s.
Proof using All. intros Hthis. by apply run_invariant, start_invariant. Qed.

(** An access backed by a cache entry. *)
Definition cache_backed a : Prop := accessStatus a = CacheHit ∨ accessStatus a = CacheFill.

(** C2.  While an access is live its entry is untouchable: the entry still holds
    the key and the allocation the access was given, it is not an eviction
    candidate, it counts exactly the accesses on it, and it is readable for a
    hit; a fill has it for itself. *)
Theorem live_lease_is_protected s a :
  reachable s → a ∈ live s → cache_backed a →
  ∃ e, entry_at (manager s) (entryIndex a) = Some e
    ∧ md_key (metadata e) = dataKey a
    ∧ dataForGpu e (deviceId a) = d_data a ∧ d_data a ≠ nullptr
    ∧ inEvictableList e = false
    ∧ activeAccesses e = readers_of (entryIndex a) (live s) + fills_of (entryIndex a) (live s)
    ∧ (accessStatus a = CacheHit →
         cacheState e = Valid ∧ replicaValid e (deviceId a) = true
         ∧ fills_of (entryIndex a) (live s) = 0)
    ∧ (accessStatus a = CacheFill →
         cacheState e = Loading ∧ readers_of (entryIndex a) (live s) = 0
         ∧ fills_of (entryIndex a) (live s) = 1).
Proof using All.
  intros Hs Ha Hback. destruct (reachable_live s a Hs Ha) as (d & (Hwf & t & _ & Hc) & Hag).
  rewrite Hc. rewrite entry_at_concrete.
  pose proof (agree_holds _ _ _ _ Hag Ha) as (_ & _ & Hgpu & Hm).
  pose proof (agree_readers _ _ _ Hag (entryIndex a)) as Hr.
  pose proof (agree_fills _ _ _ Hag (entryIndex a)) as Hf.
  destruct Hback as [Hst|Hst]; rewrite Hst in Hm.
  - destruct Hm as (md & readers & discard & Hq & Hkey & Hne). rewrite Hq.
    rewrite (use_at_vat _ _ _ _ Hq) in Hr, Hf. simpl in Hr, Hf.
    eexists. split; [done|]. rewrite (cell_metadata _ _ _ _ _ md), Hgpu by done.
    rewrite cell_dataForGpu, cell_inEvictableList, cell_activeAccesses, cell_replicaValid.
    rewrite link_of_not_in by (eapply not_idle_not_evictable; [done|by eapply use_at_vat|done]).
    split_and!; try done; [by apply (wf_data _ Hwf _ _ Hq)|lia|congruence].
  - destruct Hm as (md & Hq & Hkey). rewrite Hq.
    rewrite (use_at_vat _ _ _ _ Hq) in Hr, Hf. simpl in Hr, Hf.
    eexists. split; [done|]. rewrite (cell_metadata _ _ _ _ _ md), Hgpu by done.
    rewrite cell_dataForGpu, cell_inEvictableList.
    rewrite link_of_not_in by (eapply reserved_not_listed; [done|by eapply use_at_vat]).
    split_and!; try done; [by apply (wf_data _ Hwf _ _ Hq)| |congruence].
    simpl. lia.
Qed.

(** A fill takes a cell that nobody uses: the entry a request is told to
    fill was leased to no live access, so eviction never takes an entry away
    from a reader or another fill. *)
Theorem fill_takes_unleased_entry s s' md request started now waitStarted a :
  reachable s →
  perform s (Request md request started now waitStarted) = Some s' →
  live s' = a :: live s → accessStatus a = CacheFill →
  ∀ b, b ∈ live s → cache_backed b → entryIndex b ≠ entryIndex a.
Proof using All.
  intros Hs Hstep Hlive Hfill b Hb Hback.
  destruct (perform_invariant s (Request md request started now waitStarted))
    as (s1 & Hstep' & _ & Hinv); [by apply reachable_invariant|].
  rewrite Hstep in Hstep'. injection Hstep' as <-. rewrite Hlive in Hinv.
  destruct Hinv as [(d & _ & Hag)|(_ & ? & _)]; [|done].
  pose proof (agree_holds _ _ _ a Hag ltac:(left)) as (_ & _ & _ & Hm). rewrite Hfill in Hm.
  destruct Hm as (md' & Hq & _).
  pose proof (agree_readers _ _ _ Hag (entryIndex a)) as Hr.
  pose proof (agree_fills _ _ _ Hag (entryIndex a)) as Hf.
  rewrite (use_at_vat _ _ _ _ Hq) in Hr, Hf. unfold readers_of, fills_of in Hr, Hf.
  cbn [tally expected_readers expected_fills] in Hr, Hf.
  assert (leases_of CacheFill (entryIndex a) a = true) as Hself by by apply leases_of_spec.
  rewrite Hself in Hf. apply (unleased (live s)); [unfold readers_of; lia|unfold fills_of; lia|done..].
Qed.

(** ** Refinement of the abstract cache *)

(** C6.  A call of [getCacheData] does to the manager exactly what the abstract
    cache specifies and returns the access it specifies: a hit on a valid
    resident key, a fill of the policy's victim for an absent one, a wait or a
    fallback when obstructed, a rejection of a malformed call or of a failed
    manager. *)
Theorem getCacheData_implements_spec c d md request started now waitStarted :
  represents c d → reader_room d →
  let r := request_access md request started now waitStarted d in
  ∃ c', getCacheData md request started now waitStarted c = Some (fst r, c')
    ∧ represents c' (snd r).
Proof.
  intros Hc Hroom r. eapply represents_run; [done|apply getCacheData_refines; apply Hc|].
  apply request_access_wf; [apply Hc|done].
Qed.

(** C7.  A request that wakes up accounts for its sleep and is then evaluated
    like a new one, keeping its deadline and its first obstruction. *)
Theorem wakeup_implements_spec c d p woken now waitStarted :
  represents c d → reader_room d → request_gpuId (pending_request p) = d_gpu d →
  let r := resume_access p woken now waitStarted d in
  ∃ c', getCacheData_resume p woken now waitStarted c = Some (fst r, c')
    ∧ represents c' (snd r).
Proof.
  intros Hc Hroom Hgpu r. eapply represents_run; [done|apply getCacheData_resume_refines;
    [apply Hc|done]|]. apply resume_access_wf; [apply Hc|done].
Qed.

(** C8.  Completing a live access returns what the caller reported, resets the
    access and ends the lease as specified: a reader leaves (the last one makes
    the entry evictable, or discards it), a fill is published, discarded or
    given up, a fallback is counted off. *)
Theorem completeAccess_implements_spec c d a succeeded retention :
  represents c d → holds_lease d a →
  ∃ c', completeAccess a succeeded retention c = Some ((succeeded, GpuDataAccess_default), c')
    ∧ represents c' (end_access a succeeded (retention_eqb retention Discard) d).
Proof.
  intros Hc Ha. eapply represents_run; [done|apply completeAccess_refines; [apply Hc|done]|].
  apply end_access_wf; [apply Hc|done].
Qed.

(** Abandoning a live access ends its lease like an unsuccessful
    completion that keeps the payload. *)
Theorem abortAccess_implements_spec c d a :
  represents c d → holds_lease d a →
  ∃ c', abortAccess a c = Some (GpuDataAccess_default, c')
    ∧ represents c' (end_access a false false d).
Proof.
  intros Hc Ha. eapply represents_run; [done|apply abortAccess_refines; [apply Hc|done]|].
  apply end_access_wf; [apply Hc|done].
Qed.

(** A reset succeeds exactly when the manager has not failed and nothing is
    leased, filling or asleep; it then hands the statistics out, zeroes them and
    empties every entry, and otherwise changes nothing. *)
Theorem resetCache_implements_spec s d output :
  represents (manager s) d → agree d (live s) (asleep s) →
  let ok := negb (failed (manager s)) && bool_decide (live s = []) && bool_decide (asleep s = []) in
  ∃ c', resetCache output (manager s)
      = Some ((ok, if ok then (λ _, statistics (manager s)) <$> output else output), c')
    ∧ represents c' (if ok then reset_directory d else d).
Proof.
  intros Hc Hag ok.
  assert (ok = negb (d_failed d) && can_reset d) as Hok.
  { unfold ok. destruct Hc as (_ & t & _ & ->). cbn [failed concrete].
    destruct (d_failed d); [done|]. cbn [negb andb].
    destruct (can_reset d) eqn:Hcan.
    - destruct (agree_idle _ _ _ Hag Hcan) as [-> ->]. done.
    - apply not_true_iff_false. intros [Hl%bool_decide_eq_true Hs%bool_decide_eq_true]%andb_prop.
      rewrite Hl, Hs in Hag. apply agree_nothing in Hag. congruence. }
  assert (statistics (manager s) = d_stats d) as -> by (by destruct Hc as (_ & t & _ & ->)).
  pose proof (resetCache_refines d output) as Hreset. rewrite <-Hok in Hreset.
  destruct ok; (eapply represents_run; [done|exact Hreset|]); [|apply Hc].
  apply drop_payloads_wf. eapply wf_same; [apply Hc|done..].
Qed.

End properties.

Lemma every_execution_is_defined_witness :
  this_a ≠ nullptr ∧ ∃ s, run (start this_a idle_machine) (boot ++ [ask md_a]) = Some s ∧ invariant s.
Proof. split; [done|]. apply (every_execution_is_defined this_a). done. Defined.

Lemma live_lease_is_protected_witness :
  ∃ a, a ∈ live (state_after (boot ++ [ask md_a])) ∧
  ∃ e, entry_at (manager (state_after (boot ++ [ask md_a]))) (entryIndex a) = Some e
    ∧ cacheState e = Loading.
Proof.
  eexists. split; [vm_compute; left|].
  destruct (live_lease_is_protected (state_after (boot ++ [ask md_a]))
    (mkAccess 77 4096 64 0 key_a 11 0 CacheFill)) as (e & He & _ & _ & _ & _ & _ & _ & Hfill).
  - exists this_a, idle_machine, (boot ++ [ask md_a]). split; [done|]. vm_compute. reflexivity.
  - vm_compute. left.
  - by right.
  - exists e. split; [exact He|]. by apply Hfill.
Defined.

Lemma fill_takes_unleased_entry_witness :
  fill_a ∈ live (state_after (boot ++ [ask md_a])) ∧ entryIndex fill_a ≠ 1.
Proof.
  assert (fill_a ∈ live (state_after (boot ++ [ask md_a]))) as Hin by (vm_compute; left).
  split; [exact Hin|].
  apply (fill_takes_unleased_entry (state_after (boot ++ [ask md_a]))
    (state_after (boot ++ [ask md_a; ask md_b])) md_b request_a 1000 1000 1000
    (mkAccess 77 4160 64 1 (md_key md_b) 11 0 CacheFill)).
  - exists this_a, idle_machine, (boot ++ [ask md_a]). split; [done|]. vm_compute. reflexivity.
  - vm_compute. reflexivity.
  - vm_compute. reflexivity.
  - reflexivity.
  - exact Hin.
  - by right.
Defined.

(** *** Witnesses *)

Lemma getCacheData_implements_spec_witness :
  ∃ c', getCacheData md_a request_a 1000 1000 1000 booted = Some (Returned fill_a, c')
    ∧ represents c' directory_1.
Proof.
  apply (getCacheData_implements_spec booted directory_0 md_a request_a 1000 1000 1000).
  - apply booted_represents.
  - apply directory_0_room.
Defined.

Definition sleeper_a : PendingRequest := mkPending md_b request_a 2000 true true 0 1000.

Lemma wakeup_implements_spec_witness :
  ∃ c', getCacheData_resume sleeper_a 1500 1500 1500 booted
      = Some (fst (resume_access sleeper_a 1500 1500 1500 directory_0), c')
    ∧ represents c' (snd (resume_access sleeper_a 1500 1500 1500 directory_0)).
Proof.
  apply (wakeup_implements_spec booted directory_0 sleeper_a).
  - apply booted_represents.
  - apply directory_0_room.
  - reflexivity.
Defined.

Lemma completeAccess_implements_spec_witness :
  ∃ c', completeAccess fill_a true Keep filling = Some ((true, GpuDataAccess_default), c')
    ∧ represents c' (end_access fill_a true false directory_1).
Proof.
  apply (completeAccess_implements_spec filling directory_1 fill_a true Keep).
  - apply filling_represents.
  - apply fill_a_held.
Defined.

Lemma abortAccess_implements_spec_witness :
  ∃ c', abortAccess fill_a filling = Some (GpuDataAccess_default, c')
    ∧ represents c' (end_access fill_a false false directory_1).
Proof.
  apply (abortAccess_implements_spec filling directory_1 fill_a).
  - apply filling_represents.
  - apply fill_a_held.
Defined.

Lemma resetCache_implements_spec_witness :
  ∃ c', resetCache None filling = Some ((false, None), c') ∧ represents c' directory_1.
Proof.
  apply (resetCache_implements_spec asked directory_1 None).
  - apply filling_represents.
  - apply directory_1_agree.
Defined.
