(* ===== verification/CacheBehaviour.v ===== *)
(** How payloads live in the cache: a published payload is served, an
    unpublished one is filled again, a layout mismatch is rejected, and victims
    are taken in the order of the policy. *)
From S2P Require Import Prelude.
From S2P Require Import Platform.
From S2P Require Import GpuDataKey.
From S2P Require Import GpuResidencyTable.
From S2P Require Import CudaDeviceGuard.
From S2P Require Import SimplePlatform.
From S2P Require Import GpuDataCacheEntry.
From S2P Require Import IntrusiveList.
From S2P Require Import CacheTypes.
From S2P Require Import GpuDataCache.
From S2P Require Import GpuDataAccess.
From S2P Require Import CacheLifecycle.
From S2P Require Import CacheSpec.
From S2P Require Import CacheRefinement.
From S2P Require Import CacheCriticalSections.
From S2P Require Import CacheLookup.
From S2P Require Import CacheCompletion.
From S2P Require Import CacheLeases.
From S2P Require Import CacheLifetime.
From S2P Require Import CacheProtocol.
From S2P Require Import CacheScenario.
#[local] Open Scope N_scope.

Section behaviour.
Context `{Platform}.
Implicit Types (c : GpuDataCache) (d : Directory) (a b : GpuDataAccess) (i : N).

Lemma run_completion c d a succeeded retention :
  represents c d → holds_lease d a →
  ∃ c', completeAccess a succeeded retention c = Some ((succeeded, GpuDataAccess_default), c')
    ∧ represents c' (end_access a succeeded (retention_eqb retention Discard) d).
Proof.
  intros Hc Ha. eapply represents_run; [done|apply completeAccess_refines; [apply Hc|done]|].
  apply end_access_wf; [apply Hc|done].
Qed.

(** A request evaluated on a represented manager; no reader overflows when the
    request does not hit. *)
Lemma run_request c d md request started now waitStarted :
  represents c d →
  ∃ c', getCacheData md request started now waitStarted c
    = Some (fst (request_access md request started now waitStarted d), c').
Proof.
  intros (Hwf & t & Ht & ->).
  destruct (getCacheData_refines md request started now waitStarted d Hwf t Ht) as (t' & Hrun & _).
  eauto.
Qed.

Lemma held_fill c d a :
  represents c d → holds_lease d a → accessStatus a = CacheFill →
  ∃ md, vat (d_cells d) (entryIndex a) = Some (mkCell (d_data a) (Reserved md))
    ∧ md_key md = dataKey a ∧ d_index d !! md_key md = Some (entryIndex a).
Proof.
  intros (Hwf & _) (_ & _ & _ & Hm) Hst. rewrite Hst in Hm. destruct Hm as (md & Hq & Hkey).
  exists md. split_and!; [done..|]. apply (wf_index _ Hwf).
  exists (Reserved md), md. by rewrite (use_at_vat _ _ _ _ Hq).
Qed.

(** The metadata a held fill was reserved for. *)
Definition reserved_for c (i : N) : option FrameMetadata := metadata <$> entry_at c i.

Lemma reserved_for_cell c d i q md :
  represents c d → vat (d_cells d) i = Some (mkCell q (Reserved md)) →
  reserved_for c i = Some md.
Proof.
  intros (_ & t & _ & ->) Hq. unfold reserved_for. by rewrite entry_at_concrete, Hq.
Qed.

(** What a request finds. *)
Lemma request_hits d md request started now waitStarted i q readers discard :
  d_failed d = false → valid_request md request d = true →
  d_index d !! md_key md = Some i →
  vat (d_cells d) i = Some (mkCell q (Ready md readers discard)) →
  fst (request_access md request started now waitStarted d)
  = Returned (lease i q md request CacheHit d).
Proof.
  intros Hf Hv Hk Hq. unfold request_access. rewrite Hf, Hv. simpl. unfold attempt. simpl.
  rewrite Hf, Hk, Hq. by rewrite decide_True.
Qed.

Lemma request_fills d md request started now waitStarted i wasEmpty q u :
  d_failed d = false → valid_request md request d = true →
  d_index d !! md_key md = None → victim d = Some (i, wasEmpty) →
  vat (d_cells d) i = Some (mkCell q u) →
  fst (request_access md request started now waitStarted d)
  = Returned (lease i q md request CacheFill d).
Proof.
  intros Hf Hv Hk Hvic Hq. unfold request_access. rewrite Hf, Hv. simpl. unfold attempt. simpl.
  by rewrite Hf, Hk, Hvic, Hq.
Qed.

Lemma represents_failed c d : represents c d → failed c = d_failed d.
Proof. by intros (_ & t & _ & ->). Qed.

(** A fill's cell after its completion. *)
Lemma finished_fill d i q md succeeded discardNow :
  vat (d_cells d) i = Some (mkCell q (Reserved md)) →
  let d' := finish_fill i succeeded discardNow d in
  d_failed d' = d_failed d ∧ d_self d' = d_self d
  ∧ (∀ md request, valid_request md request d' = valid_request md request d)
  ∧ if succeeded && negb discardNow
    then d_index d' = d_index d ∧ vat (d_cells d') i = Some (mkCell q (Ready md 0 false))
    else d_index d' = delete (md_key md) (d_index d) ∧ victim d' = Some (i, true)
         ∧ vat (d_cells d') i = Some (mkCell q Free).
Proof.
  intros Hq d'. destruct (finish_fill_frame d i q md succeeded discardNow Hq)
    as (Hs & Hg & Hb & _ & _ & Hcells). fold d' in Hs, Hg, Hb, Hcells.
  assert (∀ md request, valid_request md request d' = valid_request md request d) as Hv
    by (intros; unfold valid_request; by rewrite Hg, Hb).
  assert (vat (d_cells d') i = Some (mkCell q
    (if succeeded && negb discardNow then Ready md 0 false else Free))) as Hq'
    by (rewrite Hcells; by rewrite vat_vset_eq by (by eapply vat_lt)).
  revert Hq'. clear Hs Hg Hb Hcells. revert Hv. unfold d', finish_fill.
  rewrite (use_at_vat _ _ _ _ Hq). unfold make_filled, free_cell, victim.
  rewrite !(set_use_cells _ i q (Reserved md)) by done.
  destruct succeeded, discardNow; simpl; intros Hv Hq'; rewrite ?last_snoc;
    try destruct (policy_eqb (d_policy d) FIFO); split_and!; done.
Qed.

(** Fill then hit: once a fill is completed successfully with [Keep], the
    next well-formed request for the same payload is a hit on the same entry
    and the same device memory, which the reader may not write. *)
Theorem published_payload_is_served c d a md request started now waitStarted :
  represents c d → holds_lease d a → accessStatus a = CacheFill →
  reserved_for c (entryIndex a) = Some md →
  failed c = false → valid_request md request d = true →
  ∃ c1 c2 b, completeAccess a true Keep c = Some ((true, GpuDataAccess_default), c1)
    ∧ getCacheData md request started now waitStarted c1 = Some (Returned b, c2)
    ∧ accessStatus b = CacheHit ∧ d_data b = d_data a ∧ entryIndex b = entryIndex a
    ∧ dataKey b = dataKey a ∧ writableData b = nullptr.
Proof.
  intros Hc Ha Hst Hmd Hfailed Hvalid.
  destruct (run_completion c d a true Keep Hc Ha) as (c1 & Hrun & Hc1).
  destruct (held_fill c d a Hc Ha Hst) as (md' & Hq & Hkey & Hidx).
  rewrite (reserved_for_cell _ _ _ _ _ Hc Hq) in Hmd. injection Hmd as ->.
  unfold end_access in Hc1. rewrite Hst in Hc1.
  change (retention_eqb Keep Discard) with false in Hc1.
  destruct (finished_fill _ _ _ _ true false Hq) as (Hf & _ & Hv & Hi & Hq').
  destruct (run_request c1 _ md request started now waitStarted Hc1) as (c2 & Hreq).
  erewrite request_hits in Hreq;
    [|by rewrite Hf, <-(represents_failed c)|by rewrite Hv|by rewrite Hi|exact Hq'].
  eexists c1, c2, _. split; [done|]. split; [exact Hreq|]. by rewrite <-Hkey.
Qed.

(** A fill that fails, or is completed with [Discard], leaves nothing to
    hit: the next well-formed request for the payload is told to fill again,
    in the entry just freed. *)
Theorem unpublished_payload_is_filled_again c d a md request succeeded retention
    started now waitStarted :
  represents c d → holds_lease d a → accessStatus a = CacheFill →
  reserved_for c (entryIndex a) = Some md →
  failed c = false → valid_request md request d = true →
  succeeded = false ∨ retention = Discard →
  ∃ c1 c2 b, completeAccess a succeeded retention c = Some ((succeeded, GpuDataAccess_default), c1)
    ∧ getCacheData md request started now waitStarted c1 = Some (Returned b, c2)
    ∧ accessStatus b = CacheFill ∧ d_data b = d_data a ∧ entryIndex b = entryIndex a.
Proof.
  intros Hc Ha Hst Hmd Hfailed Hvalid Hgone.
  destruct (run_completion c d a succeeded retention Hc Ha) as (c1 & Hrun & Hc1).
  destruct (held_fill c d a Hc Ha Hst) as (md' & Hq & Hkey & Hidx).
  rewrite (reserved_for_cell _ _ _ _ _ Hc Hq) in Hmd. injection Hmd as ->.
  unfold end_access in Hc1. rewrite Hst in Hc1.
  pose proof (finished_fill _ _ _ _ succeeded (retention_eqb retention Discard) Hq) as Hfin.
  assert (succeeded && negb (retention_eqb retention Discard) = false) as Hno
    by (destruct Hgone as [->| ->]; [done|apply andb_false_r]).
  rewrite Hno in Hfin. destruct Hfin as (Hf & _ & Hv & Hi & Hvic & Hq').
  destruct (run_request c1 _ md request started now waitStarted Hc1) as (c2 & Hreq).
  erewrite request_fills in Hreq; [|by rewrite Hf, <-(represents_failed c)|by rewrite Hv
    |rewrite Hi; apply lookup_delete_eq|exact Hvic|exact Hq'].
  eexists c1, c2, _. split; [done|]. by split; [exact Hreq|].
Qed.

(** A resident key requested under another layout is rejected: the access
    returned is invalid, and the only change is the count of invalid requests. *)
Theorem layout_mismatch_is_rejected c d i e md request started now waitStarted :
  represents c d →
  entry_at c i = Some e → cacheState e ≠ Empty →
  md_key (metadata e) = md_key md → metadata e ≠ md →
  ∃ c', getCacheData md request started now waitStarted c
      = Some (Returned GpuDataAccess_default, c')
    ∧ represents c' (bump stat_invalid inc64 d).
Proof.
  intros Hc He Hs Hkey Hne. pose proof Hc as (Hwf & t & Ht & Heq).
  rewrite Heq, entry_at_concrete in He.
  destruct (vat (d_cells d) i) as [[q u]|] eqn:Hq; [|done]. simpl in He. injection He as <-.
  assert (request_access md request started now waitStarted d = reject d) as Hrej.
  { unfold request_access. destruct (negb (d_failed d) && valid_request md request d); [|done].
    unfold attempt. destruct (d_failed d); [done|]. simpl.
    assert (∃ md', resident_md u = Some md' ∧ md_key md' = md_key md ∧ md' ≠ md)
      as (md' & Hmd & Hk & Hne').
    { destruct u as [|md'|md' r disc]; simpl in *; [done|eauto|eauto]. }
    assert (d_index d !! md_key md = Some i) as ->.
    { apply (wf_index _ Hwf). exists u, md'. by rewrite (use_at_vat _ _ _ _ Hq). }
    rewrite Hq. destruct u; simpl in Hmd; simplify_eq; try done; by rewrite decide_False. }
  pose proof (getCacheData_refines md request started now waitStarted d Hwf) as Href.
  rewrite Hrej in Href. eapply represents_run; [done|exact Href|]. by apply wf_bump.
Qed.

End behaviour.

Lemma published_payload_is_served_witness :
  ∃ c1 c2 b, completeAccess fill_a true Keep filling = Some ((true, GpuDataAccess_default), c1)
    ∧ getCacheData md_a request_a 1000 1000 1000 c1 = Some (Returned b, c2)
    ∧ accessStatus b = CacheHit ∧ d_data b = 4096 ∧ entryIndex b = 0
    ∧ dataKey b = key_a ∧ writableData b = nullptr.
Proof.
  apply (published_payload_is_served filling directory_1 fill_a md_a request_a 1000 1000 1000).
  - apply filling_represents.
  - apply fill_a_held.
  - reflexivity.
  - vm_compute. reflexivity.
  - vm_compute. reflexivity.
  - vm_compute. reflexivity.
Defined.

Lemma unpublished_payload_is_filled_again_witness :
  ∃ c1 c2 b, completeAccess fill_a true Discard filling = Some ((true, GpuDataAccess_default), c1)
    ∧ getCacheData md_a request_a 1000 1000 1000 c1 = Some (Returned b, c2)
    ∧ accessStatus b = CacheFill ∧ d_data b = 4096 ∧ entryIndex b = 0.
Proof.
  apply (unpublished_payload_is_filled_again filling directory_1 fill_a md_a request_a true Discard).
  - apply filling_represents.
  - apply fill_a_held.
  - reflexivity.
  - vm_compute. reflexivity.
  - vm_compute. reflexivity.
  - vm_compute. reflexivity.
  - by right.
Defined.

Definition md_a_wider : FrameMetadata := mkMetadata key_a 64 16 8 1.

Lemma layout_mismatch_is_rejected_witness :
  ∃ c', getCacheData md_a_wider request_a 1000 1000 1000 filling
      = Some (Returned GpuDataAccess_default, c')
    ∧ represents c' (bump stat_invalid inc64 directory_1).
Proof.
  apply (layout_mismatch_is_rejected filling directory_1 0
    (cell_entry 0 64 no_link no_link (mkCell 4096 (Reserved md_a)))).
  - apply filling_represents.
  - vm_compute. reflexivity.
  - done.
  - reflexivity.
  - done.
Defined.
