(* ===== verification/CacheOrder.v ===== *)
(** The orders of the cache: the linked lists of entries, followed from their
    heads as the code follows them, are the queues of the policies. *)
From S2P Require Import Prelude.
From S2P Require Import Platform.
From S2P Require Import GpuDataKey.
From S2P Require Import GpuResidencyTable.
From S2P Require Import CudaDeviceGuard.
From S2P Require Import SimplePlatform.
From S2P Require Import GpuDataCacheEntry.
From S2P Require Import IntrusiveList.
From S2P Require Import CacheTypes.
From S2P Require Import GpuDataCache.
From S2P Require Import GpuDataAccess.
From S2P Require Import CacheLifecycle.
From S2P Require Import CacheSpec.
From S2P Require Import CacheRefinement.
From S2P Require Import CacheCriticalSections.
From S2P Require Import CacheLookup.
From S2P Require Import CacheCompletion.
From S2P Require Import CacheLeases.
From S2P Require Import CacheLifetime.
From S2P Require Import CacheProtocol.
From S2P Require Import CacheScenario.
#[local] Open Scope N_scope.

(** The indices met from [i] along the links [next]; [None] if a link leads
    outside the entries or the walk does not end. *)
Fixpoint follow (next : GpuDataCacheEntry → size_t) (fuel : nat) (c : GpuDataCache)
    (i : size_t) : option (list size_t) :=
  match fuel with
  | O => None
  | S fuel' =>
      if i =? NO_ENTRY then Some []
      else
        e ← entry_at c i;
        rest ← follow next fuel' c (next e);
        Some (i :: rest)
  end.

(** Idle entries, least recently used first. *)
Definition eviction_order (c : GpuDataCache) : option (list size_t) :=
  follow nextEvictable (S (length (entries c))) c (leastRecentlyUsed c).

(** Published entries, oldest first (FIFO only). *)
Definition fill_order (c : GpuDataCache) : option (list size_t) :=
  follow nextFilled (S (length (entries c))) c (oldestFilled c).

(** One queue becomes another by removals and at most one arrival at its end. *)
Definition queue_step (l l' : list size_t) : Prop :=
  ∃ kept, kept `sublist_of` l ∧ (l' = kept ∨ ∃ i, (i ∉ l) ∧ l' = kept ++ [i]).

Section orders.
Context `{Platform}.
Implicit Types (c : GpuDataCache) (d : Directory) (a : GpuDataAccess) (i : N) (l : list N).

Lemma follow_concrete next d t l l1 l2 fuel :
  cell_list (vsize (d_cells d)) l → l = l1 ++ l2 → (length l2 < fuel)%nat →
  (∀ i cell, vat (d_cells d) i = Some cell →
     next (cell_entry (d_gpu d) (d_bytes d) (link_of (d_lru d) i) (link_of (d_fifo d) i) cell)
     = link_next (link_of l i)) →
  follow next fuel (concrete d t) (first_of l2) = Some l2.
Proof.
  intros Hl Heq Hfuel Hnext. revert l1 l2 Heq Hfuel.
  induction fuel as [|fuel IH]; intros l1 l2 Heq Hfuel; [lia|].
  destruct l2 as [|i l2]; [done|]. change (first_of (i :: l2)) with i. cbn [follow].
  assert (i ∈ l) as Hi by (rewrite Heq; set_solver).
  rewrite (proj2 (N.eqb_neq i NO_ENTRY)) by (intros ->; by apply (cell_list_null _ _ Hl)).
  destruct (cell_list_cell _ _ _ Hl Hi) as [cell Hcell].
  rewrite entry_at_concrete, Hcell. cbn [mbind option_bind fmap option_fmap option_map].
  rewrite (Hnext _ _ Hcell).
  assert (link_next (link_of l i) = first_of l2) as ->.
  { rewrite Heq. apply link_next_app. rewrite <-Heq. apply Hl. }
  rewrite (IH (l1 ++ [i]) l2); [done|by rewrite Heq, <-app_assoc|]. simpl in Hfuel. lia.
Qed.

Lemma length_entries_concrete d t : length (entries (concrete d t)) = length (d_cells d).
Proof. apply length_imap. Qed.

Lemma eviction_order_represents c d : represents c d → eviction_order c = Some (d_lru d).
Proof.
  intros (Hwf & t & _ & ->). pose proof (wf_lru_list _ Hwf) as Hl.
  pose proof (cell_list_length _ _ Hl) as Hlen. unfold eviction_order.
  rewrite length_entries_concrete. apply (follow_concrete _ _ _ (d_lru d) []); [done..| |].
  - unfold vsize in Hlen. lia.
  - intros i cell _. apply cell_nextEvictable.
Qed.

Lemma fill_order_represents c d : represents c d → fill_order c = Some (d_fifo d).
Proof.
  intros (Hwf & t & _ & ->). pose proof (wf_fifo_list _ Hwf) as Hl.
  pose proof (cell_list_length _ _ Hl) as Hlen. unfold fill_order.
  rewrite length_entries_concrete. apply (follow_concrete _ _ _ (d_fifo d) []); [done..| |].
  - unfold vsize in Hlen. lia.
  - intros i cell _. apply cell_nextFilled.
Qed.

(** The first element of a filtered list, in the list. *)
Lemma head_filter_split (P : N → Prop) `{!∀ x, Decision (P x)} l x :
  head (filter P l) = Some x →
  ∃ l1 l2, l = l1 ++ x :: l2 ∧ (∀ y, y ∈ l1 → ¬ P y) ∧ P x.
Proof.
  induction l as [|y l IH]; [done|]. destruct (decide (P y)) as [Hy|Hy].
  - rewrite filter_cons_True by done. simpl. intros [= ->]. exists [], l.
    split_and!; [done| |done]. by intros z ?%elem_of_nil.
  - rewrite filter_cons_False by done. intros (l1 & l2 & -> & Hl1 & Hx)%IH.
    exists (y :: l1), l2. split_and!; [done| |done].
    intros z [->|Hz]%elem_of_cons; [done|by apply Hl1].
Qed.

(** *** How the operations change the queues *)

Lemma queue_same l : queue_step l l.
Proof. exists l. auto. Qed.

Lemma queue_unlink i l : queue_step l (unlink i l).
Proof. exists (unlink i l). split; [apply sublist_filter|by left]. Qed.

Lemma queue_append i l : i ∉ l → queue_step l (l ++ [i]).
Proof. intros Hi. exists l. split; [done|]. right. eauto. Qed.

Lemma queue_clear l : queue_step l [].
Proof. exists []. split; [apply sublist_nil_l|by left]. Qed.

Definition queues_step d d' : Prop :=
  queue_step (d_lru d) (d_lru d') ∧ queue_step (d_fifo d) (d_fifo d').

Lemma queues_same d d' : d_lru d' = d_lru d → d_fifo d' = d_fifo d → queues_step d d'.
Proof. intros Hl Hf. split; [rewrite Hl|rewrite Hf]; apply queue_same. Qed.

Lemma obstructed_orders o p now waitStarted d :
  let d' := snd (obstructed o p now waitStarted d) in d_lru d' = d_lru d ∧ d_fifo d' = d_fifo d.
Proof.
  unfold obstructed. destruct (pending_blocked p), o; simpl; case_match; simpl;
    by destruct (pending_waited p).
Qed.

Lemma attempt_queues p now waitStarted d : queues_step d (snd (attempt p now waitStarted d)).
Proof.
  unfold attempt. destruct (d_failed d); [by apply queues_same|].
  destruct (d_index d !! md_key (pending_metadata p)) as [i|].
  - destruct (vat (d_cells d) i) as [[q [|md|md readers discard]]|] eqn:Hq; try by apply queues_same.
    + case_decide; [|by apply queues_same]. by apply queues_same; apply obstructed_orders.
    + case_decide; [|by apply queues_same]. cbn [snd].
      rewrite (set_use_cells _ i q (Ready md readers discard)) by done.
      split; [apply queue_unlink|apply queue_same].
  - destruct (victim d) as [[i wasEmpty]|].
    + destruct (vat (d_cells d) i) as [[q u]|] eqn:Hq; [|by apply queues_same].
      cbn [snd]. unfold reserve.
      rewrite (set_use_cells _ i q u) by (simpl; by rewrite take_victim_cells).
      destruct wasEmpty; simpl; [by apply queues_same|]. split; apply queue_unlink.
    + destruct (vsize (d_cells d) =? 0); [by apply queues_same|].
      by apply queues_same; apply obstructed_orders.
Qed.

Lemma free_cell_queues i k d u : use_at d i = Some u → queues_step d (free_cell i k d).
Proof.
  intros Hu. destruct (use_at_Some _ _ _ Hu) as [q Hq]. unfold free_cell.
  rewrite (set_use_cells _ i q u) by done. split; apply queue_unlink.
Qed.

Lemma end_access_queues a succeeded discardNow d :
  wf d → holds_lease d a → queues_step d (end_access a succeeded discardNow d).
Proof.
  intros Hwf (_ & _ & _ & Hm). unfold end_access. destruct (accessStatus a); try by apply queues_same.
  - destruct Hm as (md & readers & discard & Hq & _ & Hr). pose proof (use_at_vat _ _ _ _ Hq) as Hu.
    pose proof (not_idle_not_evictable _ _ _ _ _ Hwf Hu Hr) as Hi.
    unfold finish_hit. rewrite Hu. destruct (negb (dec64 readers =? 0)).
    { rewrite (set_use_cells _ _ _ _ _ Hq). by apply queues_same. }
    destruct (discard || discardNow).
    + rewrite (free_cell_set_use _ _ _ _ _ Hu). by eapply free_cell_queues.
    + rewrite (set_use_cells _ _ _ _ _ Hq). split; [by apply queue_append|apply queue_same].
  - destruct Hm as (md & Hq & _). pose proof (use_at_vat _ _ _ _ Hq) as Hu.
    destruct (reserved_not_listed _ _ _ Hwf Hu) as [Hl Hf].
    unfold finish_fill. rewrite Hu. destruct succeeded; [|by eapply free_cell_queues].
    destruct discardNow; [by eapply free_cell_queues|]. unfold make_filled.
    rewrite (set_use_cells _ _ _ _ _ Hq).
    destruct (policy_eqb _ FIFO); (split; simpl; first [by apply queue_append|apply queue_same]).
Qed.

End orders.

(** ** The policies *)
Section policies.
Context `{Platform}.
Implicit Types (s : System) (c : GpuDataCache) (d : Directory) (a : GpuDataAccess) (i : N).

(** In service, both linked lists can be walked to their end and hold what
    they should: the eviction list exactly the valid entries without readers,
    each once; under FIFO the fill list exactly the valid entries, each once. *)
Theorem orders_are_complete c d :
  represents c d →
  ∃ l f, eviction_order c = Some l ∧ fill_order c = Some f ∧ NoDup l ∧ NoDup f
    ∧ (∀ i, i ∈ l ↔ ∃ e, entry_at c i = Some e ∧ cacheState e = Valid ∧ activeAccesses e = 0)
    ∧ (∀ i, i ∈ f ↔ evictionPolicy c = FIFO
                    ∧ ∃ e, entry_at c i = Some e ∧ cacheState e = Valid).
Proof.
  intros Hc. exists (d_lru d), (d_fifo d).
  rewrite (eviction_order_represents c d), (fill_order_represents c d) by done.
  destruct Hc as (Hwf & t & _ & ->). split_and!; [done..|apply Hwf|apply Hwf| |].
  - intros i. rewrite (wf_lru _ Hwf), entry_at_concrete. unfold use_at.
    destruct (vat (d_cells d) i) as [[q [|md|md r disc]]|]; simpl; naive_solver.
  - intros i. rewrite (wf_fifo _ Hwf), entry_at_concrete. unfold use_at.
    destruct (vat (d_cells d) i) as [[q [|md|md r disc]]|]; simpl; naive_solver.
Qed.

(** C34.  The victim is the policy's: a fill takes the entry freed last if there
    is a free one; otherwise LRU takes the head of the eviction order, the entry
    idle longest, and FIFO the first idle entry of the fill order, skipping only
    entries that are being read. *)
Theorem fill_takes_policy_victim c d md request started now waitStarted a c' :
  represents c d →
  getCacheData md request started now waitStarted c = Some (Returned a, c') →
  accessStatus a = CacheFill →
  match last (emptyEntries c) with
  | Some i => entryIndex a = i
  | None =>
      if policy_eqb (evictionPolicy c) FIFO then
        ∃ l1 l2, fill_order c = Some (l1 ++ entryIndex a :: l2)
          ∧ (∀ i, i ∈ l1 → ∃ e, entry_at c i = Some e ∧ activeAccesses e ≠ 0)
          ∧ ∃ e, entry_at c (entryIndex a) = Some e ∧ activeAccesses e = 0
      else ∃ l, eviction_order c = Some (entryIndex a :: l)
  end.
Proof.
  intros Hc Hrun Hst. pose proof Hc as (Hwf & t & Ht & Heq).
  rewrite (fill_order_represents c d Hc), (eviction_order_represents c d Hc).
  destruct (getCacheData_refines md request started now waitStarted d Hwf t Ht)
    as (t' & Hrun' & _). rewrite <-Heq, Hrun in Hrun'. injection Hrun' as Hres _.
  assert (∃ wasEmpty, victim d = Some (entryIndex a, wasEmpty)) as (wasEmpty & Hv).
  { revert Hres. unfold request_access. destruct (negb _ && _); [|by intros [= ->]].
    unfold attempt. destruct (d_failed d); [by intros [= ->]|]. 
    assert (∀ o p, Returned a = fst (obstructed o p now waitStarted d) → False) as Hobs.
    { intros o p. unfold obstructed. case_match; simpl; [|done]. by intros [= ->]. }
    destruct (d_index d !! _) as [i|].
    - destruct (vat (d_cells d) i) as [[q [|md'|md' readers discard]]|]; try (by intros [= ->]);
        case_decide; try (by intros [= ->]). by intros ?%Hobs.
    - destruct (victim d) as [[i e]|]; [|destruct (vsize (d_cells d) =? 0);
        [by intros [= ->]|by intros ?%Hobs]].
      destruct (vat (d_cells d) i); [|by intros [= ->]]. intros [= ->]. simpl. eauto. }
  rewrite Heq. cbn [emptyEntries evictionPolicy concrete]. revert Hv. unfold victim.
  destruct (last (d_free d)) as [i|]; [by intros [= -> _]|].
  intros (j & Hj & Heqj)%fmap_Some. assert (j = entryIndex a) as -> by congruence. clear Heqj.
  destruct (policy_eqb (d_policy d) FIFO).
  2: { destruct (d_lru d) as [|x l]; [done|]. simpl in Hj. simplify_eq. by exists l. }
  destruct (head_filter_split (λ i, is_idle d i = true) (d_fifo d) (entryIndex a) Hj)
    as (l1 & l2 & Hsplit & Hbusy & Hidle).
  assert (∀ i, i ∈ d_fifo d → ∃ q md r disc, vat (d_cells d) i = Some (mkCell q (Ready md r disc)))
    as Hready.
  { intros i (_ & md' & r & disc & Hu)%(wf_fifo _ Hwf).
    destruct (use_at_Some _ _ _ Hu) as [q Hq]. eauto. }
  exists l1, l2. split; [by rewrite Hsplit|]. split.
  - intros i Hi. destruct (Hready i) as (q & md' & r & disc & Hq); [rewrite Hsplit; set_solver|].
    rewrite entry_at_concrete, Hq. eexists. split; [done|]. simpl. intros ->.
    apply (Hbusy i Hi). unfold is_idle. by rewrite (use_at_vat _ _ _ _ Hq).
  - destruct (Hready (entryIndex a)) as (q & md' & r & disc & Hq); [rewrite Hsplit; set_solver|].
    rewrite entry_at_concrete, Hq. eexists. split; [done|]. simpl.
    unfold is_idle in Hidle. rewrite (use_at_vat _ _ _ _ Hq) in Hidle. by destruct r.
Qed.

(** What a hit was granted on. *)
Lemma request_access_hit d d' a md request started now waitStarted :
  request_access md request started now waitStarted d = (Returned a, d') →
  accessStatus a = CacheHit →
  ∃ q readers discard, vat (d_cells d) (entryIndex a) = Some (mkCell q (Ready md readers discard))
    ∧ a = lease (entryIndex a) q md request CacheHit d ∧ request_gpuId request = d_gpu d
    ∧ d' = set_use (entryIndex a) (Ready md (inc64 readers) discard)
             (bump stat_hit inc64 (d <| d_lru := unlink (entryIndex a) (d_lru d) |>)).
Proof.
  unfold request_access. destruct (negb _ && valid_request _ _ _) eqn:Hv; [|by intros [= <- _]].
  assert (request_gpuId request = d_gpu d) as Hgpu.
  { apply andb_prop in Hv as [_ Hv]. unfold valid_request in Hv.
    repeat (apply andb_prop in Hv as [Hv ?]). by apply Z.eqb_eq. }
  unfold attempt. destruct (d_failed d); [by intros [= <- _]|]. simpl.
  assert (∀ o p, obstructed o p now waitStarted d = (Returned a, d') → accessStatus a = CacheHit →
    False) as Hobs.
  { intros o p. unfold obstructed. case_match; simpl; [|done]. by intros [= <- _]. }
  destruct (d_index d !! _) as [i|].
  - destruct (vat (d_cells d) i) as [[q [|md'|md' readers discard]]|] eqn:Hq;
      try (by intros [= <- _]); case_decide; try (by intros [= <- _]).
    + intros Ho Ha. by destruct (Hobs _ _ Ho Ha).
    + intros [= <- <-] _. simpl. subst md'. eauto 10.
  - destruct (victim d) as [[i e]|]; [|destruct (vsize (d_cells d) =? 0);
      [by intros [= <- _]|intros Ho Ha; by destruct (Hobs _ _ Ho Ha)]].
    destruct (vat (d_cells d) i); by intros [= <- _].
Qed.

(** A hit never changes the fill age: neither granting a hit nor returning
    one with [Keep] moves an entry in the FIFO order, unless another reader has
    asked to discard the payload. *)
Theorem hits_keep_fill_age c d md request started now waitStarted a c' c'' succeeded :
  represents c d → reader_room d →
  getCacheData md request started now waitStarted c = Some (Returned a, c') →
  accessStatus a = CacheHit →
  completeAccess a succeeded Keep c' = Some ((succeeded, GpuDataAccess_default), c'') →
  (∀ e, entry_at c (entryIndex a) = Some e → discardWhenUnused e = false) →
  fill_order c' = fill_order c ∧ fill_order c'' = fill_order c.
Proof.
  intros Hc Hroom Hrun Hst Hend Hkeep.
  destruct (represents_run _ _ _ _ _ Hc (getCacheData_refines md request started now waitStarted d
    (proj1 Hc))) as (c1 & Hrun1 & Hc1); [by apply request_access_wf; [apply Hc|]|].
  rewrite Hrun in Hrun1. injection Hrun1 as Hr <-.
  destruct (request_access _ _ _ _ _ d) as [r d'] eqn:Hreq. simpl in Hr, Hc1. subst r.
  destruct (request_access_hit _ _ _ _ _ _ _ _ Hreq Hst)
    as (q & readers & discard & Hq & Ha & Hgpu & Hd').
  rewrite (set_use_cells _ _ q (Ready md readers discard)) in Hd' by done.
  assert (discard = false) as ->.
  { destruct Hc as (_ & t & _ & ->). specialize (Hkeep _ ltac:(by rewrite entry_at_concrete, Hq)).
    done. }
  pose proof (Hroom _ _ _ _ (use_at_vat _ _ _ _ Hq)) as Hlt.
  rewrite inc64_small in Hd' by done.
  assert (vat (d_cells d') (entryIndex a) = Some (mkCell q (Ready md (readers + 1) false))) as Hq'.
  { rewrite Hd'. simpl. apply vat_vset_eq. by eapply vat_lt. }
  assert (holds_lease d' a) as Hheld.
  { rewrite Ha in Hst |- *. split_and!; [by rewrite Hd'..|]. simpl.
    exists md, (readers + 1), false. split_and!; [done..|lia]. }
  destruct (represents_run _ _ _ _ _ Hc1 (completeAccess_refines d' a succeeded Keep
    (proj1 Hc1) Hheld)) as (c2 & Hrun2 & Hc2); [by apply end_access_wf; [apply Hc1|]|].
  rewrite Hend in Hrun2. injection Hrun2 as <-.
  rewrite (fill_order_represents _ _ Hc), (fill_order_represents _ _ Hc1),
    (fill_order_represents _ _ Hc2).
  assert (d_fifo d' = d_fifo d) as Hf by by rewrite Hd'.
  split; [by rewrite Hf|]. unfold end_access. rewrite Hst. unfold finish_hit.
  rewrite (use_at_vat _ _ _ _ Hq'), (set_use_cells _ _ _ _ _ Hq').
  replace (retention_eqb Keep Discard) with false by done. rewrite <-Hf.
  by destruct (negb (dec64 (readers + 1) =? 0)).
Qed.

End policies.

Section arrivals.
Context `{PlatformLaws}.
Implicit Types (s : System) (d : Directory).

(** What one action does to the queues of a manager that stays in service. *)
Definition order_step s s' : Prop :=
  ∃ l l' f f', eviction_order (manager s) = Some l ∧ eviction_order (manager s') = Some l'
    ∧ fill_order (manager s) = Some f ∧ fill_order (manager s') = Some f'
    ∧ queue_step l l' ∧ queue_step f f'.

Lemma order_step_of s s' d d' :
  represents (manager s) d → represents (manager s') d' → queues_step d d' → order_step s s'.
Proof.
  intros Hc Hc' [Hl Hf]. exists (d_lru d), (d_lru d'), (d_fifo d), (d_fifo d').
  split_and!; try done; by (apply eviction_order_represents || apply fill_order_represents).
Qed.
Lemma dir_step_queues d lv sl d' lv' sl' :
  wf d → dir_step d lv sl d' lv' sl' → queues_step d d'.
Proof.
  intros Hwf Hstep. destruct Hstep as [|md request started now waitStarted r
    |n p woken now waitStarted Hp r| |n a succeeded discardNow Ha Hholds|].
  - by apply queues_same.
  - unfold r, request_access. case_match; [apply attempt_queues|by apply queues_same].
  - unfold r, resume_access.
    destruct (attempt_queues (woken_request p woken) now waitStarted (end_wait p woken d)) as [Hl Hf].
    by split.
  - by apply queues_same.
  - by apply end_access_queues.
  - split; apply queue_clear.
Qed.

(** The orders are queues: in one action of a manager that stays in
    service, the eviction order and the fill order lose entries and gain at most
    one, at the recent end; those that stay keep their relative age. *)
Theorem orders_are_queues s s' act :
  reachable s → cache_initialized (manager s) = true →
  perform s act = Some s' → cache_initialized (manager s') = true →
  order_step s s'.
Proof using All.
  intros Hs Hi Hstep Hi'.
  destruct (reachable_step s s' act Hs Hi Hstep Hi') as (d & d' & Hc & _ & Hc' & _ & Hd).
  eapply order_step_of; [done..|]. eapply dir_step_queues; [apply Hc|done].
Qed.

End arrivals.

(** *** Witnesses *)

Definition access_of (o : option (LookupResult * GpuDataCache)) : GpuDataAccess :=
  match o with Some (Returned a, _) => a | _ => GpuDataAccess_default end.

(** FIFO: both entries filled; then the older one being read; then a third
    payload filling the other one; or the reader gone again. *)
Definition both_filled : System := Eval vm_compute in state_after (boot_fifo ++ fill_both).
Definition older_read : System :=
  Eval vm_compute in state_after (boot_fifo ++ fill_both ++ [ask md_a]).
Definition third_filling : System :=
  Eval vm_compute in state_after (boot_fifo ++ fill_both ++ [ask md_a; ask md_c]).
Definition older_left : System :=
  Eval vm_compute in state_after (boot_fifo ++ fill_both ++ [ask md_a; Complete 0 true Keep]).

Lemma both_filled_settled :
  reachable both_filled ∧ ∃ d, represents (manager both_filled) d
    ∧ agree d (live both_filled) (asleep both_filled).
Proof. apply (settled _ (boot_fifo ++ fill_both)); vm_compute; reflexivity. Qed.

Lemma older_read_settled :
  reachable older_read ∧ ∃ d, represents (manager older_read) d
    ∧ agree d (live older_read) (asleep older_read).
Proof. apply (settled _ (boot_fifo ++ fill_both ++ [ask md_a])); vm_compute; reflexivity. Qed.

Lemma orders_are_complete_witness :
  ∃ l f, eviction_order (manager older_read) = Some l ∧ fill_order (manager older_read) = Some f
    ∧ 1 ∈ l ∧ 0 ∈ f.
Proof.
  destruct older_read_settled as (_ & d & Hc & _).
  destruct (orders_are_complete (manager older_read) d) as (l & f & Hl & Hf & _ & _ & Hin & Hin').
  - exact Hc.
  - exists l, f. split; [exact Hl|]. split; [exact Hf|]. split.
    + apply Hin. eexists. split; [vm_compute; reflexivity|]. split; reflexivity.
    + apply Hin'. split; [vm_compute; reflexivity|].
      eexists. split; [vm_compute; reflexivity|]. reflexivity.
Defined.

Lemma orders_are_queues_witness : order_step both_filled older_read.
Proof.
  apply (orders_are_queues both_filled older_read (ask md_a)).
  - apply both_filled_settled.
  - reflexivity.
  - vm_compute. reflexivity.
  - reflexivity.
Defined.

(** The fill of a third payload skips the entry being read. *)
Lemma fill_takes_policy_victim_witness :
  ∃ l1 l2, fill_order (manager older_read) = Some (l1 ++ 1 :: l2)
    ∧ (∀ i, i ∈ l1 → ∃ e, entry_at (manager older_read) i = Some e ∧ activeAccesses e ≠ 0)
    ∧ ∃ e, entry_at (manager older_read) 1 = Some e ∧ activeAccesses e = 0.
Proof.
  destruct older_read_settled as (_ & d & Hc & _).
  apply (fill_takes_policy_victim (manager older_read) d md_c request_a 1000 1000 1000
    (mkAccess 77 4160 64 1 (md_key md_c) 11 0 CacheFill) (manager third_filling) Hc).
  - vm_compute. reflexivity.
  - reflexivity.
Defined.

Lemma hits_keep_fill_age_witness :
  fill_order (manager older_read) = fill_order (manager both_filled)
  ∧ fill_order (manager older_left) = fill_order (manager both_filled).
Proof.
  destruct both_filled_settled as (_ & d & Hc & Hag).
  apply (hits_keep_fill_age (manager both_filled) d md_a request_a 1000 1000 1000
    (mkAccess 77 4096 64 0 key_a 11 0 CacheHit) (manager older_read) (manager older_left) true Hc).
  - eapply agree_reader_room; [exact Hag|]. reflexivity.
  - vm_compute. reflexivity.
  - reflexivity.
  - vm_compute. reflexivity.
  - intros e He. vm_compute in He. by injection He as <-.
Defined.
