(* ===== verification/CacheWaiting.v ===== *)
(** Waiting: a request sleeps only while its deadline is ahead and keeps that
    deadline across wakeups, and whatever ends its obstruction wakes it. *)
From S2P Require Import Prelude.
From S2P Require Import Platform.
From S2P Require Import GpuDataKey.
From S2P Require Import GpuResidencyTable.
From S2P Require Import SimplePlatform.
From S2P Require Import GpuDataCacheEntry.
From S2P Require Import IntrusiveList.
From S2P Require Import CacheTypes.
From S2P Require Import GpuDataCache.
From S2P Require Import GpuDataAccess.
From S2P Require Import CacheSpec.
From S2P Require Import CacheRefinement.
From S2P Require Import CacheCriticalSections.
From S2P Require Import CacheLookup.
From S2P Require Import CacheCompletion.
From S2P Require Import CacheLeases.
From S2P Require Import CacheProtocol.
From S2P Require Import CacheScenario.
#[local] Open Scope N_scope.

(** ** Deadlines *)

Lemma request_deadline_bounds timeout started :
  (0 ≤ timeout)%Z → (started ≤ TIME_POINT_MAX)%Z →
  (started ≤ request_deadline timeout started ≤ started + timeout * NS_PER_MS
   ∧ request_deadline timeout started ≤ TIME_POINT_MAX)%Z.
Proof.
  intros Ht Hs. unfold request_deadline, NS_PER_MS in *.
  pose proof (Z.mul_quot_le (TIME_POINT_MAX - started) 1000000 ltac:(lia) ltac:(lia)) as Hq.
  pose proof (Z.quot_pos (TIME_POINT_MAX - started) 1000000 ltac:(lia) ltac:(lia)) as Hp.
  revert Hq Hp. generalize ((TIME_POINT_MAX - started) ÷ 1000000)%Z. lia.
Qed.

(** ** When a request is obstructed *)
Section obstruction.
Context `{Platform}.
Implicit Types (d : Directory) (p : PendingRequest) (u : usage).

Definition busy (u : usage) : Prop :=
  match u with Free => False | Reserved _ => True | Ready _ readers _ => readers ≠ 0 end.

(** Its payload is being filled, or is absent while no entry can be taken. *)
Definition obstructs (md : FrameMetadata) d : Prop :=
  (∃ j, use_at d j = Some (Reserved md))
  ∨ d_cells d ≠ []
    ∧ ∀ j u, use_at d j = Some u → busy u
        ∧ ∀ md', resident_md u = Some md' → md_key md' ≠ md_key md.

Lemma victim_none d : wf d → victim d = None ↔ ∀ j u, use_at d j = Some u → busy u.
Proof.
  intros Hwf. split.
  - intros Hv j u Hu. unfold victim in Hv.
    destruct (last (d_free d)) eqn:Hlast; [done|]. apply last_None in Hlast.
    apply fmap_None in Hv.
    destruct u as [|md|md readers discard]; simpl; [|done|].
    + apply (wf_free _ Hwf) in Hu. rewrite Hlast in Hu. by apply elem_of_nil in Hu.
    + intros ->. destruct (policy_eqb (d_policy d) FIFO) eqn:Hpol.
      * apply policy_eqb_FIFO in Hpol.
        assert (j ∈ filter (λ i, is_idle d i = true) (d_fifo d)) as Hin.
        { apply list_elem_of_filter. unfold is_idle. rewrite Hu. split; [done|].
          apply (wf_fifo _ Hwf). eauto. }
        destruct (filter _ _); [by apply elem_of_nil in Hin|done].
      * assert (j ∈ d_lru d) as Hin by (apply (wf_lru _ Hwf); eauto).
        destruct (d_lru d); [by apply elem_of_nil in Hin|done].
  - intros Hbusy. destruct (victim d) as [[i wasEmpty]|] eqn:Hv; [|done]. exfalso.
    destruct (victim_cell _ _ _ Hwf Hv) as (q & u & _ & Hu & Hcase).
    apply Hbusy in Hu. destruct wasEmpty; [by subst|].
    destruct Hcase as (md & -> & _). done.
Qed.

Lemma index_reserved d j md : wf d → use_at d j = Some (Reserved md) →
  d_index d !! md_key md = Some j.
Proof. intros Hwf Hu. apply (wf_index _ Hwf). eauto. Qed.

(** A request sleeps exactly when it is obstructed, may wait and has time left. *)
Definition has_time p (now : Z) d : Prop := d_waitTimeout d ≠ 0%Z ∧ (now < pending_deadline p)%Z.

Lemma obstructed_sleeps o p now waitStarted d :
  has_time p now d ↔ ∃ p', fst (obstructed o p now waitStarted d) = Sleeping p'.
Proof.
  unfold obstructed, has_time.
  assert (∀ d', d_waitTimeout d' = d_waitTimeout d →
    (d_waitTimeout d ≠ 0%Z ∧ (now < pending_deadline p)%Z) ↔
    (d_waitTimeout d' =? 0)%Z || (pending_deadline p <=? now)%Z = false) as Hiff.
  { intros d' ->. rewrite orb_false_iff, Z.eqb_neq, Z.leb_gt. done. }
  rewrite (Hiff (if pending_blocked p then d else count_obstacle o d))
    by (by destruct (pending_blocked p), o).
  destruct (_ || _); cbn [fst]; (split; [|by try intros [? [=]]]); [done|eauto].
Qed.

Lemma attempt_sleeps p now waitStarted d :
  wf d →
  (∃ p', fst (attempt p now waitStarted d) = Sleeping p')
  ↔ d_failed d = false ∧ obstructs (pending_metadata p) d ∧ has_time p now d.
Proof.
  intros Hwf. unfold attempt. destruct (d_failed d) eqn:Hf; [simpl; naive_solver|].
  set (md := pending_metadata p).
  destruct (d_index d !! md_key md) as [i|] eqn:Hk.
  - pose proof Hk as (u & md' & Hu & Hmd & Hkey)%(wf_index _ Hwf).
    destruct (use_at_Some _ _ _ Hu) as [q Hq]. rewrite Hq.
    assert (obstructs md d ↔ u = Reserved md) as Hobs.
    { split; [|intros ->; left; eauto].
      intros [(j & Hj)|(_ & Hall)]; [|by destruct (proj2 (Hall _ _ Hu) md')].
      apply index_reserved in Hj as Hk'; [|done]. congruence. }
    rewrite Hobs.
    destruct u as [|md1|md1 readers discard]; simplify_eq/=; case_decide as Heq;
      try (split; [by intros [? [=]]|naive_solver]).
    rewrite Heq. rewrite <-(obstructed_sleeps KeyLoading _ _ waitStarted). naive_solver.
  - assert (∀ j u md', use_at d j = Some u → resident_md u = Some md' → md_key md' ≠ md_key md) as Habs.
    { intros j u md' Hu Hmd Hkey. assert (d_index d !! md_key md = Some j); [|congruence].
      apply (wf_index _ Hwf). eauto. }
    destruct (victim d) as [[i wasEmpty]|] eqn:Hv.
    + destruct (victim_cell _ _ _ Hwf Hv) as (q & u & Hq & Hu & Hcase). rewrite Hq. simpl.
      split; [by intros [? [=]]|]. intros (_ & [(j & Hj)|(_ & Hall)] & _).
      * by destruct (Habs _ _ _ Hj eq_refl).
      * apply Hall in Hu as [Hu _]. destruct wasEmpty; [by subst|].
        destruct Hcase as (? & -> & _). done.
    + assert (obstructs md d ↔ vsize (d_cells d) ≠ 0) as Hobs.
      { unfold obstructs. destruct (d_cells d) as [|cell cells] eqn:Hcells.
        - split; [|done]. intros [(j & Hj)|[? _]]; [|done]. unfold use_at in Hj. by rewrite Hcells in Hj.
        - split; [unfold vsize; simpl; lia|]. intros _. right. split; [done|].
          intros j u Hu. split; [by apply (proj1 (victim_none _ Hwf) Hv j)|].
          intros md'. by apply (Habs j). }
      rewrite Hobs. destruct (N.eqb_spec (vsize (d_cells d)) 0).
      * split; [by intros [? [=]]|naive_solver].
      * rewrite <-(obstructed_sleeps CacheFull _ _ waitStarted). naive_solver.
Qed.

End obstruction.

(** ** What happens without a notification *)
Section quiet.
Context `{Platform}.
Implicit Types (d : Directory) (p : PendingRequest) (u : usage).

(** A cell used without waking anybody: unchanged, read by more or fewer but
    some readers, or taken when it was free or idle. *)
Definition quiet u u' : Prop :=
  u' = u
  ∨ (∃ md readers readers' discard discard', u = Ready md readers discard
      ∧ u' = Ready md readers' discard' ∧ readers' ≠ 0)
  ∨ (¬ busy u ∧ ∃ md, u' = Reserved md).

Record quiet_step d d' : Prop := {
  quiet_failed : d_failed d' = d_failed d;
  quiet_timeout : d_waitTimeout d' = d_waitTimeout d;
  quiet_size : length (d_cells d') = length (d_cells d);
  quiet_use j : option_Forall2 quiet (use_at d j) (use_at d' j);
}.

Lemma quiet_same d d' :
  d_failed d' = d_failed d → d_waitTimeout d' = d_waitTimeout d → d_cells d' = d_cells d →
  quiet_step d d'.
Proof.
  intros Hf Ht Hc. split; [done..|by rewrite Hc|]. intros j. unfold use_at. rewrite Hc.
  destruct (vat (d_cells d) j); constructor. by left.
Qed.

Lemma quiet_cell d d' i q u u' :
  vat (d_cells d) i = Some (mkCell q u) → quiet u u' →
  d_failed d' = d_failed d → d_waitTimeout d' = d_waitTimeout d →
  d_cells d' = vset (d_cells d) i (mkCell q u') →
  quiet_step d d'.
Proof.
  intros Hq Hu Hf Ht Hc. split; [done..| |].
  - rewrite Hc, vset_insert. apply length_insert.
  - intros j. unfold use_at. rewrite Hc. destruct (decide (j = i)) as [->|Hne].
    + rewrite vat_vset_eq by (by eapply vat_lt). rewrite Hq. by constructor.
    + rewrite vat_vset_ne by done. destruct (vat (d_cells d) j); constructor. by left.
Qed.

(** Obstructed requests stay obstructed through a quiet step. *)
Lemma quiet_obstructs d d' md : quiet_step d d' → obstructs md d → obstructs md d'.
Proof.
  intros [_ _ Hlen Huse] [(j & Hj)|(Hne & Hall)].
  - left. exists j. specialize (Huse j). rewrite Hj in Huse. inversion Huse as [u u' Hq Hu|]; subst.
    f_equal. destruct Hq as [->|[(? & ? & ? & ? & ? & ? & _)|(Hb & _)]]; [done..|]. by destruct Hb.
  - right. split.
    { destruct (d_cells d'), (d_cells d); done. }
    intros j u' Hu'. specialize (Huse j). rewrite Hu' in Huse.
    inversion Huse as [u u'' Hq Hu|]; subst. symmetry in Hu. destruct (Hall _ _ Hu) as [Hb Hmd].
    destruct Hq as [->|[(md' & r & r' & disc & disc' & -> & -> & Hr)|(Hb' & _)]]; [done| |done].
    split; [done|]. simpl. intros md1 [= <-]. by apply Hmd.
Qed.

Lemma attempt_quiet p now waitStarted d :
  wf d → reader_room d →
  let d' := snd (attempt p now waitStarted d) in
  quiet_step d d' ∧ d_notified d' = d_notified d.
Proof.
  intros Hwf Hroom. unfold attempt. destruct (d_failed d) eqn:Hf; [by split; [apply quiet_same|]|].
  assert (∀ o, let d' := snd (obstructed o p now waitStarted d) in
    quiet_step d d' ∧ d_notified d' = d_notified d) as Hobs.
  { intros o. unfold obstructed. destruct (pending_blocked p), o; simpl; case_match; simpl;
      (split; [apply quiet_same|]); by destruct (pending_waited p). }
  destruct (d_index d !! md_key (pending_metadata p)) as [i|].
  - destruct (vat (d_cells d) i) as [[q [|md|md readers discard]]|] eqn:Hq;
      try case_decide; try apply Hobs; try (by split; [apply quiet_same|]).
    cbn [snd]. rewrite (set_use_cells _ i q (Ready md readers discard)) by done.
    split; [|done]. eapply quiet_cell; [done| |done..].
    right; left. pose proof (Hroom _ _ _ _ (use_at_vat _ _ _ _ Hq)).
    rewrite inc64_small by done. subst md. eexists _, readers, _, discard, discard.
    split_and!; [done..|lia].
  - destruct (victim d) as [[i wasEmpty]|] eqn:Hv.
    + destruct (victim_cell _ _ _ Hwf Hv) as (q & u & Hq & _ & Hcase). rewrite Hq. cbn [snd].
      unfold reserve.
      rewrite (set_use_cells _ i q u) by (simpl; by rewrite take_victim_cells).
      assert (¬ busy u) as Hidle.
      { destruct wasEmpty; [by subst; intros []|]. destruct Hcase as (? & -> & _). by intros []. }
      split; [|by destruct wasEmpty].
      eapply (quiet_cell d _ i q u (Reserved (pending_metadata p)));
        [done|by right; right; eauto| | |]; by destruct wasEmpty.
    + destruct (vsize (d_cells d) =? 0); [by split; [apply quiet_same|]|]. apply Hobs.
Qed.

Lemma end_access_quiet a succeeded discardNow d :
  wf d → holds_lease d a →
  let d' := end_access a succeeded discardNow d in
  d_notified d < d_notified d' ∨ quiet_step d d'.
Proof.
  intros Hwf (_ & _ & _ & Hm). unfold end_access.
  destruct (accessStatus a); [by right; apply quiet_same| | |by right; apply quiet_same].
  - destruct Hm as (md & readers & discard & Hq & _ & Hr). unfold finish_hit.
    rewrite (use_at_vat _ _ _ _ Hq). destruct (N.eqb_spec (dec64 readers) 0) as [|Hne]; cbn [negb].
    + left. destruct (discard || discardNow).
      * rewrite (free_cell_set_use _ _ _ _ _ (use_at_vat _ _ _ _ Hq)). unfold free_cell.
        rewrite (set_use_cells _ _ (d_data a) (Ready md readers discard)) by done. simpl. lia.
      * rewrite (set_use_cells _ _ _ _ _ Hq). simpl. lia.
    + right. rewrite (set_use_cells _ _ _ _ _ Hq). eapply quiet_cell; [done| |done..].
      right; left. eauto 10.
  - destruct Hm as (md & Hq & _). unfold finish_fill. rewrite (use_at_vat _ _ _ _ Hq). left.
    unfold make_filled, free_cell. rewrite !(set_use_cells _ _ (d_data a) (Reserved md)) by done.
    destruct succeeded, discardNow; simpl; try destruct (policy_eqb _ _); simpl; lia.
Qed.

Lemma dir_step_quiet d lv sl d' lv' sl' :
  wf d → reader_room d → sl ≠ [] → dir_step d lv sl d' lv' sl' →
  d_notified d < d_notified d' ∨ quiet_step d d'.
Proof.
  intros Hwf Hroom Hsl Hstep. destruct Hstep as [|md request started now waitStarted r
    |n p woken now waitStarted Hp r| |n a succeeded discardNow Ha Hholds|].
  - right. by apply quiet_same.
  - right. unfold r, request_access. case_match; [by apply attempt_quiet|by apply quiet_same].
  - right. unfold r, resume_access.
    destruct (attempt_quiet (woken_request p woken) now waitStarted (end_wait p woken d))
      as [[? ? ? ?] _]; [by eapply wf_same|done|]. by split.
  - left. simpl. lia.
  - by apply end_access_quiet.
  - done.
Qed.

End quiet.

(** ** The program's waits *)
Section waits.
Context `{Platform}.
Implicit Types (c : GpuDataCache) (d : Directory) (p : PendingRequest).

Lemma attempt_keeps_request p now waitStarted d p' :
  fst (attempt p now waitStarted d) = Sleeping p' →
  pending_metadata p' = pending_metadata p ∧ pending_request p' = pending_request p
  ∧ pending_deadline p' = pending_deadline p.
Proof.
  assert (∀ o, fst (obstructed o p now waitStarted d) = Sleeping p' →
    pending_metadata p' = pending_metadata p ∧ pending_request p' = pending_request p
    ∧ pending_deadline p' = pending_deadline p) as Hobs.
  { intros o. unfold obstructed. destruct (_ || _); cbn [fst]; [done|]. by intros [= <-]. }
  unfold attempt. destruct (d_failed d); [done|].
  destruct (d_index d !! _) as [i|].
  - destruct (vat (d_cells d) i) as [[q [|md|md readers discard]]|]; try done;
      case_decide; try done. apply Hobs.
  - destruct (victim d) as [[i wasEmpty]|]; [by destruct (vat (d_cells d) i)|].
    destruct (vsize (d_cells d) =? 0); [done|]. apply Hobs.
Qed.

Lemma request_result c d md request started now waitStarted r c' :
  represents c d → getCacheData md request started now waitStarted c = Some (r, c') →
  r = fst (request_access md request started now waitStarted d).
Proof.
  intros (Hwf & t & Ht & ->) Hrun.
  destruct (getCacheData_refines md request started now waitStarted d Hwf t Ht) as (t' & Hrun' & _).
  congruence.
Qed.

Lemma resume_result c d p woken now waitStarted r c' :
  represents c d → request_gpuId (pending_request p) = d_gpu d →
  getCacheData_resume p woken now waitStarted c = Some (r, c') →
  r = fst (resume_access p woken now waitStarted d).
Proof.
  intros (Hwf & t & Ht & ->) Hgpu Hrun.
  destruct (getCacheData_resume_refines p woken now waitStarted d Hwf Hgpu t Ht) as (t' & Hrun' & _).
  congruence.
Qed.

Lemma resume_sleeps c d p woken now waitStarted r c' :
  represents c d → request_gpuId (pending_request p) = d_gpu d →
  getCacheData_resume p woken now waitStarted c = Some (r, c') →
  (∃ p', r = Sleeping p') ↔
  d_failed d = false ∧ obstructs (pending_metadata p) d ∧ has_time p now d.
Proof.
  intros Hc Hgpu Hrun. rewrite (resume_result _ _ _ _ _ _ _ _ Hc Hgpu Hrun).
  apply (attempt_sleeps (woken_request p woken) now waitStarted (end_wait p woken d)).
  eapply wf_same; [apply Hc|done..].
Qed.

End waits.

Section waiting.
Context `{PlatformLaws}.
Implicit Types (s : System) (p : PendingRequest).

Lemma sleeper_in_service s p :
  reachable s → p ∈ asleep s →
  ∃ d, represents (manager s) d ∧ agree d (live s) (asleep s)
    ∧ cache_initialized (manager s) = true ∧ request_gpuId (pending_request p) = d_gpu d.
Proof using All.
  intros Hs Hp. destruct (reachable_invariant s Hs) as (_ & [(d & Hc & Hag)|(_ & _ & Hsl)]).
  - exists d. split_and!; [done..| |by eapply agree_request_gpu].
    by destruct Hc as (_ & t & _ & ->).
  - rewrite Hsl in Hp. by apply elem_of_nil in Hp.
Qed.

(** C33.  Waits are bounded.  A call goes to sleep only before its deadline, which is
    at most the configured time-out after the call began and never overflows
    the clock; a sleeper that wakes up returns, unless it is still obstructed
    before that same deadline: it then sleeps on with the same request and
    deadline.  A sleeper woken at or after its deadline therefore returns. *)
Theorem waits_are_bounded s :
  reachable s →
  (∀ md request started now waitStarted s' p,
     perform s (Request md request started now waitStarted) = Some s' →
     p ∈ asleep s' → p ∉ asleep s →
     pending_deadline p = request_deadline (waitTimeout (manager s)) started
     ∧ (now < pending_deadline p)%Z)
  ∧ (∀ n p woken now waitStarted s',
     asleep s !! n = Some p → has_room s = true →
     perform s (Wake n woken now waitStarted) = Some s' →
     asleep s' = without n (asleep s)
     ∨ ∃ p', asleep s' = p' :: without n (asleep s)
         ∧ pending_deadline p' = pending_deadline p ∧ (now < pending_deadline p)%Z
         ∧ pending_metadata p' = pending_metadata p ∧ pending_request p' = pending_request p).
Proof using All.
  intros Hs. split.
  - intros md request started now waitStarted s' p Hstep Hp Hnew. cbn [perform] in Hstep.
    destruct (has_room s); [|by simplify_eq/=]. cbn [negb] in Hstep.
    destruct (getCacheData _ _ _ _ _ _) as [[r c']|] eqn:Hrun; [|done]. simplify_eq/=.
    destruct r as [a|p']; [done|]. apply elem_of_cons in Hp as [->|]; [|done].
    destruct (reachable_invariant s Hs) as (_ & [(d & Hc & _)|(Hd & _)]).
    2: { rewrite dormant_request in Hrun by done. done. }
    apply (request_result _ d) in Hrun; [|done]. unfold request_access in Hrun.
    destruct (negb _ && _); [|done]. symmetry in Hrun.
    pose proof (attempt_keeps_request _ _ _ _ _ Hrun) as (_ & _ & ->).
    assert (waitTimeout (manager s) = d_waitTimeout d) as -> by (by destruct Hc as (_ & t & _ & ->)).
    split; [done|]. eapply (attempt_sleeps _ now waitStarted d); [apply Hc|eauto].
  - intros n p woken now waitStarted s' Hn Hroom Hstep. cbn [perform] in Hstep.
    rewrite Hn, Hroom in Hstep. cbn [negb] in Hstep.
    destruct (getCacheData_resume _ _ _ _ _) as [[r c']|] eqn:Hrun; [|done]. simplify_eq/=.
    destruct r as [a|p']; [by left|right]. exists p'. split; [done|].
    destruct (sleeper_in_service s p Hs) as (d & Hc & _ & _ & Hgpu);
      [by eapply list_elem_of_lookup_2|].
    pose proof (resume_result _ _ _ _ _ _ _ _ Hc Hgpu Hrun) as Hres. symmetry in Hres.
    apply (attempt_keeps_request (woken_request p woken)) in Hres as (-> & -> & ->).
    destruct (proj1 (resume_sleeps _ _ _ _ _ _ _ _ Hc Hgpu Hrun)) as (_ & _ & _ & Htime); [eauto|].
    done.
Qed.

(** C32.  No wake-up is lost: if a sleeper would go on sleeping before an action and
    would return after it, the action has notified the condition variable. *)
Theorem no_lost_wakeup s s' act p woken woken' now waitStarted waitStarted' p1 c1 a c2 :
  reachable s → has_room s = true → perform s act = Some s' →
  p ∈ asleep s → p ∈ asleep s' →
  getCacheData_resume p woken now waitStarted (manager s) = Some (Sleeping p1, c1) →
  getCacheData_resume p woken' now waitStarted' (manager s') = Some (Returned a, c2) →
  cacheChanged (manager s) < cacheChanged (manager s').
Proof using All.
  intros Hs Hroom Hstep Hp Hp' Hbefore Hafter.
  assert (reachable s') as Hs'.
  { destruct Hs as (this & w & acts & Hthis & Hrun). exists this, w, (acts ++ [act]).
    split; [done|]. by apply (run_snoc _ _ s). }
  destruct (sleeper_in_service s p Hs Hp) as (_ & _ & _ & Hi & _).
  destruct (sleeper_in_service s' p Hs' Hp') as (_ & _ & _ & Hi' & _).
  destruct (reachable_step s s' act Hs Hi Hstep Hi') as (d & d' & Hc & Hag & Hc' & Hag' & Hd).
  pose proof (agree_request_gpu _ _ _ p Hag Hp) as Hgpu.
  pose proof (agree_request_gpu _ _ _ p Hag' Hp') as Hgpu'.
  pose proof (resume_sleeps _ _ _ _ _ _ _ _ Hc Hgpu Hbefore) as [Hsleep _].
  destruct Hsleep as (Hf & Hobs & Htime); [eauto|].
  pose proof (resume_sleeps _ _ _ _ _ _ _ _ Hc' Hgpu' Hafter) as [_ Hsleep'].
  assert (cacheChanged (manager s) = d_notified d) as -> by (by destruct Hc as (_ & t & _ & ->)).
  assert (cacheChanged (manager s') = d_notified d') as -> by (by destruct Hc' as (_ & t & _ & ->)).
  apply has_room_spec in Hroom as [Hroom _].
  destruct (dir_step_quiet d (live s) (asleep s) d' (live s') (asleep s')) as [|Hquiet];
    [apply Hc|by eapply agree_reader_room| |done|done|].
  { intros Hnil. rewrite Hnil in Hp. by apply elem_of_nil in Hp. }
  exfalso. destruct Hsleep' as (p2 & [=]). split_and!.
  - by rewrite (quiet_failed _ _ Hquiet).
  - by eapply quiet_obstructs.
  - unfold has_time. by rewrite (quiet_timeout _ _ Hquiet).
Qed.

End waiting.

(** *** Witnesses: a second request for a payload being filled *)

Definition one_waits : System := Eval vm_compute in state_after (boot ++ [ask md_a; ask md_a]).
Definition fill_done : System :=
  Eval vm_compute in state_after (boot ++ [ask md_a; ask md_a; Complete 0 true Keep]).
Definition waiter : PendingRequest := mkPending md_a request_a 10001000 true true 0 1000.

Lemma one_waits_reachable : reachable one_waits.
Proof. apply (settled _ (boot ++ [ask md_a; ask md_a])); vm_compute; reflexivity. Qed.

Definition waited_too_long : System :=
  Eval vm_compute in
    state_after (boot ++ [ask md_a; ask md_a; Wake 0 10001000 10001000 10001000]).

Lemma waits_are_bounded_witness :
  perform one_waits (Wake 0 10001000 10001000 10001000) = Some waited_too_long
  ∧ asleep waited_too_long = [].
Proof.
  assert (perform one_waits (Wake 0 10001000 10001000 10001000) = Some waited_too_long) as Hstep
    by (vm_compute; reflexivity).
  split; [exact Hstep|].
  destruct (waits_are_bounded one_waits one_waits_reachable) as [_ Hwake].
  destruct (Hwake 0%nat waiter _ _ _ _ eq_refl eq_refl Hstep)
    as [Hnone|(p' & _ & _ & Hlate & _)].
  - exact Hnone.
  - vm_compute in Hlate. discriminate.
Defined.

Definition hit_after_wait : GpuDataAccess := mkAccess 77 4096 64 0 key_a 11 0 CacheHit.
Definition resumed (s : System) : GpuDataCache :=
  match getCacheData_resume waiter 2000 2000 2000 (manager s) with
  | Some (_, c) => c | None => manager s end.

Lemma no_lost_wakeup_witness : cacheChanged (manager one_waits) < cacheChanged (manager fill_done).
Proof.
  apply (no_lost_wakeup one_waits fill_done (Complete 0 true Keep) waiter 2000 2000 2000 2000 2000
    (mkPending md_a request_a 10001000 true true 1000 2000) (resumed one_waits)
    hit_after_wait (resumed fill_done)).
  - apply one_waits_reachable.
  - reflexivity.
  - vm_compute. reflexivity.
  - left.
  - left.
  - vm_compute. reflexivity.
  - vm_compute. reflexivity.
Defined.
