(* ===== verification/CacheFailure.v ===== *)
(** Failures: a failed stream synchronization takes the manager out of business
    until it is released, and a lease is returned however its holder ends. *)
From S2P Require Import Prelude.
From S2P Require Import Platform.
From S2P Require Import GpuDataKey.
From S2P Require Import GpuResidencyTable.
From S2P Require Import SimplePlatform.
From S2P Require Import GpuDataCacheEntry.
From S2P Require Import IntrusiveList.
From S2P Require Import CacheTypes.
From S2P Require Import GpuDataCache.
From S2P Require Import GpuDataAccess.
From S2P Require Import CacheLifecycle.
From S2P Require Import CacheSpec.
From S2P Require Import CacheRefinement.
From S2P Require Import CacheCriticalSections.
From S2P Require Import CacheLookup.
From S2P Require Import CacheCompletion.
From S2P Require Import CacheLeases.
From S2P Require Import CacheLifetime.
From S2P Require Import CacheProtocol.
From S2P Require Import CacheScenario.
#[local] Open Scope N_scope.

(** ** A failed manager *)
Section failure.
Context `{PlatformLaws}.
Implicit Types (s : System) (d : Directory) (a : GpuDataAccess).

Lemma attempt_failed p now waitStarted d : d_failed d = true → attempt p now waitStarted d = reject d.
Proof. unfold attempt. by intros ->. Qed.

Lemma set_use_failed i u d : d_failed (set_use i u d) = d_failed d.
Proof. unfold set_use. by destruct (vat (d_cells d) i). Qed.

Lemma end_access_failed a succeeded discardNow d :
  d_failed (end_access a succeeded discardNow d) = d_failed d.
Proof.
  unfold end_access, finish_hit, finish_fill.
  destruct (accessStatus a), (use_at d (entryIndex a)) as [[|md|md r disc]|]; try done.
  - destruct (negb _); [by rewrite set_use_failed|].
    destruct (disc || discardNow); simpl; by rewrite ?set_use_failed.
  - unfold bump, make_evictable, make_filled, notify.
    destruct succeeded, discardNow; simpl; try destruct (policy_eqb _ _); simpl;
      by rewrite set_use_failed.
Qed.

Lemma dir_step_failed d lv sl d' lv' sl' :
  dir_step d lv sl d' lv' sl' → d_failed d = true →
  d_failed d' = true ∧ lv' `sublist_of` lv ∧ sl' `sublist_of` sl.
Proof.
  intros Hstep Hf. destruct Hstep as [|md request started now waitStarted r
    |n p woken now waitStarted Hp r| |n a succeeded discardNow Ha Hholds|]; simpl; try done.
  - unfold r, request_access. by rewrite Hf.
  - unfold r, resume_access. rewrite attempt_failed by done. simpl.
    split_and!; [done..|apply sublist_delete].
  - rewrite end_access_failed. split_and!; [done|apply sublist_delete|done].
Qed.

(** C35.  A failed manager stays failed, hands out no access and puts nobody to sleep,
    whatever is called, until a release takes it out of service; the accesses
    that are out can still be returned. *)
Theorem failed_manager_grants_nothing s s' act :
  reachable s → cache_initialized (manager s) = true → failed (manager s) = true →
  perform s act = Some s' →
  live s' `sublist_of` live s ∧ asleep s' `sublist_of` asleep s
  ∧ (cache_initialized (manager s') = true → failed (manager s') = true)
  ∧ (cache_initialized (manager s') = false → act = Release ∧ live s = [] ∧ asleep s = []).
Proof using All.
  intros Hs Hi Hf Hstep. destruct (reachable_in_service s Hs Hi) as (d & Hc & Hag).
  destruct (in_service_step s act d Hc Hag) as (s1 & Hstep' & Hor).
  rewrite Hstep in Hstep'. injection Hstep' as <-.
  assert (d_failed d = true) as Hfd by (destruct Hc as (_ & t & _ & Heq); by rewrite Heq in Hf).
  destruct Hor as [(_ & d' & Hc' & _ & Hd)|(-> & Hl & Hsl & (_ & Hd & Hl' & Hsl'))].
  - destruct (dir_step_failed _ _ _ _ _ _ Hd Hfd) as (Hf' & ? & ?).
    destruct Hc' as (_ & t' & _ & ->). simpl. by split_and!.
  - rewrite Hl', Hsl'. split_and!; [apply sublist_nil_l..|by rewrite (dormant_initialized _ Hd)|done].
Qed.

End failure.

(** ** Returning an access *)
Section returning.
Context `{Platform}.
Implicit Types (c : GpuDataCache) (d : Directory) (a : GpuDataAccess) (w : world).

(** The directory after the holder has synchronized its stream. *)
Definition synchronized (status : cuda_status) d : Directory :=
  if cuda_ok status then d else sync_failure d.

Lemma synchronized_refines status d :
  refines (if cuda_ok status then λ c, Some ((), c) else noteSyncFailure) d ()
    (synchronized status d).
Proof. unfold synchronized. case_match; [apply refines_ret|apply noteSyncFailure_refines]. Qed.

Lemma synchronized_wf status d : wf d → wf (synchronized status d).
Proof. intros Hwf. unfold synchronized. case_match; [done|]. by eapply wf_same. Qed.

Lemma synchronized_holds status d a : holds_lease d a → holds_lease (synchronized status d) a.
Proof. unfold synchronized. by case_match. Qed.

Lemma run_synchronized c d status :
  represents c d →
  ∃ c', (if cuda_ok status then Some ((), c) else noteSyncFailure c) = Some ((), c')
    ∧ represents c' (synchronized status d).
Proof.
  intros Hc. destruct (represents_run _ _ _ _ _ Hc (synchronized_refines status d))
    as (c' & Hrun & Hc'); [by apply synchronized_wf, Hc|].
  exists c'. split; [|done]. by destruct (cuda_ok status).
Qed.

Definition valid_retention (retention : CacheRetention) : bool :=
  retention_eqb retention Keep || retention_eqb retention Discard.

Lemma freeCacheData_run c d a submitted retention w status w' :
  represents c d → holds_lease d a → owner a ≠ nullptr → stream a ≠ nullptr →
  cudaStreamSynchronize (stream a) w = (status, w') →
  let ok := submitted && valid_retention retention && cuda_ok status in
  ∃ c', freeCacheData a submitted retention c w = Some (ok, GpuDataAccess_default, c', w')
    ∧ represents c' (end_access a ok (retention_eqb retention Discard) (synchronized status d))
    ∧ (cuda_ok status = false → failed c' = true).
Proof.
  intros Hc Ha Hown Hstream Hsync ok. unfold freeCacheData.
  rewrite (proj2 (N.eqb_neq _ _) Hown), (proj2 (N.eqb_neq _ _) Hstream), Hsync. cbn [orb].
  destruct (run_synchronized c d status Hc) as (c1 & -> & Hc1). cbn [mbind option_bind].
  fold (valid_retention retention). fold ok.
  set (r := if valid_retention retention then retention else Keep).
  assert (retention_eqb retention Discard = retention_eqb r Discard) as ->
    by (unfold r; destruct retention; done).
  pose proof (synchronized_holds status _ _ Ha) as Ha1.
  destruct (represents_run _ _ _ _ _ Hc1 (completeAccess_refines _ a ok r (proj1 Hc1) Ha1))
    as (c' & -> & Hc'); [by apply end_access_wf; [apply Hc1|]|].
  exists c'. split_and!; [done..|]. intros Hfail.
  destruct Hc' as (_ & t & _ & ->). simpl. rewrite end_access_failed.
  unfold synchronized. by rewrite Hfail.
Qed.

(** [freeCacheData] waits for the borrowed stream and ends the lease, once,
    whatever happens.  It reports success, and publishes a fill, only if the
    caller submitted its work, the stream synchronized and the retention was
    one of the two choices; a failed synchronization also fails the manager,
    before the lease ends. *)
Theorem freeCacheData_outcome c d a submitted retention w status w' :
  represents c d → holds_lease d a → owner a ≠ nullptr → stream a ≠ nullptr →
  cudaStreamSynchronize (stream a) w = (status, w') →
  let ok := submitted && valid_retention retention && cuda_ok status in
  ∃ c', freeCacheData a submitted retention c w = Some (ok, GpuDataAccess_default, c', w')
    ∧ represents c' (end_access a ok (retention_eqb retention Discard) (synchronized status d))
    ∧ (cuda_ok status = false → failed c' = true).
Proof. apply freeCacheData_run. Qed.

Lemma access_destruct_run c d a w status w' :
  represents c d → holds_lease d a → owner a ≠ nullptr →
  cudaStreamSynchronize (stream a) w = (status, w') →
  ∃ a' c', abortUnfinishedAccess a c w = Some (a', c', w')
    ∧ access_destruct a c w = Some (c', w')
    ∧ represents c' (end_access a false false (synchronized status d))
    ∧ (cuda_ok status = false → failed c' = true).
Proof.
  intros Hc Ha Hown Hsync. unfold access_destruct, abortUnfinishedAccess.
  rewrite (proj2 (N.eqb_neq _ _) Hown), Hsync.
  destruct (run_synchronized c d status Hc) as (c1 & -> & Hc1). cbn [mbind option_bind].
  pose proof (synchronized_holds status _ _ Ha) as Ha1.
  destruct (represents_run _ _ _ _ _ Hc1 (abortAccess_refines _ a (proj1 Hc1) Ha1))
    as (c' & -> & Hc'); [by apply end_access_wf; [apply Hc1|]|].
  eexists _, c'. split_and!; [done..|]. intros Hfail.
  destruct Hc' as (_ & t & _ & ->). simpl. rewrite end_access_failed.
  unfold synchronized. by rewrite Hfail.
Qed.

(** An access that is destroyed, or overwritten by a move, without completion
    waits for its stream and ends its lease as a failed one that keeps the
    payload; a moved access hands its lease over and keeps nothing. *)
Theorem dropped_access_is_returned c d a other w status w' :
  represents c d → holds_lease d a → owner a ≠ nullptr →
  cudaStreamSynchronize (stream a) w = (status, w') →
  ∃ c', access_destruct a c w = Some (c', w')
    ∧ access_move_assign a other c w = Some (other, GpuDataAccess_default, c', w')
    ∧ represents c' (end_access a false false (synchronized status d)).
Proof.
  intros Hc Ha Hown Hsync. unfold access_move_assign.
  destruct (access_destruct_run c d a w status w' Hc Ha Hown Hsync) as (a' & c' & -> & -> & Hc' & _).
  exists c'. split_and!; [done| |done]. by destruct other.
Qed.

End returning.

(** *** Witnesses *)

Definition broken : System := Eval vm_compute in state_after (boot ++ [ask md_a; SyncFailure]).
Definition broken_after : System :=
  Eval vm_compute in state_after (boot ++ [ask md_a; SyncFailure; ask md_b]).

Lemma failed_manager_grants_nothing_witness :
  live broken_after `sublist_of` live broken ∧ failed (manager broken_after) = true.
Proof.
  destruct (failed_manager_grants_nothing broken broken_after (ask md_b))
    as (Hlive & _ & Hfailed & _).
  - apply (settled _ (boot ++ [ask md_a; SyncFailure])); vm_compute; reflexivity.
  - reflexivity.
  - reflexivity.
  - vm_compute. reflexivity.
  - split; [exact Hlive|]. apply Hfailed. reflexivity.
Defined.

Lemma freeCacheData_outcome_witness :
  ∃ c', freeCacheData fill_a true Keep filling broken_machine
      = Some (false, GpuDataAccess_default, c', broken_machine)
    ∧ represents c' (end_access fill_a false false (sync_failure directory_1))
    ∧ failed c' = true.
Proof.
  destruct (@freeCacheData_outcome SimplePlatform filling directory_1 fill_a true Keep broken_machine 700%Z
    broken_machine) as (c' & Hrun & Hc' & Hfailed).
  - apply filling_represents.
  - apply fill_a_held.
  - done.
  - done.
  - reflexivity.
  - exists c'. split; [exact Hrun|]. split; [exact Hc'|]. apply Hfailed. reflexivity.
Defined.

Lemma dropped_access_is_returned_witness :
  ∃ c', access_destruct fill_a filling idle_machine = Some (c', idle_machine)
    ∧ access_move_assign fill_a GpuDataAccess_default filling idle_machine
        = Some (GpuDataAccess_default, GpuDataAccess_default, c', idle_machine)
    ∧ represents c' (end_access fill_a false false directory_1).
Proof.
  apply (@dropped_access_is_returned SimplePlatform filling directory_1 fill_a GpuDataAccess_default idle_machine
    0%Z idle_machine).
  - apply filling_represents.
  - apply fill_a_held.
  - done.
  - reflexivity.
Defined.
