(* ===== verification/CacheService.v ===== *)
(** Going into service and out of it: initialization is all or nothing, and a
    release waits for nobody: it is refused while anything is out, and otherwise
    leaves a manager that can be initialized again once everything was freed. *)
From S2P Require Import Prelude.
From S2P Require Import Platform.
From S2P Require Import GpuDataKey.
From S2P Require Import GpuResidencyTable.
From S2P Require Import SimplePlatform.
From S2P Require Import GpuDataCacheEntry.
From S2P Require Import IntrusiveList.
From S2P Require Import CacheTypes.
From S2P Require Import GpuDataCache.
From S2P Require Import GpuDataAccess.
From S2P Require Import CacheLifecycle.
From S2P Require Import CacheSpec.
From S2P Require Import CacheRefinement.
From S2P Require Import CacheCriticalSections.
From S2P Require Import CacheLookup.
From S2P Require Import CacheCompletion.
From S2P Require Import CacheLeases.
From S2P Require Import CacheLifetime.
From S2P Require Import CacheProtocol.
From S2P Require Import CacheScenario.
#[local] Open Scope N_scope.

Section service.
Context `{PlatformLaws}.
Implicit Types (s : System) (c : GpuDataCache) (w : world) (e : GpuDataCacheEntry).

(** Initialization is all or nothing.  It fails and changes nothing, or the
    manager was out of service and pristine, the parameters were the supported
    ones, and the manager is now a well-formed empty cache with the requested
    number of entries on the one requested GPU, every one of them free. *)
Theorem initialize_is_all_or_nothing c gpuIds bytes count wait policy w :
  waitingAccesses c = 0 →
  ∃ ok c' w', initialize c gpuIds bytes count wait policy w = Some (ok, c', w')
    ∧ if ok : bool then
        not_pristine c = false ∧ valid_parameters gpuIds bytes wait policy
        ∧ cache_initialized c' = true ∧ failed c' = false
        ∧ vsize (entries c') = count ∧ eligibleGpuIds c' = gpuIds
        ∧ ∃ d, represents c' d ∧ d_index d = ∅
            ∧ ∀ i, i < count → use_at d i = Some Free ∧ i ∈ d_free d
      else c' = c.
Proof using All.
  intros Hw.
  destruct (initialize_refines c gpuIds bytes count wait policy w Hw)
    as (ok & c' & w' & Hrun & Hfail & Hok).
  exists ok, c', w'. split; [done|]. destruct ok; [|by apply Hfail].
  destruct (Hok eq_refl) as (gpu & cells & -> & Hsize & Hfresh & Hparams & Hc').
  assert (not_pristine c = false) as Hpris.
  { unfold initialize in Hrun. destruct (initialize_rejects _ _ _ _ _) eqn:Hrej; [by simplify_eq|].
    by destruct (initialize_accepts _ _ _ _ _ Hrej). }
  pose proof Hc' as (Hwf & t & _ & ->). split_and!; try done.
  { rewrite <-Hsize. apply vsize_entries_concrete. }
  eexists. split; [exact Hc'|]. split; [done|]. intros i Hi.
  assert (use_at (initial_directory c gpu bytes wait policy cells) i = Some Free) as Hu.
  { unfold use_at. simpl. rewrite <-Hsize in Hi. destruct (vat_exists cells i Hi) as [cell Hcell].
    rewrite Hcell. simpl. f_equal. apply Hfresh. by eapply vat_elem_of. }
  split; [done|]. by apply (wf_free _ Hwf).
Qed.

(** What one release does, wherever the manager is in its life. *)
Lemma release_from s :
  invariant s →
  ∃ ok c' w', release (manager s) (outside s) = (ok, c', w')
    ∧ (ok = false ∧ c' = manager s ∧ w' = outside s ∧ (live s ≠ [] ∨ asleep s ≠ [])
       ∨ live s = [] ∧ asleep s = [] ∧ out_of_service (mkSystem c' [] [] w')
         ∧ (ok = true → pristine c')).
Proof using All.
  intros (Hself & Hor). destruct (canResetLocked (manager s)) eqn:Hcan.
  - assert (live s = [] ∧ asleep s = []) as [Hl Hsl].
    { destruct Hor as [(d & Hc & Hag)|(_ & ? & ?)]; [|done]. apply (agree_idle d); [done|].
      by rewrite <-(in_service_canReset (manager s)). }
    assert (releasing (manager s) = false) as Hr.
    { destruct Hor as [(d & (_ & t & _ & ->) & _)|(Hd & _)]; [done|by apply dormant_releasing]. }
    destruct (release_proceeds (manager s) (outside s) Hr Hcan) as (ok & c' & w' & -> & Hs & Hc').
    destruct Hc' as [Hd Hok].
    { destruct Hor as [(d & (_ & t & _ & ->) & _)|(Hd & _)]; [by left|by right]. }
    eexists _, _, _. split; [done|]. right. split_and!; try done. split; simpl; [by rewrite Hs|done].
  - destruct Hor as [(d & Hc & Hag)|(Hd & _)]; [|by rewrite (dormant_idle _ Hd) in Hcan].
    exists false, (manager s), (outside s). split.
    + destruct Hc as (_ & t & _ & Heq). rewrite Heq in Hcan |- *.
      unfold release, release_begin. by rewrite Hcan.
    + left. split_and!; try done.
      destruct (decide (live s = [])) as [Hl|]; [|by left].
      destruct (decide (asleep s = [])) as [Hsl|]; [|by right].
      rewrite Hl, Hsl in Hag. apply agree_nothing in Hag.
      rewrite <-(in_service_canReset (manager s)) in Hag by done. congruence.
Qed.

(** A release is refused, and changes nothing, while an access is out or a
    request sleeps.  Otherwise the manager is out of service afterwards; if the
    release reports success every allocation was freed and the manager may be
    initialized again. *)
Theorem release_outcome s :
  reachable s →
  ∃ ok c' w', release (manager s) (outside s) = (ok, c', w')
    ∧ (live s ≠ [] ∨ asleep s ≠ [] → ok = false ∧ c' = manager s ∧ w' = outside s)
    ∧ (live s = [] → asleep s = [] →
         cache_initialized c' = false ∧ canResetLocked c' = true
         ∧ (ok = true → pristine c')).
Proof using All.
  intros Hs. destruct (release_from s (reachable_invariant s Hs)) as (ok & c' & w' & -> & Hor).
  eexists _, _, _. split; [done|].
  destruct Hor as [(-> & -> & -> & Hout)|(-> & -> & (_ & Hd & _) & Hok)].
  - split; [done|]. intros Hl Hsl. by destruct Hout.
  - split; [by intros []|]. intros _ _. by split_and!; [apply Hd..|].
Qed.

(** Releasing an entry never loses an allocation: a leased or loading entry is
    refused and kept as it is; otherwise the entry is as constructed, or keeps
    exactly the allocations that could not be freed. *)
Theorem entry_release_outcome e w :
  ∃ ok e' w', entry_release e w = (ok, e', w')
    ∧ (resettable e = false → ok = false ∧ e' = e ∧ w' = w)
    ∧ (resettable e = true →
         if ok : bool then e' = GpuDataCacheEntry_default
         else e' = e <| replicas := replicas e' |>
              ∧ ∃ r, r ∈ replicas e' ∧ replica_d_data r ≠ nullptr).
Proof using All.
  destruct (resettable e) eqn:Hr.
  - destruct (entry_release_result e w Hr) as (ok & e' & w' & Hrun & _ & Hok & Hfail).
    exists ok, e', w'. split_and!; [done..|]. intros _. destruct ok; [by apply Hok|].
    destruct (Hfail eq_refl) as [He' Hall]. split; [done|].
    clear -Hall. induction (replicas e') as [|r reps IH]; [done|]. simpl in Hall.
    destruct (N.eqb_spec (replica_d_data r) nullptr) as [|Hne]; simpl in Hall.
    + destruct (IH Hall) as (r' & ? & ?). exists r'. split; [by right|done].
    + exists r. split; [left|done].
  - eexists _, _, _. split; [by apply entry_release_refused|]. done.
Qed.

End service.

(** *** Witnesses *)

Lemma initialize_is_all_or_nothing_witness :
  ∃ ok c' w', initialize (GpuDataCache_default this_a) [0%Z] 64 2 10 LRU idle_machine
      = Some (ok, c', w') ∧ ok = true ∧ vsize (entries c') = 2.
Proof.
  destruct (@initialize_is_all_or_nothing SimplePlatform _ (GpuDataCache_default this_a)
    [0%Z] 64 2 10 LRU idle_machine) as (ok & c' & w' & Hrun & Hout).
  - reflexivity.
  - exists ok, c', w'. split; [exact Hrun|]. vm_compute in Hrun.
    destruct ok; [|discriminate]. split; [reflexivity|]. apply Hout.
Defined.

Definition at_rest : System := Eval vm_compute in state_after (boot ++ fill_both).
Definition in_use : System := Eval vm_compute in state_after (boot ++ [ask md_a]).

Lemma release_outcome_witness :
  (∃ c' w', release (manager at_rest) (outside at_rest) = (true, c', w') ∧ pristine c')
  ∧ release (manager in_use) (outside in_use) = (false, manager in_use, outside in_use).
Proof.
  split.
  - destruct (release_outcome at_rest) as (ok & c' & w' & Hrun & _ & Hout).
    + apply (settled _ (boot ++ fill_both)); vm_compute; reflexivity.
    + destruct Hout as (_ & _ & Hp); [reflexivity|reflexivity|].
      destruct ok; [|vm_compute in Hrun; discriminate].
      exists c', w'. split; [exact Hrun|]. apply Hp. reflexivity.
  - destruct (release_outcome in_use) as (ok & c' & w' & Hrun & Hrefused & _).
    + apply (settled _ (boot ++ [ask md_a])); vm_compute; reflexivity.
    + destruct Hrefused as (Hok & Hc & Hw); [left; discriminate|].
      rewrite Hrun, Hok, Hc, Hw. reflexivity.
Defined.
