(* ===== verification/CacheAccounting.v ===== *)
(** The statistics: whatever the interleaving, the counters of the manager
    reconcile with each other and with the accesses that are out, modulo the
    64 bits they are kept in. *)
From S2P Require Import Prelude.
From S2P Require Import Platform.
From S2P Require Import GpuDataKey.
From S2P Require Import GpuResidencyTable.
From S2P Require Import SimplePlatform.
From S2P Require Import GpuDataCacheEntry.
From S2P Require Import IntrusiveList.
From S2P Require Import CacheTypes.
From S2P Require Import GpuDataCache.
From S2P Require Import GpuDataAccess.
From S2P Require Import CacheLifecycle.
From S2P Require Import CacheSpec.
From S2P Require Import CacheRefinement.
From S2P Require Import CacheCriticalSections.
From S2P Require Import CacheLookup.
From S2P Require Import CacheCompletion.
From S2P Require Import CacheLeases.
From S2P Require Import CacheLifetime.
From S2P Require Import CacheProtocol.
From S2P Require Import CacheScenario.
#[local] Open Scope N_scope.

(** Equality of 64-bit counters. *)
Definition same64 (a b : N) : Prop := a mod two64 = b mod two64.

#[export] Instance same64_equivalence : Equivalence same64.
Proof. split; red; unfold same64; intros; congruence. Qed.

#[export] Instance same64_add : Proper (same64 ==> same64 ==> same64) N.add.
Proof.
  intros a a' Ha b b' Hb. unfold same64 in *.
  rewrite (N.Div0.add_mod a b), (N.Div0.add_mod a' b'). by rewrite Ha, Hb.
Qed.

Lemma same64_inc a : same64 (inc64 a) (a + 1).
Proof. unfold same64, inc64, add64, wrap64. apply N.Div0.mod_mod. Qed.

Lemma same64_eq a b : a = b → same64 a b.
Proof. by intros ->. Qed.

Definition reasons (s : CacheFallbackStatistics) : N :=
  capacityZero s + loadingTimeout s + fullTimeout s + loadingNoWait s + fullNoWait s
  + replicaUnavailable s.

Lemma reasons_counted reason s : same64 (reasons (count_fallback_reason reason s)) (reasons s + 1).
Proof.
  unfold reasons. destruct reason; simpl; rewrite same64_inc;
    apply same64_eq; lia.
Qed.

(** The fills that are out. *)
Definition open_fills (live : list GpuDataAccess) : N :=
  tally (λ a, status_eqb (accessStatus a) CacheFill) live.

(** Every fallback has one reason; every fill was published or discarded,
    failed, or is still out. *)
Definition reconciled (s : CacheStatistics) (live : list GpuDataAccess) : Prop :=
  same64 (stat_fallback s) (reasons (fallbackReasons s))
  ∧ same64 (stat_fill s) (stat_fillSucceeded s + stat_fillFailed s + open_fills live).

Section accounting.
Context `{PlatformLaws}.
Implicit Types (s : System) (d : Directory) (a : GpuDataAccess).

Lemma set_use_stats i u d : d_stats (set_use i u d) = d_stats d.
Proof. unfold set_use. by destruct (vat (d_cells d) i). Qed.

Lemma open_fills_cons a live :
  open_fills (a :: live) = open_fills live + (if decide (accessStatus a = CacheFill) then 1 else 0).
Proof.
  unfold open_fills. cbn [tally]. unfold status_eqb at 1.
  case_bool_decide; case_decide; try done; lia.
Qed.

(** Statistics that differ in no reconciled counter. *)
Lemma reconciled_same st st' live :
  stat_fallback st' = stat_fallback st → fallbackReasons st' = fallbackReasons st →
  stat_fill st' = stat_fill st → stat_fillSucceeded st' = stat_fillSucceeded st →
  stat_fillFailed st' = stat_fillFailed st → reconciled st live → reconciled st' live.
Proof. unfold reconciled. by intros -> -> -> -> ->. Qed.

Lemma fallback_reconciled md request reason d live :
  let r := fallback md request reason d in
  reconciled (d_stats d) live → reconciled (d_stats (snd r)) (granted (fst r) live).
Proof.
  intros r [Hfb Hfill]. unfold r. simpl.
  assert (open_fills (if access_bool (lease NO_ENTRY (request_d_fallback request) md request
    TaskFallback d) then lease NO_ENTRY (request_d_fallback request) md request
    TaskFallback d :: live else live) = open_fills live) as Hopen.
  { case_match; [|done]. rewrite open_fills_cons, decide_False; [lia|done]. }
  split; simpl; [|by rewrite Hopen].
  rewrite same64_inc, reasons_counted. by rewrite Hfb.
Qed.

Lemma attempt_reconciled p now waitStarted d live :
  wf d → d_self d ≠ nullptr → reconciled (d_stats d) live →
  let r := attempt p now waitStarted d in
  reconciled (d_stats (snd r)) (granted (fst r) live).
Proof.
  intros Hwf Hself Hrec r. unfold r, attempt.
  destruct (d_failed d); [by eapply reconciled_same|].
  assert (∀ o, let r := obstructed o p now waitStarted d in
    reconciled (d_stats (snd r)) (granted (fst r) live)) as Hobs.
  { intros o. unfold obstructed. set (d1 := if pending_blocked p then d else count_obstacle o d).
    assert (reconciled (d_stats d1) live) as Hrec1
      by (unfold d1; destruct (pending_blocked p), o; by eapply reconciled_same).
    destruct (_ || _); [by apply fallback_reconciled|]. simpl.
    destruct (pending_waited p); by eapply reconciled_same. }
  assert (∀ i q md request st d', accessStatus (lease i q md request st d') = st) as Hst by done.
  destruct (d_index d !! md_key (pending_metadata p)) as [i|].
  - destruct (vat (d_cells d) i) as [[q [|md|md readers discard]]|];
      try case_decide; try (by eapply reconciled_same); try apply Hobs.
    cbn [fst snd granted]. unfold access_bool. simpl.
    rewrite (proj2 (N.eqb_neq _ _) Hself), set_use_stats. simpl. destruct Hrec as [Hfb Hfill].
    split; simpl; [done|]. rewrite open_fills_cons, decide_False by done. by rewrite N.add_0_r.
  - destruct (victim d) as [[i wasEmpty]|].
    + destruct (vat (d_cells d) i) as [[q u]|]; [|by eapply reconciled_same].
      cbn [fst snd granted]. unfold access_bool. simpl.
      rewrite (proj2 (N.eqb_neq _ _) Hself). simpl. unfold reserve.
      destruct Hrec as [Hfb Hfill].
      destruct wasEmpty; (split; simpl; rewrite !set_use_stats; simpl; [done|]);
        rewrite open_fills_cons, decide_True, same64_inc, Hfill by done; by rewrite !N.add_assoc.
    + destruct (vsize (d_cells d) =? 0); [by apply fallback_reconciled|apply Hobs].
Qed.

Lemma open_fills_without n a live :
  live !! n = Some a →
  open_fills live = open_fills (without n live)
    + (if decide (accessStatus a = CacheFill) then 1 else 0).
Proof.
  intros Ha. rewrite <-open_fills_cons. apply tally_perm. by apply delete_Permutation.
Qed.

Lemma end_access_reconciled n a succeeded discardNow d live :
  live !! n = Some a → holds_lease d a → reconciled (d_stats d) live →
  reconciled (d_stats (end_access a succeeded discardNow d)) (without n live).
Proof.
  intros Hn (_ & _ & _ & Hm) [Hfb Hfill].
  rewrite (open_fills_without _ _ _ Hn) in Hfill. unfold end_access.
  destruct (accessStatus a) eqn:Hst; [done| | |].
  - rewrite N.add_0_r in Hfill. unfold finish_hit.
    destruct (use_at d (entryIndex a)) as [[|md|md r disc]|]; try done.
    destruct (negb _); [by rewrite set_use_stats|].
    destruct (disc || discardNow); (split; simpl; rewrite ?set_use_stats; done).
  - rewrite decide_True in Hfill by done. destruct Hm as (md & Hq & _). unfold finish_fill.
    rewrite (use_at_vat _ _ _ _ Hq).
    destruct succeeded, discardNow; simpl; unfold make_filled; try destruct (policy_eqb _ _);
      (split; simpl; rewrite ?set_use_stats; simpl; [done|]); rewrite same64_inc, Hfill;
      apply same64_eq; lia.
  - by rewrite N.add_0_r in Hfill.
Qed.

Lemma dir_step_reconciled d lv sl d' lv' sl' :
  wf d → agree d lv sl → reconciled (d_stats d) lv → dir_step d lv sl d' lv' sl' →
  reconciled (d_stats d') lv'.
Proof.
  intros Hwf Hag Hrec Hstep. pose proof (agree_self _ _ _ Hag) as Hself.
  destruct Hstep as [|md request started now waitStarted r
    |n p woken now waitStarted Hp r| |n a succeeded discardNow Ha Hholds|]; [done|..].
  - unfold r, request_access. case_match; [by apply attempt_reconciled|by eapply reconciled_same].
  - unfold r, resume_access. apply attempt_reconciled; [by eapply wf_same|done|].
    by eapply reconciled_same.
  - by eapply reconciled_same.
  - by apply end_access_reconciled.
  - subst lv. by split.
Qed.

(** The counters of a manager in service reconcile: the fallbacks are the sum of
    their reasons, and the fills are those that succeeded, those that failed
    and those still out. *)
Theorem statistics_reconcile s :
  reachable s → cache_initialized (manager s) = true →
  reconciled (statistics (manager s)) (live s).
Proof using All.
  intros Hs Hi.
  destruct (reachable_serves (λ d lv _, reconciled (d_stats d) lv) s)
    as [(d & Hc & _ & Hrec)|(_ & Hd & _)]; [done| |done| |].
  - intros d lv sl d' lv' sl' Hwf Hag Hrec Hstep. by eapply dir_step_reconciled.
  - by destruct Hc as (_ & t & _ & ->).
  - by rewrite (dormant_initialized _ Hd) in Hi.
Qed.

End accounting.

Definition counted : System :=
  Eval vm_compute in
    state_after (boot ++ [ask md_a; ask md_b; ask md_a; Wake 0 90000000 90000000 90000000;
                          Complete 2 false Keep; ask md_c]).

Lemma statistics_reconcile_witness : reconciled (statistics (manager counted)) (live counted).
Proof.
  apply (statistics_reconcile counted).
  - apply (settled _ (boot ++ [ask md_a; ask md_b; ask md_a; Wake 0 90000000 90000000 90000000;
                               Complete 2 false Keep; ask md_c])); vm_compute; reflexivity.
  - reflexivity.
Defined.
