(* ===== verification/GpuContextManager.v ===== *)
(** [GpuContextManager]: the registry of GPUs, their primary contexts and the
    tasks registered on them ([src/Context/GpuContextManager.h] and [.cpp],
    [src/Context/GpuContext.h], [src/Types/TaskGpuResources.h]).  Contexts are
    objects the manager allocates and deletes, and tasks are objects of the
    callers that hold pointers into them, so both live in a store of objects;
    following a pointer to an object that is not there is [None]. *)
From Stdlib Require Import Ascii String.
From S2P Require Import Prelude.
From S2P Require Import Platform.
From S2P Require Import GpuTopology.
#[local] Open Scope Z_scope.

(** ** The driver *)

(** What the source calls of the CUDA driver, the CUDA runtime and the operating
    system to discover and retain GPUs. *)
Class GpuDriver `{Platform} := {
  cuInit : world → cuda_status * world;
  cudaGetDeviceCount : world → cuda_status * Z * world;
  (** The bus id written to the caller's buffer, up to its terminator. *)
  cudaDeviceGetPCIBusId : Z → world → cuda_status * list ascii * world;
  (** The text of a file; [None] if it cannot be opened or read. *)
  read_file : list ascii → world → option (list ascii);
  cuDeviceGet : Z → world → cuda_status * Z * world;
  cuDevicePrimaryCtxRetain : Z → world → cuda_status * ptr * world;
  cuDevicePrimaryCtxRelease : Z → world → cuda_status * world;
  cuCtxGetId : ptr → world → cuda_status * N * world;
  cudaGetDeviceProperties : Z → world → cuda_status * world;
  (** [syscall(SYS_getcpu, ...)]: its result and the node it writes. *)
  getcpu : world → Z * Z;
}.

(** ** Objects *)

Record GpuContext := mkContext {
  context_gpuId : Z;
  context_numaNode : Z;
  context_device : Z;
  primaryCtx : ptr;
  driverContextId : N;
  driverContextIdKnown : bool;
  taskResources : list ptr;
}.

(** [GpuContext()] *)
Definition GpuContext_default : GpuContext := mkContext (-1) (-1) 0 nullptr 0 false [].

Definition GpuContext_eta c :=
  mkContext (context_gpuId c) (context_numaNode c) (context_device c) (primaryCtx c)
    (driverContextId c) (driverContextIdKnown c) (taskResources c).
#[export] Instance set_primaryCtx : Setter primaryCtx := ltac:(make_setter primaryCtx GpuContext_eta).
#[export] Instance set_taskResources : Setter taskResources := ltac:(make_setter taskResources GpuContext_eta).
#[global] Arguments set_primaryCtx _ _ / : assert.
#[global] Arguments set_taskResources _ _ / : assert.

Definition activeTaskCount (c : GpuContext) : size_t :=
  fold_left (λ count resources, if negb (resources =? nullptr)%N then inc64 count else count)
    (taskResources c) 0%N.

Record TaskGpuResources := mkTask {
  resourceId : Z;
  task_gpuId : Z;
  task_stream : ptr;
  h_in : ptr;
  inBytes : size_t;
  d_input : ptr;
  d_scratch : ptr;
  scratchBytes : size_t;
  ctx : ptr;
}.

(** [TaskGpuResources()] *)
Definition TaskGpuResources_default : TaskGpuResources :=
  mkTask (-1) (-1) nullptr nullptr 0 nullptr nullptr 0 nullptr.

Definition TaskGpuResources_eta t :=
  mkTask (resourceId t) (task_gpuId t) (task_stream t) (h_in t) (inBytes t) (d_input t)
    (d_scratch t) (scratchBytes t) (ctx t).
#[export] Instance set_resourceId : Setter resourceId := ltac:(make_setter resourceId TaskGpuResources_eta).
#[export] Instance set_task_gpuId : Setter task_gpuId := ltac:(make_setter task_gpuId TaskGpuResources_eta).
#[export] Instance set_ctx : Setter ctx := ltac:(make_setter ctx TaskGpuResources_eta).
#[global] Arguments set_resourceId _ _ / : assert.
#[global] Arguments set_task_gpuId _ _ / : assert.
#[global] Arguments set_ctx _ _ / : assert.

(** The manager's static members and the store. *)
Record GpuInfra := mkInfra {
  contexts : list ptr;
  initialised : bool;
  context_store : gmap N GpuContext;
  task_store : gmap N TaskGpuResources;
}.

Definition GpuInfra_eta s :=
  mkInfra (contexts s) (initialised s) (context_store s) (task_store s).
#[export] Instance set_contexts : Setter contexts := ltac:(make_setter contexts GpuInfra_eta).
#[export] Instance set_initialised : Setter initialised := ltac:(make_setter initialised GpuInfra_eta).
#[export] Instance set_context_store : Setter context_store := ltac:(make_setter context_store GpuInfra_eta).
#[export] Instance set_task_store : Setter task_store := ltac:(make_setter task_store GpuInfra_eta).
#[global] Arguments set_contexts _ _ / : assert.
#[global] Arguments set_initialised _ _ / : assert.
#[global] Arguments set_context_store _ _ / : assert.
#[global] Arguments set_task_store _ _ / : assert.

(** Before [main]. *)
Definition GpuInfra_initial : GpuInfra := mkInfra [] false ∅ ∅.

(** The address a successful [new GpuContext()] returns: no live object's. *)
Definition new_address (store : gmap N GpuContext) : ptr :=
  N.succ (map_fold (λ address _ highest, N.max address highest) 0%N store).

Record GpuInfraConfig := mkConfig { requireNuma : bool }.

(** [static_cast<int>(size_t)] *)
Definition to_int (n : size_t) : Z :=
  let low := Z.of_N n mod 4294967296 in
  if INT_MAX <? low then low - 4294967296 else low.

Section operations.
Context `{GpuDriver}.

(** ** Discovery *)

Definition tolower (c : ascii) : ascii :=
  let n := nat_of_ascii c in
  if (65 <=? n)%nat && (n <=? 90)%nat then ascii_of_nat (n + 32) else c.

Definition numa_node_path (busId : list ascii) : list ascii :=
  list_ascii_of_string "/sys/bus/pci/devices/" ++ busId ++ list_ascii_of_string "/numa_node".

Definition online_path : list ascii := list_ascii_of_string "/sys/devices/system/node/online".

Definition probeNumaNodeOfGpu (gpuId : Z) (w : world) : Z * world :=
  let '(status, busId, w) := cudaDeviceGetPCIBusId gpuId w in
  if negb (cuda_ok status) then (-1, w)
  else
    match read_file (numa_node_path (tolower <$> busId)) w with
    | None => (-1, w)
    | Some text =>
        let '(node, s) := extract_int (mkStream text false false) in
        (if failbit s then -1 else node, w)
    end.

(** The address of the context of a GPU, null if there is none. *)
Fixpoint findGpu (store : gmap N GpuContext) (available : list ptr) (gpuId : Z) : option ptr :=
  match available with
  | [] => Some nullptr
  | c :: rest =>
      if (c =? nullptr)%N then findGpu store rest gpuId
      else
        context ← store !! c;
        if context_gpuId context =? gpuId then Some c else findGpu store rest gpuId
  end.

(** The loop of [releaseContexts]; the vector is cleared afterwards. *)
Fixpoint releaseContexts (store : gmap N GpuContext) (available : list ptr) (w : world) :
    option (gmap N GpuContext * world) :=
  match available with
  | [] => Some (store, w)
  | c :: rest =>
      if (c =? nullptr)%N then releaseContexts store rest w
      else
        context ← store !! c;
        if negb (activeTaskCount context =? 0)%N then releaseContexts store rest w
        else
          let w :=
            if negb (primaryCtx context =? nullptr)%N
            then snd (cuDevicePrimaryCtxRelease (context_device context) w) else w in
          releaseContexts (delete c store) rest w
  end.

(** [releaseContexts(contexts); return false;] *)
Definition init_fails (s : GpuInfra) (w : world) : option (bool * GpuInfra * world) :=
  '(store, w) ← releaseContexts (context_store s) (contexts s) w;
  Some (false, s <| contexts := [] |> <| context_store := store |>, w).

(** The placement of one GPU; negative if it cannot be resolved. *)
Definition place_gpu (config : GpuInfraConfig) (gpu : Z) (w : world) : Z * world :=
  let '(reportedNode, w) := probeNumaNodeOfGpu gpu w in
  if reportedNode <? 0 then
    let onlineNodes := default [] (read_file online_path w) in
    (resolveGpuNumaNode reportedNode onlineNodes (requireNuma config), w)
  else (reportedNode, w).

(** One iteration of the discovery loop; the flag is [false] when it returns. *)
Definition init_gpu (config : GpuInfraConfig) (gpu : Z) (s : GpuInfra) (w : world) :
    option (bool * GpuInfra * world) :=
  let '(node, w) := place_gpu config gpu w in
  if node <? 0 then init_fails s w
  else
    let '(status, w) := cudaSetDevice gpu w in
    if negb (cuda_ok status) then init_fails s w
    else
      let '(status, w) := cudaFree nullptr w in
      if negb (cuda_ok status) then init_fails s w
      else
        let '(allocated, w) := host_alloc 1 w in
        if negb allocated then init_fails s w
        else
          let '(status, device, w) := cuDeviceGet gpu w in
          if negb (cuda_ok status) then init_fails s w
          else
            let '(status, primary, w) := cuDevicePrimaryCtxRetain device w in
            if negb (cuda_ok status) then init_fails s w
            else
              let '(status, id, w) := cuCtxGetId primary w in
              let address := new_address (context_store s) in
              let context := mkContext gpu node device primary id (cuda_ok status) [] in
              let s := s <| context_store := <[address := context]> (context_store s) |>
                         <| contexts := contexts s ++ [address] |> in
              let '(status, w) := cudaGetDeviceProperties gpu w in
              if negb (cuda_ok status) then init_fails s w
              else Some (true, s, w).

(** The discovery loop over [n] GPUs from [gpu]. *)
Fixpoint init_gpus (config : GpuInfraConfig) (n : nat) (gpu : Z) (s : GpuInfra) (w : world) :
    option (bool * GpuInfra * world) :=
  match n with
  | O => Some (true, s, w)
  | S n' =>
      '(discovered, s, w) ← init_gpu config gpu s w;
      if discovered : bool then init_gpus config n' (gpu + 1) s w
      else Some (false, s, w)
  end.

Definition init (config : GpuInfraConfig) (s : GpuInfra) (w : world) :
    option (bool * GpuInfra * world) :=
  if initialised s then Some (false, s, w)
  else
    let '(status, w) := cuInit w in
    if negb (cuda_ok status) then Some (false, s, w)
    else
      let '(status, deviceCount, w) := cudaGetDeviceCount w in
      if negb (cuda_ok status) then Some (false, s, w)
      else if deviceCount <=? 0 then Some (false, s, w)
      else
        '(ok, s, w) ← init_gpus config (Z.to_nat deviceCount) 0 (s <| contexts := [] |>) w;
        if ok : bool then Some (true, s <| initialised := true |>, w) else Some (false, s, w).

(** ** The registry *)

Fixpoint locations_of (store : gmap N GpuContext) (available : list ptr) :
    option (list GpuLocation) :=
  match available with
  | [] => Some []
  | c :: rest =>
      if (c =? nullptr)%N then locations_of store rest
      else
        context ← store !! c;
        locations ← locations_of store rest;
        Some (mkLocation (context_gpuId context) (context_numaNode context) :: locations)
  end.

Definition gpuLocations (s : GpuInfra) : option (list GpuLocation) :=
  locations_of (context_store s) (contexts s).

(** The flag and the vector left to the caller. *)
Definition gpuIdsForCurrentNumaNode (s : GpuInfra) (w : world) : option (bool * list Z) :=
  if negb (initialised s) then Some (false, [])
  else
    locations ← gpuLocations s;
    Some (resolveGpuIds (currentNumaNode (getcpu w)) locations).

(** The first empty entry, or the size. *)
Fixpoint freeResourceId (resources : list ptr) : size_t :=
  match resources with
  | [] => 0%N
  | r :: rest => if (r =? nullptr)%N then 0%N else N.succ (freeResourceId rest)
  end.

(** [registerTask(gpuId, resources)], [task] being the address of [resources]. *)
Definition registerTask (gpuId : Z) (task : ptr) (s : GpuInfra) : option (bool * GpuInfra) :=
  resources ← task_store s !! task;
  if negb (initialised s) || negb (ctx resources =? nullptr)%N || (gpuId <? 0)
  then Some (false, s)
  else
    c ← findGpu (context_store s) (contexts s) gpuId;
    if (c =? nullptr)%N then Some (false, s)
    else
      context ← context_store s !! c;
      let slot := freeResourceId (taskResources context) in
      let occupied :=
        if (slot =? vsize (taskResources context))%N
        then taskResources context ++ [task]
        else vset (taskResources context) slot task in
      let resources :=
        resources <| resourceId := to_int slot |> <| task_gpuId := gpuId |> <| ctx := c |> in
      Some (true,
        s <| context_store := <[c := context <| taskResources := occupied |>]> (context_store s) |>
          <| task_store := <[task := resources]> (task_store s) |>).

Definition makeTaskCurrent (task : ptr) (s : GpuInfra) (w : world) : option (bool * world) :=
  resources ← task_store s !! task;
  contextGpuId ←
    (if (ctx resources =? nullptr)%N then Some (-1)
     else context_gpuId <$> context_store s !! ctx resources);
  if negb (initialised s) || (ctx resources =? nullptr)%N || (task_gpuId resources <? 0)
     || negb (contextGpuId =? task_gpuId resources)
  then Some (false, w)
  else
    let '(status, w) := cudaSetDevice (task_gpuId resources) w in
    Some (cuda_ok status, w).

Definition unregisterTask (task : ptr) (s : GpuInfra) : option (bool * GpuInfra) :=
  resources ← task_store s !! task;
  if (ctx resources =? nullptr)%N || (resourceId resources <? 0) then Some (true, s)
  else
    context ← context_store s !! ctx resources;
    let id := Z.to_N (resourceId resources) in
    let resourceInRange := (id <? vsize (taskResources context))%N in
    let resourceMatches :=
      resourceInRange && bool_decide (vat (taskResources context) id = Some task) in
    if negb (initialised s) || negb resourceMatches then Some (false, s)
    else
      Some (true,
        s <| context_store :=
               <[ctx resources :=
                   context <| taskResources := vset (taskResources context) id nullptr |>]>
                 (context_store s) |>
          <| task_store :=
               <[task := resources <| resourceId := -1 |> <| task_gpuId := -1 |>
                           <| ctx := nullptr |>]> (task_store s) |>).

(** [true] if no context has a registered task. *)
Fixpoint idle_contexts (store : gmap N GpuContext) (available : list ptr) : option bool :=
  match available with
  | [] => Some true
  | c :: rest =>
      if (c =? nullptr)%N then idle_contexts store rest
      else
        context ← store !! c;
        if negb (activeTaskCount context =? 0)%N then Some false else idle_contexts store rest
  end.

Definition shutdown (s : GpuInfra) (w : world) : option (GpuInfra * world) :=
  if negb (initialised s) then Some (s, w)
  else
    idle ← idle_contexts (context_store s) (contexts s);
    if negb idle then Some (s, w)
    else
      '(store, w) ← releaseContexts (context_store s) (contexts s) w;
      Some (s <| contexts := [] |> <| context_store := store |> <| initialised := false |>, w).

End operations.
