(* ===== verification/RegistryInvariant.v ===== *)
(** The registry of GPUs and tasks in use: what every sequence of its operations
    keeps.  A call on a task object that does not exist is no call, and neither
    is a registration beyond [2 ^ 31] slots, which an [int] resource id cannot
    number. *)
From S2P Require Import Prelude.
From S2P Require Import Platform.
From S2P Require Import GpuTopology.
From S2P Require Import GpuContextManager.
#[local] Open Scope Z_scope.

(** ** Registered tasks and contexts *)

(** Every context is numbered by its GPU, every occupied slot holds a task that
    knows its slot, and every registered task is in the slot it knows. *)
Record registry (s : GpuInfra) : Prop := {
  reg_NoDup : NoDup (contexts s);
  reg_null : nullptr ∉ contexts s;
  reg_objects c : c ∈ contexts s ↔ is_Some (context_store s !! c);
  reg_gpu i c x : contexts s !! i = Some c → context_store s !! c = Some x →
    context_gpuId x = Z.of_nat i ∧ 0 ≤ context_numaNode x;
  reg_slot c x i t : context_store s !! c = Some x → vat (taskResources x) i = Some t →
    t ≠ nullptr →
    ∃ r, task_store s !! t = Some r ∧ resourceId r = Z.of_N i
         ∧ task_gpuId r = context_gpuId x ∧ ctx r = c;
  reg_task t r : task_store s !! t = Some r → t ≠ nullptr ∧
    (ctx r = nullptr ∧ resourceId r = -1 ∧ task_gpuId r = -1
     ∨ ∃ x i, context_store s !! ctx r = Some x ∧ vat (taskResources x) i = Some t
         ∧ resourceId r = Z.of_N i ∧ task_gpuId r = context_gpuId x);
  reg_room c x : context_store s !! c = Some x → (vsize (taskResources x) ≤ 2147483648)%N;
  reg_off : initialised s = false → contexts s = [];
}.

Definition registered (s : GpuInfra) (t : ptr) : Prop :=
  ∃ r, task_store s !! t = Some r ∧ ctx r ≠ nullptr.

Section invariant.
Context `{GpuDriver}.
Implicit Types (s : GpuInfra) (x : GpuContext) (c t : ptr) (w : world).

Lemma registry_initial : registry GpuInfra_initial.
Proof.
  split; simpl; try done; try apply NoDup_nil_2; try (by intros ?%elem_of_nil).
  intros c. rewrite lookup_empty, elem_of_nil. by split; [|intros [? [=]]].
Qed.

(** *** Counting registered tasks *)

Lemma activeTaskCount_idle x :
  (vsize (taskResources x) < two64)%N →
  activeTaskCount x = 0%N ↔ ∀ t, t ∈ taskResources x → t = nullptr.
Proof.
  unfold activeTaskCount, vsize. intros Hlen.
  assert (fold_left (λ count resources, if negb (resources =? nullptr)%N then inc64 count else count)
    (taskResources x) 0%N
    = N.of_nat (length (filter (λ t, t ≠ nullptr) (taskResources x)))) as ->.
  { revert Hlen. induction (taskResources x) as [|t l IH] using rev_ind; intros Hlen; [done|].
    rewrite length_app in Hlen. simpl in Hlen.
    rewrite fold_left_app, IH, filter_app, length_app by lia. cbn [fold_left].
    pose proof (length_filter (λ t, t ≠ nullptr) l).
    destruct (N.eqb_spec t nullptr) as [->|Ht]; cbn [negb].
    - rewrite filter_cons_False, filter_nil by naive_solver. cbn [length]. by rewrite Nat.add_0_r.
    - rewrite filter_cons_True, filter_nil by done. cbn [length]. rewrite inc64_small; [lia|].
      unfold two64 in *. lia. }
  split.
  - intros Hz t Ht. destruct (decide (t = nullptr)) as [|Hne]; [done|].
    assert (t ∈ filter (λ t, t ≠ nullptr) (taskResources x)) as Hin
      by by apply list_elem_of_filter.
    destruct (filter _ _); [by apply elem_of_nil in Hin|simpl in Hz; lia].
  - intros Hall. assert (filter (λ t, t ≠ nullptr) (taskResources x) = []) as ->; [|done].
    apply elem_of_nil_inv. intros t [Hne Ht]%list_elem_of_filter. by apply Hne, Hall.
Qed.

(** *** Releasing contexts *)

Definition idle_context (store : gmap N GpuContext) c : Prop :=
  ∃ x, store !! c = Some x ∧ activeTaskCount x = 0%N.

Lemma releaseContexts_run store l w :
  NoDup l → nullptr ∉ l → Forall (idle_context store) l →
  ∃ store' w', releaseContexts store l w = Some (store', w')
    ∧ ∀ c, store' !! c = if decide (c ∈ l) then None else store !! c.
Proof.
  revert store w. induction l as [|c l IH]; intros store w Hnd Hnull Hidle.
  { exists store, w. split; [done|]. intros c. rewrite decide_False; [done|]. apply not_elem_of_nil. }
  apply NoDup_cons in Hnd as [Hc Hnd]. apply not_elem_of_cons in Hnull as [Hcn Hnull].
  apply Forall_cons in Hidle as [(x & Hx & Ha) Hidle]. simpl.
  rewrite (proj2 (N.eqb_neq c nullptr)), Hx by congruence. simpl. rewrite Ha. simpl.
  destruct (IH (delete c store)
    (if negb (primaryCtx x =? nullptr)%N
     then snd (cuDevicePrimaryCtxRelease (context_device x) w) else w) Hnd Hnull)
    as (store' & w' & Hrun & Hlook).
  { apply Forall_forall. intros c' Hc'. rewrite Forall_forall in Hidle.
    destruct (Hidle c' Hc') as (x' & Hx' & Ha'). exists x'. split; [|done]. rewrite lookup_delete_ne; [done|]. by intros ->. }
  exists store', w'. split; [done|]. intros c'. rewrite Hlook.
  destruct (decide (c' = c)) as [->|Hne].
  - rewrite lookup_delete_eq. rewrite (decide_True _ _ (P:=c ∈ c :: l)) by left. by case_decide.
  - rewrite lookup_delete_ne by done.
    destruct (decide (c' ∈ l)) as [Hin|Hnin].
    + rewrite decide_True; [done|by right].
    + rewrite decide_False; [done|]. by intros [?|?]%elem_of_cons.
Qed.

(** *** Discovery *)

Lemma new_address_fresh (store : gmap N GpuContext) :
  new_address store ≠ nullptr ∧ store !! new_address store = None.
Proof. apply (above_keys_fresh store). Qed.

(** While [init] runs: [n] GPUs found, nothing registered. *)
Record discovering s (n : nat) : Prop := {
  disc_off : initialised s = false;
  disc_length : length (contexts s) = n;
  disc_NoDup : NoDup (contexts s);
  disc_null : nullptr ∉ contexts s;
  disc_objects c : c ∈ contexts s ↔ is_Some (context_store s !! c);
  disc_gpu i c x : contexts s !! i = Some c → context_store s !! c = Some x →
    context_gpuId x = Z.of_nat i ∧ 0 ≤ context_numaNode x;
  disc_fresh c x : context_store s !! c = Some x → taskResources x = [];
  disc_task t r : task_store s !! t = Some r →
    t ≠ nullptr ∧ ctx r = nullptr ∧ resourceId r = -1 ∧ task_gpuId r = -1;
}.

(** Nothing found. *)
Definition undiscovered s (tasks : gmap N TaskGpuResources) : GpuInfra := mkInfra [] false ∅ tasks.

Lemma init_fails_run s n w :
  discovering s n →
  ∃ w', init_fails s w = Some (false, undiscovered s (task_store s), w').
Proof.
  intros Hd. unfold init_fails.
  destruct (releaseContexts_run (context_store s) (contexts s) w) as (store & w' & -> & Hlook);
    [apply Hd..| |].
  { apply Forall_forall. intros c [x Hx]%(disc_objects _ _ Hd). exists x. split; [done|].
    unfold activeTaskCount. by rewrite (disc_fresh _ _ Hd _ _ Hx). }
  exists w'. simpl. do 2 f_equal. unfold undiscovered.
  assert (store = ∅) as ->.
  { apply map_empty. intros c. rewrite Hlook. case_decide as Hc; [done|].
    destruct (context_store s !! c) eqn:Hx; [|done]. exfalso. apply Hc, (disc_objects _ _ Hd). eauto. }
  by rewrite (disc_off _ _ Hd).
Qed.

Lemma discovering_add s n node device primary id known :
  discovering s n → 0 ≤ node →
  let address := new_address (context_store s) in
  discovering (s <| context_store :=
      <[address := mkContext (Z.of_nat n) node device primary id known []]> (context_store s) |>
    <| contexts := contexts s ++ [address] |>) (S n).
Proof.
  intros Hd Hnode address. destruct (new_address_fresh (context_store s)) as [Hnn Hnone].
  fold address in Hnn, Hnone.
  assert (address ∉ contexts s) as Hnin.
  { intros [x Hx]%(disc_objects _ _ Hd). congruence. }
  split; simpl.
  - apply Hd.
  - rewrite length_app, (disc_length _ _ Hd). simpl. lia.
  - apply NoDup_app. split_and!; [apply Hd| |apply NoDup_singleton].
    by intros c Hc ->%list_elem_of_singleton.
  - rewrite elem_of_app, list_elem_of_singleton. intros [Hc|Hc]; [|done].
    by apply (disc_null _ _ Hd) in Hc.
  - intros c. rewrite elem_of_app, list_elem_of_singleton, lookup_insert_is_Some'.
    rewrite (disc_objects _ _ Hd c). destruct (decide (address = c)); naive_solver.
  - intros i c x Hi Hc. apply lookup_app_Some in Hi as [Hi|[Hlen Hi]].
    + assert (c ≠ address) as Hne by (intros ->; by apply list_elem_of_lookup_2 in Hi).
      rewrite lookup_insert_ne in Hc by done. by eapply (disc_gpu _ _ Hd).
    + rewrite (disc_length _ _ Hd) in Hi, Hlen.
      apply list_lookup_singleton_Some in Hi as [Hi <-].
      rewrite lookup_insert_eq in Hc. injection Hc as <-. simpl. split; [|done]. f_equal. lia.
  - intros c x. destruct (decide (c = address)) as [->|Hne].
    + rewrite lookup_insert_eq. by intros [= <-].
    + rewrite lookup_insert_ne by done. apply (disc_fresh _ _ Hd).
  - apply (disc_task _ _ Hd).
Qed.

(** One GPU: found, or the whole discovery is undone. *)
Definition discovers (n : nat) s (r : option (bool * GpuInfra * world)) : Prop :=
  ∃ ok s' w', r = Some (ok, s', w') ∧ task_store s' = task_store s
    ∧ if ok : bool then discovering s' n else s' = undiscovered s (task_store s).

Lemma init_fails_discovers s n m w : discovering s n → discovers m s (init_fails s w).
Proof.
  intros Hd. destruct (init_fails_run s n w Hd) as (w' & ->). by eexists false, _, w'.
Qed.

Lemma init_gpu_discovers config s n w :
  discovering s n → discovers (S n) s (init_gpu config (Z.of_nat n) s w).
Proof.
  intros Hd. unfold init_gpu. destruct (place_gpu config (Z.of_nat n) w) as [node w0].
  destruct (Z.ltb_spec node 0); [by eapply init_fails_discovers|].
  destruct (cudaSetDevice (Z.of_nat n) w0) as [st1 w1].
  destruct (cuda_ok st1); simpl; [|by eapply init_fails_discovers].
  destruct (cudaFree nullptr w1) as [st2 w2].
  destruct (cuda_ok st2); simpl; [|by eapply init_fails_discovers].
  destruct (host_alloc 1 w2) as [[] w3]; simpl; [|by eapply init_fails_discovers].
  destruct (cuDeviceGet (Z.of_nat n) w3) as [[st4 device] w4].
  destruct (cuda_ok st4); simpl; [|by eapply init_fails_discovers].
  destruct (cuDevicePrimaryCtxRetain device w4) as [[st5 primary] w5].
  destruct (cuda_ok st5); simpl; [|by eapply init_fails_discovers].
  destruct (cuCtxGetId primary w5) as [[st6 id] w6].
  destruct (cudaGetDeviceProperties (Z.of_nat n) w6) as [st7 w7].
  pose proof (discovering_add s n node device primary id (cuda_ok st6) Hd ltac:(done)) as Hadd.
  cbn zeta in Hadd. destruct (cuda_ok st7); simpl.
  - eexists true, _, w7. split; [done|]. split; [done|exact Hadd].
  - apply (init_fails_discovers _ (S n) (S n) w7 Hadd).
Qed.

Lemma init_gpus_discovers config s n m w :
  discovering s n → discovers (n + m) s (init_gpus config m (Z.of_nat n) s w).
Proof.
  revert s n w. induction m as [|m IH]; intros s n w Hd; simpl.
  { eexists true, s, w. by rewrite Nat.add_0_r. }
  destruct (init_gpu_discovers config s n w Hd) as (ok & s1 & w1 & -> & Htasks & Hd1). simpl.
  destruct ok; [|by eexists false, s1, w1].
  replace (Z.of_nat n + 1) with (Z.of_nat (S n)) by lia.
  destruct (IH s1 (S n) w1 Hd1) as (ok & s2 & w2 & -> & Htasks2 & Hd2).
  exists ok, s2, w2. unfold undiscovered in *. rewrite Htasks in Htasks2, Hd2.
  replace (n + S m)%nat with (S n + m)%nat by lia. done.
Qed.

Lemma registry_off s : registry s → initialised s = false →
  discovering s 0 ∧ s = undiscovered s (task_store s).
Proof.
  intros Hr Hoff. pose proof (reg_off _ Hr Hoff) as Hnil.
  assert (context_store s = ∅) as Hempty.
  { apply map_empty. intros c. destruct (context_store s !! c) eqn:Hx; [|done].
    assert (c ∈ contexts s) as Hc by (apply (reg_objects _ Hr); eauto).
    rewrite Hnil in Hc. by apply elem_of_nil in Hc. }
  split; [|by destruct s; simpl in *; subst]. split; try apply Hr; try done; [by rewrite Hnil| |].
  - intros c x. by rewrite Hempty, lookup_empty.
  - intros t r Ht. destruct (reg_task _ Hr t r Ht) as [Htn [(?&?&?)|(x & i & Hx & _)]]; [done|].
    by rewrite Hempty, lookup_empty in Hx.
Qed.

Lemma discovering_registry s n :
  discovering s n → registry (s <| initialised := true |>).
Proof.
  intros Hd. split; simpl; try apply Hd; try done.
  - intros c x i t Hx. rewrite (disc_fresh _ _ Hd _ _ Hx). done.
  - intros t r Ht. destruct (disc_task _ _ Hd t r Ht) as (? & ? & ? & ?). by split; [|left].
  - intros c x Hx. by rewrite (disc_fresh _ _ Hd _ _ Hx).
Qed.

(** [init] on a manager that is off: on with every GPU, or untouched. *)
Lemma init_run config s w :
  registry s →
  ∃ ok s' w', init config s w = Some (ok, s', w') ∧ registry s' ∧ task_store s' = task_store s
    ∧ if ok : bool then initialised s = false ∧ initialised s' = true
        ∧ (0 < length (contexts s'))%nat
        ∧ ∀ c x, context_store s' !! c = Some x → taskResources x = []
      else s' = s.
Proof.
  intros Hr. unfold init. destruct (initialised s) eqn:Hoff; [by eexists false, s, w|].
  destruct (cuInit w) as [st1 w1]. destruct (cuda_ok st1); cbn [negb]; [|by eexists false, s, w1].
  destruct (cudaGetDeviceCount w1) as [[st2 count] w2].
  destruct (cuda_ok st2); cbn [negb]; [|by eexists false, s, w2].
  destruct (Z.leb_spec count 0); [by eexists false, s, w2|].
  change (set_field contexts (λ _, []) s) with (set_contexts (λ _, []) s).
  destruct (registry_off s Hr Hoff) as [Hd Heq].
  assert (set_contexts (λ _, []) s = s) as Hs by (rewrite Heq; done). rewrite Hs.
  destruct (init_gpus_discovers config s 0 (Z.to_nat count) w2 Hd)
    as (ok & s' & w' & Hrun & Htasks & Hd').
  change (Z.of_nat 0) with 0 in Hrun. rewrite Hrun. cbn [mbind option_bind]. destruct ok.
  - eexists true, _, w'. split; [done|]. split; [by eapply discovering_registry|].
    split; [done|]. split_and!; try done; simpl; [|apply Hd'].
    rewrite (disc_length _ _ Hd'). lia.
  - exists false, s', w'. split; [done|]. rewrite <-Heq in Hd'. subst s'. done.
Qed.

(** *** Registration *)

(** Changing one slot and the task that goes in or out of it. *)
Lemma registry_assign s c x t r l' r' i v :
  registry s → context_store s !! c = Some x → task_store s !! t = Some r →
  (∀ j, j ≠ i → vat l' j = vat (taskResources x) j) → vat l' i = Some v →
  (vsize l' ≤ 2147483648)%N →
  (∀ u, vat (taskResources x) i = Some u → u = nullptr ∨ u = t) →
  (ctx r = nullptr ∨ ctx r = c ∧ resourceId r = Z.of_N i) →
  (v = t ∧ ctx r' = c ∧ resourceId r' = Z.of_N i ∧ task_gpuId r' = context_gpuId x
   ∨ v = nullptr ∧ ctx r' = nullptr ∧ resourceId r' = -1 ∧ task_gpuId r' = -1) →
  registry (s <| context_store := <[c := x <| taskResources := l' |>]> (context_store s) |>
              <| task_store := <[t := r']> (task_store s) |>).
Proof.
  intros Hr Hc Ht Hl Hi Hroom Hold Hown Hnew.
  assert (c ∈ contexts s) as Hcin by (apply (reg_objects _ Hr); eauto).
  assert (c ≠ nullptr) as Hcn by (intros ->; by apply (reg_null _ Hr)).
  pose proof (proj1 (reg_task _ Hr t r Ht)) as Htn.
  (* a slot that holds [t] is slot [i] of [c] *)
  assert (∀ c' y j, context_store s !! c' = Some y → vat (taskResources y) j = Some t →
    c' = c ∧ j = i) as Hwhere.
  { intros c' y j Hy Hj. destruct (reg_slot _ Hr c' y j t Hy Hj Htn) as (r0 & Hr0 & Hid & _ & Hctx).
    rewrite Ht in Hr0. injection Hr0 as <-. destruct Hown as [Hnull|[Hctx' Hid']].
    - assert (c' ∈ contexts s) as Hin by (apply (reg_objects _ Hr); eauto).
      rewrite <-Hctx, Hnull in Hin. by apply (reg_null _ Hr) in Hin.
    - split; [congruence|lia]. }
  split; simpl.
  - apply Hr.
  - apply Hr.
  - intros c'. rewrite (reg_objects _ Hr), lookup_insert_is_Some'.
    split; [by right|]. intros [<-|]; [eauto|done].
  - intros n c' y Hn Hy. destruct (decide (c' = c)) as [->|Hne].
    + rewrite lookup_insert_eq in Hy. injection Hy as <-. by apply (reg_gpu _ Hr n c x).
    + rewrite lookup_insert_ne in Hy by done. by apply (reg_gpu _ Hr n c' y).
  - intros c' y j u Hy Hj Hu. destruct (decide (c' = c)) as [->|Hne].
    + rewrite lookup_insert_eq in Hy. injection Hy as <-. simpl in Hj |- *.
      destruct (decide (j = i)) as [->|Hji].
      * rewrite Hi in Hj. injection Hj as ->. destruct Hnew as [(-> & ? & ? & ?)|(? & _)]; [|done].
        exists r'. by rewrite lookup_insert_eq.
      * rewrite Hl in Hj by done. assert (u ≠ t) as Hut.
        { intros ->. by destruct (Hwhere _ _ _ Hc Hj). }
        rewrite lookup_insert_ne by done. by apply (reg_slot _ Hr c x j u).
    + rewrite lookup_insert_ne in Hy by done. assert (u ≠ t) as Hut.
      { intros ->. by destruct (Hwhere _ _ _ Hy Hj). }
      rewrite lookup_insert_ne by done. by apply (reg_slot _ Hr c' y j u).
  - intros u r0 Hu. destruct (decide (u = t)) as [->|Hut].
    + rewrite lookup_insert_eq in Hu. injection Hu as <-. split; [done|].
      destruct Hnew as [(-> & -> & Hid & Hg)|(_ & ? & ? & ?)]; [right|by left].
      exists (x <| taskResources := l' |>), i. by rewrite lookup_insert_eq.
    + rewrite lookup_insert_ne in Hu by done.
      destruct (reg_task _ Hr u r0 Hu) as [Hun [?|(y & j & Hy & Hj & Hid & Hg)]];
        split; try done; [by left|right].
      destruct (decide (ctx r0 = c)) as [Heq|Hne].
      * rewrite Heq in Hy |- *. rewrite Hc in Hy. injection Hy as <-.
        exists (x <| taskResources := l' |>), j. rewrite lookup_insert_eq. simpl.
        split_and!; try done. rewrite Hl; [done|]. intros ->. by destruct (Hold _ Hj).
      * exists y, j. by rewrite lookup_insert_ne.
  - intros c' y. destruct (decide (c' = c)) as [->|Hne].
    + rewrite lookup_insert_eq. by intros [= <-].
    + rewrite lookup_insert_ne by done. by apply Hr.
  - apply Hr.
Qed.

Lemma findGpu_offset store l k g :
  (∀ i c, l !! i = Some c → c ≠ nullptr
     ∧ ∃ x, store !! c = Some x ∧ context_gpuId x = k + Z.of_nat i) →
  findGpu store l g
  = Some (if decide (k ≤ g) then default nullptr (l !! Z.to_nat (g - k)) else nullptr).
Proof.
  revert k. induction l as [|c l IH]; intros k Hl; simpl.
  { by case_decide; [destruct (Z.to_nat (g - k))|]. }
  destruct (Hl 0%nat c eq_refl) as (Hcn & x & Hx & Hg).
  rewrite (proj2 (N.eqb_neq _ _) Hcn), Hx. simpl. rewrite Hg.
  destruct (Z.eqb_spec (k + Z.of_nat 0) g) as [Heq|Hne].
  - rewrite decide_True by lia. by replace (Z.to_nat (g - k)) with 0%nat by lia.
  - rewrite (IH (k + 1)).
    + destruct (decide (k ≤ g)).
      * rewrite decide_True by lia.
        by replace (Z.to_nat (g - k)) with (S (Z.to_nat (g - (k + 1)))) by lia.
      * by rewrite decide_False by lia.
    + intros i c' Hi. destruct (Hl (S i) c' Hi) as (? & x' & ? & ?). split; [done|].
      exists x'. split; [done|]. lia.
Qed.

Lemma registry_context s i c : registry s → contexts s !! i = Some c →
  c ≠ nullptr ∧ ∃ x, context_store s !! c = Some x ∧ context_gpuId x = Z.of_nat i.
Proof.
  intros Hr Hi. apply list_elem_of_lookup_2 in Hi as Hc. split.
  - intros ->. by apply (reg_null _ Hr).
  - apply (reg_objects _ Hr) in Hc as [x Hx]. exists x. split; [done|].
    by apply (reg_gpu _ Hr i c x).
Qed.

Lemma findGpu_run s g : registry s → 0 ≤ g →
  findGpu (context_store s) (contexts s) g = Some (default nullptr (contexts s !! Z.to_nat g)).
Proof.
  intros Hr Hg. rewrite (findGpu_offset _ _ 0).
  - rewrite decide_True by done. by rewrite Z.sub_0_r.
  - intros i c Hi. by apply registry_context.
Qed.

Lemma freeResourceId_spec l :
  (freeResourceId l ≤ vsize l)%N
  ∧ (∀ u, vat l (freeResourceId l) = Some u → u = nullptr)
  ∧ ∀ j u, (j < freeResourceId l)%N → vat l j = Some u → u ≠ nullptr.
Proof.
  unfold vsize. induction l as [|r l (IH1 & IH2 & IH3)]; cbn [freeResourceId].
  { split_and!; [simpl; lia|done|done]. }
  destruct (N.eqb_spec r nullptr) as [->|Hr].
  { split_and!; [lia| |lia]. simpl. congruence. }
  split_and!.
  - simpl length. lia.
  - intros u. simpl. rewrite (proj2 (N.eqb_neq _ 0)) by lia. rewrite N.pred_succ. apply IH2.
  - intros j u Hj. simpl. destruct (N.eqb_spec j 0) as [->|]; [congruence|].
    apply IH3. lia.
Qed.

Lemma to_int_small n : (n < 2147483648)%N → to_int n = Z.of_N n.
Proof.
  intros Hn. unfold to_int. rewrite Z.mod_small by lia.
  rewrite (proj2 (Z.ltb_ge _ _)); [done|]. unfold INT_MAX. lia.
Qed.

(** The slot a registration takes, and the vector afterwards. *)
Definition slot_taken (x : GpuContext) t : list ptr :=
  let slot := freeResourceId (taskResources x) in
  if (slot =? vsize (taskResources x))%N then taskResources x ++ [t]
  else vset (taskResources x) slot t.

Lemma slot_taken_spec x t :
  let slot := freeResourceId (taskResources x) in
  vat (slot_taken x t) slot = Some t
  ∧ (∀ j, j ≠ slot → vat (slot_taken x t) j = vat (taskResources x) j)
  ∧ vsize (slot_taken x t) = N.max (vsize (taskResources x)) (slot + 1).
Proof.
  intros slot. destruct (freeResourceId_spec (taskResources x)) as (Hle & _).
  fold slot in Hle. unfold slot_taken. fold slot.
  destruct (N.eqb_spec slot (vsize (taskResources x))) as [Heq|Hne].
  - rewrite Heq. split_and!.
    + rewrite vat_snoc. by rewrite decide_True.
    + intros j Hj. rewrite vat_snoc. by rewrite decide_False.
    + unfold vsize. rewrite length_app. simpl. lia.
  - split_and!.
    + apply vat_vset_eq. lia.
    + intros j Hj. by apply vat_vset_ne.
    + rewrite vsize_vset. lia.
Qed.

(** The context a GPU id names. *)
Definition context_of s (gpuId : Z) : option ptr :=
  if decide (0 ≤ gpuId) then contexts s !! Z.to_nat gpuId else None.

Definition bind_task s c x t r (gpuId : Z) : GpuInfra :=
  s <| context_store := <[c := x <| taskResources := slot_taken x t |>]> (context_store s) |>
    <| task_store :=
         <[t := r <| resourceId := Z.of_N (freeResourceId (taskResources x)) |>
                  <| task_gpuId := gpuId |> <| ctx := c |>]> (task_store s) |>.

Lemma registerTask_run s gpuId t r :
  registry s → task_store s !! t = Some r →
  (∀ c x, context_store s !! c = Some x →
     (freeResourceId (taskResources x) < 2147483648)%N) →
  match (if initialised s && (ctx r =? nullptr)%N then context_of s gpuId else None) with
  | Some c => ∃ x, context_store s !! c = Some x ∧ context_gpuId x = gpuId
      ∧ registerTask gpuId t s = Some (true, bind_task s c x t r gpuId)
      ∧ registry (bind_task s c x t r gpuId)
  | None => registerTask gpuId t s = Some (false, s)
  end.
Proof.
  intros Hr Ht Hroom. unfold registerTask. rewrite Ht. cbn [mbind option_bind].
  destruct (initialised s); cbn [negb andb orb]; [|done].
  destruct (N.eqb_spec (ctx r) nullptr) as [Hctx|]; cbn [negb andb orb]; [|done].
  unfold context_of. destruct (decide (0 ≤ gpuId)) as [Hg|Hg].
  2: { by rewrite (proj2 (Z.ltb_lt gpuId 0)) by lia. }
  rewrite (proj2 (Z.ltb_ge gpuId 0)) by done. rewrite findGpu_run by done.
  cbn [mbind option_bind]. destruct (contexts s !! Z.to_nat gpuId) as [c|] eqn:Hc; [|done].
  destruct (registry_context s _ _ Hr Hc) as (Hcn & x & Hx & Hgx). cbn [default from_option id].
  rewrite (proj2 (N.eqb_neq _ _) Hcn), Hx. cbn [mbind option_bind].
  rewrite Z2Nat.id in Hgx by done. exists x. split; [done|]. split; [done|].
  rewrite to_int_small by (by eapply Hroom). split; [done|].
  destruct (slot_taken_spec x t) as (Hv & Hl & Hsize).
  destruct (freeResourceId_spec (taskResources x)) as (_ & Hfree & _).
  unfold bind_task. eapply (registry_assign s c x t r); try done.
  - rewrite Hsize. pose proof (reg_room _ Hr c x Hx). specialize (Hroom c x Hx). lia.
  - intros u Hu. left. by apply Hfree.
  - by left.
  - left. simpl. by rewrite Hgx.
Qed.

(** *** Unregistration *)

Definition unbind_task s c x t r (id : N) : GpuInfra :=
  s <| context_store :=
         <[c := x <| taskResources := vset (taskResources x) id nullptr |>]> (context_store s) |>
    <| task_store :=
         <[t := r <| resourceId := -1 |> <| task_gpuId := -1 |> <| ctx := nullptr |>]>
           (task_store s) |>.

(** A registered task and the slot it is in. *)
Lemma registered_slot s t r :
  registry s → task_store s !! t = Some r → ctx r ≠ nullptr →
  initialised s = true ∧ ∃ x i, context_store s !! ctx r = Some x
    ∧ vat (taskResources x) i = Some t ∧ resourceId r = Z.of_N i
    ∧ task_gpuId r = context_gpuId x ∧ 0 ≤ task_gpuId r.
Proof.
  intros Hr Ht Hctx.
  destruct (reg_task _ Hr t r Ht) as [_ [(? & _)|(x & i & Hx & Hi & Hid & Hg)]]; [done|].
  assert (ctx r ∈ contexts s) as Hin by (apply (reg_objects _ Hr); eauto). split.
  - destruct (initialised s) eqn:Hoff; [done|].
    rewrite (reg_off _ Hr Hoff) in Hin. by apply elem_of_nil in Hin.
  - exists x, i. split_and!; try done. apply list_elem_of_lookup in Hin as [n Hn].
    destruct (reg_gpu _ Hr n (ctx r) x Hn Hx) as [Hgpu _]. lia.
Qed.

Lemma unregisterTask_run s t r :
  registry s → task_store s !! t = Some r →
  if decide (ctx r = nullptr) then unregisterTask t s = Some (true, s)
  else ∃ x i, context_store s !! ctx r = Some x ∧ vat (taskResources x) i = Some t
    ∧ unregisterTask t s = Some (true, unbind_task s (ctx r) x t r i)
    ∧ registry (unbind_task s (ctx r) x t r i).
Proof.
  intros Hr Ht. unfold unregisterTask. rewrite Ht. cbn [mbind option_bind].
  case_decide as Hctx; [by rewrite Hctx|].
  destruct (registered_slot s t r Hr Ht Hctx) as (Hon & x & i & Hx & Hi & Hid & _).
  exists x, i. split; [done|]. split; [done|].
  rewrite (proj2 (N.eqb_neq _ _) Hctx), (proj2 (Z.ltb_ge _ _)), Hx by lia.
  cbn [orb mbind option_bind]. rewrite Hid, N2Z.id, Hon.
  rewrite (proj2 (N.ltb_lt _ _) (vat_lt _ _ _ Hi)), bool_decide_eq_true_2 by done.
  cbn [negb andb orb]. split; [done|].
  unfold unbind_task. eapply (registry_assign s (ctx r) x t r); try done.
  - intros j Hj. by apply vat_vset_ne.
  - apply vat_vset_eq. by eapply vat_lt.
  - rewrite vsize_vset. by eapply reg_room.
  - intros u Hu. right. congruence.
  - by right.
  - by right.
Qed.

End invariant.
