(* ===== verification/TopologyBehaviour.v ===== *)
(** What the topology helpers decide: which lists of online nodes name one node,
    how an unknown placement is resolved, and which nodes have one GPU. *)
From Stdlib Require Import Ascii.
From S2P Require Import Prelude.
From S2P Require Import GpuTopology.
#[local] Open Scope Z_scope.

(** ** Spans and numbers *)

Lemma span_app p l : l = fst (span p l) ++ snd (span p l).
Proof. induction l as [|c l IH]; simpl; [done|]. destruct (p c); [|done]. by destruct (span p l); simpl in *; f_equal. Qed.

Lemma span_all p l : Forall (λ c, p c = true) (fst (span p l)).
Proof.
  induction l as [|c l IH]; simpl; [done|]. destruct (p c) eqn:Hp; [|done].
  destruct (span p l). by constructor.
Qed.

Lemma span_stops p l c l' : snd (span p l) = c :: l' → p c = false.
Proof.
  induction l as [|x l IH]; simpl; [done|]. destruct (p x) eqn:Hp; [|by intros [= <- _]].
  by destruct (span p l).
Qed.

Lemma span_of p a b :
  Forall (λ c, p c = true) a → (∀ c l, b = c :: l → p c = false) → span p (a ++ b) = (a, b).
Proof.
  intros Ha Hb. induction Ha as [|c a Hc Ha IH]; simpl; [|by rewrite Hc, IH].
  destruct b as [|c b]; [done|]. simpl. by rewrite (Hb c b).
Qed.

Lemma digit_not_space c : is_digit c = true → is_space c = false.
Proof.
  unfold is_digit, is_space. intros [H1%Nat.leb_le H2%Nat.leb_le]%andb_prop.
  apply orb_false_iff. split; [apply Nat.eqb_neq; lia|].
  apply andb_false_iff. right. apply Nat.leb_gt. lia.
Qed.

Lemma digit_not_sign c : is_digit c = true → (c =? "-")%char = false ∧ (c =? "+")%char = false.
Proof.
  intros Hd. split; apply Ascii.eqb_neq; intros ->; by vm_compute in Hd.
Qed.

Lemma decimal_nonneg ds : Forall (λ c, is_digit c = true) ds → 0 ≤ decimal ds.
Proof.
  assert (∀ v, 0 ≤ v → Forall (λ c, is_digit c = true) ds →
    0 ≤ fold_left (λ value c, value * 10 + digit c) ds v) as Hgen; [|by apply Hgen].
  induction ds as [|c ds IH]; intros v Hv Hds; simpl; [done|].
  apply Forall_cons in Hds as [Hc Hds]. apply IH; [|done].
  unfold is_digit in Hc. apply andb_prop in Hc as [Hc%Nat.leb_le _]. unfold digit. lia.
Qed.

(** ** The list of online nodes *)

Definition spaces (l : list ascii) : Prop := Forall (λ c, is_space c = true) l.

(** A decimal numeral of an [int]. *)
Definition numeral (ds : list ascii) (n : Z) : Prop :=
  Forall (λ c, is_digit c = true) ds ∧ ds ≠ [] ∧ decimal ds = n ∧ n ≤ INT_MAX.

(** One node [n], written [n] or [n-n], with space around. *)
Inductive names_one_node : list ascii → Z → Prop :=
| one_number before ds after n :
    spaces before → numeral ds n → spaces after →
    names_one_node (before ++ ds ++ after) n
| one_range before ds ds' after n :
    spaces before → numeral ds n → numeral ds' n → spaces after →
    names_one_node (before ++ ds ++ "-"%char :: ds' ++ after) n.

Definition stops_digits (l : list ascii) : Prop := ∀ c l', l = c :: l' → is_digit c = false.

(** Reading a numeral. *)
Lemma extract_numeral ds l :
  Forall (λ c, is_digit c = true) ds → ds ≠ [] → stops_digits l →
  extract_int (mkStream (ds ++ l) false false) =
    if INT_MAX <? decimal ds
    then (INT_MAX, mkStream l (match l with [] => true | _ => false end) true)
    else (decimal ds, mkStream l (match l with [] => true | _ => false end) false).
Proof.
  intros Hds Hne Hl. destruct ds as [|c ds]; [done|]. unfold extract_int. cbn [good unread eofbit failbit negb andb].
  pose proof Hds as [Hc _]%Forall_cons.
  assert (span is_space ((c :: ds) ++ l) = ([], (c :: ds) ++ l)) as ->.
  { apply (span_of is_space [] ((c :: ds) ++ l)); [done|].
    intros c' l' [= <- _]. by apply digit_not_space. }
  cbn [snd app]. destruct (digit_not_sign c Hc) as [-> ->].
  change (c :: ds ++ l) with ((c :: ds) ++ l). rewrite span_of by done.
  assert ((decimal (c :: ds) <? INT_MIN) = false) as ->.
  { apply Z.ltb_ge. pose proof (decimal_nonneg _ Hds). unfold INT_MIN. lia. }
  done.
Qed.

Lemma peek_digit c l :
  peek_no_digit (mkStream (c :: l) false false) = (negb (is_digit c), mkStream (c :: l) false false).
Proof. done. Qed.

Lemma span_digits l : stops_digits (snd (span is_digit l)).
Proof. intros c l' Hl. by eapply span_stops. Qed.

Lemma space_stops l : spaces l → stops_digits l.
Proof.
  intros Hl c l' ->. apply Forall_cons in Hl as [Hc _].
  destruct (is_digit c) eqn:Hd; [|done]. apply digit_not_space in Hd. congruence.
Qed.

(** Trailing space, whatever the stream's state bits say of its end. *)
Lemma skip_trailing l :
  eofbit (skip_space (mkStream l (match l with [] => true | _ => false end) false)) = true
  ↔ spaces l.
Proof.
  destruct l as [|c l]; [by split; [constructor|]|]. unfold skip_space. cbn [good eofbit failbit negb andb unread].
  pose proof (span_app is_space (c :: l)) as Hl. pose proof (span_all is_space (c :: l)) as Hall.
  destruct (snd (span is_space (c :: l))) as [|c' l'] eqn:Hs; cbn [eofbit].
  - rewrite app_nil_r in Hl. rewrite <-Hl in Hall. by split.
  - split; [done|]. intros Hsp. apply span_stops in Hs as Hc'. rewrite Hl in Hsp.
    apply Forall_app in Hsp as [_ [Hsp _]%Forall_cons]. congruence.
Qed.

(** Leading space. *)
Lemma skip_leading before l :
  spaces before → (∀ c l', l = c :: l' → is_space c = false) → l ≠ [] →
  skip_space (mkStream (before ++ l) false false) = mkStream l false false.
Proof.
  intros Hb Hl Hne. unfold skip_space. cbn [good eofbit failbit negb andb unread].
  rewrite span_of by done. by destruct l.
Qed.

Lemma spaces_dec l : spaces l ↔ forallb is_space l = true.
Proof.
  unfold spaces. induction l as [|c l IH]; simpl; [done|].
  by rewrite Forall_cons, andb_true_iff, IH.
Qed.

(** What follows the first number. *)
Definition rest_of_list (first : Z) (l : list ascii) : Z :=
  match l with
  | [] => first
  | c :: l' =>
      if (c =? "-")%char then
        let '(ds, after) := span is_digit l' in
        if bool_decide (ds = []) || (INT_MAX <? decimal ds) || negb (decimal ds =? first)
           || negb (forallb is_space after)
        then -1 else first
      else if forallb is_space l then first else -1
  end.

Lemma skip_trailing_first (first : Z) l :
  (if eofbit (skip_space (mkStream l (match l with [] => true | _ => false end) false))
   then first else -1) = (if forallb is_space l then first else -1).
Proof.
  pose proof (skip_trailing l) as Hs. rewrite spaces_dec in Hs.
  destruct (eofbit _), (forallb is_space l); naive_solver.
Qed.

Lemma singleOnlineNode_run before ds l :
  spaces before → Forall (λ c, is_digit c = true) ds → ds ≠ [] → stops_digits l →
  singleOnlineNode (before ++ ds ++ l) =
    if INT_MAX <? decimal ds then -1 else rest_of_list (decimal ds) l.
Proof.
  intros Hb Hds Hne Hl. unfold singleOnlineNode.
  destruct ds as [|c ds]; [done|]. pose proof Hds as [Hc _]%Forall_cons.
  rewrite skip_leading; [|done| |done].
  2: { intros c' l' [= <- _]. by apply digit_not_space. }
  change ((c :: ds) ++ l) with (c :: ds ++ l). rewrite peek_digit, Hc. cbn [negb].
  change (c :: ds ++ l) with ((c :: ds) ++ l). rewrite extract_numeral by done.
  destruct (INT_MAX <? decimal (c :: ds)); [done|]. cbn [failbit].
  set (first := decimal (c :: ds)). clearbody first. clear c ds Hds Hne Hc.
  destruct l as [|c2 l2]; [done|]. unfold rest_of_list. cbn [peek good eofbit failbit negb andb unread].
  destruct (Ascii.eqb_spec c2 "-"%char) as [->|Hminus].
  2: { apply (skip_trailing_first first (c2 :: l2)). }
  cbn [get good eofbit failbit negb andb unread].
  pose proof (span_app is_digit l2) as Happ. pose proof (span_all is_digit l2) as Hall.
  pose proof (span_digits l2) as Hstop.
  destruct (span is_digit l2) as [ds' after]. simpl in Happ, Hall, Hstop. subst l2.
  destruct ds' as [|c ds'].
  { rewrite bool_decide_eq_true_2 by done. cbn [orb app].
    destruct after as [|c after]; [done|]. rewrite peek_digit. by rewrite (Hstop c after). }
  rewrite bool_decide_eq_false_2 by done. cbn [orb].
  pose proof Hall as [Hc _]%Forall_cons.
  change ((c :: ds') ++ after) with (c :: ds' ++ after). rewrite peek_digit, Hc. cbn [negb].
  change (c :: ds' ++ after) with ((c :: ds') ++ after). rewrite extract_numeral by done.
  destruct (INT_MAX <? decimal (c :: ds')); [done|]. cbn [failbit orb].
  destruct (decimal (c :: ds') =? first); [|done]. cbn [negb orb].
  rewrite skip_trailing_first. by destruct (forallb is_space after).
Qed.

(** Without a leading number there is no single node. *)
Lemma singleOnlineNode_none l :
  (∀ c l', snd (span is_space l) = c :: l' → is_digit c = false) → singleOnlineNode l = -1.
Proof.
  intros Hl. unfold singleOnlineNode, skip_space. cbn [good eofbit failbit negb andb unread].
  destruct (snd (span is_space l)) as [|c l']; [done|]. rewrite peek_digit. by rewrite (Hl c l').
Qed.

Lemma rest_of_list_names before ds l n :
  spaces before → numeral ds n → rest_of_list n l = n → 0 ≤ n →
  names_one_node (before ++ ds ++ l) n.
Proof.
  intros Hb Hds Hrest Hn.
  assert (∀ b : bool, (if b then n else -1) = n → b = true) as Hif by (intros []; [done|lia]).
  destruct l as [|c l]; [apply one_number; [done..|apply Forall_nil_2]|]. unfold rest_of_list in Hrest.
  destruct (Ascii.eqb_spec c "-"%char) as [->|Hminus].
  - pose proof (span_app is_digit l) as Happ.
    pose proof (span_all is_digit l) as Hall. destruct (span is_digit l) as [ds' after].
    simpl in Happ, Hall. subst l.
    destruct (_ || _) eqn:Hbad; [lia|].
    apply orb_false_iff in Hbad as [[[Hne Hmax]%orb_false_iff Heq]%orb_false_iff Hsp].
    apply bool_decide_eq_false in Hne. apply negb_false_iff in Heq, Hsp.
    apply Z.eqb_eq in Heq. apply Z.ltb_ge in Hmax.
    apply one_range; [done..| |by apply spaces_dec]. split_and!; [done..|lia].
  - apply one_number; [done..|]. by apply spaces_dec, Hif.
Qed.

(** [singleOnlineNode] accepts exactly the lists that name one node, spelt [n]
    or [n-n] in the range of an [int] with white space around, and returns it;
    any other text (several nodes, a gap, a sign, an overflow, trailing
    characters, nothing) yields -1. *)
Theorem singleOnlineNode_correct l :
  (∀ n, names_one_node l n → singleOnlineNode l = n ∧ 0 ≤ n)
  ∧ (singleOnlineNode l = -1 ∨ names_one_node l (singleOnlineNode l)).
Proof.
  split.
  - intros n [before ds after n' Hb (Hds & Hne & Hn & Hmax) Ha
      |before ds ds' after n' Hb (Hds & Hne & Hn & Hmax) (Hds' & Hne' & Hn' & _) Ha];
      (split; [|rewrite <-Hn; by apply decimal_nonneg]).
    + rewrite singleOnlineNode_run by (done || by apply space_stops).
      rewrite Hn, (proj2 (Z.ltb_ge _ _) Hmax).
      apply spaces_dec in Ha. unfold rest_of_list. rewrite Ha.
      destruct after as [|c after]; [done|].
      by destruct (Ascii.eqb_spec c "-"%char) as [->|Hm]; [vm_compute in Ha|].
    + rewrite singleOnlineNode_run; [|done..|by intros c l' [= <- _]].
      rewrite Hn, (proj2 (Z.ltb_ge _ _) Hmax). unfold rest_of_list. cbn [Ascii.eqb eqb].
      rewrite span_of; [|done|by apply space_stops].
      rewrite bool_decide_eq_false_2 by done.
      rewrite Hn', (proj2 (Z.ltb_ge _ _) Hmax), Z.eqb_refl. cbn [orb negb].
      by rewrite (proj1 (spaces_dec _) Ha).
  - pose proof (span_app is_space l) as Happ. pose proof (span_all is_space l) as Hsp.
    destruct (span is_space l) as [before l1] eqn:Hspan. simpl in Happ, Hsp. subst l.
    destruct l1 as [|c l1].
    { left. apply singleOnlineNode_none. by rewrite Hspan. }
    destruct (is_digit c) eqn:Hc.
    2: { left. apply singleOnlineNode_none. rewrite Hspan. simpl. by intros c' l' [= <- _]. }
    pose proof (span_app is_digit (c :: l1)) as Happ. pose proof (span_all is_digit (c :: l1)) as Hds.
    pose proof (span_digits (c :: l1)) as Hstop.
    assert (fst (span is_digit (c :: l1)) ≠ []) as Hne.
    { simpl. rewrite Hc. by destruct (span is_digit l1). }
    destruct (span is_digit (c :: l1)) as [ds l2]. simpl in Happ, Hds, Hstop, Hne. rewrite Happ.
    rewrite singleOnlineNode_run by done.
    destruct (Z.ltb_spec INT_MAX (decimal ds)); [by left|].
    destruct (decide (rest_of_list (decimal ds) l2 = -1)) as [|Hr]; [by left|right].
    assert (rest_of_list (decimal ds) l2 = decimal ds) as Heq.
    { revert Hr. unfold rest_of_list. repeat case_match; done. }
    rewrite Heq. apply rest_of_list_names; [done|done|done|by apply decimal_nonneg].
Qed.

(** ** Placement *)

(** A known placement is kept; an unknown one is inferred only from a system
    with a single online node, and otherwise rejected in strict mode and node 0
    in the other. *)
Theorem resolveGpuNumaNode_correct reported online strict :
  let node := resolveGpuNumaNode reported online strict in
  (0 ≤ reported → node = reported)
  ∧ (reported < 0 → ∀ n, names_one_node online n → node = n)
  ∧ (reported < 0 → (∀ n, ¬ names_one_node online n) → node = if strict : bool then -1 else 0).
Proof.
  intros node. unfold node, resolveGpuNumaNode.
  destruct (singleOnlineNode_correct online) as [Hnames Hor]. split_and!.
  - intros Hr. by apply Z.leb_le in Hr as ->.
  - intros Hr n Hn. rewrite (proj2 (Z.leb_gt _ _) Hr).
    destruct (Hnames n Hn) as [-> Hpos]. by apply Z.leb_le in Hpos as ->.
  - intros Hr Hno. rewrite (proj2 (Z.leb_gt _ _) Hr).
    destruct Hor as [-> |Hn]; [done|]. by apply Hno in Hn.
Qed.

Definition on_node (numaNode : Z) (location : GpuLocation) : Prop :=
  location_numaNode location = numaNode.
#[export] Instance on_node_dec numaNode location : Decision (on_node numaNode location).
Proof. unfold on_node. apply _. Defined.

Lemma gpusOnNode_filter numaNode locations :
  (N.of_nat (length locations) < two64)%N →
  gpusOnNode numaNode locations
  = (N.of_nat (length (filter (on_node numaNode) locations)),
     default (-1) (location_gpuId <$> last (filter (on_node numaNode) locations))).
Proof.
  unfold gpusOnNode. induction locations as [|x l IH] using rev_ind; intros Hlen; [done|].
  rewrite length_app in Hlen. simpl in Hlen. rewrite fold_left_app, IH by lia. simpl.
  rewrite filter_app, length_app. 
  destruct (Z.eqb_spec (location_numaNode x) numaNode) as [Heq|Hne].
  - rewrite filter_cons_True, filter_nil, last_snoc by done. simpl.
    pose proof (length_filter (on_node numaNode) l). f_equal.
    rewrite inc64_small; [lia|]. unfold two64 in *. lia.
  - rewrite filter_cons_False, filter_nil, app_nil_r by done. simpl. by rewrite Nat.add_0_r.
Qed.

(** [resolveGpuIds] accepts a node exactly when one GPU is placed on it, and then
    returns that GPU; it never leaves a partial answer. *)
Lemma resolveGpuIds_correct numaNode locations :
  (N.of_nat (length locations) < two64)%N →
  (∀ gpuId, resolveGpuIds numaNode locations = (true, [gpuId]) ↔
     0 ≤ numaNode ∧ 0 ≤ gpuId
     ∧ filter (on_node numaNode) locations = [mkLocation gpuId numaNode])
  ∧ (fst (resolveGpuIds numaNode locations) = false →
       snd (resolveGpuIds numaNode locations) = []).
Proof.
  intros Hlen. unfold resolveGpuIds. rewrite gpusOnNode_filter by done.
  assert (Forall (on_node numaNode) (filter (on_node numaNode) locations)) as Hall
    by (apply Forall_forall; intros x Hx; by apply list_elem_of_filter in Hx as [Hx _]).
  destruct (Z.ltb_spec numaNode 0); [split; [|done]; intros; split; [done|lia]|].
  destruct (filter (on_node numaNode) locations) as [|[g n] [|y rest]].
  - simpl. split; [|done]. naive_solver.
  - apply Forall_cons in Hall as [Hn _]. unfold on_node in Hn. simpl in Hn |- *. subst n.
    destruct (Z.ltb_spec g 0); (split; [|done]); naive_solver lia.
  - rewrite (proj2 (N.eqb_neq (N.of_nat (length (_ :: y :: rest))) 1)) by (simpl; lia).
    cbn [negb orb]. split; [|done]. naive_solver.
Qed.
