(* ===== verification/RegistryBehaviour.v ===== *)
(** What the registry of GPUs and tasks promises to its callers. *)
From Stdlib Require Import Ascii String.
From S2P Require Import Prelude.
From S2P Require Import Platform.
From S2P Require Import GpuTopology.
From S2P Require Import GpuContextManager.
From S2P Require Import TopologyBehaviour.
From S2P Require Import RegistryInvariant.
#[local] Open Scope Z_scope.

Section sessions.
Context `{GpuDriver}.
Implicit Types (s : GpuInfra) (x : GpuContext) (c t : ptr) (w : world).

(** *** Shutting down *)

Lemma context_idle s c x :
  registry s → context_store s !! c = Some x →
  activeTaskCount x = 0%N ↔ ∀ t, t ∈ taskResources x → t = nullptr.
Proof.
  intros Hr Hx. apply activeTaskCount_idle. pose proof (reg_room _ Hr c x Hx).
  unfold two64. lia.
Qed.

Lemma idle_contexts_run s l :
  registry s → (∀ c, c ∈ l → c ∈ contexts s) →
  ∃ b, idle_contexts (context_store s) l = Some b
    ∧ (b = true ↔ Forall (idle_context (context_store s)) l).
Proof.
  intros Hr. induction l as [|c l IH]; intros Hl; simpl; [by exists true|].
  assert (c ∈ contexts s) as Hc by (apply Hl; by left).
  assert (c ≠ nullptr) as Hcn by (intros ->; by apply (reg_null _ Hr)).
  apply (reg_objects _ Hr) in Hc as [x Hx].
  rewrite (proj2 (N.eqb_neq _ _) Hcn), Hx. simpl.
  destruct (N.eqb_spec (activeTaskCount x) 0) as [Ha|Ha]; simpl.
  - destruct IH as (b & -> & Hb); [intros c' Hc'; apply Hl; by right|].
    exists b. split; [done|]. rewrite Forall_cons, Hb. unfold idle_context at 2. naive_solver.
  - exists false. split; [done|]. rewrite Forall_cons. unfold idle_context. naive_solver.
Qed.

Lemma all_idle_unregistered s :
  registry s →
  Forall (idle_context (context_store s)) (contexts s) ↔ ¬ ∃ t, registered s t.
Proof.
  intros Hr. rewrite Forall_forall. split.
  - intros Hidle (t & r & Ht & Hctx).
    destruct (registered_slot s t r Hr Ht Hctx) as (_ & x & i & Hx & Hi & _).
    destruct (Hidle (ctx r)) as (x' & Hx' & Ha); [apply (reg_objects _ Hr); eauto|].
    assert (x' = x) as -> by congruence.
    apply (reg_task _ Hr t r Ht). eapply (context_idle s); eauto. by eapply vat_elem_of.
  - intros Hno c [x Hx]%(reg_objects _ Hr). exists x. split; [done|].
    apply (context_idle s c x Hr Hx). intros t [i Hi]%elem_of_vat.
    destruct (decide (t = nullptr)) as [|Ht]; [done|]. exfalso. apply Hno.
    destruct (reg_slot _ Hr c x i t Hx Hi Ht) as (r & Hr0 & _ & _ & Hctx).
    exists t, r. split; [done|]. rewrite Hctx. intros ->.
    apply (reg_null _ Hr), (reg_objects _ Hr). eauto.
Qed.

Lemma registry_undiscovered s :
  registry s → ¬ (∃ t, registered s t) → registry (undiscovered s (task_store s)).
Proof.
  intros Hr Hno. split; simpl; try done; try apply NoDup_nil_2; try (by intros ?%elem_of_nil).
  - intros c. rewrite lookup_empty, elem_of_nil. by split; [|intros [? [=]]].
  - intros t r Ht. destruct (reg_task _ Hr t r Ht) as [Htn [?|(x & i & Hx & _)]];
      (split; [done|]); [by left|]. exfalso. apply Hno. exists t, r. split; [done|].
    intros Hnull. rewrite Hnull in Hx. apply (reg_null _ Hr), (reg_objects _ Hr). eauto.
Qed.

Lemma shutdown_run s w :
  registry s →
  ∃ s' w', shutdown s w = Some (s', w') ∧ registry s' ∧ task_store s' = task_store s
    ∧ ((∃ t, registered s t) → s' = s ∧ w' = w)
    ∧ (¬ (∃ t, registered s t) → s' = undiscovered s (task_store s)).
Proof.
  intros Hr. unfold shutdown. destruct (initialised s) eqn:Hon; cbn [negb].
  2: { exists s, w. split_and!; try done. intros _. by apply registry_off. }
  destruct (idle_contexts_run s (contexts s) Hr) as (b & -> & Hb); [done|].
  rewrite (all_idle_unregistered s Hr) in Hb. cbn [mbind option_bind]. destruct b; cbn [negb].
  - destruct (releaseContexts_run (context_store s) (contexts s) w) as (store & w' & -> & Hlook);
      [apply Hr..|by apply (all_idle_unregistered s Hr); exact (proj1 Hb eq_refl)|]. cbn [mbind option_bind].
    assert (store = ∅) as ->.
    { apply map_empty. intros c. rewrite Hlook. case_decide as Hc; [done|].
      destruct (context_store s !! c) eqn:Hx; [|done]. exfalso. apply Hc, (reg_objects _ Hr). eauto. }
    eexists _, w'. split; [done|]. split_and!; [|done| |done].
    + apply (registry_undiscovered s); [done|exact (proj1 Hb eq_refl)].
    + intros Hreg. by destruct (proj1 Hb eq_refl).
  - exists s, w. split_and!; try done. intros Hno. by apply (proj2 Hb) in Hno.
Qed.

(** *** The current task and the GPUs of a node *)

Lemma makeTaskCurrent_run s t r w :
  registry s → task_store s !! t = Some r →
  makeTaskCurrent t s w = Some
    (if decide (ctx r = nullptr) then (false, w)
     else let '(status, w') := cudaSetDevice (task_gpuId r) w in (cuda_ok status, w')).
Proof.
  intros Hr Ht. unfold makeTaskCurrent. rewrite Ht. cbn [mbind option_bind].
  case_decide as Hctx.
  { rewrite Hctx. cbn [mbind option_bind]. by destruct (initialised s). }
  destruct (registered_slot s t r Hr Ht Hctx) as (Hon & x & i & Hx & _ & _ & Hg & Hpos).
  rewrite (proj2 (N.eqb_neq _ _) Hctx), Hx, Hon. simpl.
  rewrite (proj2 (Z.ltb_ge _ _) Hpos), Hg, Z.eqb_refl. simpl. by destruct (cudaSetDevice _ _).
Qed.

(** The GPUs and their nodes, in order. *)
Definition placed s (gpuId node : Z) : Prop :=
  ∃ c x, c ∈ contexts s ∧ context_store s !! c = Some x ∧ context_gpuId x = gpuId
    ∧ context_numaNode x = node.

Lemma locations_run s l :
  registry s → (∀ c, c ∈ l → c ∈ contexts s) →
  ∃ ls, locations_of (context_store s) l = Some ls
    ∧ Forall2 (λ c location, ∃ x, context_store s !! c = Some x
        ∧ location = mkLocation (context_gpuId x) (context_numaNode x)) l ls.
Proof.
  intros Hr. induction l as [|c l IH]; intros Hl; simpl; [by exists []|].
  assert (c ∈ contexts s) as Hc by (apply Hl; by left).
  assert (c ≠ nullptr) as Hcn by (intros ->; by apply (reg_null _ Hr)).
  apply (reg_objects _ Hr) in Hc as [x Hx].
  rewrite (proj2 (N.eqb_neq _ _) Hcn), Hx. simpl.
  destruct IH as (ls & -> & Hls); [intros c' Hc'; apply Hl; by right|].
  eexists. split; [done|]. constructor; [eauto|done].
Qed.

Lemma gpuIdsForCurrentNumaNode_run s w :
  registry s →
  ∃ ok gpuIds, gpuIdsForCurrentNumaNode s w = Some (ok, gpuIds)
    ∧ (ok = true → ∃ gpu, gpuIds = [gpu] ∧ (0 ≤ gpu)%Z).
Proof.
  intros Hr. unfold gpuIdsForCurrentNumaNode.
  destruct (initialised s); cbn [negb]; [|by eexists _, _].
  destruct (locations_run s (contexts s) Hr) as (ls & Hls & _); [done|].
  change (gpuLocations s = Some ls) in Hls. rewrite Hls. cbn [mbind option_bind].
  unfold resolveGpuIds. destruct (_ <? 0)%Z; [by eexists _, _|].
  destruct (gpusOnNode _ ls) as [n g]. destruct (negb (n =? 1)%N); [by eexists _, _|]. simpl.
  destruct (Z.ltb_spec g 0); [by eexists _, _|]. eexists _, _. split; [done|]. intros _. by exists g.
Qed.

(** ** Sessions *)

Inductive infra_call :=
| Init (config : GpuInfraConfig)
| NewTask (task : ptr)
| Register (gpuId : Z) (task : ptr)
| Unregister (task : ptr)
| MakeCurrent (task : ptr)
| CurrentGpus
| Shutdown.

(** Every context can number one more task. *)
Definition slots_left s : bool :=
  bool_decide (map_Forall (λ _ x, (freeResourceId (taskResources x) < 2147483648)%N)
                 (context_store s)).

Definition infra_perform (s : GpuInfra) (w : world) (call : infra_call) :
    option (GpuInfra * world) :=
  match call with
  | Init config => '(_, s, w) ← init config s w; Some (s, w)
  | NewTask t =>
      if (t =? nullptr)%N || bool_decide (is_Some (task_store s !! t)) then Some (s, w)
      else Some (s <| task_store := <[t := TaskGpuResources_default]> (task_store s) |>, w)
  | Register gpuId t =>
      if bool_decide (is_Some (task_store s !! t)) && slots_left s
      then '(_, s) ← registerTask gpuId t s; Some (s, w) else Some (s, w)
  | Unregister t =>
      if bool_decide (is_Some (task_store s !! t))
      then '(_, s) ← unregisterTask t s; Some (s, w) else Some (s, w)
  | MakeCurrent t =>
      if bool_decide (is_Some (task_store s !! t))
      then '(_, w) ← makeTaskCurrent t s w; Some (s, w) else Some (s, w)
  | CurrentGpus => _ ← gpuIdsForCurrentNumaNode s w; Some (s, w)
  | Shutdown => shutdown s w
  end.

Fixpoint infra_session (s : GpuInfra) (w : world) (calls : list infra_call) :
    option (GpuInfra * world) :=
  match calls with
  | [] => Some (s, w)
  | call :: calls => '(s, w) ← infra_perform s w call; infra_session s w calls
  end.

Lemma new_task_registry s t :
  registry s → t ≠ nullptr → task_store s !! t = None →
  registry (s <| task_store := <[t := TaskGpuResources_default]> (task_store s) |>).
Proof.
  intros Hr Htn Ht. split; simpl; try apply Hr.
  - intros c x i u Hx Hi Hu. destruct (reg_slot _ Hr c x i u Hx Hi Hu) as (r & Hr0 & ?).
    exists r. rewrite lookup_insert_ne; [done|]. congruence.
  - intros u r. destruct (decide (u = t)) as [->|Hne].
    + rewrite lookup_insert_eq. intros [= <-]. split; [done|]. by left.
    + rewrite lookup_insert_ne by done. apply Hr.
Qed.

Lemma infra_perform_registry s w call :
  registry s → ∃ s' w', infra_perform s w call = Some (s', w') ∧ registry s'.
Proof.
  intros Hr. destruct call as [config|t|gpuId t|t|t| |]; simpl.
  - destruct (init_run config s w Hr) as (ok & s' & w' & -> & ? & _). by exists s', w'.
  - destruct (N.eqb_spec t nullptr) as [|Htn]; [by exists s, w|]. simpl.
    case_bool_decide as Ht; [by exists s, w|]. eexists _, w. split; [done|].
    apply new_task_registry; [done..|]. by apply eq_None_not_Some.
  - case_bool_decide as Ht; [|by exists s, w]. destruct Ht as [r Ht]. simpl.
    unfold slots_left. case_bool_decide as Hroom; [|by exists s, w].
    pose proof (registerTask_run s gpuId t r Hr Ht Hroom) as Hreg.
    destruct (if initialised s && (ctx r =? nullptr)%N then context_of s gpuId else None) as [c|].
    + destruct Hreg as (x & _ & _ & -> & ?). by eexists _, w.
    + rewrite Hreg. by exists s, w.
  - case_bool_decide as Ht; [|by exists s, w]. destruct Ht as [r Ht].
    pose proof (unregisterTask_run s t r Hr Ht) as Hun. case_decide.
    + rewrite Hun. by exists s, w.
    + destruct Hun as (x & i & _ & _ & -> & ?). by eexists _, w.
  - case_bool_decide as Ht; [|by exists s, w]. destruct Ht as [r Ht].
    rewrite (makeTaskCurrent_run s t r w Hr Ht). simpl.
    case_decide; [by exists s, w|]. destruct (cudaSetDevice _ _). by eexists s, _.
  - unfold gpuIdsForCurrentNumaNode. destruct (initialised s); simpl; [|by exists s, w].
    unfold gpuLocations. destruct (locations_run s (contexts s) Hr) as (ls & -> & _); [done|].
    by exists s, w.
  - destruct (shutdown_run s w Hr) as (s' & w' & -> & ? & _). by exists s', w'.
Qed.

Lemma infra_session_registry s w calls :
  registry s → ∃ s' w', infra_session s w calls = Some (s', w') ∧ registry s'.
Proof.
  revert s w. induction calls as [|call calls IH]; intros s w Hr; [by exists s, w|]. simpl.
  destruct (infra_perform_registry s w call Hr) as (s1 & w1 & -> & Hr1). by apply IH.
Qed.

End sessions.

(** ** Properties *)
Section properties.
Context `{GpuDriver}.
Implicit Types (s : GpuInfra) (x : GpuContext) (c t : ptr) (w : world).

(** States some sequence of calls reaches from program start. *)
Definition infra_reachable s : Prop :=
  ∃ w calls w', infra_session GpuInfra_initial w calls = Some (s, w').

Lemma reachable_registry s : infra_reachable s → registry s.
Proof.
  intros (w & calls & w' & Hrun).
  destruct (infra_session_registry GpuInfra_initial w calls registry_initial)
    as (s1 & w1 & Hrun1 & Hr). congruence.
Qed.

(** C21.  Whatever the calls and whatever fails on the way, no operation of the
    registry follows a pointer to a deleted context or to a task that is gone,
    and the registry stays consistent: contexts are numbered by their GPU, an
    occupied slot holds a task that knows its slot, GPU and context, and a
    registered task is in the slot it knows. *)
Theorem registry_sessions_are_safe w calls :
  ∃ s w', infra_session GpuInfra_initial w calls = Some (s, w') ∧ registry s.
Proof. apply infra_session_registry, registry_initial. Qed.

Lemma slot_taken_default x t j :
  j ≠ freeResourceId (taskResources x) →
  vat (slot_taken x t) j = vat (taskResources x) j.
Proof. apply (slot_taken_spec x t). Qed.

(** A registration succeeds exactly when the manager is on, the task is not
    registered and the GPU is known.  It then takes the lowest slot of that GPU
    that no registered task holds, and no other task's record changes: resource
    ids are stable.  A refused registration changes nothing. *)
Theorem registration_outcome s gpuId t r :
  infra_reachable s → task_store s !! t = Some r → slots_left s = true →
  ∃ ok s', registerTask gpuId t s = Some (ok, s')
    ∧ (ok = true ↔ initialised s = true ∧ ctx r = nullptr ∧ ∃ node, placed s gpuId node)
    ∧ (ok = false → s' = s)
    ∧ (ok = true → ∃ r', task_store s' = <[t := r']> (task_store s)
         ∧ task_gpuId r' = gpuId ∧ ctx r' ∈ contexts s ∧ 0 ≤ resourceId r'
         ∧ (∀ u ru, task_store s !! u = Some ru → ctx ru = ctx r' → resourceId ru ≠ resourceId r')
         ∧ (∀ j, 0 ≤ j < resourceId r' →
              ∃ u ru, task_store s !! u = Some ru ∧ ctx ru = ctx r' ∧ resourceId ru = j)).
Proof.
  intros Hs Ht Hroom. pose proof (reachable_registry s Hs) as Hr.
  unfold slots_left in Hroom. apply bool_decide_eq_true in Hroom.
  pose proof (registerTask_run s gpuId t r Hr Ht Hroom) as Hreg.
  assert ((∃ node, placed s gpuId node) ↔ is_Some (context_of s gpuId)) as Hplaced.
  { unfold context_of, placed. split.
    - intros (node & c & x & Hc & Hx & Hg & _). apply list_elem_of_lookup in Hc as [n Hn].
      destruct (reg_gpu _ Hr n c x Hn Hx) as [Hgn _].
      rewrite decide_True by lia. rewrite <-Hg, Hgn, Nat2Z.id, Hn. eauto.
    - intros [c Hc]. case_decide as Hg; [|done].
      destruct (registry_context s _ _ Hr Hc) as (_ & x & Hx & Hgx).
      exists (context_numaNode x), c, x. split_and!; [by eapply list_elem_of_lookup_2|done| |done].
      lia. }
  destruct (initialised s) eqn:Hon; cbn [andb] in Hreg.
  2: { exists false, s. split_and!; try done. split; [done|]. by intros []. }
  destruct (N.eqb_spec (ctx r) nullptr) as [Hctx|Hctx].
  2: { exists false, s. split_and!; try done. split; [done|]. by intros (_ & ? & _). }
  destruct (context_of s gpuId) as [c|] eqn:Hc.
  2: { exists false, s. split_and!; try done. split; [done|].
       intros (_ & _ & Hp). apply Hplaced in Hp. by destruct Hp. }
  destruct Hreg as (x & Hx & Hgx & -> & _). exists true, (bind_task s c x t r gpuId).
  split; [done|]. split.
  { split; [|done]. intros _. split_and!; [done..|]. apply Hplaced. eauto. }
  split; [done|]. intros _. eexists. split; [reflexivity|]. simpl.
  destruct (freeResourceId_spec (taskResources x)) as (_ & Hfree & Hbusy).
  assert (c ∈ contexts s) as Hcin by (apply (reg_objects _ Hr); eauto).
  split_and!; try done; [lia| |].
  - intros u ru Hu Hcu Hid.
    destruct (reg_task _ Hr u ru Hu) as [Hun [(Hnull & _)|(y & i & Hy & Hi & Hidi & _)]].
    + rewrite <-Hcu, Hnull in Hcin. by apply (reg_null _ Hr) in Hcin.
    + rewrite Hcu, Hx in Hy. injection Hy as <-.
      assert (i = freeResourceId (taskResources x)) as -> by lia. by apply Hfree in Hi.
  - intros j Hj. destruct (vat_exists (taskResources x) (Z.to_N j)) as [u Hu].
    { destruct (freeResourceId_spec (taskResources x)) as (Hle & _). lia. }
    assert (u ≠ nullptr) as Hun by (eapply Hbusy; [|exact Hu]; lia).
    destruct (reg_slot _ Hr c x (Z.to_N j) u Hx Hu Hun) as (ru & Hru & Hid & _ & Hcu).
    exists u, ru. split_and!; try done. lia.
Qed.

(** Unregistering always succeeds; a registered task gets its initial record
    back, its slot is empty and nothing else changes.  Registering a task and
    unregistering it gives back every task's record and every slot. *)
Theorem unregistration_undoes_registration s gpuId t r s1 :
  infra_reachable s → task_store s !! t = Some r → slots_left s = true →
  registerTask gpuId t s = Some (true, s1) →
  ∃ s2, unregisterTask t s1 = Some (true, s2)
    ∧ task_store s2 = task_store s ∧ contexts s2 = contexts s ∧ initialised s2 = initialised s
    ∧ ∀ c, option_Forall2 (λ x x2, ∀ i, default nullptr (vat (taskResources x2) i)
                                     = default nullptr (vat (taskResources x) i))
             (context_store s !! c) (context_store s2 !! c).
Proof.
  intros Hs Ht Hroom Hrun. pose proof (reachable_registry s Hs) as Hr.
  unfold slots_left in Hroom. apply bool_decide_eq_true in Hroom.
  pose proof (registerTask_run s gpuId t r Hr Ht Hroom) as Hreg.
  destruct (initialised s && (ctx r =? nullptr)%N) eqn:Hok; [|congruence].
  destruct (context_of s gpuId) as [c|]; [|congruence].
  apply andb_prop in Hok as [_ Hctx%N.eqb_eq].
  destruct Hreg as (x & Hx & _ & Hrun' & Hr1). rewrite Hrun in Hrun'. injection Hrun' as ->.
  assert (c ∈ contexts s) as Hcin by (apply (reg_objects _ Hr); eauto).
  assert (c ≠ nullptr) as Hcn by (intros ->; by apply (reg_null _ Hr)).
  set (slot := freeResourceId (taskResources x)) in *.
  set (r1 := r <| resourceId := Z.of_N slot |> <| task_gpuId := gpuId |> <| ctx := c |>).
  assert (task_store (bind_task s c x t r gpuId) !! t = Some r1) as Ht1
    by (simpl; by rewrite lookup_insert_eq).
  pose proof (unregisterTask_run _ t r1 Hr1 Ht1) as Hun. rewrite decide_False in Hun by done.
  destruct Hun as (x1 & i & Hx1 & Hi & -> & _). change (ctx r1) with c in *.
  simpl in Hx1. rewrite lookup_insert_eq in Hx1. injection Hx1 as <-. simpl in Hi.
  destruct (slot_taken_spec x t) as (Hslot & Hother & Hsize). fold slot in Hslot, Hother, Hsize.
  destruct (freeResourceId_spec (taskResources x)) as (_ & Hfree & _). fold slot in Hfree.
  assert (i = slot) as ->.
  { destruct (decide (i = slot)) as [|Hne]; [done|]. rewrite Hother in Hi by done.
    destruct (reg_slot _ Hr c x i t Hx Hi) as (r0 & Hr0 & _ & _ & Hc0);
      [by apply (reg_task _ Hr t r Ht)|]. congruence. }
  eexists. split; [done|]. split_and!; [|done|done|].
  - simpl. rewrite insert_insert_eq. apply insert_id. rewrite Ht. f_equal.
    destruct (reg_task _ Hr t r Ht) as [_ [(_ & Hid & Hg)|(y & j & Hy & _)]].
    + destruct r; simpl in *; by subst.
    + rewrite Hctx in Hy. exfalso. apply (reg_null _ Hr), (reg_objects _ Hr). eauto.
  - intros c'. simpl. rewrite insert_insert_eq. destruct (decide (c' = c)) as [->|Hne].
    + rewrite Hx, lookup_insert_eq. constructor. intros j. simpl.
      destruct (decide (j = slot)) as [->|Hj].
      * rewrite vat_vset_eq by (rewrite Hsize; lia). simpl.
        destruct (vat (taskResources x) slot) as [u|] eqn:Hu; [|done]. by rewrite (Hfree u).
      * rewrite vat_vset_ne by done. by rewrite Hother.
    + rewrite lookup_insert_ne by done. destruct (context_store s !! c'); constructor. done.
Qed.

(** The manager goes up with every GPU of the machine or not at all, and goes
    down exactly when no task is registered, deleting every context. *)
Theorem manager_lifecycle config s w :
  infra_reachable s →
  (∃ ok s' w', init config s w = Some (ok, s', w')
     ∧ if ok : bool then initialised s = false ∧ initialised s' = true
         ∧ (∃ node, placed s' 0 node) ∧ task_store s' = task_store s
         ∧ ∀ gpuId node, placed s' gpuId node → 0 ≤ gpuId ∧ 0 ≤ node
       else s' = s)
  ∧ (∃ s' w', shutdown s w = Some (s', w')
     ∧ ((∃ t, registered s t) → s' = s ∧ w' = w)
     ∧ (¬ (∃ t, registered s t) → s' = undiscovered s (task_store s))).
Proof.
  intros Hs. pose proof (reachable_registry s Hs) as Hr. split.
  - destruct (init_run config s w Hr) as (ok & s' & w' & Hrun & Hr' & Htasks & Hout).
    exists ok, s', w'. split; [done|]. destruct ok; [|done].
    destruct Hout as (Hoff & Hon & Hlen & _). split_and!; try done.
    + destruct (contexts s') as [|c l] eqn:Hcs; [simpl in Hlen; lia|].
      destruct (registry_context s' 0 c Hr') as (_ & x & Hx & Hg); [by rewrite Hcs|].
      exists (context_numaNode x), c, x. rewrite Hcs. split_and!; [left|done..].
    + intros gpuId node (c & x & Hc & Hx & <- & <-). apply list_elem_of_lookup in Hc as [n Hn].
      destruct (reg_gpu _ Hr' n c x Hn Hx) as [-> ?]. lia.
  - destruct (shutdown_run s w Hr) as (s' & w' & ? & _ & _ & ?). eauto.
Qed.

Lemma NoDup_all_equal {A} (l : list A) (x : A) : NoDup l → x ∈ l → (∀ y, y ∈ l → y = x) → l = [x].
Proof.
  intros Hnd Hx Hall. destruct l as [|y l]; [by apply elem_of_nil in Hx|].
  assert (y = x) as -> by (apply Hall; left). f_equal.
  apply elem_of_nil_inv. intros z Hz. assert (z = x) as -> by (apply Hall; by right).
  by apply NoDup_cons in Hnd as [? _].
Qed.

Lemma locations_placed s ls :
  registry s → gpuLocations s = Some ls →
  NoDup ls ∧ length ls = length (contexts s)
  ∧ ∀ g n, mkLocation g n ∈ ls ↔ placed s g n.
Proof.
  intros Hr Hls. unfold gpuLocations in Hls.
  destruct (locations_run s (contexts s) Hr) as (ls' & Hls' & Hall); [done|].
  assert (ls' = ls) as -> by congruence. split_and!.
  - apply NoDup_alt. intros i j location Hi Hj.
    destruct (Forall2_lookup_r _ _ _ _ _ Hall Hi) as (c1 & Hc1 & x1 & Hx1 & ->).
    destruct (Forall2_lookup_r _ _ _ _ _ Hall Hj) as (c2 & Hc2 & x2 & Hx2 & [= Hg _]).
    destruct (reg_gpu _ Hr _ _ _ Hc1 Hx1) as [? _], (reg_gpu _ Hr _ _ _ Hc2 Hx2) as [? _]. lia.
  - symmetry. by eapply Forall2_length.
  - intros g n. split.
    + intros [i Hi]%list_elem_of_lookup.
      destruct (Forall2_lookup_r _ _ _ _ _ Hall Hi) as (c & Hc & x & Hx & [= -> ->]).
      exists c, x. split_and!; try done. by eapply list_elem_of_lookup_2.
    + intros (c & x & Hc & Hx & <- & <-). apply list_elem_of_lookup in Hc as [i Hi].
      destruct (Forall2_lookup_l _ _ _ _ _ Hall Hi) as (location & Hl & x' & Hx' & ->).
      assert (x' = x) as -> by congruence. by eapply list_elem_of_lookup_2.
Qed.

(** The calling thread gets the one GPU of its NUMA node: [gpuIds] is filled
    exactly when the manager is on and a single GPU is placed on the node the
    thread runs on, and is left empty otherwise. *)
Theorem current_node_has_one_gpu s w :
  infra_reachable s → (N.of_nat (length (contexts s)) < two64)%N →
  let node := currentNumaNode (getcpu w) in
  ∃ ok gpuIds, gpuIdsForCurrentNumaNode s w = Some (ok, gpuIds)
    ∧ (ok = false → gpuIds = [])
    ∧ ∀ gpuId, (ok = true ∧ gpuIds = [gpuId]) ↔
        initialised s = true ∧ 0 ≤ node
        ∧ placed s gpuId node ∧ ∀ other, placed s other node → other = gpuId.
Proof.
  intros Hs Hlen node. pose proof (reachable_registry s Hs) as Hr.
  unfold gpuIdsForCurrentNumaNode. destruct (initialised s) eqn:Hon; cbn [negb].
  2: { eexists false, []. split_and!; try done. intros g. split; [by intros []|by intros [? _]]. }
  destruct (locations_run s (contexts s) Hr) as (ls & Hls & _); [done|].
  change (gpuLocations s = Some ls) in Hls. rewrite Hls. cbn [mbind option_bind].
  destruct (locations_placed s ls Hr Hls) as (Hnd & Hlength & Hin). rewrite <-Hlength in Hlen.
  fold node. destruct (resolveGpuIds_correct node ls Hlen) as [Hiff Hnone].
  destruct (resolveGpuIds node ls) as [ok gpuIds]. simpl in Hnone.
  exists ok, gpuIds. split_and!; try done. intros g. specialize (Hiff g).
  assert ((ok = true ∧ gpuIds = [g]) ↔ (ok, gpuIds) = (true, [g])) as -> by naive_solver.
  rewrite Hiff. split.
  - intros (Hnode & Hg & Hf).
    assert (mkLocation g node ∈ filter (on_node node) ls) as [_ Hm]%list_elem_of_filter
      by (rewrite Hf; left).
    split_and!; try done; [by apply Hin|]. intros other Hother%Hin.
    assert (mkLocation other node ∈ filter (on_node node) ls) as Hm'
      by by apply list_elem_of_filter.
    rewrite Hf in Hm'. apply list_elem_of_singleton in Hm'. congruence.
  - intros (_ & Hnode & Hg & Hunique). split_and!; try done.
    + destruct Hg as (c & x & Hc & Hx & <- & _). apply list_elem_of_lookup in Hc as [n Hn].
      destruct (reg_gpu _ Hr n c x Hn Hx) as [-> _]. lia.
    + apply NoDup_all_equal; [by apply NoDup_filter| |].
      * apply list_elem_of_filter. split; [done|by apply Hin].
      * intros [g' n'] [Hn' Hl]%list_elem_of_filter. unfold on_node in Hn'. simpl in Hn'.
        subst n'. apply Hin, Hunique in Hl. by subst.
Qed.

End properties.
