(* ===== verification/NumberText.v ===== *)
(** The numbers the demo reads from text: [std::stoi], [std::stoull] and
    [std::to_string], as the standard library documents them. *)
From Stdlib Require Import Ascii.
From stdpp Require Import pretty.
From S2P Require Import Prelude.
From S2P Require Import GpuTopology.
From S2P Require Import TopologyBehaviour.
#[local] Open Scope Z_scope.

Abbreviation text := (list ascii) (only parsing).

(** Leading space, a sign, digits, and what follows them. *)
Definition scan_integer (s : text) : option (bool * text * text) :=
  let s := snd (span is_space s) in
  let '(negative, s) :=
    match s with
    | c :: s' => if (c =? "-")%char then (true, s')
                 else if (c =? "+")%char then (false, s') else (false, s)
    | [] => (false, [])
    end in
  match span is_digit s with
  | ([], _) => None
  | (digits, rest) => Some (negative : bool, digits, rest)
  end.

(** [std::stoi(s)]; [None] is the exception it throws. *)
Definition stoi (s : text) : option Z :=
  '(negative, digits, _) ← scan_integer s;
  let value := if negative : bool then - decimal digits else decimal digits in
  if (INT_MIN <=? value) && (value <=? INT_MAX) then Some value else None.

(** [std::stoull(s, &consumed)]: the value and what it left of the text.  A sign
    negates in 64 bits. *)
Definition stoull (s : text) : option (uint64 * text) :=
  '(negative, digits, rest) ← scan_integer s;
  let magnitude := Z.to_N (decimal digits) in
  if (SIZE_MAX <? magnitude)%N then None
  else Some (if negative : bool then sub64 0 magnitude else magnitude, rest).

(** [std::to_string(int)] *)
Definition to_string (value : Z) : text := String.list_ascii_of_string (pretty value).

(** ** Numerals *)

Definition digits_only (ds : text) : Prop := Forall (λ c, is_digit c = true) ds.

(** A text that begins with digits, up to where they end. *)
Lemma scan_digits ds rest :
  digits_only ds → ds ≠ [] → stops_digits rest →
  scan_integer (ds ++ rest) = Some (false, ds, rest).
Proof.
  intros Hds Hne Hrest. destruct ds as [|c ds]; [done|]. unfold scan_integer.
  pose proof Hds as [Hc _]%Forall_cons.
  assert (span is_space ((c :: ds) ++ rest) = ([], (c :: ds) ++ rest)) as ->.
  { apply (span_of is_space [] ((c :: ds) ++ rest)); [done|].
    intros c' l' [= <- _]. by apply digit_not_space. }
  cbn [snd app]. destruct (digit_not_sign c Hc) as [-> ->].
  change (c :: ds ++ rest) with ((c :: ds) ++ rest). by rewrite span_of.
Qed.

Lemma stops_nil : stops_digits [].
Proof. by intros c l'. Qed.

Lemma numeral_digits ds n : numeral ds n → digits_only ds ∧ ds ≠ [] ∧ decimal ds = n ∧ 0 ≤ n ≤ INT_MAX.
Proof. intros (Hds & Hne & Hn & Hmax). split_and!; try done. rewrite <-Hn. by apply decimal_nonneg. Qed.

Lemma stoi_numeral ds n : numeral ds n → stoi ds = Some n.
Proof.
  intros (Hds & Hne & Hn & Hlo & Hhi)%numeral_digits. unfold stoi.
  rewrite <-(app_nil_r ds), scan_digits by (done || apply stops_nil). cbn [mbind option_bind].
  rewrite Hn. unfold INT_MIN, INT_MAX in *. by rewrite (proj2 (Z.leb_le _ _)), (proj2 (Z.leb_le _ _)) by lia.
Qed.

Lemma stoull_digits ds :
  digits_only ds → ds ≠ [] → (Z.to_N (decimal ds) ≤ SIZE_MAX)%N →
  stoull ds = Some (Z.to_N (decimal ds), []).
Proof.
  intros Hds Hne Hmax. unfold stoull. rewrite <-(app_nil_r ds) at 1.
  rewrite scan_digits by (done || apply stops_nil). cbn [mbind option_bind].
  by rewrite (proj2 (N.ltb_ge _ _)).
Qed.
