(* ===== verification/NumaExecutor.v ===== *)
(** The placement of threads ([demo/Grape/NumaExecutor.h] and [.cpp]): the list of a
    node's CPUs as the kernel writes it, the affinity of a thread, and the calls
    that run a callback on a placed thread; then the proof that the placement is
    exact. *)
From Stdlib Require Import Ascii.
From stdpp Require Import gmap pretty.
From S2P Require Import Prelude.
From S2P Require Import Platform.
From S2P Require Import GpuTopology.
From S2P Require Import GpuContextManager.
From S2P Require Import TopologyBehaviour.
From S2P Require Import NumberText.
#[local] Open Scope Z_scope.

(** [CPU_SETSIZE] of the C library; a [cpu_set_t] is a set of numbers below it. *)
Definition CPU_SETSIZE : Z := 1024.
Abbreviation cpu_set := (gset Z).

(** The affinity of the calling thread, [pthread_getaffinity_np] and
    [pthread_setaffinity_np]. *)
Class ThreadAffinity `{GpuDriver} := {
  getaffinity : world → Z * gset Z * world;
  setaffinity : gset Z → world → Z * world;
}.

(** ** The list of CPUs *)

(** The loop of [addCpuRange] and its test of the set's size. *)
Definition addCpus (first last : Z) (set : cpu_set) : cpu_set :=
  foldl (λ set cpu, {[cpu]} ∪ set) set (seqZ first (Z.min (last + 1) CPU_SETSIZE - first)).

Definition is_dash (c : ascii) : bool := (c =? "-")%char.
Definition is_comma (c : ascii) : bool := (c =? ",")%char.

(** What follows [try]: [None] is an exception. *)
Definition parseRange (token : text) : option (Z * Z) :=
  let '(head, tail) := span (λ c, negb (is_dash c)) token in
  first ← stoi head;
  last ← match tail with [] => Some first | _ :: tail => stoi tail end;
  Some (first, last).

Definition addCpuRange (set : cpu_set) (token : text) : bool * cpu_set :=
  match parseRange token with
  | None => (false, set)
  | Some (first, last) =>
      if (first <? 0) || (last <? first) then (false, set) else (true, addCpus first last set)
  end.

(** The tokens [std::getline(tokens, token, ',')] yields: none after a comma at
    the end. *)
Fixpoint getlines (token l : text) : list text :=
  match l with
  | [] => match token with [] => [] | _ => [token] end
  | c :: l => if is_comma c then token :: getlines [] l else getlines (token ++ [c]) l
  end.

Fixpoint addCpuRanges (tokens : list text) (set : cpu_set) : bool * cpu_set :=
  match tokens with
  | [] => (true, set)
  | token :: tokens =>
      let '(ok, set) := addCpuRange set token in
      if ok then addCpuRanges tokens set else (false, set)
  end.

(** [input >> cpuList]: the first word of the file. *)
Definition first_word (content : text) : text :=
  fst (span (λ c, negb (is_space c)) (snd (span is_space content))).

Definition cpulist_path (node : Z) : text :=
  String.list_ascii_of_string "/sys/devices/system/node/node" ++ to_string node
  ++ String.list_ascii_of_string "/cpulist".

Section placement.
Context `{ThreadAffinity}.

Definition nodeCpuSet (node : Z) (w : world) : bool * cpu_set :=
  match first_word (default [] (read_file (cpulist_path node) w)) with
  | [] => (false, ∅)
  | cpuList => addCpuRanges (getlines [] cpuList) ∅
  end.

Definition pinToNumaNode (node : Z) (w : world) : bool * world :=
  if node <? 0 then (false, w)
  else
    let '(known, nodeSet) := nodeCpuSet node w in
    if negb known then (false, w)
    else
      let '(result, allowedSet, w) := getaffinity w in
      if negb (result =? 0) then (false, w)
      else
        let nodeSet := nodeSet ∩ allowedSet in
        if (size nodeSet =? 0)%nat then (false, w)
        else let '(result, w) := setaffinity nodeSet w in (result =? 0, w).

(** ** The calls *)

(** How a callback ends: with a result, with a [std::exception], or with
    something else thrown. *)
Inductive Completion := Returned (result : bool) | ThrowsException | ThrowsOther.

(** [start]: the thread's body, given that the thread could be created. *)
Definition executor_start {S A} (numaNode : Z) (callback : bool → S → world → A * S * world) (s : S) (w : world) :
    A * S * world :=
  let '(ready, w) := pinToNumaNode numaNode w in callback ready s w.

(** [run]: [created] says whether [std::thread] could start the thread; a
    callback that throws anything but a [std::exception] terminates the program,
    which is [None]. *)
Definition NumaExecutor_run {S} (created : bool) (numaNode : Z)
    (callback : S → world → Completion * S * world) (s : S) (w : world) : option (bool * S * world) :=
  if negb created then Some (false, s, w)
  else
    let '(completion, s, w) :=
      executor_start numaNode (λ ready s w,
        if negb ready then (Returned false, s, w) else callback s w) s w in
    match completion with
    | Returned succeeded => Some (succeeded, s, w)
    | ThrowsException => Some (false, s, w)
    | ThrowsOther => None
    end.

End placement.

(** The placement of threads is exact: the list of a node's CPUs is read as it is
    written, and a thread that is pinned gets the node's CPUs among its own. *)

(** ** Lists of CPUs *)

(** A CPU, or a first and a last one with a dash between them. *)
Inductive range_text : text → Z → Z → Prop :=
| one_cpu ds n : numeral ds n → range_text ds n n
| cpu_range ds ds' first last :
    numeral ds first → numeral ds' last → first ≤ last →
    range_text (ds ++ "-"%char :: ds') first last.

(** Ranges with commas between them. *)
Inductive cpulist_text : text → list (Z * Z) → Prop :=
| one_range_text t first last : range_text t first last → cpulist_text t [(first, last)]
| more_ranges t first last l ranges :
    range_text t first last → cpulist_text l ranges →
    cpulist_text (t ++ ","%char :: l) ((first, last) :: ranges).

(** The CPU is in one of the ranges. *)
Definition in_ranges (ranges : list (Z * Z)) (cpu : Z) : Prop :=
  ∃ first last, (first, last) ∈ ranges ∧ first ≤ cpu ≤ last.

(** The characters of a list. *)
Definition range_char (c : ascii) : bool := is_digit c || is_dash c.

Lemma digit_not_dash c : is_digit c = true → is_dash c = false.
Proof. apply digit_not_sign. Qed.

Lemma range_char_plain c : range_char c = true → is_comma c = false ∧ is_space c = false.
Proof.
  unfold range_char. intros [Hd|Hd]%orb_true_iff.
  - split; [|by apply digit_not_space]. unfold is_comma. apply Ascii.eqb_neq. intros ->. by vm_compute in Hd.
  - apply Ascii.eqb_eq in Hd as ->. done.
Qed.

Lemma numeral_chars ds n : numeral ds n → Forall (λ c, range_char c = true) ds.
Proof.
  intros [Hds _]. eapply Forall_impl; [exact Hds|]. intros c Hc. unfold range_char. by rewrite Hc.
Qed.

Lemma range_chars t first last :
  range_text t first last → Forall (λ c, range_char c = true) t ∧ t ≠ [] ∧ 0 ≤ first ≤ last.
Proof.
  intros [ds n Hn|ds ds' a b Ha Hb Hle].
  - split; [by eapply numeral_chars|]. apply numeral_digits in Hn as (_ & ? & _ & ?). split; [done|lia].
  - split; [|apply numeral_digits in Ha as (_ & ? & _ & ?); split; [by destruct ds|lia]].
    apply Forall_app. split; [by eapply numeral_chars|]. constructor; [done|by eapply numeral_chars].
Qed.

Lemma parseRange_text t first last : range_text t first last → parseRange t = Some (first, last).
Proof.
  assert (∀ ds n l, numeral ds n → (∀ c l', l = c :: l' → is_dash c = true) →
    span (λ c, negb (is_dash c)) (ds ++ l) = (ds, l)) as Hspan.
  { intros ds n l (Hds & _)%numeral_digits Hl. apply span_of.
    - eapply Forall_impl; [exact Hds|]. intros c Hc. cbv beta. by rewrite digit_not_dash.
    - intros c l' ->. by rewrite (Hl c l'). }
  intros [ds n Hn|ds ds' a b Ha Hb Hle]; unfold parseRange.
  - rewrite <-(app_nil_r ds), (Hspan ds n) by done. by rewrite (stoi_numeral ds n).
  - rewrite (Hspan ds a) by (done || by intros c l' [= <- _]).
    rewrite (stoi_numeral ds a) by done. cbn [mbind option_bind]. by rewrite (stoi_numeral ds' b).
Qed.

Lemma addCpus_spec first last set cpu :
  cpu ∈ addCpus first last set ↔ cpu ∈ set ∨ first ≤ cpu ≤ last ∧ cpu < CPU_SETSIZE.
Proof.
  unfold addCpus.
  assert (∀ l (s : cpu_set), cpu ∈ foldl (λ s c, {[c]} ∪ s) s l ↔ cpu ∈ s ∨ cpu ∈ l) as ->.
  { induction l as [|c l IH]; intros s; simpl; [set_solver|]. rewrite IH. set_solver. }
  rewrite elem_of_seqZ. unfold CPU_SETSIZE. split; (intros [?|?]; [by left|right; lia]).
Qed.

Lemma addCpuRange_text t first last set :
  range_text t first last → addCpuRange set t = (true, addCpus first last set).
Proof.
  intros Ht. unfold addCpuRange. rewrite (parseRange_text t first last Ht).
  apply range_chars in Ht as (_ & _ & Hlo & Hle).
  by rewrite (proj2 (Z.ltb_ge _ _)), (proj2 (Z.ltb_ge _ _)) by lia.
Qed.

Lemma getlines_word t cur l :
  Forall (λ c, is_comma c = false) t → getlines cur (t ++ l) = getlines (cur ++ t) l.
Proof.
  revert cur. induction t as [|c t IH]; intros cur Ht; [by rewrite app_nil_r|].
  apply Forall_cons in Ht as [Hc Ht]. simpl. rewrite Hc, IH by done. by rewrite <-app_assoc.
Qed.

Lemma plain_chars t first last :
  range_text t first last → Forall (λ c, is_comma c = false) t ∧ Forall (λ c, is_space c = false) t.
Proof.
  intros (Ht & _)%range_chars. split; (eapply Forall_impl; [exact Ht|]); intros c Hc; by apply range_char_plain.
Qed.

(** The tokens of a list are its ranges. *)
Lemma addCpuRanges_text l ranges set :
  cpulist_text l ranges →
  ∃ set', addCpuRanges (getlines [] l) set = (true, set')
    ∧ ∀ cpu, cpu ∈ set' ↔ cpu ∈ set ∨ cpu < CPU_SETSIZE ∧ in_ranges ranges cpu.
Proof.
  intros Hl. revert set. induction Hl as [t a b Ht|t a b l ranges Ht Hl IH]; intros set.
  - exists (addCpus a b set). rewrite <-(app_nil_r t), getlines_word by (by eapply plain_chars).
    destruct (range_chars _ _ _ Ht) as (_ & Hne & _). destruct t as [|c t]; [done|]. cbn [getlines app].
    cbn [addCpuRanges]. rewrite (addCpuRange_text _ a b) by done. split; [done|]. intros cpu.
    rewrite addCpus_spec. unfold in_ranges. setoid_rewrite list_elem_of_singleton. naive_solver.
  - rewrite getlines_word by (by eapply plain_chars). cbn [getlines app is_comma].
    change (is_comma ",") with true. cbn iota. cbn [addCpuRanges].
    rewrite (addCpuRange_text _ a b) by done. destruct (IH (addCpus a b set)) as (set' & -> & Hset).
    exists set'. split; [done|]. intros cpu. rewrite Hset, addCpus_spec. unfold in_ranges.
    setoid_rewrite elem_of_cons. naive_solver.
Qed.

Lemma cpulist_plain l ranges : cpulist_text l ranges → Forall (λ c, is_space c = false) l ∧ l ≠ [].
Proof.
  induction 1 as [t a b Ht|t a b l ranges Ht Hl [IH _]].
  - split; [by eapply plain_chars|]. by destruct (range_chars _ _ _ Ht) as (_ & ? & _).
  - split; [|by destruct t]. apply Forall_app. split; [by eapply plain_chars|]. by constructor.
Qed.

Lemma first_word_of before l after :
  spaces before → Forall (λ c, is_space c = false) l → l ≠ [] → spaces after →
  first_word (before ++ l ++ after) = l.
Proof.
  intros Hb Hl Hne Ha. unfold first_word. rewrite span_of; [|done|].
  - cbn [snd]. rewrite span_of; [done|eapply Forall_impl; [exact Hl|]; intros c Hc; cbv beta; by rewrite Hc|].
    intros c l' ->. apply Forall_cons in Ha as [Hc _]. by rewrite Hc.
  - intros c l' Heq. destruct l as [|x l]; [done|]. injection Heq as -> _. by apply Forall_cons in Hl as [? _].
Qed.

(** ** Placement *)

Section placement.
Context `{ThreadAffinity}.

(** C30.  Where the kernel's file lists these ranges, a thread is pinned to exactly the
    CPUs of the ranges that a [cpu_set_t] can hold and the thread may use already;
    it stays where it is, and is reported as not placed, if there is none, or if
    its affinity cannot be read or set. *)
Theorem placement_is_exact node before l after ranges w :
  0 ≤ node → read_file (cpulist_path node) w = Some (before ++ l ++ after) →
  spaces before → cpulist_text l ranges → spaces after →
  ∃ cpus : cpu_set, (∀ cpu, cpu ∈ cpus ↔ cpu < CPU_SETSIZE ∧ in_ranges ranges cpu)
    ∧ pinToNumaNode node w
      = let '(result, allowed, w1) := getaffinity w in
        if decide (result ≠ 0 ∨ cpus ∩ allowed = ∅) then (false, w1)
        else let '(result, w2) := setaffinity (cpus ∩ allowed) w1 in (result =? 0, w2).
Proof.
  intros Hnode Hfile Hb Hl Ha. destruct (cpulist_plain l ranges Hl) as [Hplain Hne].
  destruct (addCpuRanges_text l ranges ∅ Hl) as (cpus & Hrun & Hcpus).
  exists cpus. split; [intros cpu; rewrite Hcpus; set_solver|].
  unfold pinToNumaNode, nodeCpuSet. rewrite (proj2 (Z.ltb_ge _ _)) by lia.
  rewrite Hfile. cbn [default from_option id]. rewrite first_word_of by done. destruct l as [|c l]; [done|]. rewrite Hrun. cbn [negb].
  destruct (getaffinity w) as [[result allowed] w1]. destruct (Z.eqb_spec result 0) as [->|Hres]; cbn [negb].
  - destruct (Nat.eqb_spec (size (cpus ∩ allowed)) 0) as [Hz|Hz].
    + apply size_empty_inv, leibniz_equiv in Hz. by rewrite decide_True by auto.
    + rewrite decide_False; [done|]. intros [?|Hempty]; [done|]. apply Hz. rewrite Hempty. apply size_empty.
  - by rewrite decide_True by auto.
Qed.

End placement.
