(* ===== verification/Diagnostics.v ===== *)
(** The diagnostics ([src/CudaCheck.h], [src/GpuDiagnostics.cpp]): each thread's
    current identity, the scopes that set and restore it, and the lines written for
    failures.  A [const char*] is an optional text. *)
From Stdlib Require Import Ascii.
From stdpp Require Import pretty strings.
From S2P Require Import Prelude.
From S2P Require Import Platform.
From S2P Require Import GpuDataKey.
From S2P Require Import GpuTopology.
From S2P Require Import GpuContextManager.
From S2P Require Import RegistryInvariant.
From S2P Require Import RegistryBehaviour.
From S2P Require Import NumberText.
#[local] Open Scope N_scope.

(** What the source takes from the C library, CUDA and cuFFT for its lines: the
    process's id, [%p], and the names of errors. *)
Class DiagnosticSource := {
  getpid : Z;
  format_pointer : ptr → text;
  cudaGetErrorName : cuda_status → option text;
  cudaGetErrorString : cuda_status → option text;
  cuGetErrorName : cuda_status → option text;
  cuGetErrorString : cuda_status → option text;
  (** Which of cuFFT's newer results its header declares. *)
  has_missing_dependency : bool;
  has_nvrtc_failure : bool;
  has_nvjitlink_failure : bool;
  has_nvshmem_failure : bool;
}.

(** A literal. *)
Definition literal (s : string) : text := String.list_ascii_of_string s.

(** ** The identity *)

Record GpuDiagnosticInfo := mkInfo {
  info_gpuId : Z;
  info_numaNode : Z;
  info_resourceId : Z;
  info_context : ptr;
  info_driverContextId : N;
  info_driverContextIdKnown : bool;
  info_stream : ptr;
  info_key : GpuDataKey;
  frameKnown : bool;
  info_stage : option text;
}.

(** [GpuDiagnosticInfo()] *)
Definition GpuDiagnosticInfo_default : GpuDiagnosticInfo :=
  mkInfo (-1) (-1) (-1) nullptr 0 false nullptr GpuDataKey_default false (Some (literal "unknown")).

(** The constructors of [GpuDiagnosticScope]. *)
Inductive scope :=
  | InfoScope (info : GpuDiagnosticInfo)
  | TaskScope (resources : TaskGpuResources) (stage : option text) (key : option GpuDataKey)
  | StageScope (stage : option text)
  | AccessScope (gpuId : Z) (stream : ptr) (key : GpuDataKey) (stage : option text).

(** The part of the task's constructor that follows [resources.ctx]. *)
Definition context_identity (s : GpuInfra) (resources : TaskGpuResources) : option (Z * ptr * N * bool) :=
  if ctx resources =? nullptr then Some ((-1)%Z, nullptr, 0, false)
  else
    c ← context_store s !! ctx resources;
    Some (context_numaNode c, primaryCtx c, driverContextId c, driverContextIdKnown c).

(** The key a task's scope has: its own, or that of the scope around it if that is
    the same task's. *)
Definition inherited_key (previous : GpuDiagnosticInfo) (resources : TaskGpuResources)
    (key : option GpuDataKey) : GpuDataKey * bool :=
  match key with
  | Some key => (key, true)
  | None =>
      if (info_gpuId previous =? task_gpuId resources)%Z && (info_resourceId previous =? resourceId resources)%Z
      then (info_key previous, frameKnown previous)
      else (GpuDataKey_default, false)
  end.

(** The constructors: the new [diagnosticInfo] of a thread that had [previous]. *)
Definition scope_info (s : GpuInfra) (previous : GpuDiagnosticInfo) (sc : scope) : option GpuDiagnosticInfo :=
  match sc with
  | InfoScope info => Some info
  | TaskScope resources stage key =>
      '(numaNode, context, driverId, driverIdKnown) ← context_identity s resources;
      let '(key, known) := inherited_key previous resources key in
      Some (mkInfo (task_gpuId resources) numaNode (resourceId resources) context driverId driverIdKnown
              (task_stream resources) key known stage)
  | StageScope stage =>
      Some (mkInfo (info_gpuId previous) (info_numaNode previous) (info_resourceId previous)
              (info_context previous) (info_driverContextId previous) (info_driverContextIdKnown previous)
              (info_stream previous) (info_key previous) (frameKnown previous) stage)
  | AccessScope gpuId stream key stage =>
      let info :=
        if negb (info_gpuId previous =? gpuId)%Z then GpuDiagnosticInfo_default
        else if negb (info_stream previous =? stream)
        then mkInfo (info_gpuId previous) (info_numaNode previous) (-1) (info_context previous)
               (info_driverContextId previous) (info_driverContextIdKnown previous) (info_stream previous)
               (info_key previous) (frameKnown previous) (info_stage previous)
        else previous in
      Some (mkInfo gpuId (info_numaNode info) (info_resourceId info) (info_context info)
              (info_driverContextId info) (info_driverContextIdKnown info) stream key true stage)
  end.

(** ** The lines *)

Section lines.
Context `{DiagnosticSource}.

(** What [std::snprintf] leaves in a buffer. *)
Definition snprintf (capacity : nat) (formatted : text) : text := take (pred capacity) formatted.

(** [%d], [%ld]; [%llu], [%u]; [%s] of a pointer the source tests. *)
Definition format_int (value : Z) : text := literal (pretty value).
Definition format_unsigned (value : N) : text := literal (pretty value).
Definition or_unknown (s : option text) : text := default (literal "unknown") s.

(** A buffer that begins as "unknown". *)
Definition known_field (known : bool) (value : N) : text :=
  if known then snprintf 32 (format_unsigned value) else literal "unknown".

(** The text [formatDiagnosticInfo] formats, before it is cut. *)
Definition diagnostic_text (info : GpuDiagnosticInfo) : text :=
  literal "pid=" ++ format_int getpid
  ++ literal " bound_gpu=" ++ format_int (info_gpuId info)
  ++ literal " numa=" ++ format_int (info_numaNode info)
  ++ literal " resource=" ++ format_int (info_resourceId info)
  ++ literal " context_handle=" ++ format_pointer (info_context info)
  ++ literal " driver_context_id=" ++ known_field (info_driverContextIdKnown info) (info_driverContextId info)
  ++ literal " stream=" ++ format_pointer (info_stream info)
  ++ literal " frame=" ++ known_field (frameKnown info) (frameId (info_key info))
  ++ literal " camera=" ++ known_field (frameKnown info) (cameraId (info_key info))
  ++ literal " variant_id=" ++ known_field (frameKnown info) (variantId (info_key info))
  ++ literal " stage=" ++ or_unknown (info_stage info).

Definition formatDiagnosticInfo (capacity : nat) (info : GpuDiagnosticInfo) : text :=
  snprintf capacity (diagnostic_text info).

Inductive GpuErrorSource := Application | CudaRuntime | CudaDriver | Cufft.

Record GpuErrorRecord := mkError {
  error_source : GpuErrorSource;
  error_code : Z;
  error_name : option text;
  error_message : option text;
  error_operation : option text;
  error_file : option text;
  error_line : Z;
}.

(** [GpuErrorRecord()] *)
Definition GpuErrorRecord_default : GpuErrorRecord :=
  mkError Application 0 (Some (literal "Failure")) (Some (literal "unknown")) (Some (literal "unknown"))
    (Some (literal "unknown")) 0.

Definition source_name (source : GpuErrorSource) : text :=
  match source with
  | Application => literal "GPUInfra"
  | CudaRuntime => literal "CUDA Runtime"
  | CudaDriver => literal "CUDA Driver"
  | Cufft => literal "cuFFT"
  end.

Definition error_code_text (error : GpuErrorRecord) : text :=
  match error_source error with
  | Application => literal "none"
  | _ => snprintf 32 (format_int (error_code error))
  end.

(** [logGpuError]: what it writes to [stderr]. *)
Definition logGpuError (error : GpuErrorRecord) (info : GpuDiagnosticInfo) : text :=
  let details := formatDiagnosticInfo 512 info in
  literal "[" ++ source_name (error_source error) ++ literal "] " ++ or_unknown (error_file error)
  ++ literal ":" ++ format_int (error_line error) ++ literal " operation=" ++ or_unknown (error_operation error)
  ++ literal " error=" ++ or_unknown (error_name error) ++ literal " code=" ++ error_code_text error
  ++ literal " message=" ++ or_unknown (error_message error) ++ literal " " ++ details ++ ["010"%char].

Definition reportGpuFailure (reason : option text) (info : GpuDiagnosticInfo) (file : option text) (line : Z) :
    text :=
  logGpuError (mkError Application 0 (error_name GpuErrorRecord_default) reason (info_stage info) file line) info.

(** ** The checks of a call's status *)

(** [cufftResult] *)
Inductive cufftResult :=
  | CUFFT_SUCCESS | CUFFT_INVALID_PLAN | CUFFT_ALLOC_FAILED | CUFFT_INVALID_TYPE | CUFFT_INVALID_VALUE
  | CUFFT_INTERNAL_ERROR | CUFFT_EXEC_FAILED | CUFFT_SETUP_FAILED | CUFFT_INVALID_SIZE | CUFFT_UNALIGNED_DATA
  | CUFFT_INVALID_DEVICE | CUFFT_NO_WORKSPACE | CUFFT_NOT_IMPLEMENTED | CUFFT_NOT_SUPPORTED
  | CUFFT_MISSING_DEPENDENCY | CUFFT_NVRTC_FAILURE | CUFFT_NVJITLINK_FAILURE | CUFFT_NVSHMEM_FAILURE
  | OtherCufft.

Definition cufftErrorName (status : cufftResult) : text :=
  let unknown := literal "CUFFT_UNKNOWN_ERROR" in
  match status with
  | CUFFT_SUCCESS => literal "CUFFT_SUCCESS"
  | CUFFT_INVALID_PLAN => literal "CUFFT_INVALID_PLAN"
  | CUFFT_ALLOC_FAILED => literal "CUFFT_ALLOC_FAILED"
  | CUFFT_INVALID_TYPE => literal "CUFFT_INVALID_TYPE"
  | CUFFT_INVALID_VALUE => literal "CUFFT_INVALID_VALUE"
  | CUFFT_INTERNAL_ERROR => literal "CUFFT_INTERNAL_ERROR"
  | CUFFT_EXEC_FAILED => literal "CUFFT_EXEC_FAILED"
  | CUFFT_SETUP_FAILED => literal "CUFFT_SETUP_FAILED"
  | CUFFT_INVALID_SIZE => literal "CUFFT_INVALID_SIZE"
  | CUFFT_UNALIGNED_DATA => literal "CUFFT_UNALIGNED_DATA"
  | CUFFT_INVALID_DEVICE => literal "CUFFT_INVALID_DEVICE"
  | CUFFT_NO_WORKSPACE => literal "CUFFT_NO_WORKSPACE"
  | CUFFT_NOT_IMPLEMENTED => literal "CUFFT_NOT_IMPLEMENTED"
  | CUFFT_NOT_SUPPORTED => literal "CUFFT_NOT_SUPPORTED"
  | CUFFT_MISSING_DEPENDENCY => if has_missing_dependency then literal "CUFFT_MISSING_DEPENDENCY" else unknown
  | CUFFT_NVRTC_FAILURE => if has_nvrtc_failure then literal "CUFFT_NVRTC_FAILURE" else unknown
  | CUFFT_NVJITLINK_FAILURE => if has_nvjitlink_failure then literal "CUFFT_NVJITLINK_FAILURE" else unknown
  | CUFFT_NVSHMEM_FAILURE => if has_nvshmem_failure then literal "CUFFT_NVSHMEM_FAILURE" else unknown
  | OtherCufft => unknown
  end.

(** A status, of one of the three kinds [reportCudaError] is overloaded for. *)
Inductive call_status :=
  | RuntimeStatus (status : cuda_status)
  | DriverStatus (status : cuda_status)
  | CufftStatus (status : cufftResult) (code : Z).

Definition status_succeeded (status : call_status) : bool :=
  match status with
  | RuntimeStatus status | DriverStatus status => cuda_ok status
  | CufftStatus CUFFT_SUCCESS _ => true
  | CufftStatus _ _ => false
  end.

(** The record of a failure. *)
Definition status_error (status : call_status) (call file : option text) (line : Z) : GpuErrorRecord :=
  match status with
  | RuntimeStatus status =>
      mkError CudaRuntime status (cudaGetErrorName status) (cudaGetErrorString status) call file line
  | DriverStatus status => mkError CudaDriver status (cuGetErrorName status) (cuGetErrorString status) call file line
  | CufftStatus status code =>
      mkError Cufft code (Some (cufftErrorName status)) (Some (cufftErrorName status)) call file line
  end.

(** [reportCudaError]: its result, and the lines it writes. *)
Definition reportCudaError (status : call_status) (call file : option text) (line : Z) (info : GpuDiagnosticInfo) :
    bool * list text :=
  if status_succeeded status then (true, [])
  else (false, [logGpuError (status_error status call file line) info]).

End lines.

(** ** The threads *)

(** [diagnosticInfo] is [thread_local]; the scopes of a thread are objects of its
    stack, the innermost first, each with its [previous]. *)
Record diagnostics := mkDiagnostics {
  current : N → GpuDiagnosticInfo;
  scopes : N → list (scope * GpuDiagnosticInfo);
}.

Definition diagnostics_initial : diagnostics := mkDiagnostics (λ _, GpuDiagnosticInfo_default) (λ _, []).

(** What a thread does: enter a scope, leave the innermost one, check a status, or
    report a failure with the identity it has. *)
Inductive diagnostic_event :=
  | Enter (thread : N) (sc : scope)
  | Leave (thread : N)
  | CheckStatus (thread : N) (status : call_status) (call file : option text) (line : Z)
  | ReportFailure (thread : N) (reason file : option text) (line : Z).

Definition update {A} (f : N → A) (thread : N) (x : A) : N → A := λ t, if t =? thread then x else f t.

Section threads.
Context `{DiagnosticSource}.

(** An event and the lines it writes; [None] follows a pointer to no context, or
    destroys a scope that is not there. *)
Definition diagnostic_step (s : GpuInfra) (d : diagnostics) (e : diagnostic_event) :
    option (diagnostics * list text) :=
  match e with
  | Enter thread sc =>
      info ← scope_info s (current d thread) sc;
      Some (mkDiagnostics (update (current d) thread info)
              (update (scopes d) thread ((sc, current d thread) :: scopes d thread)), [])
  | Leave thread =>
      match scopes d thread with
      | [] => None
      | (_, previous) :: outer =>
          Some (mkDiagnostics (update (current d) thread previous) (update (scopes d) thread outer), [])
      end
  | CheckStatus thread status call file line =>
      Some (d, snd (reportCudaError status call file line (current d thread)))
  | ReportFailure thread reason file line =>
      Some (d, [reportGpuFailure reason (current d thread) file line])
  end.

Fixpoint diagnostic_run (s : GpuInfra) (d : diagnostics) (events : list diagnostic_event) :
    option (diagnostics * list text) :=
  match events with
  | [] => Some (d, [])
  | e :: events =>
      '(d, lines) ← diagnostic_step s d e;
      '(d, more) ← diagnostic_run s d events;
      Some (d, lines ++ more)
  end.

End threads.

(** * What the diagnostics promise: a line names the identity its thread had, the
    identity is one the registry gave, and two identities do not share a line. *)

(** ** Decimal fields *)

Lemma literal_app s1 s2 : literal (s1 +:+ s2) = literal s1 ++ literal s2.
Proof. unfold literal. induction s1 as [|c s1 IH]; [done|]. exact (f_equal (cons c) IH). Qed.

Lemma literal_inj s1 s2 : literal s1 = literal s2 → s1 = s2.
Proof.
  unfold literal. intros Heq. rewrite <-(String.string_of_list_ascii_of_string s1), Heq.
  apply String.string_of_list_ascii_of_string.
Qed.

Lemma digit_char n : n < 10 → is_digit (pretty_N_char n) = true.
Proof.
  intros Hn. assert (n = 0 ∨ n = 1 ∨ n = 2 ∨ n = 3 ∨ n = 4 ∨ n = 5 ∨ n = 6 ∨ n = 7 ∨ n = 8 ∨ n = 9) as Hall by lia.
  by repeat destruct Hall as [->|Hall]; [..|subst n].
Qed.

Lemma pretty_go_digits k n s :
  n < 10 ^ N.of_nat k → digits_only (literal s) →
  digits_only (literal (pretty_N_go n s)) ∧ (length (literal (pretty_N_go n s)) ≤ k + length (literal s))%nat.
Proof.
  revert n s. induction k as [|k IH]; intros n s Hn Hs.
  { assert (n = 0) as -> by (simpl in Hn; lia). rewrite pretty_N_go_0. split; [done|lia]. }
  destruct (decide (n = 0)) as [->|Hpos]; [rewrite pretty_N_go_0; split; [done|lia]|].
  rewrite pretty_N_go_step by lia.
  destruct (IH (n `div` 10) (String (pretty_N_char (n `mod` 10)) s)) as [Hd Hl].
  - apply N.Div0.div_lt_upper_bound. replace (N.of_nat (S k)) with (N.succ (N.of_nat k)) in Hn by lia.
    by rewrite N.pow_succ_r' in Hn.
  - constructor; [apply digit_char; by apply N.mod_lt|done].
  - split; [done|]. etrans; [exact Hl|]. unfold literal. simpl. lia.
Qed.

Lemma format_unsigned_digits k n :
  (0 < k)%nat → n < 10 ^ N.of_nat k →
  digits_only (format_unsigned n) ∧ (length (format_unsigned n) ≤ k)%nat.
Proof.
  intros Hk Hn. unfold format_unsigned, pretty, pretty_N. case_decide as Hz.
  { split; [by repeat constructor|done]. }
  destruct (pretty_go_digits k n "" Hn) as [Hd Hl]; [by constructor|]. split; [done|].
  unfold literal in *. simpl in Hl. lia.
Qed.

Lemma format_unsigned_inj n n' : format_unsigned n = format_unsigned n' → n = n'.
Proof. intros Heq%literal_inj. by apply (inj pretty) in Heq. Qed.

Lemma format_int_inj n n' : format_int n = format_int n' → n = n'.
Proof. intros Heq%literal_inj. by apply (inj pretty) in Heq. Qed.

(** No space in it. *)
Definition unspaced (l : text) : Prop := Forall (λ c, c ≠ " "%char) l.

Lemma digits_unspaced l : digits_only l → unspaced l.
Proof. intros Hl. eapply Forall_impl; [exact Hl|]. by intros c Hc ->. Qed.

Lemma format_int_chars k n :
  (0 < k)%nat → Z.abs_N n < 10 ^ N.of_nat k →
  unspaced (format_int n) ∧ (length (format_int n) ≤ S k)%nat.
Proof.
  intros Hk Hn. destruct n as [|p|p]; unfold format_int, pretty, pretty_Z.
  - split; [by repeat constructor|unfold literal; simpl; lia].
  - destruct (format_unsigned_digits k (N.pos p) Hk Hn) as [Hd Hl].
    change (literal (pretty p)) with (format_unsigned (N.pos p)). split; [by apply digits_unspaced|lia].
  - destruct (format_unsigned_digits k (N.pos p) Hk Hn) as [Hd Hl]. rewrite literal_app.
    change (literal (pretty p)) with (format_unsigned (N.pos p)).
    split; [apply Forall_app; split; [by repeat constructor|by apply digits_unspaced]|].
    rewrite length_app. change (length (literal "-")) with 1%nat. lia.
Qed.

(** ** Lines *)

(** How the C library formats a pointer, and the range of a [pid_t]. *)
Class PointerFormat `{DiagnosticSource} := {
  getpid_fits : Z.abs_N getpid < 10 ^ 10;
  format_pointer_inj p q : format_pointer p = format_pointer q → p = q;
  format_pointer_unspaced p : unspaced (format_pointer p);
  format_pointer_short p : p < two64 → (length (format_pointer p) ≤ 20)%nat;
}.

(** The values have the widths of their C++ types, and the stage's name is at most
    200 characters long. *)
Record info_fits (info : GpuDiagnosticInfo) : Prop := {
  fits_gpu : Z.abs_N (info_gpuId info) < 10 ^ 10;
  fits_node : Z.abs_N (info_numaNode info) < 10 ^ 10;
  fits_resource : Z.abs_N (info_resourceId info) < 10 ^ 10;
  fits_context : info_context info < two64;
  fits_stream : info_stream info < two64;
  fits_driver : info_driverContextId info < two64;
  fits_frame : frameId (info_key info) < two64;
  fits_camera : cameraId (info_key info) < two64;
  fits_variant : variantId (info_key info) < two64;
  fits_stage : (length (or_unknown (info_stage info)) ≤ 200)%nat;
}.

(** What a line can show of an identity: no value that is not known. *)
Definition shown (info : GpuDiagnosticInfo) :=
  (info_gpuId info, info_numaNode info, info_resourceId info, info_context info,
   (if info_driverContextIdKnown info then Some (info_driverContextId info) else None),
   info_stream info, (if frameKnown info then Some (info_key info) else None), or_unknown (info_stage info)).

Lemma unspaced_split a b r r' :
  unspaced a → unspaced b → a ++ " "%char :: r = b ++ " "%char :: r' → a = b ∧ r = r'.
Proof.
  revert b. induction a as [|x a IH]; intros [|y b] Ha Hb Heq; simplify_eq/=; try done.
  - by apply Forall_cons in Hb as [? _].
  - by apply Forall_cons in Ha as [? _].
  - apply Forall_cons in Ha as [_ Ha]. apply Forall_cons in Hb as [_ Hb]. by destruct (IH b Ha Hb) as [-> ->].
Qed.

(** A field, before the next one's label. *)
Lemma field_split a b next r r' :
  unspaced a → unspaced b → a ++ (" "%char :: next) ++ r = b ++ (" "%char :: next) ++ r' → a = b ∧ r = r'.
Proof. intros Ha Hb Heq. apply unspaced_split in Heq as [-> Heq]; [|done..]. by apply app_inv_head in Heq. Qed.

Section lines.
Context `{PF : PointerFormat}.

Lemma known_field_chars known n :
  n < two64 → unspaced (known_field known n) ∧ (length (known_field known n) ≤ 20)%nat
  ∧ known_field known n = if known then format_unsigned n else literal "unknown".
Proof.
  intros Hn. unfold known_field. destruct known; [|split_and!; [by repeat constructor|simpl; lia|done]].
  destruct (format_unsigned_digits 20 n) as [Hd Hl]; [lia|unfold two64 in Hn; simpl; lia|].
  unfold snprintf. rewrite take_ge by (simpl; lia). split_and!; [by apply digits_unspaced|done..].
Qed.

Lemma known_field_inj known n known' n' :
  n < two64 → n' < two64 → known_field known n = known_field known' n' →
  (if known then Some n else None) = (if known' then Some n' else None).
Proof.
  intros Hn Hn'. destruct (known_field_chars known n Hn) as (_ & _ & ->).
  destruct (known_field_chars known' n' Hn') as (_ & _ & ->).
  assert (∀ m, m < two64 → format_unsigned m ≠ literal "unknown") as Hne.
  { intros m Hm Heq. destruct (format_unsigned_digits 20 m) as [Hd _]; [lia|unfold two64 in Hm; simpl; lia|].
    rewrite Heq in Hd. by apply Forall_cons in Hd as [? _]. }
  destruct known, known'; intros Heq; try done.
  - by apply format_unsigned_inj in Heq as ->.
  - by destruct (Hne n Hn).
  - by destruct (Hne n' Hn').
Qed.

(** The whole text fits into the buffer of [logGpuError]. *)
Lemma diagnostic_text_short info : info_fits info → (length (diagnostic_text info) ≤ 472)%nat.
Proof using PF.
  intros [Hg Hn Hr Hc Hs Hd Hf Hk Hv Hst]. unfold diagnostic_text. rewrite !length_app.
  destruct (format_int_chars 10 getpid) as [_ ?]; [lia|apply getpid_fits|].
  destruct (format_int_chars 10 (info_gpuId info)) as [_ ?]; [lia|done|].
  destruct (format_int_chars 10 (info_numaNode info)) as [_ ?]; [lia|done|].
  destruct (format_int_chars 10 (info_resourceId info)) as [_ ?]; [lia|done|].
  pose proof (format_pointer_short (info_context info) Hc). pose proof (format_pointer_short (info_stream info) Hs).
  destruct (known_field_chars (info_driverContextIdKnown info) _ Hd) as (_ & ? & _).
  destruct (known_field_chars (frameKnown info) _ Hf) as (_ & ? & _).
  destruct (known_field_chars (frameKnown info) _ Hk) as (_ & ? & _).
  destruct (known_field_chars (frameKnown info) _ Hv) as (_ & ? & _).
  unfold literal. cbn [String.list_ascii_of_string length]. lia.
Qed.

Lemma diagnostic_text_inj info info' :
  info_fits info → info_fits info' → diagnostic_text info = diagnostic_text info' → shown info = shown info'.
Proof using PF.
  intros [Hg Hn Hr Hc Hs Hd Hf Hk Hv Hst] [Hg' Hn' Hr' Hc' Hs' Hd' Hf' Hk' Hv' Hst']. unfold diagnostic_text.
  assert (∀ z, Z.abs_N z < 10 ^ 10 → unspaced (format_int z)) as Hint
    by (intros z Hz; by destruct (format_int_chars 10 z) as [? _]; [lia|..]).
  assert (∀ known n, n < two64 → unspaced (known_field known n)) as Hknown
    by (intros known n Hlt; by destruct (known_field_chars known n Hlt) as [? _]).
  intros Heq%app_inv_head.
  apply field_split in Heq as [_ Heq]; [|by apply Hint, getpid_fits..].
  apply field_split in Heq as [Egpu%format_int_inj Heq]; [|by apply Hint..].
  apply field_split in Heq as [Enode%format_int_inj Heq]; [|by apply Hint..].
  apply field_split in Heq as [Eres%format_int_inj Heq]; [|by apply Hint..].
  apply field_split in Heq as [Ectx%format_pointer_inj Heq]; [|by apply format_pointer_unspaced..].
  apply field_split in Heq as [Edrv%known_field_inj Heq]; [|by try apply Hknown..].
  apply field_split in Heq as [Estr%format_pointer_inj Heq]; [|by apply format_pointer_unspaced..].
  apply field_split in Heq as [Efr%known_field_inj Heq]; [|by try apply Hknown..].
  apply field_split in Heq as [Ecam%known_field_inj Heq]; [|by try apply Hknown..].
  apply field_split in Heq as [Evar%known_field_inj Est]; [|by try apply Hknown..].
  unfold shown. rewrite Egpu, Enode, Eres, Ectx, Edrv, Estr, Est. do 2 f_equal.
  destruct info as [? ? ? ? ? ? ? [] []], info' as [? ? ? ? ? ? ? [] []]; simplify_eq/=; done.
Qed.


(** A text shows no more. *)
Lemma diagnostic_text_shown info info' : shown info = shown info' → diagnostic_text info = diagnostic_text info'.
Proof.
  unfold shown, diagnostic_text, known_field. intros [= -> -> -> -> Hd -> Hf ->].
  destruct (info_driverContextIdKnown info), (info_driverContextIdKnown info'); simplify_eq;
    destruct (frameKnown info), (frameKnown info'); simplify_eq; congruence.
Qed.

(** C37.  [logGpuError]'s buffer holds the whole text, and two identities have the same
    text only if all they show is the same: GPU, node, slot, context, stream, stage,
    and, where they are known, the context's id and the frame. *)
Theorem failure_lines_identify info info' :
  info_fits info → info_fits info' →
  formatDiagnosticInfo 512 info = diagnostic_text info
  ∧ (formatDiagnosticInfo 512 info = formatDiagnosticInfo 512 info' ↔ shown info = shown info').
Proof using PF.
  intros Hi Hi'. pose proof (diagnostic_text_short info Hi). pose proof (diagnostic_text_short info' Hi').
  assert (∀ i, (length (diagnostic_text i) ≤ 472)%nat → formatDiagnosticInfo 512 i = diagnostic_text i) as Hfull.
  { intros i Hl. unfold formatDiagnosticInfo, snprintf. rewrite take_ge; [done|]. simpl pred. lia. }
  rewrite !Hfull by done. split; [done|]. split; [by apply diagnostic_text_inj|by apply diagnostic_text_shown].
Qed.

End lines.

(** ** Identities *)

Section threads.
Context `{DiagnosticSource} `{GpuDriver}.
Implicit Types (s : GpuInfra) (i : GpuDiagnosticInfo).

(** Its node and context, if it has one, are those of its GPU. *)
Definition attributed s i : Prop :=
  (info_numaNode i = -1)%Z ∧ info_context i = nullptr ∧ info_driverContextIdKnown i = false
  ∨ ∃ c x, context_store s !! c = Some x ∧ context_gpuId x = info_gpuId i
      ∧ context_numaNode x = info_numaNode i ∧ primaryCtx x = info_context i
      ∧ driverContextId x = info_driverContextId i ∧ driverContextIdKnown x = info_driverContextIdKnown i.

Definition valid_event s (e : diagnostic_event) : Prop :=
  match e with
  | Enter _ (InfoScope info) => attributed s info
  | Enter _ (TaskScope resources _ _) => ∃ t, task_store s !! t = Some resources
  | _ => True
  end.

(** How many scopes each thread is in after an event. *)
Definition depth_after (depth : N → nat) (e : diagnostic_event) : N → nat :=
  match e with
  | Enter t _ => update depth t (S (depth t))
  | Leave t => update depth t (pred (depth t))
  | _ => depth
  end.

(** No thread leaves more scopes than it has entered. *)
Fixpoint nested (depth : N → nat) (events : list diagnostic_event) : bool :=
  match events with
  | [] => true
  | e :: events =>
      match e with Leave t => (0 <? depth t)%nat | _ => true end && nested (depth_after depth e) events
  end.

(** The scopes a thread is in after an event, the innermost first. *)
Definition inside_after (thread : N) (inside : list scope) (e : diagnostic_event) : list scope :=
  match e with
  | Enter t sc => if thread =? t then sc :: inside else inside
  | Leave t => if thread =? t then tail inside else inside
  | _ => inside
  end.

Definition open_scopes (thread : N) (events : list diagnostic_event) : list scope :=
  foldl (inside_after thread) [] events.

(** The identity these scopes give. *)
Fixpoint info_of s (inside : list scope) : option GpuDiagnosticInfo :=
  match inside with
  | [] => Some GpuDiagnosticInfo_default
  | sc :: outer => previous ← info_of s outer; scope_info s previous sc
  end.

Lemma scope_info_attributed s thread previous sc :
  registry s → attributed s previous → valid_event s (Enter thread sc) →
  ∃ i, scope_info s previous sc = Some i ∧ attributed s i.
Proof.
  intros Hs Hp Hv. destruct sc as [info|r stage key|stage|gpu stream key stage]; simpl.
  - by exists info.
  - destruct Hv as [t Ht]. unfold context_identity.
    assert (∃ n c d k, (if ctx r =? nullptr then Some ((-1)%Z, nullptr, 0, false)
        else x ← context_store s !! ctx r; Some (context_numaNode x, primaryCtx x, driverContextId x, driverContextIdKnown x))
      = Some (n, c, d, k) ∧ ∀ g r' st ky kn sg, g = task_gpuId r → attributed s (mkInfo g n r' c d k st ky kn sg))
      as (n & c & d & k & -> & Hat).
    { destruct (N.eqb_spec (ctx r) nullptr) as [_|Hctx].
      - eexists _, _, _, _. split; [done|]. intros. by left.
      - destruct (reg_task s Hs t r Ht) as [_ [[? _]|(x & j & Hx & _ & _ & Hg)]]; [done|]. rewrite Hx.
        eexists _, _, _, _. split; [done|]. intros g ? ? ? ? ? ->. right. exists (ctx r), x. by split_and!. }
    cbn [mbind option_bind]. destruct (inherited_key previous r key). eexists. split; [done|]. by apply Hat.
  - eexists. split; [done|]. exact Hp.
  - eexists. split; [done|]. destruct (Z.eqb_spec (info_gpuId previous) gpu) as [<-|]; simpl; [|by left].
    destruct (info_stream previous =? stream); simpl; exact Hp.
Qed.

(** The thread's scopes with what they restore. *)
Fixpoint stacked s (l : list (scope * GpuDiagnosticInfo)) i : Prop :=
  match l with
  | [] => i = GpuDiagnosticInfo_default
  | (sc, previous) :: outer => scope_info s previous sc = Some i ∧ attributed s previous ∧ stacked s outer previous
  end.

Lemma stacked_info s l i : stacked s l i → info_of s l.*1 = Some i.
Proof.
  revert i. induction l as [|[sc previous] l IH]; intros i; [by intros ->|].
  intros (Hi & _ & Hl). rewrite fmap_cons. cbn [info_of]. by rewrite (IH previous Hl).
Qed.

Lemma update_case {A} (f : N → A) thread x t : update f thread x t = if t =? thread then x else f t.
Proof. done. Qed.

(** Every thread's identity is that of its scopes. *)
Definition tracked s (d : diagnostics) (depth : N → nat) : Prop :=
  ∀ t, stacked s (scopes d t) (current d t) ∧ attributed s (current d t) ∧ length (scopes d t) = depth t.

(** What the scopes a thread is in say of its identity: the innermost one names what
    it is for, and the blank identity is that of a thread in no scope. *)
Definition named s (inside : list scope) i : Prop :=
  match inside with
  | [] => i = GpuDiagnosticInfo_default
  | InfoScope info :: _ => i = info
  | TaskScope r stage key :: _ =>
      info_gpuId i = task_gpuId r ∧ info_resourceId i = resourceId r ∧ info_stream i = task_stream r
      ∧ info_stage i = stage
      ∧ (ctx r ≠ nullptr → ∃ x, context_store s !! ctx r = Some x
           ∧ context_numaNode x = info_numaNode i ∧ primaryCtx x = info_context i
           ∧ driverContextId x = info_driverContextId i ∧ driverContextIdKnown x = info_driverContextIdKnown i)
      ∧ ∀ own, key = Some own → info_key i = own ∧ frameKnown i = true
  | StageScope stage :: outer =>
      ∃ i0, info_of s outer = Some i0 ∧ info_stage i = stage ∧ info_gpuId i = info_gpuId i0
        ∧ info_numaNode i = info_numaNode i0 ∧ info_resourceId i = info_resourceId i0
        ∧ info_context i = info_context i0 ∧ info_stream i = info_stream i0
        ∧ info_key i = info_key i0 ∧ frameKnown i = frameKnown i0
  | AccessScope gpu stream key stage :: _ =>
      info_gpuId i = gpu ∧ info_stream i = stream ∧ info_key i = key ∧ frameKnown i = true ∧ info_stage i = stage
  end.

Lemma info_of_named s inside i : info_of s inside = Some i → named s inside i.
Proof.
  destruct inside as [|sc outer]; cbn [info_of]; [by intros [= <-]|].
  destruct (info_of s outer) as [i0|] eqn:Houter; [cbn [mbind option_bind]|done].
  destruct sc as [info|r stage key|stage|gpu stream key stage]; cbn [scope_info named].
  - by intros [= <-].
  - unfold context_identity. destruct (N.eqb_spec (ctx r) nullptr) as [Hnull|_];
      [|destruct (context_store s !! ctx r) as [x|]; [|done]]; cbn [mbind option_bind];
      destruct (inherited_key i0 r key) eqn:Hkey; intros [= <-]; simpl; split_and!; try done.
    2: intros _; exists x; by split_and!.
    all: intros own ->; by injection Hkey as <- <-.
  - intros [= <-]. exists i0. by split_and!.
  - by intros [= <-].
Qed.

Definition event_thread (e : diagnostic_event) : N :=
  match e with Enter t _ | Leave t | CheckStatus t _ _ _ _ | ReportFailure t _ _ _ => t end.

(** The failure an event tells of, if it does, met by a thread with an identity. *)
Definition event_failure (e : diagnostic_event) i : option GpuErrorRecord :=
  match e with
  | CheckStatus _ status call file line =>
      if status_succeeded status then None else Some (status_error status call file line)
  | ReportFailure _ reason file line =>
      Some (mkError Application 0 (Some (literal "Failure")) reason (info_stage i) file line)
  | _ => None
  end.

(** A line up to the identity. *)
Definition failure_text (error : GpuErrorRecord) : text :=
  literal "[" ++ source_name (error_source error) ++ literal "] " ++ or_unknown (error_file error)
  ++ literal ":" ++ format_int (error_line error) ++ literal " operation=" ++ or_unknown (error_operation error)
  ++ literal " error=" ++ or_unknown (error_name error) ++ literal " code=" ++ error_code_text error
  ++ literal " message=" ++ or_unknown (error_message error).

(** The lines an event writes: one if it tells of a failure, ending in the identity. *)
Definition event_lines (e : diagnostic_event) i : list text :=
  match event_failure e i with
  | Some error => [failure_text error ++ literal " " ++ formatDiagnosticInfo 512 i ++ ["010"%char]]
  | None => []
  end.

Lemma logGpuError_line error i :
  logGpuError error i = failure_text error ++ literal " " ++ formatDiagnosticInfo 512 i ++ ["010"%char].
Proof. unfold logGpuError, failure_text. by rewrite <-!app_assoc. Qed.

Lemma diagnostic_step_attributed s e d depth :
  registry s → valid_event s e → nested depth [e] = true → tracked s d depth →
  ∃ d' lines, diagnostic_step s d e = Some (d', lines) ∧ tracked s d' (depth_after depth e)
    ∧ (∀ t, (scopes d' t).*1 = inside_after t (scopes d t).*1 e)
    ∧ lines = event_lines e (current d (event_thread e)).
Proof.
  intros Hs Hv Hn Hd. destruct e as [t sc|t|t status call file line|t reason file line]; cbn [diagnostic_step depth_after].
  - destruct (Hd t) as (Hst & Hat & Hlen).
    destruct (scope_info_attributed s t (current d t) sc Hs Hat Hv) as (i & Hi & Hati). rewrite Hi.
    eexists _, _. split; [done|]. split_and!; [| |done]; intros t'; cbn [current scopes inside_after];
      rewrite !update_case; destruct (N.eqb_spec t' t) as [->|]; try done.
    simpl. by rewrite Hlen.
  - destruct (Hd t) as (Hst & Hat & Hlen). simpl in Hn.
    destruct (scopes d t) as [|[sc previous] l] eqn:Hsc; [by rewrite <-Hlen in Hn|]. destruct Hst as (_ & Hatp & Hst).
    eexists _, _. split; [done|]. split_and!; [| |done]; intros t'; cbn [current scopes inside_after];
      rewrite !update_case; destruct (N.eqb_spec t' t) as [->|]; try done; [|by rewrite Hsc].
    rewrite <-Hlen. by split_and!.
  - eexists _, _. split; [done|]. split_and!; [done|done|]. unfold reportCudaError, event_lines.
    cbn [event_failure event_thread]. destruct (status_succeeded status); [done|]. simpl snd.
    by rewrite logGpuError_line.
  - eexists _, _. split; [done|]. split_and!; [done|done|]. unfold reportGpuFailure.
    by rewrite logGpuError_line.
Qed.

Lemma diagnostic_run_attributed s events d depth :
  registry s → Forall (valid_event s) events → nested depth events = true → tracked s d depth →
  ∃ d' written, diagnostic_run s d events = Some (d', concat written) ∧ length written = length events
    ∧ (∀ t, attributed s (current d' t)
            ∧ info_of s (foldl (inside_after t) (scopes d t).*1 events) = Some (current d' t))
    ∧ ∀ k e, events !! k = Some e → ∃ i,
        info_of s (foldl (inside_after (event_thread e)) (scopes d (event_thread e)).*1 (take k events)) = Some i
        ∧ attributed s i ∧ written !! k = Some (event_lines e i).
Proof.
  intros Hs. revert d depth. induction events as [|e events IH]; intros d depth Hv Hn Hd.
  { exists d, []. split_and!; [done..| |done]. intros t. destruct (Hd t) as (Hst & Hat & _).
    split; [done|]. by apply stacked_info. }
  apply Forall_cons in Hv as [Hve Hv]. apply andb_true_iff in Hn as [Hne Hn].
  destruct (diagnostic_step_attributed s e d depth Hs Hve) as (d1 & l1 & Hstep & Hd1 & Hin & Hl1);
    [simpl; by rewrite Hne|done|].
  destruct (IH d1 _ Hv Hn Hd1) as (d2 & written & Hrun & Hlen & Hall & Hlines). exists d2, (l1 :: written).
  cbn [diagnostic_run]. rewrite Hstep. cbn [mbind option_bind]. rewrite Hrun. split_and!; [done|simpl; lia| |].
  - intros t. destruct (Hall t) as [? Hinfo]. split; [done|]. by rewrite Hin in Hinfo.
  - intros [|k] e' Hk; simplify_eq/=.
    + destruct (Hd (event_thread e')) as (Hst & Hat & _). eexists. split_and!; [by apply stacked_info|done|done].
    + destruct (Hlines k e' Hk) as (i & Hi & Hat & Hw). exists i. by rewrite <-Hin.
Qed.

(** C36.  However the threads' scopes and failures interleave, nested as the scopes of a
    thread are: no scope follows a dangling pointer; a thread's identity is the one
    the scopes it is in itself give, whatever the others do, it names what its
    innermost scope is for ([named]), the blank one only out of all scopes, and its
    node and context are those of its GPU.  Each event writes exactly its own line,
    if it tells of a failure, and that line ends in the identity its own thread has
    from the scopes it is in at that moment. *)
Theorem diagnostics_are_attributed s events :
  infra_reachable s → Forall (valid_event s) events → nested (λ _, O) events = true →
  ∃ d written, diagnostic_run s diagnostics_initial events = Some (d, concat written)
    ∧ length written = length events
    ∧ (∀ t, info_of s (open_scopes t events) = Some (current d t)
         ∧ attributed s (current d t) ∧ named s (open_scopes t events) (current d t))
    ∧ ∀ k e, events !! k = Some e → let inside := open_scopes (event_thread e) (take k events) in
        ∃ i, info_of s inside = Some i ∧ attributed s i ∧ named s inside i
          ∧ written !! k = Some (event_lines e i).
Proof.
  intros Hs%reachable_registry Hv Hn.
  destruct (diagnostic_run_attributed s events diagnostics_initial (λ _, O) Hs Hv Hn)
    as (d & written & Hrun & Hlen & Hall & Hlines).
  { intros t. split; [done|]. split; [by left|done]. }
  exists d, written. split_and!; [done|done| |].
  - intros t. destruct (Hall t) as [? Hi]. split_and!; [done|done|by apply info_of_named].
  - intros k e Hk inside. destruct (Hlines k e Hk) as (i & Hi & Hat & Hw).
    exists i. split_and!; [done|done|by apply info_of_named|done].
Qed.

End threads.
