(* ===== verification/RegistryContexts.v ===== *)
(** Primary contexts: the registry retains one per GPU and releases each exactly
    once, whatever fails on the way; what a refused release may leave behind is
    counted. *)
From Stdlib Require Import Ascii String.
From S2P Require Import Prelude.
From S2P Require Import Platform.
From S2P Require Import GpuTopology.
From S2P Require Import GpuContextManager.
From S2P Require Import RegistryInvariant.
From S2P Require Import TopologyBehaviour.
From S2P Require Import RegistryBehaviour.
#[local] Open Scope nat_scope.

(** What the driver documents about the references to primary contexts: retaining a
    device's context counts, releasing it takes one back, and nothing else counts.
    Of a release that fails nothing is documented, so that it may or may not have
    taken its reference back.  [references] is the count of a device, and how many
    releases of it have failed. *)
Class DriverLaws `{GpuDriver} := {
  references : Z → world → nat * nat;
  retain_law d w st p w' : cuDevicePrimaryCtxRetain d w = (st, p, w') →
    if cuda_ok st
    then p ≠ nullptr ∧ ∀ e, references e w'
           = ((references e w).1 + (if decide (e = d) then 1 else 0), (references e w).2)
    else ∀ e, references e w' = references e w;
  release_law d w st w' : cuDevicePrimaryCtxRelease d w = (st, w') → (references d w).1 ≠ 0 →
    (∀ e, e ≠ d → references e w' = references e w)
    ∧ if cuda_ok st
      then references d w' = (pred (references d w).1, (references d w).2)
      else (references d w').2 = S (references d w).2
           ∧ ((references d w').1 = (references d w).1 ∨ (references d w').1 = pred (references d w).1);
  references_cuInit e w : references e (cuInit w).2 = references e w;
  references_count e w : references e (cudaGetDeviceCount w).2 = references e w;
  references_busId e g w : references e (cudaDeviceGetPCIBusId g w).2 = references e w;
  references_setDevice e g w : references e (cudaSetDevice g w).2 = references e w;
  references_free e p w : references e (cudaFree p w).2 = references e w;
  references_alloc e n w : references e (host_alloc n w).2 = references e w;
  references_deviceGet e g w : references e (cuDeviceGet g w).2 = references e w;
  references_ctxGetId e p w : references e (cuCtxGetId p w).2 = references e w;
  references_properties e g w : references e (cudaGetDeviceProperties g w).2 = references e w;
}.

(** The references the driver holds for a device; how many releases of it failed. *)
Definition retained `{DriverLaws} (e : Z) (w : world) : nat := (references e w).1.
Definition refused `{DriverLaws} (e : Z) (w : world) : nat := (references e w).2.

Section balance.
Context `{DriverLaws}.
Implicit Types (s : GpuInfra) (x : GpuContext) (c t : ptr) (w : world) (base : Z → nat * nat).

(** The contexts of a list that hold a reference to a device's context. *)
Definition holds_context (store : gmap N GpuContext) (e : Z) c : bool :=
  match store !! c with
  | Some x => (context_device x =? e)%Z && negb (primaryCtx x =? nullptr)%N
  | None => false
  end.

Definition holders (store : gmap N GpuContext) (l : list ptr) (e : Z) : nat :=
  length (filter (λ c, holds_context store e c = true) l).

(** The driver holds, for every device, what it held before the program and the
    contexts of the registry, and at most one more for each release refused since. *)
Definition balance (before now : nat * nat) (held : nat) : Prop :=
  before.2 ≤ now.2 ∧ before.1 + held ≤ now.1 ∧ now.1 ≤ before.1 + held + (now.2 - before.2).

Definition balanced base s w : Prop :=
  ∀ e, balance (base e) (references e w) (holders (context_store s) (contexts s) e).

Lemma holders_cons store c l e :
  holders store (c :: l) e = (if holds_context store e c then 1 else 0) + holders store l e.
Proof.
  unfold holders. destruct (holds_context store e c) eqn:Hc.
  - by rewrite filter_cons_True.
  - rewrite filter_cons_False; [done|]. by rewrite Hc.
Qed.

Lemma holders_ext store store' l e :
  (∀ c, c ∈ l → holds_context store' e c = holds_context store e c) →
  holders store' l e = holders store l e.
Proof.
  intros Hext. induction l as [|c l IH]; [done|].
  rewrite !holders_cons, Hext by by left. f_equal. apply IH. intros c' Hc'. apply Hext. by right.
Qed.

Lemma releaseContexts_balance store l w base store' w' :
  NoDup l → Forall (idle_context store) l → nullptr ∉ l →
  (∀ e, balance (base e) (references e w) (holders store l e)) →
  releaseContexts store l w = Some (store', w') →
  ∀ e, balance (base e) (references e w') 0.
Proof.
  revert store w. induction l as [|c l IH]; intros store w Hnd Hidle Hnull Hbal Hrun e.
  { simpl in Hrun. injection Hrun as _ <-. apply Hbal. }
  apply NoDup_cons in Hnd as [Hc Hnd]. apply not_elem_of_cons in Hnull as [Hcn Hnull].
  apply Forall_cons in Hidle as [(x & Hx & Ha) Hidle]. simpl in Hrun.
  rewrite (proj2 (N.eqb_neq c nullptr)), Hx in Hrun by congruence. simpl in Hrun.
  rewrite Ha in Hrun. simpl in Hrun.
  assert (∀ e, holders (delete c store) l e = holders store l e) as Hdel.
  { intros e'. apply holders_ext. intros c' Hc'. unfold holds_context.
    rewrite lookup_delete_ne; [done|]. by intros ->. }
  refine (IH (delete c store) _ Hnd _ Hnull _ Hrun e).
  { apply Forall_forall. intros c' Hc'. rewrite Forall_forall in Hidle.
    destruct (Hidle c' Hc') as (x' & Hx' & Ha'). exists x'. split; [|done].
    rewrite lookup_delete_ne; [done|]. by intros ->. }
  intros e'. rewrite Hdel. specialize (Hbal e') as Hbe. rewrite holders_cons in Hbe.
  unfold holds_context in Hbe. rewrite Hx in Hbe.
  destruct (N.eqb_spec (primaryCtx x) nullptr) as [Hp|Hp]; cbn [negb] in Hbe |- *.
  { rewrite andb_false_r in Hbe. done. }
  destruct (cuDevicePrimaryCtxRelease (context_device x) w) as [st w1] eqn:Hrel. cbn [snd].
  assert ((references (context_device x) w).1 ≠ 0) as Hpos.
  { destruct (Hbal (context_device x)) as (_ & Hle & _). rewrite holders_cons in Hle.
    unfold holds_context in Hle. rewrite Hx, Z.eqb_refl, (proj2 (N.eqb_neq _ _) Hp) in Hle. simpl in Hle. lia. }
  destruct (release_law _ _ _ _ Hrel Hpos) as [Hother Hlaw].
  rewrite andb_true_r in Hbe. destruct (Z.eqb_spec (context_device x) e') as [Heq|Hne].
  - subst e'. unfold balance in *. destruct Hbe as (H1' & H2' & H3').
    destruct (cuda_ok st); [rewrite Hlaw; simpl in *; lia|].
    destruct Hlaw as [-> [-> | ->]]; simpl in *; lia.
  - by rewrite Hother by congruence.
Qed.

Lemma init_fails_balance base s n w s' w' b :
  discovering s n → balanced base s w → init_fails s w = Some (b, s', w') →
  balanced base s' w'.
Proof.
  intros Hd Hbal Hrun.
  assert (s' = undiscovered s (task_store s)) as ->.
  { destruct (init_fails_run s n w Hd) as (w1 & Hrun1). congruence. }
  unfold init_fails in Hrun.
  destruct (releaseContexts _ _ _) as [[store w1]|] eqn:Hrel; [|done].
  cbn [mbind option_bind] in Hrun. assert (w1 = w') as -> by congruence. intros e. simpl.
  eapply releaseContexts_balance; [apply Hd| |apply Hd|exact Hbal|exact Hrel].
  apply Forall_forall. intros c [x Hx]%(disc_objects _ _ Hd). exists x. split; [done|].
  unfold activeTaskCount. by rewrite (disc_fresh _ _ Hd _ _ Hx).
Qed.

Lemma balanced_same base s w w' :
  (∀ e, references e w' = references e w) → balanced base s w → balanced base s w'.
Proof. intros Hw Hbal e. by rewrite Hw. Qed.

Lemma place_gpu_references config g w e : references e (place_gpu config g w).2 = references e w.
Proof.
  unfold place_gpu, probeNumaNodeOfGpu. pose proof (references_busId e g w) as Hb.
  destruct (cudaDeviceGetPCIBusId g w) as [[st id] w1]. simpl in Hb.
  destruct (negb (cuda_ok st)); [done|].
  destruct (read_file _ w1) as [text|]; [|done].
  destruct (extract_int _) as [node stream]. by destruct (_ <? 0)%Z.
Qed.

Lemma holders_add s n x e :
  discovering s n →
  let address := new_address (context_store s) in
  holders (<[address := x]> (context_store s)) (contexts s ++ [address]) e
  = holders (context_store s) (contexts s) e
    + (if (context_device x =? e)%Z && negb (primaryCtx x =? nullptr)%N then 1 else 0).
Proof.
  intros Hd address. destruct (new_address_fresh (context_store s)) as [_ Hnone].
  fold address in Hnone.
  transitivity (holders (<[address := x]> (context_store s)) (contexts s) e
    + holders (<[address := x]> (context_store s)) [address] e).
  { unfold holders. by rewrite filter_app, length_app. }
  f_equal.
  - apply holders_ext. intros c Hc%(disc_objects _ _ Hd). unfold holds_context.
    rewrite lookup_insert_ne; [done|]. intros <-. rewrite Hnone in Hc. by destruct Hc.
  - rewrite holders_cons. unfold holds_context at 1. rewrite lookup_insert_eq.
    unfold holders. simpl. by rewrite Nat.add_0_r.
Qed.

(** One GPU, found or given up, keeps the balance. *)
Lemma init_gpu_balance base config s n w b s' w' :
  discovering s n → balanced base s w →
  init_gpu config (Z.of_nat n) s w = Some (b, s', w') → balanced base s' w'.
Proof.
  intros Hd Hbal. unfold init_gpu.
  pose proof (λ e, place_gpu_references config (Z.of_nat n) w e) as H0'.
  destruct (place_gpu config (Z.of_nat n) w) as [node w0]. simpl in H0'.
  assert (balanced base s w0) as Hb0 by by eapply balanced_same.
  destruct (Z.ltb_spec node 0); [by eapply init_fails_balance|].
  pose proof (λ e, references_setDevice e (Z.of_nat n) w0) as H1'.
  destruct (cudaSetDevice (Z.of_nat n) w0) as [st1 w1]. simpl in H1'.
  assert (balanced base s w1) as Hb1 by by eapply balanced_same.
  destruct (cuda_ok st1); cbn [negb]; [|by eapply init_fails_balance].
  pose proof (λ e, references_free e nullptr w1) as H2'.
  destruct (cudaFree nullptr w1) as [st2 w2]. simpl in H2'.
  assert (balanced base s w2) as Hb2 by by eapply balanced_same.
  destruct (cuda_ok st2); cbn [negb]; [|by eapply init_fails_balance].
  pose proof (λ e, references_alloc e 1%N w2) as H3'.
  destruct (host_alloc 1 w2) as [allocated w3]. simpl in H3'.
  assert (balanced base s w3) as Hb3 by by eapply balanced_same.
  destruct allocated; cbn [negb]; [|by eapply init_fails_balance].
  pose proof (λ e, references_deviceGet e (Z.of_nat n) w3) as H4'.
  destruct (cuDeviceGet (Z.of_nat n) w3) as [[st4 device] w4]. simpl in H4'.
  assert (balanced base s w4) as Hb4 by by eapply balanced_same.
  destruct (cuda_ok st4); cbn [negb]; [|by eapply init_fails_balance].
  destruct (cuDevicePrimaryCtxRetain device w4) as [[st5 primary] w5] eqn:Hretain.
  pose proof (retain_law _ _ _ _ _ Hretain) as Hlaw.
  destruct (cuda_ok st5); cbn [negb].
  2: { eapply init_fails_balance; [done|]. by eapply balanced_same. }
  destruct Hlaw as [Hprimary Hlaw].
  pose proof (λ e, references_ctxGetId e primary w5) as H6'.
  destruct (cuCtxGetId primary w5) as [[st6 id] w6]. simpl in H6'.
  pose proof (λ e, references_properties e (Z.of_nat n) w6) as H7'.
  destruct (cudaGetDeviceProperties (Z.of_nat n) w6) as [st7 w7]. simpl in H7'.
  pose proof (discovering_add s n node device primary id (cuda_ok st6) Hd ltac:(done)) as Hadd.
  cbn zeta in Hadd. set (s1 := _ <| contexts := _ |>) in Hadd |- *.
  assert (balanced base s1 w7) as Hb7.
  { intros e. rewrite H7', H6', Hlaw. unfold s1. simpl.
    rewrite (holders_add s n _ e Hd). simpl. rewrite (proj2 (N.eqb_neq _ _) Hprimary).
    specialize (Hb4 e). unfold balance in *. destruct (Z.eqb_spec device e) as [->|Hne]; simpl.
    - rewrite decide_True by done. lia.
    - rewrite decide_False by congruence. lia. }
  destruct (cuda_ok st7); cbn [negb]; [|by eapply init_fails_balance].
  by intros [= <- <- <-].
Qed.

Lemma init_gpus_balance base config s n m w b s' w' :
  discovering s n → balanced base s w →
  init_gpus config m (Z.of_nat n) s w = Some (b, s', w') → balanced base s' w'.
Proof.
  revert s n w. induction m as [|m IH]; intros s n w Hd Hbal; simpl; [by intros [= <- <- <-]|].
  destruct (init_gpu_discovers config s n w Hd) as (ok & s1 & w1 & Hrun & _ & Hd1).
  pose proof (init_gpu_balance _ _ _ _ _ _ _ _ Hd Hbal Hrun) as Hbal1. rewrite Hrun. simpl.
  destruct ok; [|by intros [= <- <- <-]].
  replace (Z.of_nat n + 1)%Z with (Z.of_nat (S n)) by lia. by apply IH.
Qed.

(** Changing the tasks of a context keeps the balance. *)
Lemma balanced_tasks base s w c x l tasks :
  context_store s !! c = Some x → balanced base s w →
  balanced base (s <| context_store := <[c := x <| taskResources := l |>]> (context_store s) |>
                   <| task_store := tasks |>) w.
Proof.
  intros Hx Hbal e. specialize (Hbal e). simpl. erewrite holders_ext; [exact Hbal|].
  intros c' _. unfold holds_context. destruct (decide (c' = c)) as [->|Hne].
  - by rewrite lookup_insert_eq, Hx.
  - by rewrite lookup_insert_ne.
Qed.

Lemma infra_perform_balance base s w call s' w' :
  registry s → balanced base s w → infra_perform s w call = Some (s', w') →
  balanced base s' w'.
Proof.
  intros Hr Hbal. destruct call as [config|t|gpuId t|t|t| |]; simpl.
  - unfold init. destruct (initialised s) eqn:Hoff; [by intros [= <- <-]|].
    pose proof (λ e, references_cuInit e w) as H1'. destruct (cuInit w) as [st1 w1]. simpl in H1'.
    assert (balanced base s w1) as Hb1 by by eapply balanced_same.
    destruct (cuda_ok st1); cbn [negb]; [|by intros [= <- <-]].
    pose proof (λ e, references_count e w1) as H2'.
    destruct (cudaGetDeviceCount w1) as [[st2 count] w2]. simpl in H2'.
    assert (balanced base s w2) as Hb2 by by eapply balanced_same.
    destruct (cuda_ok st2); cbn [negb]; [|by intros [= <- <-]].
    destruct (Z.leb_spec count 0); [by intros [= <- <-]|].
    destruct (registry_off s Hr Hoff) as [Hd Heq].
    assert (s <| contexts := [] |> = s) as -> by (rewrite Heq; done).
    destruct (init_gpus config (Z.to_nat count) 0 s w2) as [[[b s1] w3]|] eqn:Hrun; [|done].
    apply (init_gpus_balance base config s 0) in Hrun as Hb3; [|done..].
    cbn [mbind option_bind]. by destruct b; intros [= <- <-].
  - case_match; [by intros [= <- <-]|]. intros [= <- <-]. exact Hbal.
  - case_bool_decide as Ht; [|by intros [= <- <-]]. destruct Ht as [r Ht]. simpl.
    unfold slots_left. case_bool_decide as Hroom; [|by intros [= <- <-]].
    pose proof (registerTask_run s gpuId t r Hr Ht Hroom) as Hreg.
    destruct (if initialised s && (ctx r =? nullptr)%N then context_of s gpuId else None) as [c|].
    + destruct Hreg as (x & Hx & _ & -> & _). intros [= <- <-]. by apply balanced_tasks.
    + rewrite Hreg. by intros [= <- <-].
  - case_bool_decide as Ht; [|by intros [= <- <-]]. destruct Ht as [r Ht].
    pose proof (unregisterTask_run s t r Hr Ht) as Hun. case_decide.
    + rewrite Hun. by intros [= <- <-].
    + destruct Hun as (x & i & Hx & _ & -> & _). intros [= <- <-]. by apply balanced_tasks.
  - case_bool_decide as Ht; [|by intros [= <- <-]]. destruct Ht as [r Ht].
    rewrite (makeTaskCurrent_run s t r w Hr Ht). simpl. case_decide; [by intros [= <- <-]|].
    pose proof (λ e, references_setDevice e (task_gpuId r) w) as H1'.
    destruct (cudaSetDevice (task_gpuId r) w) as [st1 w1]. intros [= <- <-].
    by eapply balanced_same.
  - destruct (gpuIdsForCurrentNumaNode s w) as [[]|]; [|done]. by intros [= <- <-].
  - intros Hrun. destruct (shutdown_run s w Hr) as (s1 & w1 & Hrun1 & _ & _ & Hbusy & Hfree).
    rewrite Hrun in Hrun1. injection Hrun1 as <- <-. unfold shutdown in Hrun.
    destruct (initialised s) eqn:Hon; cbn [negb] in Hrun; [|by simplify_eq].
    destruct (idle_contexts_run s (contexts s) Hr) as (b & Hb & Hiff); [done|].
    rewrite Hb in Hrun. cbn [mbind option_bind] in Hrun. destruct b; cbn [negb] in Hrun; [|by simplify_eq].
    pose proof (proj1 Hiff eq_refl) as Hidle.
    destruct (releaseContexts _ _ _) as [[store w1]|] eqn:Hrel; [|done].
    cbn [mbind option_bind] in Hrun. assert (w1 = w') as -> by congruence.
    rewrite Hfree by by apply (all_idle_unregistered s Hr). intros e. simpl.
    eapply releaseContexts_balance; [apply Hr|exact Hidle|apply Hr|exact Hbal|exact Hrel].
Qed.

Lemma session_balance base s w calls s' w' :
  registry s → balanced base s w → infra_session s w calls = Some (s', w') → balanced base s' w'.
Proof.
  revert s w. induction calls as [|call calls IH]; intros s w Hr Hbal; simpl.
  { by intros [= <- <-]. }
  destruct (infra_perform_registry s w call Hr) as (s1 & w1 & Hrun & Hr1).
  pose proof (infra_perform_balance _ _ _ _ _ _ Hr Hbal Hrun) as Hbal1.
  rewrite Hrun. cbn [mbind option_bind]. by apply IH.
Qed.

(** C38.  Primary contexts are conserved: after any sequence of calls, failed
    initializations included, the driver holds for each device the references it
    held before the program plus one per context in the registry, and beyond them
    at most one for each release the driver itself refused; a manager that is off
    holds none.  So as long as no release is refused the count is exact. *)
Theorem primary_contexts_are_balanced w calls s w' :
  infra_session GpuInfra_initial w calls = Some (s, w') →
  ∀ e, let held := holders (context_store s) (contexts s) e in
    refused e w ≤ refused e w'
    ∧ retained e w + held ≤ retained e w'
    ∧ retained e w' ≤ retained e w + held + (refused e w' - refused e w)
    ∧ (refused e w' = refused e w → retained e w' = retained e w + held)
    ∧ (initialised s = false → held = 0).
Proof.
  intros Hrun e held.
  destruct (session_balance (λ e, references e w) GpuInfra_initial w calls s w' registry_initial) with (e := e)
    as (Hmore & Hlow & Hhigh); [|done|].
  { intros e'. unfold balance, holders. simpl. lia. }
  fold held in Hlow, Hhigh. unfold retained, refused. split_and!; [done|done|done|lia|].
  intros Hoff. destruct (infra_session_registry GpuInfra_initial w calls registry_initial)
    as (s1 & w1 & Hrun1 & Hr). assert (s1 = s) as -> by congruence.
  unfold held. by rewrite (reg_off _ Hr Hoff).
Qed.

End balance.
