(* ===== verification/RegistryScenario.v ===== *)
(** A concrete machine on which the properties of the registry are witnessed: two
    GPUs, one on each of two NUMA nodes, a calling thread on node 1, and a
    driver that counts the references to each device's primary context. *)
From Stdlib Require Import Ascii String.
From S2P Require Import Prelude.
From S2P Require Import Platform.
From S2P Require Import GpuTopology.
From S2P Require Import GpuContextManager.
From S2P Require Import TopologyBehaviour.
From S2P Require Import RegistryInvariant.
From S2P Require Import RegistryBehaviour.
From S2P Require Import RegistryContexts.
From S2P Require Import GpuDataKey.
From S2P Require Import Diagnostics.
#[local] Open Scope Z_scope.

(** The reference counts of the two devices. *)
Abbreviation two_gpus := (nat * nat)%type (only parsing).

#[export] Instance NodePlatform : Platform := {|
  world := two_gpus;
  host_alloc _ w := (true, w);
  std_hash_u64 x := x;
  std_hash_u32 x := x;
  cudaGetDevice w := (0, 0, w);
  cudaSetDevice _ w := (0, w);
  cudaMalloc _ w := (2, nullptr, w);
  cudaFree _ w := (0, w);
  cudaStreamSynchronize _ w := (0, w);
  cudaStreamCreate w := (2, nullptr, w);
  cudaStreamDestroy _ w := (0, w);
  cudaMemsetAsync _ _ _ w := (0, w);
  cudaMemcpyAsync _ _ _ _ w := (0, w);
  cudaMemGetInfo w := (0, 0%N, 0%N, w);
|}.

Definition bus_of (g : Z) : list ascii :=
  list_ascii_of_string (if g =? 0 then "0000:0A:00.0" else "0000:1B:00.0").

Definition sysfs (path : list ascii) : option (list ascii) :=
  if bool_decide (path = numa_node_path (tolower <$> bus_of 0))
  then Some ["0"%char; "010"%char]
  else if bool_decide (path = numa_node_path (tolower <$> bus_of 1))
  then Some ["1"%char; "010"%char]
  else None.

Definition count_of (w : two_gpus) (e : Z) : nat :=
  if e =? 0 then fst w else if e =? 1 then snd w else 0%nat.

Definition counted (f : nat → nat) (d : Z) (w : two_gpus) : two_gpus :=
  (if d =? 0 then f (fst w) else fst w, if d =? 1 then f (snd w) else snd w).

Definition device_exists (d : Z) : bool := (d =? 0) || (d =? 1).

#[export] Instance NodeDriver : GpuDriver := {|
  cuInit w := (0, w);
  cudaGetDeviceCount w := (0, 2, w);
  cudaDeviceGetPCIBusId g w := (0, bus_of g, w);
  read_file path _ := sysfs path;
  cuDeviceGet g w := (0, g, w);
  cuDevicePrimaryCtxRetain d w :=
    if device_exists d then (0, 700%N, counted S d w) else (101, nullptr, w);
  cuDevicePrimaryCtxRelease d w := (0, counted pred d w);
  cuCtxGetId _ w := (0, 1%N, w);
  cudaGetDeviceProperties _ w := (0, w);
  getcpu _ := (0, 1);
|}.

#[export] Instance NodeDriver_laws : DriverLaws.
Proof.
  refine {| references e w := (count_of w e, 0%nat) |}; try done.
  - intros d [a b] st p w'. unfold cuDevicePrimaryCtxRetain. simpl. unfold device_exists.
    destruct (Z.eqb_spec d 0) as [->|]; [|destruct (Z.eqb_spec d 1) as [->|]];
      intros Heq; simplify_eq/=; try done;
      (split; [done|]); intros e; f_equal; unfold count_of, counted; simpl;
      repeat case_decide; subst; simpl; try lia;
      destruct (Z.eqb_spec e 0); destruct (Z.eqb_spec e 1); try lia; congruence.
  - intros d [a b] st w' Heq Hpos. simpl in Heq. simplify_eq.
    unfold count_of, counted in *. simpl in *. split.
    + intros e Hne. f_equal.
      destruct (Z.eqb_spec d 0) as [->|]; [|destruct (Z.eqb_spec d 1) as [->|]]; simpl in *;
        destruct (Z.eqb_spec e 0); destruct (Z.eqb_spec e 1); simplify_eq; simpl in *; congruence.
    + f_equal. destruct (Z.eqb_spec d 0) as [->|]; [|destruct (Z.eqb_spec d 1) as [->|]]; simpl in *; congruence.
Defined.

Definition node (a b : nat) : @world NodePlatform := (a, b).
Definition strict : GpuInfraConfig := mkConfig true.
Definition up_and_registered : list infra_call := [Init strict; NewTask 5; NewTask 6; Register 1 5].

Definition session_state (calls : list infra_call) : GpuInfra :=
  match infra_session GpuInfra_initial (node 0 0) calls with
  | Some (s, _) => s | None => GpuInfra_initial end.

Lemma session_reachable calls : infra_reachable (session_state calls).
Proof.
  unfold session_state. destruct (infra_session_registry GpuInfra_initial (node 0 0) calls
    registry_initial) as (s & w & Hrun & _).
  rewrite Hrun. by exists (node 0 0), calls, w.
Qed.

Lemma registration_outcome_witness :
  ∃ s', registerTask 1 6 (session_state up_and_registered) = Some (true, s')
    ∧ ∃ r, task_store s' !! 6%N = Some r ∧ task_gpuId r = 1 ∧ 0 ≤ resourceId r.
Proof.
  destruct (registration_outcome (session_state up_and_registered) 1 6%N TaskGpuResources_default)
    as (ok & s' & Hrun & _ & _ & Hok).
  - apply session_reachable.
  - vm_compute. reflexivity.
  - vm_compute. reflexivity.
  - destruct ok; [|vm_compute in Hrun; discriminate].
    destruct (Hok eq_refl) as (r & Hs & Hg & _ & Hid & _).
    exists s'. split; [exact Hrun|]. exists r. rewrite Hs. split; [apply lookup_insert_eq|].
    split; [exact Hg|exact Hid].
Defined.

Definition registered_6 : GpuInfra := session_state (up_and_registered ++ [Register 1 6]).

Lemma unregistration_undoes_registration_witness :
  ∃ s2, unregisterTask 6 registered_6 = Some (true, s2)
    ∧ task_store s2 = task_store (session_state up_and_registered).
Proof.
  destruct (unregistration_undoes_registration (session_state up_and_registered) 1 6%N
    TaskGpuResources_default registered_6) as (s2 & Hrun & Htasks & _).
  - apply session_reachable.
  - vm_compute. reflexivity.
  - vm_compute. reflexivity.
  - vm_compute. reflexivity.
  - exists s2. split; [exact Hrun|exact Htasks].
Defined.

Lemma manager_lifecycle_witness :
  ∃ s' w', shutdown (session_state up_and_registered) (node 1 1) = Some (s', w')
    ∧ s' = session_state up_and_registered.
Proof.
  destruct (manager_lifecycle strict (session_state up_and_registered) (node 1 1))
    as [_ (s' & w' & Hrun & Hbusy & _)].
  - apply session_reachable.
  - exists s', w'. split; [exact Hrun|]. apply Hbusy. exists 5%N.
    eexists. split; [vm_compute; reflexivity|]. discriminate.
Defined.

Lemma current_node_has_one_gpu_witness :
  ∃ ok gpuIds, gpuIdsForCurrentNumaNode (session_state up_and_registered) (node 1 1)
    = Some (ok, gpuIds) ∧ ok = true ∧ gpuIds = [1].
Proof.
  destruct (current_node_has_one_gpu (session_state up_and_registered) (node 1 1))
    as (ok & gpuIds & Hrun & _ & _).
  - apply session_reachable.
  - reflexivity.
  - exists ok, gpuIds. split; [exact Hrun|]. vm_compute in Hrun. injection Hrun as <- <-.
    split; reflexivity.
Defined.

Lemma primary_contexts_are_balanced_witness :
  ∃ s w', infra_session GpuInfra_initial (node 3 0) [Init strict; Shutdown] = Some (s, w')
    ∧ retained 0 w' = 3%nat.
Proof.
  exists (undiscovered GpuInfra_initial ∅), (node 3 0). split; [vm_compute; reflexivity|].
  destruct (primary_contexts_are_balanced (node 3 0) [Init strict; Shutdown]
    (undiscovered GpuInfra_initial ∅) (node 3 0)) with (e := 0) as (_ & _ & _ & Hexact & _).
  - vm_compute. reflexivity.
  - rewrite Hexact; reflexivity.
Defined.

(** Diagnostics of a process whose C library prints pointers in decimal. *)
#[export] Instance NodeDiagnostics : DiagnosticSource := {|
  getpid := 4711;
  format_pointer := format_unsigned;
  cudaGetErrorName _ := Some (literal "cudaErrorInvalidValue");
  cudaGetErrorString _ := Some (literal "invalid argument");
  cuGetErrorName _ := None;
  cuGetErrorString _ := None;
  has_missing_dependency := true;
  has_nvrtc_failure := true;
  has_nvjitlink_failure := false;
  has_nvshmem_failure := false;
|}.

#[export] Instance NodeDiagnostics_format : PointerFormat.
Proof.
  split.
  - done.
  - apply format_unsigned_inj.
  - intros p. apply digits_unspaced. destruct (format_unsigned_digits (S (N.to_nat p)) p) as [Hd _]; [lia| |done].
    rewrite Nat2N.inj_succ, N2Nat.id. apply N.lt_trans with (N.succ p); [lia|]. apply N.pow_gt_lin_r. lia.
  - intros p Hp. destruct (format_unsigned_digits 20 p) as [_ Hl]; [lia| |done]. unfold two64 in Hp. simpl. lia.
Defined.

Definition known_frame : GpuDiagnosticInfo :=
  mkInfo 1 1 7 700 1 true 11 (mkKey 1234 5 9001) true (Some (literal "Task.execute")).
Definition other_frame : GpuDiagnosticInfo :=
  mkInfo 1 1 7 700 1 true 11 (mkKey 123 45 9001) true (Some (literal "Task.execute")).

Lemma failure_lines_identify_witness :
  formatDiagnosticInfo 512 known_frame ≠ formatDiagnosticInfo 512 other_frame.
Proof.
  destruct (failure_lines_identify known_frame other_frame) as [_ Hiff]; [split; vm_compute; (reflexivity || lia)..|].
  intros Heq%Hiff. discriminate Heq.
Defined.

(** Thread 1 executes for the task on GPU 1 and its upload fails, while thread 2
    touches the cache of GPU 0. *)
Definition task_5 : TaskGpuResources := default TaskGpuResources_default (task_store (session_state up_and_registered) !! 5%N).
Definition two_threads : list diagnostic_event :=
  [Enter 1 (TaskScope task_5 (Some (literal "Task.execute")) (Some (mkKey 3 0 0)));
   Enter 2 (AccessScope 0 11 (mkKey 4 0 0) (Some (literal "Cache.getCacheData")));
   Enter 1 (StageScope (Some (literal "H2D")));
   CheckStatus 1 (RuntimeStatus 1) (Some (literal "cudaMemcpyAsync")) None 12;
   Leave 1; Leave 2].

Lemma diagnostics_are_attributed_witness :
  ∃ d written, diagnostic_run (session_state up_and_registered) diagnostics_initial two_threads
      = Some (d, concat written)
    ∧ attributed (session_state up_and_registered) (current d 1)
    ∧ current d 2 = GpuDiagnosticInfo_default
    ∧ ∃ i, written !! 3%nat = Some (event_lines (CheckStatus 1 (RuntimeStatus 1)
              (Some (literal "cudaMemcpyAsync")) None 12) i)
        ∧ info_gpuId i = 1 ∧ info_context i = 700%N ∧ info_stage i = Some (literal "H2D")
        ∧ info_key i = mkKey 3 0 0.
Proof.
  destruct (diagnostics_are_attributed (session_state up_and_registered) two_threads)
    as (d & written & Hrun & _ & Hall & Hlines).
  - apply session_reachable.
  - repeat constructor. exists 5%N. vm_compute. reflexivity.
  - vm_compute. reflexivity.
  - exists d, written. split; [exact Hrun|]. split; [apply Hall|]. split.
    + destruct (Hall 2%N) as [Hi _]. vm_compute in Hi. injection Hi as Hi. symmetry. exact Hi.
    + destruct (Hlines 3%nat (CheckStatus 1 (RuntimeStatus 1) (Some (literal "cudaMemcpyAsync")) None 12) eq_refl)
        as (i & Hi & _ & _ & Hw).
      exists i. split; [exact Hw|]. vm_compute in Hi. injection Hi as <-. split_and!; reflexivity.
Defined.
