(* ===== verification/StaticGpuData.v ===== *)
(** [StaticGpuData] ([src/StaticData/StaticGpuData.h] and [.cpp]): two fixed
    device buffers that are allocated, filled by uploads and then frozen.  The
    framework serializes the calls, so an operation is a function of the object
    and the machine. *)
From S2P Require Import Prelude.
From S2P Require Import Platform.
From S2P Require Import CudaDeviceGuard.
#[local] Open Scope N_scope.

(** An [enum class] may hold any value of its underlying type; the [switch] of
    [bufferFor] has a case for those that are not enumerators. *)
Inductive StaticGpuDataType := DetectionZones | DistortionTables | OtherType (value : Z).

Inductive StaticGpuDataState := StaticEmpty | Uploading | Ready | Failed.

#[export] Instance StaticGpuDataState_eq_dec : EqDecision StaticGpuDataState.
Proof. solve_decision. Defined.

Definition static_state_eqb (a b : StaticGpuDataState) : bool := bool_decide (a = b).

Record Buffer := mkBuffer {
  buffer_d_data : ptr;
  buffer_capacity : size_t;
}.

#[export] Instance set_buffer_d_data : Setter buffer_d_data :=
  λ f b, mkBuffer (f (buffer_d_data b)) (buffer_capacity b).
#[export] Instance set_buffer_capacity : Setter buffer_capacity :=
  λ f b, mkBuffer (buffer_d_data b) (f (buffer_capacity b)).
#[global] Arguments set_buffer_d_data _ _ / : assert.
#[global] Arguments set_buffer_capacity _ _ / : assert.

(** [Buffer()] *)
Definition Buffer_default : Buffer := mkBuffer nullptr 0.

(** [buffers] is an array of two: a pair. *)
Record StaticGpuData := mkStaticGpuData {
  buffers : Buffer * Buffer;
  uploadStream : ptr;
  static_deviceId : Z;
  currentState : StaticGpuDataState;
}.

Definition StaticGpuData_eta s :=
  mkStaticGpuData (buffers s) (uploadStream s) (static_deviceId s) (currentState s).
#[export] Instance set_buffers : Setter buffers := ltac:(make_setter buffers StaticGpuData_eta).
#[export] Instance set_uploadStream : Setter uploadStream := ltac:(make_setter uploadStream StaticGpuData_eta).
#[export] Instance set_static_deviceId : Setter static_deviceId := ltac:(make_setter static_deviceId StaticGpuData_eta).
#[export] Instance set_currentState : Setter currentState := ltac:(make_setter currentState StaticGpuData_eta).
#[global] Arguments set_buffers _ _ / : assert.
#[global] Arguments set_uploadStream _ _ / : assert.
#[global] Arguments set_static_deviceId _ _ / : assert.
#[global] Arguments set_currentState _ _ / : assert.

(** [StaticGpuData()] *)
Definition StaticGpuData_default : StaticGpuData :=
  mkStaticGpuData (Buffer_default, Buffer_default) nullptr (-1) StaticEmpty.

(** ** Queries *)

Definition bufferFor (s : StaticGpuData) (type : StaticGpuDataType) : option Buffer :=
  match type with
  | DetectionZones => Some (fst (buffers s))
  | DistortionTables => Some (snd (buffers s))
  | OtherType _ => None
  end.

Definition static_data (s : StaticGpuData) (type : StaticGpuDataType) : ptr :=
  match bufferFor s type with
  | Some buffer =>
      if static_state_eqb (currentState s) Ready then buffer_d_data buffer else nullptr
  | None => nullptr
  end.

Definition static_bytes (s : StaticGpuData) (type : StaticGpuDataType) : size_t :=
  match bufferFor s type with
  | Some buffer => buffer_capacity buffer
  | None => 0
  end.

Definition static_state (s : StaticGpuData) : StaticGpuDataState := currentState s.

Section operations.
Context `{Platform}.

(** ** Release *)

Definition hasResources (s : StaticGpuData) : bool :=
  negb (uploadStream s =? nullptr) || negb (buffer_d_data (fst (buffers s)) =? nullptr)
  || negb (buffer_d_data (snd (buffers s)) =? nullptr).

(** One iteration of the freeing loop: the status and the buffer left. *)
Definition releaseBuffer (buffer : Buffer) (w : world) : bool * Buffer * world :=
  if negb (buffer_d_data buffer =? nullptr) then
    let '(status, w) := cudaFree (buffer_d_data buffer) w in
    if cuda_ok status then (true, buffer <| buffer_d_data := nullptr |>, w)
    else (false, buffer, w)
  else (true, buffer, w).

Definition drainStream (s : StaticGpuData) (w : world) : bool * world :=
  if negb (uploadStream s =? nullptr) then
    let '(status, w) := cudaStreamSynchronize (uploadStream s) w in (cuda_ok status, w)
  else (true, w).

Definition destroyStream (s : StaticGpuData) (w : world) : bool * StaticGpuData * world :=
  if negb (uploadStream s =? nullptr) then
    let '(status, w) := cudaStreamDestroy (uploadStream s) w in
    if cuda_ok status then (true, s <| uploadStream := nullptr |>, w) else (false, s, w)
  else (true, s, w).

(** [release] after the device has been selected. *)
Definition releaseResources (s : StaticGpuData) (w : world) : bool * StaticGpuData * world :=
  let '(drained, w) := drainStream s w in
  let '(freed0, buffer0, w) := releaseBuffer (fst (buffers s)) w in
  let '(freed1, buffer1, w) := releaseBuffer (snd (buffers s)) w in
  let s := s <| buffers := (buffer0, buffer1) |> in
  let '(destroyed, s, w) := destroyStream s w in
  let succeeded := destroyed && (freed1 && (freed0 && drained)) in
  let s :=
    if negb (hasResources s)
    then s <| buffers := (Buffer_default, Buffer_default) |> <| static_deviceId := (-1)%Z |>
           <| currentState := StaticEmpty |>
    else s in
  (succeeded, s, w).

Definition static_release (s : StaticGpuData) (w : world) : bool * StaticGpuData * world :=
  if hasResources s then
    let s := s <| currentState := Failed |> in
    let '(deviceGuard, w) := CudaDeviceGuard_construct (static_deviceId s) w in
    if negb (guard_ok deviceGuard) then (false, s, CudaDeviceGuard_destruct deviceGuard w)
    else
      let '(succeeded, s, w) := releaseResources s w in
      (succeeded, s, CudaDeviceGuard_destruct deviceGuard w)
  else releaseResources s w.

(** [~StaticGpuData()] *)
Definition static_destruct (s : StaticGpuData) (w : world) : world :=
  let '(_, _, w) := static_release s w in w.

(** ** Initialization *)

Definition failInitialization (s : StaticGpuData) (w : world) : bool * StaticGpuData * world :=
  let '(_, s, w) := static_release s w in (false, s <| currentState := Failed |>, w).

(** One iteration of the allocation loop. *)
Definition allocateBuffer (stream : ptr) (buffer : Buffer) (w : world) : bool * Buffer * world :=
  if buffer_capacity buffer =? 0 then (true, buffer, w)
  else
    let '(status, d_data, w) := cudaMalloc (buffer_capacity buffer) w in
    let buffer := buffer <| buffer_d_data := d_data |> in
    if negb (cuda_ok status) then (false, buffer, w)
    else
      let '(status, w) := cudaMemsetAsync d_data (buffer_capacity buffer) stream w in
      (cuda_ok status, buffer, w).

(** The stream and the loop; [false] where the code calls [failInitialization]. *)
Definition allocateBuffers (s : StaticGpuData) (w : world) : bool * StaticGpuData * world :=
  let '(status, stream, w) := cudaStreamCreate w in
  let s := s <| uploadStream := stream |> in
  if negb (cuda_ok status) then (false, s, w)
  else
    let '(ok, buffer0, w) := allocateBuffer stream (fst (buffers s)) w in
    let s := s <| buffers := (buffer0, snd (buffers s)) |> in
    if negb ok then (false, s, w)
    else
      let '(ok, buffer1, w) := allocateBuffer stream (snd (buffers s)) w in
      (ok, s <| buffers := (fst (buffers s), buffer1) |>, w).

Definition static_initialize (gpuId : Z) (detectionZoneBytes distortionBytes : size_t)
    (s : StaticGpuData) (w : world) : bool * StaticGpuData * world :=
  if negb (static_state_eqb (currentState s) StaticEmpty) then (false, s, w)
  else
    let s := s <| currentState := Failed |> in
    if (gpuId <? 0)%Z then (false, s, w)
    else
      let '(deviceGuard, w) := CudaDeviceGuard_construct gpuId w in
      if negb (guard_ok deviceGuard) then (false, s, CudaDeviceGuard_destruct deviceGuard w)
      else
        let s := s <| static_deviceId := gpuId |>
                   <| buffers := ((fst (buffers s)) <| buffer_capacity := detectionZoneBytes |>,
                                  (snd (buffers s)) <| buffer_capacity := distortionBytes |>) |> in
        let '(ok, s, w) :=
          if negb (detectionZoneBytes =? 0) || negb (distortionBytes =? 0)
          then allocateBuffers s w else (true, s, w) in
        if negb ok then
          let '(result, s, w) := failInitialization s w in
          (result, s, CudaDeviceGuard_destruct deviceGuard w)
        else (true, s <| currentState := Uploading |>, CudaDeviceGuard_destruct deviceGuard w).

(** ** Uploads *)

Definition upload_rejects (buffer : option Buffer) (source : ptr) (count offset : size_t) : bool :=
  match buffer with
  | None => true
  | Some buffer =>
      (buffer_capacity buffer =? 0) || (source =? nullptr) || (count =? 0)
      || (buffer_capacity buffer <? offset) || (sub64 (buffer_capacity buffer) offset <? count)
  end.

Definition static_upload (type : StaticGpuDataType) (source : ptr) (count offset : size_t)
    (s : StaticGpuData) (w : world) : bool * StaticGpuData * world :=
  if negb (static_state_eqb (currentState s) Uploading) then (false, s, w)
  else
    let buffer := bufferFor s type in
    if upload_rejects buffer source count offset then (false, s <| currentState := Failed |>, w)
    else
      let '(deviceGuard, w) := CudaDeviceGuard_construct (static_deviceId s) w in
      if negb (guard_ok deviceGuard)
      then (false, s <| currentState := Failed |>, CudaDeviceGuard_destruct deviceGuard w)
      else
        let destination := from_option buffer_d_data nullptr buffer + offset in
        let '(status, w) := cudaMemcpyAsync destination source count (uploadStream s) w in
        let submitted := cuda_ok status in
        let '(status, w) := cudaStreamSynchronize (uploadStream s) w in
        let succeeded := cuda_ok status && submitted in
        (succeeded, if succeeded then s else s <| currentState := Failed |>,
         CudaDeviceGuard_destruct deviceGuard w).

Definition static_finalize (s : StaticGpuData) (w : world) : bool * StaticGpuData * world :=
  if negb (static_state_eqb (currentState s) Uploading) then (false, s, w)
  else
    let '(deviceGuard, w) := CudaDeviceGuard_construct (static_deviceId s) w in
    if negb (guard_ok deviceGuard)
    then (false, s <| currentState := Failed |>, CudaDeviceGuard_destruct deviceGuard w)
    else
      let '(drained, w) := drainStream s w in
      let w := CudaDeviceGuard_destruct deviceGuard w in
      if drained then (true, s <| currentState := Ready |>, w)
      else (false, s <| currentState := Failed |>, w).

End operations.
