(* ===== verification/DeviceMemory.v ===== *)
(** What the CUDA runtime documents about device memory, as far as the library
    relies on it: live allocations do not overlap, and work submitted to one
    stream takes effect in submission order.  [device_byte] is the content a
    byte of device memory has once the work submitted so far is complete, if the
    host leaves the sources of the copies that are in flight alone: when a copy from
    the host reads its source is not documented before its stream was
    synchronized. *)
From S2P Require Import Prelude.
From S2P Require Import Platform.
From S2P Require Import CudaDeviceGuard.
#[local] Open Scope N_scope.

(** [a] is one of the [n] bytes from [p]. *)
Definition in_range (p n a : N) : bool := (p <=? a) && (a <? p + n).

Lemma in_range_spec p n a : reflect (p ≤ a ∧ a < p + n) (in_range p n a).
Proof. apply iff_reflect. unfold in_range. rewrite andb_true_iff, N.leb_le, N.ltb_lt. done. Qed.

Lemma in_range_offset p n i : i < n → in_range p n (p + i) = true.
Proof. intros Hi. destruct (in_range_spec p n (p + i)); [done|lia]. Qed.

Definition apart (p n q m : N) : Prop := p + n ≤ q ∨ q + m ≤ p.

Lemma apart_sym p n q m : apart p n q m → apart q m p n.
Proof. unfold apart. lia. Qed.

(** An address of the one is none of the other. *)
Lemma apart_out p n q m i : apart p n q m → i < n → in_range q m (p + i) = false.
Proof. unfold apart. intros Hap Hi. destruct (in_range_spec q m (p + i)); [lia|done]. Qed.

(** A write that was submitted to a stream: a copy from the host, or of zeros. *)
Record transfer := mkTransfer {
  transfer_stream : ptr;
  transfer_to : ptr;
  transfer_from : option ptr;
  transfer_bytes : N;
}.

(** It writes the byte at [a]. *)
Definition covers (t : transfer) (a : N) : bool := in_range (transfer_to t) (transfer_bytes t) a.

Section memory.
Context `{Platform}.
Context (blocks : world → gmap N N) (device_byte host_byte : world → N → N).
Context (in_flight : world → list transfer).

(** Writes may be completed meanwhile. *)
Definition memory_unchanged (w w' : world) : Prop :=
  blocks w' = blocks w ∧ device_byte w' = device_byte w ∧ host_byte w' = host_byte w
  ∧ in_flight w' ⊆ in_flight w.

(** The range lies inside a live allocation. *)
Definition allocated (w : world) (p n : N) : Prop :=
  ∃ b m, blocks w !! b = Some m ∧ b ≤ p ∧ p + n ≤ b + m.

(** The [n] bytes from [p] have been overwritten with [value], by [writes] if they
    are still in flight. *)
Definition written (p n : N) (value : N → N) (writes : list transfer) (w w' : world) : Prop :=
  blocks w' = blocks w ∧ host_byte w' = host_byte w ∧ in_flight w' ⊆ writes ++ in_flight w
  ∧ ∀ a, device_byte w' a = if in_range p n a then value (a - p) else device_byte w a.

(** A new allocation of [n] bytes at [p], which nothing in flight is meant for. *)
Definition allocation (p n : N) (w w' : world) : Prop :=
  p ≠ nullptr ∧ blocks w !! p = None ∧ blocks w' = <[p := n]> (blocks w)
  ∧ map_Forall (λ q m, apart p n q m) (blocks w)
  ∧ host_byte w' = host_byte w ∧ in_flight w' ⊆ in_flight w
  ∧ (∀ t, t ∈ in_flight w → apart p n (transfer_to t) (transfer_bytes t))
  ∧ ∀ q m a, blocks w !! q = Some m → in_range q m a = true → device_byte w' a = device_byte w a.

(** What the host may do by itself: write its own memory, whenever it likes.  The
    device's bytes that a copy in flight may still have to bring from there are
    lost. *)
Definition host_acts (w w' : world) : Prop :=
  blocks w' = blocks w ∧ in_flight w' ⊆ in_flight w
  ∧ ∀ a, (∀ t source, t ∈ in_flight w → covers t a = true → transfer_from t = Some source →
            host_byte w' (source + (a - transfer_to t)) = host_byte w (source + (a - transfer_to t))) →
         device_byte w' a = device_byte w a.

End memory.

Class DeviceMemory `{Platform} := {
  blocks : world → gmap N N;
  device_byte : world → N → N;
  host_byte : world → N → N;
  in_flight : world → list transfer;
  unchanged := memory_unchanged blocks device_byte host_byte in_flight;
  memory_get_device w st d w' : cudaGetDevice w = (st, d, w') → unchanged w w';
  memory_set_device g w st w' : cudaSetDevice g w = (st, w') → unchanged w w';
  memory_stream w st p w' : cudaStreamCreate w = (st, p, w') →
    unchanged w w' ∧ (cuda_ok st = true → p ≠ nullptr);
  memory_synchronize p w st w' :
    cudaStreamSynchronize p w = (st, w') → cuda_ok st = true →
    unchanged w w' ∧ ∀ t, t ∈ in_flight w' → transfer_stream t ≠ p;
  memory_malloc n w st p w' :
    cudaMalloc n w = (st, p, w') → cuda_ok st = true → n ≠ 0 →
    allocation blocks device_byte host_byte in_flight p n w w';
  memory_memset p n stream w st w' :
    cudaMemsetAsync p n stream w = (st, w') → cuda_ok st = true → allocated blocks w p n →
    written blocks device_byte host_byte in_flight p n (λ _, 0) [mkTransfer stream p None n] w w';
  memory_memcpy p source n stream w st w' :
    cudaMemcpyAsync p source n stream w = (st, w') → cuda_ok st = true →
    allocated blocks w p n →
    written blocks device_byte host_byte in_flight p n (λ i, host_byte w (source + i))
      [mkTransfer stream p (Some source) n] w w';
}.

Section frames.
Context `{DeviceMemory}.

#[export] Instance unchanged_preorder : PreOrder unchanged.
Proof.
  split.
  - by intros w.
  - intros w w' w'' (Hb & Hd & Hh & Hf) (Hb' & Hd' & Hh' & Hf').
    split_and!; [congruence..|]. by etrans.
Qed.

#[export] Instance blocks_unchanged : Proper (unchanged ==> eq) blocks.
Proof. intros w w' (? & _). done. Qed.

#[export] Instance device_byte_unchanged : Proper (unchanged ==> eq) device_byte.
Proof. intros w w' (_ & ? & _). done. Qed.

#[export] Instance host_byte_unchanged : Proper (unchanged ==> eq) host_byte.
Proof. intros w w' (_ & _ & ? & _). done. Qed.

Lemma guard_construct_unchanged g w guard w' :
  CudaDeviceGuard_construct g w = (guard, w') → unchanged w w'.
Proof.
  unfold CudaDeviceGuard_construct. intros Hg.
  destruct (g <? 0)%Z; [by simplify_eq|].
  destruct (cudaGetDevice w) as [[st d] w1] eqn:Hget. pose proof (memory_get_device _ _ _ _ Hget).
  destruct (negb (cuda_ok st)); [by simplify_eq|].
  destruct (negb (d =? g)%Z); [|by simplify_eq].
  destruct (cudaSetDevice g w1) as [st' w2] eqn:Hset. pose proof (memory_set_device _ _ _ _ Hset).
  destruct (negb (cuda_ok st')); simplify_eq; by etrans.
Qed.

Lemma guard_destruct_unchanged guard w : unchanged w (CudaDeviceGuard_destruct guard w).
Proof.
  unfold CudaDeviceGuard_destruct. destruct (restorePrevious guard); [|done].
  destruct (cudaSetDevice _ w) as [st w'] eqn:Hset. by eapply memory_set_device.
Qed.

End frames.
