(* ===== verification/StaticUpload.v ===== *)
(** The contents of the static buffers: what the uploads of a session wrote is
    what a reader of the finalized buffers finds. *)
From S2P Require Import Prelude.
From S2P Require Import Platform.
From S2P Require Import CudaDeviceGuard.
From S2P Require Import DeviceMemory.
From S2P Require Import StaticGpuData.
#[local] Open Scope N_scope.

(** The bytes a session means each region to have. *)
Abbreviation image := (StaticGpuDataType → N → N) (only parsing).

#[export] Instance StaticGpuDataType_eq_dec : EqDecision StaticGpuDataType.
Proof. solve_decision. Defined.

Definition zeroed : image := λ _ _, 0.

(** [img] after an upload of [count] bytes to [offset]; [value] is the source. *)
Definition patched (type : StaticGpuDataType) (count offset : N) (value : N → N) (img : image) : image :=
  λ t i, if bool_decide (t = type) && in_range offset count i then value (i - offset) else img t i.

(** The code's test, without wrap-around. *)
Lemma upload_accepts b source count offset :
  buffer_capacity b < two64 →
  upload_rejects (Some b) source count offset = false →
  source ≠ nullptr ∧ count ≠ 0 ∧ offset + count ≤ buffer_capacity b.
Proof.
  unfold upload_rejects. intros Hlt.
  rewrite !orb_false_iff, !N.eqb_neq, !N.ltb_ge. intros ((((? & ?) & ?) & ?) & Hs).
  rewrite sub64_small in Hs by done. split_and!; [done..|lia].
Qed.

Lemma upload_rejects_iff b source count offset :
  buffer_capacity b < two64 →
  upload_rejects (Some b) source count offset = false ↔
  source ≠ nullptr ∧ count ≠ 0 ∧ offset + count ≤ buffer_capacity b.
Proof.
  intros Hlt. split; [by apply upload_accepts|]. intros (? & ? & ?).
  unfold upload_rejects. rewrite !orb_false_iff, !N.eqb_neq, !N.ltb_ge.
  rewrite sub64_small by lia. split_and!; try done; lia.
Qed.

Section sessions.
Context `{DeviceMemory}.

(** One region holds its bytes at a live allocation of its own. *)
Definition region (w : world) (b : Buffer) (bytes : N → N) : Prop :=
  buffer_capacity b ≠ 0 →
  buffer_d_data b ≠ nullptr ∧ blocks w !! buffer_d_data b = Some (buffer_capacity b)
  ∧ ∀ i, i < buffer_capacity b → device_byte w (buffer_d_data b + i) = bytes i.

Definition separate (b0 b1 : Buffer) : Prop :=
  buffer_capacity b0 ≠ 0 → buffer_capacity b1 ≠ 0 →
  apart (buffer_d_data b0) (buffer_capacity b0) (buffer_d_data b1) (buffer_capacity b1).

Definition open_state (st : StaticGpuDataState) : Prop := st = Uploading ∨ st = Ready.

(** Nothing that is in flight is meant for it. *)
Definition still (w : world) (b : Buffer) : Prop :=
  buffer_capacity b ≠ 0 →
  ∀ t, t ∈ in_flight w → apart (buffer_d_data b) (buffer_capacity b) (transfer_to t) (transfer_bytes t).

(** Nothing but zeros, on one stream. *)
Definition settled (stream : ptr) (w : world) (b : Buffer) : Prop :=
  buffer_capacity b ≠ 0 →
  ∀ t, t ∈ in_flight w →
    apart (buffer_d_data b) (buffer_capacity b) (transfer_to t) (transfer_bytes t)
    ∨ transfer_from t = None ∧ transfer_stream t = stream.

(** What may be under way to the regions. *)
Definition calm (s : StaticGpuData) (w : world) : Prop :=
  settled (uploadStream s) w (fst (buffers s)) ∧ settled (uploadStream s) w (snd (buffers s))
  ∧ (buffer_capacity (fst (buffers s)) ≠ 0 ∨ buffer_capacity (snd (buffers s)) ≠ 0 → uploadStream s ≠ nullptr)
  ∧ (currentState s = Ready → still w (fst (buffers s)) ∧ still w (snd (buffers s))).

Definition holds (dz dt : size_t) (s : StaticGpuData) (w : world) (img : image) : Prop :=
  buffer_capacity (fst (buffers s)) = dz ∧ buffer_capacity (snd (buffers s)) = dt
  ∧ region w (fst (buffers s)) (img DetectionZones)
  ∧ region w (snd (buffers s)) (img DistortionTables)
  ∧ separate (fst (buffers s)) (snd (buffers s))
  ∧ calm s w.

(** A session: what happens between a successful initialization and the reads.
    Between two calls the host may write its memory as it likes, the sources of the
    uploads included: that is harmless only because no copy to the regions is in flight then. *)
Inductive session (dz dt : size_t) : StaticGpuData → world → image → Prop :=
  | session_initialized gpuId w s w' :
      static_initialize gpuId dz dt StaticGpuData_default w = (true, s, w') →
      session dz dt s w' zeroed
  | session_uploaded s w img type source count offset s' w' :
      session dz dt s w img →
      static_upload type source count offset s w = (true, s', w') →
      session dz dt s' w' (patched type count offset (λ i, host_byte w (source + i)) img)
  | session_finalized s w img s' w' :
      session dz dt s w img →
      static_finalize s w = (true, s', w') →
      session dz dt s' w' img
  | session_elsewhere s w img w' :
      session dz dt s w img →
      host_acts blocks device_byte host_byte in_flight w w' →
      session dz dt s w' img.

(** *** Frames *)

Lemma region_unchanged w w' b bytes :
  blocks w' = blocks w → device_byte w' = device_byte w →
  region w b bytes → region w' b bytes.
Proof.
  intros Hb Hd Hr Hne. destruct (Hr Hne) as (? & ? & Hi).
  split_and!; [done|by rewrite Hb|]. intros i Hlt. rewrite Hd. by apply Hi.
Qed.

Lemma still_fewer w w' b : in_flight w' ⊆ in_flight w → still w b → still w' b.
Proof. intros Hsub Hs Hne t Ht. by apply Hs, Hsub. Qed.

Lemma settled_fewer stream w w' b : in_flight w' ⊆ in_flight w → settled stream w b → settled stream w' b.
Proof. intros Hsub Hs Hne t Ht. by apply Hs, Hsub. Qed.

Lemma calm_fewer s w w' : in_flight w' ⊆ in_flight w → calm s w → calm s w'.
Proof.
  intros Hsub (? & ? & ? & Hready). split_and!; try done; try by eapply settled_fewer.
  intros Hr. destruct (Hready Hr). split; by eapply still_fewer.
Qed.

Lemma holds_unchanged dz dt s w w' img :
  unchanged w w' → holds dz dt s w img → holds dz dt s w' img.
Proof.
  intros (? & ? & ? & ?) (? & ? & ? & ? & ? & ?).
  split_and!; try done; by (eapply region_unchanged || eapply calm_fewer).
Qed.

(** The host cannot reach a region that no copy in flight is meant for. *)
Lemma region_host_acts stream w w' b bytes :
  host_acts blocks device_byte host_byte in_flight w w' → settled stream w b → region w b bytes → region w' b bytes.
Proof.
  intros (Hb & _ & Hd) Hs Hr Hne. destruct (Hr Hne) as (? & ? & Hi).
  split_and!; [done|by rewrite Hb|]. intros i Hlt. rewrite Hd; [by apply Hi|]. intros t source Ht.
  destruct (Hs Hne t Ht) as [Hap|[-> _]]; [|done]. unfold covers. by rewrite (apart_out _ _ _ _ _ Hap Hlt).
Qed.

Lemma holds_host_acts dz dt s w w' img :
  host_acts blocks device_byte host_byte in_flight w w' → holds dz dt s w img → holds dz dt s w' img.
Proof.
  intros Hacts (? & ? & ? & ? & ? & Hcalm). pose proof Hacts as (_ & Hf & _). pose proof Hcalm as (? & ? & _).
  split_and!; try done; by (eapply region_host_acts || eapply calm_fewer).
Qed.

(** A write to one region leaves the other alone. *)
Lemma region_other p n value copies w w' b c bytes :
  written blocks device_byte host_byte in_flight p n value copies w w' →
  buffer_capacity c ≠ 0 → buffer_d_data c ≤ p → p + n ≤ buffer_d_data c + buffer_capacity c →
  apart (buffer_d_data c) (buffer_capacity c) (buffer_d_data b) (buffer_capacity b) ∨ buffer_capacity b = 0 →
  region w b bytes → region w' b bytes.
Proof.
  intros (Hb & _ & _ & Hd) Hne Hlo Hhi Hapart Hr Hnb. destruct (Hr Hnb) as (? & ? & Hi).
  split_and!; [done|by rewrite Hb|]. intros i Hlt. rewrite Hd.
  destruct (in_range_spec p n (buffer_d_data b + i)); [|by apply Hi].
  destruct Hapart as [[]|]; lia.
Qed.

(** A write to a part of a region patches it. *)
Lemma region_written value copies w w' b offset count bytes :
  written blocks device_byte host_byte in_flight (buffer_d_data b + offset) count value copies w w' →
  region w b bytes →
  region w' b (λ i, if in_range offset count i then value (i - offset) else bytes i).
Proof.
  intros (Hb & _ & _ & Hd) Hr Hnb. destruct (Hr Hnb) as (? & ? & Hi).
  split_and!; [done|by rewrite Hb|]. intros i Hlt. rewrite Hd.
  destruct (in_range_spec (buffer_d_data b + offset) count (buffer_d_data b + i)) as [Hin|Hout],
    (in_range_spec offset count i) as [Hin'|Hout']; try lia; [|by apply Hi].
  f_equal. lia.
Qed.

(** *** The operations *)

(** A successful allocation is zeroed and apart from every region there was. *)
Lemma allocateBuffer_region stream b w b' w' :
  allocateBuffer stream b w = (true, b', w') →
  buffer_capacity b' = buffer_capacity b ∧ region w' b' (λ _, 0) ∧ settled stream w' b'
  ∧ (∀ c, settled stream w c → settled stream w' c)
  ∧ ∀ c bytes, region w c bytes → region w' c bytes ∧ separate c b'.
Proof.
  unfold allocateBuffer. intros Hrun.
  destruct (N.eqb_spec (buffer_capacity b) 0) as [Hz|Hnz].
  { simplify_eq. split_and!; [done| | |done|].
    - by intros ?.
    - by intros ?.
    - intros c bytes Hc. split; [done|]. by intros _ ?. }
  destruct (cudaMalloc _ _) as [[st p] w1] eqn:Hm. destruct (cuda_ok st) eqn:Hst; [|done]. simpl in Hrun.
  destruct (memory_malloc _ _ _ _ _ Hm Hst Hnz) as (Hp & Hnone & Hblocks & Hapart & _ & Hf1 & Hnew & Hkept).
  destruct (cudaMemsetAsync _ _ _ _) as [st' w2] eqn:Hset. simplify_eq.
  assert (written blocks device_byte host_byte in_flight p (buffer_capacity b) (λ _, 0)
    [mkTransfer stream p None (buffer_capacity b)] w1 w') as Hw.
  { eapply memory_memset; [done..|]. exists p, (buffer_capacity b).
    rewrite Hblocks, lookup_insert. rewrite decide_True by done. split_and!; [done|lia..]. }
  destruct Hw as (Hb2 & _ & Hf2 & Hd2). simpl in *.
  assert (∀ t, t ∈ in_flight w' → t ∈ in_flight w ∨ transfer_from t = None ∧ transfer_stream t = stream) as Hf.
  { intros t [->|Ht]%Hf2%elem_of_cons; [by right|left; by apply Hf1]. }
  split_and!; [done| | | |].
  - intros _. simpl. split_and!; [done|by rewrite Hb2, Hblocks, lookup_insert_eq|].
    intros i Hi. rewrite Hd2. destruct (in_range_spec p (buffer_capacity b) (p + i)); [done|lia].
  - intros _ t [Ht|?]%Hf; [left; by apply Hnew|by right].
  - intros c Hc Hne t [Ht|?]%Hf; [by apply Hc|by right].
  - intros c bytes Hc. split.
    + intros Hnc. destruct (Hc Hnc) as (? & Hlive & Hbytes).
      pose proof (Hapart _ _ Hlive) as Hcap. simpl in Hcap. split_and!; [done| |].
      * rewrite Hb2, Hblocks, lookup_insert_ne by congruence. done.
      * intros i Hi. rewrite Hd2.
        destruct (in_range_spec p (buffer_capacity b) (buffer_d_data c + i)); [destruct Hcap; lia|].
        rewrite (Hkept _ _ _ Hlive); [by apply Hbytes|].
        destruct (in_range_spec (buffer_d_data c) (buffer_capacity c) (buffer_d_data c + i)); [done|lia].
    + intros Hnc _. destruct (Hc Hnc) as (_ & Hlive & _).
      pose proof (Hapart _ _ Hlive) as [|]; [by right|by left].
Qed.

Lemma drainStream_unchanged s w w' : drainStream s w = (true, w') → unchanged w w'.
Proof.
  unfold drainStream. destruct (negb _); [|by intros; simplify_eq].
  destruct (cudaStreamSynchronize _ _) as [st w1] eqn:Hsync. intros [= Hst <-].
  by destruct (memory_synchronize _ _ _ _ Hsync Hst).
Qed.

(** Once the stream is drained nothing is under way. *)
Lemma drained_still s w w' b :
  drainStream s w = (true, w') → settled (uploadStream s) w' b → (buffer_capacity b ≠ 0 → uploadStream s ≠ nullptr) →
  still w' b.
Proof.
  unfold drainStream. intros Hrun Hs Hnull Hne t Ht. destruct (Hs Hne t Ht) as [|[_ Hstream]]; [done|].
  rewrite (proj2 (N.eqb_neq _ _) (Hnull Hne)) in Hrun. cbn [negb] in Hrun.
  destruct (cudaStreamSynchronize _ _) as [st w1] eqn:Hsync. injection Hrun as Hst <-.
  destruct (memory_synchronize _ _ _ _ Hsync Hst) as [_ Hother]. by destruct (Hother t Ht).
Qed.

Lemma allocateBuffers_holds s w s' w' :
  allocateBuffers s w = (true, s', w') → currentState s ≠ Ready →
  holds (buffer_capacity (fst (buffers s))) (buffer_capacity (snd (buffers s))) s' w' zeroed.
Proof.
  unfold allocateBuffers. destruct (cudaStreamCreate w) as [[st stream] w1] eqn:Hstream.
  destruct (cuda_ok st) eqn:Hok; [|done]. destruct (memory_stream _ _ _ _ Hstream) as [_ Hnull]. simpl.
  destruct (allocateBuffer stream _ w1) as [[[] b0] w2] eqn:Hb0; [|done]. simpl.
  destruct (allocateBuffer stream _ w2) as [[ok1 b1] w3] eqn:Hb1. intros. simplify_eq.
  apply allocateBuffer_region in Hb0 as (Hc0 & Hr0 & Hs0 & _), Hb1 as (Hc1 & Hr1 & Hs1 & Hkeep & Hother).
  destruct (Hother _ _ Hr0). split_and!; try done. unfold calm. simpl. split_and!; auto; done.
Qed.

Lemma failInitialization_result s w :
  ∃ s' w', failInitialization s w = (false, s', w') ∧ currentState s' = Failed.
Proof.
  unfold failInitialization. destruct (static_release s w) as [[? ?] ?]. by eexists _, _.
Qed.

Lemma initialize_holds gpuId dz dt w s w' :
  static_initialize gpuId dz dt StaticGpuData_default w = (true, s, w') →
  holds dz dt s w' zeroed.
Proof.
  unfold static_initialize. change (negb (static_state_eqb _ _)) with false. cbv iota.
  destruct (gpuId <? 0)%Z; [done|].
  destruct (CudaDeviceGuard_construct gpuId w) as [g w1]. destruct (negb (guard_ok g)); [done|].
  set (s1 := _ <| buffers := _ |>).
  destruct (negb (dz =? 0) || negb (dt =? 0)) eqn:Hne.
  - destruct (allocateBuffers s1 w1) as [[[] s2] w2] eqn:Hall; simpl.
    + intros. simplify_eq. apply allocateBuffers_holds in Hall; [|done].
      eapply holds_unchanged; [apply guard_destruct_unchanged|]. destruct Hall as (? & ? & ? & ? & ? & ? & ? & ? & _).
      by split_and!.
    + destruct (failInitialization_result s2 w2) as (? & ? & -> & _). done.
  - apply orb_false_iff in Hne as [->%negb_false_iff%N.eqb_eq ->%negb_false_iff%N.eqb_eq].
    intros [= <- <-]. split; [done|]. split; [done|].
    unfold calm; split_and!; try done; intros Hne; try (destruct (Hne eq_refl)).
    destruct Hne as [Hne|Hne]; destruct (Hne eq_refl).
Qed.

(** An accepted copy writes inside the region it is meant for. *)
Lemma memcpy_written b bytes source count offset stream w st w' :
  cudaMemcpyAsync (buffer_d_data b + offset) source count stream w = (st, w') →
  cuda_ok st = true → region w b bytes → count ≠ 0 → offset + count ≤ buffer_capacity b →
  written blocks device_byte host_byte in_flight (buffer_d_data b + offset) count
    (λ i, host_byte w (source + i)) [mkTransfer stream (buffer_d_data b + offset) (Some source) count] w w'.
Proof.
  intros Hcpy Hst Hr Hcount Hend. destruct Hr as (_ & Hlive & _); [lia|].
  eapply memory_memcpy; [done..|]. exists (buffer_d_data b), (buffer_capacity b).
  split_and!; [done|lia..].
Qed.

(** The region written to is patched, a region apart from it is not. *)
Lemma copied_regions type t b c w w' source count offset copies img :
  written blocks device_byte host_byte in_flight (buffer_d_data b + offset) count
    (λ i, host_byte w (source + i)) copies w w' →
  offset + count ≤ buffer_capacity b → count ≠ 0 →
  region w c (img t) → (t = type → c = b) →
  (t ≠ type → apart (buffer_d_data b) (buffer_capacity b) (buffer_d_data c) (buffer_capacity c)
              ∨ buffer_capacity c = 0) →
  region w' c (patched type count offset (λ i, host_byte w (source + i)) img t).
Proof.
  intros Hw Hend Hcount Hr Hsame Hother. unfold patched.
  case_bool_decide as Ht; simpl.
  - rewrite (Hsame Ht) in Hr |- *. by eapply region_written in Hw.
  - eapply region_other; [exact Hw|..|by apply Hother|exact Hr]; lia.
Qed.

(** A copy that its stream's synchronization has waited for is not in flight. *)
Lemma settled_synchronized p n value stream source w w1 w2 st b :
  written blocks device_byte host_byte in_flight p n value [mkTransfer stream p source n] w w1 →
  cudaStreamSynchronize stream w1 = (st, w2) → cuda_ok st = true → settled stream w b → settled stream w2 b.
Proof.
  intros (_ & _ & Hf & _) Hsync Hst Hs Hne t Ht.
  destruct (memory_synchronize _ _ _ _ Hsync Hst) as [(_ & _ & _ & Hsub) Hother].
  specialize (Hother t Ht). apply Hsub, Hf in Ht as [->%list_elem_of_singleton|Ht]%elem_of_app; [done|].
  by apply Hs.
Qed.

Lemma upload_holds dz dt type source count offset s w img s' w' :
  dz < two64 → dt < two64 →
  static_upload type source count offset s w = (true, s', w') →
  holds dz dt s w img →
  holds dz dt s' w' (patched type count offset (λ i, host_byte w (source + i)) img).
Proof.
  intros Hdz Hdt. unfold static_upload.
  unfold static_state_eqb. case_bool_decide as Hstate; cbn [negb]; [|done].
  destruct (upload_rejects _ _ _ _) eqn:Hrej; [done|].
  destruct (CudaDeviceGuard_construct _ w) as [g w1] eqn:Hg. apply guard_construct_unchanged in Hg.
  destruct (negb (guard_ok g)); [done|].
  destruct (cudaMemcpyAsync _ _ _ _ w1) as [st w2] eqn:Hcpy.
  destruct (cudaStreamSynchronize _ w2) as [st' w3] eqn:Hsync.
  destruct (cuda_ok st') eqn:Hst'; [|done]. destruct (cuda_ok st) eqn:Hst; [|done]. simpl.
  intros Heq Hh. simplify_eq.
  pose proof (holds_unchanged _ _ _ _ _ _ Hg Hh) as (Hz & Ht & Hr0 & Hr1 & Hsep & Hs0 & Hs1 & Hnull & Hready).
  eapply holds_unchanged; [apply guard_destruct_unchanged|].
  destruct (memory_synchronize _ _ _ _ Hsync Hst') as [(Hb3 & Hd3 & _) _].
  rewrite (host_byte_unchanged _ _ Hg). unfold bufferFor in *.
  destruct type as [| |value]; [| |done].
  all: apply upload_accepts in Hrej as (_ & Hcount & Hend); [|congruence].
  all: eapply memcpy_written in Hcpy; [|done..].
  all: split_and!; [done..| | |done|].
  3, 6: split_and!; [by eapply settled_synchronized|by eapply settled_synchronized|done|by rewrite Hstate].
  all: eapply region_unchanged; [exact Hb3|exact Hd3|]; eapply copied_regions; try done.
  - destruct (decide (buffer_capacity (snd (buffers s')) = 0)); [by right|left].
    apply Hsep; [lia|done].
  - destruct (decide (buffer_capacity (fst (buffers s')) = 0)); [by right|left].
    destruct Hsep; [done|lia|by right|by left].
Qed.

Lemma finalize_holds dz dt s w img s' w' :
  static_finalize s w = (true, s', w') → holds dz dt s w img →
  holds dz dt s' w' img ∧ currentState s' = Ready.
Proof.
  unfold static_finalize.
  destruct (negb (static_state_eqb _ _)); [done|].
  destruct (CudaDeviceGuard_construct _ w) as [g w1] eqn:Hg. apply guard_construct_unchanged in Hg.
  destruct (negb (guard_ok g)); [done|].
  destruct (drainStream s w1) as [[] w2] eqn:Hdrain; [|done].
  pose proof (drainStream_unchanged _ _ _ Hdrain) as Hun.
  intros Heq Hh. simplify_eq. split; [|done].
  assert (holds dz dt s w2 img) as Hh2 by (eapply holds_unchanged; [|exact Hh]; by etrans).
  eapply holds_unchanged; [apply guard_destruct_unchanged|].
  destruct Hh2 as (? & ? & ? & ? & ? & Hs0 & Hs1 & Hnull & _). split_and!; try done. split_and!; try done. intros _.
  split; eapply drained_still; eauto.
Qed.

Lemma session_holds dz dt s w img :
  dz < two64 → dt < two64 → session dz dt s w img → holds dz dt s w img.
Proof.
  intros Hdz Hdt. induction 1.
  - by eapply initialize_holds.
  - by eapply upload_holds.
  - by eapply finalize_holds.
  - by eapply holds_host_acts.
Qed.

(** C39.  What was uploaded is what is read: in a session whose data has been
    finalized, every byte of a region is the one the last upload covering it
    took from its source, and 0 where there was none, although the host may
    overwrite its memory, the sources included, as soon as an upload has returned:
    no copy to a region is in flight by then.  The regions have the requested
    sizes, and are exposed exactly once the data is finalized; then nothing that
    was submitted to any stream is still to be written to them. *)
Theorem uploads_are_read_back dz dt s w img type :
  dz < two64 → dt < two64 → session dz dt s w img →
  static_bytes s type = match type with DetectionZones => dz | DistortionTables => dt | _ => 0 end
  ∧ (static_state s ≠ Ready → static_data s type = nullptr)
  ∧ (static_state s = Ready → ∀ i, i < static_bytes s type →
       static_data s type ≠ nullptr ∧ device_byte w (static_data s type + i) = img type i
       ∧ ∀ t, t ∈ in_flight w → covers t (static_data s type + i) = false).
Proof.
  intros Hdz Hdt Hs. destruct (session_holds _ _ _ _ _ Hdz Hdt Hs) as (H0z & H1z & Hr0 & Hr1 & _ & _ & _ & _ & Hready).
  unfold static_data, static_bytes, static_state, static_state_eqb.
  split_and!.
  - by destruct type.
  - intros Hne. rewrite bool_decide_false by done. by destruct (bufferFor s type).
  - intros Hst. destruct (Hready Hst) as [Hs0 Hs1]. rewrite Hst, bool_decide_true by done.
    destruct type as [| |v]; simpl; intros i Hi; [| |lia].
    + destruct Hr0 as (? & _ & Hb); [lia|]. split; [done|]. split; [by apply Hb|]. intros t Ht.
      eapply apart_out; [apply Hs0; [lia|done]|lia].
    + destruct Hr1 as (? & _ & Hb); [lia|]. split; [done|]. split; [by apply Hb|]. intros t Ht.
      eapply apart_out; [apply Hs1; [lia|done]|lia].
Qed.

End sessions.
