(* ===== verification/StaticLifecycle.v ===== *)
(** The life of a [StaticGpuData]: the states its calls go through, what it
    holds in each of them, and when its buffers are exposed.  Nothing is assumed
    of the machine between two calls. *)
From S2P Require Import Prelude.
From S2P Require Import Platform.
From S2P Require Import CudaDeviceGuard.
From S2P Require Import StaticGpuData.
#[local] Open Scope N_scope.

Inductive static_call :=
  | CallInitialize (gpuId : Z) (detectionZoneBytes distortionBytes : size_t)
  | CallUpload (type : StaticGpuDataType) (source : ptr) (count offset : size_t)
  | CallFinalize
  | CallRelease.

Definition static_apply `{Platform} (call : static_call) (s : StaticGpuData) (w : world) :
    bool * StaticGpuData * world :=
  match call with
  | CallInitialize gpuId dz dt => static_initialize gpuId dz dt s w
  | CallUpload type source count offset => static_upload type source count offset s w
  | CallFinalize => static_finalize s w
  | CallRelease => static_release s w
  end.

(** The diagram of the states: the call, its result and the two states. *)
Inductive transition : static_call → bool → StaticGpuDataState → StaticGpuDataState → Prop :=
  | initialized g dz dt : transition (CallInitialize g dz dt) true StaticEmpty Uploading
  | not_initialized g dz dt : transition (CallInitialize g dz dt) false StaticEmpty Failed
  | not_empty g dz dt st : st ≠ StaticEmpty → transition (CallInitialize g dz dt) false st st
  | uploaded t p n o : transition (CallUpload t p n o) true Uploading Uploading
  | poisoned t p n o : transition (CallUpload t p n o) false Uploading Failed
  | no_upload t p n o st : st ≠ Uploading → transition (CallUpload t p n o) false st st
  | finalized : transition CallFinalize true Uploading Ready
  | not_finalized : transition CallFinalize false Uploading Failed
  | no_finalize st : st ≠ Uploading → transition CallFinalize false st st
  | released ok st : transition CallRelease ok st StaticEmpty
  | not_released st : transition CallRelease false st Failed.

Definition backed (b : Buffer) : Prop := buffer_d_data b = nullptr ↔ buffer_capacity b = 0.

(** What the object holds in each state. *)
Record static_wf (s : StaticGpuData) : Prop := {
  wf_empty : currentState s = StaticEmpty → s = StaticGpuData_default;
  wf_open : currentState s = Uploading ∨ currentState s = Ready →
    backed (fst (buffers s)) ∧ backed (snd (buffers s));
  wf_device : hasResources s = true → (0 ≤ static_deviceId s)%Z;
}.

Lemma static_state_eqb_spec a b : reflect (a = b) (static_state_eqb a b).
Proof. unfold static_state_eqb. case_bool_decide; by constructor. Qed.

Lemma default_wf : static_wf StaticGpuData_default.
Proof. by split. Qed.

Section lifecycle.
Context `{PlatformLaws}.

Inductive static_reachable : StaticGpuData → Prop :=
  | reachable_default : static_reachable StaticGpuData_default
  | reachable_call s call w ok s' w' :
      static_reachable s → static_apply call s w = (ok, s', w') → static_reachable s'.

(** *** Release *)

(** What a release leaves: nothing, or some of what there was. *)
Definition left_by (s s' : StaticGpuData) : Prop :=
  (uploadStream s' = nullptr ∨ uploadStream s' = uploadStream s)
  ∧ (fst (buffers s') = (fst (buffers s)) <| buffer_d_data := nullptr |>
     ∨ fst (buffers s') = fst (buffers s))
  ∧ (snd (buffers s') = (snd (buffers s)) <| buffer_d_data := nullptr |>
     ∨ snd (buffers s') = snd (buffers s))
  ∧ static_deviceId s' = static_deviceId s.

Lemma releaseBuffer_result b w :
  ∃ ok b' w', releaseBuffer b w = (ok, b', w')
    ∧ (b' = b <| buffer_d_data := nullptr |> ∨ b' = b)
    ∧ (buffer_d_data b' ≠ nullptr → ok = false).
Proof.
  unfold releaseBuffer. destruct (N.eqb_spec (buffer_d_data b) nullptr) as [Hb|Hb]; simpl.
  - eexists _, _, _. split; [done|]. split; [by right|done].
  - destruct (cudaFree _ _) as [st w'].
    destruct (cuda_ok st); (eexists _, _, _; split; [done|]); split; [by left|done|by right|done].
Qed.

Lemma destroyStream_result s w :
  ∃ ok st w', destroyStream s w = (ok, s <| uploadStream := st |>, w')
    ∧ (st = nullptr ∨ st = uploadStream s) ∧ (st ≠ nullptr → ok = false).
Proof.
  unfold destroyStream. destruct (N.eqb_spec (uploadStream s) nullptr) as [Hs|Hs]; simpl.
  - exists true, nullptr, w. split; [|by split; [left|]]. destruct s; simpl in *. by subst.
  - destruct (cudaStreamDestroy _ _) as [status w']. destruct (cuda_ok status).
    + exists true, nullptr, w'. by split_and!; [|left|].
    + exists false, (uploadStream s), w'. destruct s. by split_and!; [|right|].
Qed.

Lemma hasResources_spec s :
  hasResources s = true ↔
  uploadStream s ≠ nullptr ∨ buffer_d_data (fst (buffers s)) ≠ nullptr
  ∨ buffer_d_data (snd (buffers s)) ≠ nullptr.
Proof.
  unfold hasResources. rewrite !orb_true_iff, !negb_true_iff, !N.eqb_neq. tauto.
Qed.

Lemma left_has s s' : left_by s s' → hasResources s' = true → hasResources s = true.
Proof.
  intros (Hst & Hb0 & Hb1 & _). rewrite !hasResources_spec.
  intros [Hs|[Hs|Hs]].
  - left. destruct Hst; congruence.
  - right; left. by destruct Hb0 as [Hb|Hb]; rewrite Hb in Hs.
  - right; right. by destruct Hb1 as [Hb|Hb]; rewrite Hb in Hs.
Qed.

Lemma releaseResources_result s w :
  ∃ ok s' w', releaseResources s w = (ok, s', w')
    ∧ (s' = StaticGpuData_default
       ∨ ok = false ∧ left_by s s' ∧ hasResources s' = true ∧ currentState s' = currentState s).
Proof.
  unfold releaseResources. destruct (drainStream s w) as [drained w1].
  destruct (releaseBuffer_result (fst (buffers s)) w1) as (ok0 & b0 & w2 & -> & Hb0 & Hko0).
  destruct (releaseBuffer_result (snd (buffers s)) w2) as (ok1 & b1 & w3 & -> & Hb1 & Hko1).
  destruct (destroyStream_result (s <| buffers := (b0, b1) |>) w3)
    as (destroyed & st & w4 & -> & Hst & Hkos).
  eexists _, _, _. split; [done|].
  set (s' := (s <| buffers := (b0, b1) |>) <| uploadStream := st |>).
  destruct (hasResources s') eqn:Hleft; simpl.
  - right. split_and!; [|done..].
    apply hasResources_spec in Hleft as [Hs|[Hs|Hs]]; simpl in Hs.
    + by rewrite (Hkos Hs).
    + rewrite (Hko0 Hs), !andb_false_r. done.
    + rewrite (Hko1 Hs), andb_false_r. done.
  - left. destruct (decide (st = nullptr)) as [->|Hs]; [done|].
    assert (hasResources s' = true) by (apply hasResources_spec; by left). congruence.
Qed.

(** A release leaves nothing, or marks the object failed and leaves what could
    not be freed. *)
Lemma release_result s w :
  ∃ ok s' w', static_release s w = (ok, s', w')
    ∧ (s' = StaticGpuData_default
       ∨ ok = false ∧ left_by s s' ∧ hasResources s' = true ∧ currentState s' = Failed).
Proof.
  unfold static_release. destruct (hasResources s) eqn:Hhas.
  - destruct (CudaDeviceGuard_construct _ w) as [g w1]. destruct (negb (guard_ok g)).
    + eexists _, _, _. split; [done|]. right. split_and!; [done|..|done|done].
      split_and!; [by right..|done].
    + destruct (releaseResources_result (s <| currentState := Failed |>) w1)
        as (ok & s' & w' & -> & Hres). eexists _, _, _. split; [done|].
      destruct Hres as [?|Hres]; [by left|right; exact Hres].
  - destruct (releaseResources_result s w) as (ok & s' & w' & -> & [->|(_ & Hleft & Hhas' & _)]).
    + eexists _, _, _. split; [done|by left].
    + exfalso. pose proof (left_has _ _ Hleft Hhas'). congruence.
Qed.

Lemma left_wf s s' :
  static_wf s → left_by s s' → hasResources s' = true → currentState s' = Failed → static_wf s'.
Proof.
  intros Hwf Hleft Hhas' Hst. pose proof (left_has _ _ Hleft Hhas') as Hhas.
  destruct Hleft as (_ & _ & _ & Hd). split; rewrite ?Hst; try done.
  - by intros [].
  - intros _. rewrite Hd. by apply wf_device.
Qed.

(** *** Initialization *)

Lemma allocateBuffer_result stream b w :
  buffer_d_data b = nullptr →
  ∃ ok b' w', allocateBuffer stream b w = (ok, b', w')
    ∧ buffer_capacity b' = buffer_capacity b ∧ (ok = true → backed b').
Proof using All.
  intros Hb. unfold allocateBuffer, backed. destruct (N.eqb_spec (buffer_capacity b) 0) as [Hc|Hc].
  { by eexists _, _, _. }
  destruct (cudaMalloc _ w) as [[st p] w1] eqn:Hm. destruct (cuda_ok st) eqn:Hst; simpl.
  - pose proof (malloc_nonnull _ _ _ _ _ Hm Hst Hc). destruct (cudaMemsetAsync _ _ _ _) as [st' w2].
    by eexists _, _, _.
  - by eexists _, _, _.
Qed.

Lemma allocateBuffers_result s w :
  buffer_d_data (fst (buffers s)) = nullptr → buffer_d_data (snd (buffers s)) = nullptr →
  ∃ ok s' w', allocateBuffers s w = (ok, s', w')
    ∧ static_deviceId s' = static_deviceId s ∧ currentState s' = currentState s
    ∧ (ok = true → backed (fst (buffers s')) ∧ backed (snd (buffers s'))
        ∧ buffer_capacity (fst (buffers s')) = buffer_capacity (fst (buffers s))
        ∧ buffer_capacity (snd (buffers s')) = buffer_capacity (snd (buffers s))).
Proof using All.
  intros Hb0 Hb1. unfold allocateBuffers. destruct (cudaStreamCreate w) as [[st stream] w1].
  destruct (cuda_ok st); simpl; [|by eexists _, _, _].
  destruct (allocateBuffer_result stream (fst (buffers s)) w1 Hb0) as (ok0 & b0 & w2 & -> & Hc0 & Hok0).
  destruct ok0; simpl; [|by eexists _, _, _].
  destruct (allocateBuffer_result stream (snd (buffers s)) w2 Hb1) as (ok1 & b1 & w3 & -> & Hc1 & Hok1).
  eexists _, _, _. split_and!; [done..|]. auto.
Qed.

(** Any object that holds what it holds on a known device. *)
Lemma failed_wf s :
  currentState s = Failed → (0 ≤ static_deviceId s)%Z → hasResources s = true → static_wf s.
Proof. intros Hst ? ?. split; rewrite ?Hst; [done|by intros []|done]. Qed.

Lemma bare_failed_wf : static_wf (StaticGpuData_default <| currentState := Failed |>).
Proof. split; simpl; [done|by intros []|done]. Qed.

Lemma initialize_result gpuId dz dt s w :
  static_wf s →
  ∃ ok s' w', static_initialize gpuId dz dt s w = (ok, s', w')
    ∧ transition (CallInitialize gpuId dz dt) ok (currentState s) (currentState s')
    ∧ static_wf s' ∧ (currentState s ≠ StaticEmpty → s' = s)
    ∧ (ok = true → buffer_capacity (fst (buffers s')) = dz ∧ buffer_capacity (snd (buffers s')) = dt).
Proof using All.
  intros Hwf. unfold static_initialize.
  destruct (static_state_eqb_spec (currentState s) StaticEmpty) as [Hst|Hst]; simpl negb; cbv iota.
  2: { eexists _, _, _. split; [done|]. by split_and!; [constructor|..]. }
  rewrite (wf_empty _ Hwf Hst). clear s Hwf Hst.
  destruct (Z.ltb_spec gpuId 0) as [|Hgpu].
  { eexists _, _, _. split; [done|]. split_and!; [constructor|apply bare_failed_wf|done..]. }
  destruct (CudaDeviceGuard_construct gpuId w) as [g w1]. destruct (guard_ok g); simpl negb; cbv iota.
  2: { eexists _, _, _. split; [done|]. split_and!; [constructor|apply bare_failed_wf|done..]. }
  set (s1 := _ <| buffers := _ |>).
  destruct (negb (dz =? 0) || negb (dt =? 0)) eqn:Hne.
  - destruct (allocateBuffers_result s1 w1) as (ok & s2 & w2 & -> & Hdev & Hst & Hok); [done..|].
    destruct ok; simpl negb; cbv iota.
    + eexists _, _, _. split; [done|]. destruct (Hok eq_refl) as (Hb0 & Hb1 & Hc0 & Hc1).
      split_and!; [constructor| |done..]. split; simpl; [done|done|]. by rewrite Hdev.
    + unfold failInitialization.
      destruct (release_result s2 w2) as (ok & s3 & w3 & -> & Hres).
      eexists _, _, _. split; [done|]. split_and!; [constructor| |done..].
      destruct Hres as [->|(_ & Hleft & Hhas & _)]; [apply bare_failed_wf|].
      apply failed_wf; [done| |done]. simpl. destruct Hleft as (_ & _ & _ & ->). by rewrite Hdev.
  - apply orb_false_iff in Hne as [->%negb_false_iff%N.eqb_eq ->%negb_false_iff%N.eqb_eq].
    eexists _, _, _. split; [done|]. by split_and!; [constructor|split|..].
Qed.

(** *** Uploads and finalization *)

Lemma change_state s st :
  static_wf s → currentState s = Uploading → st = Failed ∨ st = Ready →
  static_wf (s <| currentState := st |>).
Proof.
  intros Hwf Hst Hor. split; simpl.
  - by intros ->; destruct Hor.
  - intros _. apply Hwf. by left.
  - apply Hwf.
Qed.

Lemma upload_result type source count offset s w :
  static_wf s →
  ∃ ok s' w', static_upload type source count offset s w = (ok, s', w')
    ∧ transition (CallUpload type source count offset) ok (currentState s) (currentState s')
    ∧ static_wf s'.
Proof.
  intros Hwf. unfold static_upload.
  destruct (static_state_eqb_spec (currentState s) Uploading) as [Hst|Hst]; simpl negb; cbv iota.
  2: { eexists _, _, _. split; [done|]. by split; [constructor|]. }
  assert (transition (CallUpload type source count offset) false (currentState s)
            (currentState (s <| currentState := Failed |>))
          ∧ static_wf (s <| currentState := Failed |>)) as Hpoisoned.
  { split; [rewrite Hst; constructor|]. apply change_state; auto. }
  destruct (upload_rejects _ _ _ _); [by eexists _, _, _|].
  destruct (CudaDeviceGuard_construct _ w) as [g w1].
  destruct (negb (guard_ok g)); [by eexists _, _, _|].
  destruct (cudaMemcpyAsync _ _ _ _ w1) as [st w2]. destruct (cudaStreamSynchronize _ w2) as [st' w3].
  destruct (cuda_ok st' && cuda_ok st); eexists _, _, _; (split; [done|]); [|done].
  split; [|done]. rewrite Hst. constructor.
Qed.

Lemma finalize_result s w :
  static_wf s →
  ∃ ok s' w', static_finalize s w = (ok, s', w')
    ∧ transition CallFinalize ok (currentState s) (currentState s') ∧ static_wf s'
    ∧ buffers s' = buffers s.
Proof.
  intros Hwf. unfold static_finalize.
  destruct (static_state_eqb_spec (currentState s) Uploading) as [Hst|Hst]; simpl negb; cbv iota.
  2: { eexists _, _, _. split; [done|]. by split; [constructor|]. }
  assert (∀ st, st = Failed ∨ st = Ready → static_wf (s <| currentState := st |>)) as Hch
    by (intros; by apply change_state).
  destruct (CudaDeviceGuard_construct _ w) as [g w1].
  destruct (negb (guard_ok g));
    [|destruct (drainStream s w1) as [[] w2]]; (eexists _, _, _; split; [done|]);
    (split_and!; [rewrite Hst; constructor|apply Hch; auto|done]).
Qed.

Lemma apply_result call s w :
  static_wf s →
  ∃ ok s' w', static_apply call s w = (ok, s', w')
    ∧ transition call ok (currentState s) (currentState s') ∧ static_wf s'.
Proof using All.
  intros Hwf. destruct call as [g dz dt|t p n o| |]; simpl.
  - destruct (initialize_result g dz dt s w Hwf) as (ok & s' & w' & ? & ? & ? & _ & _).
    by eexists _, _, _.
  - by apply upload_result.
  - destruct (finalize_result s w Hwf) as (ok & s' & w' & ? & ? & ? & _). by eexists _, _, _.
  - destruct (release_result s w) as (ok & s' & w' & -> & [->|(-> & Hleft & Hhas & Hst)]).
    + eexists _, _, _. split; [done|]. split; [constructor|apply default_wf].
    + eexists _, _, _. split; [done|]. rewrite Hst. split; [constructor|by eapply left_wf].
Qed.

Lemma reachable_wf s : static_reachable s → static_wf s.
Proof using All.
  induction 1 as [|s call w ok s' w' _ IH Hrun]; [apply default_wf|].
  destruct (apply_result call s w IH) as (? & ? & ? & Heq & _ & ?). congruence.
Qed.

(** The life of the static buffers, whatever the calls and the machine: an
    empty object holds nothing, a region is exposed exactly when the data is
    ready and the region has a size, every call follows the diagram of the
    states, and a release leaves nothing, or fails and leaves exactly what
    could not be freed. *)
Theorem static_data_lifecycle s :
  static_reachable s →
  (static_state s = StaticEmpty → s = StaticGpuData_default)
  ∧ (∀ t, static_data s t ≠ nullptr ↔ static_state s = Ready ∧ static_bytes s t ≠ 0)
  ∧ ∀ call w, ∃ ok s' w', static_apply call s w = (ok, s', w')
      ∧ transition call ok (static_state s) (static_state s')
      ∧ (call = CallRelease →
           s' = StaticGpuData_default
           ∨ ok = false ∧ left_by s s' ∧ hasResources s' = true ∧ static_state s' = Failed).
Proof using All.
  intros Hs. apply reachable_wf in Hs. unfold static_state. split_and!.
  - by apply wf_empty.
  - intros t. unfold static_data, static_bytes.
    destruct (static_state_eqb_spec (currentState s) Ready) as [Hst|Hst].
    + destruct (wf_open _ Hs (or_intror Hst)) as [Hb0 Hb1]. unfold backed in *.
      destruct t; simpl; rewrite ?Hb0, ?Hb1; naive_solver.
    + destruct t; simpl; naive_solver.
  - intros call w. destruct (apply_result call s w Hs) as (ok & s' & w' & Hrun & ? & _).
    eexists _, _, _. split_and!; [done..|]. intros ->.
    destruct (release_result s w) as (? & ? & ? & Hrun' & ?). simpl in Hrun. rewrite Hrun' in Hrun. by simplify_eq.
Qed.

End lifecycle.

