(* ===== verification/StaticData.v ===== *)
(** [StaticData] ([src/StaticData/StaticData.h] and [.cpp]): the owner, for one
    copy of the graph, of the frame layout, the payload cache and the static
    buffers. *)
From S2P Require Import Prelude.
From S2P Require Import Platform.
From S2P Require Import CudaDeviceGuard.
From S2P Require Import GpuDataKey.
From S2P Require Import CacheTypes.
From S2P Require Import GpuDataCache.
From S2P Require Import CacheLifecycle.
From S2P Require Import GpuTopology.
From S2P Require Import GpuContextManager.
From S2P Require Import StaticGpuData.
#[local] Open Scope N_scope.

(** [src/Types/AlgoRuntimeInfo.h] *)
Record AlgoRuntimeInfo := mkRuntime {
  runtime_inBytes : size_t;
  sizeFactor : Z;
  frameW : Z;
  frameH : Z;
  frameDtype : Z;
}.

(** [AlgoRuntimeInfo()] *)
Definition AlgoRuntimeInfo_default : AlgoRuntimeInfo := mkRuntime 0 0 0 0 0.

Record StaticDataConfig := mkStaticDataConfig {
  runtime : AlgoRuntimeInfo;
  detectionZoneBytes : size_t;
  distortionBytes : size_t;
  gpuCacheEntries : size_t;
  gpuCacheWaitTimeout : Z;
  gpuCacheEvictionPolicy : CacheEvictionPolicy;
}.

Record StaticData := mkStaticData {
  gpuDataCache : GpuDataCache;
  gpuStaticData : StaticGpuData;
  frameRuntime : AlgoRuntimeInfo;
  data_initialized : bool;
}.

Definition StaticData_eta s :=
  mkStaticData (gpuDataCache s) (gpuStaticData s) (frameRuntime s) (data_initialized s).
#[export] Instance set_gpuDataCache : Setter gpuDataCache := ltac:(make_setter gpuDataCache StaticData_eta).
#[export] Instance set_gpuStaticData : Setter gpuStaticData := ltac:(make_setter gpuStaticData StaticData_eta).
#[export] Instance set_frameRuntime : Setter frameRuntime := ltac:(make_setter frameRuntime StaticData_eta).
#[export] Instance set_data_initialized : Setter data_initialized := ltac:(make_setter data_initialized StaticData_eta).
#[global] Arguments set_gpuDataCache _ _ / : assert.
#[global] Arguments set_gpuStaticData _ _ / : assert.
#[global] Arguments set_frameRuntime _ _ / : assert.
#[global] Arguments set_data_initialized _ _ / : assert.

(** [StaticData()] at an address: the cache's leases point back to it. *)
Definition StaticData_default (cache : ptr) : StaticData :=
  mkStaticData (GpuDataCache_default cache) StaticGpuData_default AlgoRuntimeInfo_default false.

(** ** Queries *)

Definition matchesRuntime (metadata : FrameMetadata) (runtime : AlgoRuntimeInfo) : bool :=
  negb (md_bytes metadata =? 0) && (md_bytes metadata =? runtime_inBytes runtime)
  && (md_width metadata =? frameW runtime)%Z && (md_height metadata =? frameH runtime)%Z
  && (md_dtype metadata =? frameDtype runtime)%Z.

Definition staticGpuData (s : StaticData) (type : StaticGpuDataType) : ptr :=
  if data_initialized s then static_data (gpuStaticData s) type else nullptr.

Definition staticGpuDataBytes (s : StaticData) (type : StaticGpuDataType) : size_t :=
  static_bytes (gpuStaticData s) type.

Definition cacheStatisticsSnapshot (s : StaticData) : CacheStatistics := statistics (gpuDataCache s).

Definition cacheFailed (s : StaticData) : bool := failed (gpuDataCache s).

Definition execute (s : StaticData) : bool :=
  data_initialized s && static_state_eqb (static_state (gpuStaticData s)) Ready.

Definition isInitialized (s : StaticData) : bool := data_initialized s.

Definition gpuCacheEntryCount (s : StaticData) : size_t := vsize (entries (gpuDataCache s)).

Definition validateFrame (s : StaticData) (metadata : FrameMetadata) : bool :=
  execute s && matchesRuntime metadata (frameRuntime s).

Section operations.
Context `{GpuDriver}.

(** ** The cache, behind the frame's layout *)

(** A call of the cache on [gpuDataCache]. *)
Definition on_cache {A} (m : M A) (s : StaticData) : option (A * StaticData) :=
  '(x, c) ← m (gpuDataCache s);
  Some (x, s <| gpuDataCache := c |>).

Definition data_getCacheData (metadata : FrameMetadata) (request : GpuCacheRequest)
    (started now waitStarted : Z) (s : StaticData) : option (LookupResult * StaticData) :=
  if negb (validateFrame s metadata) then Some (Returned GpuDataAccess_default, s)
  else on_cache (getCacheData metadata request started now waitStarted) s.

Definition data_resetCache (output : option CacheStatistics) (s : StaticData) :
    option ((bool * option CacheStatistics) * StaticData) :=
  if data_initialized s && negb (runtime_inBytes (frameRuntime s) =? 0)
  then on_cache (resetCache output) s
  else Some ((false, output), s).

(** ** Static data *)

Definition uploadStaticData (type : StaticGpuDataType) (source : ptr) (bytes offset : size_t)
    (s : StaticData) (w : world) : bool * StaticData * world :=
  if data_initialized s then
    let '(ok, d, w) := static_upload type source bytes offset (gpuStaticData s) w in
    (ok, s <| gpuStaticData := d |>, w)
  else (false, s, w).

Definition finalizeStaticData (s : StaticData) (w : world) : bool * StaticData * world :=
  if data_initialized s then
    let '(ok, d, w) := static_finalize (gpuStaticData s) w in
    (ok, s <| gpuStaticData := d |>, w)
  else (false, s, w).

(** ** Release *)

Definition data_release (s : StaticData) (w : world) : bool * StaticData * world :=
  let '(released, c, w) := release (gpuDataCache s) w in
  let s := s <| gpuDataCache := c |> in
  if negb released then (false, s, w)
  else
    let s := s <| data_initialized := false |> in
    let '(ok, d, w) := static_release (gpuStaticData s) w in
    let s := s <| gpuStaticData := d |> in
    let s :=
      if static_state_eqb (static_state d) StaticEmpty
      then s <| frameRuntime := AlgoRuntimeInfo_default |> else s in
    (ok, s, w).

(** [~StaticData()]: the body, then the members in reverse order; the cache's
    destructor is another release. *)
Definition data_destruct (s : StaticData) (w : world) : world :=
  let '(_, s, w) := data_release s w in
  let w := static_destruct (gpuStaticData s) w in
  let '(_, _, w) := release (gpuDataCache s) w in w.

(** ** Initialization *)

Definition init_rejects (config : StaticDataConfig) (s : StaticData) : bool :=
  data_initialized s || negb (static_state_eqb (static_state (gpuStaticData s)) StaticEmpty)
  || cache_initialized (gpuDataCache s) || negb (runtime_inBytes (frameRuntime s) =? 0)
  || (runtime_inBytes (runtime config) =? 0).

(** The bytes of the cache and of everything; [None] where the sum overflows. *)
Definition plannedBytes (config : StaticDataConfig) : option (size_t * size_t) :=
  let inBytes := runtime_inBytes (runtime config) in
  if negb (gpuCacheEntries config =? 0) && (SIZE_MAX / gpuCacheEntries config <? inBytes)
  then None
  else
    let cacheGpuBytes := mul64 (gpuCacheEntries config) inBytes in
    if (sub64 SIZE_MAX cacheGpuBytes <? detectionZoneBytes config)
       || (sub64 (sub64 SIZE_MAX cacheGpuBytes) (detectionZoneBytes config)
             <? distortionBytes config)
    then None
    else
      Some (cacheGpuBytes,
        add64 (add64 cacheGpuBytes (detectionZoneBytes config)) (distortionBytes config)).

(** The scope that compares the plan with the free memory of the GPU. *)
Definition enoughMemory (gpuId : Z) (totalGpuBytes : size_t) (w : world) : bool * world :=
  if negb (totalGpuBytes =? 0) then
    let '(deviceGuard, w) := CudaDeviceGuard_construct gpuId w in
    if negb (guard_ok deviceGuard) then (false, CudaDeviceGuard_destruct deviceGuard w)
    else
      let '(status, freeBytes, totalBytes, w) := cudaMemGetInfo w in
      let w := CudaDeviceGuard_destruct deviceGuard w in
      (cuda_ok status && negb (freeBytes <? totalGpuBytes), w)
  else (true, w).

(** [release(); return false;] *)
Definition init_failed (s : StaticData) (w : world) : bool * StaticData * world :=
  let '(_, s, w) := data_release s w in (false, s, w).

Definition data_init (config : StaticDataConfig) (infra : GpuInfra) (s : StaticData) (w : world) :
    option (bool * StaticData * world) :=
  if init_rejects config s then Some (false, s, w)
  else
    '(resolved, gpuIds) ← gpuIdsForCurrentNumaNode infra w;
    if negb resolved then Some (false, s, w)
    else
      match plannedBytes config with
      | None => Some (false, s, w)
      | Some (_, totalGpuBytes) =>
          gpuId ← head gpuIds;
          let '(enough, w) := enoughMemory gpuId totalGpuBytes w in
          if negb enough then Some (false, s, w)
          else
            '(ok, c, w) ← initialize (gpuDataCache s) gpuIds (runtime_inBytes (runtime config))
                            (gpuCacheEntries config) (gpuCacheWaitTimeout config)
                            (gpuCacheEvictionPolicy config) w;
            let s := s <| gpuDataCache := c |> in
            if negb ok then Some (false, s, w)
            else
              let '(ok, d, w) :=
                static_initialize gpuId (detectionZoneBytes config) (distortionBytes config)
                  (gpuStaticData s) w in
              let s := s <| gpuStaticData := d |> in
              if negb ok then Some (init_failed s w)
              else
                let '(ok, d, w) :=
                  if (detectionZoneBytes config =? 0) && (distortionBytes config =? 0)
                  then static_finalize d w else (true, d, w) in
                let s := s <| gpuStaticData := d |> in
                if negb ok then Some (init_failed s w)
                else
                  Some (true,
                    s <| frameRuntime := runtime config |> <| data_initialized := true |>, w)
      end.

End operations.
