(* ===== verification/StaticOwner.v ===== *)
(** [StaticData] in use: its owner's calls, the accesses its cache has handed out
    and the requests that sleep in it.  The part that concerns the cache is an
    execution of [CacheProtocol]; the owner adds the frame's layout and the
    static buffers, and keeps them consistent with the cache. *)
From S2P Require Import Prelude.
From S2P Require Import Platform.
From S2P Require Import GpuDataKey.
From S2P Require Import GpuResidencyTable.
From S2P Require Import CudaDeviceGuard.
From S2P Require Import GpuDataCacheEntry.
From S2P Require Import CacheTypes.
From S2P Require Import GpuDataCache.
From S2P Require Import GpuDataAccess.
From S2P Require Import CacheLifecycle.
From S2P Require Import CacheSpec.
From S2P Require Import CacheRefinement.
From S2P Require Import CacheCriticalSections.
From S2P Require Import CacheLookup.
From S2P Require Import CacheCompletion.
From S2P Require Import CacheLeases.
From S2P Require Import CacheLifetime.
From S2P Require Import CacheProtocol.
From S2P Require Import CacheService.
From S2P Require Import GpuTopology.
From S2P Require Import GpuContextManager.
From S2P Require Import RegistryInvariant.
From S2P Require Import RegistryBehaviour.
From S2P Require Import StaticGpuData.
From S2P Require Import StaticLifecycle.
From S2P Require Import StaticData.
#[local] Open Scope N_scope.

(** ** The layout of a manager in service *)

(** What a step inside service never changes. *)
Definition same_layout (d d' : Directory) : Prop := d_gpu d' = d_gpu d ∧ d_bytes d' = d_bytes d.

Section layout.
Context `{Platform}.

Lemma attempt_layout p now waitStarted d : same_layout d (snd (attempt p now waitStarted d)).
Proof.
  unfold attempt. destruct (d_failed d); [done|].
  assert (∀ o, same_layout d (snd (obstructed o p now waitStarted d))) as Hobs.
  { intros o. unfold obstructed. destruct (pending_blocked p), o; simpl; case_match; simpl;
      by destruct (pending_waited p). }
  destruct (d_index d !! md_key (pending_metadata p)) as [i|].
  - destruct (vat (d_cells d) i) as [[q [|md|md readers discard]]|] eqn:Hq; try done;
      case_decide; try done. cbn [snd].
    by rewrite (set_use_cells _ i q (CacheSpec.Ready md readers discard)).
  - destruct (victim d) as [[i wasEmpty]|].
    + destruct (vat (d_cells d) i) as [[q u]|] eqn:Hq; [|done].
      destruct (reserve_frame d i wasEmpty (pending_metadata p) q u Hq) as (_ & ? & ? & _). done.
    + by destruct (vsize (d_cells d) =? 0).
Qed.

Lemma end_access_layout a succeeded discardNow d :
  holds_lease d a → same_layout d (end_access a succeeded discardNow d).
Proof.
  intros (_ & _ & _ & Hm). unfold end_access. destruct (accessStatus a); [done| | |done].
  - destruct Hm as (md & readers & discard & Hq & _).
    destruct (finish_hit_frame d _ _ _ _ _ discardNow Hq) as (_ & ? & ? & _). done.
  - destruct Hm as (md & Hq & _).
    destruct (finish_fill_frame d _ _ _ succeeded discardNow Hq) as (_ & ? & ? & _). done.
Qed.

Lemma dir_step_layout d lv sl d' lv' sl' : dir_step d lv sl d' lv' sl' → same_layout d d'.
Proof.
  destruct 1 as [|md request started now waitStarted r|n p woken now waitStarted Hp r| |n a| ]; try done.
  - subst r. unfold request_access. case_match; [apply attempt_layout|done].
  - subst r. unfold resume_access. 
    destruct (attempt_layout (woken_request p woken) now waitStarted (end_wait p woken d)) as [Hg Hb].
    by split; [rewrite Hg|rewrite Hb].
  - by apply end_access_layout.
Qed.

Lemma represents_bytes c d : represents c d → cache_dataBytes c = d_bytes d.
Proof. by intros (_ & t & _ & ->). Qed.

(** A manager found in service after a call that is not [initialize] was in
    service, with the same payload size. *)
Lemma perform_keeps_layout s act s' :
  invariant s → is_initialize act = false → perform s act = Some s' →
  cache_initialized (manager s') = true →
  cache_initialized (manager s) = true ∧ cache_dataBytes (manager s') = cache_dataBytes (manager s).
Proof.
  intros (Hself & Hor) Hact Hrun Hon. destruct Hor as [(d & Hc & Hag)|Hout].
  - destruct (in_service_step s act d Hc Hag) as (s1 & Hrun1 & Hp). simplify_eq.
    destruct Hp as [(_ & d' & Hc' & _ & Hstep)|(_ & _ & _ & _ & Hd & _)].
    + rewrite (represents_bytes _ _ Hc), (represents_bytes _ _ Hc').
      split; [by destruct Hc as (_ & t & _ & ->)|]. apply (dir_step_layout _ _ _ _ _ _ Hstep).
    + by rewrite (dormant_initialized _ Hd) in Hon.
  - destruct (out_of_service_step s act) as (s1 & Hrun1 & _ & Hd & _); [done|by intros * ->|].
    simplify_eq. by rewrite (dormant_initialized _ Hd) in Hon.
Qed.

End layout.

(** ** The plan of an initialization *)

Definition config_in_range (config : StaticDataConfig) : Prop :=
  runtime_inBytes (runtime config) < two64 ∧ gpuCacheEntries config < two64
  ∧ detectionZoneBytes config < two64 ∧ distortionBytes config < two64.

(** The bytes the configuration asks for, over the integers. *)
Definition wanted_bytes (config : StaticDataConfig) : N :=
  gpuCacheEntries config * runtime_inBytes (runtime config)
  + detectionZoneBytes config + distortionBytes config.

(** The plan is the exact sum, and is refused exactly when it does not fit. *)
Lemma plannedBytes_spec config :
  config_in_range config →
  plannedBytes config =
    if decide (wanted_bytes config < two64)
    then Some (gpuCacheEntries config * runtime_inBytes (runtime config), wanted_bytes config)
    else None.
Proof.
  intros (Hb & He & Hz & Ht). unfold plannedBytes, wanted_bytes.
  set (e := gpuCacheEntries config) in *. set (b := runtime_inBytes (runtime config)) in *.
  set (z := detectionZoneBytes config) in *. set (t := distortionBytes config) in *.
  assert (negb (e =? 0) && (SIZE_MAX / e <? b) = negb (e * b <? two64)) as ->.
  { destruct (N.eqb_spec e 0) as [->|Hne]; simpl; [done|].
    rewrite product_over, N.mul_comm by lia. done. }
  destruct (N.ltb_spec (e * b) two64) as [Hs|Hs]; simpl.
  - assert (mul64 e b = e * b) as -> by (by apply wrap64_small).
    rewrite (sub64_small SIZE_MAX (e * b)) by (unfold SIZE_MAX, two64 in *; lia).
    destruct (N.ltb_spec (SIZE_MAX - e * b) z) as [Hlt|Hge]; simpl.
    { rewrite decide_False; [done|]. unfold SIZE_MAX, two64 in *. lia. }
    rewrite sub64_small by (unfold SIZE_MAX, two64 in *; lia).
    destruct (N.ltb_spec (SIZE_MAX - e * b - z) t) as [Hlt'|Hge']; simpl.
    { rewrite decide_False; [done|]. unfold SIZE_MAX, two64 in *. lia. }
    rewrite decide_True by (unfold SIZE_MAX, two64 in *; lia).
    rewrite !add64_small; [done|..]; rewrite ?add64_small; unfold SIZE_MAX, two64 in *; lia.
  - rewrite decide_False; [done|]. lia.
Qed.

(** ** The system *)
Section owner.
Context `{HP : Platform} `{!PlatformLaws} `{!GpuDriver}.

Record Owner := mkOwner {
  owned : StaticData;
  owner_live : list GpuDataAccess;
  owner_asleep : list PendingRequest;
  owner_world : world;
}.

Inductive owner_action :=
  | OwnInit (config : StaticDataConfig) (infra : GpuInfra)
  | OwnUpload (type : StaticGpuDataType) (source : ptr) (bytes offset : size_t)
  | OwnFinalize
  | OwnRequest (md : FrameMetadata) (request : GpuCacheRequest) (started now waitStarted : Z)
  | OwnReset (output : option CacheStatistics)
  | OwnLease (act : action)
  | OwnRelease.

(** The cache of the owner, as an execution of its protocol sees it. *)
Definition cache_system (o : Owner) : System :=
  mkSystem (gpuDataCache (owned o)) (owner_live o) (owner_asleep o) (owner_world o).

Definition with_cache_system (o : Owner) (y : System) : Owner :=
  mkOwner ((owned o) <| gpuDataCache := manager y |>) (live y) (asleep y) (outside y).

(** What the holders of accesses and the sleepers do by themselves. *)
Definition leaseholder (act : action) : bool :=
  match act with
  | Wake _ _ _ _ | SyncFailure | Complete _ _ _ | Abandon _ => true
  | _ => false
  end.

Definition owner_perform (o : Owner) (act : owner_action) : option Owner :=
  let 'mkOwner s lv sl w := o in
  match act with
  | OwnInit config infra =>
      '(_, s, w) ← data_init config infra s w; Some (mkOwner s lv sl w)
  | OwnUpload type source bytes offset =>
      let '(_, s, w) := uploadStaticData type source bytes offset s w in Some (mkOwner s lv sl w)
  | OwnFinalize =>
      let '(_, s, w) := finalizeStaticData s w in Some (mkOwner s lv sl w)
  | OwnRequest md request started now waitStarted =>
      if negb (has_room (cache_system o)) then Some o
      else
        '(r, s) ← data_getCacheData md request started now waitStarted s;
        Some (mkOwner s (granted r lv) (sleeping r sl) w)
  | OwnReset output =>
      '(_, s) ← data_resetCache output s; Some (mkOwner s lv sl w)
  | OwnLease act =>
      if leaseholder act then
        y ← perform (cache_system o) act; Some (with_cache_system o y)
      else Some o
  | OwnRelease =>
      let '(_, s, w) := data_release s w in Some (mkOwner s lv sl w)
  end.

(** The registry an initialization asks is one that a session of calls led to,
    and the sizes it is given are [size_t]s. *)
Definition legal (act : owner_action) : Prop :=
  match act with OwnInit config infra => registry infra ∧ config_in_range config | _ => True end.

Inductive owner_reachable : Owner → Prop :=
  | owner_starts this w :
      this ≠ nullptr → owner_reachable (mkOwner (StaticData_default this) [] [] w)
  | owner_steps o act o' :
      owner_reachable o → legal act → owner_perform o act = Some o' → owner_reachable o'.

(** The parts agree: with each other, and with the flag. *)
Record coherent (o : Owner) : Prop := {
  coherent_cache : invariant (cache_system o);
  coherent_static : static_wf (gpuStaticData (owned o));
  coherent_on : data_initialized (owned o) = true →
    runtime_inBytes (frameRuntime (owned o)) ≠ 0
    ∧ static_state (gpuStaticData (owned o)) ≠ StaticEmpty
    ∧ (cache_initialized (gpuDataCache (owned o)) = true →
         cache_dataBytes (gpuDataCache (owned o)) = runtime_inBytes (frameRuntime (owned o)));
  coherent_off : data_initialized (owned o) = false →
    out_of_service (cache_system o)
    ∧ (static_state (gpuStaticData (owned o)) = StaticEmpty →
         frameRuntime (owned o) = AlgoRuntimeInfo_default);
}.

Lemma start_coherent this w :
  this ≠ nullptr → coherent (mkOwner (StaticData_default this) [] [] w).
Proof.
  intros Hthis. split; simpl.
  - by apply (start_invariant this w).
  - apply default_wf.
  - done.
  - intros _. split; [|done]. by apply (start_out_of_service this w).
Qed.

(** *** The cache steps by itself *)

Lemma step_coherent s lv sl w act y :
  coherent (mkOwner s lv sl w) → is_initialize act = false → act ≠ Release →
  perform (mkSystem (gpuDataCache s) lv sl w) act = Some y →
  coherent (mkOwner (s <| gpuDataCache := manager y |>) (live y) (asleep y) (outside y)).
Proof using All.
  intros Hco Hact Hnr Hrun. pose proof (coherent_cache _ Hco) as Hinv.
  destruct (perform_invariant _ act Hinv) as (y' & Hrun' & Hinv').
  assert (y' = y) as -> by (unfold cache_system in Hrun'; simpl in Hrun'; congruence).
  destruct y as [c' lv' sl' w']. split; simpl.
  - exact Hinv'.
  - apply (coherent_static _ Hco).
  - intros Hon. destruct (coherent_on _ Hco Hon) as (? & ? & Hbytes). split_and!; try done.
    intros Hc'. destruct (perform_keeps_layout _ _ _ Hinv Hact Hrun Hc') as [Hc Hkeep].
    simpl in *. rewrite Hkeep. by apply Hbytes.
  - intros Hoff. destruct (coherent_off _ Hco Hoff) as (Hout & ?). split; [|done].
    destruct (out_of_service_step _ act Hout) as (y & Hrun1 & Hout1); [by intros * ->|].
    unfold cache_system in *. simpl in *. by simplify_eq.
Qed.

(** *** The static buffers step by themselves *)

Lemma static_coherent s lv sl w d w' :
  coherent (mkOwner s lv sl w) → static_wf d →
  (data_initialized s = true → static_state d ≠ StaticEmpty) →
  (data_initialized s = false → d = gpuStaticData s) →
  coherent (mkOwner (s <| gpuStaticData := d |>) lv sl w').
Proof.
  intros Hco Hd Hon Hoff. split; simpl.
  - apply (coherent_cache _ Hco).
  - done.
  - intros Hi. destruct (coherent_on _ Hco Hi) as (? & _ & ?). split_and!; auto.
  - intros Hi. rewrite (Hoff Hi). apply (coherent_off _ Hco Hi).
Qed.

Lemma transition_not_empty call ok st st' :
  transition call ok st st' → st ≠ StaticEmpty → call ≠ CallRelease → st' ≠ StaticEmpty.
Proof. by destruct 1. Qed.

(** An upload or a finalization keeps the parts in agreement. *)
Lemma static_call_coherent call s lv sl w ok d w' :
  coherent (mkOwner s lv sl w) → data_initialized s = true → call ≠ CallRelease →
  static_apply call (gpuStaticData s) w = (ok, d, w') →
  coherent (mkOwner (s <| gpuStaticData := d |>) lv sl w').
Proof using All.
  intros Hco Hon Hcall Hrun.
  destruct (apply_result call _ w (coherent_static _ Hco)) as (? & ? & ? & Hrun' & Htr & Hwf).
  simpl in Hrun'. rewrite Hrun in Hrun'. simplify_eq.
  apply (static_coherent s lv sl w); [done..| |by rewrite Hon].
  intros _. eapply transition_not_empty; [exact Htr| |done]. by apply (coherent_on _ Hco).
Qed.

(** *** Release *)

(** Nothing of the owner is left: it is as constructed, but for what the cache
    keeps for its statistics. *)
Definition released_owner (s : StaticData) : Prop :=
  pristine (gpuDataCache s) ∧ gpuStaticData s = StaticGpuData_default
  ∧ frameRuntime s = AlgoRuntimeInfo_default ∧ data_initialized s = false.

(** What a release relies on: less than agreement, as it ends an initialization
    that failed half way. *)
Record loose (o : Owner) : Prop := {
  loose_cache : invariant (cache_system o);
  loose_static : static_wf (gpuStaticData (owned o));
  loose_on : data_initialized (owned o) = true →
    runtime_inBytes (frameRuntime (owned o)) ≠ 0
    ∧ static_state (gpuStaticData (owned o)) ≠ StaticEmpty
    ∧ (cache_initialized (gpuDataCache (owned o)) = true →
         cache_dataBytes (gpuDataCache (owned o)) = runtime_inBytes (frameRuntime (owned o)));
  loose_off : data_initialized (owned o) = false →
    static_state (gpuStaticData (owned o)) = StaticEmpty →
    frameRuntime (owned o) = AlgoRuntimeInfo_default;
}.

Lemma coherent_loose o : coherent o → loose o.
Proof.
  intros Hco. split; [apply Hco|apply Hco|apply Hco|]. intros Hoff. by apply (coherent_off _ Hco).
Qed.

Lemma data_release_loose s lv sl w :
  loose (mkOwner s lv sl w) →
  ∃ ok s' w', data_release s w = (ok, s', w')
    ∧ (ok = false ∧ s' = s ∧ w' = w ∧ (lv ≠ [] ∨ sl ≠ [])
       ∨ coherent (mkOwner s' lv sl w')
         ∧ lv = [] ∧ sl = [] ∧ out_of_service (cache_system (mkOwner s' lv sl w'))
         ∧ (ok = true → released_owner s')
         ∧ (data_initialized s = false → data_initialized s' = false)).
Proof using All.
  intros Hco. unfold data_release.
  destruct (release_from _ (loose_cache _ Hco)) as (ok & c & w1 & Hrun & Hor).
  unfold cache_system in Hrun. simpl in Hrun, Hor. rewrite Hrun.
  destruct Hor as [(-> & -> & -> & Hout)|(-> & -> & Hout & Hpris)].
  { exists false, s, w. split; [by destruct s|by left]. }
  assert (coherent (mkOwner (s <| gpuDataCache := c |>) [] [] w1)) as Hco1.
  { split; simpl; [split; [apply Hout|right; apply Hout]|apply (loose_static _ Hco)| |].
    - intros Hon. destruct (loose_on _ Hco Hon) as (? & ? & _). split_and!; try done.
      intros Hc. destruct Hout as (_ & Hd & _). simpl in Hd. by rewrite (dormant_initialized _ Hd) in Hc.
    - intros Hoff. split; [done|]. by apply (loose_off _ Hco Hoff). }
  destruct ok; simpl negb; cbv iota.
  2: { eexists _, _, _. split; [done|]. right. by split_and!. }
  destruct (release_result (gpuStaticData s) w1) as (ok & d & w2 & Hrel & Hres).
  simpl gpuStaticData. rewrite Hrel.
  assert (static_wf d) as Hd.
  { destruct Hres as [->|(_ & ? & ? & ?)]; [apply default_wf|].
    by eapply left_wf; [apply (loose_static _ Hco)|..]. }
  eexists _, _, _. split; [done|]. right. unfold static_state.
  destruct (static_state_eqb_spec (currentState d) StaticEmpty) as [Hst|Hst].
  - assert (d = StaticGpuData_default) as -> by (by apply wf_empty).
    split; [|split_and!; try done; intros _; by split_and!; [apply Hpris|..]].
    split; simpl; [apply Hco1|done|done|]. intros _. by split.
  - split; [|split_and!; try done; intros ->].
    + split; simpl; [apply Hco1|done|done|]. intros _. by split.
    + by destruct Hres as [->|(? & _)].
Qed.

Lemma data_release_result s lv sl w :
  coherent (mkOwner s lv sl w) →
  ∃ ok s' w', data_release s w = (ok, s', w') ∧ coherent (mkOwner s' lv sl w')
    ∧ (ok = false ∧ s' = s ∧ w' = w ∧ (lv ≠ [] ∨ sl ≠ [])
       ∨ lv = [] ∧ sl = [] ∧ out_of_service (cache_system (mkOwner s' lv sl w'))
         ∧ (ok = true → released_owner s')).
Proof using All.
  intros Hco. destruct (data_release_loose s lv sl w) as (ok & s' & w' & Hrun & Hor).
  { by apply coherent_loose. }
  exists ok, s', w'. split; [done|]. destruct Hor as [(-> & -> & -> & ?)|(? & ? & ? & ? & ? & _)].
  - split; [done|by left].
  - split; [done|by right].
Qed.

(** *** Initialization *)

(** What a successful initialization sets up: the cache, empty, with the
    requested entries of the frame's size, and the static regions. *)
Definition set_up (config : StaticDataConfig) (s s' : StaticData) : Prop :=
  (∃ gpu cells, (0 ≤ gpu)%Z ∧ vsize cells = gpuCacheEntries config ∧ fresh_cells cells
     ∧ represents (gpuDataCache s')
         (initial_directory (gpuDataCache s) gpu (runtime_inBytes (runtime config))
            (gpuCacheWaitTimeout config) (gpuCacheEvictionPolicy config) cells))
  ∧ frameRuntime s' = runtime config ∧ data_initialized s' = true
  ∧ staticGpuDataBytes s' DetectionZones = detectionZoneBytes config
  ∧ staticGpuDataBytes s' DistortionTables = distortionBytes config
  ∧ execute s' = (detectionZoneBytes config =? 0) && (distortionBytes config =? 0).

Lemma init_accepts config s :
  init_rejects config s = false →
  data_initialized s = false ∧ static_state (gpuStaticData s) = StaticEmpty
  ∧ cache_initialized (gpuDataCache s) = false ∧ runtime_inBytes (runtime config) ≠ 0.
Proof.
  unfold init_rejects. rewrite !orb_false_iff, negb_false_iff, N.eqb_neq.
  intros ((((? & Hst) & ?) & _) & ?). by destruct (static_state_eqb_spec (static_state (gpuStaticData s)) StaticEmpty).
Qed.

Lemma init_failed_result s w :
  loose (mkOwner s [] [] w) → data_initialized s = false →
  ∃ s' w', init_failed s w = (false, s', w') ∧ coherent (mkOwner s' [] [] w')
    ∧ data_initialized s' = false.
Proof using All.
  intros Hl Hoff. unfold init_failed.
  destruct (data_release_loose s [] [] w Hl) as (ok & s' & w' & -> & Hor). exists s', w'.
  split; [done|]. destruct Hor as [(_ & _ & _ & [|])|(? & _ & _ & _ & _ & ?)]; [done..|].
  split; auto.
Qed.

Lemma static_initialize_transition gpu dz dt s w ok s' w' :
  static_wf s → currentState s = StaticEmpty →
  static_initialize gpu dz dt s w = (ok, s', w') →
  static_wf s' ∧ (ok = true → currentState s' = Uploading
    ∧ buffer_capacity (fst (buffers s')) = dz ∧ buffer_capacity (snd (buffers s')) = dt)
  ∧ (ok = false → currentState s' = Failed).
Proof using All.
  intros Hwf Hst Hrun.
  destruct (initialize_result gpu dz dt s w Hwf) as (? & ? & ? & Hrun' & Htr & Hwf' & _ & Hsize).
  rewrite Hrun in Hrun'. simplify_eq. rewrite Hst in Htr. split; [done|].
  inversion Htr; subst; try done; split; try done; auto.
Qed.

(** The tail of an initialization, from the allocation of the static regions. *)
Definition init_regions (config : StaticDataConfig) (gpuId : Z) (s : StaticData) (w : world) :
    bool * StaticData * world :=
  let '(ok, d, w) :=
    static_initialize gpuId (detectionZoneBytes config) (distortionBytes config)
      (gpuStaticData s) w in
  let s := s <| gpuStaticData := d |> in
  if negb ok then init_failed s w
  else
    let '(ok, d, w) :=
      if (detectionZoneBytes config =? 0) && (distortionBytes config =? 0)
      then static_finalize d w else (true, d, w) in
    let s := s <| gpuStaticData := d |> in
    if negb ok then init_failed s w
    else (true, s <| frameRuntime := runtime config |> <| data_initialized := true |>, w).

(** A finalization that follows right away leaves the regions as they are. *)
Lemma finalize_opened d dz dt w :
  static_wf d → currentState d = Uploading →
  ∃ ok d' w', (if (dz =? 0) && (dt =? 0) then static_finalize d w else (true, d, w)) = (ok, d', w')
    ∧ static_wf d' ∧ buffers d' = buffers d ∧ currentState d' ≠ StaticEmpty
    ∧ (ok = true → currentState d' = if (dz =? 0) && (dt =? 0) then Ready else Uploading).
Proof.
  intros Hwf Hst. destruct ((dz =? 0) && (dt =? 0)).
  - destruct (finalize_result d w Hwf) as (ok & d' & w' & -> & Htr & ? & ?).
    exists ok, d', w'. split_and!; try done; rewrite Hst in Htr; by inversion Htr.
  - exists true, d, w. by rewrite Hst.
Qed.

Lemma init_regions_result config gpuId s w :
  (∀ d w', static_wf d → loose (mkOwner (s <| gpuStaticData := d |>) [] [] w')) →
  static_wf (gpuStaticData s) → static_state (gpuStaticData s) = StaticEmpty →
  data_initialized s = false → runtime_inBytes (runtime config) ≠ 0 →
  cache_dataBytes (gpuDataCache s) = runtime_inBytes (runtime config) →
  ∃ ok s' w', init_regions config gpuId s w = (ok, s', w') ∧ coherent (mkOwner s' [] [] w')
    ∧ (ok = true → gpuDataCache s' = gpuDataCache s ∧ frameRuntime s' = runtime config
        ∧ data_initialized s' = true
        ∧ staticGpuDataBytes s' DetectionZones = detectionZoneBytes config
        ∧ staticGpuDataBytes s' DistortionTables = distortionBytes config
        ∧ execute s' = (detectionZoneBytes config =? 0) && (distortionBytes config =? 0))
    ∧ (ok = false → data_initialized s' = false).
Proof using All.
  intros Hloose Hwf Hst Hoff Hbytes Hsize. unfold init_regions.
  destruct (static_initialize gpuId _ _ _ w) as [[ok d] w1] eqn:Hrun.
  destruct (static_initialize_transition _ _ _ _ _ _ _ _ Hwf Hst Hrun) as (Hd & Hok & _).
  assert (∀ d w', static_wf d → ∃ ok s' w'', init_failed (s <| gpuStaticData := d |>) w' = (ok, s', w'')
    ∧ coherent (mkOwner s' [] [] w'') ∧ ok = false ∧ data_initialized s' = false) as Hfailed.
  { intros d' w' Hd'. destruct (init_failed_result _ w' (Hloose d' w' Hd') Hoff) as (s' & w'' & ? & ? & ?).
    by eexists _, _, _. }
  destruct ok; simpl negb; cbv iota.
  2: { destruct (Hfailed d w1 Hd) as (ok & s' & w' & -> & ? & -> & ?). by eexists _, _, _. }
  destruct (Hok eq_refl) as (Hup & Hz & Ht).
  destruct (finalize_opened d (detectionZoneBytes config) (distortionBytes config) w1 Hd Hup)
    as (ok & d' & w2 & -> & Hd' & Hbuf & Hne & Hst').
  destruct ok; simpl negb; cbv iota.
  2: { change ((s <| gpuStaticData := d |>) <| gpuStaticData := d' |>) with (s <| gpuStaticData := d' |>).
       destruct (Hfailed d' w2 Hd') as (ok & s' & w' & -> & ? & -> & ?). by eexists _, _, _. }
  eexists _, _, _. split; [done|]. split_and!; [|intros _|done].
  - split; simpl; [apply (loose_cache _ (Hloose d' w2 Hd'))|done|done|done].
  - unfold staticGpuDataBytes, static_bytes, execute, static_state. simpl. rewrite Hbuf, (Hst' eq_refl).
    split_and!; try done. by destruct ((detectionZoneBytes config =? 0) && _).
Qed.

(** Nothing changes but the machine, or the configured plan is set up, or the
    initialization fails and the owner stays off. *)
Lemma data_init_result config infra s lv sl w :
  coherent (mkOwner s lv sl w) → registry infra → config_in_range config →
  ∃ ok s' w', data_init config infra s w = Some (ok, s', w')
    ∧ coherent (mkOwner s' lv sl w')
    ∧ (ok = true → wanted_bytes config < two64 ∧ set_up config s s')
    ∧ (ok = false → data_initialized s' = data_initialized s).
Proof using All.
  intros Hco Hinfra Hrange. unfold data_init.
  destruct (init_rejects config s) eqn:Hrej; [by eexists _, _, _|].
  apply init_accepts in Hrej as (Hoff & Hst & Hcache & Hbytes).
  destruct (coherent_off _ Hco Hoff) as ((Hself & Hd & Hlv & Hsl) & Hrt).
  simpl in Hself, Hd, Hlv, Hsl. subst lv sl. simpl owned in Hrt. specialize (Hrt Hst).
  assert (∀ w', coherent (mkOwner s [] [] w')) as Hmoved by (intros w'; split; apply Hco).
  destruct (gpuIdsForCurrentNumaNode_run infra w Hinfra) as (ok & gpuIds & -> & Hids). cbn [mbind option_bind].
  destruct ok; simpl negb; cbv iota; [|by eexists _, _, _].
  destruct (Hids eq_refl) as (gpu & -> & Hgpu). rewrite (plannedBytes_spec _ Hrange).
  destruct (decide (wanted_bytes config < two64)) as [Hfit|]; [|by eexists _, _, _].
  cbn [head mbind option_bind].
  destruct (enoughMemory gpu (wanted_bytes config) w) as [[] w1]; simpl negb; cbv iota;
    [|by eexists _, _, _].
  pose proof (dormant_idle _ Hd) as (_ & Hw0 & _)%canResetLocked_spec.
  destruct (initialize_refines (gpuDataCache s) [gpu] (runtime_inBytes (runtime config))
    (gpuCacheEntries config) (gpuCacheWaitTimeout config) (gpuCacheEvictionPolicy config) w1 Hw0)
    as (ok & c & w2 & -> & Hfail & Hok). cbn [mbind option_bind].
  destruct ok; simpl negb; cbv iota.
  2: { rewrite (Hfail eq_refl). eexists _, _, _. split; [done|]. by destruct s. }
  destruct (Hok eq_refl) as (gpu' & cells & [= <-] & Hsize & Hfresh & _ & Hc). clear Hfail Hok.
  set (s1 := s <| gpuDataCache := c |>).
  assert (∀ d w', static_wf d → loose (mkOwner (s1 <| gpuStaticData := d |>) [] [] w')) as Hloose.
  { intros d w' Hwf. split; simpl; [|done|by rewrite Hoff|done].
    split; [change (self c ≠ nullptr); by rewrite (represents_self _ _ Hc)|]. left. eexists. split; [exact Hc|].
    by apply initial_directory_agree. }
  destruct (init_regions_result config gpu s1 w2 Hloose) as (ok & s' & w' & Hrun & Hco' & Hok & Hko);
    [apply (coherent_static _ Hco)|done..|exact (represents_bytes _ _ Hc)|].
  exists ok, s', w'. split; [|split; [done|]].
  - unfold init_regions in Hrun. rewrite <-Hrun. 
    destruct (static_initialize gpu _ _ (gpuStaticData s1) w2) as [[[] d] w3]; [|done].
    destruct (_ && _); [destruct (static_finalize d w3) as [[[] ?] ?]|]; done.
  - split; [|rewrite Hoff; exact Hko]. intros Htrue. destruct (Hok Htrue) as (Hgc & ? & ? & ? & ? & ?).
    split; [done|]. split; [|done]. exists gpu, cells. by rewrite Hgc.
Qed.

(** *** Every call *)

Lemma data_request_perform s lv sl w md request started now waitStarted :
  has_room (mkSystem (gpuDataCache s) lv sl w) = true →
  owner_perform (mkOwner s lv sl w) (OwnRequest md request started now waitStarted)
  = if validateFrame s md
    then y ← perform (mkSystem (gpuDataCache s) lv sl w) (Request md request started now waitStarted);
         Some (with_cache_system (mkOwner s lv sl w) y)
    else Some (mkOwner s lv sl w).
Proof.
  intros Hroom. cbn [owner_perform perform]. unfold cache_system. cbn [owned owner_live owner_asleep owner_world].
  rewrite Hroom. cbn [negb]. unfold data_getCacheData, on_cache.
  destruct (validateFrame s md); cbn [negb manager live asleep outside].
  - by destruct (getCacheData md request started now waitStarted (gpuDataCache s)) as [[r c]|].
  - done.
Qed.

Lemma data_reset_perform s lv sl w output :
  owner_perform (mkOwner s lv sl w) (OwnReset output)
  = if data_initialized s && negb (runtime_inBytes (frameRuntime s) =? 0)
    then y ← perform (mkSystem (gpuDataCache s) lv sl w) (Reset output);
         Some (with_cache_system (mkOwner s lv sl w) y)
    else Some (mkOwner s lv sl w).
Proof.
  cbn [owner_perform perform]. unfold data_resetCache, on_cache. destruct (_ && _); [|done].
  cbn [manager live asleep outside]. by destruct (resetCache output (gpuDataCache s)) as [[r c]|].
Qed.

(** A call on the owner's cache. *)
Lemma cache_call_coherent o act :
  coherent o → is_initialize act = false → act ≠ Release →
  ∃ y, perform (cache_system o) act = Some y ∧ coherent (with_cache_system o y).
Proof using All.
  intros Hco Hact Hnr. destruct (perform_invariant _ act (coherent_cache _ Hco)) as (y & Hrun & _).
  exists y. split; [done|]. destruct o as [s lv sl w]. by eapply step_coherent.
Qed.

Lemma owner_perform_coherent o act :
  coherent o → legal act → ∃ o', owner_perform o act = Some o' ∧ coherent o'.
Proof using All.
  destruct o as [s lv sl w]. intros Hco Hlegal. destruct act as [config infra|type source n off| |md request started now waitStarted|output|act| ].
  - destruct Hlegal as [Hinfra Hrange]. cbn [owner_perform].
    destruct (data_init_result config infra s lv sl w Hco Hinfra Hrange) as (ok & s' & w' & -> & ? & _).
    by eexists.
  - cbn [owner_perform]. unfold uploadStaticData. destruct (data_initialized s) eqn:Hon; [|by eexists].
    destruct (static_upload type source n off (gpuStaticData s) w) as [[ok d] w'] eqn:Hrun.
    eexists. split; [done|]. by eapply (static_call_coherent (CallUpload type source n off)).
  - cbn [owner_perform]. unfold finalizeStaticData. destruct (data_initialized s) eqn:Hon; [|by eexists].
    destruct (static_finalize (gpuStaticData s) w) as [[ok d] w'] eqn:Hrun.
    eexists. split; [done|]. by eapply (static_call_coherent CallFinalize).
  - destruct (has_room (cache_system (mkOwner s lv sl w))) eqn:Hroom.
    2: { cbn [owner_perform]. rewrite Hroom. by eexists. }
    rewrite data_request_perform by done. destruct (validateFrame s md); [|by eexists].
    destruct (cache_call_coherent _ (Request md request started now waitStarted) Hco)
      as (y & Hrun & ?); [done..|].
    change (mkSystem (gpuDataCache s) lv sl w) with (cache_system (mkOwner s lv sl w)).
    rewrite Hrun. by eexists.
  - rewrite data_reset_perform. destruct (_ && _); [|by eexists].
    destruct (cache_call_coherent _ (Reset output) Hco) as (y & Hrun & ?); [done..|].
    change (mkSystem (gpuDataCache s) lv sl w) with (cache_system (mkOwner s lv sl w)).
    rewrite Hrun. by eexists.
  - cbn [owner_perform]. destruct (leaseholder act) eqn:Hl; [|by eexists].
    destruct (cache_call_coherent _ act Hco) as (y & -> & ?); [by destruct act..|]. by eexists.
  - cbn [owner_perform].
    destruct (data_release_result s lv sl w Hco) as (ok & s' & w' & -> & ? & _). by eexists.
Qed.

Lemma owner_reachable_coherent o : owner_reachable o → coherent o.
Proof using All.
  induction 1 as [this w Hthis|o act o' _ IH Hlegal Hrun]; [by apply start_coherent|].
  destruct (owner_perform_coherent o act IH Hlegal) as (? & ? & ?). congruence.
Qed.

End owner.

(** * What [StaticData] promises to the graph that owns it. *)

Section behaviour.
Context `{HP : Platform} `{!PlatformLaws} `{!GpuDriver}.
Implicit Types (o : Owner) (s : StaticData) (w : world).

Lemma static_exposed s t :
  static_wf (gpuStaticData s) →
  (staticGpuData s t ≠ nullptr ↔ execute s = true ∧ staticGpuDataBytes s t ≠ 0).
Proof.
  intros Hwf. unfold staticGpuData, execute, staticGpuDataBytes, static_state.
  destruct (data_initialized s); simpl; [|naive_solver].
  unfold static_data, static_bytes.
  destruct (static_state_eqb_spec (currentState (gpuStaticData s)) Ready) as [Hst|Hst].
  - destruct (wf_open _ Hwf (or_intror Hst)) as [Hb0 Hb1]. unfold backed in *.
    destruct t; simpl; rewrite ?Hb0, ?Hb1; naive_solver.
  - destruct t; simpl; naive_solver.
Qed.

Lemma live_describes o a :
  coherent o → a ∈ owner_live o →
  data_initialized (owned o) = true ∧ access_dataBytes a = runtime_inBytes (frameRuntime (owned o)).
Proof.
  intros Hco Ha. destruct (coherent_cache _ Hco) as (_ & [(d & Hc & Hag)|(_ & Hl & _)]).
  2: { simpl in Hl. rewrite Hl in Ha. by apply elem_of_nil in Ha. }
  destruct (agree_describes _ _ _ Hag a Ha) as (_ & Hbytes & _).
  assert (data_initialized (owned o) = true) as Hon.
  { destruct (data_initialized (owned o)) eqn:Hoff; [done|].
    destruct (coherent_off _ Hco Hoff) as ((_ & _ & Hl & _) & _). simpl in Hl.
    rewrite Hl in Ha. by apply elem_of_nil in Ha. }
  split; [done|]. destruct (coherent_on _ Hco Hon) as (_ & _ & Hsize). rewrite <-Hsize.
  - rewrite Hbytes. symmetry. by apply represents_bytes.
  - change (cache_initialized (manager (cache_system o)) = true). by destruct Hc as (_ & t & _ & ->).
Qed.

(** C20.  Every call of the owner, and everything the holders of accesses do, is
    defined in any order.  The layers stay consistent: a frame the owner accepts
    has the size the cache's payloads have, every access that is out has that
    size and belongs to an owner in service, and static data is exposed exactly
    when the owner may execute. *)
Theorem owner_sessions_are_safe o :
  owner_reachable o →
  (∀ act, legal act → ∃ o', owner_perform o act = Some o' ∧ owner_reachable o')
  ∧ (∀ md, validateFrame (owned o) md = true → md_bytes md ≠ 0
       ∧ (cache_initialized (gpuDataCache (owned o)) = true →
            md_bytes md = cache_dataBytes (gpuDataCache (owned o))))
  ∧ (∀ a, a ∈ owner_live o → data_initialized (owned o) = true
       ∧ access_dataBytes a = runtime_inBytes (frameRuntime (owned o)))
  ∧ ∀ t, staticGpuData (owned o) t ≠ nullptr ↔
           execute (owned o) = true ∧ staticGpuDataBytes (owned o) t ≠ 0.
Proof using All.
  intros Ho. pose proof (owner_reachable_coherent o Ho) as Hco. split_and!.
  - intros act Hact. destruct (owner_perform_coherent o act Hco Hact) as (o' & Hrun & _).
    exists o'. split; [done|]. by eapply owner_steps.
  - intros md. unfold validateFrame, matchesRuntime, execute.
    rewrite !andb_true_iff, negb_true_iff, N.eqb_neq, N.eqb_eq.
    intros ((Hon & _) & (((Hne & Hb) & _) & _) & _). split; [done|]. intros Hc.
    destruct (coherent_on _ Hco Hon) as (_ & _ & Hsize). by rewrite Hsize.
  - intros a. by apply live_describes.
  - intros t. apply static_exposed, Hco.
Qed.

(** Initialization sets up exactly the configured plan, or leaves the owner as
    it was as far as its users can see.  A plan whose bytes do not fit in 64
    bits is refused before anything is touched. *)
Theorem data_init_outcome o config infra :
  owner_reachable o → registry infra → config_in_range config →
  ∃ ok s' w', data_init config infra (owned o) (owner_world o) = Some (ok, s', w')
    ∧ (ok = true → data_initialized (owned o) = false ∧ wanted_bytes config < two64
         ∧ set_up config (owned o) s')
    ∧ (ok = false → data_initialized s' = data_initialized (owned o))
    ∧ (two64 ≤ wanted_bytes config ∨ data_initialized (owned o) = true →
         ok = false ∧ s' = owned o ∧ w' = owner_world o).
Proof using All.
  intros Ho Hinfra Hrange. pose proof (owner_reachable_coherent o Ho) as Hco.
  destruct o as [s lv sl w].
  destruct (data_init_result config infra s lv sl w Hco Hinfra Hrange)
    as (ok & s' & w' & Hrun & _ & Hok & Hko).
  exists ok, s', w'. cbn [owned owner_world] in *.
  assert (two64 ≤ wanted_bytes config ∨ data_initialized s = true →
    ok = false ∧ s' = s ∧ w' = w) as Hrefused.
  { intros Hbad. revert Hrun. unfold data_init.
    destruct (init_rejects config s) eqn:Hrej; [by intros [= <- <- <-]|].
    destruct (init_accepts config s Hrej) as (Hoff & _). destruct Hbad as [Hbad|]; [|congruence].
    destruct (gpuIdsForCurrentNumaNode_run infra w Hinfra) as (resolved & gpuIds & -> & _). cbn [mbind option_bind].
    destruct resolved; cbn [negb]; [|by intros [= <- <- <-]].
    rewrite plannedBytes_spec, decide_False by (done || lia). by intros [= <- <- <-]. }
  split_and!; try done. intros Htrue. split; [|by apply Hok].
  destruct (data_initialized s) eqn:Hon; [|done]. destruct Hrefused as [Hf _]; [by right|congruence].
Qed.

(** A release is refused, and touches neither the cache nor the static buffers,
    while an access is out or a request sleeps.  Otherwise it ends service, and
    a release that reports success leaves nothing: the owner can be initialized
    again. *)
Theorem data_release_outcome o :
  owner_reachable o →
  ∃ ok s' w', data_release (owned o) (owner_world o) = (ok, s', w')
    ∧ (owner_live o ≠ [] ∨ owner_asleep o ≠ [] → ok = false ∧ s' = owned o ∧ w' = owner_world o)
    ∧ (owner_live o = [] → owner_asleep o = [] → cache_initialized (gpuDataCache s') = false)
    ∧ (ok = true → released_owner s'
         ∧ ∀ config, runtime_inBytes (runtime config) ≠ 0 → init_rejects config s' = false).
Proof using All.
  intros Ho. pose proof (owner_reachable_coherent o Ho) as Hco. destruct o as [s lv sl w].
  destruct (data_release_result s lv sl w Hco) as (ok & s' & w' & Hrun & _ & Hor).
  exists ok, s', w'. split; [done|]. cbn [owned owner_live owner_asleep owner_world].
  destruct Hor as [(-> & -> & -> & Hout)|(-> & -> & (_ & Hd & _) & Hok)].
  - split_and!; try done. intros -> ->. by destruct Hout.
  - split_and!; [by intros []|intros _ _; apply Hd|]. intros Htrue. destruct (Hok Htrue) as (Hp & Hs & Hr & Hi).
    split; [done|]. intros config Hbytes. unfold init_rejects. rewrite Hi, Hs, Hr.
    destruct (pristine_fields _ (proj1 Hp)) as (-> & _). simpl. by apply N.eqb_neq.
Qed.

End behaviour.
