(* ===== verification/StaticScenario.v ===== *)
(** A concrete machine with device memory, on which the properties of the static
    buffers are witnessed: a bump allocator, bytes of device memory that
    [cudaMemsetAsync] and [cudaMemcpyAsync] write at once, and host memory whose
    byte at an address is the address itself.  A graph's owner runs on it, too. *)
From Stdlib Require Import Ascii String.
From S2P Require Import Prelude.
From S2P Require Import Platform.
From S2P Require Import GpuDataKey.
From S2P Require Import GpuResidencyTable.
From S2P Require Import CudaDeviceGuard.
From S2P Require Import GpuDataCacheEntry.
From S2P Require Import CacheTypes.
From S2P Require Import GpuDataCache.
From S2P Require Import GpuDataAccess.
From S2P Require Import CacheLifecycle.
From S2P Require Import CacheProtocol.
From S2P Require Import GpuTopology.
From S2P Require Import GpuContextManager.
From S2P Require Import RegistryInvariant.
From S2P Require Import RegistryBehaviour.
From S2P Require Import StaticGpuData.
From S2P Require Import DeviceMemory.
From S2P Require Import StaticUpload.
From S2P Require Import StaticLifecycle.
From S2P Require Import StaticData.
From S2P Require Import StaticOwner.
#[local] Open Scope N_scope.

(** Device memory is the log of the writes to it, the latest first: zeros, a copy
    that reads the host's memory, late as it may be, or what such a copy has read. *)
Inductive write_content := Zeros | FromHost (source : N) | Taken (value : N → N).

Record memory_machine := mkMemory {
  mem_next : N;
  mem_blocks : list (N * N);
  mem_log : list (N * N * write_content);
  mem_host : N → N;
  mem_flight : list transfer;
}.

Definition host_content (a : N) : N := a mod 256.

Definition write_value (host : N → N) (content : write_content) (i : N) : N :=
  match content with Zeros => 0 | FromHost p => host (p + i) | Taken value => value i end.

Fixpoint device_content (host : N → N) (log : list (N * N * write_content)) (a : N) : N :=
  match log with
  | [] => 255
  | (p, n, content) :: rest =>
      if in_range p n a then write_value host content (a - p) else device_content host rest a
  end.

Definition store_device (p n : N) (content : write_content) (flight : list transfer) (w : memory_machine) :
    memory_machine :=
  mkMemory (mem_next w) (mem_blocks w) ((p, n, content) :: mem_log w) (mem_host w) (flight ++ mem_flight w).

(** Is the write one that may still be under way? *)
Definition flying (flight : list transfer) (p n source : N) : bool :=
  existsb (λ t, (transfer_to t =? p) && (transfer_bytes t =? n) && bool_decide (transfer_from t = Some source)) flight.

(** The program overwrites the host's memory: the copies that were waited for have
    read it before, the others have not. *)
Definition host_overwrites (host : N → N) (w : memory_machine) : memory_machine :=
  mkMemory (mem_next w) (mem_blocks w)
    ((λ '(p, n, content),
        (p, n, match content with
               | FromHost source => if flying (mem_flight w) p n source then content
                                    else Taken (λ i, mem_host w (source + i))
               | _ => content
               end)) <$> mem_log w) host (mem_flight w).

Lemma flying_spec flight p n source :
  flying flight p n source = true →
  ∃ t, t ∈ flight ∧ transfer_to t = p ∧ transfer_bytes t = n ∧ transfer_from t = Some source.
Proof.
  unfold flying. intros (t & Ht & Heq)%existsb_exists. rewrite !andb_true_iff, !N.eqb_eq, bool_decide_eq_true in Heq.
  exists t. split; [by apply list_elem_of_In|]. naive_solver.
Qed.

(** The bump pointer is past every block, and what is under way to one. *)
Definition room (w : memory_machine) : bool :=
  negb (mem_next w =? 0)
  && forallb (λ '(q, m), (q <? mem_next w) && (q + m <=? mem_next w)) (mem_blocks w)
  && forallb (λ t, transfer_to t + transfer_bytes t <=? mem_next w) (mem_flight w).

#[export] Instance MemoryPlatform : Platform := {|
  world := memory_machine;
  host_alloc _ w := (true, w);
  std_hash_u64 x := x;
  std_hash_u32 x := x;
  cudaGetDevice w := (0%Z, 0%Z, w);
  cudaSetDevice _ w := (0%Z, w);
  cudaMalloc n w :=
    if room w
    then (0%Z, mem_next w,
          mkMemory (mem_next w + n) ((mem_next w, n) :: mem_blocks w) (mem_log w) (mem_host w) (mem_flight w))
    else (2%Z, nullptr, w);
  cudaFree _ w := (0%Z, w);
  cudaStreamSynchronize p w :=
    (0%Z, mkMemory (mem_next w) (mem_blocks w) (mem_log w) (mem_host w)
            (filter (λ t, transfer_stream t ≠ p) (mem_flight w)));
  cudaStreamCreate w := (0%Z, 77, w);
  cudaStreamDestroy _ w := (0%Z, w);
  cudaMemsetAsync p n stream w := (0%Z, store_device p n Zeros [mkTransfer stream p None n] w);
  cudaMemcpyAsync p source n stream w :=
    (0%Z, store_device p n (FromHost source) [mkTransfer stream p (Some source) n] w);
  cudaMemGetInfo w := (0%Z, 1073741824, 8589934592, w);
|}.

Lemma room_spec w :
  room w = true → mem_next w ≠ 0 ∧ (∀ q m, (q, m) ∈ mem_blocks w → q < mem_next w ∧ q + m ≤ mem_next w)
    ∧ ∀ t, t ∈ mem_flight w → transfer_to t + transfer_bytes t ≤ mem_next w.
Proof.
  unfold room. rewrite !andb_true_iff, negb_true_iff, N.eqb_neq, !forallb_forall.
  intros [[? Hall] Hflight]. split; [done|]. split.
  - intros q m Hin%list_elem_of_In. specialize (Hall _ Hin). simpl in Hall.
    by rewrite andb_true_iff, N.ltb_lt, N.leb_le in Hall.
  - intros t Ht%list_elem_of_In. by apply N.leb_le, Hflight.
Qed.

#[export] Instance MemoryPlatform_laws : PlatformLaws.
Proof.
  split; simpl; intros bytes w st p w' Hm Hok; destruct (room w) eqn:Hr; simplify_eq; auto.
  intros _. by apply room_spec.
Qed.

#[export] Instance MemoryPlatform_memory : DeviceMemory.
Proof.
  refine (Build_DeviceMemory MemoryPlatform (λ w, list_to_map (mem_blocks w))
    (λ w, device_content (mem_host w) (mem_log w)) mem_host mem_flight _ _ _ _ _ _ _);
    simpl; intros; simplify_eq; try done.
  - split; [split_and!; try done; by intros t [_ ?]%list_elem_of_filter|]. by intros t [? _]%list_elem_of_filter.
  - destruct (room w) eqn:Hr; simplify_eq. apply room_spec in Hr as (? & Hall & Hflight).
    split_and!; try done.
    + apply not_elem_of_list_to_map_1. intros ([q m] & Hq & Hin)%list_elem_of_fmap. simpl in Hq.
      apply Hall in Hin. lia.
    + intros q m Hq%elem_of_list_to_map_2. right. by apply Hall.
    + intros t Ht. right. by apply Hflight.
Defined.

Lemma host_overwrites_acts host w :
  host_acts blocks device_byte host_byte in_flight w (host_overwrites host w).
Proof.
  split; [done|]. split; [done|]. intros a Hsame. cbn [host_byte in_flight device_byte MemoryPlatform_memory] in *.
  unfold host_overwrites in *. cbn [mem_host mem_log] in *. induction (mem_log w) as [|[[p n] content] log IH]; [done|].
  rewrite fmap_cons. cbn [device_content]. destruct (in_range p n a) eqn:Hin; [|exact IH].
  destruct content as [|source|value]; [done| |done]. destruct (flying _ p n source) eqn:Hfly; [|done].
  apply flying_spec in Hfly as (t & Ht & <- & <- & Hfrom). by apply Hsame.
Qed.

Definition fresh_memory : @world MemoryPlatform := mkMemory 4096 [] [] host_content [].

(** Four bytes of zones and two of tables; two uploads of zones, the second over
    a part of the first, with the host's memory overwritten in between; then the
    data is finalized, and the host's memory overwritten again. *)
Definition opened := Eval vm_compute in static_initialize 0 4 2 StaticGpuData_default fresh_memory.
Definition object_1 : StaticGpuData := snd (fst opened).
Definition memory_1 : @world MemoryPlatform := snd opened.
Definition first_upload := Eval vm_compute in static_upload DetectionZones 100 3 0 object_1 memory_1.
Definition object_2 : StaticGpuData := snd (fst first_upload).
Definition memory_2 : @world MemoryPlatform := snd first_upload.
Definition memory_2' : @world MemoryPlatform := host_overwrites (λ a, (a + 1) mod 256) memory_2.
Definition second_upload := Eval vm_compute in static_upload DetectionZones 200 2 2 object_2 memory_2'.
Definition object_3 : StaticGpuData := snd (fst second_upload).
Definition memory_3 : @world MemoryPlatform := snd second_upload.
Definition closed := Eval vm_compute in static_finalize object_3 memory_3.
Definition object_4 : StaticGpuData := snd (fst closed).
Definition memory_4 : @world MemoryPlatform := snd closed.
Definition memory_5 : @world MemoryPlatform := host_overwrites (λ _, 0) memory_4.

Lemma opened_run :
  static_initialize 0 4 2 StaticGpuData_default fresh_memory = (true, object_1, memory_1).
Proof. vm_compute. reflexivity. Qed.
Lemma first_run :
  static_upload DetectionZones 100 3 0 object_1 memory_1 = (true, object_2, memory_2).
Proof. vm_compute. reflexivity. Qed.
Lemma second_run :
  static_upload DetectionZones 200 2 2 object_2 memory_2' = (true, object_3, memory_3).
Proof. vm_compute. reflexivity. Qed.
Lemma closed_run : static_finalize object_3 memory_3 = (true, object_4, memory_4).
Proof. vm_compute. reflexivity. Qed.

Definition uploaded_image : StaticGpuDataType → N → N :=
  patched DetectionZones 2 2 (λ i, host_byte memory_2' (200 + i))
    (patched DetectionZones 3 0 (λ i, host_byte memory_1 (100 + i)) zeroed).

Lemma closed_session : session 4 2 object_4 memory_5 uploaded_image.
Proof.
  eapply session_elsewhere; [|apply host_overwrites_acts].
  eapply session_finalized; [|exact closed_run].
  eapply session_uploaded; [|exact second_run].
  eapply session_elsewhere; [|apply host_overwrites_acts].
  eapply session_uploaded; [|exact first_run].
  eapply session_initialized. exact opened_run.
Qed.

Lemma uploads_are_read_back_witness :
  (∀ i, i < 4 →
    device_byte memory_5 (static_data object_4 DetectionZones + i)
    = uploaded_image DetectionZones i)
  ∧ uploaded_image DetectionZones <$> [0; 1; 2; 3] = [100; 101; 201; 202]
  ∧ uploaded_image DistortionTables <$> [0; 1] = [0; 0].
Proof.
  split; [|split; vm_compute; reflexivity].
  intros i Hi.
  destruct (uploads_are_read_back 4 2 object_4 memory_5 uploaded_image DetectionZones)
    as (Hb & _ & Hr); [reflexivity|reflexivity|apply closed_session|].
  apply Hr; [vm_compute; reflexivity|]. rewrite Hb. exact Hi.
Defined.

(** Between the uploads and the reads the data goes through [Uploading] and
    [Ready]; the release empties the object. *)
Lemma closed_reachable : static_reachable object_4.
Proof.
  apply (reachable_call object_3 CallFinalize memory_3 true object_4 memory_4); [|exact closed_run].
  apply (reachable_call object_2 (CallUpload DetectionZones 200 2 2) memory_2' true object_3 memory_3);
    [|exact second_run].
  apply (reachable_call object_1 (CallUpload DetectionZones 100 3 0) memory_1 true object_2 memory_2);
    [|exact first_run].
  apply (reachable_call StaticGpuData_default (CallInitialize 0 4 2) fresh_memory true object_1 memory_1);
    [|exact opened_run].
  apply reachable_default.
Qed.

Lemma static_data_lifecycle_witness :
  static_data object_4 DistortionTables ≠ nullptr
  ∧ ∃ w', static_apply CallRelease object_4 memory_4 = (true, StaticGpuData_default, w').
Proof.
  destruct (static_data_lifecycle _ closed_reachable) as (_ & Hexposed & Hcalls). split.
  - apply Hexposed. split; [vm_compute; reflexivity|]. vm_compute. discriminate.
  - destruct (Hcalls CallRelease memory_4) as (ok & s' & w' & Hrun & _ & Hrel).
    exists w'. rewrite Hrun. destruct (Hrel eq_refl) as [->|(-> & _)].
    + destruct ok; [reflexivity|]. vm_compute in Hrun. discriminate.
    + vm_compute in Hrun. discriminate.
Defined.

(** A graph's owner on this machine, with one GPU on NUMA
    node 0: 64-byte frames, two cache entries and four bytes of zones. *)

#[export] Instance MemoryDriver : GpuDriver := {|
  cuInit w := (0%Z, w);
  cudaGetDeviceCount w := (0%Z, 1%Z, w);
  cudaDeviceGetPCIBusId _ w := (0%Z, ["0"%char], w);
  read_file _ _ := Some ["0"%char];
  cuDeviceGet g w := (0%Z, g, w);
  cuDevicePrimaryCtxRetain _ w := (0%Z, 700, w);
  cuDevicePrimaryCtxRelease _ w := (0%Z, w);
  cuCtxGetId _ w := (0%Z, 1, w);
  cudaGetDeviceProperties _ w := (0%Z, w);
  getcpu _ := (0%Z, 0%Z);
|}.

Definition one_gpu : GpuInfra :=
  match infra_session GpuInfra_initial fresh_memory [Init (mkConfig true)] with
  | Some (s, _) => s | None => GpuInfra_initial end.

Lemma one_gpu_reachable : infra_reachable one_gpu.
Proof.
  unfold one_gpu. destruct (infra_session_registry GpuInfra_initial fresh_memory
    [Init (mkConfig true)] registry_initial) as (s & w & Hrun & _).
  rewrite Hrun. by exists fresh_memory, [Init (mkConfig true)], w.
Qed.

Definition small_frames : StaticDataConfig := mkStaticDataConfig (mkRuntime 64 1 8 8 1) 4 0 2 50 LRU.
Definition huge_frames : StaticDataConfig :=
  mkStaticDataConfig (mkRuntime 9223372036854775808 1 8 8 1) 4 0 2 50 LRU.
Definition small_frame : FrameMetadata := mkMetadata (mkKey 7 1 0) 64 8 8 1.
Definition small_request : GpuCacheRequest := mkRequest 0 11 900 64.

Definition idle_owner : Owner := mkOwner (StaticData_default 77) [] [] fresh_memory.

Fixpoint owner_run (o : Owner) (acts : list owner_action) : Owner :=
  match acts with
  | [] => o
  | act :: acts => owner_run (default o (owner_perform o act)) acts
  end.

Lemma owner_run_reachable acts o :
  owner_reachable o → Forall legal acts → owner_reachable (owner_run o acts).
Proof.
  revert o. induction acts as [|act acts IH]; intros o Ho Hacts; [done|].
  apply Forall_cons in Hacts as [Hact Hacts]. simpl. apply IH; [|done].
  destruct (owner_perform_coherent o act (owner_reachable_coherent o Ho) Hact) as (o' & Hrun & _).
  rewrite Hrun. by eapply owner_steps.
Qed.

Definition prepare : list owner_action :=
  [OwnInit small_frames one_gpu; OwnUpload DetectionZones 100 4 0; OwnFinalize].

Definition serving : Owner :=
  Eval vm_compute in owner_run idle_owner (prepare ++ [OwnRequest small_frame small_request 0 0 0]).

Lemma idle_reachable : owner_reachable idle_owner.
Proof. by constructor. Qed.

Lemma small_frames_in_range : config_in_range small_frames.
Proof. done. Qed.

Lemma serving_reachable : owner_reachable serving.
Proof.
  assert (owner_run idle_owner (prepare ++ [OwnRequest small_frame small_request 0 0 0]) = serving) as <-
    by (vm_compute; reflexivity).
  apply owner_run_reachable; [apply idle_reachable|].
  apply Forall_cons. split; [split; [apply reachable_registry, one_gpu_reachable|done]|].
  repeat constructor.
Qed.

Lemma owner_sessions_are_safe_witness :
  validateFrame (owned serving) small_frame = true
  ∧ md_bytes small_frame = cache_dataBytes (gpuDataCache (owned serving))
  ∧ staticGpuData (owned serving) DetectionZones ≠ nullptr.
Proof.
  destruct (owner_sessions_are_safe serving serving_reachable) as (_ & Hframe & _ & Hstatic).
  split; [reflexivity|]. split.
  - apply Hframe; reflexivity.
  - apply Hstatic. split; [reflexivity|discriminate].
Defined.

Lemma data_init_outcome_witness :
  (∃ s' w', data_init small_frames one_gpu (owned idle_owner) (owner_world idle_owner)
     = Some (true, s', w') ∧ set_up small_frames (owned idle_owner) s')
  ∧ data_init huge_frames one_gpu (owned idle_owner) (owner_world idle_owner)
    = Some (false, owned idle_owner, owner_world idle_owner).
Proof.
  split.
  - destruct (data_init_outcome idle_owner small_frames one_gpu) as (ok & s' & w' & Hrun & Hok & _);
      [apply idle_reachable|apply reachable_registry, one_gpu_reachable|apply small_frames_in_range|].
    exists s', w'. assert (ok = true) as ->; [|split; [exact Hrun|apply Hok; reflexivity]].
    apply (f_equal (λ r, fst (fst (default (false, s', w') r)))) in Hrun. vm_compute in Hrun.
    symmetry. exact Hrun.
  - destruct (data_init_outcome idle_owner huge_frames one_gpu) as (ok & s' & w' & Hrun & _ & _ & Hbad);
      [apply idle_reachable|apply reachable_registry, one_gpu_reachable|done|].
    destruct Hbad as (-> & -> & ->); [left; vm_compute; discriminate|exact Hrun].
Defined.

Lemma data_release_outcome_witness :
  data_release (owned serving) (owner_world serving) = (false, owned serving, owner_world serving).
Proof.
  destruct (data_release_outcome serving serving_reachable) as (ok & s' & w' & Hrun & Hrefused & _).
  destruct Hrefused as (-> & -> & ->); [left; discriminate|exact Hrun].
Defined.
