(* ===== verification/ParameterRegistry.v ===== *)
(** [ParameterRegistry] and [ParameterSnapshot] ([demo/ParameterRegistry.h] and
    [.cpp]): a typed parameter table whose schema is frozen by [seal] and whose
    contents carry a revision number.  The [std::unordered_map]s are finite maps;
    the library never iterates over them.  Then what it promises. *)
From stdpp Require Import strings.
From S2P Require Import Prelude.
#[local] Open Scope N_scope.

Inductive ParameterType := ParameterString | ParameterBytes | OtherParameterType (value : Z).

#[export] Instance ParameterType_eq_dec : EqDecision ParameterType.
Proof. solve_decision. Defined.

#[export] Instance byte_eq_decision : EqDecision Byte.byte := Byte.byte_eq_dec.

(** [std::variant<std::string, std::vector<std::uint8_t>>] *)
Inductive ParameterValue := StringValue (value : string) | BytesValue (value : list Byte.byte).

#[export] Instance ParameterValue_eq_dec : EqDecision ParameterValue.
Proof. solve_decision. Defined.

Record ParameterSnapshot := mkSnapshot {
  snapshot_values : gmap string ParameterValue;
  snapshot_revision : uint64;
}.

(** [ParameterSnapshot()] *)
Definition ParameterSnapshot_default : ParameterSnapshot := mkSnapshot ∅ 0.

(** The flag and the value written to the output argument. *)
Definition getString (s : ParameterSnapshot) (name : string) (output : string) : bool * string :=
  match snapshot_values s !! name with
  | Some (StringValue value) => (true, value)
  | _ => (false, output)
  end.

Definition getBytes (s : ParameterSnapshot) (name : string) (output : list Byte.byte) :
    bool * list Byte.byte :=
  match snapshot_values s !! name with
  | Some (BytesValue value) => (true, value)
  | _ => (false, output)
  end.

Record ParameterRegistry := mkRegistry {
  schema : gmap string ParameterType;
  values : gmap string ParameterValue;
  revisionNumber : uint64;
  sealed : bool;
}.

Definition ParameterRegistry_eta r :=
  mkRegistry (schema r) (values r) (revisionNumber r) (sealed r).
#[export] Instance set_schema : Setter schema := ltac:(make_setter schema ParameterRegistry_eta).
#[export] Instance set_values : Setter values := ltac:(make_setter values ParameterRegistry_eta).
#[export] Instance set_revisionNumber : Setter revisionNumber := ltac:(make_setter revisionNumber ParameterRegistry_eta).
#[export] Instance set_sealed : Setter sealed := ltac:(make_setter sealed ParameterRegistry_eta).
#[global] Arguments set_schema _ _ / : assert.
#[global] Arguments set_values _ _ / : assert.
#[global] Arguments set_revisionNumber _ _ / : assert.
#[global] Arguments set_sealed _ _ / : assert.

(** [ParameterRegistry()] *)
Definition ParameterRegistry_default : ParameterRegistry := mkRegistry ∅ ∅ 0 false.

Definition registerParameter (name : string) (type : ParameterType) (r : ParameterRegistry) :
    bool * ParameterRegistry :=
  if sealed r || bool_decide (name = ""%string) then (false, r)
  else
    match schema r !! name with
    | Some found => (bool_decide (found = type), r)
    | None => (true, r <| schema := <[name := type]> (schema r) |>)
    end.

Definition setValue (name : string) (type : ParameterType) (value : ParameterValue)
    (r : ParameterRegistry) : bool * ParameterRegistry :=
  if bool_decide (schema r !! name = Some type) then
    if bool_decide (values r !! name = Some value) then (true, r)
    else if revisionNumber r =? SIZE_MAX then (false, r)
    else
      (true, r <| values := <[name := value]> (values r) |>
               <| revisionNumber := inc64 (revisionNumber r) |>)
  else (false, r).

Definition setString (name value : string) (r : ParameterRegistry) : bool * ParameterRegistry :=
  setValue name ParameterString (StringValue value) r.

Definition setBytes (name : string) (value : list Byte.byte) (r : ParameterRegistry) :
    bool * ParameterRegistry :=
  setValue name ParameterBytes (BytesValue value) r.

Definition seal (r : ParameterRegistry) : bool * ParameterRegistry :=
  if sealed r || (N.of_nat (size (schema r)) =? 0)
     || negb (N.of_nat (size (values r)) =? N.of_nat (size (schema r)))
  then (false, r)
  else (true, r <| sealed := true |>).

(** The flag and the snapshot left in the output argument. *)
Definition snapshot (r : ParameterRegistry) (output : ParameterSnapshot) : bool * ParameterSnapshot :=
  if negb (sealed r) then (false, output)
  else (true, mkSnapshot (values r) (revisionNumber r)).

Definition isSealed (r : ParameterRegistry) : bool := sealed r.
Definition revision (r : ParameterRegistry) : uint64 := revisionNumber r.

(** What the parameter registry promises: typed contents, a frozen schema, and a
    revision that tells snapshots apart exactly when their contents differ. *)

Inductive parameter_call :=
  | CallRegister (name : string) (type : ParameterType)
  | CallSetString (name value : string)
  | CallSetBytes (name : string) (value : list Byte.byte)
  | CallSeal.

Definition parameter_apply (call : parameter_call) (r : ParameterRegistry) :
    bool * ParameterRegistry :=
  match call with
  | CallRegister name type => registerParameter name type r
  | CallSetString name value => setString name value r
  | CallSetBytes name value => setBytes name value r
  | CallSeal => seal r
  end.

Definition parameter_session (r : ParameterRegistry) (calls : list parameter_call) : ParameterRegistry :=
  fold_left (λ r call, snd (parameter_apply call r)) calls r.

Definition registry_reachable (r : ParameterRegistry) : Prop :=
  ∃ calls, r = parameter_session ParameterRegistry_default calls.

Definition value_type (value : ParameterValue) : ParameterType :=
  match value with StringValue _ => ParameterString | BytesValue _ => ParameterBytes end.

(** *** The invariant *)

Record typed (r : ParameterRegistry) : Prop := {
  typed_values name value : values r !! name = Some value → schema r !! name = Some (value_type value);
  typed_names name type : schema r !! name = Some type → name ≠ ""%string;
  typed_revision : revisionNumber r < two64;
  typed_sealed : sealed r = true → dom (values r) = dom (schema r) ∧ schema r ≠ ∅;
}.

Lemma typed_default : typed ParameterRegistry_default.
Proof. by split. Qed.

Lemma typed_subset r : typed r → dom (values r) ⊆ dom (schema r).
Proof.
  intros Hr name. rewrite !elem_of_dom. intros [value Hv]. eexists. by apply (typed_values _ Hr).
Qed.

(** The four ways a call of [setValue] ends. *)
Lemma setValue_cases name type value r :
  let '(ok, r') := setValue name type value r in
  (ok = false ∧ r' = r
     ∧ (schema r !! name ≠ Some type
        ∨ values r !! name ≠ Some value ∧ revisionNumber r = SIZE_MAX))
  ∨ (ok = true ∧ r' = r ∧ schema r !! name = Some type ∧ values r !! name = Some value)
  ∨ (ok = true ∧ schema r !! name = Some type ∧ values r !! name ≠ Some value
       ∧ revisionNumber r ≠ SIZE_MAX
       ∧ r' = r <| values := <[name := value]> (values r) |>
                <| revisionNumber := inc64 (revisionNumber r) |>).
Proof.
  unfold setValue. repeat case_bool_decide; [naive_solver| |naive_solver].
  destruct (N.eqb_spec (revisionNumber r) SIZE_MAX); naive_solver.
Qed.

Lemma setValue_typed name type value r :
  value_type value = type → typed r → typed (snd (setValue name type value r)).
Proof.
  intros Htype Hr. pose proof (setValue_cases name type value r) as Hcases.
  destruct (setValue name type value r) as [ok r']. simpl.
  destruct Hcases as [(_ & -> & _)|[(_ & -> & _)|(_ & Hs & _ & Hrev & ->)]]; [done..|].
  split; simpl.
  - intros name' value'. rewrite lookup_insert_Some. intros [[<- <-]|[? ?]]; [by rewrite Htype|].
    by apply (typed_values _ Hr).
  - apply Hr.
  - apply wrap64_lt.
  - intros Hsealed. destruct (typed_sealed _ Hr Hsealed) as [Hdom ?]. split; [|done].
    rewrite dom_insert_L, Hdom. apply leibniz_equiv, subseteq_union_1, singleton_subseteq_l, elem_of_dom. eauto.
Qed.

Lemma parameter_apply_typed call r : typed r → typed (snd (parameter_apply call r)).
Proof.
  intros Hr. destruct call as [name type|name value|name value| ]; simpl.
  - unfold registerParameter. destruct (sealed r) eqn:Hsealed; simpl; [done|].
    case_bool_decide as Hname; [done|]. destruct (schema r !! name) eqn:Hs; [done|]. simpl.
    split; simpl.
    + intros name' value' Hv. pose proof (typed_values _ Hr _ _ Hv).
      rewrite lookup_insert_ne; [done|]. intros ->. congruence.
    + intros name' type'. rewrite lookup_insert_Some. intros [[<- _]|[_ ?]]; [done|].
      by eapply typed_names.
    + apply Hr.
    + congruence.
  - by apply setValue_typed.
  - by apply setValue_typed.
  - unfold seal. destruct (sealed r || _ || _) eqn:Hrej; [done|]. simpl.
    apply orb_false_iff in Hrej as [[_ Hempty]%orb_false_iff Hsize].
    apply N.eqb_neq in Hempty. apply negb_false_iff, N.eqb_eq in Hsize.
    split; simpl; [apply Hr..|]. intros _. split.
    + apply set_subseteq_size_eq; [by apply typed_subset|]. rewrite !size_dom. lia.
    + intros Hs. rewrite Hs, map_size_empty in Hempty. done.
Qed.

Lemma parameter_session_typed calls r : typed r → typed (parameter_session r calls).
Proof.
  revert r. induction calls as [|call calls IH]; intros r Hr; [done|].
  simpl. apply IH. by apply parameter_apply_typed.
Qed.

Lemma reachable_typed r : registry_reachable r → typed r.
Proof. intros [calls ->]. apply parameter_session_typed, typed_default. Qed.

(** *** Revisions *)

(** [r'] comes later than [r]: its revision is not smaller, and says whether the
    contents changed. *)
Definition later (r r' : ParameterRegistry) : Prop :=
  revisionNumber r ≤ revisionNumber r'
  ∧ (revisionNumber r' = revisionNumber r → values r' = values r)
  ∧ (sealed r = true → sealed r' = true ∧ schema r' = schema r).

#[export] Instance later_preorder : PreOrder later.
Proof.
  split.
  - intros r. split_and!; [lia|done|done].
  - intros r1 r2 r3 (H12 & Hv12 & Hs12) (H23 & Hv23 & Hs23). split_and!; [lia| |].
    + intros Heq. rewrite Hv23 by lia. apply Hv12. lia.
    + intros Hs. destruct (Hs12 Hs) as [Hs2 ?]. destruct (Hs23 Hs2). split; congruence.
Qed.

Lemma setValue_later name type value r :
  typed r → later r (snd (setValue name type value r)).
Proof.
  intros Hr. pose proof (typed_revision _ Hr) as Hlt.
  pose proof (setValue_cases name type value r) as Hcases.
  destruct (setValue name type value r) as [ok r']. simpl.
  destruct Hcases as [(_ & -> & _)|[(_ & -> & _)|(_ & _ & _ & Hrev & ->)]]; [done..|].
  unfold later. simpl. unfold inc64. rewrite add64_small by (unfold SIZE_MAX, two64 in *; lia).
  split_and!; [lia|lia|done].
Qed.

Lemma parameter_apply_later call r : typed r → later r (snd (parameter_apply call r)).
Proof.
  intros Hr. destruct call as [name type|name value|name value| ]; simpl.
  - unfold registerParameter. destruct (sealed r) eqn:Hsealed; simpl; [done|].
    case_bool_decide; [done|]. destruct (schema r !! name); [done|]. split_and!; simpl; [lia|done|congruence].
  - by apply setValue_later.
  - by apply setValue_later.
  - unfold seal. destruct (sealed r) eqn:Hsealed; simpl; [done|]. case_match; [done|].
    split_and!; simpl; [lia|done|congruence].
Qed.

Lemma parameter_session_later calls r : typed r → later r (parameter_session r calls).
Proof.
  revert r. induction calls as [|call calls IH]; intros r Hr; [done|]. simpl.
  etrans; [by apply parameter_apply_later|]. apply IH. by apply parameter_apply_typed.
Qed.

(** *** Reading and writing *)

Lemma getString_spec s name output value :
  getString s name output = (true, value) ↔ snapshot_values s !! name = Some (StringValue value).
Proof. unfold getString. case_match; [case_match|]; naive_solver. Qed.

Lemma getBytes_spec s name output value :
  getBytes s name output = (true, value) ↔ snapshot_values s !! name = Some (BytesValue value).
Proof. unfold getBytes. case_match; [case_match|]; naive_solver. Qed.

(** Two snapshots of one registry, however many calls apart, have ordered
    revisions, and equal revisions only if every parameter reads the same in
    both: a caller that compares revisions misses no change. *)
Theorem revisions_identify_contents r calls first second :
  registry_reachable r → let r' := parameter_session r calls in
  snapshot r first = (true, first) → snapshot r' second = (true, second) →
  snapshot_revision first ≤ snapshot_revision second
  ∧ (snapshot_revision second = snapshot_revision first →
       ∀ name text bytes, getString second name text = getString first name text
         ∧ getBytes second name bytes = getBytes first name bytes).
Proof.
  intros Hr r' Hfirst Hsecond. destruct (parameter_session_later calls r (reachable_typed r Hr))
    as (Hle & Hsame & _).
  assert (∀ q s, snapshot q s = (true, s) → s = mkSnapshot (values q) (revisionNumber q)) as Hsnap.
  { intros q s. unfold snapshot. destruct (sealed q); simpl; [|done]. by intros [= <-]. }
  rewrite (Hsnap _ _ Hfirst), (Hsnap _ _ Hsecond). fold r' in Hle, Hsame. simpl. split; [done|].
  intros Heq name text bytes. unfold getString, getBytes. simpl. by rewrite Hsame.
Qed.

(** What an update that asks for a value of a type does: it is accepted exactly when
    the name is declared with that type and the revision can still tell the new
    contents from the old; a refused one changes nothing; an accepted one leaves the
    value as the only change of the next snapshot, under a new revision if it is
    a change at all. *)
Definition update_outcome (r : ParameterRegistry) (name : string) (type : ParameterType)
    (value : ParameterValue) (outcome : bool * ParameterRegistry) : Prop :=
  let before := snd (snapshot r ParameterSnapshot_default) in
  let after := snd (snapshot (snd outcome) ParameterSnapshot_default) in
  (fst outcome = true ↔ schema r !! name = Some type
     ∧ (snapshot_values before !! name = Some value ∨ revision r ≠ SIZE_MAX))
  ∧ (fst outcome = false → snd outcome = r)
  ∧ (fst outcome = true → snapshot_values after = <[name := value]> (snapshot_values before)
       ∧ snapshot_revision after =
           (if decide (snapshot_values before !! name = Some value) then snapshot_revision before
            else snapshot_revision before + 1)
       ∧ fst (snapshot (snd outcome) ParameterSnapshot_default) = true).

Lemma snapshot_sealed r output :
  sealed r = true → snapshot r output = (true, mkSnapshot (values r) (revisionNumber r)).
Proof. unfold snapshot. by intros ->. Qed.

Lemma setValue_outcome name type value r :
  typed r → sealed r = true → update_outcome r name type value (setValue name type value r).
Proof.
  intros Hr Hsealed. pose proof (typed_revision _ Hr) as Hlt.
  pose proof (setValue_cases name type value r) as Hcases. unfold update_outcome, revision.
  rewrite (snapshot_sealed r) by done.
  destruct (setValue name type value r) as [ok r']. cbn [fst snd snapshot_values snapshot_revision].
  destruct Hcases as [(-> & -> & Hno)|[(-> & -> & Hs & Hv)|(-> & Hs & Hv & Hrev & ->)]].
  - split_and!; [|done..]. split; [done|]. intros [? [?|?]]; naive_solver.
  - rewrite (snapshot_sealed r) by done. cbn. split_and!; [by split; auto|done|]. intros _.
    rewrite decide_True by done. by rewrite insert_id.
  - rewrite (snapshot_sealed (_ <| revisionNumber := _ |>)) by done. cbn. split_and!; [by split; auto|done|].
    intros _. rewrite decide_False by done. split_and!; [done| |done].
    apply add64_small. unfold SIZE_MAX, two64 in *. lia.
Qed.

(** C40.  Once sealed, a registry keeps its schema whatever is called.  A snapshot of it
    holds a value of the declared type for every declared parameter and for no
    other name, so each getter answers exactly the parameters of its type, with
    the stored value, and leaves its output alone for every other name.  Both
    setters behave as [update_outcome] says: accepted exactly for their own type
    (and a revision left), nothing changed on refusal, and on acceptance the next
    snapshot is the previous one with this value, which the matching getter
    reads and the other one refuses. *)
Theorem sealed_registry_is_typed r :
  registry_reachable r → sealed r = true →
  let read r := snd (snapshot r ParameterSnapshot_default) in
  (∀ calls, sealed (parameter_session r calls) = true
     ∧ schema (parameter_session r calls) = schema r)
  ∧ (∀ name type, schema r !! name = Some type ↔
       ∃ value, snapshot_values (read r) !! name = Some value ∧ value_type value = type)
  ∧ (∀ name,
       (if decide (schema r !! name = Some ParameterString)
        then ∃ text, snapshot_values (read r) !! name = Some (StringValue text)
               ∧ ∀ output, getString (read r) name output = (true, text)
        else ∀ output, getString (read r) name output = (false, output))
       ∧ (if decide (schema r !! name = Some ParameterBytes)
          then ∃ bytes, snapshot_values (read r) !! name = Some (BytesValue bytes)
                 ∧ ∀ output, getBytes (read r) name output = (true, bytes)
          else ∀ output, getBytes (read r) name output = (false, output)))
  ∧ (∀ name text,
       update_outcome r name ParameterString (StringValue text) (setString name text r)
       ∧ ∀ r', setString name text r = (true, r') → ∀ output bytes,
           getString (read r') name output = (true, text) ∧ getBytes (read r') name bytes = (false, bytes))
  ∧ (∀ name bytes,
       update_outcome r name ParameterBytes (BytesValue bytes) (setBytes name bytes r)
       ∧ ∀ r', setBytes name bytes r = (true, r') → ∀ output text,
           getBytes (read r') name output = (true, bytes) ∧ getString (read r') name text = (false, text)).
Proof.
  intros Hr Hsealed read. pose proof (reachable_typed r Hr) as Ht.
  destruct (typed_sealed _ Ht Hsealed) as [Hdom _].
  assert (read r = mkSnapshot (values r) (revisionNumber r)) as Hread by (unfold read; by rewrite snapshot_sealed).
  assert (∀ name type, schema r !! name = Some type ↔
       ∃ value, snapshot_values (read r) !! name = Some value ∧ value_type value = type) as Htyped.
  { rewrite Hread. intros name type. simpl. split; [|intros (value & Hv & <-); by apply (typed_values _ Ht)].
    intros Hs. assert (name ∈ dom (values r)) as Hv by (rewrite Hdom; by eapply elem_of_dom_2).
    apply elem_of_dom in Hv as [value Hv]. exists value. split; [done|].
    pose proof (typed_values _ Ht _ _ Hv). congruence. }
  assert (∀ name type value r', setValue name type value r = (true, r') →
    snapshot_values (read r') !! name = Some value) as Hset.
  { intros name type value r' Heq. pose proof (setValue_outcome name type value r Ht Hsealed) as (_ & _ & Hok).
    rewrite Heq in Hok. destruct (Hok eq_refl) as [Hv _]. unfold read. simpl in Hv. rewrite Hv.
    apply lookup_insert_eq. }
  split_and!; [|done| | |].
  - intros calls. by apply (parameter_session_later calls r Ht).
  - intros name. unfold getString, getBytes. split; case_decide as Hs; rewrite Htyped in Hs.
    all: destruct (snapshot_values (read r) !! name) as [[]|]; naive_solver.
  - intros name text. split; [by apply setValue_outcome|]. intros r' Heq output bytes.
    unfold getString, getBytes. by rewrite (Hset _ _ _ _ Heq).
  - intros name bytes. split; [by apply setValue_outcome|]. intros r' Heq output text.
    unfold getString, getBytes. by rewrite (Hset _ _ _ _ Heq).
Qed.

(** *** Witnesses *)

Definition declared : list parameter_call :=
  [CallRegister "dummy.name" ParameterString; CallRegister "dummy.blob" ParameterBytes;
   CallSetString "dummy.name" "a"; CallSetBytes "dummy.blob" []; CallSeal].

Definition declared_registry : ParameterRegistry := parameter_session ParameterRegistry_default declared.

Lemma declared_reachable : registry_reachable declared_registry.
Proof. by exists declared. Qed.

Lemma revisions_identify_contents_witness :
  let r' := parameter_session declared_registry [CallSetString "dummy.name" "b"] in
  snapshot_revision (snd (snapshot declared_registry ParameterSnapshot_default))
  ≤ snapshot_revision (snd (snapshot r' ParameterSnapshot_default))
  ∧ fst (snapshot r' ParameterSnapshot_default) = true.
Proof.
  intros r'. destruct (revisions_identify_contents declared_registry
    [CallSetString "dummy.name" "b"] (snd (snapshot declared_registry ParameterSnapshot_default))
    (snd (snapshot r' ParameterSnapshot_default))) as [Hle _].
  - apply declared_reachable.
  - vm_compute. reflexivity.
  - vm_compute. reflexivity.
  - split; [exact Hle|vm_compute; reflexivity].
Defined.

Lemma sealed_registry_is_typed_witness :
  fst (setString "dummy.blob" "b" declared_registry) = false
  ∧ fst (setBytes "dummy.blob" [Byte.x07] declared_registry) = true
  ∧ getBytes (snd (snapshot (snd (setBytes "dummy.blob" [Byte.x07] declared_registry)) ParameterSnapshot_default))
      "dummy.blob" [] = (true, [Byte.x07]).
Proof.
  destruct (sealed_registry_is_typed declared_registry) as (_ & _ & _ & _ & Hset).
  - apply declared_reachable.
  - vm_compute. reflexivity.
  - split; [vm_compute; reflexivity|]. split; [vm_compute; reflexivity|].
    destruct (Hset "dummy.blob"%string [Byte.x07]) as [_ Hread].
    apply (Hread (snd (setBytes "dummy.blob" [Byte.x07] declared_registry))); [vm_compute; reflexivity|exact ""%string].
Defined.
