(* ===== verification/DemoTypes.v ===== *)
(** The data the demo's graph, tasks and algorithms share: sizing
    ([demo/ImageSizing.h], [WorkloadSizing.h]), the algorithm interface
    ([demo/Algo/IAlgo.h]), the phases and models of [demo/Grape/GraphTypes.h] and
    the frame that travels through the graph ([demo/Grape/FrameCpuAtom.h] and
    [.cpp]). *)
From stdpp Require Import strings.
From S2P Require Import Prelude.
From S2P Require Import Platform.
From S2P Require Import GpuDataKey.
From S2P Require Import GpuContextManager.
From S2P Require Import StaticData.
From S2P Require Import ParameterRegistry.
#[local] Open Scope N_scope.

(** An [enum class] may hold any value of its underlying type. *)
Inductive ExecutionModel := Batched | Interleaved | OtherModel (value : Z).
Inductive FramePhase := Warmup | Timed | OtherPhase (value : Z).

#[export] Instance FramePhase_eq_dec : EqDecision FramePhase.
Proof. solve_decision. Defined.

(** ** Sizing *)

Definition MIN_FACTOR : Z := 16.
Definition MAX_FACTOR : Z := 256.
Definition FACTOR_ALIGNMENT : Z := 16.
Definition INPUT_MULTIPLIER : Z := 8.
Definition CEL_MULTIPLIER : Z := 2.
Definition SDD_MULTIPLIER : Z := 3.
Definition MI_MULTIPLIER : Z := 3.

(** [%] on [int] truncates. *)
Definition isValidFactor (factor : Z) : bool :=
  (MIN_FACTOR <=? factor)%Z && (factor <=? MAX_FACTOR)%Z && (Z.rem factor FACTOR_ALIGNMENT =? 0)%Z.

(** An [int] product; an overflow, where C++ has no defined result, is [None]. *)
Definition scaledDimension (factor multiplier : Z) : option Z :=
  let product := (factor * multiplier)%Z in
  if (-2147483648 <=? product)%Z && (product <=? 2147483647)%Z then Some product else None.

Lemma scaledDimension_run factor multiplier :
  isValidFactor factor = true → (0 ≤ multiplier ≤ 8)%Z →
  scaledDimension factor multiplier = Some (factor * multiplier)%Z.
Proof.
  unfold isValidFactor, MIN_FACTOR, MAX_FACTOR. rewrite !andb_true_iff, !Z.leb_le. intros [[? ?] _] ?.
  unfold scaledDimension. by rewrite (proj2 (Z.leb_le _ _)), (proj2 (Z.leb_le _ _)) by nia.
Qed.

(** [static_cast<std::size_t>(int)] *)
Definition int_to_size (x : Z) : size_t := Z.to_N (x mod 18446744073709551616).

Definition squareBytes (dimension : Z) (elementBytes : size_t) : size_t :=
  mul64 (mul64 (int_to_size dimension) (int_to_size dimension)) elementBytes.

(** The multipliers of [WorkloadSizing.h] are positive build parameters; these
    are the defaults. *)
Definition H2D_SIZE_MULTIPLIER : nat := 1.

(** ** Algorithms and results *)

Record AlgoParams := mkParams {
  params_name : string;
  params_blob : list Byte.byte;
}.

#[export] Instance AlgoParams_eq_dec : EqDecision AlgoParams.
Proof. solve_decision. Defined.

Record AlgoOutput := mkOutput {
  algoName : string;
  output_data : list N;
  output_width : Z;
  output_height : Z;
}.

Record JobResult := mkResult {
  result_id : uint64;
  result_ok : bool;
  result_outputs : list AlgoOutput;
}.

(** ** Frames *)

Record FrameCpuAtom := mkAtom {
  atom_metadata : FrameMetadata;
  atom_data : list N;
  atom_result : JobResult;
}.

(** [result.ok = ok] and [result.id = id]. *)
Definition set_result_ok (ok : bool) (atom : FrameCpuAtom) : FrameCpuAtom :=
  mkAtom (atom_metadata atom) (atom_data atom)
    (mkResult (result_id (atom_result atom)) ok (result_outputs (atom_result atom))).

Definition set_result_id (id : uint64) (atom : FrameCpuAtom) : FrameCpuAtom :=
  mkAtom (atom_metadata atom) (atom_data atom)
    (mkResult id (result_ok (atom_result atom)) (result_outputs (atom_result atom))).

Definition makeOutput (name : string) (dimension : Z) : AlgoOutput :=
  mkOutput name (replicate (N.to_nat (squareBytes dimension 4)) 0) dimension dimension.

(** The byte the constructor writes at an index of [data]. *)
Definition frame_byte (frameId : uint64) (index : size_t) : N := add64 index frameId mod 251.

Definition FrameCpuAtom_construct (frameMetadata : FrameMetadata) (runtime : AlgoRuntimeInfo) :
    option FrameCpuAtom :=
  cel ← scaledDimension (sizeFactor runtime) CEL_MULTIPLIER;
  sdd ← scaledDimension (sizeFactor runtime) SDD_MULTIPLIER;
  mi ← scaledDimension (sizeFactor runtime) MI_MULTIPLIER;
  let frameId := frameId (md_key frameMetadata) in
  Some (mkAtom frameMetadata
    ((λ index, frame_byte frameId (N.of_nat index)) <$> seq 0 (N.to_nat (md_bytes frameMetadata)))
    (mkResult frameId true [makeOutput "cel" cel; makeOutput "sdd" sdd; makeOutput "mi" mi])).

Lemma FrameCpuAtom_construct_run md runtime :
  isValidFactor (sizeFactor runtime) = true →
  ∃ atom, FrameCpuAtom_construct md runtime = Some atom ∧ atom_metadata atom = md.
Proof.
  intros Hv. unfold FrameCpuAtom_construct.
  rewrite !scaledDimension_run by (done || unfold CEL_MULTIPLIER, SDD_MULTIPLIER, MI_MULTIPLIER; lia).
  cbn [mbind option_bind]. by eexists.
Qed.

(** ** The algorithms *)

(** [IAlgo]: an algorithm object, its virtual calls, and the three objects a task
    makes of [Cel], [Sdd] and [Mi].  A call on the device may change the machine,
    [launchKernels] and [launchD2H] do not change the object, and [collectResult]
    only reads. *)
Class IAlgo `{Platform} := {
  algorithm : Type;
  make_algorithms : list algorithm;
  algo_init : AlgoRuntimeInfo → TaskGpuResources → algorithm → world →
    bool * size_t * algorithm * world;
  notifyParameter : AlgoParams → algorithm → bool * algorithm;
  launchKernels : TaskGpuResources → ptr → ptr → algorithm → world → bool * world;
  launchD2H : TaskGpuResources → ptr → algorithm → world → bool * world;
  collectResult : TaskGpuResources → AlgoOutput → algorithm → world → bool * AlgoOutput;
  algo_close : algorithm → world → bool * algorithm * world;
}.
