(* ===== verification/DeviceCalls.v ===== *)
(** The rest of the CUDA runtime the demo calls: pinned host memory, transfers from
    the device and kernel launches.  A kernel is a function of the block's index,
    the block's size and the thread's index on the contents of device memory; the
    threads of a launch run in an order the device chooses.  Then the class of what
    the runtime documents about these calls. *)
From S2P Require Import Prelude.
From S2P Require Import Platform.
From S2P Require Import DeviceMemory.
#[local] Open Scope N_scope.

(** [dim3]; no launch of the program has a third dimension other than 1. *)
Record dim3 := mkDim3 {
  dim_x : uint32;
  dim_y : uint32;
}.

(** Device memory, byte by byte. *)
Abbreviation memory := (N → N).
Abbreviation kernel := (dim3 → dim3 → dim3 → memory → memory).

(** Pinned host memory, which the program and the transfers write:
    [cudaHostAlloc(&pointer, bytes, cudaHostAllocPortable)], [cudaFreeHost], the
    bytes at an address, and [std::memcpy] or [std::memset] to it. *)
Class HostMemory `{Platform} := {
  cudaHostAlloc : N → world → cuda_status * ptr * world;
  cudaFreeHost : ptr → world → cuda_status * world;
  host_bytes : ptr → N → world → list N;
  host_bytes_size pointer bytes w : vsize (host_bytes pointer bytes w) = bytes;
  host_store : ptr → list N → world → world;
}.

Class KernelDevice `{HostMemory} := {
  (** [cudaMemcpyAsync(destination, source, bytes, kind, stream)] *)
  cudaMemcpyDeviceToDevice : ptr → ptr → N → ptr → world → cuda_status * world;
  cudaMemcpyDeviceToHost : ptr → ptr → N → ptr → world → cuda_status * world;
  (** [kernel<<<grid, block, 0, stream>>>(...)]; the launch has no result. *)
  cudaLaunch : dim3 → dim3 → kernel → ptr → world → world;
  cudaGetLastError : world → cuda_status * world;
}.

(** ** The threads of a launch *)

(** A block's index and a thread's, for each of them. *)
Definition indices (d : dim3) : list dim3 :=
  x ← N.of_nat <$> seq 0 (N.to_nat (dim_x d));
  y ← N.of_nat <$> seq 0 (N.to_nat (dim_y d));
  mret (mkDim3 x y).

Definition threads_of (grid block : dim3) : list (dim3 * dim3) :=
  blockIdx ← indices grid; threadIdx ← indices block; mret (blockIdx, threadIdx).

Lemma indices_spec d i : i ∈ indices d ↔ dim_x i < dim_x d ∧ dim_y i < dim_y d.
Proof.
  unfold indices. rewrite list_elem_of_bind. setoid_rewrite list_elem_of_bind.
  setoid_rewrite list_elem_of_fmap. setoid_rewrite elem_of_seq. setoid_rewrite list_elem_of_ret. split.
  - intros (y & (x & -> & n & -> & ?) & m & -> & ?). simpl. lia.
  - intros [Hx Hy]. destruct i as [x y]. simpl in *. exists x. split; [|by exists (N.to_nat x); lia].
    exists y. split; [done|]. exists (N.to_nat y). lia.
Qed.

Lemma threads_of_spec grid block b t :
  (b, t) ∈ threads_of grid block ↔ b ∈ indices grid ∧ t ∈ indices block.
Proof.
  unfold threads_of. rewrite list_elem_of_bind. split.
  - intros (b' & (t' & [= <- <-]%list_elem_of_ret & ?)%list_elem_of_bind & ?). done.
  - intros [? ?]. exists b. rewrite list_elem_of_bind. split; [|done]. exists t. by rewrite list_elem_of_ret.
Qed.

(** The threads one after the other, as the device runs them. *)
Definition run_threads (k : kernel) (block : dim3) (threads : list (dim3 * dim3)) (m : memory) : memory :=
  foldl (λ m '(blockIdx, threadIdx), k blockIdx block threadIdx m) m threads.

(** If every thread writes, where it writes, what [value] says, and reads only
    what no thread writes, the launch writes that in any order. *)
Lemma run_threads_spec (k : kernel) block threads (m0 : memory)
    (writes : dim3 * dim3 → N → bool) (value : N → N) (input : N → Prop) :
  (∀ b t m, (b, t) ∈ threads → (∀ a, input a → m a = m0 a) →
     ∀ a, k b block t m a = if writes (b, t) a then value a else m a) →
  (∀ thread a, thread ∈ threads → writes thread a = true → ¬ input a) →
  ∀ a, run_threads k block threads m0 a
    = if existsb (λ thread, writes thread a) threads then value a else m0 a.
Proof.
  induction threads as [|[b t] threads IH] using rev_ind; intros Hk Hw a; [done|].
  unfold run_threads in *. rewrite foldl_app, existsb_app. simpl. rewrite orb_false_r.
  assert (∀ a, foldl (λ m '(b, t), k b block t m) m0 threads a
    = if existsb (λ thread, writes thread a) threads then value a else m0 a) as Hrun.
  { apply IH; intros; [apply Hk|eapply Hw]; rewrite ?elem_of_app; eauto. }
  rewrite Hk.
  - destruct (writes (b, t) a); [by rewrite orb_true_r|]. by rewrite orb_false_r, Hrun.
  - rewrite elem_of_app, list_elem_of_singleton. auto.
  - intros a' Ha'. rewrite Hrun. destruct (existsb _ threads) eqn:Hex; [|done].
    apply existsb_exists in Hex as (u & Hu & Hwr). apply list_elem_of_In in Hu.
    destruct (Hw u a'); [rewrite elem_of_app; auto|done|done].
Qed.

(** What the CUDA runtime documents about the rest of the calls: a launch runs the
    kernel for each of its threads, transfers copy, and a transfer to the host is
    seen by the program once its stream was synchronized. *)

(** The bytes from an address. *)
Definition bytes_at (content : memory) (p : ptr) (n : N) : list N :=
  (λ i, content (p + N.of_nat i)) <$> seq 0 (N.to_nat n).

Lemma bytes_at_size content p n : vsize (bytes_at content p n) = n.
Proof. unfold bytes_at. rewrite vsize_fmap. unfold vsize. rewrite length_seq. lia. Qed.

Lemma bytes_at_ext content content' p p' n :
  (∀ i, i < n → content (p + i) = content' (p' + i)) → bytes_at content p n = bytes_at content' p' n.
Proof. intros Heq. apply list_fmap_ext. intros i k [-> Hk]%lookup_seq. apply Heq. simpl. lia. Qed.

(** Any bytes of that size are those of some content. *)
Lemma bytes_at_list l n : vsize l = n → bytes_at (λ i, default 0 (vat l i)) 0 n = l.
Proof.
  intros Hl. apply list_eq. intros i. unfold bytes_at. rewrite list_lookup_fmap.
  destruct (decide (i < N.to_nat n)%nat) as [Hi|Hi].
  - rewrite lookup_seq_lt by done. simpl. rewrite vat_lookup.
    replace (N.to_nat (0 + N.of_nat i)) with i by lia.
    destruct (lookup_lt_is_Some_2 l i) as [x ->]; [unfold vsize in *; lia|done].
  - rewrite lookup_seq_ge by lia. simpl. symmetry. apply lookup_ge_None. unfold vsize in Hl. lia.
Qed.

Class KernelMemory `{P : Platform} `{!DeviceMemory} `{!HostMemory} `{!KernelDevice} := {
  (** The stream of the last transfer to a byte of host memory. *)
  host_writer : world → N → ptr;
  memory_launch grid block k stream w st w' :
    cudaGetLastError (cudaLaunch grid block k stream w) = (st, w') → cuda_ok st = true →
    ∃ threads, threads ≡ₚ threads_of grid block
      ∧ blocks w' = blocks w ∧ host_byte w' = host_byte w ∧ host_writer w' = host_writer w
      ∧ ∀ a, device_byte w' a = run_threads k block threads (device_byte w) a;
  memory_device_copy p source n stream w st w' :
    cudaMemcpyDeviceToDevice p source n stream w = (st, w') → cuda_ok st = true →
    blocks w' = blocks w ∧ host_byte w' = host_byte w ∧ host_writer w' = host_writer w
    ∧ ∀ a, device_byte w' a
        = if in_range p n a then device_byte w (source + (a - p)) else device_byte w a;
  memory_to_host p source n stream w st w' :
    cudaMemcpyDeviceToHost p source n stream w = (st, w') → cuda_ok st = true →
    blocks w' = blocks w ∧ device_byte w' = device_byte w
    ∧ (∀ a, host_byte w' a = if in_range p n a then device_byte w (source + (a - p)) else host_byte w a)
    ∧ (∀ a, host_writer w' a = if in_range p n a then stream else host_writer w a);
  memory_upload_writer p source n stream w st w' :
    cudaMemcpyAsync p source n stream w = (st, w') → host_writer w' = host_writer w;
  memory_store p l w :
    host_acts blocks device_byte host_byte in_flight w (host_store p l w)
    ∧ (∀ a, host_byte (host_store p l w) a
         = if in_range p (vsize l) a then default 0 (vat l (a - p)) else host_byte w a);
  (** What the program reads, once the stream that wrote there is drained. *)
  memory_read stream w st w' p n :
    cudaStreamSynchronize stream w = (st, w') → cuda_ok st = true →
    (∀ a, in_range p n a = true → host_writer w a = stream) →
    host_bytes p n w' = bytes_at (host_byte w) p n;
}.
