(* ===== verification/DummyTask.v ===== *)
(** [DummyTask] ([demo/DummyTask.h] and [.cpp]): a task with its private GPU
    resources and algorithms.  Its [TaskGpuResources] live in the registry's
    store, at the address the task registers.  The request to the cache may
    sleep, so [execute] is its part up to the request and its part from the
    access the request returned. *)
From stdpp Require Import strings.
From S2P Require Import Prelude.
From S2P Require Import Platform.
From S2P Require Import GpuDataKey.
From S2P Require Import CacheTypes.
From S2P Require Import GpuDataCache.
From S2P Require Import GpuDataAccess.
From S2P Require Import GpuTopology.
From S2P Require Import GpuContextManager.
From S2P Require Import StaticData.
From S2P Require Import ParameterRegistry.
From S2P Require Import DeviceCalls.
From S2P Require Import DemoTypes.
#[local] Open Scope N_scope.

Inductive TaskLifecycle :=
  | Constructed | Registered | Loaded | Started | Stopped | TaskFailed | Unloaded.

#[export] Instance TaskLifecycle_eq_dec : EqDecision TaskLifecycle.
Proof. solve_decision. Defined.

Definition lifecycle_eqb (a b : TaskLifecycle) : bool := bool_decide (a = b).

Definition NAME_PARAMETER : string := "dummy.name".
Definition BLOB_PARAMETER : string := "dummy.blob".

(** The rest of [TaskGpuResources]' setters. *)
#[export] Instance set_task_stream : Setter task_stream := ltac:(make_setter task_stream TaskGpuResources_eta).
#[export] Instance set_h_in : Setter h_in := ltac:(make_setter h_in TaskGpuResources_eta).
#[export] Instance set_inBytes : Setter inBytes := ltac:(make_setter inBytes TaskGpuResources_eta).
#[export] Instance set_d_input : Setter d_input := ltac:(make_setter d_input TaskGpuResources_eta).
#[export] Instance set_d_scratch : Setter d_scratch := ltac:(make_setter d_scratch TaskGpuResources_eta).
#[export] Instance set_scratchBytes : Setter scratchBytes := ltac:(make_setter scratchBytes TaskGpuResources_eta).
#[global] Arguments set_task_stream _ _ / : assert.
#[global] Arguments set_h_in _ _ / : assert.
#[global] Arguments set_inBytes _ _ / : assert.
#[global] Arguments set_d_input _ _ / : assert.
#[global] Arguments set_d_scratch _ _ / : assert.
#[global] Arguments set_scratchBytes _ _ / : assert.

Definition validRuntime (runtime : AlgoRuntimeInfo) : option bool :=
  if negb (isValidFactor (sizeFactor runtime)) then Some false
  else
    expectedFrameSize ← scaledDimension (sizeFactor runtime) INPUT_MULTIPLIER;
    let expectedInputBytes := squareBytes expectedFrameSize 1 in
    Some ((frameW runtime =? expectedFrameSize)%Z && (frameH runtime =? expectedFrameSize)%Z
          && (runtime_inBytes runtime =? expectedInputBytes)).

Section tasks.
Context `{IAlgo} `{!GpuDriver} `{!HostMemory}.

(** [resources] is the address of the task's [TaskGpuResources];
    [parameterRegistry] says whether the pointer to the graph's registry is
    set. *)
Record DummyTask := mkDummyTask {
  id : Z;
  executionModel : ExecutionModel;
  algoRuntime : AlgoRuntimeInfo;
  resources : ptr;
  algorithms : list algorithm;
  parameterRegistry : bool;
  appliedParameterRevision : uint64;
  task_state : TaskLifecycle;
}.

Definition DummyTask_eta t :=
  mkDummyTask (id t) (executionModel t) (algoRuntime t) (resources t) (algorithms t)
    (parameterRegistry t) (appliedParameterRevision t) (task_state t).
#[export] Instance set_algorithms : Setter algorithms := ltac:(make_setter algorithms DummyTask_eta).
#[export] Instance set_parameterRegistry : Setter parameterRegistry := ltac:(make_setter parameterRegistry DummyTask_eta).
#[export] Instance set_appliedParameterRevision : Setter appliedParameterRevision := ltac:(make_setter appliedParameterRevision DummyTask_eta).
#[export] Instance set_task_state : Setter task_state := ltac:(make_setter task_state DummyTask_eta).

(** [DummyTask(instanceId, model, runtime)], with its resources at [address]. *)
Definition DummyTask_construct (instanceId : Z) (model : ExecutionModel) (runtime : AlgoRuntimeInfo)
    (address : ptr) : DummyTask :=
  mkDummyTask instanceId model runtime address [] false 0 Constructed.

(** ** Parameters *)

Definition registerParameters (t : DummyTask) (r : ParameterRegistry) :
    bool * DummyTask * ParameterRegistry :=
  if negb (lifecycle_eqb (task_state t) Constructed) then (false, t, r)
  else
    let '(ok, r) := registerParameter NAME_PARAMETER ParameterString r in
    if negb ok then (false, t, r)
    else
      let '(ok, r) := registerParameter BLOB_PARAMETER ParameterBytes r in
      if negb ok then (false, t, r)
      else (true, t <| parameterRegistry := true |> <| task_state := Registered |>, r).

(** The loop over the algorithms; it stops at the first that refuses. *)
Fixpoint notifyAlgorithms (values : AlgoParams) (algorithms : list algorithm) :
    bool * list algorithm :=
  match algorithms with
  | [] => (true, [])
  | a :: rest =>
      let '(ok, a) := notifyParameter values a in
      if negb ok then (false, a :: rest)
      else let '(ok, rest) := notifyAlgorithms values rest in (ok, a :: rest)
  end.

Definition applyParameters (parameters : ParameterSnapshot) (t : DummyTask) : bool * DummyTask :=
  let '(named, name) := getString parameters NAME_PARAMETER "" in
  if negb named then (false, t)
  else
    let '(found, blob) := getBytes parameters BLOB_PARAMETER [] in
    if negb found then (false, t)
    else
      let '(ok, notified) := notifyAlgorithms (mkParams name blob) (algorithms t) in
      let t := t <| algorithms := notified |> in
      if negb ok then (false, t)
      else (true, t <| appliedParameterRevision := snapshot_revision parameters |>).

Definition notifyParameters (parameters : ParameterSnapshot) (t : DummyTask) (infra : GpuInfra)
    (w : world) : option (bool * DummyTask * world) :=
  if negb (lifecycle_eqb (task_state t) Loaded) && negb (lifecycle_eqb (task_state t) Started)
     && negb (lifecycle_eqb (task_state t) Stopped)
  then Some (false, t, w)
  else if snapshot_revision parameters <? appliedParameterRevision t then Some (false, t, w)
  else if snapshot_revision parameters =? appliedParameterRevision t then Some (true, t, w)
  else
    '(current, w) ← makeTaskCurrent (resources t) infra w;
    if negb current then Some (false, t <| task_state := TaskFailed |>, w)
    else
      let '(applied, t) := applyParameters parameters t in
      if negb applied then Some (false, t <| task_state := TaskFailed |>, w)
      else Some (true, t, w).

(** ** Start and stop *)

Definition task_start (t : DummyTask) : bool * DummyTask :=
  if negb (lifecycle_eqb (task_state t) Loaded) then (false, t)
  else (true, t <| task_state := Started |>).

Definition task_stop (t : DummyTask) : bool * DummyTask :=
  if negb (lifecycle_eqb (task_state t) Started) then (false, t)
  else (true, t <| task_state := Stopped |>).

(** ** Releasing the resources *)

Fixpoint closeAlgorithms (algorithms : list algorithm) (w : world) : bool * world :=
  match algorithms with
  | [] => (true, w)
  | a :: rest =>
      let '(closed, _, w) := algo_close a w in
      let '(ok, w) := closeAlgorithms rest w in
      (closed && ok, w)
  end.

(** [CUDA_CHECK(free(pointer), ok = false)] on a pointer that is not null. *)
Definition released_by (free : ptr → world → cuda_status * world) (pointer : ptr) (w : world) :
    bool * world :=
  if negb (pointer =? nullptr) then let '(status, w) := free pointer w in (cuda_ok status, w)
  else (true, w).

(** [releaseResources]: the flag, the task, the registry and the machine. *)
Definition releaseResources (t : DummyTask) (infra : GpuInfra) (w : world) :
    option (bool * DummyTask * GpuInfra * world) :=
  r ← task_store infra !! resources t;
  '(current, w) ←
    (if negb (ctx r =? nullptr) then makeTaskCurrent (resources t) infra w else Some (true, w));
  let '(drained, w) := released_by cudaStreamSynchronize (task_stream r) w in
  let '(closed, w) := closeAlgorithms (algorithms t) w in
  let '(freed_scratch, w) := released_by cudaFree (d_scratch r) w in
  let '(freed_input, w) := released_by cudaFree (d_input r) w in
  let '(freed_host, w) := released_by cudaFreeHost (h_in r) w in
  let '(destroyed, w) := released_by cudaStreamDestroy (task_stream r) w in
  let r := r <| d_scratch := nullptr |> <| scratchBytes := 0 |> <| d_input := nullptr |>
             <| h_in := nullptr |> <| task_stream := nullptr |> <| inBytes := 0 |> in
  let infra := infra <| task_store := <[resources t := r]> (task_store infra) |> in
  '(unregistered, infra) ← unregisterTask (resources t) infra;
  Some (current && drained && closed && freed_scratch && freed_input && freed_host && destroyed
          && unregistered,
        t <| algorithms := [] |>, infra, w).

Definition task_unload (t : DummyTask) (infra : GpuInfra) (w : world) :
    option (bool * DummyTask * GpuInfra * world) :=
  if lifecycle_eqb (task_state t) Unloaded then Some (true, t, infra, w)
  else if lifecycle_eqb (task_state t) Started then Some (false, t, infra, w)
  else
    '(ok, t, infra, w) ← releaseResources t infra w;
    Some (ok, t <| parameterRegistry := false |> <| appliedParameterRevision := 0 |>
                <| task_state := Unloaded |>, infra, w).

(** [~DummyTask()] *)
Definition task_destruct (t : DummyTask) (infra : GpuInfra) (w : world) : option (GpuInfra * world) :=
  let t := if lifecycle_eqb (task_state t) Started then snd (task_stop t) else t in
  '(_, _, infra, w) ← task_unload t infra w;
  Some (infra, w).

(** ** Loading *)

(** [state = Failed; releaseResources(); return false;] *)
Definition load_failed (t : DummyTask) (infra : GpuInfra) (w : world) :
    option (bool * DummyTask * GpuInfra * world) :=
  '(_, t, infra, w) ← releaseResources (t <| task_state := TaskFailed |>) infra w;
  Some (false, t, infra, w).

(** The stream and the buffers: [ok], and the resources with what was obtained. *)
Definition load_buffers (r : TaskGpuResources) (w : world) : bool * TaskGpuResources * world :=
  let '(status, stream, w) := cudaStreamCreate w in
  let r := r <| task_stream := stream |> in
  if negb (cuda_ok status) then (false, r, w)
  else
    let '(status, h, w) := cudaHostAlloc (inBytes r) w in
    let r := r <| h_in := h |> in
    if negb (cuda_ok status) then (false, r, w)
    else
      let w := host_store h (replicate (N.to_nat (inBytes r)) 0) w in
      let '(status, d, w) := cudaMalloc (inBytes r) w in
      let r := r <| d_input := d |> in
      if negb (cuda_ok status) then (false, r, w)
      else
        let '(status, w) := cudaMemsetAsync d (inBytes r) stream w in (cuda_ok status, r, w).

(** The loop that prepares the algorithms: [ok], the objects and the largest
    scratch size so far. *)
Fixpoint initAlgorithms (runtime : AlgoRuntimeInfo) (r : TaskGpuResources)
    (algorithms : list algorithm) (scratch : size_t) (w : world) :
    bool * list algorithm * size_t * world :=
  match algorithms with
  | [] => (true, [], scratch, w)
  | a :: rest =>
      let '(ok, algorithmScratchBytes, a, w) := algo_init runtime r a w in
      if negb ok then (false, a :: rest, scratch, w)
      else
        let '(ok, rest, scratch, w) :=
          initAlgorithms runtime r rest (N.max scratch algorithmScratchBytes) w in
        (ok, a :: rest, scratch, w)
  end.

(** The scratch buffer and the last synchronization. *)
Definition load_scratch (scratch : size_t) (r : TaskGpuResources) (w : world) :
    bool * TaskGpuResources * world :=
  let '(ok, r, w) :=
    if 0 <? scratch then
      let '(status, d, w) := cudaMalloc scratch w in
      let r := r <| d_scratch := d |> in
      if negb (cuda_ok status) then (false, r, w)
      else
        let '(status, w) := cudaMemsetAsync d scratch (task_stream r) w in
        (cuda_ok status, r <| scratchBytes := scratch |>, w)
    else (true, r, w) in
  if negb ok then (false, r, w)
  else let '(status, w) := cudaStreamSynchronize (task_stream r) w in (cuda_ok status, r, w).

(** Everything between the registration of the task and its verdict. *)
Definition load_resources (initialParameters : ParameterSnapshot) (t : DummyTask)
    (r : TaskGpuResources) (w : world) : bool * DummyTask * TaskGpuResources * world :=
  let r := r <| inBytes := runtime_inBytes (algoRuntime t) |> in
  let '(ok, r, w) := load_buffers r w in
  if negb ok then (false, t, r, w)
  else
    let '(ok, made, scratch, w) := initAlgorithms (algoRuntime t) r make_algorithms 0 w in
    let t := t <| algorithms := algorithms t ++ made |> in
    if negb ok then (false, t, r, w)
    else
      let '(ok, r, w) := load_scratch scratch r w in
      if negb ok then (false, t, r, w)
      else let '(ok, t) := applyParameters initialParameters t in (ok, t, r, w).

Definition task_load (registry : ParameterRegistry) (t : DummyTask) (infra : GpuInfra) (w : world) :
    option (bool * DummyTask * GpuInfra * world) :=
  let '(taken, initialParameters) := snapshot registry ParameterSnapshot_default in
  if negb (lifecycle_eqb (task_state t) Registered) || negb (parameterRegistry t) || negb taken
     || (id t <? 0)%Z
  then Some (false, t, infra, w)
  else
    valid ← validRuntime (algoRuntime t);
    if negb valid then Some (false, t, infra, w)
    else
      '(resolved, gpuIds) ← gpuIdsForCurrentNumaNode infra w;
      '(registered, infra) ←
        (if resolved : bool then gpuId ← head gpuIds; registerTask gpuId (resources t) infra
         else Some (false, infra));
      if negb registered then load_failed t infra w
      else
        '(current, w) ← makeTaskCurrent (resources t) infra w;
        if negb current then load_failed t infra w
        else
          r ← task_store infra !! resources t;
          let '(ok, t, r, w) := load_resources initialParameters t r w in
          let infra := infra <| task_store := <[resources t := r]> (task_store infra) |> in
          if negb ok then load_failed t infra w
          else Some (true, t <| task_state := Loaded |>, infra, w).

(** ** Execution *)

(** The checks of [execute], up to the request to the cache: the frame, and the
    request if there is one. *)
Definition execute_begin (t : DummyTask) (atom : FrameCpuAtom) (infra : GpuInfra) (w : world) :
    option (option GpuCacheRequest * FrameCpuAtom * world) :=
  let md := atom_metadata atom in
  let atom := set_result_id (frameId (md_key md)) atom in
  if negb (lifecycle_eqb (task_state t) Started) then Some (None, set_result_ok false atom, w)
  else
    r ← task_store infra !! resources t;
    if negb (vsize (atom_data atom) =? md_bytes md) || negb (md_bytes md =? inBytes r)
       || negb (md_width md =? frameW (algoRuntime t))%Z
       || negb (md_height md =? frameH (algoRuntime t))%Z
       || negb (md_dtype md =? frameDtype (algoRuntime t))%Z
    then Some (None, set_result_ok false atom, w)
    else if (d_input r =? nullptr)
            || negb (vsize (result_outputs (atom_result atom)) =? vsize (algorithms t))
    then Some (None, set_result_ok false atom, w)
    else
      '(current, w) ← makeTaskCurrent (resources t) infra w;
      let atom := set_result_ok current atom in
      if negb current then Some (None, atom, w)
      else
        Some (Some (mkRequest (task_gpuId r) (task_stream r) (d_input r) (inBytes r)), atom, w).

(** The upload of a frame that is not resident, from the pinned memory. *)
Fixpoint upload_frame (repeat : nat) (destination source : ptr) (bytes : size_t) (stream : ptr)
    (w : world) : bool * world :=
  match repeat with
  | O => (true, w)
  | S repeat =>
      let '(status, w) := cudaMemcpyAsync destination source bytes stream w in
      if cuda_ok status then upload_frame repeat destination source bytes stream w else (false, w)
  end.

(** A loop of enqueueing calls that stops at the first failure. *)
Fixpoint enqueue (call : algorithm → world → bool * world) (algorithms : list algorithm)
    (w : world) : bool * world :=
  match algorithms with
  | [] => (true, w)
  | a :: rest =>
      let '(ok, w) := call a w in if ok then enqueue call rest w else (false, w)
  end.

(** The kernels and transfers, in the order of the execution model. *)
Definition compute (t : DummyTask) (r : TaskGpuResources) (d_frameData stream : ptr) (w : world) :
    bool * world :=
  match executionModel t with
  | Batched =>
      let '(ok, w) := enqueue (launchKernels r d_frameData stream) (algorithms t) w in
      if ok then enqueue (launchD2H r stream) (algorithms t) w else (false, w)
  | Interleaved =>
      enqueue (λ a w,
        let '(ok, w) := launchKernels r d_frameData stream a w in
        if ok then launchD2H r stream a w else (false, w)) (algorithms t) w
  | OtherModel _ => (false, w)
  end.

(** The outputs after the results were collected, up to the first failure. *)
Fixpoint collectResults (r : TaskGpuResources) (algorithms : list algorithm)
    (outputs : list AlgoOutput) (w : world) : option (bool * list AlgoOutput) :=
  match algorithms with
  | [] => Some (true, outputs)
  | a :: algorithms =>
      match outputs with
      | [] => None
      | output :: outputs =>
          let '(ok, output) := collectResult r output a w in
          if negb ok then Some (false, output :: outputs)
          else
            '(ok, outputs) ← collectResults r algorithms outputs w;
            Some (ok, output :: outputs)
      end
  end.

(** [execute] from the access the cache returned to its result. *)
Definition execute_finish (t : DummyTask) (access : GpuDataAccess) (atom : FrameCpuAtom)
    (infra : GpuInfra) (c : GpuDataCache) (w : world) :
    option (bool * FrameCpuAtom * GpuDataCache * world) :=
  r ← task_store infra !! resources t;
  if status_eqb (accessStatus access) Invalid
  then
    '(c, w) ← access_destruct access c w;
    Some (false, set_result_ok false atom, c, w)
  else
    let '(uploaded, w) :=
      if status_eqb (accessStatus access) CacheFill || status_eqb (accessStatus access) TaskFallback
      then
        let w := host_store (h_in r) (atom_data atom) w in
        upload_frame H2D_SIZE_MULTIPLIER (writableData access) (h_in r) (inBytes r) (stream access) w
      else (true, w) in
    let '(computed, w) :=
      match executionModel t with
      | OtherModel _ => (false, w)
      | _ => if uploaded then compute t r (d_data access) (stream access) w else (false, w)
      end in
    '(freed, access, c, w) ← freeCacheData access computed Keep c w;
    '(ok, outputs) ←
      (if computed && freed then collectResults r (algorithms t) (result_outputs (atom_result atom)) w
       else Some (false, result_outputs (atom_result atom)));
    '(c, w) ← access_destruct access c w;
    Some (ok : bool,
          mkAtom (atom_metadata atom) (atom_data atom)
            (mkResult (result_id (atom_result atom)) ok outputs), c, w).

End tasks.
