(* ===== verification/MatrixAlgo.v ===== *)
(** The demo's algorithms ([demo/Algo/Cel.h], [Cel.cu], [Sdd.h], [Sdd.cu], [Mi.h],
    [Mi.cu]): each squares the top-left region of a frame on the device.  The three
    classes differ only in their name and in the size of the region, so that one
    set of definitions models their methods; a class is the record of its virtual
    functions, and the implementation of [IAlgo] calls them through it. *)
From stdpp Require Import strings.
From S2P Require Import Prelude.
From S2P Require Import Platform.
From S2P Require Import GpuContextManager.
From S2P Require Import StaticData.
From S2P Require Import DeviceMemory.
From S2P Require Import DemoTypes.
From S2P Require Import DeviceCalls.
From S2P Require Import DummyTask.
#[local] Open Scope N_scope.

(** The other multipliers of [WorkloadSizing.h]. *)
Definition D2H_SIZE_MULTIPLIER : nat := 1.
Definition COMPUTE_SIZE_MULTIPLIER : nat := 3.

(** [CEL_BLOCK_DIM], [SDD_BLOCK_DIM], [MI_BLOCK_DIM] *)
Definition BLOCK_DIM : uint32 := 16.

Definition u32 (x : N) : uint32 := x mod 4294967296.

(** [static_cast<unsigned int>(int)] *)
Definition int_to_u32 (x : Z) : uint32 := Z.to_N (x mod 4294967296).

(** ** The kernel *)

(** A [std::uint32_t] in memory, the low byte first. *)
Definition byte_of (x : uint32) (i : N) : N := N.land (N.shiftr x (8 * i)) 255.
Definition store32 (p : ptr) (x : uint32) (m : memory) : memory :=
  λ a, if in_range p 4 a then byte_of x (a - p) else m a.

Section kernel.
Context (d_input d_outputMatrix : ptr) (nx inputStride : Z).

(** The loop over [k] in the row [y] and the column [x]. *)
Definition row_times_column (y x : Z) (m : memory) : uint32 :=
  let inputRowOffset := mul64 (int_to_size y) (int_to_size inputStride) in
  foldl (λ sum k,
    let a := m (d_input + add64 inputRowOffset (int_to_size k)) in
    let b := m (d_input + add64 (mul64 (int_to_size k) (int_to_size inputStride)) (int_to_size x)) in
    u32 (sum + u32 (a * b))) 0 (seqZ 0 nx).

(** The loop over [repeat]. *)
Fixpoint compute_repeats (repeats : nat) (y x : Z) (m : memory) : memory :=
  match repeats with
  | O => m
  | S repeats =>
      let outputRowOffset := mul64 (int_to_size y) (int_to_size nx) in
      compute_repeats repeats y x
        (store32 (d_outputMatrix + 4 * add64 outputRowOffset (int_to_size x)) (row_times_column y x m) m)
  end.

(** One thread of [celMatrixMultiplicationKernel]. *)
Definition matrixMultiplicationKernel : kernel := λ blockIdx blockDim threadIdx m,
  let x := to_int (u32 (dim_x blockIdx * dim_x blockDim + dim_x threadIdx)) in
  let y := to_int (u32 (dim_y blockIdx * dim_y blockDim + dim_y threadIdx)) in
  if (nx <=? x)%Z || (nx <=? y)%Z then m else compute_repeats COMPUTE_SIZE_MULTIPLIER y x m.

End kernel.

(** [dim3 grid((matrixSize + block.x - 1U) / block.x, ...)] *)
Definition matrix_block : dim3 := mkDim3 BLOCK_DIM BLOCK_DIM.
Definition matrix_grid (matrixSize : Z) : dim3 :=
  mkDim3 (u32 (int_to_u32 matrixSize + dim_x matrix_block - 1) / dim_x matrix_block)
         (u32 (int_to_u32 matrixSize + dim_y matrix_block - 1) / dim_y matrix_block).

(** ** The object *)

Record MatrixAlgo := mkMatrixAlgo {
  algo_gpuId : Z;
  algo_resourceId : Z;
  algo_frameW : Z;
  algo_frameH : Z;
  matrixSize : Z;
  algo_inBytes : size_t;
  matrixBytes : size_t;
  d_outputMatrix : ptr;
  h_outputMatrix : ptr;
  algo_initialized : bool;
  algoParams : AlgoParams;
}.

Definition MatrixAlgo_default : MatrixAlgo :=
  mkMatrixAlgo (-1) (-1) 0 0 0 0 0 nullptr nullptr false (mkParams "" []).

Definition MatrixAlgo_eta a :=
  mkMatrixAlgo (algo_gpuId a) (algo_resourceId a) (algo_frameW a) (algo_frameH a) (matrixSize a)
    (algo_inBytes a) (matrixBytes a) (d_outputMatrix a) (h_outputMatrix a) (algo_initialized a)
    (algoParams a).
#[export] Instance set_d_outputMatrix : Setter d_outputMatrix := ltac:(make_setter d_outputMatrix MatrixAlgo_eta).
#[export] Instance set_h_outputMatrix : Setter h_outputMatrix := ltac:(make_setter h_outputMatrix MatrixAlgo_eta).
#[export] Instance set_algo_initialized : Setter algo_initialized := ltac:(make_setter algo_initialized MatrixAlgo_eta).
#[export] Instance set_algoParams : Setter algoParams := ltac:(make_setter algoParams MatrixAlgo_eta).
#[global] Arguments set_d_outputMatrix _ _ / : assert.
#[global] Arguments set_h_outputMatrix _ _ / : assert.
#[global] Arguments set_algo_initialized _ _ / : assert.
#[global] Arguments set_algoParams _ _ / : assert.

Section methods.
Context `{KernelDevice}.
(** The class's name in the results and its multiplier in [ImageSizing]. *)
Context (name : string) (multiplier : Z).
Implicit Types (a : MatrixAlgo) (r : TaskGpuResources) (w : world).

(** [close]; it returns early, with everything in place, if the device cannot be
    selected. *)
Definition matrix_close a w : bool * MatrixAlgo * world :=
  let '(selected, w) :=
    if negb (d_outputMatrix a =? nullptr) || negb (h_outputMatrix a =? nullptr)
    then let '(status, w) := cudaSetDevice (algo_gpuId a) w in (cuda_ok status, w)
    else (true, w) in
  if negb selected then (false, a, w)
  else
    let '(freed, w) := released_by cudaFree (d_outputMatrix a) w in
    let '(freed_host, w) := released_by cudaFreeHost (h_outputMatrix a) w in
    (freed && freed_host, MatrixAlgo_default, w).

(** [close(); return false;] *)
Definition init_failed a w : bool * size_t * MatrixAlgo * world :=
  let '(_, a, w) := matrix_close a w in (false, 0, a, w).

(** The matrices, of [init]: the device's, the host's, and their zeros. *)
Definition init_matrices (stream : ptr) a w : bool * size_t * MatrixAlgo * world :=
  let '(status, d, w) := cudaMalloc (matrixBytes a) w in
  let a := a <| d_outputMatrix := d |> in
  if negb (cuda_ok status) then init_failed a w
  else
    let '(status, h, w) := cudaHostAlloc (matrixBytes a) w in
    let a := a <| h_outputMatrix := h |> in
    if negb (cuda_ok status) then init_failed a w
    else
      let w := host_store h (replicate (N.to_nat (matrixBytes a)) 0) w in
      let '(status, w) := cudaMemsetAsync d (matrixBytes a) stream w in
      if negb (cuda_ok status) then init_failed a w
      else (true, 0, a <| algo_initialized := true |>, w).

(** [init]: the result, [scratchBytes], the object and the machine. *)
Definition matrix_init (info : AlgoRuntimeInfo) r a w : option (bool * size_t * MatrixAlgo * world) :=
  if (resourceId r <? 0)%Z || (task_gpuId r <? 0)%Z || (task_stream r =? nullptr)
     || negb (isValidFactor (sizeFactor info))
  then Some (false, 0, a, w)
  else
    outputSize ← scaledDimension (sizeFactor info) multiplier;
    if (frameW info <? outputSize)%Z || (frameH info <? outputSize)%Z then Some (false, 0, a, w)
    else
      let frameBytes := mul64 (int_to_size (frameW info)) (int_to_size (frameH info)) in
      if runtime_inBytes info <? frameBytes then Some (false, 0, a, w)
      else
        let '(closed, a, w) := matrix_close a w in
        if negb closed then Some (false, 0, a, w)
        else
          let a := mkMatrixAlgo (task_gpuId r) (resourceId r) (frameW info) (frameH info) outputSize
                     (runtime_inBytes info) (squareBytes outputSize 4) (d_outputMatrix a)
                     (h_outputMatrix a) (algo_initialized a) (algoParams a) in
          let '(status, w) := cudaSetDevice (algo_gpuId a) w in
          if negb (cuda_ok status) then Some (false, 0, a, w)
          else Some (init_matrices (task_stream r) a w).

Definition matrix_notifyParameter (params : AlgoParams) a : bool * MatrixAlgo :=
  if negb (algo_initialized a) then (false, a) else (true, a <| algoParams := params |>).

(** The object was initialized for these resources. *)
Definition bound_to r a : bool :=
  algo_initialized a && (resourceId r =? algo_resourceId a)%Z && (task_gpuId r =? algo_gpuId a)%Z.

Definition matrix_launchKernels r (d_frameData stream : ptr) a w : bool * world :=
  if negb (bound_to r a) || (d_frameData =? nullptr) || (stream =? nullptr)
     || negb (stream =? task_stream r)
  then (false, w)
  else
    let w := cudaLaunch (matrix_grid (matrixSize a)) matrix_block
               (matrixMultiplicationKernel d_frameData (d_outputMatrix a) (matrixSize a) (algo_frameW a))
               stream w in
    let '(status, w) := cudaGetLastError w in
    (cuda_ok status, w).

(** The loop over [repeat] in [launchD2H]. *)
Fixpoint copy_repeats (repeats : nat) (stream : ptr) a w : bool * world :=
  match repeats with
  | O => (true, w)
  | S repeats =>
      let '(status, w) :=
        cudaMemcpyDeviceToHost (h_outputMatrix a) (d_outputMatrix a) (matrixBytes a) stream w in
      if cuda_ok status then copy_repeats repeats stream a w else (false, w)
  end.

Definition matrix_launchD2H r (stream : ptr) a w : bool * world :=
  if negb (bound_to r a) || (stream =? nullptr) || negb (stream =? task_stream r) then (false, w)
  else copy_repeats D2H_SIZE_MULTIPLIER stream a w.

Definition matrix_collectResult r (output : AlgoOutput) a w : bool * AlgoOutput :=
  if negb (bound_to r a) then (false, output)
  else if negb (String.eqb (algoName output) name) || negb (output_width output =? matrixSize a)%Z
          || negb (output_height output =? matrixSize a)%Z
          || negb (vsize (output_data output) =? matrixBytes a)
  then (false, output)
  else
    (true, mkOutput (algoName output) (host_bytes (h_outputMatrix a) (matrixBytes a) w)
             (output_width output) (output_height output)).

(** [~Cel()] *)
Definition matrix_destruct a w : world := snd (matrix_close a w).

End methods.

(** ** The classes *)

Section classes.
Context `{KernelDevice}.

(** The virtual functions. *)
Record AlgoClass := mkClass {
  class_init : AlgoRuntimeInfo → TaskGpuResources → MatrixAlgo → world →
    option (bool * size_t * MatrixAlgo * world);
  class_notifyParameter : AlgoParams → MatrixAlgo → bool * MatrixAlgo;
  class_launchKernels : TaskGpuResources → ptr → ptr → MatrixAlgo → world → bool * world;
  class_launchD2H : TaskGpuResources → ptr → MatrixAlgo → world → bool * world;
  class_collectResult : TaskGpuResources → AlgoOutput → MatrixAlgo → world → bool * AlgoOutput;
  class_close : MatrixAlgo → world → bool * MatrixAlgo * world;
}.

Definition matrix_class (name : string) (multiplier : Z) : AlgoClass :=
  mkClass (matrix_init multiplier) matrix_notifyParameter matrix_launchKernels matrix_launchD2H
    (matrix_collectResult name) matrix_close.

Definition Cel : AlgoClass := matrix_class "cel" CEL_MULTIPLIER.
Definition Sdd : AlgoClass := matrix_class "sdd" SDD_MULTIPLIER.
Definition Mi : AlgoClass := matrix_class "mi" MI_MULTIPLIER.

(** An object is its class and its fields; [make_unique<Cel>()] and so on.  The
    classes' [init] is defined on every input ([matrix_init_defined]), so that the
    [None] below does not occur. *)
#[export] Instance MatrixAlgorithms : IAlgo := {|
  algorithm := AlgoClass * MatrixAlgo;
  make_algorithms := (λ c, (c, MatrixAlgo_default)) <$> [Cel; Sdd; Mi];
  algo_init info r '(c, a) w :=
    match class_init c info r a w with
    | Some (ok, scratchBytes, a, w) => (ok, scratchBytes, (c, a), w)
    | None => (false, 0, (c, a), w)
    end;
  notifyParameter params '(c, a) :=
    let '(ok, a) := class_notifyParameter c params a in (ok, (c, a));
  launchKernels r d_frameData stream '(c, a) w := class_launchKernels c r d_frameData stream a w;
  launchD2H r stream '(c, a) w := class_launchD2H c r stream a w;
  collectResult r output '(c, a) w := class_collectResult c r output a w;
  algo_close '(c, a) w := let '(ok, a, w) := class_close c a w in (ok, (c, a), w);
|}.

End classes.
