(* ===== verification/MatrixKernel.v ===== *)
(** The kernel of [Cel], [Sdd] and [Mi] computes the square of a frame's region,
    whatever the order of its threads. *)
From stdpp Require Import strings.
From S2P Require Import Prelude.
From S2P Require Import Platform.
From S2P Require Import GpuContextManager.
From S2P Require Import RegistryInvariant.
From S2P Require Import DeviceMemory.
From S2P Require Import DemoTypes.
From S2P Require Import DeviceCalls.
From S2P Require Import MatrixAlgo.
#[local] Open Scope N_scope.

(** ** The reference *)

(** The entry of the square of the top-left [nx] by [nx] region of a frame whose
    rows are [stride] pixels long, mod [2 ^ 32]. *)
Definition square_entry (pixel : N → N) (nx stride y x : N) : uint32 :=
  u32 (foldr N.add 0
    ((λ k, pixel (y * stride + N.of_nat k) * pixel (N.of_nat k * stride + x)) <$> seq 0 (N.to_nat nx))).

(** The bytes of the matrix, row by row. *)
Definition square_byte (pixel : N → N) (nx stride i : N) : N :=
  byte_of (square_entry pixel nx stride (i / 4 / nx) (i / 4 mod nx)) (i mod 4).

(** ** Sums *)

Lemma u32_small x : x < 4294967296 → u32 x = x.
Proof. apply N.mod_small. Qed.

Lemma foldl_u32 {A} (f : A → N) l s :
  foldl (λ sum k, u32 (sum + u32 (f k))) (u32 s) l = u32 (s + foldr N.add 0 (f <$> l)).
Proof.
  revert s. induction l as [|k l IH]; intros s; simpl; [by rewrite N.add_0_r|].
  replace (u32 (u32 s + u32 (f k))) with (u32 (s + f k)); [by rewrite IH, N.add_assoc|].
  unfold u32. by rewrite <-N.Div0.add_mod.
Qed.

Lemma int_to_size_nat n : n < two64 → int_to_size (Z.of_N n) = n.
Proof. unfold int_to_size, two64. intros Hn. rewrite Z.mod_small by lia. lia. Qed.

Section kernel.
Context (input output : ptr) (nx stride : N).
Context (Hpos : 0 < nx) (Hnx : nx ≤ stride) (Hstride : stride < 1073741824).

Lemma square_lt i k : i < nx → k ≤ nx → i * stride + k < two64.
Proof using Hnx Hpos Hstride.
  intros Hi Hk. unfold two64. assert (i * stride < 1073741824 * 1073741824) by nia. lia.
Qed.

Lemma row_times_column_correct y x (m : memory) :
  y < nx → x < nx →
  row_times_column input (Z.of_N nx) (Z.of_N stride) (Z.of_N y) (Z.of_N x) m
  = square_entry (λ i, m (input + i)) nx stride y x.
Proof using Hnx Hpos Hstride.
  intros Hy Hx. unfold row_times_column, square_entry.
  rewrite !int_to_size_nat by (unfold two64; lia).
  rewrite mul64_small by (rewrite <-(N.add_0_r (y * stride)); apply square_lt; lia).
  change 0 with (u32 0) at 1. rewrite foldl_u32, N.add_0_l. f_equal. unfold seqZ.
  rewrite <-list_fmap_compose. replace (Z.to_nat (Z.of_N nx)) with (N.to_nat nx) by lia. f_equal.
  apply list_fmap_ext. intros i k [-> Hk]%lookup_seq. simpl.
  replace (Z.of_nat i + 0)%Z with (Z.of_N (N.of_nat i)) by lia.
  rewrite int_to_size_nat by (unfold two64; lia).
  rewrite mul64_small by (rewrite <-(N.add_0_r (_ * stride)); apply square_lt; lia).
  rewrite !add64_small by (apply square_lt; lia). done.
Qed.

(** The address of an entry. *)
Definition entry_address (y x : N) : ptr := output + 4 * (y * nx + x).

Lemma compute_repeats_correct repeats y x (m : memory) :
  apart input (stride * nx) output (4 * (nx * nx)) → y < nx → x < nx → ∀ a,
  compute_repeats input output (Z.of_N nx) (Z.of_N stride) (S repeats) (Z.of_N y) (Z.of_N x) m a
  = if in_range (entry_address y x) 4 a
    then byte_of (square_entry (λ i, m (input + i)) nx stride y x) (a - entry_address y x) else m a.
Proof using Hnx Hpos Hstride.
  intros Hap Hy Hx. assert (y * nx + x < nx * nx) as Hin by nia.
  assert (nx * nx < 1073741824 * 1073741824) as Hsq by nia.
  assert (output + 4 * add64 (mul64 (int_to_size (Z.of_N y)) (int_to_size (Z.of_N nx))) (int_to_size (Z.of_N x))
    = entry_address y x) as Haddr.
  { rewrite !int_to_size_nat by (unfold two64; lia). rewrite mul64_small by (unfold two64; lia).
    rewrite add64_small by (unfold two64; lia). done. }
  revert m. induction repeats as [|repeats IH]; intros m a.
  - cbn [compute_repeats]. rewrite Haddr, row_times_column_correct by done. done.
  - remember (S repeats) as n. cbn [compute_repeats]. rewrite Haddr, row_times_column_correct by done.
    rewrite IH. assert (∀ p q, p < nx → q < nx → in_range (entry_address y x) 4 (input + (p * stride + q)) = false) as Hout.
    { intros p q Hp Hq. destruct (in_range_spec (entry_address y x) 4 (input + (p * stride + q))) as [Ha|]; [|done].
      unfold entry_address in Ha. assert (p * stride + q < stride * nx) by nia. unfold apart in Hap. lia. }
    assert (square_entry (λ i, store32 (entry_address y x) (square_entry (λ i, m (input + i)) nx stride y x) m (input + i))
      nx stride y x = square_entry (λ i, m (input + i)) nx stride y x) as ->.
    { unfold square_entry. do 2 f_equal. apply list_fmap_ext. intros i k [-> Hk]%lookup_seq. simpl.
      unfold store32. by rewrite !Hout by lia. }
    unfold store32. by destruct (in_range _ _ _).
Qed.

(** ** The threads *)

(** A thread's coordinates, which no launch of the program wraps. *)
Lemma matrix_index (b t : dim3) :
  (b, t) ∈ threads_of (matrix_grid (Z.of_N nx)) matrix_block →
  to_int (u32 (dim_x b * dim_x matrix_block + dim_x t)) = Z.of_N (dim_x b * 16 + dim_x t)
  ∧ to_int (u32 (dim_y b * dim_y matrix_block + dim_y t)) = Z.of_N (dim_y b * 16 + dim_y t)
  ∧ dim_x t < 16 ∧ dim_y t < 16.
Proof using Hnx Hpos Hstride.
  rewrite threads_of_spec, !indices_spec. unfold matrix_grid, matrix_block, BLOCK_DIM, int_to_u32.
  cbn [dim_x dim_y]. rewrite Z.mod_small, N2Z.id, u32_small by lia. intros [[Hbx Hby] [Htx Hty]].
  assert ((nx + 16 - 1) / 16 * 16 ≤ nx + 15) as Hdiv.
  { rewrite N.mul_comm. etrans; [by apply N.Div0.mul_div_le|lia]. }
  rewrite !u32_small by lia. rewrite !to_int_small by lia. done.
Qed.

(** The thread of an entry. *)
Definition entry_thread (y x : N) : dim3 * dim3 :=
  (mkDim3 (x / 16) (y / 16), mkDim3 (x mod 16) (y mod 16)).

Lemma block_index i : i < nx → i / 16 < (nx + 16 - 1) / 16.
Proof using Hnx Hpos Hstride.
  intros Hi. assert (i / 16 * 16 ≤ i) by (rewrite N.mul_comm; by apply N.Div0.mul_div_le).
  apply N.lt_le_trans with ((i / 16 * 16 + 16) / 16).
  - rewrite <-(N.mul_1_l 16) at 4. rewrite <-N.mul_add_distr_r, N.div_mul by done. lia.
  - apply N.Div0.div_le_mono. lia.
Qed.

Lemma matrix_covers y x :
  y < nx → x < nx → entry_thread y x ∈ threads_of (matrix_grid (Z.of_N nx)) matrix_block.
Proof using Hnx Hpos Hstride.
  intros Hy Hx. unfold entry_thread. rewrite threads_of_spec, !indices_spec.
  unfold matrix_grid, matrix_block, BLOCK_DIM, int_to_u32. cbn [dim_x dim_y].
  rewrite Z.mod_small, N2Z.id, u32_small by lia.
  split; split; try by apply N.mod_lt. all: by apply block_index.
Qed.

(** The thread writes this address. *)
Definition matrix_writes (thread : dim3 * dim3) (a : N) : bool :=
  let x := dim_x thread.1 * 16 + dim_x thread.2 in
  let y := dim_y thread.1 * 16 + dim_y thread.2 in
  (x <? nx) && (y <? nx) && in_range (entry_address y x) 4 a.

Lemma matrix_writes_spec thread a :
  matrix_writes thread a = true ↔
  dim_x thread.1 * 16 + dim_x thread.2 < nx ∧ dim_y thread.1 * 16 + dim_y thread.2 < nx
  ∧ in_range (entry_address (dim_y thread.1 * 16 + dim_y thread.2) (dim_x thread.1 * 16 + dim_x thread.2)) 4 a = true.
Proof using Hnx Hpos Hstride. unfold matrix_writes. rewrite !andb_true_iff, !N.ltb_lt. tauto. Qed.

(** The entry of an address, and the byte of the entry. *)
Lemma entry_of_address y x a :
  x < nx → in_range (entry_address y x) 4 a = true →
  (a - output) / 4 = y * nx + x ∧ (a - output) / 4 / nx = y ∧ (a - output) / 4 mod nx = x
  ∧ (a - output) mod 4 = a - entry_address y x.
Proof using Hnx Hpos Hstride.
  unfold entry_address. intros Hx Ha. destruct (in_range_spec (output + 4 * (y * nx + x)) 4 a) as [[Hlo Hhi]|]; [|done].
  set (j := a - (output + 4 * (y * nx + x))). replace (a - output) with (j + (y * nx + x) * 4) by lia.
  assert (j < 4) by lia. rewrite N.div_add, N.Div0.mod_add, (N.div_small j), (N.mod_small j), N.add_0_l by done.
  split; [done|]. rewrite (N.add_comm (y * nx)), N.div_add, N.Div0.mod_add, N.div_small, N.mod_small by lia.
  split_and!; lia.
Qed.

Lemma in_matrix y x a :
  y < nx → x < nx → in_range (entry_address y x) 4 a = true → output ≤ a < output + 4 * (nx * nx).
Proof using Hnx Hpos Hstride.
  unfold entry_address. intros Hy Hx Ha. destruct (in_range_spec (output + 4 * (y * nx + x)) 4 a); [|done].
  assert (y * nx + x < nx * nx) by nia. lia.
Qed.

(** A launch writes the matrix and nothing else. *)
Lemma matrix_kernel_run threads (m : memory) :
  apart input (stride * nx) output (4 * (nx * nx)) →
  threads ≡ₚ threads_of (matrix_grid (Z.of_N nx)) matrix_block →
  ∀ a, run_threads (matrixMultiplicationKernel input output (Z.of_N nx) (Z.of_N stride)) matrix_block threads m a
    = if in_range output (4 * (nx * nx)) a
      then square_byte (λ i, m (input + i)) nx stride (a - output) else m a.
Proof using Hnx Hpos Hstride.
  intros Hap Hp a.
  rewrite (run_threads_spec _ _ _ _ matrix_writes (λ a, square_byte (λ i, m (input + i)) nx stride (a - output))
    (λ a, in_range input (stride * nx) a = true)).
  - destruct (in_range_spec output (4 * (nx * nx)) a) as [Ha|Ha], (existsb _ threads) eqn:Hex; try done.
    + apply not_true_iff_false in Hex. destruct Hex. apply existsb_exists.
      set (i := (a - output) / 4). assert (i < nx * nx) by (apply N.Div0.div_lt_upper_bound; lia).
      assert (i / nx < nx) by (apply N.Div0.div_lt_upper_bound; lia).
      assert (i mod nx < nx) by (apply N.mod_lt; lia).
      exists (entry_thread (i / nx) (i mod nx)). rewrite <-list_elem_of_In, Hp.
      split; [by apply matrix_covers|]. apply matrix_writes_spec. unfold entry_thread. cbn [fst snd dim_x dim_y].
      rewrite !(N.mul_comm (_ / 16) 16), <-!N.div_mod'. split_and!; [done..|].
      unfold entry_address. rewrite (N.mul_comm (i / nx) nx), <-N.div_mod'.
      destruct (in_range_spec (output + 4 * i) 4 a) as [|Hn]; [done|]. destruct Hn.
      assert (a - output = 4 * i + (a - output) mod 4) as Hdm by apply N.div_mod'.
      pose proof (N.mod_lt (a - output) 4 ltac:(done)) as Hlt. clearbody i.
      set (j := (a - output) mod 4) in *. clearbody j. lia.
    + apply existsb_exists in Hex as (u & _ & Hu). apply matrix_writes_spec in Hu as (? & ? & Hu).
      apply in_matrix in Hu; lia.
  - intros b t m' Hin Hm a'. rewrite Hp in Hin. unfold matrixMultiplicationKernel, matrix_writes. cbn [fst snd].
    destruct (matrix_index b t Hin) as (-> & -> & _). set (x := dim_x b * 16 + dim_x t). set (y := dim_y b * 16 + dim_y t).
    destruct (Z.leb_spec (Z.of_N nx) (Z.of_N x)) as [Hx|Hx]; [by rewrite (proj2 (N.ltb_ge x nx)) by lia|].
    rewrite (proj2 (N.ltb_lt x nx)) by lia.
    destruct (Z.leb_spec (Z.of_N nx) (Z.of_N y)) as [Hy|Hy]; [by rewrite (proj2 (N.ltb_ge y nx)) by lia|].
    rewrite (proj2 (N.ltb_lt y nx)) by lia. cbn [orb andb]. unfold COMPUTE_SIZE_MULTIPLIER.
    rewrite compute_repeats_correct by (done || lia).
    destruct (in_range (entry_address y x) 4 a') eqn:Ha; [|done].
    destruct (entry_of_address y x a') as (_ & Hdy & Hdx & Hj); [lia|done|].
    unfold square_byte. rewrite Hdy, Hdx, Hj. f_equal. unfold square_entry. do 2 f_equal.
    apply list_fmap_ext. intros i k [-> Hk]%lookup_seq. simpl.
    assert (∀ p q, p < nx → q < nx → m' (input + (p * stride + q)) = m (input + (p * stride + q))) as Hsame.
    { intros p q ??. apply Hm. destruct (in_range_spec input (stride * nx) (input + (p * stride + q))) as [|Hn]; [done|].
      destruct Hn. assert (p * stride + q < stride * nx) by nia. lia. }
    by rewrite !Hsame by lia.
  - intros thread a' _ (Hx & Hy & Ha)%matrix_writes_spec. apply in_matrix in Ha; [|done..].
    unfold apart in Hap. destruct (in_range_spec input (stride * nx) a'); [lia|done].
Qed.

End kernel.
