(* ===== verification/MatrixBehaviour.v ===== *)
(** What the demo's algorithms promise: they set up all of their matrices or report
    failure, and a task that ran them collects the square of every region of the
    frame it was given. *)
From stdpp Require Import strings.
From S2P Require Import Prelude.
From S2P Require Import Platform.
From S2P Require Import GpuDataKey.
From S2P Require Import CacheTypes.
From S2P Require Import GpuDataCache.
From S2P Require Import GpuDataAccess.
From S2P Require Import CacheSpec.
From S2P Require Import CacheRefinement.
From S2P Require Import CacheFailure.
From S2P Require Import GpuContextManager.
From S2P Require Import StaticData.
From S2P Require Import DeviceMemory.
From S2P Require Import DemoTypes.
From S2P Require Import DeviceCalls.
From S2P Require Import DummyTask.
From S2P Require Import MatrixAlgo.
From S2P Require Import MatrixKernel.
#[local] Open Scope N_scope.

(** C22.  The launch writes the whole matrix, in row order, and nothing else: its entry
    in row [y] and column [x] is the sum of the products of the region's row [y]
    and column [x], mod [2 ^ 32], in whatever order the device runs the threads. *)
Theorem matrix_kernel_squares (input output : ptr) (nx stride : N) threads (m : memory) :
  0 < nx → nx ≤ stride → stride < 1073741824 →
  apart input (stride * nx) output (4 * (nx * nx)) →
  threads ≡ₚ threads_of (matrix_grid (Z.of_N nx)) matrix_block →
  ∀ a, run_threads (matrixMultiplicationKernel input output (Z.of_N nx) (Z.of_N stride)) matrix_block threads m a
    = if in_range output (4 * (nx * nx)) a
      then square_byte (λ i, m (input + i)) nx stride (a - output) else m a.
Proof. intros Hpos Hnx Hstride. by apply matrix_kernel_run. Qed.

Section lifecycle.
Context `{KernelDevice}.
Implicit Types (a : MatrixAlgo) (r : TaskGpuResources) (w : world).

(** ** Setting up *)

(** A multiplier of a class: the three are 2 and 3. *)
Definition class_multiplier (multiplier : Z) : Prop := (0 < multiplier ≤ 8)%Z.

Lemma scaled_small factor multiplier :
  isValidFactor factor = true → class_multiplier multiplier →
  ∃ n : N, scaledDimension factor multiplier = Some (Z.of_N n) ∧ Z.of_N n = (factor * multiplier)%Z ∧ 0 < n ≤ 2048.
Proof.
  unfold isValidFactor, class_multiplier, MIN_FACTOR, MAX_FACTOR. rewrite !andb_true_iff, !Z.leb_le.
  intros [[Hlo Hhi] _] Hm. exists (Z.to_N (factor * multiplier)). rewrite Z2N.id by nia. split; [|split; [done|nia]].
  unfold scaledDimension. by rewrite (proj2 (Z.leb_le _ _)), (proj2 (Z.leb_le _ _)) by nia.
Qed.

Lemma squareBytes_small n : n ≤ 1073741824 → squareBytes (Z.of_N n) 4 = 4 * (n * n).
Proof.
  intros Hn. assert (n * n ≤ 1073741824 * 1073741824) by nia. unfold squareBytes.
  rewrite int_to_size_nat by (unfold two64; lia).
  rewrite (mul64_small n n) by (unfold two64; lia). rewrite mul64_small by (unfold two64; lia). lia.
Qed.

(** The object after [close]: as constructed, unless the device could not be
    selected. *)
Lemma matrix_close_run a w :
  ∃ ok a' w', matrix_close a w = (ok, a', w')
    ∧ (a' = MatrixAlgo_default
       ∨ ok = false ∧ a' = a ∧ (d_outputMatrix a ≠ nullptr ∨ h_outputMatrix a ≠ nullptr)
         ∧ ∃ status, cudaSetDevice (algo_gpuId a) w = (status, w') ∧ cuda_ok status = false).
Proof.
  unfold matrix_close. destruct (negb _ || negb _) eqn:Hheld.
  - destruct (cudaSetDevice (algo_gpuId a) w) as [status w1] eqn:Hset.
    destruct (cuda_ok status) eqn:Hok; cbn [negb].
    + destruct (released_by cudaFree _ _) as [f1 w2], (released_by cudaFreeHost _ _) as [f2 w3].
      eexists _, _, _. split; [done|]. by left.
    + eexists _, _, _. split; [done|]. right.
      rewrite orb_true_iff, !negb_true_iff, !N.eqb_neq in Hheld. split_and!; try done. by exists status.
  - cbn [negb]. destruct (released_by cudaFree _ _) as [f1 w2], (released_by cudaFreeHost _ _) as [f2 w3].
    eexists _, _, _. split; [done|]. by left.
Qed.

Definition size_of a : N := Z.to_N (matrixSize a).
Definition stride_of a : N := Z.to_N (algo_frameW a).

(** The sizes [init] gives an object. *)
Definition sized a : Prop :=
  0 < size_of a ∧ size_of a ≤ stride_of a ∧ stride_of a < 1073741824
  ∧ matrixBytes a = 4 * (size_of a * size_of a).

(** An object that is set up for these resources and for frames of this shape,
    which hold its region. *)
Record prepared (multiplier : Z) (info : AlgoRuntimeInfo) r a : Prop := {
  prepared_bound : bound_to r a = true;
  prepared_sized : sized a;
  prepared_size : Z.of_N (size_of a) = (sizeFactor info * multiplier)%Z;
  prepared_stride : Z.of_N (stride_of a) = frameW info;
  prepared_region : stride_of a * size_of a ≤ runtime_inBytes info;
}.

Definition matrixless a : Prop := d_outputMatrix a = nullptr ∧ h_outputMatrix a = nullptr.

(** Its device could not be selected. *)
Definition device_lost a : Prop :=
  ∃ w status w', cudaSetDevice (algo_gpuId a) w = (status, w') ∧ cuda_ok status = false.

(** [init] is defined, and prepares the object for the size of its class, or
    reports failure: then the object is as it was, or not initialized and without
    matrices; it keeps matrices only where the device they are on could not be
    selected to free them. *)
Theorem matrix_init_outcome multiplier info r a w :
  class_multiplier multiplier → (frameW info < 1073741824)%Z → (frameH info < 2147483648)%Z →
  ∃ ok a' w', matrix_init multiplier info r a w = Some (ok, 0, a', w')
    ∧ (ok = true → prepared multiplier info r a' ∧ task_stream r ≠ nullptr)
    ∧ (ok = false → a' = a ∨ algo_initialized a' = false ∧ (matrixless a' ∨ device_lost a')).
Proof.
  intros Hm Hwide Hhigh. unfold matrix_init.
  destruct (_ || negb (isValidFactor _)) eqn:Hargs.
  { eexists _, _, _. split; [done|]. split; [done|]. auto. }
  rewrite !orb_false_iff, negb_false_iff, !Z.ltb_ge, N.eqb_neq in Hargs. destruct Hargs as [[[Hid Hgpu] Hstream] Hfactor].
  destruct (scaled_small _ _ Hfactor Hm) as (n & -> & Hn & Hpos & Hsize). cbn [mbind option_bind].
  destruct (_ || _) eqn:Hfits; [eexists _, _, _; split; [done|]; split; [done|]; auto|].
  rewrite orb_false_iff, !Z.ltb_ge in Hfits. destruct Hfits as [Hw Hh].
  destruct (N.ltb_spec (runtime_inBytes info) (mul64 (int_to_size (frameW info)) (int_to_size (frameH info)))) as [|Hbytes];
    [eexists _, _, _; split; [done|]; split; [done|]; auto|].
  destruct (matrix_close_run a w) as (closed & a1 & w1 & -> & Hclose).
  destruct closed; cbn [negb].
  2: { eexists _, _, _. split; [done|]. split; [done|]. destruct Hclose as [->|(_ & -> & _)]; intros _; [right; split; [done|by left]|by left]. }
  destruct Hclose as [->|(? & _)]; [|done]. cbn [algo_initialized MatrixAlgo_default].
  set (a2 := mkMatrixAlgo _ _ _ _ _ _ _ _ _ _ _). destruct (cudaSetDevice (algo_gpuId a2) w1) as [st w2].
  destruct (cuda_ok st); cbn [negb].
  2: { eexists _, _, _. split; [done|]. split; [done|]. intros _. right. split; [done|]. by left. }
  assert (∀ a3 w3, algo_initialized a3 = false → ∃ a' w', init_failed a3 w3 = (false, 0, a', w')
    ∧ algo_initialized a' = false ∧ (matrixless a' ∨ device_lost a')) as Hfail.
  { intros a3 w3 Ha3. unfold init_failed. destruct (matrix_close_run a3 w3) as (ok & a4 & w4 & -> & Hc).
    eexists _, _. split; [done|]. destruct Hc as [->|(_ & -> & _ & st3 & Hset)]; [split; [done|by left]|].
    split; [done|]. right. by exists w3, st3, w4. }
  unfold init_matrices. destruct (cudaMalloc _ _) as [[st1 d] w3]. destruct (cuda_ok st1); cbn [negb].
  2: { destruct (Hfail (a2 <| d_outputMatrix := d |>) w3 ltac:(done)) as (a' & w' & -> & ?).
       eexists _, _, _. split; [done|]. split; [done|]. auto. }
  destruct (cudaHostAlloc _ _) as [[st2 h] w4]. destruct (cuda_ok st2); cbn [negb].
  2: { destruct (Hfail (a2 <| d_outputMatrix := d |> <| h_outputMatrix := h |>) w4 ltac:(done)) as (a' & w' & -> & ?).
       eexists _, _, _. split; [done|]. split; [done|]. auto. }
  destruct (cudaMemsetAsync _ _ _ _) as [st3 w5]. destruct (cuda_ok st3); cbn [negb].
  2: { destruct (Hfail (a2 <| d_outputMatrix := d |> <| h_outputMatrix := h |>) w5 ltac:(done)) as (a' & w' & -> & ?).
       eexists _, _, _. split; [done|]. split; [done|]. auto. }
  eexists _, _, _. split; [done|]. split; [|done]. intros _. split; [|done].
  assert (size_of (a2 <| d_outputMatrix := d |> <| h_outputMatrix := h |> <| algo_initialized := true |>) = n) as Hsz
    by (apply N2Z.id).
  assert (frameW info = Z.of_N (Z.to_N (frameW info))) as Hwz by lia.
  assert (frameH info = Z.of_N (Z.to_N (frameH info))) as Hhz by lia.
  set (x := Z.to_N (frameW info)) in *. set (y := Z.to_N (frameH info)) in *.
  split; rewrite ?Hsz.
  - unfold bound_to. simpl. by rewrite !Z.eqb_refl.
  - unfold sized. rewrite Hsz. unfold stride_of. simpl. fold x. split_and!; try lia.
    apply squareBytes_small. lia.
  - done.
  - unfold stride_of. simpl. by fold x.
  - unfold stride_of. simpl. fold x. etrans; [|exact Hbytes]. rewrite Hwz, Hhz.
    rewrite !int_to_size_nat by (unfold two64; lia).
    assert (x * y < 1073741824 * 2147483648) by nia. rewrite mul64_small by (unfold two64; lia). nia.
Qed.

End lifecycle.

(** ** Computing *)

Section computing.
Context `{KM : KernelMemory}.
Implicit Types (a : MatrixAlgo) (r : TaskGpuResources) (w : world).

(** What the object computes of a frame. *)
Definition matrix_of (pixel : memory) a (i : N) : N := square_byte pixel (size_of a) (stride_of a) i.

(** Only the region's rows matter. *)
Lemma matrix_of_ext (p q : memory) a i :
  sized a → i < matrixBytes a → (∀ j, j < stride_of a * size_of a → p j = q j) →
  matrix_of p a i = matrix_of q a i.
Proof using KM.
  intros (Hpos & Hle & _ & Hbytes) Hi Heq. rewrite Hbytes in Hi. unfold matrix_of, square_byte, square_entry.
  set (n := size_of a) in *. set (s := stride_of a) in *.
  assert (i / 4 < n * n) by (apply N.Div0.div_lt_upper_bound; lia).
  assert (i / 4 / n < n) by (apply N.Div0.div_lt_upper_bound; lia).
  assert (i / 4 mod n < n) by (apply N.mod_lt; lia).
  do 3 f_equal. apply list_fmap_ext. intros j k [-> Hk]%lookup_seq. simpl.
  rewrite !Heq; [done|..]; nia.
Qed.

(** The class is one of the three, or another of their make. *)
Definition of_class (c : AlgoClass) : Prop := ∃ name multiplier, c = matrix_class name multiplier.

Abbreviation output_range a addr := (in_range (d_outputMatrix a) (matrixBytes a) addr).
Abbreviation host_range a addr := (in_range (h_outputMatrix a) (matrixBytes a) addr).

Lemma launch_run c a r (d stream : ptr) w w' :
  of_class c → sized a → apart d (stride_of a * size_of a) (d_outputMatrix a) (matrixBytes a) →
  class_launchKernels c r d stream a w = (true, w') →
  blocks w' = blocks w ∧ host_byte w' = host_byte w ∧ host_writer w' = host_writer w
  ∧ ∀ addr, device_byte w' addr
      = if output_range a addr
        then matrix_of (λ i, device_byte w (d + i)) a (addr - d_outputMatrix a) else device_byte w addr.
Proof using KM.
  intros (name & multiplier & ->) (Hpos & Hle & Hs & Hbytes) Hap. cbn [class_launchKernels matrix_class].
  unfold matrix_launchKernels. destruct (_ || negb (stream =? task_stream r)); [done|].
  destruct (cudaGetLastError _) as [st w1] eqn:Hlaunch. intros [= Hok <-].
  destruct (memory_launch _ _ _ _ _ _ _ Hlaunch Hok) as (threads & Hp & Hb & Hh & Hw & Hd).
  split_and!; try done. intros addr. rewrite Hd.
  replace (matrixSize a) with (Z.of_N (size_of a)) in * by (unfold size_of in *; lia).
  replace (algo_frameW a) with (Z.of_N (stride_of a)) by (unfold stride_of in *; lia).
  rewrite matrix_kernel_run by (done || by rewrite <-Hbytes). by rewrite <-Hbytes.
Qed.

Lemma copy_run c a r (stream : ptr) w w' :
  of_class c → class_launchD2H c r stream a w = (true, w') →
  blocks w' = blocks w ∧ device_byte w' = device_byte w
  ∧ (∀ addr, host_byte w' addr
      = if host_range a addr then device_byte w (d_outputMatrix a + (addr - h_outputMatrix a))
        else host_byte w addr)
  ∧ (∀ addr, host_writer w' addr = if host_range a addr then stream else host_writer w addr).
Proof using KM.
  intros (name & multiplier & ->). cbn [class_launchD2H matrix_class].
  unfold matrix_launchD2H, D2H_SIZE_MULTIPLIER. destruct (_ || negb (stream =? task_stream r)); [done|].
  cbn [copy_repeats]. destruct (cudaMemcpyDeviceToHost _ _ _ _ _) as [st w1] eqn:Hcopy.
  destruct (cuda_ok st) eqn:Hok; [|done]. intros [= <-]. by apply (memory_to_host _ _ _ _ _ _ _ Hcopy).
Qed.

(** *** Several algorithms on one frame *)

Section frame.
Context (d stream : ptr) (extent : N) (pixel : memory) (r : TaskGpuResources).

(** The frame is on the device. *)
Definition on_device w : Prop := ∀ i, i < extent → device_byte w (d + i) = pixel i.

(** An algorithm that is set up for the frame, and two that do not share a
    matrix. *)
Definition fit '((c, a) : AlgoClass * MatrixAlgo) : Prop :=
  of_class c ∧ sized a ∧ stride_of a * size_of a ≤ extent
  ∧ apart d extent (d_outputMatrix a) (matrixBytes a).

Definition separate '((_, a) : AlgoClass * MatrixAlgo) '((_, b) : AlgoClass * MatrixAlgo) : Prop :=
  apart (d_outputMatrix a) (matrixBytes a) (d_outputMatrix b) (matrixBytes b)
  ∧ apart (h_outputMatrix a) (matrixBytes a) (h_outputMatrix b) (matrixBytes b).

Fixpoint fits (l : list (AlgoClass * MatrixAlgo)) : Prop :=
  match l with [] => True | x :: l => fit x ∧ Forall (separate x) l ∧ fits l end.

(** The matrix is on the device; it is on its way to the host, too. *)
Definition computed w '((_, a) : AlgoClass * MatrixAlgo) : Prop :=
  ∀ i, i < matrixBytes a → device_byte w (d_outputMatrix a + i) = matrix_of pixel a i.
Definition copied w '((_, a) : AlgoClass * MatrixAlgo) : Prop :=
  ∀ i, i < matrixBytes a →
    host_byte w (h_outputMatrix a + i) = matrix_of pixel a i ∧ host_writer w (h_outputMatrix a + i) = stream.

(** What a launch does to a frame, to its own matrix and to another's. *)
Lemma launch_fit x w w' :
  fit x → on_device w → launchKernels r d stream x w = (true, w') →
  on_device w' ∧ computed w' x ∧ host_byte w' = host_byte w ∧ host_writer w' = host_writer w
  ∧ ∀ y, separate x y → computed w y → computed w' y.
Proof using KM.
  destruct x as [c a]. intros (Hc & Hs & Hext & Hap) Hd Hrun.
  assert (apart d (stride_of a * size_of a) (d_outputMatrix a) (matrixBytes a)) as Hap' by (unfold apart in *; lia).
  destruct (launch_run c a r d stream w w' Hc Hs Hap' Hrun) as (_ & Hh & Hw & Hdev).
  split_and!; try done.
  - intros i Hi. by rewrite Hdev, (apart_out d extent), Hd.
  - intros i Hi. rewrite Hdev, in_range_offset by done. replace (_ + i - _) with i by lia.
    apply matrix_of_ext; [done..|]. intros j Hj. apply Hd. lia.
  - intros [c' b] [Hsep _] Hb i Hi. rewrite Hdev, (apart_out (d_outputMatrix b) (matrixBytes b)); [by apply Hb| |done].
    by apply apart_sym.
Qed.

(** What a transfer to the host does. *)
Lemma copy_fit x w w' :
  fit x → computed w x → launchD2H r stream x w = (true, w') →
  copied w' x ∧ device_byte w' = device_byte w ∧ ∀ y, separate x y → copied w y → copied w' y.
Proof using KM.
  destruct x as [c a]. intros (Hc & _) Hcomp Hrun.
  destruct (copy_run c a r stream w w' Hc Hrun) as (_ & Hd & Hh & Hw). split_and!; [|done|].
  - intros i Hi. rewrite Hh, Hw, in_range_offset by done. replace (_ + i - _) with i by lia.
    split; [by apply Hcomp|done].
  - intros [c' b] [_ Hsep] Hb i Hi. rewrite Hh, Hw, (apart_out (h_outputMatrix b) (matrixBytes b)); [by apply Hb| |done].
    by apply apart_sym.
Qed.

Lemma separate_sym x y : separate x y → separate y x.
Proof. destruct x, y. intros [??]. split; by apply apart_sym. Qed.

(** All kernels, all transfers, and both of one algorithm after the other. *)
Lemma kernels_run l w w' :
  fits l → on_device w → enqueue (launchKernels r d stream) l w = (true, w') →
  on_device w' ∧ Forall (computed w') l
  ∧ ∀ y, Forall (separate y) l → computed w y → computed w' y.
Proof using KM.
  revert w. induction l as [|x l IH]; intros w Hfits Hd; cbn [enqueue]; [by intros [= <-]|].
  destruct Hfits as (Hx & Hxl & Hl). destruct (launchKernels _ _ _ _ _) as [[] w1] eqn:Hrun; [|done].
  intros Hl'. destruct (launch_fit x w w1 Hx Hd Hrun) as (Hd1 & Hx1 & _ & _ & Hother).
  destruct (IH w1 Hl Hd1 Hl') as (Hd2 & Hl2 & Hkeep). split; [done|]. split.
  - constructor; [|done]. by apply Hkeep.
  - intros y [Hyx Hyl]%Forall_cons Hy. apply Hkeep; [done|]. apply Hother; [|done]. by apply separate_sym.
Qed.

Lemma copies_run l w w' :
  fits l → Forall (computed w) l → enqueue (launchD2H r stream) l w = (true, w') →
  Forall (copied w') l ∧ device_byte w' = device_byte w
  ∧ ∀ y, Forall (separate y) l → copied w y → copied w' y.
Proof using KM.
  revert w. induction l as [|x l IH]; intros w Hfits Hcomp; cbn [enqueue]; [by intros [= <-]|].
  destruct Hfits as (Hx & Hxl & Hl). destruct (launchD2H _ _ _ _) as [[] w1] eqn:Hrun; [|done].
  apply Forall_cons in Hcomp as [Hcx Hcl]. intros Hl'.
  destruct (copy_fit x w w1 Hx Hcx Hrun) as (Hx1 & Hdev & Hother).
  assert (Forall (computed w1) l) as Hcl1.
  { eapply Forall_impl; [exact Hcl|]. intros [c a] Ha i Hi. rewrite Hdev. by apply Ha. }
  destruct (IH w1 Hl Hcl1 Hl') as (Hl2 & Hdev2 & Hkeep). split; [|split; [congruence|]].
  - constructor; [|done]. by apply Hkeep.
  - intros y [Hyx Hyl]%Forall_cons Hy. apply Hkeep; [done|]. apply Hother; [|done]. by apply separate_sym.
Qed.

Lemma turns_run l w w' :
  fits l → on_device w →
  enqueue (λ x w, let '(ok, w) := launchKernels r d stream x w in
                  if ok then launchD2H r stream x w else (false, w)) l w = (true, w') →
  on_device w' ∧ Forall (copied w') l ∧ ∀ y, Forall (separate y) l → copied w y → copied w' y.
Proof using KM.
  revert w. induction l as [|x l IH]; intros w Hfits Hd; cbn [enqueue]; [by intros [= <-]|].
  destruct Hfits as (Hx & Hxl & Hl). destruct (launchKernels _ _ _ _ _) as [[] w1] eqn:Hrun; [|done].
  destruct (launchD2H _ _ _ _) as [[] w2] eqn:Hrun2; [|done]. intros Hl'.
  destruct (launch_fit x w w1 Hx Hd Hrun) as (Hd1 & Hx1 & Hh & Hw & _).
  destruct (copy_fit x w1 w2 Hx Hx1 Hrun2) as (Hx2 & Hdev & Hother).
  assert (on_device w2) as Hd2 by (intros i Hi; rewrite Hdev; by apply Hd1).
  destruct (IH w2 Hl Hd2 Hl') as (Hd3 & Hl2 & Hkeep). split; [done|]. split.
  - constructor; [|done]. by apply Hkeep.
  - intros y [Hyx Hyl]%Forall_cons Hy. apply Hkeep; [done|]. apply Hother; [by apply separate_sym|].
    destruct y as [c a]. intros i Hi. rewrite Hh, Hw. by apply Hy.
Qed.

(** Either order of execution gets every matrix to the host, and leaves the frame
    on the device. *)
Lemma compute_run t w w' :
  fits (algorithms t) → on_device w → compute t r d stream w = (true, w') →
  on_device w' ∧ Forall (copied w') (algorithms t).
Proof using KM.
  intros Hfits Hd. unfold compute. destruct (executionModel t); [| |done].
  - destruct (enqueue _ (algorithms t) w) as [[] w1] eqn:Hrun; [|done].
    destruct (kernels_run _ _ _ Hfits Hd Hrun) as (Hd1 & Hcomp & _). intros Hrun2.
    destruct (copies_run _ w1 _ Hfits Hcomp Hrun2) as (Hcop & Hdev & _). split; [|done].
    intros i Hi. rewrite Hdev. by apply Hd1.
  - intros Hrun. destruct (turns_run _ w _ Hfits Hd Hrun) as (? & ? & _). done.
Qed.

(** After the synchronization the program reads the matrices. *)
Lemma copied_read w st w' c a :
  cudaStreamSynchronize stream w = (st, w') → cuda_ok st = true → copied w (c, a) →
  host_bytes (h_outputMatrix a) (matrixBytes a) w' = bytes_at (matrix_of pixel a) 0 (matrixBytes a).
Proof using KM.
  intros Hsync Hok Hcop. rewrite (memory_read _ _ _ _ _ _ Hsync Hok).
  - apply bytes_at_ext. intros i Hi. rewrite N.add_0_l. by apply Hcop.
  - intros addr Haddr. destruct (in_range_spec (h_outputMatrix a) (matrixBytes a) addr) as [Hin|]; [|done].
    replace addr with (h_outputMatrix a + (addr - h_outputMatrix a)) by lia. apply Hcop. lia.
Qed.

Lemma collect_run l outputs w outputs' :
  Forall (of_class ∘ fst) l → collectResults r l outputs w = Some (true, outputs') →
  ∀ k c a, l !! k = Some (c, a) →
  ∃ out, outputs' !! k = Some out ∧ output_data out = host_bytes (h_outputMatrix a) (matrixBytes a) w.
Proof using KM.
  revert outputs outputs'. induction l as [|[c0 a0] l IH]; intros outputs outputs' Hc Hrun k c a Hk; [done|].
  apply Forall_cons in Hc as [Hc0 Hc]. destruct outputs as [|o outputs]; [done|]. cbn [collectResults] in Hrun.
  destruct (collectResult _ _ _ _) as [[] o'] eqn:Hcol; cbn [negb] in Hrun; [|done].
  destruct (collectResults _ _ _ _) as [[ok outs]|] eqn:Hrest; [|done].
  cbn [mbind option_bind] in Hrun. injection Hrun as -> <-. destruct k as [|k].
  - injection Hk as <- <-. exists o'. split; [done|]. destruct Hc0 as (name & multiplier & Heq). simpl in Heq. subst c0.
    cbn in Hcol. unfold matrix_collectResult in Hcol. destruct (negb (bound_to r a0)); [done|].
    destruct (_ || negb (vsize _ =? _)); [done|]. by injection Hcol as <-.
  - exact (IH outputs outs Hc Hrest k c a Hk).
Qed.

End frame.

(** The upload puts the host's bytes on the device. *)
Lemma upload_run repeats (p source : ptr) n (stream : ptr) w w' :
  allocated blocks w p n → upload_frame (S repeats) p source n stream w = (true, w') →
  ∀ i, i < n → device_byte w' (p + i) = host_byte w (source + i).
Proof using KM.
  revert w. induction repeats as [|repeats IH]; intros w Hal.
  - cbn [upload_frame]. destruct (cudaMemcpyAsync _ _ _ _ _) as [st w1] eqn:Hcopy. destruct (cuda_ok st) eqn:Hok; [|done].
    intros [= <-] i Hi. destruct (memory_memcpy _ _ _ _ _ _ _ Hcopy Hok Hal) as (_ & _ & _ & ->).
    rewrite in_range_offset by done. by replace (p + i - p) with i by lia.
  - remember (S repeats) as k eqn:Hk. cbn [upload_frame].
    destruct (cudaMemcpyAsync _ _ _ _ _) as [st w1] eqn:Hcopy. destruct (cuda_ok st) eqn:Hok; [|done].
    destruct (memory_memcpy _ _ _ _ _ _ _ Hcopy Hok Hal) as (Hb & Hh & _ & _). intros Hrun i Hi. subst k.
    rewrite (IH w1); [by rewrite Hh| |done|done]. unfold allocated. by rewrite Hb.
Qed.

Context `{!GpuDriver}.

(** The frame a task works on: what the device holds where the cache answered
    with a hit, and the atom's data, which the task uploads, otherwise. *)
Definition frame_pixels (access : GpuDataAccess) (atom : FrameCpuAtom) w : memory :=
  if status_eqb (accessStatus access) CacheHit then λ i, device_byte w (d_data access + i)
  else λ i, default 0 (vat (atom_data atom) i).

Lemma uploaded_frame access atom r w w' :
  accessStatus access ≠ Invalid → vsize (atom_data atom) = inBytes r →
  allocated blocks w (d_data access) (inBytes r) →
  (if status_eqb (accessStatus access) CacheFill || status_eqb (accessStatus access) TaskFallback
   then upload_frame H2D_SIZE_MULTIPLIER (writableData access) (h_in r) (inBytes r) (stream access)
          (host_store (h_in r) (atom_data atom) w)
   else (true, w)) = (true, w') →
  on_device (d_data access) (inBytes r) (frame_pixels access atom w) w'.
Proof using KM.
  intros Hst Hsize Hal. unfold frame_pixels, writableData, H2D_SIZE_MULTIPLIER.
  destruct (accessStatus access); unfold status_eqb; cbn -[upload_frame]; try done; [by intros [= <-]|..].
  all: intros Hup i Hi; destruct (memory_store (h_in r) (atom_data atom) w) as ((Hb & _) & Hh).
  all: rewrite (upload_run _ _ _ _ _ _ _ ltac:(unfold allocated; rewrite Hb; exact Hal) Hup i Hi).
  all: rewrite Hh, Hsize, in_range_offset by done; by replace (h_in r + i - h_in r) with i by lia.
Qed.

(** C4.  A task that reports success has collected, from every algorithm and in either
    order of execution, the square of the algorithm's region of the frame; and it
    leaves the frame itself where the access said, for the hits that follow. *)
Theorem execute_computes t access atom infra c dir w r ok atom' c' w' :
  represents c dir → holds_lease dir access → owner access ≠ nullptr → stream access ≠ nullptr →
  accessStatus access ≠ Invalid → task_store infra !! resources t = Some r →
  fits (d_data access) (inBytes r) (algorithms t) → vsize (atom_data atom) = inBytes r →
  allocated blocks w (d_data access) (inBytes r) →
  execute_finish t access atom infra c w = Some (ok, atom', c', w') → ok = true →
  (∀ k cls a, algorithms t !! k = Some (cls, a) →
     ∃ out, result_outputs (atom_result atom') !! k = Some out
       ∧ output_data out = bytes_at (matrix_of (frame_pixels access atom w) a) 0 (matrixBytes a))
  ∧ on_device (d_data access) (inBytes r) (frame_pixels access atom w) w'.
Proof using KM.
  intros Hc Hl Hown Hstr Hst Ht Hfits Hsize Hal Hrun ->. unfold execute_finish in Hrun.
  rewrite Ht in Hrun. cbn [mbind option_bind] in Hrun.
  assert (status_eqb (accessStatus access) Invalid = false) as Hinv by (by destruct (accessStatus access)).
  rewrite Hinv in Hrun.
  destruct (if status_eqb _ CacheFill || status_eqb _ _ then _ else _) as [uploaded w1] eqn:Hup.
  destruct (match executionModel t with OtherModel _ => _ | _ => _ end) as [computed w2] eqn:Hcomp.
  destruct (cudaStreamSynchronize (stream access) w2) as [status w3] eqn:Hsync.
  destruct (freeCacheData_run c dir access computed Keep w2 status w3 Hc Hl Hown Hstr Hsync)
    as (c1 & Hfree & _ & _). rewrite Hfree in Hrun. cbn [mbind option_bind] in Hrun. rewrite andb_true_r in Hrun.
  destruct computed; [|done]. destruct (cuda_ok status) eqn:Hok; [|done]. cbn [andb] in Hrun.
  destruct (collectResults _ _ _ _) as [[ok outs]|] eqn:Hcol; [|done].
  cbn [mbind option_bind] in Hrun. change (access_destruct GpuDataAccess_default c1 w3) with (Some (c1, w3)) in Hrun.
  cbn [mbind option_bind] in Hrun. injection Hrun as -> <- <- <-.
  assert (uploaded = true ∧ compute t r (d_data access) (stream access) w1 = (true, w2)) as [-> Hrun2].
  { by destruct (executionModel t), uploaded. }
  pose proof (uploaded_frame access atom r w w1 Hst Hsize Hal Hup) as Hframe.
  destruct (compute_run _ _ _ _ _ t w1 w2 Hfits Hframe Hrun2) as [Hdev Hcop]. split.
  - intros k cls a Hk. assert (Forall (of_class ∘ fst) (algorithms t)) as Hclasses.
    { clear -Hfits. induction (algorithms t) as [|[c0 a0] l IH]; [done|]. destruct Hfits as ([? _] & _ & ?).
      constructor; [done|by apply IH]. }
    destruct (collect_run r _ (result_outputs (atom_result atom)) w3 outs Hclasses Hcol k cls a Hk) as (out & Hout & Hdata).
    exists out. split; [done|]. rewrite Hdata. eapply copied_read; [done..|].
    by apply (Forall_lookup_1 _ _ _ _ Hcop Hk).
  - intros i Hi. rewrite <-(Hdev i Hi). apply memory_synchronize in Hsync; [|done]. by destruct Hsync as [(_ & -> & _) _].
Qed.

End computing.
