(* ===== verification/TaskBehaviour.v ===== *)
(** What [DummyTask] promises to the graph: it takes all of its resources or
    none, gives all of them back, and reports in its result and in the frame the
    same verdict. *)
From stdpp Require Import strings.
From S2P Require Import Prelude.
From S2P Require Import Platform.
From S2P Require Import GpuDataKey.
From S2P Require Import CacheTypes.
From S2P Require Import GpuDataCache.
From S2P Require Import GpuDataAccess.
From S2P Require Import CacheSpec.
From S2P Require Import CacheRefinement.
From S2P Require Import CacheFailure.
From S2P Require Import GpuTopology.
From S2P Require Import GpuContextManager.
From S2P Require Import RegistryInvariant.
From S2P Require Import RegistryBehaviour.
From S2P Require Import StaticData.
From S2P Require Import ParameterRegistry.
From S2P Require Import DemoTypes.
From S2P Require Import DeviceCalls.
From S2P Require Import DummyTask.
#[local] Open Scope N_scope.

Section behaviour.
Context `{IAlgo} `{!GpuDriver} `{!HostMemory}.
Implicit Types (t : DummyTask) (infra : GpuInfra) (r : TaskGpuResources) (w : world).

(** *** The store of task resources *)

(** What a task writes to its own resources is no business of the registry. *)
Lemma registry_contents infra (t : ptr) r r' :
  registry infra → task_store infra !! t = Some r →
  resourceId r' = resourceId r → task_gpuId r' = task_gpuId r → ctx r' = ctx r →
  registry (infra <| task_store := <[t := r']> (task_store infra) |>).
Proof.
  intros Hr Ht Hid Hg Hc. split; simpl; try apply Hr.
  - intros c x i u Hx Hi Hu. destruct (reg_slot _ Hr c x i u Hx Hi Hu) as (r0 & Hr0 & ?).
    destruct (decide (t = u)) as [<-|Hne]; [|exists r0; by rewrite lookup_insert_ne].
    rewrite Ht in Hr0. injection Hr0 as <-. exists r'. rewrite lookup_insert_eq, Hid, Hg, Hc. done.
  - intros u r0. destruct (decide (t = u)) as [<-|Hne].
    + rewrite lookup_insert_eq. intros [= <-]. rewrite Hid, Hg, Hc. by apply (reg_task _ Hr).
    + rewrite lookup_insert_ne by done. apply (reg_task _ Hr).
Qed.

(** Nothing of the machine is left in the resources, and no registration. *)
Definition blank r : Prop :=
  task_stream r = nullptr ∧ h_in r = nullptr ∧ d_input r = nullptr ∧ d_scratch r = nullptr
  ∧ ctx r = nullptr ∧ inBytes r = 0 ∧ scratchBytes r = 0.

(** The store after a change of one task's resources. *)
Definition only (t : ptr) infra infra' : Prop :=
  ∀ u, u ≠ t → task_store infra' !! u = task_store infra !! u.

(** Every context's slots, and how many of them may be new. *)
Definition grown (k : N) infra infra' : Prop :=
  ∀ c x', context_store infra' !! c = Some x' →
    ∃ x, context_store infra !! c = Some x ∧ vsize (taskResources x') ≤ vsize (taskResources x) + k.

(** The registry after a call for one task. *)
Record touched (t : ptr) (k : N) infra infra' : Prop := {
  touched_registry : registry infra';
  touched_only : only t infra infra';
  touched_grown : grown k infra infra';
}.

Lemma grown_refl infra : grown 0 infra infra.
Proof. intros c x' Hx. exists x'. split; [done|lia]. Qed.

Lemma grown_trans j k infra infra1 infra2 :
  grown j infra infra1 → grown k infra1 infra2 → grown (j + k) infra infra2.
Proof.
  intros H1' H2' c x2 Hx2. destruct (H2' c x2 Hx2) as (x1 & Hx1 & ?).
  destruct (H1' c x1 Hx1) as (x & Hx & ?). exists x. split; [done|lia].
Qed.

Lemma touched_trans (t : ptr) j k infra infra1 infra2 :
  touched t j infra infra1 → touched t k infra1 infra2 → touched t (j + k) infra infra2.
Proof.
  intros [_ Ho1 Hg1] [Hr2 Ho2 Hg2]. split; [done| |by eapply grown_trans].
  intros u Hu. by rewrite Ho2, Ho1.
Qed.

Lemma touched_weaken (t : ptr) j k infra infra' : touched t j infra infra' → j ≤ k → touched t k infra infra'.
Proof.
  intros [Hr Ho Hg] Hle. split; [done..|]. intros c x' Hx. destruct (Hg c x' Hx) as (x & ? & ?).
  exists x. split; [done|lia].
Qed.

Lemma touched_refl (t : ptr) infra : registry infra → touched t 0 infra infra.
Proof. intros Hr. split; [done|done|apply grown_refl]. Qed.

(** Writing to the task's own fields. *)
Lemma touched_contents infra (t : ptr) r r' :
  registry infra → task_store infra !! t = Some r →
  resourceId r' = resourceId r → task_gpuId r' = task_gpuId r → ctx r' = ctx r →
  touched t 0 infra (infra <| task_store := <[t := r']> (task_store infra) |>).
Proof.
  intros. split; [by eapply registry_contents|intros u ?; by apply lookup_insert_ne|apply (grown_refl infra)].
Qed.

Lemma released_by_run free pointer w : ∃ ok w', released_by free pointer w = (ok, w').
Proof. unfold released_by. case_match; [|by eexists _, _]. destruct (free pointer w). by eexists _, _. Qed.

(** After an unregistration the task is not registered; the rest of its
    resources is as it was. *)
Lemma unregisterTask_result infra (t : ptr) r :
  registry infra → task_store infra !! t = Some r →
  ∃ infra' r', unregisterTask t infra = Some (true, infra') ∧ touched t 0 infra infra'
    ∧ task_store infra' !! t = Some r' ∧ ctx r' = nullptr
    ∧ task_stream r' = task_stream r ∧ h_in r' = h_in r ∧ d_input r' = d_input r
    ∧ d_scratch r' = d_scratch r ∧ inBytes r' = inBytes r ∧ scratchBytes r' = scratchBytes r.
Proof.
  intros Hr Ht. pose proof (unregisterTask_run infra t r Hr Ht) as Hun. case_decide as Hctx.
  - exists infra, r. split; [done|]. split; [by apply touched_refl|]. by split_and!.
  - destruct Hun as (x & i & Hx & _ & -> & Hr'). eexists _, _. split; [done|]. split.
    + split; [done|intros u ?; by apply lookup_insert_ne|]. intros c y. simpl.
      destruct (decide (c = ctx r)) as [->|Hne].
      * rewrite lookup_insert_eq. intros [= <-]. exists x. split; [done|]. simpl. rewrite vsize_vset. lia.
      * rewrite lookup_insert_ne by done. intros Hy. exists y. split; [done|lia].
    + split; [apply lookup_insert_eq|]. by split_and!.
Qed.

Lemma releaseResources_run t infra w r :
  registry infra → task_store infra !! resources t = Some r →
  ∃ ok infra' w' r', releaseResources t infra w = Some (ok, t <| algorithms := [] |>, infra', w')
    ∧ touched (resources t) 0 infra infra' ∧ task_store infra' !! resources t = Some r' ∧ blank r'.
Proof.
  intros Hr Ht. unfold releaseResources. rewrite Ht. cbn [mbind option_bind].
  assert (∃ current w1, (if negb (ctx r =? nullptr) then makeTaskCurrent (resources t) infra w
    else Some (true, w)) = Some (current, w1)) as (current & w1 & ->).
  { case_match; [|by eexists _, _]. rewrite (makeTaskCurrent_run infra (resources t) r w Hr Ht).
    destruct (if decide _ then _ else _). by eexists _, _. }
  cbn [mbind option_bind].
  destruct (released_by cudaStreamSynchronize _ _) as [drained w2].
  destruct (closeAlgorithms _ _) as [closed w3].
  destruct (released_by cudaFree _ _) as [f1 w4]. destruct (released_by cudaFree _ _) as [f2 w5].
  destruct (released_by cudaFreeHost _ _) as [f3 w6].
  destruct (released_by cudaStreamDestroy _ _) as [f4 w7].
  set (r1 := r <| d_scratch := nullptr |> <| scratchBytes := 0 |> <| d_input := nullptr |>
               <| h_in := nullptr |> <| task_stream := nullptr |> <| inBytes := 0 |>).
  set (infra1 := infra <| task_store := <[resources t := r1]> (task_store infra) |>).
  assert (touched (resources t) 0 infra infra1) as Htouch by (by apply (touched_contents infra _ r)).
  pose proof (touched_registry _ _ _ _ Htouch) as Hr1.
  assert (task_store infra1 !! resources t = Some r1) as Ht1 by (apply lookup_insert_eq).
  destruct (unregisterTask_result infra1 (resources t) r1 Hr1 Ht1)
    as (infra2 & r2 & -> & Htouch2 & Ht2 & Hc & Hs & Hh & Hd & Hsc & Hi & Hsb).
  cbn [mbind option_bind]. eexists _, _, _, r2. split; [done|].
  split; [by apply (touched_trans _ 0 0 infra infra1)|]. split; [done|].
  unfold blank. by rewrite Hs, Hh, Hd, Hsc, Hc, Hi, Hsb.
Qed.

Lemma task_unload_run t infra w r :
  registry infra → task_store infra !! resources t = Some r →
  ∃ ok t' infra' w', task_unload t infra w = Some (ok, t', infra', w') ∧ registry infra'
    ∧ (task_state t = Started ∨ task_state t = Unloaded →
         t' = t ∧ infra' = infra ∧ w' = w ∧ (ok = true ↔ task_state t = Unloaded))
    ∧ (task_state t ≠ Started → task_state t ≠ Unloaded →
         (∃ r', task_store infra' !! resources t = Some r' ∧ blank r')
         ∧ only (resources t) infra infra'
         ∧ t' = t <| algorithms := [] |> <| parameterRegistry := false |>
                  <| appliedParameterRevision := 0 |> <| task_state := Unloaded |>
         ∧ task_unload t' infra' w' = Some (true, t', infra', w')).
Proof.
  intros Hr Ht. unfold task_unload, lifecycle_eqb. case_bool_decide as Hu.
  { rewrite Hu. eexists _, _, _, _. by split_and!. }
  case_bool_decide as Hs.
  { rewrite Hs. eexists _, _, _, _. by split_and!. }
  destruct (releaseResources_run t infra w r Hr Ht) as (ok & infra' & w' & r' & -> & [Hr' Ho _] & Ht' & Hb).
  cbn [mbind option_bind]. eexists _, _, _, _. split; [done|]. split; [done|].
  split; [naive_solver|]. intros _ _. split; [by exists r'|]. by split_and!.
Qed.

(** Unloading gives everything back, also where a part of it fails, which the
    flag reports: no stream, buffer, host memory, algorithm or registration is
    left, and the other tasks keep theirs.  It is refused only while the task is
    started, and repeating it does nothing. *)
Theorem task_unload_outcome t infra w r :
  registry infra → task_store infra !! resources t = Some r →
  ∃ ok t' infra' w', task_unload t infra w = Some (ok, t', infra', w') ∧ registry infra'
    ∧ (task_state t = Started ∨ task_state t = Unloaded →
         t' = t ∧ infra' = infra ∧ w' = w ∧ (ok = true ↔ task_state t = Unloaded))
    ∧ (task_state t ≠ Started → task_state t ≠ Unloaded →
         (∃ r', task_store infra' !! resources t = Some r' ∧ blank r')
         ∧ only (resources t) infra infra'
         ∧ t' = t <| algorithms := [] |> <| parameterRegistry := false |>
                  <| appliedParameterRevision := 0 |> <| task_state := Unloaded |>
         ∧ task_unload t' infra' w' = Some (true, t', infra', w')).
Proof. apply task_unload_run. Qed.

(** *** Loading *)

Lemma validRuntime_run runtime : ∃ valid, validRuntime runtime = Some valid.
Proof.
  unfold validRuntime. destruct (isValidFactor (sizeFactor runtime)) eqn:Hv; cbn [negb]; [|by eexists].
  rewrite scaledDimension_run by (done || unfold INPUT_MULTIPLIER; lia). by eexists.
Qed.

(** The part of a task's resources that the registry owns. *)
Definition same_binding r r' : Prop :=
  resourceId r' = resourceId r ∧ task_gpuId r' = task_gpuId r ∧ ctx r' = ctx r.

Lemma load_buffers_binding r w : same_binding r (load_buffers r w).1.2
  ∧ inBytes (load_buffers r w).1.2 = inBytes r.
Proof. unfold load_buffers, same_binding. repeat case_match; simplify_eq/=; by split_and!. Qed.

Lemma load_scratch_binding scratch r w : same_binding r (load_scratch scratch r w).1.2
  ∧ inBytes (load_scratch scratch r w).1.2 = inBytes r.
Proof. unfold load_scratch, same_binding. repeat case_match; simplify_eq/=; by split_and!. Qed.

Lemma initAlgorithms_length runtime r l scratch w ok l' scratch' w' :
  initAlgorithms runtime r l scratch w = (ok, l', scratch', w') → length l' = length l.
Proof.
  revert scratch w ok l' scratch' w'.
  induction l as [|a l IH]; intros scratch w ok l' scratch' w'; simpl; [by intros [= _ <- _ _]|].
  destruct (algo_init _ _ _ _) as [[[ok1 n] a1] w1]. destruct ok1; simpl; [|by intros [= _ <- _ _]].
  destruct (initAlgorithms _ _ _ _ _) as [[[ok2 l2] n2] w2] eqn:Hrun. apply IH in Hrun.
  intros [= _ <- _ _]. simpl. by rewrite Hrun.
Qed.

Lemma notifyAlgorithms_length parameters l : length (notifyAlgorithms parameters l).2 = length l.
Proof.
  induction l as [|a l IH]; simpl; [done|]. destruct (notifyParameter parameters a) as [[] a']; simpl; [|done].
  destruct (notifyAlgorithms parameters l) as [ok l']. simpl in *. by rewrite IH.
Qed.

Lemma applyParameters_facts s t ok t' :
  applyParameters s t = (ok, t') →
  resources t' = resources t ∧ length (algorithms t') = length (algorithms t)
  ∧ (ok = true → appliedParameterRevision t' = snapshot_revision s).
Proof.
  unfold applyParameters. destruct (getString _ _ _) as [[] name]; simpl; [|by intros [= <- <-]].
  destruct (getBytes _ _ _) as [[] blob]; simpl; [|by intros [= <- <-]].
  pose proof (notifyAlgorithms_length (mkParams name blob) (algorithms t)) as Hl.
  destruct (notifyAlgorithms _ _) as [ok' l]. simpl in Hl. by destruct ok'; intros [= <- <-].
Qed.

Lemma load_resources_facts s t r w ok t' r' w' :
  load_resources s t r w = (ok, t', r', w') →
  same_binding r r' ∧ inBytes r' = runtime_inBytes (algoRuntime t) ∧ resources t' = resources t
  ∧ (ok = true → length (algorithms t') = (length (algorithms t) + length make_algorithms)%nat
       ∧ appliedParameterRevision t' = snapshot_revision s).
Proof.
  unfold load_resources. set (r0 := r <| inBytes := runtime_inBytes (algoRuntime t) |>).
  pose proof (load_buffers_binding r0 w) as [Hb1 Hi1].
  destruct (load_buffers r0 w) as [[ok1 r1] w1]. simpl in Hb1, Hi1.
  destruct ok1; simpl; [|by intros [= <- <- <- <-]].
  destruct (initAlgorithms _ _ _ _ _) as [[[ok2 made] scratch] w2] eqn:Hinit.
  apply initAlgorithms_length in Hinit. destruct ok2; simpl; [|by intros [= <- <- <- <-]].
  pose proof (load_scratch_binding scratch r1 w2) as [Hb3 Hi3].
  destruct (load_scratch scratch r1 w2) as [[ok3 r3] w3]. simpl in Hb3, Hi3.
  assert (same_binding r r3 ∧ inBytes r3 = runtime_inBytes (algoRuntime t)) as [Hb Hi].
  { split; [|by rewrite Hi3]. destruct Hb1 as (? & ? & ?), Hb3 as (? & ? & ?). by split_and!; etrans. }
  destruct ok3; simpl; [|by intros [= <- <- <- <-]].
  destruct (applyParameters _ _) as [ok4 t4] eqn:Happ. apply applyParameters_facts in Happ.
  simpl in Happ. destruct Happ as (Hres & Hlen & Hrev). intros [= <- <- <- <-].
  split_and!; try done. intros ->. split; [|by apply Hrev]. by rewrite Hlen, length_app, Hinit.
Qed.

(** Every context can number one more task. *)
Definition slots infra : Prop :=
  ∀ c x, context_store infra !! c = Some x → (freeResourceId (taskResources x) < 2147483648)%N.

(** What a load that fails leaves. *)
Definition load_undone t infra (result : option (bool * DummyTask * GpuInfra * world)) : Prop :=
  ∃ t' infra' w' r', result = Some (false, t', infra', w') ∧ touched (resources t) 1 infra infra'
    ∧ task_state t' = TaskFailed ∧ algorithms t' = [] ∧ resources t' = resources t
    ∧ task_store infra' !! resources t = Some r' ∧ blank r'.

(** What one that succeeds leaves. *)
Definition load_done s t infra w (result : option (bool * DummyTask * GpuInfra * world)) : Prop :=
  ∃ t' infra' w' r', result = Some (true, t', infra', w') ∧ touched (resources t) 1 infra infra'
    ∧ task_state t' = Loaded ∧ resources t' = resources t
    ∧ appliedParameterRevision t' = revision s
    ∧ length (algorithms t') = (length (algorithms t) + length make_algorithms)%nat
    ∧ task_store infra' !! resources t = Some r' ∧ ctx r' ≠ nullptr
    ∧ gpuIdsForCurrentNumaNode infra w = Some (true, [task_gpuId r'])
    ∧ inBytes r' = runtime_inBytes (algoRuntime t).

Lemma load_failed_run t u infra infra0 w r :
  registry infra → task_store infra !! resources t = Some r → touched (resources t) 1 infra0 infra →
  resources t = resources u →
  load_undone u infra0 (load_failed t infra w).
Proof.
  intros Hr Ht Hinfra Hu. unfold load_failed.
  match goal with |- context [releaseResources ?t1 infra w] =>
    destruct (releaseResources_run t1 infra w r Hr Ht)
      as (ok & infra' & w' & r' & Hrun & Htouch & Ht' & Hb) end.
  rewrite Hrun. cbn [mbind option_bind].
  eexists _, _, _, _. rewrite <-Hu. split_and!; try done. by apply (touched_trans _ 1 0 infra0 infra).
Qed.

Lemma registerTask_result infra gpuId (t : ptr) r :
  registry infra → task_store infra !! t = Some r → slots infra →
  ∃ ok infra', registerTask gpuId t infra = Some (ok, infra') ∧ touched t 1 infra infra'
    ∧ (ok = false → infra' = infra)
    ∧ ∃ r', task_store infra' !! t = Some r' ∧ (ok = true → ctx r' ≠ nullptr ∧ task_gpuId r' = gpuId).
Proof.
  intros Hr Ht Hslots. pose proof (registerTask_run infra gpuId t r Hr Ht Hslots) as Hreg.
  destruct (if _ && _ then _ else None) as [c|] eqn:Hc.
  2: { rewrite Hreg. eexists _, _. split; [done|].
       split; [by eapply touched_weaken; [apply touched_refl|]|]. split; [done|]. by exists r. }
  destruct Hreg as (x & Hx & _ & -> & Hr'). eexists _, _. split; [done|]. split.
  - split; [done|intros u ?; by apply lookup_insert_ne|]. intros c' y. simpl.
    destruct (decide (c' = c)) as [->|Hne].
    + rewrite lookup_insert_eq. intros [= <-]. exists x. split; [done|]. simpl.
      destruct (slot_taken_spec x t) as (_ & _ & ->).
      destruct (freeResourceId_spec (taskResources x)) as (? & _). lia.
    + rewrite lookup_insert_ne by done. intros Hy. exists y. split; [done|lia].
  - split; [done|]. eexists. split; [apply lookup_insert_eq|]. intros _.
    split; [|done]. simpl. intros ->. apply (reg_null _ Hr), (reg_objects _ Hr). eauto.
Qed.

Lemma task_load_run registry0 t infra w r :
  registry infra → task_store infra !! resources t = Some r → slots infra →
  task_state t = Registered ∧ isSealed registry0 = true ∧ validRuntime (algoRuntime t) = Some true
    ∧ load_done registry0 t infra w (task_load registry0 t infra w)
  ∨ task_load registry0 t infra w = Some (false, t, infra, w)
  ∨ load_undone t infra (task_load registry0 t infra w).
Proof.
  intros Hr Ht Hslots. unfold task_load.
  destruct (snapshot registry0 ParameterSnapshot_default) as [taken initial] eqn:Hsnap.
  destruct (_ || (id t <? 0)%Z) eqn:Hguard; [by right; left|].
  rewrite !orb_false_iff, !negb_false_iff in Hguard. destruct Hguard as (((Hst & _) & Htaken) & _).
  apply bool_decide_eq_true in Hst.
  assert (isSealed registry0 = true ∧ snapshot_revision initial = revision registry0) as [Hsealed Hrev].
  { unfold snapshot in Hsnap. unfold isSealed. destruct (sealed registry0); simplify_eq/=; done. }
  destruct (validRuntime_run (algoRuntime t)) as ([] & Hvalid); rewrite Hvalid;
    cbn [mbind option_bind negb]; [|by right; left].
  assert (touched (resources t) 1 infra infra) as Htouch0
    by (by eapply touched_weaken; [apply touched_refl|]).
  destruct (gpuIdsForCurrentNumaNode_run infra w Hr) as (resolved & ids & Hids & Hone).
  rewrite Hids. cbn [mbind option_bind].
  destruct resolved; cbn [negb mbind option_bind].
  2: { right; right. by apply (load_failed_run t t infra infra w r). }
  destruct (Hone eq_refl) as (gpu & -> & _). cbn [head mbind option_bind].
  destruct (registerTask_result infra gpu (resources t) r Hr Ht Hslots)
    as (registered & infra1 & -> & Htouch1 & _ & r1 & Ht1 & Hreg1). cbn [mbind option_bind].
  pose proof (touched_registry _ _ _ _ Htouch1) as Hr1.
  destruct registered; cbn [negb].
  2: { right; right. by apply (load_failed_run t t infra1 infra w r1). }
  rewrite (makeTaskCurrent_run infra1 (resources t) r1 w Hr1 Ht1). cbn [mbind option_bind].
  destruct (if decide _ then _ else _) as [current w1]. destruct current; cbn [negb].
  2: { right; right. by apply (load_failed_run t t infra1 infra w1 r1). }
  rewrite Ht1. cbn [mbind option_bind].
  destruct (load_resources initial t r1 w1) as [[[ok t2] r2] w2] eqn:Hload.
  destruct (load_resources_facts _ _ _ _ _ _ _ _ Hload) as ((Hid & Hg & Hc) & Hbytes & Hres & Hok).
  rewrite Hres. set (infra2 := infra1 <| task_store := <[resources t := r2]> (task_store infra1) |>).
  assert (touched (resources t) 1 infra infra2) as Htouch2.
  { apply (touched_trans _ 1 0 infra infra1); [done|]. by apply (touched_contents infra1 _ r1). }
  assert (task_store infra2 !! resources t = Some r2) as Ht2 by (apply lookup_insert_eq).
  destruct ok; cbn [negb].
  - left. destruct (Hok eq_refl) as [Hlen Happ]. destruct (Hreg1 eq_refl) as [Hctx Hgpu].
    split; [done|]. split; [done|]. split; [done|].
    eexists _, infra2, w2, r2. split; [reflexivity|]. split_and!; try done; try congruence.
    by etrans; [exact Happ|].
  - right; right. pose proof (touched_registry _ _ _ _ Htouch2).
    apply (load_failed_run t2 t infra2 infra w2 r2); by rewrite ?Hres.
Qed.

(** Loading a task takes everything or nothing.  A load that succeeds leaves the
    task registered on its NUMA node's GPU, with its algorithms and the registry's
    current parameters; one that is refused changes nothing, and one that fails
    on the way gives back everything it had taken. *)
Theorem task_load_outcome registry0 t infra w r :
  registry infra → task_store infra !! resources t = Some r → slots infra →
  task_state t = Registered ∧ isSealed registry0 = true ∧ validRuntime (algoRuntime t) = Some true
    ∧ load_done registry0 t infra w (task_load registry0 t infra w)
  ∨ task_load registry0 t infra w = Some (false, t, infra, w)
  ∨ load_undone t infra (task_load registry0 t infra w).
Proof. apply task_load_run. Qed.

(** *** Execution *)

(** What collecting the outputs answers: all of them, or those before the first that
    is refused; the ones behind it are not touched. *)
Definition collected r (l : list algorithm) (outputs : list AlgoOutput) w (ok : bool) (outputs' : list AlgoOutput) : Prop :=
  ∃ n, (∀ k a o, (k < n)%nat → l !! k = Some a → outputs !! k = Some o →
          ∃ o', collectResult r o a w = (true, o') ∧ outputs' !! k = Some o')
    ∧ (if ok then n = length l
       else ∃ a o o', l !! n = Some a ∧ outputs !! n = Some o ∧ collectResult r o a w = (false, o')
              ∧ outputs' !! n = Some o')
    ∧ ∀ k, (n < k)%nat → outputs' !! k = outputs !! k.

Lemma collectResults_run r l outputs w :
  length outputs = length l →
  ∃ ok outputs', collectResults r l outputs w = Some (ok, outputs') ∧ length outputs' = length outputs
    ∧ collected r l outputs w ok outputs'.
Proof.
  revert outputs. induction l as [|a l IH]; intros [|o outputs] Hl; simpl in *; try done.
  { eexists true, []. split; [done|]. split; [done|]. exists 0%nat. split; [lia|done]. }
  destruct (collectResult r o a w) as [[] o'] eqn:Hcol; simpl.
  - destruct (IH outputs) as (ok & outputs' & -> & Hlen & n & Hbefore & Hn & Hafter); [lia|]. simpl.
    eexists _, _. split; [done|]. split; [simpl; lia|]. exists (S n). split_and!.
    + intros [|k] b o1 Hk; simpl; [by intros [= <-] [= <-]; exists o'|]. apply Hbefore. lia.
    + destruct ok; [by rewrite Hn|]. exact Hn.
    + intros [|k] Hk; [lia|]. simpl. apply Hafter. lia.
  - eexists _, _. split; [done|]. split; [done|]. exists 0%nat. split; [lia|]. split; [by exists a, o, o'|].
    intros [|k] Hk; [lia|done].
Qed.

(** The frame the task was given, with its id and a verdict. *)
Definition judged (atom : FrameCpuAtom) (ok : bool) (atom' : FrameCpuAtom) : Prop :=
  atom_metadata atom' = atom_metadata atom ∧ atom_data atom' = atom_data atom
  ∧ result_id (atom_result atom') = frameId (md_key (atom_metadata atom))
  ∧ result_ok (atom_result atom') = ok
  ∧ length (result_outputs (atom_result atom')) = length (result_outputs (atom_result atom)).

(** A frame fits a task that is started: it has the size and the layout the task's
    buffers and algorithms were made for. *)
Definition accepts t r (atom : FrameCpuAtom) : Prop :=
  let md := atom_metadata atom in
  task_state t = Started ∧ vsize (atom_data atom) = md_bytes md ∧ md_bytes md = inBytes r
  ∧ md_width md = frameW (algoRuntime t) ∧ md_height md = frameH (algoRuntime t)
  ∧ md_dtype md = frameDtype (algoRuntime t) ∧ d_input r ≠ nullptr
  ∧ vsize (result_outputs (atom_result atom)) = vsize (algorithms t).

#[export] Instance accepts_dec t r atom : Decision (accepts t r atom).
Proof. unfold accepts. apply _. Defined.

(** Selecting the task's device, which a task without a context cannot. *)
Definition made_current r w : bool * world :=
  if decide (ctx r = nullptr) then (false, w)
  else let '(status, w') := cudaSetDevice (task_gpuId r) w in (cuda_ok status, w').

(** Calls one after the other, up to the first that fails. *)
Fixpoint in_order (calls : list (world → bool * world)) w : bool * world :=
  match calls with
  | [] => (true, w)
  | call :: calls => let '(ok, w) := call w in if ok then in_order calls w else (false, w)
  end.

(** The calls a frame's execution is made of: where the access must be filled, the
    frame goes to the pinned buffer and from there to the device, as often as the
    multiplier says; then every algorithm's kernels and every algorithm's transfer,
    in turns or one after the other. *)
Definition work_calls t r (access : GpuDataAccess) (atom : FrameCpuAtom) : list (world → bool * world) :=
  (match accessStatus access with
   | CacheFill | TaskFallback =>
       (λ w, (true, host_store (h_in r) (atom_data atom) w))
       :: replicate H2D_SIZE_MULTIPLIER (λ w,
            let '(status, w) := cudaMemcpyAsync (writableData access) (h_in r) (inBytes r) (stream access) w in
            (cuda_ok status, w))
   | _ => []
   end)
  ++ (let kernels a := launchKernels r (d_data access) (stream access) a in
      let transfer a := launchD2H r (stream access) a in
      match executionModel t with
      | Batched => (kernels <$> algorithms t) ++ (transfer <$> algorithms t)
      | Interleaved => a ← algorithms t; [kernels a; transfer a]
      | OtherModel _ => [λ w, (false, w)]
      end).

Lemma in_order_app calls calls' w :
  in_order (calls ++ calls') w = let '(ok, w') := in_order calls w in if ok then in_order calls' w' else (false, w').
Proof.
  revert w. induction calls as [|call calls IH]; intros w; simpl; [done|]. destruct (call w) as [[] w']; [apply IH|done].
Qed.

Lemma enqueue_in_order call l w : enqueue call l w = in_order (call <$> l) w.
Proof. revert w. induction l as [|a l IH]; intros w; simpl; [done|]. destruct (call a w) as [[] w']; [apply IH|done]. Qed.

Lemma turns_in_order (f g : algorithm → world → bool * world) l w :
  enqueue (λ a w, let '(ok, w) := f a w in if ok : bool then g a w else (false, w)) l w
  = in_order (a ← l; [f a; g a]) w.
Proof.
  revert w. induction l as [|a l IH]; intros w; [done|]. cbn [enqueue mbind list_bind app in_order].
  destruct (f a w) as [[] w1]; [|done]. destruct (g a w1) as [[] w2]; [apply IH|done].
Qed.

Lemma upload_in_order n destination source bytes stream w :
  upload_frame n destination source bytes stream w
  = in_order (replicate n (λ w, let '(status, w) := cudaMemcpyAsync destination source bytes stream w in
                                (cuda_ok status, w))) w.
Proof.
  revert w. induction n as [|n IH]; intros w; cbn [upload_frame replicate in_order]; [done|].
  destruct (cudaMemcpyAsync _ _ _ _ _) as [status w1]. destruct (cuda_ok status); [apply IH|done].
Qed.

(** The body of [execute] makes exactly these calls. *)
Lemma work_in_order t r access atom w :
  (let '(uploaded, w) :=
     if status_eqb (accessStatus access) CacheFill || status_eqb (accessStatus access) TaskFallback
     then
       let w := host_store (h_in r) (atom_data atom) w in
       upload_frame H2D_SIZE_MULTIPLIER (writableData access) (h_in r) (inBytes r) (stream access) w
     else (true, w) in
   match executionModel t with
   | OtherModel _ => (false, w)
   | _ => if uploaded then compute t r (d_data access) (stream access) w else (false, w)
   end) = in_order (work_calls t r access atom) w.
Proof.
  unfold work_calls. rewrite in_order_app.
  assert ((if status_eqb (accessStatus access) CacheFill || status_eqb (accessStatus access) TaskFallback
    then upload_frame H2D_SIZE_MULTIPLIER (writableData access) (h_in r) (inBytes r) (stream access)
           (host_store (h_in r) (atom_data atom) w)
    else (true, w)) = in_order (match accessStatus access with
      | CacheFill | TaskFallback =>
          (λ w, (true, host_store (h_in r) (atom_data atom) w))
          :: replicate H2D_SIZE_MULTIPLIER (λ w,
               let '(status, w) := cudaMemcpyAsync (writableData access) (h_in r) (inBytes r) (stream access) w in
               (cuda_ok status, w))
      | _ => []
      end) w) as Hup by (destruct (accessStatus access); try done; cbn [in_order]; apply upload_in_order).
  cbv zeta in *. rewrite Hup. destruct (in_order _ w) as [[] w1]; [|by destruct (executionModel t)].
  unfold compute. destruct (executionModel t); [|by rewrite turns_in_order|done].
  rewrite in_order_app, enqueue_in_order. destruct (in_order _ w1) as [[] w2]; [apply enqueue_in_order|done].
Qed.

(** What [execute] does with an access that the cache granted. *)
Lemma execute_finish_run t access atom infra c d w r :
  represents c d → holds_lease d access → owner access ≠ nullptr → stream access ≠ nullptr →
  accessStatus access ≠ Invalid → task_store infra !! resources t = Some r →
  length (result_outputs (atom_result atom)) = length (algorithms t) →
  let '(computed, w1) := in_order (work_calls t r access atom) w in
  let '(status, w2) := cudaStreamSynchronize (stream access) w1 in
  ∃ ok outputs c',
    execute_finish t access atom infra c w
      = Some (ok, mkAtom (atom_metadata atom) (atom_data atom) (mkResult (result_id (atom_result atom)) ok outputs), c', w2)
    ∧ represents c' (end_access access (computed && cuda_ok status) false (synchronized status d))
    ∧ (cuda_ok status = false → failed c' = true)
    ∧ length outputs = length (result_outputs (atom_result atom))
    ∧ if computed && cuda_ok status
      then collected r (algorithms t) (result_outputs (atom_result atom)) w2 ok outputs
      else ok = false ∧ outputs = result_outputs (atom_result atom).
Proof.
  intros Hc Hl Hown Hstr Hst Ht Hlen. rewrite <-work_in_order. unfold execute_finish.
  rewrite Ht. cbn [mbind option_bind].
  assert (status_eqb (accessStatus access) Invalid = false) as -> by (by destruct (accessStatus access)).
  destruct (if status_eqb _ _ || status_eqb _ _ then _ else _) as [uploaded w1].
  destruct (match executionModel t with OtherModel _ => _ | _ => _ end) as [computed w2].
  destruct (cudaStreamSynchronize (stream access) w2) as [status w3] eqn:Hsync.
  destruct (freeCacheData_run c d access computed Keep w2 status w3 Hc Hl Hown Hstr Hsync)
    as (c' & -> & Hc' & Hfail). cbn [mbind option_bind]. rewrite andb_true_r in *.
  assert (∃ ok outputs, (if computed && (computed && cuda_ok status)
      then collectResults r (algorithms t) (result_outputs (atom_result atom)) w3
      else Some (false, result_outputs (atom_result atom))) = Some (ok, outputs)
    ∧ length outputs = length (result_outputs (atom_result atom))
    ∧ if computed && cuda_ok status
      then collected r (algorithms t) (result_outputs (atom_result atom)) w3 ok outputs
      else ok = false ∧ outputs = result_outputs (atom_result atom)) as (ok & outputs & -> & Hlo & Hok).
  { destruct computed, (cuda_ok status); simpl; try by eexists _, _.
    by apply collectResults_run. }
  cbn [mbind option_bind access_destruct abortUnfinishedAccess].
  change (owner GpuDataAccess_default =? nullptr) with true. cbn [mbind option_bind].
  exists ok, outputs, c'. split; [reflexivity|]. by split_and!.
Qed.

(** The part of [execute] before the request. *)
Lemma execute_begin_run t atom infra w r :
  registry infra → task_store infra !! resources t = Some r →
  ∃ request w1,
    execute_begin t atom infra w
      = Some (request, set_result_ok (bool_decide (is_Some request))
                         (set_result_id (frameId (md_key (atom_metadata atom))) atom), w1)
    ∧ if decide (accepts t r atom) then
        (bool_decide (is_Some request), w1) = made_current r w
        ∧ ∀ q, request = Some q →
            q = mkRequest (task_gpuId r) (task_stream r) (d_input r) (md_bytes (atom_metadata atom))
      else request = None ∧ w1 = w.
Proof.
  intros Hr Ht. unfold execute_begin. set (atom1 := set_result_id _ atom).
  destruct (decide (accepts t r atom)) as [(Hst & Hdata & Hbytes & Hw & Hh & Hd & Hin & Hout)|Hno].
  - unfold lifecycle_eqb. rewrite bool_decide_true by done. cbn [negb]. rewrite Ht. cbn [mbind option_bind].
    unfold atom1. cbn [atom_data atom_result result_outputs set_result_id].
    rewrite Hdata, Hout, Hbytes, Hw, Hh, Hd, !N.eqb_refl, !Z.eqb_refl, (proj2 (N.eqb_neq _ _) Hin). cbn [negb orb].
    rewrite (makeTaskCurrent_run infra (resources t) r w Hr Ht). cbn [mbind option_bind]. fold (made_current r w).
    destruct (made_current r w) as [[] w1]; cbn [negb].
    + exists (Some (mkRequest (task_gpuId r) (task_stream r) (d_input r) (inBytes r))), w1.
      split; [reflexivity|]. split; [done|]. by intros q [= <-].
    + exists None, w1. by split.
  - exists None, w. split; [|done]. unfold lifecycle_eqb. case_bool_decide as Hst; cbn [negb]; [|done].
    rewrite Ht. cbn [mbind option_bind]. unfold atom1. cbn [atom_data atom_result result_outputs set_result_id].
    destruct (_ || negb (md_dtype _ =? _)%Z) eqn:Hlayout; [done|].
    rewrite !orb_false_iff, !negb_false_iff, !N.eqb_eq, !Z.eqb_eq in Hlayout.
    destruct Hlayout as ((((Hdata & Hbytes) & Hw) & Hh) & Hd).
    destruct (_ || negb (vsize (result_outputs _) =? _)) eqn:Hbuf; [done|].
    rewrite orb_false_iff, negb_false_iff, N.eqb_eq, N.eqb_neq in Hbuf. destruct Hbuf as [Hin Hout].
    by destruct Hno.
Qed.

(** C31.  Executing a frame never touches its data or its identity, and gives one
    verdict, in its result and in the frame alike.  The cache is asked exactly if the
    frame fits the task ([accepts]: the task is started, the sizes, dimensions and type
    are those it was made for, it has its buffer and an output per algorithm) and the
    task's device can be selected; the request names the task's own GPU, stream and
    buffer, of the frame's size.  A frame that does not fit is refused before
    anything is called, and one the cache refuses fails.  Otherwise the calls of the
    execution are made in order up to the first that fails, the stream is synchronized,
    and the lease is given back: a fill is published exactly if all of them succeeded
    and the synchronization did, only then are the outputs collected, and only if all
    are collected does the task report success; else the outputs are as they were. *)
Theorem execute_outcome t atom infra w r :
  registry infra → task_store infra !! resources t = Some r →
  ∃ request atom1 w1, execute_begin t atom infra w = Some (request, atom1, w1)
    ∧ judged atom (bool_decide (is_Some request)) atom1
    ∧ result_outputs (atom_result atom1) = result_outputs (atom_result atom)
    ∧ (if decide (accepts t r atom) then
         (bool_decide (is_Some request), w1) = made_current r w
         ∧ ∀ q, request = Some q →
             q = mkRequest (task_gpuId r) (task_stream r) (d_input r) (md_bytes (atom_metadata atom))
       else request = None ∧ w1 = w)
    ∧ (request ≠ None → ∀ c w2,
         execute_finish t GpuDataAccess_default atom1 infra c w2 = Some (false, set_result_ok false atom1, c, w2))
    ∧ (request ≠ None → ∀ access c d w2,
         represents c d → holds_lease d access → owner access ≠ nullptr → stream access ≠ nullptr →
         accessStatus access ≠ Invalid →
         let '(computed, w3) := in_order (work_calls t r access atom) w2 in
         let '(status, w4) := cudaStreamSynchronize (stream access) w3 in
         ∃ ok atom2 c',
           execute_finish t access atom1 infra c w2 = Some (ok, atom2, c', w4) ∧ judged atom ok atom2
           ∧ represents c' (end_access access (computed && cuda_ok status) false (synchronized status d))
           ∧ (cuda_ok status = false → failed c' = true)
           ∧ if computed && cuda_ok status
             then collected r (algorithms t) (result_outputs (atom_result atom)) w4 ok (result_outputs (atom_result atom2))
             else ok = false ∧ result_outputs (atom_result atom2) = result_outputs (atom_result atom)).
Proof.
  intros Hr Ht. destruct (execute_begin_run t atom infra w r Hr Ht) as (request & w1 & -> & Hasked).
  set (atom1 := set_result_ok _ _). exists request, atom1, w1. split; [done|]. split; [by split_and!|]. split; [done|].
  split; [exact Hasked|]. split.
  - intros _ c w2. unfold execute_finish. rewrite Ht. done.
  - intros Hsome access c d w2 Hc Hl Hown Hstr Hst.
    case_decide as Hfit; [|by destruct Hasked]. destruct Hfit as (_ & _ & _ & _ & _ & _ & _ & Hout).
    pose proof (execute_finish_run t access atom1 infra c d w2 r Hc Hl Hown Hstr Hst Ht) as Hrun.
    change (work_calls t r access atom1) with (work_calls t r access atom) in Hrun.
    destruct (in_order _ w2) as [computed w3]. destruct (cudaStreamSynchronize _ w3) as [status w4].
    destruct Hrun as (ok & outputs & c' & Hrun & Hc' & Hfail & Hlen & Hcol).
    { simpl. unfold vsize in Hout. lia. }
    eexists ok, _, c'. split; [exact Hrun|]. by split_and!.
Qed.

End behaviour.
