(* ===== verification/DummyGraph.v ===== *)
(** [DummyGraph] ([demo/Grape/DummyGraph.h] and [.cpp]): a graph that runs frames
    on its tasks with a pool of worker threads.  Each critical section of the
    scheduler's mutex is one function; a worker's loop is a machine whose states
    are the points between its atomic operations.  Frames are objects the graph
    owns and the workers point to, so they live in a store; following a pointer
    to a frame that is not there is [None].  A condition variable is the number
    of notifications it has had. *)
From stdpp Require Import strings.
From S2P Require Import Prelude.
From S2P Require Import Platform.
From S2P Require Import GpuDataKey.
From S2P Require Import CacheTypes.
From S2P Require Import GpuTopology.
From S2P Require Import GpuContextManager.
From S2P Require Import StaticGpuData.
From S2P Require Import StaticData.
From S2P Require Import ParameterRegistry.
From S2P Require Import DemoTypes.
From S2P Require Import DeviceCalls.
From S2P Require Import DummyTask.
#[local] Open Scope N_scope.

(** ** The sink *)

(** [history] is not in the code: the frames delivered and their verdicts, the
    latest first. *)
Record GraphSink := mkSink {
  deliveredResults : size_t;
  failedResults : size_t;
  history : list (ptr * bool);
}.

(** [GraphSink()] *)
Definition GraphSink_default : GraphSink := mkSink 0 0 [].

Definition deliver (frame : ptr) (result : JobResult) (s : GraphSink) : GraphSink :=
  mkSink (inc64 (deliveredResults s))
    (if negb (result_ok result) then inc64 (failedResults s) else failedResults s)
    ((frame, result_ok result) :: history s).

Definition sink_count (s : GraphSink) : size_t := deliveredResults s.
Definition failureCount (s : GraphSink) : size_t := failedResults s.

(** ** The graph *)

Record GraphConfig := mkGraphConfig {
  taskInstancesPerGpu : size_t;
  graphThreads : size_t;
  config_gpuCacheEntries : size_t;
  config_gpuCacheWaitTimeout : Z;
  warmupFramesPerGpu : uint64;
  timedFramesPerGpu : uint64;
  firstFrameId : uint64;
  config_executionModel : ExecutionModel;
  config_runtime : AlgoRuntimeInfo;
  config_parameters : AlgoParams;
  config_gpuCacheEvictionPolicy : CacheEvictionPolicy;
}.

Definition set_graphThreads (n : size_t) (c : GraphConfig) : GraphConfig :=
  mkGraphConfig (taskInstancesPerGpu c) n (config_gpuCacheEntries c) (config_gpuCacheWaitTimeout c)
    (warmupFramesPerGpu c) (timedFramesPerGpu c) (firstFrameId c) (config_executionModel c)
    (config_runtime c) (config_parameters c) (config_gpuCacheEvictionPolicy c).

Definition set_config_parameters (p : AlgoParams) (c : GraphConfig) : GraphConfig :=
  mkGraphConfig (taskInstancesPerGpu c) (graphThreads c) (config_gpuCacheEntries c)
    (config_gpuCacheWaitTimeout c) (warmupFramesPerGpu c) (timedFramesPerGpu c) (firstFrameId c)
    (config_executionModel c) (config_runtime c) p (config_gpuCacheEvictionPolicy c).

Section graph.
Context `{IAlgo} `{!GpuDriver} `{!HostMemory}.

(** What the graph shares: the frames it allocates, the cancellation flag and the
    sink of its caller, the gates that were opened, the registry of GPUs and the
    machine. *)
Record Surroundings := mkSurroundings {
  atoms : gmap ptr FrameCpuAtom;
  cancellation : bool;
  sink : GraphSink;
  gates_released : gset ptr;
  gpu_infra : GpuInfra;
  machine_world : world;
}.

Definition Surroundings_eta e :=
  mkSurroundings (atoms e) (cancellation e) (sink e) (gates_released e) (gpu_infra e) (machine_world e).
#[export] Instance set_atoms : Setter atoms := ltac:(make_setter atoms Surroundings_eta).
#[export] Instance set_cancellation : Setter cancellation := ltac:(make_setter cancellation Surroundings_eta).
#[export] Instance set_sink : Setter sink := ltac:(make_setter sink Surroundings_eta).
#[export] Instance set_gates_released : Setter gates_released := ltac:(make_setter gates_released Surroundings_eta).
#[export] Instance set_gpu_infra : Setter gpu_infra := ltac:(make_setter gpu_infra Surroundings_eta).
#[export] Instance set_machine_world : Setter machine_world := ltac:(make_setter machine_world Surroundings_eta).

(** The members; [tasks] are named by their index in the vector, frames by their
    address, and a gate by its address. *)
Record DummyGraph := mkGraph {
  config : GraphConfig;
  gpuIds : list Z;
  graphRegistry : ParameterRegistry;
  graphSnapshot : ParameterSnapshot;
  tasks : list DummyTask;
  staticData : StaticData;
  warmupAtoms : list ptr;
  timedAtoms : list ptr;
  workCondition : N;
  phaseCondition : N;
  startupCondition : N;
  readyFrames : list ptr;
  freeTasks : list N;
  phaseGate : ptr;
  readyWorkers : size_t;
  phaseTotal : size_t;
  phaseTerminal : size_t;
  inFlight : size_t;
  lastMaxInFlight : size_t;
  workerStartupFailed : bool;
  warmupSubmitted : bool;
  timedSubmitted : bool;
  phaseActive : bool;
  phaseSucceeded : bool;
  graph_initialized : bool;
  executionCycleStarted : bool;
  executionCycleStopped : bool;
  stopping : bool;
}.

Definition DummyGraph_eta g :=
  mkGraph (config g) (gpuIds g) (graphRegistry g) (graphSnapshot g) (tasks g) (staticData g)
    (warmupAtoms g) (timedAtoms g) (workCondition g) (phaseCondition g) (startupCondition g)
    (readyFrames g) (freeTasks g) (phaseGate g) (readyWorkers g) (phaseTotal g) (phaseTerminal g)
    (inFlight g) (lastMaxInFlight g) (workerStartupFailed g) (warmupSubmitted g)
    (timedSubmitted g) (phaseActive g) (phaseSucceeded g) (graph_initialized g)
    (executionCycleStarted g) (executionCycleStopped g) (stopping g).
#[export] Instance set_config : Setter config := ltac:(make_setter config DummyGraph_eta).
#[export] Instance set_gpuIds : Setter gpuIds := ltac:(make_setter gpuIds DummyGraph_eta).
#[export] Instance set_graphRegistry : Setter graphRegistry := ltac:(make_setter graphRegistry DummyGraph_eta).
#[export] Instance set_graphSnapshot : Setter graphSnapshot := ltac:(make_setter graphSnapshot DummyGraph_eta).
#[export] Instance set_tasks : Setter tasks := ltac:(make_setter tasks DummyGraph_eta).
#[export] Instance set_staticData : Setter staticData := ltac:(make_setter staticData DummyGraph_eta).
#[export] Instance set_warmupAtoms : Setter warmupAtoms := ltac:(make_setter warmupAtoms DummyGraph_eta).
#[export] Instance set_timedAtoms : Setter timedAtoms := ltac:(make_setter timedAtoms DummyGraph_eta).
#[export] Instance set_workCondition : Setter workCondition := ltac:(make_setter workCondition DummyGraph_eta).
#[export] Instance set_phaseCondition : Setter phaseCondition := ltac:(make_setter phaseCondition DummyGraph_eta).
#[export] Instance set_startupCondition : Setter startupCondition := ltac:(make_setter startupCondition DummyGraph_eta).
#[export] Instance set_readyFrames : Setter readyFrames := ltac:(make_setter readyFrames DummyGraph_eta).
#[export] Instance set_freeTasks : Setter freeTasks := ltac:(make_setter freeTasks DummyGraph_eta).
#[export] Instance set_phaseGate : Setter phaseGate := ltac:(make_setter phaseGate DummyGraph_eta).
#[export] Instance set_readyWorkers : Setter readyWorkers := ltac:(make_setter readyWorkers DummyGraph_eta).
#[export] Instance set_phaseTotal : Setter phaseTotal := ltac:(make_setter phaseTotal DummyGraph_eta).
#[export] Instance set_phaseTerminal : Setter phaseTerminal := ltac:(make_setter phaseTerminal DummyGraph_eta).
#[export] Instance set_inFlight : Setter inFlight := ltac:(make_setter inFlight DummyGraph_eta).
#[export] Instance set_lastMaxInFlight : Setter lastMaxInFlight := ltac:(make_setter lastMaxInFlight DummyGraph_eta).
#[export] Instance set_workerStartupFailed : Setter workerStartupFailed := ltac:(make_setter workerStartupFailed DummyGraph_eta).
#[export] Instance set_warmupSubmitted : Setter warmupSubmitted := ltac:(make_setter warmupSubmitted DummyGraph_eta).
#[export] Instance set_timedSubmitted : Setter timedSubmitted := ltac:(make_setter timedSubmitted DummyGraph_eta).
#[export] Instance set_phaseActive : Setter phaseActive := ltac:(make_setter phaseActive DummyGraph_eta).
#[export] Instance set_phaseSucceeded : Setter phaseSucceeded := ltac:(make_setter phaseSucceeded DummyGraph_eta).
#[export] Instance set_graph_initialized : Setter graph_initialized := ltac:(make_setter graph_initialized DummyGraph_eta).
#[export] Instance set_executionCycleStarted : Setter executionCycleStarted := ltac:(make_setter executionCycleStarted DummyGraph_eta).
#[export] Instance set_executionCycleStopped : Setter executionCycleStopped := ltac:(make_setter executionCycleStopped DummyGraph_eta).
#[export] Instance set_stopping : Setter stopping := ltac:(make_setter stopping DummyGraph_eta).

(** [DummyGraph(...)] around an owner of static data just constructed. *)
Definition DummyGraph_construct (graphConfig : GraphConfig) (data : StaticData) : DummyGraph :=
  mkGraph graphConfig [] ParameterRegistry_default ParameterSnapshot_default [] data [] [] 0 0 0
    [] [] nullptr 0 0 0 0 0 false false false false true false false false false.

Definition notify_work (g : DummyGraph) : DummyGraph := g <| workCondition := workCondition g + 1 |>.
Definition notify_phase (g : DummyGraph) : DummyGraph := g <| phaseCondition := phaseCondition g + 1 |>.
Definition cancel (e : Surroundings) : Surroundings := e <| cancellation := true |>.

(** [result.ok = ok] and delivery of one frame. *)
Definition mark_frame (ok : bool) (frame : ptr) (e : Surroundings) : option Surroundings :=
  atom ← atoms e !! frame;
  Some (e <| atoms := <[frame := set_result_ok ok atom]> (atoms e) |>).

(** What a task's [execute] leaves in its frame. *)
Definition execute_frame (outcome : bool) (outputs : list AlgoOutput) (frame : ptr)
    (e : Surroundings) : option Surroundings :=
  atom ← atoms e !! frame;
  let atom := mkAtom (atom_metadata atom) (atom_data atom)
    (mkResult (frameId (md_key (atom_metadata atom))) outcome outputs) in
  Some (e <| atoms := <[frame := atom]> (atoms e) |>).

Definition deliverFrameResult (frame : ptr) (e : Surroundings) : option Surroundings :=
  atom ← atoms e !! frame;
  Some (e <| sink := deliver frame (atom_result atom) (sink e) |>).

(** ** The scheduler *)

(** The loop of [cancelReadyFramesLocked]: the count of ended frames after it. *)
Fixpoint cancelFrames (frames : list ptr) (terminal : size_t) (e : Surroundings) :
    option (size_t * Surroundings) :=
  match frames with
  | [] => Some (terminal, e)
  | frame :: frames =>
      e ← mark_frame false frame e;
      e ← deliverFrameResult frame e;
      cancelFrames frames (inc64 terminal) e
  end.

Definition cancelReadyFramesLocked (g : DummyGraph) (e : Surroundings) :
    option (DummyGraph * Surroundings) :=
  '(terminal, e) ← cancelFrames (readyFrames g) (phaseTerminal g) e;
  Some (g <| readyFrames := [] |> <| phaseTerminal := terminal |> <| phaseSucceeded := false |>, e).

Definition finishPhaseIfCompleteLocked (g : DummyGraph) : DummyGraph :=
  if phaseActive g && (vsize (readyFrames g) =? 0) && (inFlight g =? 0)
     && (phaseTerminal g =? phaseTotal g)
  then notify_phase (g <| phaseActive := false |> <| phaseGate := nullptr |>)
  else g.

(** The frames of one vector that were never submitted end as failed. *)
Fixpoint cancelPrepared (frames : list ptr) (e : Surroundings) : option Surroundings :=
  match frames with
  | [] => Some e
  | frame :: frames =>
      e ← mark_frame false frame e;
      e ← deliverFrameResult frame e;
      cancelPrepared frames e
  end.

Definition cancelPreparedFramesLocked (g : DummyGraph) (e : Surroundings) :
    option (DummyGraph * Surroundings) :=
  e ← (if warmupSubmitted g then Some e else cancelPrepared (warmupAtoms g) e);
  let g := g <| warmupSubmitted := true |> in
  e ← (if timedSubmitted g then Some e else cancelPrepared (timedAtoms g) e);
  Some (g <| timedSubmitted := true |>, e).

Definition validFramePhase (phase : FramePhase) : bool :=
  match phase with OtherPhase _ => false | _ => true end.

Definition atomsForPhase (phase : FramePhase) (g : DummyGraph) : list ptr :=
  match phase with Warmup => warmupAtoms g | _ => timedAtoms g end.

(** The loop that validates and collects the frames of a phase: it is refused,
    it throws, or it gives the frames. *)
Inductive collected := Refused | Thrown | Pending (frames : list ptr).

Fixpoint collectFrames (data : StaticData) (frames pending : list ptr) (e : Surroundings) :
    option (collected * Surroundings) :=
  match frames with
  | [] => Some (Pending pending, e)
  | frame :: frames =>
      if frame =? nullptr then Some (Refused, e)
      else
        atom ← atoms e !! frame;
        if negb (validateFrame data (atom_metadata atom)) then Some (Refused, e)
        else
          let '(allocated, w) := host_alloc 1 (machine_world e) in
          let e := e <| machine_world := w |> in
          if negb allocated then Some (Thrown, e)
          else collectFrames data frames (pending ++ [frame]) e
  end.

(** The loop that resets the results of the frames of a phase. *)
Fixpoint resetFrames (frames : list ptr) (e : Surroundings) : option Surroundings :=
  match frames with
  | [] => Some e
  | frame :: frames =>
      atom ← atoms e !! frame;
      let atom := set_result_ok true (set_result_id (frameId (md_key (atom_metadata atom))) atom) in
      resetFrames frames (e <| atoms := <[frame := atom]> (atoms e) |>)
  end.

(** The scheduler's state at the start of a phase. *)
Definition begin_phase (phase : FramePhase) (gate : ptr) (pending : list ptr) (g : DummyGraph) :
    DummyGraph :=
  let total := vsize (atomsForPhase phase g) in
  let g := g <| readyFrames := pending |> in
  let g := match phase with
           | Warmup => g <| warmupSubmitted := true |>
           | _ => g <| timedSubmitted := true |>
           end in
  let g := g <| phaseGate := gate |> <| phaseTotal := total |> <| phaseTerminal := 0 |>
             <| inFlight := 0 |> <| lastMaxInFlight := 0 |> <| phaseSucceeded := true |>
             <| phaseActive := negb (total =? 0) |> in
  if phaseActive g then notify_work g else notify_phase g.

Definition startPhase (phase : FramePhase) (gate : ptr) (g : DummyGraph) (e : Surroundings) :
    option (bool * DummyGraph * Surroundings) :=
  if negb (graph_initialized g) || negb (executionCycleStarted g) || negb (validFramePhase phase)
     || phaseActive g || stopping g || cancellation e
  then Some (false, g, e)
  else if match phase with Warmup => warmupSubmitted g | _ => timedSubmitted g end
  then Some (false, g, e)
  else
    '(pending, e) ← collectFrames (staticData g) (atomsForPhase phase g) [] e;
    match pending with
    | Refused => Some (false, g, e)
    | Thrown => Some (false, g, cancel e)
    | Pending frames =>
        e ← resetFrames (atomsForPhase phase g) e;
        Some (true, begin_phase phase gate frames g, e)
    end.

(** [waitForPhase]: a result, or [None] while the caller sleeps. *)
Definition waitForPhase (g : DummyGraph) (e : Surroundings) : option bool :=
  if negb (graph_initialized g) then Some false
  else if phaseActive g then None
  else Some (phaseSucceeded g && negb (cancellation e)).

(** ** The workers *)

(** Where a worker is in [workerLoop]: the points between its atomic operations. *)
Inductive Worker :=
  | Starting (numaReady : bool)
  | AtTop
  | Asleep
  | AtGate (frame : ptr) (task : N) (gate : ptr)
  | Checking (frame : ptr) (task : N)
  | Executing (frame : ptr) (task : N)
  | Executed (frame : ptr) (task : N) (succeeded : bool)
  | Reading (frame : ptr) (task : N) (succeeded : bool)
  | Delivering (frame : ptr) (task : N) (succeeded : bool)
  | Delivered (frame : ptr) (task : N) (succeeded : bool)
  | Exited.

(** The predicate a worker waits for. *)
Definition has_work (g : DummyGraph) (e : Surroundings) : bool :=
  stopping g
  || (phaseActive g && (cancellation e
        || (negb (vsize (readyFrames g) =? 0) && negb (vsize (freeTasks g) =? 0)))).

(** [std::deque::front], [std::vector::back] and [pop_back]. *)
Definition back (l : list N) : option N := last l.
Definition pop_back (l : list N) : list N := removelast l.

(** The registration of a worker that has just started. *)
Definition worker_register (numaReady : bool) (g : DummyGraph) (e : Surroundings) :
    Worker * DummyGraph * Surroundings :=
  let g := g <| readyWorkers := inc64 (readyWorkers g) |> in
  let '(g, e) :=
    if negb numaReady then (g <| workerStartupFailed := true |>, cancel e) else (g, e) in
  let g := g <| startupCondition := startupCondition g + 1 |> in
  (if numaReady then AtTop else Exited, g, e).

(** The critical section at the top of the loop. *)
Definition worker_claim (g : DummyGraph) (e : Surroundings) :
    option (Worker * DummyGraph * Surroundings) :=
  if negb (has_work g e) then Some (Asleep, g, e)
  else if stopping g then Some (Exited, g, e)
  else if cancellation e then
    '(g, e) ← cancelReadyFramesLocked g e;
    Some (AtTop, finishPhaseIfCompleteLocked g, e)
  else
    frame ← head (readyFrames g);
    task ← back (freeTasks g);
    let gate := phaseGate g in
    let g := g <| readyFrames := tail (readyFrames g) |> <| freeTasks := pop_back (freeTasks g) |>
               <| inFlight := inc64 (inFlight g) |> in
    let g := g <| lastMaxInFlight := N.max (lastMaxInFlight g) (inFlight g) |> in
    Some (AtGate frame task gate, g, e).

(** The critical section at the end of the loop. *)
Definition worker_return (task : N) (succeeded : bool) (g : DummyGraph) (e : Surroundings) :
    option (Worker * DummyGraph * Surroundings) :=
  let g := g <| freeTasks := freeTasks g ++ [task] |> <| inFlight := dec64 (inFlight g) |>
             <| phaseTerminal := inc64 (phaseTerminal g) |> in
  '(g, e) ←
    (if negb succeeded || cancellation e
     then cancelReadyFramesLocked (g <| phaseSucceeded := false |>) e else Some (g, e));
  Some (AtTop, notify_work (finishPhaseIfCompleteLocked g), e).

(** One atomic operation of a worker.  [outcome] is what the task's [execute]
    returns, which is also the verdict it leaves in the frame; [outputs], [cache]
    and [w] are the outputs, the cache and the machine it leaves.  A worker that waits at a closed
    gate or sleeps, and one that has returned, has no operation. *)
Definition worker_step (outcome : bool) (outputs : list AlgoOutput) (cache : GpuDataCache)
    (w : world) (p : Worker)
    (g : DummyGraph) (e : Surroundings) : option (Worker * DummyGraph * Surroundings) :=
  match p with
  | Starting numaReady => Some (worker_register numaReady g e)
  | AtTop => worker_claim g e
  | Asleep => Some (Asleep, g, e)
  | AtGate frame task gate =>
      if gate =? nullptr then None
      else if bool_decide (gate ∈ gates_released e) then Some (Checking frame task, g, e)
      else Some (AtGate frame task gate, g, e)
  | Checking frame task =>
      Some (if cancellation e then Executed frame task false else Executing frame task, g, e)
  | Executing frame task =>
      if execute (staticData g) then
        _ ← vat (tasks g) task;
        e ← execute_frame outcome outputs frame e;
        Some (Executed frame task outcome,
              g <| staticData := (staticData g) <| gpuDataCache := cache |> |>,
              e <| machine_world := w |>)
      else Some (Executed frame task false, g, e)
  | Executed frame task succeeded =>
      Some (Reading frame task succeeded, g, if negb succeeded then cancel e else e)
  | Reading frame task succeeded =>
      e ← (if negb succeeded || cancellation e then mark_frame false frame e else Some e);
      Some (Delivering frame task succeeded, g, e)
  | Delivering frame task succeeded =>
      e ← deliverFrameResult frame e;
      Some (Delivered frame task succeeded, g, e)
  | Delivered _ task succeeded => worker_return task succeeded g e
  | Exited => Some (Exited, g, e)
  end.

(** ** The calls of the owner *)

(** [executor.run(callback)]: the flag is [false] when the thread cannot be
    started or placed, and the callback then does not run. *)
Definition executor_run {A} (placed : bool) (callback : A → option (bool * A)) (a : A) :
    option (bool * A) :=
  if placed then callback a else Some (false, a).

(** The loop of [startOnNumaNode], with the tasks started so far. *)
Fixpoint startTasks (started pending : list DummyTask) : bool * list DummyTask :=
  match pending with
  | [] => (true, started)
  | t :: rest =>
      let '(ok, t) := task_start t in
      if ok then startTasks (started ++ [t]) rest
      else (false, ((λ t, snd (task_stop t)) <$> started) ++ t :: rest)
  end.

Definition startOnNumaNode (g : DummyGraph) : option (bool * DummyGraph) :=
  let '(ok, ts) := startTasks [] (tasks g) in Some (ok, g <| tasks := ts |>).

Definition graph_start (placed : bool) (g : DummyGraph) (e : Surroundings) :
    option (bool * DummyGraph * Surroundings) :=
  if negb (graph_initialized g) || executionCycleStarted g || executionCycleStopped g
     || phaseActive g || stopping g || cancellation e
  then Some (false, g, e)
  else
    '(ok, g) ← executor_run placed startOnNumaNode g;
    if ok : bool then Some (true, g <| executionCycleStarted := true |>, e)
    else Some (false, g, cancel e).

(** The loop of [stopOnNumaNode], over the reversed tasks. *)
Fixpoint stopTasks (ts : list DummyTask) : bool * list DummyTask :=
  match ts with
  | [] => (true, [])
  | t :: rest =>
      let '(stopped, t) :=
        if lifecycle_eqb (task_state t) Started
        then let '(ok, t) := task_stop t in (ok && lifecycle_eqb (task_state t) Stopped, t)
        else (lifecycle_eqb (task_state t) Stopped, t) in
      let '(ok, rest) := stopTasks rest in
      (stopped && ok, t :: rest)
  end.

Definition stopOnNumaNode (g : DummyGraph) : option (bool * DummyGraph) :=
  let '(ok, ts) := stopTasks (reverse (tasks g)) in Some (ok, g <| tasks := reverse ts |>).

Definition graph_stop (placed : bool) (g : DummyGraph) (e : Surroundings) :
    option (bool * DummyGraph * Surroundings) :=
  if negb (graph_initialized g) || negb (executionCycleStarted g) || executionCycleStopped g
     || phaseActive g || negb (inFlight g =? 0) || stopping g
  then Some (false, g, e)
  else
    '(ok, g) ← executor_run placed stopOnNumaNode g;
    if ok : bool
    then Some (true, g <| executionCycleStarted := false |> <| executionCycleStopped := true |>, e)
    else Some (false, g, cancel e).

(** ** Parameters *)

(** The loop of [notifyParametersOnNumaNode]: it stops at the first refusal. *)
Fixpoint notifyTasks (parameters : ParameterSnapshot) (ts : list DummyTask) (infra : GpuInfra)
    (w : world) : option (bool * list DummyTask * world) :=
  match ts with
  | [] => Some (true, [], w)
  | t :: rest =>
      '(ok, t, w) ← notifyParameters parameters t infra w;
      if negb ok then Some (false, t :: rest, w)
      else
        '(ok, rest, w) ← notifyTasks parameters rest infra w;
        Some (ok : bool, t :: rest, w)
  end.

Definition notifyParametersOnNumaNode (parameters : ParameterSnapshot)
    (ge : DummyGraph * Surroundings) : option (bool * (DummyGraph * Surroundings)) :=
  let '(g, e) := ge in
  '(ok, ts, w) ← notifyTasks parameters (tasks g) (gpu_infra e) (machine_world e);
  Some (ok : bool, (g <| tasks := ts |>, e <| machine_world := w |>)).

Definition changeParameters (placed : bool) (parameters : AlgoParams) (g : DummyGraph)
    (e : Surroundings) : option (bool * DummyGraph * Surroundings) :=
  if negb (graph_initialized g) || phaseActive g || negb (inFlight g =? 0) || stopping g
     || cancellation e || negb (isSealed (graphRegistry g))
  then Some (false, g, e)
  else if bool_decide (parameters = config_parameters (config g)) then Some (true, g, e)
  else
    let previousRevision := revision (graphRegistry g) in
    let '(ok, r) := setString NAME_PARAMETER (params_name parameters) (graphRegistry g) in
    let g := g <| graphRegistry := r |> in
    if negb ok then Some (false, g, e)
    else
      let '(ok, r) := setBytes BLOB_PARAMETER (params_blob parameters) r in
      let g := g <| graphRegistry := r |> in
      if negb ok || (revision r =? previousRevision) then Some (false, g, e)
      else
        let '(ok, updatedSnapshot) := snapshot r ParameterSnapshot_default in
        if negb ok then Some (false, g, e)
        else
          '(ok, (g, e)) ← executor_run placed (notifyParametersOnNumaNode updatedSnapshot) (g, e);
          if negb ok then Some (false, g, cancel e)
          else
            Some (true,
              g <| config := set_config_parameters parameters (config g) |>
                <| graphSnapshot := updatedSnapshot |>, e).

(** ** Shutdown *)

Fixpoint unloadTasks (ts : list DummyTask) (infra : GpuInfra) (w : world) :
    option (bool * list DummyTask * GpuInfra * world) :=
  match ts with
  | [] => Some (true, [], infra, w)
  | t :: rest =>
      '(unloaded, t, infra, w) ← task_unload t infra w;
      '(ok, rest, infra, w) ← unloadTasks rest infra w;
      Some (unloaded && ok, t :: rest, infra, w)
  end.

(** [tasks.clear()]: the destructors of the tasks. *)
Fixpoint destructTasks (ts : list DummyTask) (infra : GpuInfra) (w : world) :
    option (GpuInfra * world) :=
  match ts with
  | [] => Some (infra, w)
  | t :: rest =>
      '(infra, w) ← task_destruct t infra w;
      destructTasks rest infra w
  end.

(** [warmupAtoms.clear()] and [timedAtoms.clear()]. *)
Definition freeAtoms (frames : list ptr) (store : gmap ptr FrameCpuAtom) : gmap ptr FrameCpuAtom :=
  foldr delete store frames.

Definition unloadOnNumaNode (ge : DummyGraph * Surroundings) :
    option (bool * (DummyGraph * Surroundings)) :=
  let '(g, e) := ge in
  '(stopped, g) ←
    (if executionCycleStarted g then
       '(ok, g) ← stopOnNumaNode g;
       Some (ok : bool, g <| executionCycleStarted := false |> <| executionCycleStopped := true |>)
     else Some (true, g));
  let '(released, d, w) := data_release (staticData g) (machine_world e) in
  let e := e <| atoms := freeAtoms (warmupAtoms g ++ timedAtoms g) (atoms e) |> in
  let g := g <| staticData := d |> <| warmupAtoms := [] |> <| timedAtoms := [] |>
             <| warmupSubmitted := false |> <| timedSubmitted := false |> in
  '(unloaded, ts, infra, w) ← unloadTasks (tasks g) (gpu_infra e) w;
  '(infra, w) ← destructTasks ts infra w;
  Some (stopped && released && unloaded,
        (g <| tasks := [] |>, e <| gpu_infra := infra |> <| machine_world := w |>)).

(** The first critical section of [shutdown]; [workers] is the number of worker
    threads.  The flag is [true] when there is nothing to shut down. *)
Definition shutdown_begin (workers : nat) (g : DummyGraph) (e : Surroundings) :
    option (bool * DummyGraph * Surroundings) :=
  if negb (graph_initialized g) && (workers =? 0)%nat && (vsize (tasks g) =? 0)
     && (vsize (warmupAtoms g) =? 0) && (vsize (timedAtoms g) =? 0)
     && negb (isInitialized (staticData g)) && (gpuCacheEntryCount (staticData g) =? 0)
  then Some (true, g, e)
  else
    let g := g <| stopping := true |> in
    '(g, e) ←
      (if phaseActive g then
         '(g, e) ← cancelReadyFramesLocked g (cancel e);
         Some (g, if phaseGate g =? nullptr then e
                  else e <| gates_released := {[phaseGate g]} ∪ gates_released e |>)
       else Some (g, e));
    '(g, e) ← cancelPreparedFramesLocked g e;
    Some (false, notify_work g, e).

(** After the workers were joined: the unloading and the last section. *)
Definition shutdown_end (placed : bool) (g : DummyGraph) (e : Surroundings) :
    option (bool * DummyGraph * Surroundings) :=
  '(ok, (g, e)) ← executor_run placed unloadOnNumaNode (g, e);
  Some (ok : bool,
        g <| graph_initialized := false |> <| executionCycleStarted := false |>
          <| readyFrames := [] |> <| freeTasks := [] |> <| phaseGate := nullptr |>
          <| phaseActive := false |>, e).

(** ** Initialization *)

Definition multiplyFrameCount (framesPerGpu : uint64) (gpuCount : size_t) : option size_t :=
  if (gpuCount =? 0) || (SIZE_MAX / gpuCount <? framesPerGpu) then None
  else Some (mul64 framesPerGpu gpuCount).

Definition makeFrameMetadata (frameId : uint64) (runtime : AlgoRuntimeInfo) : FrameMetadata :=
  mkMetadata (mkKey frameId 0 0) (runtime_inBytes runtime) (frameW runtime) (frameH runtime)
    (frameDtype runtime).

(** The number of frames of each phase, where they and their ids fit. *)
Definition plannedFrames (c : GraphConfig) (gpuCount : size_t) : option (size_t * size_t) :=
  warmupCount ← multiplyFrameCount (warmupFramesPerGpu c) gpuCount;
  timedCount ← multiplyFrameCount (timedFramesPerGpu c) gpuCount;
  if sub64 SIZE_MAX timedCount <? warmupCount then None
  else
    let totalFrameCount := add64 warmupCount timedCount in
    if sub64 SIZE_MAX totalFrameCount <? firstFrameId c then None
    else Some (warmupCount, timedCount).

(** The address of a new object: no live object's. *)
Definition new_object {A} (store : gmap ptr A) : ptr :=
  N.succ (map_fold (λ address _ highest, N.max address highest) 0 store).

(** The loop that makes the tasks and registers their parameters. *)
Fixpoint makeTasks (n : nat) (taskId : Z) (g : DummyGraph) (e : Surroundings) :
    option (bool * DummyGraph * Surroundings) :=
  match n with
  | O => Some (true, g, e)
  | S n =>
      let '(allocated, w) := host_alloc 1 (machine_world e) in
      let e := e <| machine_world := w |> in
      if negb allocated then Some (false, g, e)
      else
        let address := new_object (task_store (gpu_infra e)) in
        let infra := (gpu_infra e)
          <| task_store := <[address := TaskGpuResources_default]> (task_store (gpu_infra e)) |> in
        let t := DummyTask_construct taskId (config_executionModel (config g))
                   (config_runtime (config g)) address in
        let '(ok, t, r) := registerParameters t (graphRegistry g) in
        let g := g <| graphRegistry := r |> in
        if negb ok then
          '(infra, w) ← task_destruct t infra (machine_world e);
          Some (false, g, e <| gpu_infra := infra |> <| machine_world := w |>)
        else
          makeTasks n (taskId + 1)%Z (g <| tasks := tasks g ++ [t] |>) (e <| gpu_infra := infra |>)
  end.

(** The loop that loads the tasks; it stops at the first failure. *)
Fixpoint loadTasks (r : ParameterRegistry) (ts : list DummyTask) (infra : GpuInfra) (w : world) :
    option (bool * list DummyTask * GpuInfra * world) :=
  match ts with
  | [] => Some (true, [], infra, w)
  | t :: rest =>
      '(ok, t, infra, w) ← task_load r t infra w;
      if negb ok then Some (false, t :: rest, infra, w)
      else
        '(ok, rest, infra, w) ← loadTasks r rest infra w;
        Some (ok : bool, t :: rest, infra, w)
  end.

(** The loop that makes [n] frames: the flag, their addresses and the next id. *)
Fixpoint makeFrames (n : nat) (nextId : uint64) (runtime : AlgoRuntimeInfo) (made : list ptr)
    (e : Surroundings) : option (bool * list ptr * uint64 * Surroundings) :=
  match n with
  | O => Some (true, made, nextId, e)
  | S n =>
      let '(allocated, w) := host_alloc 1 (machine_world e) in
      let e := e <| machine_world := w |> in
      if negb allocated then Some (false, made, nextId, e)
      else
        atom ← FrameCpuAtom_construct (makeFrameMetadata nextId runtime) runtime;
        let address := new_object (atoms e) in
        makeFrames n (inc64 nextId) runtime (made ++ [address])
          (e <| atoms := <[address := atom]> (atoms e) |>)
  end.

Definition staticDataConfig (c : GraphConfig) : StaticDataConfig :=
  mkStaticDataConfig (config_runtime c) 0 0 (config_gpuCacheEntries c)
    (config_gpuCacheWaitTimeout c) (config_gpuCacheEvictionPolicy c).

(** The parameters of the configuration, sealed and taken as a snapshot. *)
Definition sealParameters (c : GraphConfig) (r : ParameterRegistry) :
    bool * ParameterSnapshot * ParameterRegistry :=
  let '(ok, r) := setString NAME_PARAMETER (params_name (config_parameters c)) r in
  if negb ok then (false, ParameterSnapshot_default, r)
  else
    let '(ok, r) := setBytes BLOB_PARAMETER (params_blob (config_parameters c)) r in
    if negb ok then (false, ParameterSnapshot_default, r)
    else
      let '(ok, r) := seal r in
      if negb ok then (false, ParameterSnapshot_default, r)
      else let '(ok, s) := snapshot r ParameterSnapshot_default in (ok, s, r).

(** The frames of both phases and the owner's initialization. *)
Definition makePhases (warmupCount timedCount : size_t) (g : DummyGraph) (e : Surroundings) :
    option (bool * DummyGraph * Surroundings) :=
  let c := config g in
  let '(reserved, w) := host_alloc warmupCount (machine_world e) in
  if negb reserved then Some (false, g, e <| machine_world := w |>)
  else
    let '(reserved, w) := host_alloc timedCount w in
    let e := e <| machine_world := w |> in
    if negb reserved then Some (false, g, e)
    else
      '(ok, frames, nextId, e) ←
        makeFrames (N.to_nat warmupCount) (firstFrameId c) (config_runtime c) (warmupAtoms g) e;
      let g := g <| warmupAtoms := frames |> in
      if negb ok then Some (false, g, e)
      else
        '(ok, frames, _, e) ←
          makeFrames (N.to_nat timedCount) nextId (config_runtime c) (timedAtoms g) e;
        let g := g <| timedAtoms := frames |> in
        if negb ok then Some (false, g, e)
        else
          '(ok, d, w) ← data_init (staticDataConfig c) (gpu_infra e) (staticData g) (machine_world e);
          Some (ok : bool, g <| staticData := d |>, e <| machine_world := w |>).

Definition initializeOnNumaNode (ge : DummyGraph * Surroundings) :
    option (bool * (DummyGraph * Surroundings)) :=
  let '(g, e) := ge in
  let gpuCount := vsize (gpuIds g) in
  match plannedFrames (config g) gpuCount with
  | None => Some (false, (g, e))
  | Some (warmupCount, timedCount) =>
      let count := mul64 (taskInstancesPerGpu (config g)) gpuCount in
      let '(reserved, w) := host_alloc count (machine_world e) in
      let e := e <| machine_world := w |> in
      if negb reserved then Some (false, (g, e))
      else
        '(ok, g, e) ← makeTasks (N.to_nat count) 0 g e;
        if negb ok then Some (false, (g, e))
        else
          let '(ok, s, r) := sealParameters (config g) (graphRegistry g) in
          let g := g <| graphRegistry := r |> <| graphSnapshot := s |> in
          if negb ok then Some (false, (g, e))
          else
            '(ok, ts, infra, w) ← loadTasks r (tasks g) (gpu_infra e) (machine_world e);
            let g := g <| tasks := ts |> in
            let e := e <| gpu_infra := infra |> <| machine_world := w |> in
            if negb ok then Some (false, (g, e))
            else
              '(ok, g, e) ← makePhases warmupCount timedCount g e;
              Some (ok : bool, (g, e))
  end.

(** The callback that asks for the GPUs of the graph's NUMA node. *)
Definition resolveGpus (ge : DummyGraph * Surroundings) :
    option (bool * (DummyGraph * Surroundings)) :=
  let '(g, e) := ge in
  '(ok, ids) ← gpuIdsForCurrentNumaNode (gpu_infra e) (machine_world e);
  Some (ok : bool, (g <| gpuIds := ids |>, e)).

(** [cancellation = true; unload; return false;] *)
Definition initialize_failed (placed : bool) (g : DummyGraph) (e : Surroundings) :
    option (bool * DummyGraph * Surroundings) :=
  '(_, (g, e)) ← executor_run placed unloadOnNumaNode (g, cancel e);
  Some (false, g, e).

(** [initialize] up to the start of the worker threads; the flag says that the
    threads may start.  Whether a thread can be placed is asked for each callback:
    the one that finds the GPUs, the one that sets up and the one that unloads. *)
Definition initialize_setup (resolvePlaced setupPlaced unloadPlaced : bool) (g : DummyGraph)
    (e : Surroundings) : option (bool * DummyGraph * Surroundings) :=
  if graph_initialized g || (taskInstancesPerGpu (config g) =? 0)
     || (runtime_inBytes (config_runtime (config g)) =? 0) || cancellation e
  then Some (false, g, e)
  else
    '(ok, (g, e)) ← executor_run resolvePlaced resolveGpus (g, e);
    if negb ok then Some (false, g, e)
    else
      let gpuCount := vsize (gpuIds g) in
      if gpuCount =? 0 then None
      else if SIZE_MAX / gpuCount <? taskInstancesPerGpu (config g) then Some (false, g, e)
      else
        let configuredTaskCount := mul64 (taskInstancesPerGpu (config g)) gpuCount in
        if 2147483647 <? configuredTaskCount then Some (false, g, e)
        else
          let g :=
            if graphThreads (config g) =? 0
            then g <| config := set_graphThreads configuredTaskCount (config g) |> else g in
          if graphThreads (config g) =? 0 then Some (false, g, e)
          else
            '(ok, (g, e)) ← executor_run setupPlaced initializeOnNumaNode (g, e);
            if negb ok then initialize_failed unloadPlaced g e
            else
              let '(reserved, w) := host_alloc (vsize (tasks g)) (machine_world e) in
              let e := e <| machine_world := w |> in
              if negb reserved then initialize_failed unloadPlaced (notify_work (g <| stopping := true |>)) e
              else
                Some (true,
                  g <| freeTasks := N.of_nat <$> seq 0 (length (tasks g)) |>, e).

End graph.
