(* ===== verification/GraphScheduler.v ===== *)
(** The graph in use: its worker threads, its owner's calls and everything else
    that touches what they share, as sequences of atomic steps in any order. *)
From S2P Require Import Prelude.
From S2P Require Import Platform.
From S2P Require Import CacheTypes.
From S2P Require Import GpuTopology.
From S2P Require Import GpuContextManager.
From S2P Require Import RegistryInvariant.
From S2P Require Import StaticGpuData.
From S2P Require Import StaticData.
From S2P Require Import ParameterRegistry.
From S2P Require Import DemoTypes.
From S2P Require Import DeviceCalls.
From S2P Require Import DummyTask.
From S2P Require Import DummyGraph.
#[local] Open Scope N_scope.

Section system.
Context `{IAlgo} `{!GpuDriver} `{!HostMemory}.

Record Scheduler := mkScheduler {
  graph : DummyGraph;
  around : Surroundings;
  workers : list Worker;
}.

Inductive graph_action :=
  | WorkerStep (worker : nat) (outcome : bool) (outputs : list AlgoOutput) (cache : GpuDataCache)
      (w : world)
  | SpuriousWakeup (worker : nat)
  | OpenGate (gate : ptr)
  | CancelElsewhere
  | StartCycle (placed : bool)
  | StartPhase (phase : FramePhase) (gate : ptr)
  | ChangeParameters (placed : bool) (parameters : AlgoParams)
  | StopCycle (placed : bool)
  | BeginShutdown
  | EndShutdown (placed : bool).

(** [notify_all] wakes every sleeper. *)
Definition awake (p : Worker) : Worker := match p with Asleep => AtTop | _ => p end.

Definition after_notify (g g' : DummyGraph) (ws : list Worker) : list Worker :=
  if workCondition g' =? workCondition g then ws else awake <$> ws.

(** The system after a call of the owner. *)
Definition called (s : Scheduler) (r : option (bool * DummyGraph * Surroundings)) : option Scheduler :=
  '(_, g, e) ← r;
  Some (mkScheduler g e (after_notify (graph s) g (workers s))).

Definition is_exited (p : Worker) : bool := match p with Exited => true | _ => false end.

(** One step; [None] is undefined behaviour.  A call on a worker that is not
    there, a phase without a gate and a join of workers that still run are no
    steps. *)
Definition graph_perform (s : Scheduler) (act : graph_action) : option Scheduler :=
  let 'mkScheduler g e ws := s in
  match act with
  | WorkerStep i outcome outputs cache w =>
      match ws !! i with
      | None => Some s
      | Some p =>
          '(p, g', e) ← worker_step outcome outputs cache w p g e;
          Some (mkScheduler g' e (<[i := p]> (after_notify g g' ws)))
      end
  | SpuriousWakeup i =>
      match ws !! i with
      | None => Some s
      | Some p => Some (mkScheduler g e (<[i := awake p]> ws))
      end
  | OpenGate gate => Some (mkScheduler g (e <| gates_released := {[gate]} ∪ gates_released e |>) ws)
  | CancelElsewhere => Some (mkScheduler g (cancel e) ws)
  | StartCycle placed => called s (graph_start placed g e)
  | StartPhase phase gate =>
      if gate =? nullptr then Some s else called s (startPhase phase gate g e)
  | ChangeParameters placed parameters => called s (changeParameters placed parameters g e)
  | StopCycle placed => called s (graph_stop placed g e)
  | BeginShutdown => called s (shutdown_begin (length ws) g e)
  | EndShutdown placed =>
      if stopping g && forallb is_exited ws then
        '(_, g, e) ← shutdown_end placed g e; Some (mkScheduler g e [])
      else Some s
  end.

(** ** What the workers hold *)

(** The frame and the task a worker has checked out. *)
Definition worker_claims (p : Worker) : option (ptr * N) :=
  match p with
  | AtGate f t _ | Checking f t | Executing f t | Executed f t _ | Reading f t _
  | Delivering f t _ | Delivered f t _ => Some (f, t)
  | _ => None
  end.

(** The frame a worker has still to deliver. *)
Definition worker_owes (p : Worker) : option ptr :=
  match p with
  | AtGate f _ _ | Checking f _ | Executing f _ | Executed f _ _ | Reading f _ _
  | Delivering f _ _ => Some f
  | _ => None
  end.

Definition tasks_held (ws : list Worker) : list N := omap (λ p, snd <$> worker_claims p) ws.
Definition frames_owed (ws : list Worker) : list ptr := omap worker_owes ws.

(** The frames of the phases not submitted yet. *)
Definition unsubmitted (g : DummyGraph) : list ptr :=
  (if warmupSubmitted g then [] else warmupAtoms g)
  ++ (if timedSubmitted g then [] else timedAtoms g).

Definition delivered (e : Surroundings) : list ptr := (history (sink e)).*1.

Definition frame_ok (e : Surroundings) (f : ptr) : Prop :=
  ∃ atom, atoms e !! f = Some atom ∧ result_ok (atom_result atom) = true.

(** What a worker's verdict says while nothing was cancelled. *)
Definition verdict (e : Surroundings) (p : Worker) : Prop :=
  match p with
  | Executed f _ true => cancellation e = false → frame_ok e f
  | Reading f _ succeeded => cancellation e = false → succeeded = true ∧ frame_ok e f
  | Delivering f _ succeeded => cancellation e = false → succeeded = true ∧ frame_ok e f
  | Delivered _ _ succeeded => cancellation e = false → succeeded = true
  | AtGate _ _ gate => gate ≠ nullptr
  | _ => True
  end.

(** ** The invariant *)

(** Every task's resources are objects of a consistent registry. *)
Definition equipped (ts : list DummyTask) (infra : GpuInfra) : Prop :=
  registry infra ∧ ts ≠ [] ∧ ∀ t, t ∈ ts → is_Some (task_store infra !! resources t).

(** [all] are the frames the graph was initialized with. *)
Record arranged (all : list ptr) (s : Scheduler) : Prop := {
  sched_tasks : freeTasks (graph s) ++ tasks_held (workers s)
    ≡ₚ N.of_nat <$> seq 0 (length (tasks (graph s)));
  sched_inFlight : inFlight (graph s) = N.of_nat (length (tasks_held (workers s)));
  sched_frames : delivered (around s) ++ readyFrames (graph s) ++ frames_owed (workers s)
    ++ unsubmitted (graph s) ≡ₚ all;
  sched_atoms f : f ∈ all → is_Some (atoms (around s) !! f);
  sched_active : phaseActive (graph s) = true →
    phaseTotal (graph s) = phaseTerminal (graph s) + vsize (readyFrames (graph s)) + inFlight (graph s)
    ∧ phaseTotal (graph s) ≤ vsize all ∧ phaseGate (graph s) ≠ nullptr
    ∧ graph_initialized (graph s) = true;
  sched_inactive : phaseActive (graph s) = false →
    readyFrames (graph s) = [] ∧ tasks_held (workers s) = [];
  sched_asleep : Asleep ∈ workers s →
    stopping (graph s) = false
    ∧ (phaseActive (graph s) = true → readyFrames (graph s) = [] ∨ freeTasks (graph s) = []);
  sched_exited : Exited ∈ workers s → stopping (graph s) = true;
  sched_running p : p ∈ workers s → match p with Starting _ => False | _ => verdict (around s) p end;
  sched_stopping : stopping (graph s) = true →
    readyFrames (graph s) = [] ∧ unsubmitted (graph s) = [];
  sched_success : cancellation (around s) = false → stopping (graph s) = false →
    phaseSucceeded (graph s) = true ∧ ∀ f b, (f, b) ∈ history (sink (around s)) → b = true;
  sched_counts : deliveredResults (sink (around s)) = wrap64 (vsize (history (sink (around s))))
    ∧ failedResults (sink (around s))
        = wrap64 (vsize (filter (λ r, r.2 = false) (history (sink (around s)))));
  sched_gate f t gate : AtGate f t gate ∈ workers s → gate = phaseGate (graph s);
  sched_equipped : equipped (tasks (graph s)) (gpu_infra (around s));
}.

(** An active phase has frames to run or running. *)
Definition unfinished (g : DummyGraph) : Prop :=
  phaseActive g = true → stopping g = false → readyFrames g ≠ [] ∨ inFlight g ≠ 0.

Definition scheduled (all : list ptr) (s : Scheduler) : Prop :=
  arranged all s ∧ unfinished (graph s).

(** The sizes fit: the frames, and the workers that may hold one. *)
Definition fits (all : list ptr) (s : Scheduler) : Prop :=
  vsize all < two64 ∧ vsize (workers s) < two64 ∧ NoDup all ∧ workers s ≠ [].

(** ** Reordering the workers *)

#[export] Instance omap_perm {A B} (f : A → option B) : Proper ((≡ₚ) ==> (≡ₚ)) (omap (M:=list) f).
Proof. apply _. Qed.

Lemma arranged_perm all g e ws ws' :
  ws ≡ₚ ws' → arranged all (mkScheduler g e ws) → arranged all (mkScheduler g e ws').
Proof.
  intros Hp Hs. unfold tasks_held, frames_owed in *.
  split; try apply Hs; unfold tasks_held, frames_owed; simpl.
  - rewrite <-Hp. apply Hs.
  - rewrite <-Hp. apply (sched_inFlight _ _ Hs).
  - rewrite <-Hp. apply Hs.
  - intros Hi. destruct (sched_inactive _ _ Hs Hi) as [? Hh]. split; [done|].
    apply Permutation_nil. rewrite <-Hp. simpl in Hh. unfold tasks_held in Hh. by rewrite Hh.
  - rewrite <-Hp. apply (sched_asleep _ _ Hs).
  - rewrite <-Hp. apply (sched_exited _ _ Hs).
  - intros p. rewrite <-Hp. apply (sched_running _ _ Hs).
  - intros f t gate. rewrite <-Hp. apply (sched_gate _ _ Hs).
Qed.

Lemma awake_claims p : worker_claims (awake p) = worker_claims p.
Proof. by destruct p. Qed.
Lemma awake_owes p : worker_owes (awake p) = worker_owes p.
Proof. by destruct p. Qed.

Lemma after_notify_claims g g' ws : tasks_held (after_notify g g' ws) = tasks_held ws.
Proof.
  unfold after_notify. case_match; [done|]. unfold tasks_held.
  induction ws as [|p ws IH]; [done|].
  cbn. rewrite awake_claims. destruct (snd <$> worker_claims p); [f_equal|]; exact IH.
Qed.

Lemma after_notify_owes g g' ws : frames_owed (after_notify g g' ws) = frames_owed ws.
Proof.
  unfold after_notify. case_match; [done|]. unfold frames_owed.
  induction ws as [|p ws IH]; [done|].
  cbn. rewrite awake_owes. destruct (worker_owes p); [f_equal|]; exact IH.
Qed.

Lemma after_notify_elem g g' ws p :
  p ∈ after_notify g g' ws → p ∈ ws ∨ p = AtTop.
Proof.
  unfold after_notify. case_match; [by left|].
  intros (q & -> & Hq)%list_elem_of_fmap. destruct q; simpl; auto.
Qed.

Lemma after_notify_all g g' ws :
  workCondition g' ≠ workCondition g → Asleep ∉ after_notify g g' ws.
Proof.
  intros Hne. unfold after_notify. rewrite (proj2 (N.eqb_neq _ _) Hne).
  intros (q & Hq & _)%list_elem_of_fmap. by destruct q.
Qed.

(** ** Ending frames as failed *)

Definition counted (e : Surroundings) : Prop :=
  deliveredResults (sink e) = wrap64 (vsize (history (sink e)))
  ∧ failedResults (sink e) = wrap64 (vsize (filter (λ r, r.2 = false) (history (sink e)))).

Lemma inc64_wrap n : inc64 (wrap64 n) = wrap64 (1 + n).
Proof. unfold inc64, add64, wrap64. rewrite (N.add_comm 1 n). apply N.Div0.add_mod_idemp_l. Qed.

Lemma deliver_counted frame result e e' :
  counted e → sink e' = deliver frame result (sink e) → counted e'.
Proof.
  intros [Hd Hf] Hs. unfold counted. rewrite Hs. unfold deliver. simpl.
  rewrite Hd, Hf, inc64_wrap, vsize_cons. split; [done|].
  rewrite filter_cons. simpl. destruct (result_ok result); simpl; [done|].
  by rewrite inc64_wrap, vsize_cons.
Qed.

Record ended (frames : list ptr) (e e' : Surroundings) : Prop := {
  ended_history : history (sink e') = reverse ((λ f, (f, false)) <$> frames) ++ history (sink e);
  ended_atoms f : is_Some (atoms e !! f) → is_Some (atoms e' !! f);
  ended_cancellation : cancellation e' = cancellation e;
  ended_gates : gates_released e' = gates_released e;
  ended_infra : gpu_infra e' = gpu_infra e;
  ended_counted : counted e → counted e';
}.

Lemma ended_nil e : ended [] e e.
Proof. by split. Qed.

Lemma ended_app fs1 fs2 e e1 e2 : ended fs1 e e1 → ended fs2 e1 e2 → ended (fs1 ++ fs2) e e2.
Proof.
  intros He1 He2. split.
  - by rewrite (ended_history _ _ _ He2), (ended_history _ _ _ He1), fmap_app, reverse_app, (assoc_L (++)).
  - intros f Hf. by apply (ended_atoms _ _ _ He2), (ended_atoms _ _ _ He1).
  - by rewrite (ended_cancellation _ _ _ He2), (ended_cancellation _ _ _ He1).
  - by rewrite (ended_gates _ _ _ He2), (ended_gates _ _ _ He1).
  - by rewrite (ended_infra _ _ _ He2), (ended_infra _ _ _ He1).
  - intros. by apply (ended_counted _ _ _ He2), (ended_counted _ _ _ He1).
Qed.

(** Failing and delivering one frame. *)
Lemma end_frame frame e :
  is_Some (atoms e !! frame) →
  ∃ e1 e2, mark_frame false frame e = Some e1 ∧ deliverFrameResult frame e1 = Some e2
    ∧ ended [frame] e e2.
Proof.
  intros [atom Hf]. unfold mark_frame. rewrite Hf. simpl. eexists _, _. split; [done|].
  unfold deliverFrameResult. simpl. rewrite lookup_insert_eq. simpl. split; [done|].
  split; simpl; try done.
  - intros f Hs. destruct (decide (frame = f)) as [->|]; [rewrite lookup_insert_eq; eauto|].
    by rewrite lookup_insert_ne.
  - intros Hc. by eapply deliver_counted.
Qed.

Lemma cancelFrames_run frames terminal e :
  (∀ f, f ∈ frames → is_Some (atoms e !! f)) → terminal + vsize frames < two64 →
  ∃ e', cancelFrames frames terminal e = Some (terminal + vsize frames, e') ∧ ended frames e e'.
Proof.
  revert terminal e. induction frames as [|f fs IH]; intros terminal e Hall Hlt; simpl.
  { exists e. split; [|apply ended_nil]. unfold vsize. simpl. by rewrite N.add_0_r. }
  destruct (end_frame f e) as (e1 & e2 & -> & Hd & Hend); [apply Hall; by left|].
  simpl. rewrite Hd. simpl. rewrite vsize_cons in Hlt.
  destruct (IH (inc64 terminal) e2) as (e' & Hrun & Hend').
  - intros f' Hf'. apply (ended_atoms _ _ _ Hend), Hall. by right.
  - rewrite inc64_small by lia. lia.
  - exists e'. rewrite Hrun, inc64_small, vsize_cons by lia. split; [do 2 f_equal; lia|].
    by apply (ended_app [f] fs _ e2).
Qed.

Lemma cancelPrepared_run frames e :
  (∀ f, f ∈ frames → is_Some (atoms e !! f)) →
  ∃ e', cancelPrepared frames e = Some e' ∧ ended frames e e'.
Proof.
  revert e. induction frames as [|f fs IH]; intros e Hall; simpl.
  { exists e. split; [done|apply ended_nil]. }
  destruct (end_frame f e) as (e1 & e2 & -> & Hd & Hend); [apply Hall; by left|].
  simpl. rewrite Hd. simpl. destruct (IH e2) as (e' & -> & Hend').
  - intros f' Hf'. apply (ended_atoms _ _ _ Hend), Hall. by right.
  - exists e'. split; [done|]. by apply (ended_app [f] fs _ e2).
Qed.

Lemma ended_delivered frames e e' : ended frames e e' → delivered e' ≡ₚ frames ++ delivered e.
Proof.
  intros Hend. unfold delivered. rewrite (ended_history _ _ _ Hend), fmap_app, fmap_reverse, <-list_fmap_compose.
  simpl. rewrite list_fmap_id, reverse_Permutation. done.
Qed.

End system.
