(* ===== verification/GraphWorkers.v ===== *)
(** Every operation of a worker keeps the scheduler's invariant. *)
From S2P Require Import Prelude.
From S2P Require Import Platform.
From S2P Require Import CacheTypes.
From S2P Require Import GpuTopology.
From S2P Require Import GpuContextManager.
From S2P Require Import StaticGpuData.
From S2P Require Import StaticData.
From S2P Require Import ParameterRegistry.
From S2P Require Import DemoTypes.
From S2P Require Import DeviceCalls.
From S2P Require Import DummyTask.
From S2P Require Import DummyGraph.
From S2P Require Import GraphScheduler.
#[local] Open Scope N_scope.

#[local] Arguments tasks_held : simpl never.
#[local] Arguments frames_owed : simpl never.
#[local] Arguments unsubmitted : simpl never.

Section steps.
Context `{IAlgo} `{!GpuDriver} `{!HostMemory}.
Implicit Types (g : DummyGraph) (e : Surroundings) (p : Worker) (ws : list Worker).

(** *** What the invariant says of one worker and the others *)

Lemma tasks_held_cons p ws :
  tasks_held (p :: ws) = option_list (snd <$> worker_claims p) ++ tasks_held ws.
Proof. unfold tasks_held. cbn. by destruct (snd <$> worker_claims p). Qed.

Lemma frames_owed_cons p ws : frames_owed (p :: ws) = option_list (worker_owes p) ++ frames_owed ws.
Proof. unfold frames_owed. cbn. by destruct (worker_owes p). Qed.

Lemma frames_nodup all g e ws :
  arranged all (mkScheduler g e ws) → NoDup all →
  NoDup (delivered e ++ readyFrames g ++ frames_owed ws ++ unsubmitted g).
Proof. intros Hs Hnd. by rewrite (sched_frames _ _ Hs). Qed.

(** A verdict is about the worker's own frame. *)
Lemma verdict_frame e e' p :
  cancellation e' = cancellation e →
  (∀ f, worker_owes p = Some f → atoms e' !! f = atoms e !! f) →
  verdict e p → verdict e' p.
Proof.
  intros Hc Hf. unfold verdict, frame_ok. rewrite Hc.
  destruct p as [| | | | | |f t b|f t b|f t b| |]; simpl in *; rewrite ?(Hf f eq_refl); auto.
Qed.

(** After a cancellation nothing is promised of the verdicts. *)
Lemma verdict_cancelled e e' p : cancellation e' = true → verdict e p → verdict e' p.
Proof.
  intros Hc. unfold verdict. rewrite Hc. destruct p as [| | | | | |f t []| | | |]; naive_solver.
Qed.

(** A worker that owes nothing promises nothing of the frames. *)
Lemma verdict_idle e e' p : worker_claims p = None → verdict e p → verdict e' p.
Proof. by destruct p. Qed.

Lemma tasks_held_nil ws p : tasks_held ws = [] → p ∈ ws → worker_claims p = None.
Proof.
  intros Hh Hp. destruct (worker_claims p) as [[f t]|] eqn:Hc; [|done].
  assert (t ∈ tasks_held ws) as Ht; [|rewrite Hh in Ht; by apply elem_of_nil in Ht].
  apply list_elem_of_omap. exists p. by rewrite Hc.
Qed.

Lemma tasks_held_length ws : (length (tasks_held ws) ≤ length ws)%nat.
Proof.
  induction ws as [|p ws IH]; [done|]. rewrite tasks_held_cons, length_app. simpl.
  destruct (worker_claims p); simpl; lia.
Qed.

(** A worker that has a frame works for an active phase. *)
Lemma claim_active all g e p f t ws :
  arranged all (mkScheduler g e (p :: ws)) → worker_claims p = Some (f, t) →
  phaseActive g = true ∧ inFlight g = N.of_nat (length (tasks_held ws)) + 1.
Proof.
  intros Hs Hp. pose proof (sched_inFlight _ _ Hs) as Hi. simpl in Hi.
  rewrite tasks_held_cons, Hp in Hi. simpl in Hi. split; [|lia].
  destruct (phaseActive g) eqn:Hact; [done|].
  destruct (sched_inactive _ _ Hs Hact) as [_ Hh]. simpl in Hh.
  by rewrite tasks_held_cons, Hp in Hh.
Qed.

(** *** Operations that touch neither the lists nor the shared counters *)

(** A worker moves on with the same frame and task, and at most its own frame's
    content and the machine change. *)
Lemma step_in_place all g e p f t ws p' g' e' :
  arranged all (mkScheduler g e (p :: ws)) → NoDup all →
  worker_claims p = Some (f, t) → worker_claims p' = Some (f, t) →
  worker_owes p = Some f → worker_owes p' = Some f →
  (∃ c, g' = g <| staticData := (staticData g) <| gpuDataCache := c |> |>) ∨ g' = g →
  (cancellation e' = cancellation e ∨ cancellation e' = true) →
  sink e' = sink e → gpu_infra e' = gpu_infra e →
  (∀ f', is_Some (atoms e !! f') → is_Some (atoms e' !! f')) →
  (∀ f', f' ≠ f → atoms e' !! f' = atoms e !! f') →
  verdict e' p' → p' = p ∨ (∀ gate, p' ≠ AtGate f t gate) →
  arranged all (mkScheduler g' e' (p' :: ws)).
Proof.
  intros Hs Hnd Hp Hp' Ho Ho' Hg Hc Hsink Hinfra Hatoms Hother Hv Hgate.
  assert (tasks_held (p' :: ws) = tasks_held (p :: ws)) as Ht by (by rewrite !tasks_held_cons, Hp, Hp').
  assert (frames_owed (p' :: ws) = frames_owed (p :: ws)) as Hf by (by rewrite !frames_owed_cons, Ho, Ho').
  pose proof (frames_nodup _ _ _ _ Hs Hnd) as Hdup.
  assert (∀ q, q ∈ ws → verdict e q → verdict e' q) as Hothers.
  { intros q Hq Hvq. destruct Hc as [Hc|Hc]; [|by eapply verdict_cancelled].
    apply (verdict_frame e); [done| |done]. intros f' Hf'. apply Hother. intros ->.
    rewrite frames_owed_cons, Ho in Hdup. simpl in Hdup.
    apply NoDup_app in Hdup as (_ & _ & Hdup). apply NoDup_app in Hdup as (_ & _ & Hdup).
    apply NoDup_cons in Hdup as [Hnot _]. apply Hnot, elem_of_app. left.
    apply list_elem_of_omap. by exists q. }
  assert (∀ q, q ∈ p' :: ws → q = p' ∨ q ∈ ws) as Hin by (by intros q ?%elem_of_cons).
  split; simpl in *; rewrite ?Ht, ?Hf; unfold delivered; rewrite ?Hsink.
  - destruct Hg as [[c ->] | ->]; apply (sched_tasks _ _ Hs).
  - destruct Hg as [[c ->] | ->]; apply (sched_inFlight _ _ Hs).
  - destruct Hg as [[c ->] | ->]; apply (sched_frames _ _ Hs).
  - intros f' Hf'. by apply Hatoms, (sched_atoms _ _ Hs).
  - destruct Hg as [[c ->] | ->]; apply (sched_active _ _ Hs).
  - destruct Hg as [[c ->] | ->]; apply (sched_inactive _ _ Hs).
  - intros Ha. assert (Asleep ∈ p :: ws) as Ha'.
    { apply elem_of_cons. right. apply Hin in Ha as [<-|]; done. }
    destruct Hg as [[c ->] | ->]; apply (sched_asleep _ _ Hs Ha').
  - intros Ha. assert (Exited ∈ p :: ws) as Ha'.
    { apply elem_of_cons. right. apply Hin in Ha as [<-|]; done. }
    destruct Hg as [[c ->] | ->]; apply (sched_exited _ _ Hs Ha').
  - intros q [->|Hq]%Hin; [by destruct p'|].
    pose proof (sched_running _ _ Hs q) as Hr. specialize (Hr ltac:(by right)). simpl in Hr.
    destruct q; try done; by apply Hothers.
  - destruct Hg as [[c ->] | ->]; apply (sched_stopping _ _ Hs).
  - intros Hcan Hstop. destruct Hc as [Hc|Hc]; [|congruence]. rewrite Hc in Hcan.
    destruct Hg as [[c ->] | ->]; by apply (sched_success _ _ Hs).
  - apply (sched_counts _ _ Hs).
  - intros f' t' gate Hq. assert (AtGate f' t' gate ∈ p :: ws) as Hq'.
    { apply Hin in Hq as [Hq|Hq]; [|by right]. rewrite Hq. destruct Hgate as [->|Hne]; [by left|].
      rewrite <-Hq in *. simpl in Hp'. simplify_eq. by destruct (Hne gate). }
    apply (sched_gate _ _ Hs) in Hq'. by destruct Hg as [[c ->] | ->].
  - rewrite Hinfra. destruct Hg as [[c ->] | ->]; apply (sched_equipped _ _ Hs).
Qed.

(** *** Delivery *)

Lemma step_deliver all g e f t b ws :
  arranged all (mkScheduler g e (Delivering f t b :: ws)) → NoDup all →
  ∃ e', deliverFrameResult f e = Some e' ∧ arranged all (mkScheduler g e' (Delivered f t b :: ws)).
Proof.
  intros Hs Hnd.
  assert (f ∈ all) as Hf.
  { rewrite <-(sched_frames _ _ Hs). simpl. rewrite ?frames_owed_cons. simpl. set_solver. }
  destruct (sched_atoms _ _ Hs f Hf) as [atom Hatom]. simpl in Hatom.
  unfold deliverFrameResult. rewrite Hatom. simpl. eexists. split; [done|].
  pose proof (sched_running _ _ Hs _ (list_elem_of_here _ _)) as Hv. simpl in Hv.
  assert (tasks_held (Delivered f t b :: ws) = tasks_held (Delivering f t b :: ws)) as Ht
    by (by rewrite !tasks_held_cons).
  assert (∀ q, q ∈ Delivered f t b :: ws → q = Delivered f t b ∨ q ∈ ws) as Hin
    by (by intros q ?%elem_of_cons).
  set (e' := e <| sink := deliver f (atom_result atom) (sink e) |>).
  assert (counted e') as Hcount.
  { apply (deliver_counted f (atom_result atom) e); [apply (sched_counts _ _ Hs)|done]. }
  split; simpl in *; rewrite ?Ht.
  - apply (sched_tasks _ _ Hs).
  - apply (sched_inFlight _ _ Hs).
  - pose proof (sched_frames _ _ Hs) as Hfr. simpl in Hfr.
    rewrite !frames_owed_cons in *. simpl in *. rewrite <-Hfr. unfold delivered. simpl.
    by rewrite <-!Permutation_middle.
  - apply (sched_atoms _ _ Hs).
  - apply (sched_active _ _ Hs).
  - apply (sched_inactive _ _ Hs).
  - intros Ha. apply (sched_asleep _ _ Hs). simpl. apply elem_of_cons. right. by apply Hin in Ha as [|].
  - intros Ha. apply (sched_exited _ _ Hs). simpl. apply elem_of_cons. right. by apply Hin in Ha as [|].
  - intros q [->|Hq]%Hin; [simpl; intros Hc; by apply Hv|].
    pose proof (sched_running _ _ Hs q ltac:(by right)) as Hr. simpl in Hr. by destruct q.
  - apply (sched_stopping _ _ Hs).
  - intros Hc Hstop. destruct (sched_success _ _ Hs Hc Hstop) as [? Hok]. split; [done|].
    destruct (Hv Hc) as [_ (atom' & Hatom' & Hres)]. simplify_eq.
    intros f' b' [[= -> ->]|Hin']%elem_of_cons; [done|]. by eapply Hok.
  - exact Hcount.
  - intros f' t' gate Hq. apply (sched_gate _ _ Hs f' t'). simpl. right. by apply Hin in Hq as [|].
  - apply (sched_equipped _ _ Hs).
Qed.

(** *** Ending the queued frames and the phase *)

Lemma cancelReady_run all g e ws :
  arranged all (mkScheduler g e ws) → vsize all < two64 →
  phaseActive g = true → cancellation e = true →
  ∃ g' e', cancelReadyFramesLocked g e = Some (g', e')
    ∧ g' = g <| readyFrames := [] |> <| phaseTerminal := phaseTerminal g + vsize (readyFrames g) |>
             <| phaseSucceeded := false |>
    ∧ ended (readyFrames g) e e' ∧ arranged all (mkScheduler g' e' ws).
Proof.
  intros Hs Hfit Hact Hcan. destruct (sched_active _ _ Hs Hact) as (Htot & Hle & Hgate & Hinit). simpl in *.
  destruct (cancelFrames_run (readyFrames g) (phaseTerminal g) e) as (e' & Hrun & Hend); [|lia|].
  { intros f Hf. apply (sched_atoms _ _ Hs). rewrite <-(sched_frames _ _ Hs). simpl. set_solver. }
  unfold cancelReadyFramesLocked. rewrite Hrun. simpl. eexists _, _. split; [done|].
  split; [done|]. split; [done|]. clear Hrun.
  pose proof (ended_cancellation _ _ _ Hend) as Hcan'. rewrite Hcan in Hcan'.
  split; simpl.
  - apply (sched_tasks _ _ Hs).
  - apply (sched_inFlight _ _ Hs).
  - rewrite (ended_delivered _ _ _ Hend), <-(sched_frames _ _ Hs). simpl. unfold unsubmitted. simpl.
    by rewrite (Permutation_app_comm (readyFrames g)), <-!(assoc_L (++)).
  - intros f Hf. by apply (ended_atoms _ _ _ Hend), (sched_atoms _ _ Hs).
  - intros _. unfold vsize in *. simpl. repeat split; try done; lia.
  - congruence.
  - intros Ha. split; [|by left]. by apply (sched_asleep _ _ Hs).
  - apply (sched_exited _ _ Hs).
  - intros p Hp. pose proof (sched_running _ _ Hs p Hp) as Hr. simpl in Hr.
    destruct p; try done; by apply (verdict_cancelled e).
  - intros Hstop. split; [done|]. apply (sched_stopping _ _ Hs Hstop).
  - congruence.
  - apply (ended_counted _ _ _ Hend), (sched_counts _ _ Hs).
  - apply (sched_gate _ _ Hs).
  - rewrite (ended_infra _ _ _ Hend). apply (sched_equipped _ _ Hs).
Qed.

Lemma vsize_0 {A} (l : list A) : (vsize l =? 0) = bool_decide (l = []).
Proof. by destruct l. Qed.

Lemma finish_keeps all g e ws :
  arranged all (mkScheduler g e ws) →
  arranged all (mkScheduler (finishPhaseIfCompleteLocked g) e ws)
  ∧ unfinished (finishPhaseIfCompleteLocked g).
Proof.
  intros Hs. unfold finishPhaseIfCompleteLocked. rewrite vsize_0.
  destruct (phaseActive g) eqn:Hact; simpl; [|by split; [|intros ?; congruence]].
  destruct (sched_active _ _ Hs Hact) as (Htot & _). simpl in Htot.
  case_bool_decide as Hr; simpl; [|by split; [|intros _ _; left]].
  destruct (N.eqb_spec (inFlight g) 0) as [Hi|Hi]; simpl; [|by split; [|intros _ _; right]].
  rewrite Hr, Hi in Htot. unfold vsize in Htot. simpl in Htot.
  destruct (N.eqb_spec (phaseTerminal g) (phaseTotal g)); [|lia].
  split; [|done]. split; simpl; try apply Hs; try done.
  - intros _. split; [done|]. apply length_zero_iff_nil.
    pose proof (sched_inFlight _ _ Hs) as Hin. simpl in Hin. lia.
  - intros Ha. split; [|done]. by apply (sched_asleep _ _ Hs).
  - intros f t gate Hq. assert (tasks_held ws = []) as Hnone.
    { apply length_zero_iff_nil. pose proof (sched_inFlight _ _ Hs) as Hin. simpl in Hin. lia. }
    by pose proof (tasks_held_nil ws _ Hnone Hq).
Qed.

(** *** The top of the loop *)

Lemma has_work_spec g e :
  has_work g e = true ↔ stopping g = true ∨ (phaseActive g = true
    ∧ (cancellation e = true ∨ (readyFrames g ≠ [] ∧ freeTasks g ≠ []))).
Proof.
  unfold has_work. rewrite !vsize_0.
  rewrite orb_true_iff, andb_true_iff, orb_true_iff, andb_true_iff, !negb_true_iff,
    !bool_decide_eq_false. tauto.
Qed.

(** A worker between two frames changes from one such state to another. *)
Lemma step_idle all g e p p' ws :
  arranged all (mkScheduler g e (p :: ws)) →
  worker_claims p = None → worker_claims p' = None →
  worker_owes p = None → worker_owes p' = None →
  match p' with
  | Asleep => has_work g e = false
  | Exited => stopping g = true
  | Starting _ => False
  | _ => True
  end →
  arranged all (mkScheduler g e (p' :: ws)).
Proof.
  intros Hs Hp Hp' Ho Ho' Hok.
  assert (tasks_held (p' :: ws) = tasks_held (p :: ws)) as Ht by (by rewrite !tasks_held_cons, Hp, Hp').
  assert (frames_owed (p' :: ws) = frames_owed (p :: ws)) as Hf by (by rewrite !frames_owed_cons, Ho, Ho').
  split; simpl; rewrite ?Ht, ?Hf; try apply Hs.
  - intros [<-|Ha]%elem_of_cons; [|apply (sched_asleep _ _ Hs); by right].
    apply not_true_iff_false in Hok. rewrite has_work_spec in Hok.
    destruct (stopping g); [naive_solver|]. split; [done|]. intros Hact.
    destruct (readyFrames g); [by left|]. destruct (freeTasks g); [by right|]. naive_solver.
  - intros [<-|Ha]%elem_of_cons; [done|]. apply (sched_exited _ _ Hs). by right.
  - intros q [->|Hq]%elem_of_cons; [by destruct p'|]. apply (sched_running _ _ Hs). by right.
  - intros f t gate [<-|Hq]%elem_of_cons; [done|]. apply (sched_gate _ _ Hs f t). by right.
Qed.

Lemma claim_keeps all g e ws :
  arranged all (mkScheduler g e (AtTop :: ws)) → vsize (AtTop :: ws) < two64 →
  phaseActive g = true → stopping g = false → readyFrames g ≠ [] → freeTasks g ≠ [] →
  cancellation e = false →
  ∃ p g', worker_claim g e = Some (p, g', e) ∧ workCondition g' = workCondition g
    ∧ arranged all (mkScheduler g' e (p :: ws)) ∧ inFlight g' ≠ 0
    ∧ lastMaxInFlight g' = N.max (lastMaxInFlight g) (inFlight g').
Proof.
  intros Hs Hfit Hact Hstop Hr Hf Hcan. unfold worker_claim.
  rewrite (proj2 (has_work_spec g e)) by naive_solver. simpl negb. cbv iota. rewrite Hstop, Hcan.
  destruct (readyFrames g) as [|f frames] eqn:Hready; [done|].
  destruct (exists_last Hf) as (free & t & Hfree). rewrite Hfree. unfold back, pop_back.
  rewrite last_snoc, removelast_last. simpl. eexists _, _. split; [done|].
  pose proof (sched_inFlight _ _ Hs) as Hi. simpl in Hi. rewrite tasks_held_cons in Hi. simpl in Hi.
  pose proof (tasks_held_length ws) as Hlen. rewrite vsize_cons in Hfit. unfold vsize in Hfit.
  rewrite inc64_small by lia. split; [done|]. split; [|split; [simpl; lia|done]].
  destruct (sched_active _ _ Hs Hact) as (Htot & Hle & Hgate & Hinit). simpl in *.
  assert (Asleep ∉ ws) as Hna.
  { intros Ha. destruct (sched_asleep _ _ Hs) as [_ Hz]; [by right|]. simpl in Hz.
    rewrite Hready in Hz. by destruct (Hz Hact). }
  split; simpl; rewrite ?tasks_held_cons, ?frames_owed_cons; simpl; rewrite ?Hact; try done.
  - rewrite <-(sched_tasks _ _ Hs). simpl. rewrite tasks_held_cons, Hfree. simpl.
    by rewrite <-(assoc_L (++)).
  - lia.
  - rewrite <-(sched_frames _ _ Hs). simpl. rewrite frames_owed_cons, Hready. simpl. unfold unsubmitted. simpl.
    by rewrite <-Permutation_middle.
  - apply (sched_atoms _ _ Hs).
  - intros _. rewrite Hready, vsize_cons in Htot. split; [lia|done].
  - intros [|]%elem_of_cons; done.
  - intros [|]%elem_of_cons; [done|]. apply (sched_exited _ _ Hs). by right.
  - intros q [->|Hq]%elem_of_cons; [done|]. apply (sched_running _ _ Hs). by right.
  - congruence.
  - intros _ _. by apply (sched_success _ _ Hs).
  - apply (sched_counts _ _ Hs).
  - intros f' t' gate [[= -> -> ->]|Hq]%elem_of_cons; [done|]. apply (sched_gate _ _ Hs f' t'). by right.
  - apply (sched_equipped _ _ Hs).
Qed.

Lemma top_keeps all g e ws :
  arranged all (mkScheduler g e (AtTop :: ws)) → unfinished g →
  vsize all < two64 → vsize (AtTop :: ws) < two64 →
  ∃ p g' e', worker_claim g e = Some (p, g', e') ∧ workCondition g' = workCondition g
    ∧ arranged all (mkScheduler g' e' (p :: ws)) ∧ unfinished g'.
Proof.
  intros Hs Hun Hall Hws.
  destruct (has_work g e) eqn:Hwork.
  2:{ unfold worker_claim. rewrite Hwork. simpl. eexists _, _, _. split; [done|]. split; [done|].
      split; [|done]. by apply (step_idle all g e AtTop). }
  destruct (stopping g) eqn:Hstop.
  { unfold worker_claim. rewrite Hwork, Hstop. simpl. eexists _, _, _. split; [done|]. split; [done|].
    split; [|done]. by apply (step_idle all g e AtTop). }
  pose proof Hwork as Hw. rewrite has_work_spec in Hw.
  destruct Hw as [|[Hact Hw]]; [congruence|].
  destruct (cancellation e) eqn:Hcan.
  - unfold worker_claim. rewrite Hwork, Hstop, Hcan. simpl negb. cbv iota.
    destruct (cancelReady_run all g e _ Hs Hall Hact Hcan) as (g' & e' & -> & Hg' & _ & Hs').
    cbn [mbind option_bind]. eexists _, _, _. split; [done|].
    destruct (finish_keeps _ _ _ _ Hs'). split; [|done].
    rewrite Hg'. unfold finishPhaseIfCompleteLocked. by case_match.
  - destruct Hw as [|[Hr Hf]]; [done|].
    destruct (claim_keeps all g e ws) as (p & g' & Hrun & Hwc & Hs' & Hi & _); try done.
    exists p, g', e. split_and!; try done. intros _ _. by right.
Qed.

(** *** The end of the loop *)

Lemma awake_all_held ws : tasks_held (awake <$> ws) = tasks_held ws.
Proof.
  induction ws as [|p ws IH]; [done|]. cbn [fmap list_fmap]. by rewrite !tasks_held_cons, awake_claims, IH.
Qed.

Lemma awake_all_owed ws : frames_owed (awake <$> ws) = frames_owed ws.
Proof.
  induction ws as [|p ws IH]; [done|]. cbn [fmap list_fmap]. by rewrite !frames_owed_cons, awake_owes, IH.
Qed.

Lemma awake_all_elem p ws : p ∈ awake <$> ws → p = AtTop ∨ (p ∈ ws ∧ p ≠ Asleep).
Proof. intros (q & -> & Hq)%list_elem_of_fmap. destruct q; simpl; naive_solver. Qed.

(** The task is back and the frame counted, and everybody is awake. *)
Lemma returned_keeps all g e f t b ok ws :
  arranged all (mkScheduler g e (Delivered f t b :: ws)) →
  vsize all < two64 → vsize (AtTop :: ws) < two64 →
  (cancellation e = false → ok = phaseSucceeded g) →
  arranged all (mkScheduler (g <| freeTasks := freeTasks g ++ [t] |> <| inFlight := dec64 (inFlight g) |>
    <| phaseTerminal := inc64 (phaseTerminal g) |> <| phaseSucceeded := ok |>) e (AtTop :: (awake <$> ws))).
Proof.
  intros Hs Hall Hws Hok.
  destruct (claim_active all g e _ f t ws Hs eq_refl) as [Hact Hi].
  destruct (sched_active _ _ Hs Hact) as (Htot & Hle & Hgate & Hinit). simpl in *.
  pose proof (tasks_held_length ws) as Hlen. rewrite vsize_cons in Hws. unfold vsize in Hws.
  rewrite dec64_small, inc64_small by lia.
  split; simpl; rewrite ?tasks_held_cons, ?frames_owed_cons, ?awake_all_held, ?awake_all_owed; simpl.
  - rewrite <-(sched_tasks _ _ Hs). simpl. rewrite tasks_held_cons. simpl. by rewrite <-(assoc_L (++)).
  - lia.
  - rewrite <-(sched_frames _ _ Hs). simpl. by rewrite frames_owed_cons.
  - apply (sched_atoms _ _ Hs).
  - intros _. repeat split; try done; lia.
  - congruence.
  - intros [|[|[]]%awake_all_elem]%elem_of_cons; done.
  - intros [|[|[]]%awake_all_elem]%elem_of_cons; [done..|]. apply (sched_exited _ _ Hs). by right.
  - intros q [->|[->|[]]%awake_all_elem]%elem_of_cons; [done..|]. apply (sched_running _ _ Hs). by right.
  - apply (sched_stopping _ _ Hs).
  - intros Hcan Hstop. rewrite Hok by done. by apply (sched_success _ _ Hs).
  - apply (sched_counts _ _ Hs).
  - intros f' t' gate [|[|[]]%awake_all_elem]%elem_of_cons; [done..|].
    apply (sched_gate _ _ Hs f' t'). by right.
  - apply (sched_equipped _ _ Hs).
Qed.

Lemma notify_keeps all g e ws :
  arranged all (mkScheduler g e ws) → arranged all (mkScheduler (notify_work g) e ws).
Proof. intros Hs. split; apply Hs. Qed.

Lemma return_keeps all g e f t b ws :
  arranged all (mkScheduler g e (Delivered f t b :: ws)) →
  vsize all < two64 → vsize (AtTop :: ws) < two64 →
  ∃ g' e', worker_return t b g e = Some (AtTop, g', e') ∧ workCondition g' = workCondition g + 1
    ∧ arranged all (mkScheduler g' e' (AtTop :: (awake <$> ws))) ∧ unfinished g'
    ∧ phaseTerminal g < phaseTerminal g'.
Proof.
  intros Hs Hall Hws.
  destruct (claim_active all g e _ f t ws Hs eq_refl) as [Hact Hi].
  destruct (sched_active _ _ Hs Hact) as (Htot & Hle & _). simpl in Htot, Hle.
  pose proof (sched_running _ _ Hs _ (list_elem_of_here _ _)) as Hv. simpl in Hv.
  unfold worker_return.
  destruct (negb b || cancellation e) eqn:Hfail.
  - assert (cancellation e = true) as Hcan.
    { destruct (cancellation e); [done|]. by rewrite Hv in Hfail. }
    pose proof (returned_keeps all g e f t b false ws Hs Hall Hws ltac:(congruence)) as Hs1.
    destruct (cancelReady_run _ _ _ _ Hs1 Hall Hact Hcan) as (g' & e' & Hrun & Hg' & _ & Hs').
    rewrite Hrun. cbn [mbind option_bind]. eexists _, _. split; [done|].
    destruct (finish_keeps _ _ _ _ Hs') as [Hs2 Hun].
    assert (workCondition (finishPhaseIfCompleteLocked g') = workCondition g
            ∧ phaseTerminal g < phaseTerminal (finishPhaseIfCompleteLocked g')) as [Hw Ht].
    { unfold finishPhaseIfCompleteLocked. rewrite Hg'. case_match; simpl; (split; [done|]);
        rewrite inc64_small by lia; lia. }
    split; [by simpl; rewrite Hw|]. split; [by apply notify_keeps|]. by split.
  - assert (arranged all (mkScheduler (g <| freeTasks := freeTasks g ++ [t] |>
      <| inFlight := dec64 (inFlight g) |> <| phaseTerminal := inc64 (phaseTerminal g) |>) e
      (AtTop :: (awake <$> ws)))) as Hs1.
    { pose proof (returned_keeps all g e f t b (phaseSucceeded g) ws Hs Hall Hws ltac:(done)) as Hs1.
      split; apply Hs1. }
    simpl mbind. eexists _, _. split; [done|].
    destruct (finish_keeps _ _ _ _ Hs1) as [Hs2 Hun]. split; [|split; [by apply notify_keeps|split; [done|]]].
    + unfold finishPhaseIfCompleteLocked. case_match; done.
    + simpl. unfold finishPhaseIfCompleteLocked. case_match; simpl; rewrite inc64_small by lia; lia.
Qed.

(** *** Any operation *)

Ltac alternatives := solve [done | by left | by right].

Lemma held_task all g e p f t ws :
  arranged all (mkScheduler g e (p :: ws)) → worker_claims p = Some (f, t) →
  ∃ task, vat (tasks g) t = Some task.
Proof.
  intros Hs Hp. apply vat_exists.
  assert (t ∈ N.of_nat <$> seq 0 (length (tasks g))) as Ht.
  { rewrite <-(sched_tasks _ _ Hs). simpl. rewrite tasks_held_cons, Hp. simpl. set_solver. }
  apply list_elem_of_fmap in Ht as (n & -> & Hn%elem_of_seq). unfold vsize. lia.
Qed.

Lemma owed_frame all g e p f ws :
  arranged all (mkScheduler g e (p :: ws)) → worker_owes p = Some f →
  ∃ atom, atoms e !! f = Some atom.
Proof.
  intros Hs Ho. apply (sched_atoms _ _ Hs). rewrite <-(sched_frames _ _ Hs). simpl.
  rewrite frames_owed_cons, Ho. simpl. set_solver.
Qed.

Lemma after_notify_same g g' ws : workCondition g' = workCondition g → after_notify g g' ws = ws.
Proof. intros Hw. unfold after_notify. by rewrite Hw, N.eqb_refl. Qed.

Lemma after_notify_other g g' ws :
  workCondition g' ≠ workCondition g → after_notify g g' ws = awake <$> ws.
Proof. intros Hw. unfold after_notify. by rewrite (proj2 (N.eqb_neq _ _) Hw). Qed.

Lemma step_keeps all outcome outputs cache w p g e ws :
  arranged all (mkScheduler g e (p :: ws)) → unfinished g → NoDup all →
  vsize all < two64 → vsize (p :: ws) < two64 →
  ∃ p' g' e', worker_step outcome outputs cache w p g e = Some (p', g', e')
    ∧ arranged all (mkScheduler g' e' (p' :: after_notify g g' ws)) ∧ unfinished g'.
Proof.
  intros Hs Hun Hnd Hall Hws.
  pose proof (sched_running _ _ Hs _ (list_elem_of_here _ _)) as Hv. simpl in Hv.
  assert (∀ f t p' e', worker_claims p = Some (f, t) → worker_claims p' = Some (f, t) →
    worker_owes p = Some f → worker_owes p' = Some f →
    cancellation e' = cancellation e ∨ cancellation e' = true → sink e' = sink e →
    gpu_infra e' = gpu_infra e → (∀ f', is_Some (atoms e !! f') → is_Some (atoms e' !! f')) →
    (∀ f', f' ≠ f → atoms e' !! f' = atoms e !! f') →
    verdict e' p' → p' = p ∨ (∀ gate, p' ≠ AtGate f t gate) →
    arranged all (mkScheduler g e' (p' :: after_notify g g ws)) ∧ unfinished g) as Hplace.
  { intros f t p' e' ??????????? . split; [|done].
    rewrite after_notify_same by done. eapply (step_in_place all g e p); eauto. }
  destruct p as [b| | |f t gate|f t|f t|f t b|f t b|f t b|f t b|]; simpl; try done.
  - destruct (top_keeps all g e ws Hs Hun Hall Hws) as (p' & g' & e' & -> & Hw & ? & ?).
    exists p', g', e'. by rewrite after_notify_same.
  - exists Asleep, g, e. by rewrite after_notify_same.
  - simpl in Hv. rewrite (proj2 (N.eqb_neq _ _) Hv).
    case_bool_decide; eexists _, _, _; (split; [done|]); apply (Hplace f t); alternatives.
  - eexists _, _, _; (split; [done|]); apply (Hplace f t); try alternatives.
    all: destruct (cancellation e); alternatives.
  - destruct (held_task all g e _ f t ws Hs eq_refl) as [task Htask].
    destruct (owed_frame all g e _ f ws Hs eq_refl) as [atom Hatom].
    destruct (execute (staticData g)).
    + unfold execute_frame. rewrite Htask, Hatom. simpl. eexists _, _, _. split; [done|].
      split; [|done]. rewrite after_notify_same by done.
      apply (step_in_place all g e (Executing f t) f t); simpl; try alternatives.
      * left. by eexists.
      * intros f' ?. destruct (decide (f = f')) as [->|]; [rewrite lookup_insert_eq; eauto|].
        by rewrite lookup_insert_ne.
      * intros f' ?. by rewrite lookup_insert_ne.
      * destruct outcome; [|done]. intros _. eexists. simpl. by rewrite lookup_insert_eq.
    + eexists _, _, _; (split; [done|]); apply (Hplace f t); alternatives.
  - eexists _, _, _; (split; [done|]); apply (Hplace f t); try done; destruct b; simpl; try alternatives.
    intros Hc. split; [done|]. by apply Hv.
  - destruct (owed_frame all g e _ f ws Hs eq_refl) as [atom Hatom].
    destruct (negb b || cancellation e) eqn:Hf.
    + unfold mark_frame. rewrite Hatom. simpl. eexists _, _, _. split; [done|].
      apply (Hplace f t); simpl; try alternatives.
      * intros f' ?. destruct (decide (f = f')) as [->|]; [rewrite lookup_insert_eq; eauto|].
        by rewrite lookup_insert_ne.
      * intros f' ?. by rewrite lookup_insert_ne.
      * intros Hc. destruct (Hv Hc) as [-> _]. by rewrite Hc in Hf.
    + simpl. eexists _, _, _. split; [done|]. apply (Hplace f t); alternatives.
  - destruct (step_deliver all g e f t b ws Hs Hnd) as (e' & -> & Hs'). simpl. eexists _, _, _.
    split; [done|]. by rewrite after_notify_same.
  - destruct (return_keeps all g e f t b ws Hs Hall Hws) as (g' & e' & -> & Hw & Hs' & ? & _).
    eexists _, _, _. split; [done|]. rewrite after_notify_other by (rewrite Hw; lia). done.
  - exists Exited, g, e. by rewrite after_notify_same.
Qed.

End steps.
