(* ===== verification/GraphOwner.v ===== *)
(** Every call of the graph's owner keeps the scheduler's invariant. *)
From S2P Require Import Prelude.
From S2P Require Import Platform.
From S2P Require Import CacheTypes.
From S2P Require Import GpuTopology.
From S2P Require Import GpuContextManager.
From S2P Require Import RegistryInvariant.
From S2P Require Import RegistryBehaviour.
From S2P Require Import StaticGpuData.
From S2P Require Import StaticData.
From S2P Require Import ParameterRegistry.
From S2P Require Import DemoTypes.
From S2P Require Import DeviceCalls.
From S2P Require Import DummyTask.
From S2P Require Import DummyGraph.
From S2P Require Import GraphScheduler.
From S2P Require Import GraphWorkers.
#[local] Open Scope N_scope.

#[local] Arguments tasks_held : simpl never.
#[local] Arguments frames_owed : simpl never.
#[local] Arguments unsubmitted : simpl never.

Section calls.
Context `{IAlgo} `{!GpuDriver} `{!HostMemory}.
Implicit Types (g : DummyGraph) (e : Surroundings) (p : Worker) (ws : list Worker).

(** *** Calls that do not concern the scheduler *)

(** What the scheduler's invariant reads of a graph. *)
Record same_schedule g g' : Prop := {
  same_free : freeTasks g' = freeTasks g;
  same_inFlight : inFlight g' = inFlight g;
  same_ready : readyFrames g' = readyFrames g;
  same_unsubmitted : unsubmitted g' = unsubmitted g;
  same_total : phaseTotal g' = phaseTotal g;
  same_terminal : phaseTerminal g' = phaseTerminal g;
  same_active : phaseActive g' = phaseActive g;
  same_phase_gate : phaseGate g' = phaseGate g;
  same_initialized : graph_initialized g' = graph_initialized g;
  same_stopping : stopping g' = stopping g;
  same_succeeded : phaseSucceeded g' = phaseSucceeded g;
  same_resources : resources <$> tasks g' = resources <$> tasks g;
  same_peak : lastMaxInFlight g' = lastMaxInFlight g;
}.

(** The highest number of frames in flight is from before or from now, and no
    task comes or goes. *)
Definition peak_kept g g' : Prop :=
  (lastMaxInFlight g' = lastMaxInFlight g ∨ lastMaxInFlight g' = inFlight g')
  ∧ length (tasks g') = length (tasks g).

Lemma peak_kept_refl g : peak_kept g g.
Proof. by split; [left|]. Qed.

Lemma peak_kept_same g g' : same_schedule g g' → peak_kept g g'.
Proof.
  intros [? ? ? ? ? ? ? ? ? ? ? Hr Hp]. split; [by left|]. by rewrite <-(length_fmap resources), Hr, length_fmap.
Qed.

Lemma same_schedule_refl g : same_schedule g g.
Proof. by split. Qed.

(** What may happen to the surroundings without a worker noticing. *)
Record harmless e e' : Prop := {
  harmless_sink : sink e' = sink e;
  harmless_infra : gpu_infra e' = gpu_infra e;
  harmless_cancellation : cancellation e' = cancellation e ∨ cancellation e' = true;
  harmless_atoms : atoms e' = atoms e;
}.

Lemma harmless_refl e : harmless e e.
Proof. split; by try left. Qed.

Lemma harmless_cancel e : harmless e (cancel e).
Proof. split; try done. by right. Qed.

Lemma harmless_trans e1 e2 e3 : harmless e1 e2 → harmless e2 e3 → harmless e1 e3.
Proof.
  intros [Hs Hi Hc Ha] [Hs' Hi' Hc' Ha'].
  split; [congruence|congruence| |congruence]. destruct Hc' as [->|]; [done|by right].
Qed.

Lemma equipped_same ts ts' infra :
  resources <$> ts' = resources <$> ts → equipped ts infra → equipped ts' infra.
Proof.
  intros Hr (Hreg & Hne & Ht). split; [done|].
  split; [intros ->; apply Hne; by destruct ts|]. intros t Hin.
  assert (resources t ∈ resources <$> ts) as (t' & -> & Hin')%list_elem_of_fmap
    by (rewrite <-Hr; by apply list_elem_of_fmap_2).
  by apply Ht.
Qed.

Lemma harmless_verdict e e' p : harmless e e' → verdict e p → verdict e' p.
Proof.
  intros Hh Hv. destruct (harmless_cancellation _ _ Hh) as [Hc|Hc]; [|by apply (verdict_cancelled e)].
  apply (verdict_frame e); [done| |done]. intros f _. by rewrite (harmless_atoms _ _ Hh).
Qed.

Lemma arranged_same all g g' e e' ws :
  same_schedule g g' → harmless e e' →
  arranged all (mkScheduler g e ws) → arranged all (mkScheduler g' e' ws).
Proof.
  intros Hg He Hs. destruct Hg.
  assert (length (tasks g') = length (tasks g)) as Hlen
    by (by rewrite <-(length_fmap resources), same_resources0, length_fmap).
  split; simpl; rewrite ?same_free0, ?same_inFlight0, ?same_ready0, ?same_unsubmitted0, ?same_total0,
    ?same_terminal0, ?same_active0, ?same_phase_gate0, ?same_initialized0, ?same_stopping0,
    ?same_succeeded0, ?Hlen; unfold delivered; rewrite ?(harmless_sink _ _ He), ?(harmless_atoms _ _ He),
    ?(harmless_infra _ _ He); try apply Hs.
  - intros p Hp. pose proof (sched_running _ _ Hs p Hp) as Hv. simpl in Hv.
    destruct p; try done; by apply (harmless_verdict e).
  - intros Hc Hstop. apply (sched_success _ _ Hs); [|done]. simpl.
    destruct (harmless_cancellation _ _ He); congruence.
  - by eapply equipped_same, (sched_equipped _ _ Hs).
Qed.

Lemma unfinished_same g g' : same_schedule g g' → unfinished g → unfinished g'.
Proof. intros [? Hi Hr]. unfold unfinished. rewrite Hi, Hr. intros Hun. destruct (phaseActive g') eqn:?; [|done].
  intros _ ?. apply Hun; congruence. Qed.

(** The tasks' calls leave the identity of their resources. *)
Lemma startTasks_resources started pending :
  resources <$> (startTasks started pending).2 = resources <$> started ++ pending.
Proof.
  revert started. induction pending as [|t rest IH]; intros started; simpl; [by rewrite app_nil_r|].
  assert (resources (task_start t).2 = resources t) as Ht by (unfold task_start; by case_match).
  destruct (task_start t) as [ok t'] eqn:Hrun. simpl in Ht. destruct ok; simpl.
  - rewrite IH, !fmap_app. simpl. rewrite Ht. by rewrite <-(assoc_L (++)).
  - rewrite !fmap_app, <-list_fmap_compose. simpl. rewrite Ht. f_equal.
    apply list_fmap_ext. intros _ u _. simpl. unfold task_stop. by case_match.
Qed.

Lemma stopTasks_resources ts : resources <$> (stopTasks ts).2 = resources <$> ts.
Proof.
  induction ts as [|t rest IH]; simpl; [done|]. unfold task_stop.
  destruct (stopTasks rest) as [ok rest']. simpl in IH. by repeat case_match; simplify_eq/=; f_equal.
Qed.

Lemma notifyParameters_run parameters t infra w :
  registry infra → is_Some (task_store infra !! resources t) →
  ∃ ok t' w', notifyParameters parameters t infra w = Some (ok, t', w') ∧ resources t' = resources t.
Proof.
  intros Hreg [r Hr]. unfold notifyParameters. repeat (case_match; [by eauto|]).
  rewrite (makeTaskCurrent_run infra (resources t) r w Hreg Hr). simpl.
  destruct (if decide _ then _ else _) as [[] w']; simpl; [|by eauto].
  assert (resources (applyParameters parameters t).2 = resources t) as Ha
    by (unfold applyParameters; repeat case_match; done).
  destruct (applyParameters parameters t) as [[] t']; simpl; eauto.
Qed.

Lemma notifyTasks_run parameters ts infra w :
  equipped ts infra →
  ∃ ok ts' w', notifyTasks parameters ts infra w = Some (ok, ts', w')
    ∧ resources <$> ts' = resources <$> ts.
Proof.
  intros (Hreg & _ & Hall). revert w. induction ts as [|t rest IH]; intros w; simpl; [by eauto|].
  destruct (notifyParameters_run parameters t infra w Hreg) as (ok & t' & w' & -> & Ht);
    [apply Hall; by left|]. simpl.
  destruct ok; simpl; [|by eexists _, _, _; split; [done|]; rewrite !fmap_cons, Ht].
  destruct (IH ltac:(intros; apply Hall; by right) w') as (ok & ts' & w'' & -> & Hts). simpl.
  eexists _, _, _. split; [done|]. by rewrite !fmap_cons, Ht, Hts.
Qed.

Lemma quiet_start placed g e :
  ∃ ok g' e', graph_start placed g e = Some (ok, g', e')
    ∧ same_schedule g g' ∧ harmless e e' ∧ workCondition g' = workCondition g.
Proof.
  unfold graph_start. case_match.
  { by eexists _, _, _; split_and!; [done|apply same_schedule_refl|apply harmless_refl|]. }
  destruct placed; cbn [executor_run mbind option_bind].
  2:{ by eexists _, _, _; split_and!; [done|apply same_schedule_refl|apply harmless_cancel|]. }
  unfold startOnNumaNode. pose proof (startTasks_resources [] (tasks g)) as Hr.
  destruct (startTasks [] (tasks g)) as [ok ts]. simpl in Hr. cbn [mbind option_bind].
  destruct ok; eexists _, _, _; (split_and!; [done|by split| |done]).
  - apply harmless_refl.
  - apply harmless_cancel.
Qed.

Lemma quiet_stop placed g e :
  ∃ ok g' e', graph_stop placed g e = Some (ok, g', e')
    ∧ same_schedule g g' ∧ harmless e e' ∧ workCondition g' = workCondition g.
Proof.
  unfold graph_stop. case_match.
  { by eexists _, _, _; split_and!; [done|apply same_schedule_refl|apply harmless_refl|]. }
  destruct placed; cbn [executor_run mbind option_bind].
  2:{ by eexists _, _, _; split_and!; [done|apply same_schedule_refl|apply harmless_cancel|]. }
  unfold stopOnNumaNode. pose proof (stopTasks_resources (reverse (tasks g))) as Hr.
  destruct (stopTasks (reverse (tasks g))) as [ok ts]. simpl in Hr. cbn [mbind option_bind].
  assert (resources <$> reverse ts = resources <$> tasks g) as Hts
    by (by rewrite fmap_reverse, Hr, fmap_reverse, reverse_involutive).
  destruct ok; eexists _, _, _; (split_and!; [done|by split| |done]).
  - apply harmless_refl.
  - apply harmless_cancel.
Qed.

Lemma quiet_parameters placed parameters g e :
  equipped (tasks g) (gpu_infra e) →
  ∃ ok g' e', changeParameters placed parameters g e = Some (ok, g', e')
    ∧ same_schedule g g' ∧ harmless e e' ∧ workCondition g' = workCondition g.
Proof.
  intros Heq. unfold changeParameters. case_match.
  { by eexists _, _, _; split_and!; [done|apply same_schedule_refl|apply harmless_refl|]. }
  case_bool_decide.
  { by eexists _, _, _; split_and!; [done|apply same_schedule_refl|apply harmless_refl|]. }
  destruct (setString _ _ _) as [[] r]; cbn [negb].
  2:{ by eexists _, _, _; split_and!; [done|by split|apply harmless_refl|]. }
  destruct (setBytes _ _ _) as [okb r']. destruct (negb okb || _).
  { by eexists _, _, _; split_and!; [done|by split|apply harmless_refl|]. }
  destruct (snapshot _ _) as [[] updated]; cbn [negb].
  2:{ by eexists _, _, _; split_and!; [done|by split|apply harmless_refl|]. }
  destruct placed; cbn [executor_run].
  2:{ by eexists _, _, _; split_and!; [done|by split|apply harmless_cancel|]. }
  unfold notifyParametersOnNumaNode.
  destruct (notifyTasks_run updated (tasks g) (gpu_infra e) (machine_world e) Heq)
    as (ok & ts & w' & Hrun & Hts).
  simpl tasks. rewrite Hrun. cbn [mbind option_bind].
  destruct ok; eexists _, _, _; (split_and!; [done|by split|by split; auto|done]).
Qed.

(** *** Phases *)

Lemma collectFrames_run d frames pending e :
  (∀ f, f ∈ frames → is_Some (atoms e !! f)) →
  ∃ r e', collectFrames d frames pending e = Some (r, e') ∧ harmless e e'
    ∧ cancellation e' = cancellation e ∧ ∀ fs, r = Pending fs → fs = pending ++ frames.
Proof.
  revert pending e. induction frames as [|f fs IH]; intros pending e Hall; cbn [collectFrames].
  { eexists _, _. split_and!; [done|apply harmless_refl|done|]. intros fs [= <-]. by rewrite app_nil_r. }
  case_match; [by eexists _, _; split_and!; [done|apply harmless_refl|done|]|].
  destruct (Hall f ltac:(by left)) as [atom ->]. cbn [mbind option_bind].
  case_match; [by eexists _, _; split_and!; [done|apply harmless_refl|done|]|].
  destruct (host_alloc _ _) as [allocated w].
  assert (harmless e (e <| machine_world := w |>)) as Hw by (split; try done; by left).
  destruct allocated; cbn [negb]; [|by eexists _, _].
  destruct (IH (pending ++ [f]) (e <| machine_world := w |>)) as (r & e' & -> & Hh & Hc & Hp).
  { intros f' Hf'. apply Hall. by right. }
  eexists _, _. split; [done|]. split; [by eapply harmless_trans|]. split; [done|].
  intros fs' Hr. rewrite (Hp _ Hr). by rewrite <-(assoc_L (++)).
Qed.

Record reset e e' : Prop := {
  reset_sink : sink e' = sink e;
  reset_infra : gpu_infra e' = gpu_infra e;
  reset_cancellation : cancellation e' = cancellation e;
  reset_atoms f : is_Some (atoms e !! f) → is_Some (atoms e' !! f);
}.

Lemma resetFrames_run frames e :
  (∀ f, f ∈ frames → is_Some (atoms e !! f)) →
  ∃ e', resetFrames frames e = Some e' ∧ reset e e'.
Proof.
  revert e. induction frames as [|f fs IH]; intros e Hall; simpl; [by eexists|].
  destruct (Hall f ltac:(by left)) as [atom Hatom]. rewrite Hatom. cbn [mbind option_bind].
  match goal with |- context [resetFrames fs ?e1] => destruct (IH e1) as (e' & -> & [? ? ? Ha]) end.
  { intros f' Hf'. simpl. destruct (decide (f = f')) as [->|]; [rewrite lookup_insert_eq; eauto|].
    rewrite lookup_insert_ne by done. apply Hall. by right. }
  eexists. split; [done|]. split; try done. intros f' Hf'. apply Ha. simpl.
  destruct (decide (f = f')) as [->|]; [rewrite lookup_insert_eq; eauto|]. by rewrite lookup_insert_ne.
Qed.

Lemma unsubmitted_phase phase g :
  validFramePhase phase = true →
  (match phase with Warmup => warmupSubmitted g | _ => timedSubmitted g end) = false →
  ∃ others, unsubmitted g ≡ₚ atomsForPhase phase g ++ others
    ∧ ∀ gate pending, unsubmitted (begin_phase phase gate pending g) = others.
Proof.
  intros Hv Hs. destruct phase; try done; unfold unsubmitted, begin_phase; simpl in *; rewrite Hs.
  - eexists. split; [done|]. intros gate pending. by destruct (vsize _ =? 0).
  - eexists. split; [apply Permutation_app_comm|]. intros gate pending.
    destruct (vsize _ =? 0); simpl; by rewrite app_nil_r.
Qed.

Lemma begin_keeps all phase gate g e e' ws :
  arranged all (mkScheduler g e ws) → reset e e' → gate ≠ nullptr →
  validFramePhase phase = true → graph_initialized g = true → phaseActive g = false →
  stopping g = false → cancellation e = false →
  (match phase with Warmup => warmupSubmitted g | _ => timedSubmitted g end) = false →
  let g' := begin_phase phase gate (atomsForPhase phase g) g in
  arranged all (mkScheduler g' e' (after_notify g g' ws)) ∧ unfinished g' ∧ peak_kept g g'.
Proof.
  intros Hs [Hk Hi Hc Ha] Hgate Hv Hinit Hact Hstop Hcan Hsub g'.
  destruct (unsubmitted_phase phase g Hv Hsub) as (others & Hun & Hun').
  specialize (Hun' gate (atomsForPhase phase g)). fold g' in Hun'.
  destruct (sched_inactive _ _ Hs Hact) as [Hready Hheld]. simpl in Hready, Hheld.
  assert (∀ p, p ∈ after_notify g g' ws → worker_claims p = None) as Hidle.
  { intros p Hp. apply (tasks_held_nil (after_notify g g' ws)); [|done].
    by rewrite after_notify_claims. }
  set (frames := atomsForPhase phase g) in *.
  pose proof (sched_frames _ _ Hs) as Hfr. simpl in Hfr. rewrite Hready, Hun in Hfr. simpl in Hfr.
  assert (vsize frames ≤ vsize all) as Hle.
  { unfold vsize. rewrite <-Hfr, !length_app. lia. }
  assert (readyFrames g' = frames ∧ inFlight g' = 0 ∧ freeTasks g' = freeTasks g ∧ tasks g' = tasks g
    ∧ phaseActive g' = negb (vsize frames =? 0) ∧ phaseTotal g' = vsize frames ∧ phaseTerminal g' = 0
    ∧ phaseGate g' = gate ∧ graph_initialized g' = true ∧ stopping g' = false
    ∧ phaseSucceeded g' = true
    ∧ workCondition g' = if vsize frames =? 0 then workCondition g else workCondition g + 1)
    as (Hr' & Hi' & Hf' & Ht' & Ha' & Htot' & Hterm' & Hgate' & Hinit' & Hstop' & Hsucc' & Hw').
  { unfold g', begin_phase. fold frames.
    destruct phase; try done; simpl; destruct (vsize frames =? 0); simpl; by rewrite ?Hinit, ?Hstop. }
  assert (lastMaxInFlight g' = 0) as Hmax'.
  { unfold g', begin_phase. destruct phase; try done; simpl; by destruct (vsize _ =? 0). }
  split; [|split].
  2:{ intros Hact' _. rewrite Hr'. left. intros Hnil. rewrite Ha', Hnil in Hact'. done. }
  2:{ split; [right|]; congruence. }
  split; simpl; rewrite ?after_notify_claims, ?after_notify_owes, ?Hun', ?Hr', ?Hi', ?Hf', ?Ht', ?Htot',
    ?Hterm', ?Hinit', ?Hstop', ?Hsucc'; unfold delivered; rewrite ?Hk, ?Hi, ?Hc; try apply Hs.
  - by rewrite Hheld.
  - rewrite <-Hfr. unfold delivered. f_equiv. rewrite !(assoc_L (++)). f_equiv. apply Permutation_app_comm.
  - intros f Hf. by apply Ha, (sched_atoms _ _ Hs).
  - intros _. rewrite Hgate'. split_and!; [lia|done..].
  - intros Hina. split; [|done]. rewrite Ha' in Hina. apply negb_false_iff in Hina.
    rewrite vsize_0 in Hina. by apply bool_decide_eq_true in Hina.
  - intros Hasleep. split; [done|]. intros Hact'.
    destruct (decide (workCondition g' = workCondition g)) as [Heq|Hne];
      [|by apply after_notify_all in Hasleep].
    rewrite Ha' in Hact'. rewrite Hw' in Heq. destruct (vsize frames =? 0); [done|lia].
  - intros Hex. apply after_notify_elem in Hex as [Hex|[=]].
    pose proof (sched_exited _ _ Hs Hex). simpl in *. congruence.
  - intros p Hp. pose proof (Hidle p Hp) as Hnone. apply after_notify_elem in Hp as [Hp| ->]; [|done].
    pose proof (sched_running _ _ Hs p Hp). by destruct p.
  - done.
  - intros Hcan' _. split; [done|]. by apply (sched_success _ _ Hs).
  - intros f t gate' Hp. by apply Hidle in Hp.
Qed.

Lemma startPhase_keeps all phase gate g e ws :
  arranged all (mkScheduler g e ws) → unfinished g → gate ≠ nullptr →
  ∃ ok g' e', startPhase phase gate g e = Some (ok, g', e')
    ∧ arranged all (mkScheduler g' e' (after_notify g g' ws)) ∧ unfinished g' ∧ peak_kept g g'.
Proof.
  intros Hs Hun Hgate. unfold startPhase.
  assert (∀ e', harmless e e' → arranged all (mkScheduler g e' (after_notify g g ws)) ∧ unfinished g
    ∧ peak_kept g g) as Hno.
  { intros e' He. rewrite after_notify_same by done. split; [|split; [done|apply peak_kept_refl]].
    by eapply arranged_same; [apply same_schedule_refl| |]. }
  destruct (_ || cancellation e) eqn:Hguard.
  { eexists _, _, _. split; [done|]. apply Hno, harmless_refl. }
  rewrite !orb_false_iff in Hguard. destruct Hguard as (((((Hinit & _) & Hv) & Hact) & Hstop) & Hcan).
  apply negb_false_iff in Hinit, Hv.
  destruct (match phase with Warmup => _ | _ => _ end) eqn:Hsub.
  { eexists _, _, _. split; [done|]. apply Hno, harmless_refl. }
  destruct (unsubmitted_phase phase g Hv Hsub) as (others & Hperm & _).
  assert (∀ f, f ∈ atomsForPhase phase g → is_Some (atoms e !! f)) as Hatoms.
  { intros f Hf. apply (sched_atoms _ _ Hs). rewrite <-(sched_frames _ _ Hs). simpl. rewrite Hperm. set_solver. }
  destruct (collectFrames_run (staticData g) (atomsForPhase phase g) [] e Hatoms)
    as (r & e1 & -> & Hh & Hc & Hp). cbn [mbind option_bind].
  destruct r as [| |fs].
  - eexists _, _, _. split; [done|]. by apply Hno.
  - eexists _, _, _. split; [done|]. apply Hno. eapply harmless_trans; [done|apply harmless_cancel].
  - destruct (resetFrames_run (atomsForPhase phase g) e1) as (e2 & -> & Hreset).
    { intros f Hf. rewrite (harmless_atoms _ _ Hh). by apply Hatoms. }
    cbn [mbind option_bind]. rewrite (Hp fs eq_refl). eexists _, _, _. split; [done|].
    apply (begin_keeps all phase gate g e1); try done; [|by rewrite Hc].
    by eapply arranged_same; [apply same_schedule_refl| |].
Qed.

(** *** Shutdown *)

Lemma awake_keeps all g e ws :
  arranged all (mkScheduler g e ws) → arranged all (mkScheduler g e (awake <$> ws)).
Proof.
  intros Hs. split; simpl; rewrite ?awake_all_held, ?awake_all_owed; try apply Hs.
  - by intros [|[]]%awake_all_elem.
  - intros [|[]]%awake_all_elem; [done|]. by apply (sched_exited _ _ Hs).
  - intros p [->|[]]%awake_all_elem; [done|]. by apply (sched_running _ _ Hs).
  - intros f t gate [|[]]%awake_all_elem; [done|]. by apply (sched_gate _ _ Hs f t).
Qed.

(** The frames of the phases not submitted end, and the workers are told. *)
Lemma stop_keeps all g e e' ws :
  arranged all (mkScheduler g e ws) → Asleep ∉ ws → readyFrames g = [] →
  (phaseActive g = true → cancellation e = true) → ended (unsubmitted g) e e' →
  arranged all (mkScheduler (g <| stopping := true |> <| warmupSubmitted := true |>
    <| timedSubmitted := true |>) e' ws).
Proof.
  intros Hs Hawake Hready Hcan Hend.
  split; simpl; try apply Hs; try done.
  - unfold unsubmitted. simpl. rewrite (ended_delivered _ _ _ Hend), <-(sched_frames _ _ Hs). simpl.
    rewrite Hready, app_nil_r. simpl. rewrite (Permutation_app_comm (unsubmitted g)), <-(assoc_L (++)).
    f_equiv. apply Permutation_app_comm.
  - intros f Hf. by apply (ended_atoms _ _ _ Hend), (sched_atoms _ _ Hs).
  - intros p Hp. pose proof (sched_running _ _ Hs p Hp) as Hv. simpl in Hv.
    assert (verdict e p → verdict e' p) as Hkeep.
    { destruct (phaseActive g) eqn:Hact.
      - apply verdict_cancelled. rewrite (ended_cancellation _ _ _ Hend). auto.
      - destruct (sched_inactive _ _ Hs Hact) as [_ Hheld]. apply verdict_idle.
        by eapply tasks_held_nil. }
    destruct p; auto.
  - apply (ended_counted _ _ _ Hend), (sched_counts _ _ Hs).
  - rewrite (ended_infra _ _ _ Hend). apply (sched_equipped _ _ Hs).
Qed.

Lemma cancelReady_stopping b g e :
  cancelReadyFramesLocked (g <| stopping := b |>) e
  = '(g', e') ← cancelReadyFramesLocked g e; Some (g' <| stopping := b |>, e').
Proof. unfold cancelReadyFramesLocked. simpl. by destruct (cancelFrames _ _ _) as [[]|]. Qed.

Lemma cancelPrepared_all g e :
  (∀ f, f ∈ unsubmitted g → is_Some (atoms e !! f)) →
  ∃ e', cancelPreparedFramesLocked g e = Some (g <| warmupSubmitted := true |> <| timedSubmitted := true |>, e')
    ∧ ended (unsubmitted g) e e'.
Proof.
  intros Hall. unfold cancelPreparedFramesLocked, unsubmitted in *.
  assert (∃ e1, (if warmupSubmitted g then Some e else cancelPrepared (warmupAtoms g) e) = Some e1
    ∧ ended (if warmupSubmitted g then [] else warmupAtoms g) e e1) as (e1 & -> & H1').
  { destruct (warmupSubmitted g); [by exists e; split; [|apply ended_nil]|].
    apply cancelPrepared_run. intros f Hf. apply Hall. set_solver. }
  cbn [mbind option_bind].
  change (timedSubmitted (g <| warmupSubmitted := true |>)) with (timedSubmitted g).
  change (timedAtoms (g <| warmupSubmitted := true |>)) with (timedAtoms g).
  assert (∃ e2, (if timedSubmitted g then Some e1 else cancelPrepared (timedAtoms g) e1) = Some e2
    ∧ ended (if timedSubmitted g then [] else timedAtoms g) e1 e2) as (e2 & -> & H2').
  { destruct (timedSubmitted g); [by exists e1; split; [|apply ended_nil]|].
    apply cancelPrepared_run. intros f Hf. apply (ended_atoms _ _ _ H1'), Hall. set_solver. }
  eexists. split; [done|]. by eapply ended_app.
Qed.

Lemma shutdown_keeps all g e ws n :
  arranged all (mkScheduler g e ws) → unfinished g → vsize all < two64 →
  ∃ done g' e', shutdown_begin n g e = Some (done, g', e')
    ∧ arranged all (mkScheduler g' e' (after_notify g g' ws)) ∧ unfinished g' ∧ peak_kept g g'
    ∧ (done = false → stopping g' = true ∧ (phaseActive g' = true → phaseGate g' ∈ gates_released e')).
Proof.
  intros Hs Hun Hall. unfold shutdown_begin. case_match.
  { eexists _, _, _. split; [done|]. rewrite after_notify_same by done. split_and!; try done. apply peak_kept_refl. }
  apply awake_keeps in Hs.
  assert (Asleep ∉ awake <$> ws) as Hawake by (by intros [|[]]%awake_all_elem).
  change (phaseActive (g <| stopping := true |>)) with (phaseActive g).
  assert (∃ g1 e1, (if phaseActive g then
      '(g1, e1) ← cancelReadyFramesLocked (g <| stopping := true |>) (cancel e);
      Some (g1, if phaseGate g1 =? nullptr then e1
                else e1 <| gates_released := {[phaseGate g1]} ∪ gates_released e1 |>)
     else Some (g <| stopping := true |>, e)) = Some (g1 <| stopping := true |>, e1)
     ∧ arranged all (mkScheduler g1 e1 (awake <$> ws)) ∧ readyFrames g1 = []
     ∧ (phaseActive g1 = true → cancellation e1 = true)
     ∧ (workCondition g1 = workCondition g ∧ peak_kept g g1) ∧ (phaseActive g1 = true → phaseGate g1 ∈ gates_released e1))
    as (g1 & e1 & -> & Hs1 & Hready & Hcan & [Hw Hpeak] & Hopen).
  { destruct (phaseActive g) eqn:Hact.
    - destruct (cancelReady_run all g (cancel e) (awake <$> ws)) as (g1 & e1 & Hrun & Hg1 & Hend & Hs1); try done.
      { by eapply arranged_same; [apply same_schedule_refl|apply harmless_cancel|]. }
      rewrite cancelReady_stopping, Hrun. cbn [mbind option_bind].
      eexists g1, _. split; [done|]. split_and!; [|by rewrite Hg1| |by rewrite Hg1|by rewrite Hg1; split; [left|]|].
      + eapply arranged_same; [apply same_schedule_refl| |exact Hs1].
        case_match; [apply harmless_refl|split; by try left].
      + intros _. pose proof (ended_cancellation _ _ _ Hend) as Hc. simpl in Hc. by case_match.
      + intros _. destruct (sched_active _ _ Hs Hact) as (_ & _ & Hgate & _). simpl in Hgate.
        rewrite Hg1. cbn [phaseGate]. simpl. rewrite (proj2 (N.eqb_neq _ _) Hgate). simpl. set_solver.
    - exists g, e. split_and!; try done; [|congruence|apply peak_kept_refl|congruence]. by apply (sched_inactive _ _ Hs). }
  cbn [mbind option_bind].
  destruct (cancelPrepared_all (g1 <| stopping := true |>) e1) as (e2 & -> & Hend).
  { intros f Hf. apply (sched_atoms _ _ Hs1). rewrite <-(sched_frames _ _ Hs1). simpl.
    unfold unsubmitted in *. simpl in Hf. set_solver. }
  cbn [mbind option_bind]. eexists _, _, _. split; [done|].
  rewrite after_notify_other by (simpl; rewrite Hw; lia). split; [|split; [done|split; [done|]]].
  - apply notify_keeps. by apply (stop_keeps all g1 e1).
  - intros _. split; [done|]. simpl. rewrite (ended_gates _ _ _ Hend). done.
Qed.

End calls.
