(* ===== verification/GraphSetup.v ===== *)
(** The setup of a graph, in [DummyGraph::initialize] up to the start of its worker
    threads, and its undoing: what [unloadOnNumaNode] leaves, what
    [initializeOnNumaNode] makes, and that both are defined whatever fails. *)
From stdpp Require Import strings.
From S2P Require Import Prelude.
From S2P Require Import Platform.
From S2P Require Import GpuDataKey.
From S2P Require Import CacheTypes.
From S2P Require Import GpuTopology.
From S2P Require Import GpuContextManager.
From S2P Require Import RegistryInvariant.
From S2P Require Import RegistryBehaviour.
From S2P Require Import StaticGpuData.
From S2P Require Import StaticData.
From S2P Require Import StaticOwner.
From S2P Require Import ParameterRegistry.
From S2P Require Import DemoTypes.
From S2P Require Import DeviceCalls.
From S2P Require Import DummyTask.
From S2P Require Import TaskBehaviour.
From S2P Require Import DummyGraph.
From S2P Require Import GraphOwner.
#[local] Open Scope N_scope.

Section setup.
Context `{IAlgo} `{!PlatformLaws} `{!GpuDriver} `{!HostMemory}.

(** ** Unloading *)

(** The tasks' resources are objects of a consistent registry. *)
Definition stocked (ts : list DummyTask) (infra : GpuInfra) : Prop :=
  registry infra ∧ ∀ t, t ∈ ts → is_Some (task_store infra !! resources t).

Definition kept_objects (infra infra' : GpuInfra) : Prop :=
  ∀ u, is_Some (task_store infra !! u) → is_Some (task_store infra' !! u).

Lemma kept_objects_refl infra : kept_objects infra infra.
Proof. by intros u. Qed.

(** Unloading such a task gives its resources back. *)
Definition unstarted (t : DummyTask) : Prop := task_state t ≠ Started ∧ task_state t ≠ Unloaded.

(** Apart from some resources that were not there in [base], the store is as in
    [base], and what else is new holds nothing. *)
Definition holds_only (base infra : GpuInfra) (own : list ptr) : Prop :=
  ∀ u, (u ∈ own → task_store base !! u = None)
    ∧ (u ∉ own → task_store infra !! u = task_store base !! u
         ∨ task_store base !! u = None ∧ ∃ r, task_store infra !! u = Some r ∧ blank r).

Definition tidy (base : GpuInfra) (ts : list DummyTask) (infra : GpuInfra) : Prop :=
  Forall unstarted ts ∧ holds_only base infra (resources <$> ts).

Lemma holds_only_touch base infra infra' own t :
  holds_only base infra own → only t infra infra' → t ∈ own → holds_only base infra' own.
Proof.
  intros Hown Honly Ht u. destruct (Hown u) as [Hin Hout]. split; [done|]. intros Hu.
  rewrite Honly by (by intros ->). by apply Hout.
Qed.

Lemma holds_only_drop base infra own t r :
  holds_only base infra (t :: own) → task_store infra !! t = Some r → blank r → holds_only base infra own.
Proof.
  intros Hown Ht Hb u. destruct (Hown u) as [Hin Hout]. split; [intros Hu; apply Hin; by right|].
  intros Hu. destruct (decide (u = t)) as [->|Hne].
  - right. split; [apply Hin; by left|]. by exists r.
  - apply Hout. by apply not_elem_of_cons.
Qed.

Lemma holds_only_perm base infra own own' :
  (∀ u, u ∈ own ↔ u ∈ own') → holds_only base infra own → holds_only base infra own'.
Proof. intros Hsame Hown u. rewrite <-Hsame. apply Hown. Qed.

Lemma holds_only_new base infra own t r :
  holds_only base infra own → task_store infra !! t = None →
  holds_only base (infra <| task_store := <[t := r]> (task_store infra) |>) (t :: own).
Proof.
  intros Hown Ht u. destruct (Hown u) as [Hin Hout]. rewrite elem_of_cons. split.
  - intros [->|Hu]; [|by apply Hin]. destruct (decide (t ∈ own)) as [Ho|Ho]; [by apply Hin|].
    destruct (Hout Ho) as [Heq|(_ & r' & Hr' & _)]; congruence.
  - intros Hno. assert (u ≠ t ∧ u ∉ own) as [Hne Hu] by naive_solver. simpl.
    rewrite lookup_insert_ne by congruence. by apply Hout.
Qed.

Lemma holds_only_refl base : holds_only base base [].
Proof. intros u. split; [by intros ?%elem_of_nil|by left]. Qed.

Lemma task_unload_keeps t infra w r :
  registry infra → task_store infra !! resources t = Some r →
  ∃ ok t' infra' w', task_unload t infra w = Some (ok, t', infra', w') ∧ registry infra'
    ∧ kept_objects infra infra' ∧ resources t' = resources t.
Proof.
  intros Hr Ht. destruct (task_unload_run t infra w r Hr Ht) as (ok & t' & infra' & w' & Hrun & Hr' & Hstay & Hgo).
  exists ok, t', infra', w'. split; [done|]. split; [done|].
  destruct (decide (task_state t = Started ∨ task_state t = Unloaded)) as [Hs|Hs].
  - destruct (Hstay Hs) as (-> & -> & _). split; [apply kept_objects_refl|done].
  - destruct Hgo as ((r' & Hr'' & _) & Honly & -> & _); [naive_solver..|].
    split; [|done]. intros u Hu. destruct (decide (u = resources t)) as [->|Hne]; [by eexists|by rewrite Honly].
Qed.

Lemma unloadTasks_run ts infra w :
  stocked ts infra →
  ∃ ok ts' infra' w', unloadTasks ts infra w = Some (ok, ts', infra', w') ∧ registry infra'
    ∧ kept_objects infra infra' ∧ resources <$> ts' = resources <$> ts.
Proof.
  revert infra w. induction ts as [|t ts IH]; intros infra w [Hr Hall]; cbn [unloadTasks].
  { eexists _, _, _, _. split; [done|]. split; [done|]. split; [apply kept_objects_refl|done]. }
  destruct (Hall t ltac:(by left)) as [r Ht].
  destruct (task_unload_keeps t infra w r Hr Ht) as (ok & t' & infra1 & w1 & -> & Hr1 & Hkept & Hres).
  cbn [mbind option_bind].
  destruct (IH infra1 w1) as (ok2 & ts' & infra2 & w2 & -> & Hr2 & Hkept2 & Hres2).
  { split; [done|]. intros u Hu. apply Hkept, Hall. by right. }
  eexists _, _, _, _. split; [done|]. split; [done|]. split; [by intros u Hu; apply Hkept2, Hkept|].
  rewrite !fmap_cons. by rewrite Hres, Hres2.
Qed.

Lemma destructTasks_run ts infra w :
  stocked ts infra → ∃ infra' w', destructTasks ts infra w = Some (infra', w') ∧ registry infra'
    ∧ kept_objects infra infra'.
Proof.
  revert infra w. induction ts as [|t ts IH]; intros infra w [Hr Hall]; cbn [destructTasks].
  { eexists _, _. split; [done|]. split; [done|apply kept_objects_refl]. }
  destruct (Hall t ltac:(by left)) as [r Ht]. unfold task_destruct.
  set (t1 := if lifecycle_eqb (task_state t) Started then snd (task_stop t) else t).
  assert (resources t1 = resources t) as Hres by (unfold t1, task_stop; repeat case_match; done).
  destruct (task_unload_keeps t1 infra w r Hr) as (ok & t' & infra1 & w1 & -> & Hr1 & Hkept & _); [by rewrite Hres|].
  cbn [mbind option_bind].
  destruct (IH infra1 w1) as (infra2 & w2 & -> & Hr2 & Hkept2).
  { split; [done|]. intros u Hu. apply Hkept, Hall. by right. }
  eexists _, _. split; [done|]. split; [done|]. by intros u Hu; apply Hkept2, Hkept.
Qed.

(** Tasks that are not started give everything back. *)
Lemma unloadTasks_blank base ts infra w :
  stocked ts infra → tidy base ts infra →
  ∃ ok ts' infra' w', unloadTasks ts infra w = Some (ok, ts', infra', w') ∧ holds_only base infra' []
    ∧ Forall (λ t, task_state t = Unloaded) ts'.
Proof.
  revert infra w. induction ts as [|t ts IH]; intros infra w [Hr Hall] [Hun Hown]; cbn [unloadTasks].
  { by eexists _, _, _, _. }
  apply Forall_cons in Hun as [[Hs Hu] Hun]. destruct (Hall t ltac:(by left)) as [r Ht].
  destruct (task_unload_run t infra w r Hr Ht) as (ok & t' & infra1 & w1 & Hrun & Hr1 & _ & Hgo).
  destruct (task_unload_keeps t infra w r Hr Ht) as (ok' & t1 & infra1' & w1' & Hrun' & _ & Hkept & _).
  rewrite Hrun in Hrun'. injection Hrun' as <- <- <- <-.
  destruct (Hgo Hs Hu) as ((r' & Hr' & Hblank) & Honly & -> & _). rewrite Hrun. cbn [mbind option_bind].
  destruct (IH infra1 w1) as (ok2 & ts' & infra2 & w2 & -> & Hown2 & Hun2).
  { split; [done|]. intros u Hu'. apply Hkept, Hall. by right. }
  { split; [done|]. rewrite fmap_cons in Hown. eapply holds_only_drop; [|exact Hr'|exact Hblank].
    eapply holds_only_touch; [exact Hown|exact Honly|by left]. }
  cbn [mbind option_bind]. eexists _, _, _, _. split; [done|]. split; [done|]. by constructor.
Qed.

Lemma destructTasks_unloaded ts infra w :
  Forall (λ t, task_state t = Unloaded) ts → destructTasks ts infra w = Some (infra, w).
Proof.
  induction 1 as [|t ts Ht _ IH]; cbn [destructTasks]; [done|]. unfold task_destruct, task_unload, lifecycle_eqb.
  rewrite Ht. simpl. rewrite Ht. exact IH.
Qed.

(** Unloading is defined, and leaves the graph without tasks and frames. *)
Lemma unload_run g e :
  stocked (tasks g) (gpu_infra e) →
  ∃ ok g' e', unloadOnNumaNode (g, e) = Some (ok, (g', e')) ∧ registry (gpu_infra e')
    ∧ tasks g' = [] ∧ warmupAtoms g' = [] ∧ timedAtoms g' = []
    ∧ graph_initialized g' = graph_initialized g ∧ stopping g' = stopping g
    ∧ cancellation e' = cancellation e ∧ sink e' = sink e.
Proof.
  intros Hst. unfold unloadOnNumaNode.
  assert (∃ stopped g1, (if executionCycleStarted g then
       '(ok, g) ← stopOnNumaNode g;
       Some (ok : bool, g <| executionCycleStarted := false |> <| executionCycleStopped := true |>)
     else Some (true, g)) = Some (stopped, g1) ∧ resources <$> tasks g1 = resources <$> tasks g
     ∧ graph_initialized g1 = graph_initialized g ∧ stopping g1 = stopping g) as (stopped & g1 & -> & Hres & Hi & Hs).
  { destruct (executionCycleStarted g); [|by eexists _, _]. unfold stopOnNumaNode.
    destruct (stopTasks (reverse (tasks g))) as [ok ts] eqn:Hrun. cbn [mbind option_bind].
    eexists _, _. split; [done|]. split; [|done]. simpl. rewrite fmap_reverse.
    pose proof (stopTasks_resources (reverse (tasks g))) as Hts. rewrite Hrun in Hts. simpl in Hts.
    rewrite Hts. by rewrite fmap_reverse, reverse_involutive. }
  cbn [mbind option_bind]. destruct (data_release (staticData g1) (machine_world e)) as [[released d] w].
  assert (stocked (tasks g1) (gpu_infra e)) as Hst1.
  { destruct Hst as [Hr Hall]. split; [done|]. intros t Ht.
    assert (resources t ∈ resources <$> tasks g) as (t' & -> & Ht')%list_elem_of_fmap
      by (rewrite <-Hres; by apply list_elem_of_fmap_2). by apply Hall. }
  cbn -[unloadTasks destructTasks freeAtoms].
  destruct (unloadTasks_run (tasks g1) (gpu_infra e) w Hst1) as (ok & ts & infra & w1 & -> & Hr1 & Hkept & Hres1).
  cbn [mbind option_bind].
  destruct (destructTasks_run ts infra w1) as (infra2 & w2 & -> & Hr2 & _).
  { split; [done|]. intros t Ht.
    assert (resources t ∈ resources <$> tasks g1) as (t' & -> & Ht')%list_elem_of_fmap
      by (rewrite <-Hres1; by apply list_elem_of_fmap_2). apply Hkept. by apply Hst1. }
  cbn [mbind option_bind]. eexists _, _, _. split; [done|]. by split_and!.
Qed.

(** What a setup has made so far, whatever failed: tasks that are not started, frames
    of its own and an owner without accesses; nobody else's objects are touched. *)
Record undoable (e0 : Surroundings) (g : DummyGraph) (e : Surroundings) : Prop := {
  undo_stocked : stocked (tasks g) (gpu_infra e);
  undo_tasks : tidy (gpu_infra e0) (tasks g) (gpu_infra e);
  undo_frames f : f ∉ warmupAtoms g ++ timedAtoms g → atoms e !! f = atoms e0 !! f;
  undo_new_frames f : f ∈ warmupAtoms g ++ timedAtoms g → atoms e0 !! f = None;
  undo_owner : coherent (mkOwner (staticData g) [] [] (machine_world e));
  undo_cycle : executionCycleStarted g = false;
}.

(** Everything of it is given back: no task and no frame is left, the cache is
    closed, the store of frames is what it was, and the registry's store of task
    resources too, but for resources that hold nothing. *)
Definition undone (e0 : Surroundings) (g : DummyGraph) (e : Surroundings) : Prop :=
  tasks g = [] ∧ warmupAtoms g = [] ∧ timedAtoms g = [] ∧ atoms e = atoms e0
  ∧ cache_initialized (gpuDataCache (staticData g)) = false
  ∧ ∀ u, task_store (gpu_infra e) !! u = task_store (gpu_infra e0) !! u
      ∨ task_store (gpu_infra e0) !! u = None ∧ ∃ r, task_store (gpu_infra e) !! u = Some r ∧ blank r.

Lemma freeAtoms_lookup frames store f :
  freeAtoms frames store !! f = if decide (f ∈ frames) then None else store !! f.
Proof.
  induction frames as [|f' frames IH]; unfold freeAtoms in *; cbn [foldr].
  { rewrite decide_False; [done|apply not_elem_of_nil]. }
  destruct (decide (f' = f)) as [->|Hne].
  - rewrite lookup_delete_eq, decide_True; [done|by left].
  - rewrite lookup_delete_ne, IH by done. destruct (decide (f ∈ frames)) as [Hin|Hout].
    + rewrite decide_True; [done|by right].
    + rewrite decide_False; [done|]. by intros [->|?]%elem_of_cons.
Qed.

Lemma unload_undoes e0 g e :
  undoable e0 g e →
  ∃ ok g' e', unloadOnNumaNode (g, e) = Some (ok, (g', e')) ∧ undone e0 g' e'
    ∧ registry (gpu_infra e') ∧ graph_initialized g' = graph_initialized g ∧ stopping g' = stopping g
    ∧ cancellation e' = cancellation e ∧ sink e' = sink e.
Proof using All.
  intros [Hst Htidy Hold Hnew Hco Hcycle]. unfold unloadOnNumaNode. rewrite Hcycle. cbn [mbind option_bind].
  destruct (data_release_result (staticData g) [] [] (machine_world e) Hco) as (rel & d & w & -> & _ & Hor).
  cbn -[unloadTasks destructTasks freeAtoms].
  destruct (unloadTasks_run (tasks g) (gpu_infra e) w Hst) as (un' & ts' & infra' & w1' & Hun' & Hr & _).
  destruct (unloadTasks_blank (gpu_infra e0) (tasks g) (gpu_infra e) w Hst Htidy)
    as (un & ts & infra & w1 & Hun & Hown & Hall).
  rewrite Hun in Hun'. injection Hun' as <- <- <- <-. rewrite Hun. cbn [mbind option_bind].
  rewrite destructTasks_unloaded by done. cbn [mbind option_bind]. eexists _, _, _. split; [done|].
  split; [|by split_and!]. split_and!; try done; simpl.
  - apply map_eq. intros f. rewrite freeAtoms_lookup. case_decide as Hf; [symmetry; by apply Hnew|by apply Hold].
  - destruct Hor as [(_ & _ & _ & Hout)|(_ & _ & (_ & Hd & _) & _)]; [by destruct Hout|apply Hd].
  - intros u. destruct (Hown u) as [_ Hout]. by apply Hout, not_elem_of_nil.
Qed.

(** ** The tasks *)

Lemma new_object_fresh {A} (store : gmap ptr A) :
  new_object store ≠ nullptr ∧ store !! new_object store = None.
Proof. apply (above_keys_fresh store). Qed.

Lemma kept_objects_trans infra infra1 infra2 :
  kept_objects infra infra1 → kept_objects infra1 infra2 → kept_objects infra infra2.
Proof. intros H1' H2' u Hu. by apply H2', H1'. Qed.

Lemma stocked_kept ts infra infra' :
  stocked ts infra → registry infra' → kept_objects infra infra' → stocked ts infra'.
Proof. intros [_ Hall] Hr Hkept. split; [done|]. intros t Ht. by apply Hkept, Hall. Qed.

Lemma stocked_resources ts ts' infra :
  resources <$> ts' = resources <$> ts → stocked ts infra → stocked ts' infra.
Proof.
  intros Hres [Hr Hall]. split; [done|]. intros t Ht.
  assert (resources t ∈ resources <$> ts) as (t' & -> & Ht')%list_elem_of_fmap
    by (rewrite <-Hres; by apply list_elem_of_fmap_2). by apply Hall.
Qed.

(** The objects of a new task. *)
Lemma new_task_stocked ts infra t :
  stocked ts infra → resources t = new_object (task_store infra) →
  let infra' := infra <| task_store := <[new_object (task_store infra) := TaskGpuResources_default]> (task_store infra) |> in
  stocked (ts ++ [t]) infra' ∧ kept_objects infra infra'.
Proof.
  intros [Hr Hall] Ht infra'. destruct (new_object_fresh (task_store infra)) as [Hnull Hnone].
  assert (kept_objects infra infra') as Hkept by (intros u Hu; apply lookup_insert_is_Some'; by right).
  split; [|done]. split; [by apply new_task_registry|].
  intros u [Hu| ->%list_elem_of_singleton]%elem_of_app; [by apply Hkept, Hall|].
  rewrite Ht. apply lookup_insert_is_Some'. by left.
Qed.

(** What the making of the tasks changes. *)
Definition made_tasks (g g' : DummyGraph) : Prop :=
  ∃ r ts, g' = g <| graphRegistry := r |> <| tasks := ts |>.
Definition on_machine (e e' : Surroundings) : Prop :=
  ∃ infra w, e' = e <| gpu_infra := infra |> <| machine_world := w |>.

Lemma registerParameters_result t r ok t' r' :
  registerParameters t r = (ok, t', r') →
  resources t' = resources t ∧ algoRuntime t' = algoRuntime t ∧ (ok = false → t' = t) ∧ (unstarted t → unstarted t').
Proof. unfold registerParameters. repeat case_match; intros [= <- <- <-]; by split_and!. Qed.

(** A task that is destroyed before it was started gives everything back. *)
Lemma task_destruct_blank base own t infra w :
  registry infra → is_Some (task_store infra !! resources t) → unstarted t → holds_only base infra (resources t :: own) →
  ∃ infra' w', task_destruct t infra w = Some (infra', w') ∧ holds_only base infra' own.
Proof.
  intros Hr [r Ht] [Hs Hu] Hown. unfold task_destruct, lifecycle_eqb. rewrite bool_decide_eq_false_2 by done.
  destruct (task_unload_run t infra w r Hr Ht) as (ok & t' & infra1 & w1 & -> & _ & _ & Hgo). cbn [mbind option_bind].
  destruct (Hgo Hs Hu) as ((r' & Hr' & Hblank) & Honly & _). eexists _, _. split; [done|].
  eapply holds_only_drop; [|exact Hr'|exact Hblank]. eapply holds_only_touch; [exact Hown|exact Honly|by left].
Qed.

Lemma makeTasks_run base n taskId g e :
  stocked (tasks g) (gpu_infra e) → tidy base (tasks g) (gpu_infra e) → (∀ t, t ∈ tasks g → algoRuntime t = config_runtime (config g)) →
  ∃ ok g' e', makeTasks n taskId g e = Some (ok, g', e') ∧ made_tasks g g' ∧ on_machine e e'
    ∧ stocked (tasks g') (gpu_infra e') ∧ tidy base (tasks g') (gpu_infra e')
    ∧ (∀ t, t ∈ tasks g' → algoRuntime t = config_runtime (config g))
    ∧ (ok = true → length (tasks g') = (length (tasks g) + n)%nat
         ∧ context_store (gpu_infra e') = context_store (gpu_infra e)).
Proof.
  revert taskId g e. induction n as [|n IH]; intros taskId g e Hst Htidy Hrt; cbn [makeTasks].
  { exists true, g, e. split; [done|]. split; [by exists (graphRegistry g), (tasks g); destruct g|].
    split; [by exists (gpu_infra e), (machine_world e); destruct e|]. do 3 (split; [done|]). intros _. split; [lia|done]. }
  destruct (host_alloc 1 (machine_world e)) as [[] w]; cbn [negb].
  2: { eexists _, _, _. split; [done|]. split; [by exists (graphRegistry g), (tasks g); destruct g|].
       split; [by exists (gpu_infra e), w; destruct e|]. by split. }
  cbn [gpu_infra set_field set_machine_world machine_world].
  destruct (registerParameters _ _) as [[ok t] r] eqn:Hreg.
  destruct (registerParameters_result _ _ _ _ _ Hreg) as (Hres & Halgo & Hsame & Hun). simpl in Hres, Halgo.
  specialize (Hun ltac:(done)).
  destruct (new_task_stocked (tasks g) (gpu_infra e) t Hst Hres) as [Hst' Hkept].
  destruct Htidy as [Hall Hown].
  pose proof (holds_only_new _ _ _ (new_object (task_store (gpu_infra e))) TaskGpuResources_default Hown
    (proj2 (new_object_fresh _))) as Hown'.
  assert (new_object (task_store (gpu_infra e)) :: (resources <$> tasks g) = resources t :: (resources <$> tasks g))
    as Hcons by (by rewrite Hres). rewrite Hcons in Hown'.
  destruct ok; cbn [negb].
  - destruct (IH (taskId + 1)%Z (g <| graphRegistry := r |> <| tasks := tasks g ++ [t] |>)
      (e <| gpu_infra := (gpu_infra e) <| task_store :=
           <[new_object (task_store (gpu_infra e)) := TaskGpuResources_default]> (task_store (gpu_infra e)) |> |>
         <| machine_world := w |>)) as (ok & g' & e' & Hrun & (r' & ts & ->) & (infra & w' & ->) & ? & ? & ? & Hok).
    { exact Hst'. }
    { split; simpl; [apply Forall_app; split; [done|by apply Forall_singleton]|].
      eapply holds_only_perm; [|exact Hown']. intros u. rewrite fmap_app. simpl. rewrite elem_of_app, elem_of_cons.
      rewrite list_elem_of_singleton. naive_solver. }
    { simpl. intros u [Hu| ->%list_elem_of_singleton]%elem_of_app; [by apply Hrt|done]. }
    eexists ok, _, _. split; [exact Hrun|]. split; [by exists r', ts|]. split; [by exists infra, w'|].
    do 3 (split; [done|]). intros Htrue. destruct (Hok Htrue) as [Hlen Hctx].
    simpl in *. rewrite length_app in Hlen. simpl in Hlen. split; [lia|done].
  - match goal with |- context [task_destruct t ?i ?w0] =>
      destruct (destructTasks_run [t] i w0) as (infra & w' & Hrun & Hr & Hkept');
        [|destruct (task_destruct_blank base (resources <$> tasks g) t i w0) as (infra2 & w2 & Hrun2 & Hown2)] end.
    { split; [apply Hst'|]. intros u ->%list_elem_of_singleton. apply Hst'. apply elem_of_app. right. by left. }
    { apply Hst'. }
    { apply Hst'. apply elem_of_app. right. by left. }
    { done. }
    { exact Hown'. }
    cbn [destructTasks] in Hrun. destruct (task_destruct t _ _) as [[infra1 w1]|]; [|done].
    cbn [mbind option_bind] in *. injection Hrun as -> ->. injection Hrun2 as -> ->.
    eexists false, _, _. split; [done|]. split; [by exists r, (tasks g); destruct g|].
    split; [by exists infra2, w2; destruct e|]. split; [|split; [by split|by split]].
    simpl. apply (stocked_kept _ (gpu_infra e)); [done..|]. by eapply kept_objects_trans.
Qed.

(** Every context can number [n] more tasks. *)
Definition room (n : N) (infra : GpuInfra) : Prop :=
  ∀ c x, context_store infra !! c = Some x → vsize (taskResources x) + n ≤ 2147483648.

Lemma room_slots n infra : room n infra → 0 < n → slots infra.
Proof. intros Hroom Hn c x Hx. specialize (Hroom c x Hx). destruct (freeResourceId_spec (taskResources x)). lia. Qed.

Lemma room_grown n infra infra' : room (n + 1) infra → grown 1 infra infra' → room n infra'.
Proof. intros Hroom Hgrown c x' Hx. destruct (Hgrown c x' Hx) as (x & Hx' & ?). specialize (Hroom c x Hx'). lia. Qed.

Lemma touched_kept (t : ptr) k infra infra' :
  touched t k infra infra' → is_Some (task_store infra' !! t) → kept_objects infra infra'.
Proof.
  intros [_ Honly _] Ht u Hu. destruct (decide (u = t)) as [->|Hne]; [done|]. by rewrite Honly.
Qed.

Lemma task_load_keeps r t infra w :
  registry infra → is_Some (task_store infra !! resources t) → slots infra →
  ∃ ok t' infra' w', task_load r t infra w = Some (ok, t', infra', w') ∧ registry infra'
    ∧ kept_objects infra infra' ∧ grown 1 infra infra' ∧ resources t' = resources t
    ∧ only (resources t) infra infra' ∧ (unstarted t → unstarted t')
    ∧ (ok = true → validRuntime (algoRuntime t) = Some true ∧ task_state t' = Loaded).
Proof.
  intros Hr [x Hx] Hslots.
  destruct (task_load_run r t infra w x Hr Hx Hslots) as [(_ & _ & Hvalid & Hdone)|[Hrun|Hundone]].
  - destruct Hdone as (t' & infra' & w' & x' & -> & Htouch & Hloaded & ? & _ & _ & Hx' & _).
    exists true, t', infra', w'. split; [done|]. split; [apply Htouch|]. split; [by eapply touched_kept|].
    split; [apply Htouch|]. split; [done|]. split; [apply Htouch|]. split; [|done]. unfold unstarted. by rewrite Hloaded.
  - rewrite Hrun. eexists _, _, _, _. split; [done|]. split; [done|]. split; [apply kept_objects_refl|].
    split; [|done]. apply (touched_weaken 0 0 1); [by apply touched_refl|lia].
  - destruct Hundone as (t' & infra' & w' & x' & -> & Htouch & Hfailed & _ & ? & Hx' & _).
    exists false, t', infra', w'. split; [done|]. split; [apply Htouch|]. split; [by eapply touched_kept|].
    split; [apply Htouch|]. split; [done|]. split; [apply Htouch|]. split; [|done]. unfold unstarted. by rewrite Hfailed.
Qed.

Lemma loadTasks_run base own r ts infra w :
  stocked ts infra → room (vsize ts) infra → Forall unstarted ts → holds_only base infra own →
  (∀ t, t ∈ ts → resources t ∈ own) →
  ∃ ok ts' infra' w', loadTasks r ts infra w = Some (ok, ts', infra', w') ∧ registry infra'
    ∧ kept_objects infra infra' ∧ resources <$> ts' = resources <$> ts
    ∧ Forall unstarted ts' ∧ holds_only base infra' own
    ∧ (ok = true → ∀ t, t ∈ ts → validRuntime (algoRuntime t) = Some true)
    ∧ (ok = true → ∀ t, t ∈ ts' → task_state t = Loaded).
Proof.
  revert infra w. induction ts as [|t ts IH]; intros infra w [Hr Hall] Hroom Hun Hown Hin; cbn [loadTasks].
  { eexists true, [], _, _. split; [done|]. split; [done|]. split; [apply kept_objects_refl|].
    do 3 (split; [done|]). by split; intros _ t ?%elem_of_nil. }
  rewrite vsize_cons in Hroom. apply Forall_cons in Hun as [Hut Hun].
  destruct (task_load_keeps r t infra w Hr) as (ok & t' & infra1 & w1 & -> & Hr1 & Hkept & Hgrown & Hres & Honly & Hunt & Hok);
    [apply Hall; by left|apply (room_slots _ _ Hroom); lia|].
  cbn [mbind option_bind]. specialize (Hunt Hut).
  assert (holds_only base infra1 own) as Hown1 by (eapply holds_only_touch; [exact Hown|exact Honly|apply Hin; by left]).
  destruct ok; cbn [negb].
  2: { eexists false, _, _, _. split; [done|]. split; [done|]. split; [done|]. rewrite !fmap_cons, Hres.
       split; [done|]. split; [by constructor|]. by split. }
  destruct (Hok eq_refl) as [Hvalid Hloaded].
  destruct (IH infra1 w1) as (ok & ts' & infra2 & w2 & -> & Hr2 & Hkept2 & Hres2 & Hun2 & Hown2 & Hv & Hl).
  { split; [done|]. intros u Hu. apply Hkept, Hall. by right. }
  { eapply room_grown; [|exact Hgrown]. intros c x Hx. specialize (Hroom c x Hx). lia. }
  { done. }
  { done. }
  { intros u Hu. apply Hin. by right. }
  cbn [mbind option_bind]. eexists _, _, _, _. split; [done|]. split; [done|].
  split; [by eapply kept_objects_trans|]. split; [by rewrite !fmap_cons, Hres, Hres2|].
  split; [by constructor|]. split; [done|].
  split; intros Htrue u [->|Hu]%elem_of_cons; auto.
Qed.

(** ** The frames *)

(** The frames at [frames] are new objects with consecutive ids from [first]. *)
Definition numbered_frames (store : gmap ptr FrameCpuAtom) (first : uint64) (frames : list ptr) : Prop :=
  ∀ i f, frames !! i = Some f →
    ∃ atom, store !! f = Some atom ∧ frameId (md_key (atom_metadata atom)) = first + N.of_nat i.

Lemma makeFrames_run n next runtime made e :
  isValidFactor (sizeFactor runtime) = true → next + N.of_nat n < two64 →
  ∃ ok new next' e', makeFrames n next runtime made e = Some (ok, made ++ new, next', e')
    ∧ (∃ store w, e' = e <| atoms := store |> <| machine_world := w |>)
    ∧ NoDup new ∧ (∀ f, f ∈ new → atoms e !! f = None) ∧ atoms e ⊆ atoms e'
    ∧ (∀ f, f ∉ new → atoms e' !! f = atoms e !! f)
    ∧ numbered_frames (atoms e') next new
    ∧ (ok = true → length new = n ∧ next' = next + N.of_nat n).
Proof.
  intros Hv. revert next made e. induction n as [|n IH]; intros next made e Hfit; cbn [makeFrames].
  { exists true, [], next, e. rewrite app_nil_r. split; [done|]. split; [by exists (atoms e), (machine_world e); destruct e|].
    split; [apply NoDup_nil_2|]. split; [by intros f ?%elem_of_nil|]. split; [done|]. split; [done|].
    split; [by intros i f Hi|]. intros _. split; [done|lia]. }
  destruct (host_alloc 1 (machine_world e)) as [[] w]; cbn [negb].
  2: { exists false, [], next. eexists. rewrite app_nil_r. split; [done|]. split; [by exists (atoms e), w; destruct e|].
       split; [apply NoDup_nil_2|]. split; [by intros f ?%elem_of_nil|]. split; [done|]. split; [done|].
       by split; [intros i f Hi|]. }
  destruct (FrameCpuAtom_construct_run (makeFrameMetadata next runtime) runtime Hv) as (atom & -> & Hmd).
  cbn [mbind option_bind atoms set_field set_machine_world].
  destruct (new_object_fresh (atoms e)) as [_ Hnone]. set (f := new_object (atoms e)) in *.
  rewrite inc64_small by (unfold two64 in *; lia).
  destruct (IH (next + 1) (made ++ [f]) (e <| machine_world := w |> <| atoms := <[f := atom]> (atoms e) |>))
    as (ok & new & next' & e' & Hrun & (store & w' & ->) & Hnd & Hnew & Hsub & Hsame & Hnum & Hok); [lia|].
  cbn in Hnew, Hsub, Hsame, Hnum, Hrun. rewrite Hrun. exists ok, (f :: new), next'. eexists.
  assert (<[f := atom]> (atoms e) !! f = Some atom) as Hf by apply lookup_insert_eq.
  split; [by rewrite <-app_assoc|]. split; [by exists store, w'|]. split; [|split; [|split; [|split; [|split]]]].
  - apply NoDup_cons. split; [|done]. intros Hin%Hnew. congruence.
  - intros f' [->|Hin%Hnew]%elem_of_cons; [done|]. destruct (decide (f' = f)) as [->|Hne]; [congruence|].
    by rewrite lookup_insert_ne in Hin.
  - etrans; [|exact Hsub]. by apply insert_subseteq.
  - intros f' [Hne Hf']%not_elem_of_cons. cbn. rewrite Hsame by done. by apply lookup_insert_ne.
  - intros [|i] f'; simpl.
    + intros [= <-]. exists atom. split; [by eapply lookup_weaken|]. rewrite Hmd. simpl. lia.
    + intros (atom' & ? & Hid)%Hnum. exists atom'. split; [done|]. rewrite Hid. lia.
  - intros Htrue. destruct (Hok Htrue) as [Hlen Hnext]. simpl. split; [lia|]. rewrite Hnext. lia.
Qed.

(** The widths of a configuration's members. *)
Record config_fits (c : GraphConfig) : Prop := {
  fits_threads : graphThreads c < two64;
  fits_bytes : runtime_inBytes (config_runtime c) < two64;
  fits_entries : config_gpuCacheEntries c < two64;
  fits_first : firstFrameId c < two64;
}.

Lemma plannedFrames_spec c gpus w t :
  firstFrameId c < two64 → plannedFrames c gpus = Some (w, t) →
  0 < gpus ∧ w = warmupFramesPerGpu c * gpus ∧ t = timedFramesPerGpu c * gpus ∧ firstFrameId c + w + t < two64.
Proof.
  intros Hfirst. unfold plannedFrames, multiplyFrameCount.
  destruct (N.eqb_spec gpus 0) as [|Hg]; [done|]. simpl orb. cbv iota. rewrite !product_over by lia.
  destruct (N.ltb_spec (warmupFramesPerGpu c * gpus) two64) as [Hw|]; [|done].
  destruct (N.ltb_spec (timedFramesPerGpu c * gpus) two64) as [Ht|]; [|done].
  cbn [negb mbind option_bind]. rewrite !mul64_small by done. rewrite sub64_max by done.
  destruct (N.ltb_spec (SIZE_MAX - timedFramesPerGpu c * gpus) (warmupFramesPerGpu c * gpus)) as [|Hsum]; [done|].
  rewrite add64_small by (unfold SIZE_MAX, two64 in *; lia).
  rewrite sub64_max by (unfold SIZE_MAX, two64 in *; lia).
  case_match eqn:Hall; [done|]. apply N.ltb_ge in Hall. intros [= <- <-].
  split; [lia|]. split; [done|]. split; [done|]. unfold SIZE_MAX, two64 in *. lia.
Qed.

(** The graph's frames, and its owner of static data, as [initialize] leaves them. *)
Record framed (c : GraphConfig) (gpus : N) (g : DummyGraph) (e : Surroundings) : Prop := {
  framed_count : vsize (warmupAtoms g) = warmupFramesPerGpu c * gpus
    ∧ vsize (timedAtoms g) = timedFramesPerGpu c * gpus
    ∧ firstFrameId c + vsize (warmupAtoms g ++ timedAtoms g) < two64;
  framed_NoDup : NoDup (warmupAtoms g ++ timedAtoms g);
  framed_ids : numbered_frames (atoms e) (firstFrameId c) (warmupAtoms g ++ timedAtoms g);
  framed_owner : data_initialized (staticData g) = true ∧ frameRuntime (staticData g) = config_runtime c;
}.

Lemma numbered_frames_app store first l l' :
  numbered_frames store first l → numbered_frames store (first + vsize l) l' →
  numbered_frames store first (l ++ l').
Proof.
  intros Hl Hl' i f [Hi|[Hle Hi]]%lookup_app_Some; [by apply Hl|].
  destruct (Hl' _ _ Hi) as (atom & ? & Hid). exists atom. split; [done|]. rewrite Hid. unfold vsize. lia.
Qed.

Lemma numbered_frames_mono store store' first l :
  store ⊆ store' → numbered_frames store first l → numbered_frames store' first l.
Proof.
  intros Hsub Hl i f (atom & Ha & Hid)%Hl. exists atom. split; [by eapply lookup_weaken|done].
Qed.

(** What the making of the frames changes. *)
Definition made_phases (g g' : DummyGraph) : Prop :=
  ∃ d ws ts, g' = g <| warmupAtoms := ws |> <| timedAtoms := ts |> <| staticData := d |>.
Definition on_frames (e e' : Surroundings) : Prop :=
  ∃ store w, e' = e <| atoms := store |> <| machine_world := w |>.

Lemma on_frames_refl e w : on_frames e (e <| machine_world := w |>).
Proof. by exists (atoms e), w; destruct e. Qed.

Lemma on_frames_trans e e1 e2 : on_frames e e1 → on_frames e1 e2 → on_frames e e2.
Proof. intros (? & ? & ->) (store & w & ->). by exists store, w. Qed.

Lemma made_phases_refl g : made_phases g g.
Proof. by exists (staticData g), (warmupAtoms g), (timedAtoms g); destruct g. Qed.

(** The graph's frames are new, and the only ones that are. *)
Definition own_frames (e0 : Surroundings) (g : DummyGraph) (e : Surroundings) : Prop :=
  (∀ f, f ∉ warmupAtoms g ++ timedAtoms g → atoms e !! f = atoms e0 !! f)
  ∧ ∀ f, f ∈ warmupAtoms g ++ timedAtoms g → atoms e0 !! f = None.

Lemma own_frames_none e g e' :
  warmupAtoms g = [] → timedAtoms g = [] → atoms e' = atoms e → own_frames e g e'.
Proof. intros Hw Ht He. unfold own_frames. rewrite Hw, Ht, He. split; [done|]. by intros f ?%elem_of_nil. Qed.

Lemma coherent_anywhere s lv sl w w' : coherent (mkOwner s lv sl w) → coherent (mkOwner s lv sl w').
Proof. intros Hco. split; apply Hco. Qed.

Lemma makePhases_run this gpus w t g e :
  this ≠ nullptr → staticData g = StaticData_default this → warmupAtoms g = [] → timedAtoms g = [] →
  registry (gpu_infra e) → config_fits (config g) →
  isValidFactor (sizeFactor (config_runtime (config g))) = true →
  plannedFrames (config g) gpus = Some (w, t) →
  ∃ ok g' e', makePhases w t g e = Some (ok, g', e') ∧ made_phases g g' ∧ on_frames e e'
    ∧ own_frames e g' e' ∧ coherent (mkOwner (staticData g') [] [] (machine_world e'))
    ∧ (ok = true → framed (config g) gpus g' e').
Proof using All.
  intros Hthis Hd Hwa Hta Hr Hc Hv Hplan.
  destruct (plannedFrames_spec _ _ _ _ (fits_first _ Hc) Hplan) as (Hg & Hw & Ht & Hsum).
  unfold makePhases. rewrite Hwa.
  assert (∀ w0, coherent (mkOwner (staticData g) [] [] w0)) as Hco by (intros w0; rewrite Hd; by apply start_coherent).
  assert (∀ w0, own_frames e g (e <| machine_world := w0 |>)) as Hnone by (intros w0; by apply own_frames_none).
  destruct (host_alloc w (machine_world e)) as [[] w1]; cbn [negb].
  2: { eexists _, _, _. split; [done|]. split; [apply made_phases_refl|]. split; [apply on_frames_refl|]. by split. }
  destruct (host_alloc t w1) as [[] w2]; cbn [negb].
  2: { eexists _, _, _. split; [done|]. split; [apply made_phases_refl|]. split; [apply on_frames_refl|]. by split. }
  destruct (makeFrames_run (N.to_nat w) (firstFrameId (config g)) (config_runtime (config g)) [] (e <| machine_world := w2 |>) Hv)
    as (ok & ws & next & e1 & -> & Hon1 & Hnd1 & Hnew1 & Hsub1 & Hsame1 & Hnum1 & Hok1); [lia|]. cbn [mbind option_bind app].
  cbn in Hnew1, Hsub1, Hsame1.
  assert (on_frames e e1) as Hfr1 by (eapply on_frames_trans; [apply (on_frames_refl e w2)|done]).
  destruct ok; cbn [negb].
  2: { eexists _, _, _. split; [done|]. split; [by exists (staticData g), ws, (timedAtoms g); destruct g|].
       split; [done|]. split; [|by split; [apply Hco|]]. unfold own_frames. simpl. rewrite Hta, app_nil_r. by split. }
  destruct (Hok1 eq_refl) as [Hlen1 ->]. cbn [timedAtoms config set_field set_warmupAtoms]. rewrite Hta.
  destruct (makeFrames_run (N.to_nat t) (firstFrameId (config g) + N.of_nat (N.to_nat w)) (config_runtime (config g)) [] e1 Hv)
    as (ok & ts & next' & e2 & -> & Hon2 & Hnd2 & Hnew2 & Hsub2 & Hsame2 & Hnum2 & Hok2); [lia|]. cbn [mbind option_bind app].
  assert (on_frames e e2) as Hfr2 by (by eapply on_frames_trans).
  assert (∀ f, f ∉ ws ++ ts → atoms e2 !! f = atoms e !! f) as Hold.
  { intros f Hf. rewrite Hsame2, Hsame1; [done|set_solver..]. }
  assert (∀ f, f ∈ ws ++ ts → atoms e !! f = None) as Hnew.
  { intros f [Hf|Hf]%elem_of_app; [by apply Hnew1|]. eapply lookup_weaken_None; [by apply Hnew2|done]. }
  destruct ok; cbn [negb].
  2: { eexists _, _, _. split; [done|]. split; [by exists (staticData g), ws, ts; destruct g|]. split; [done|].
       split; [by split|]. by split; [apply Hco|]. }
  destruct (Hok2 eq_refl) as [Hlen2 _].
  assert (gpu_infra e2 = gpu_infra e) as Hinfra by (by destruct Hfr2 as (? & ? & ->)).
  cbn [set_field staticData set_timedAtoms set_warmupAtoms]. rewrite Hd, Hinfra.
  destruct (data_init_result (staticDataConfig (config g)) (gpu_infra e) (StaticData_default this) [] [] (machine_world e2))
    as (ok & d & w3 & -> & Hcod & Hok & _); [by apply start_coherent|done| |].
  { split_and!; [apply Hc|apply Hc|done|done]. }
  cbn [mbind option_bind]. eexists _, _, _. split; [done|]. split; [by exists d, ws, ts|].
  split; [by eapply on_frames_trans; [|apply on_frames_refl]|]. split; [by split|]. split; [exact Hcod|]. intros Htrue.
  destruct (Hok Htrue) as (_ & _ & Hrt & Hon & _).
  split; simpl.
  - unfold vsize. rewrite length_app. split_and!; lia.
  - apply NoDup_app. split; [done|]. split; [|done]. intros f Hf Hf'%Hnew2.
    apply list_elem_of_lookup in Hf as [i (atom & ? & _)%Hnum1]. congruence.
  - apply numbered_frames_app; [by eapply numbered_frames_mono|]. unfold vsize. by rewrite Hlen1.
  - done.
Qed.

(** ** The setup *)

(** What [initialize] changes before it starts the threads. *)
Definition with_setup (g : DummyGraph) (c : GraphConfig) (ids : list Z) (r : ParameterRegistry) (s : ParameterSnapshot)
    (ts : list DummyTask) (d : StaticData) (warm timed : list ptr) (free : list N) : DummyGraph :=
  mkGraph c ids r s ts d warm timed (workCondition g) (phaseCondition g) (startupCondition g)
    (readyFrames g) free (phaseGate g) (readyWorkers g) (phaseTotal g) (phaseTerminal g)
    (inFlight g) (lastMaxInFlight g) (workerStartupFailed g) (warmupSubmitted g)
    (timedSubmitted g) (phaseActive g) (phaseSucceeded g) (graph_initialized g)
    (executionCycleStarted g) (executionCycleStopped g) (stopping g).
Definition set_up_from (g g' : DummyGraph) : Prop :=
  ∃ r s ts d warm timed, g' = with_setup g (config g) (gpuIds g) r s ts d warm timed (freeTasks g).
Definition surrounded (e e' : Surroundings) : Prop :=
  ∃ store infra w, e' = mkSurroundings store (cancellation e) (sink e) (gates_released e) infra w.

(** A graph whose setup has succeeded, except for its threads. *)
Record established (c : GraphConfig) (gpus : N) (g : DummyGraph) (e : Surroundings) : Prop := {
  established_tasks : vsize (tasks g) = taskInstancesPerGpu c * gpus
    ∧ ∀ t, t ∈ tasks g → task_state t = Loaded;
  established_frames : framed c gpus g e;
}.

Lemma surrounded_refl e : surrounded e e.
Proof. exists (atoms e), (gpu_infra e), (machine_world e). by destruct e. Qed.

Lemma surrounded_trans e e1 e2 : surrounded e e1 → surrounded e1 e2 → surrounded e e2.
Proof. intros (? & ? & ? & ->) (store & infra & w & ->). by exists store, infra, w. Qed.

Lemma on_machine_surrounded e e' : on_machine e e' → surrounded e e'.
Proof. intros (infra & w & ->). by exists (atoms e), infra, w. Qed.

Lemma on_frames_surrounded e e' : on_frames e e' → surrounded e e'.
Proof. intros (store & w & ->). by exists store, (gpu_infra e), w. Qed.

Lemma on_world_surrounded e w : surrounded e (e <| machine_world := w |>).
Proof. by exists (atoms e), (gpu_infra e), w. Qed.

Lemma set_up_from_refl g : set_up_from g g.
Proof.
  exists (graphRegistry g), (graphSnapshot g), (tasks g), (staticData g), (warmupAtoms g), (timedAtoms g). by destruct g.
Qed.

Lemma set_up_from_trans g g1 g2 : set_up_from g g1 → set_up_from g1 g2 → set_up_from g g2.
Proof. intros (? & ? & ? & ? & ? & ? & ->) (r & s & ts & d & ws & us & ->). by exists r, s, ts, d, ws, us. Qed.

Lemma made_tasks_set_up g g' : made_tasks g g' → set_up_from g g'.
Proof. intros (r & ts & ->). by exists r, (graphSnapshot g), ts, (staticData g), (warmupAtoms g), (timedAtoms g). Qed.

Lemma made_phases_set_up g g' : made_phases g g' → set_up_from g g'.
Proof. intros (d & ws & ts & ->). by exists (graphRegistry g), (graphSnapshot g), (tasks g), d, ws, ts. Qed.

(** The graph as it was constructed, around an owner at [this]. *)
Definition unused (this : ptr) (g : DummyGraph) : Prop :=
  tasks g = [] ∧ staticData g = StaticData_default this ∧ warmupAtoms g = [] ∧ timedAtoms g = [].

(** What [initializeOnNumaNode] leaves, whatever fails. *)
Definition sets_up (g : DummyGraph) (e : Surroundings) (r : option (bool * (DummyGraph * Surroundings))) : Prop :=
  ∃ ok g' e', r = Some (ok, (g', e')) ∧ set_up_from g g' ∧ surrounded e e' ∧ undoable e g' e'
    ∧ (ok = true → established (config g) (vsize (gpuIds g)) g' e').

Lemma sets_up_failed g e g' e' :
  set_up_from g g' → surrounded e e' → undoable e g' e' → sets_up g e (Some (false, (g', e'))).
Proof. intros. by exists false, g', e'. Qed.

(** The frames, once the tasks are loaded. *)
Lemma sets_up_frames this w t g e g3 e2 :
  this ≠ nullptr → unused this g → set_up_from g g3 → surrounded e e2 → staticData g3 = staticData g →
  warmupAtoms g3 = [] → timedAtoms g3 = [] → config_fits (config g) → undoable e g3 e2 → atoms e2 = atoms e →
  isValidFactor (sizeFactor (config_runtime (config g))) = true →
  plannedFrames (config g) (vsize (gpuIds g)) = Some (w, t) →
  vsize (tasks g3) = taskInstancesPerGpu (config g) * vsize (gpuIds g) →
  (∀ u, u ∈ tasks g3 → task_state u = Loaded) →
  sets_up g e ('(ok, g, e) ← makePhases w t g3 e2; Some (ok : bool, (g, e))).
Proof using All.
  intros Hthis (_ & Hd & _) Hg He Hd3 Hw Ht Hc Hundo Hatoms Hv Hplan Hcount Hloaded.
  assert (config g3 = config g) as Hc3 by (by destruct Hg as (? & ? & ? & ? & ? & ? & ->)).
  destruct (makePhases_run this (vsize (gpuIds g)) w t g3 e2)
    as (ok & g4 & e3 & -> & Hph & Hfr & [Hold Hnew] & Hco & Hok);
    [done|by rewrite Hd3|done|done|apply Hundo|by rewrite Hc3..|].
  cbn [mbind option_bind].
  exists ok, g4, e3. split; [done|]. split; [by eapply set_up_from_trans; [|apply made_phases_set_up]|].
  split; [by eapply surrounded_trans; [|apply on_frames_surrounded]|].
  assert (tasks g4 = tasks g3 ∧ executionCycleStarted g4 = executionCycleStarted g3 ∧ gpu_infra e3 = gpu_infra e2)
    as (Htasks & Hcycle & Hinf) by (destruct Hph as (? & ? & ? & ->); destruct Hfr as (? & ? & ->); done).
  split; [|intros Htrue].
  { destruct Hundo as [? ? _ _ _ ?]. split; rewrite ?Htasks, ?Hinf, ?Hcycle, <-?Hatoms; done. } rewrite Hc3 in Hok.
  split; [rewrite Htasks; by split|by apply Hok].
Qed.

Lemma initializeOnNumaNode_run this g e :
  this ≠ nullptr → unused this g → registry (gpu_infra e) → config_fits (config g) →
  taskInstancesPerGpu (config g) ≠ 0 → taskInstancesPerGpu (config g) * vsize (gpuIds g) < 2147483648 →
  room (taskInstancesPerGpu (config g) * vsize (gpuIds g)) (gpu_infra e) → executionCycleStarted g = false →
  sets_up g e (initializeOnNumaNode (g, e)).
Proof using All.
  intros Hthis (Hts & Hd & Hwa & Hta) Hr Hc Hper Hcount Hroom Hcycle. unfold initializeOnNumaNode.
  assert (∀ g' e', set_up_from g g' → staticData g' = staticData g → warmupAtoms g' = [] → timedAtoms g' = [] →
    atoms e' = atoms e → stocked (tasks g') (gpu_infra e') → tidy (gpu_infra e) (tasks g') (gpu_infra e') →
    undoable e g' e') as Hundo.
  { intros g' e' Hg' Hd' Hw' Ht' Ha' Hst' Htidy'. destruct (own_frames_none e g' e' Hw' Ht' Ha') as [? ?].
    split; [done..| |]; [rewrite Hd', Hd; by apply start_coherent|by destruct Hg' as (? & ? & ? & ? & ? & ? & ->)]. }
  assert (stocked (tasks g) (gpu_infra e) ∧ tidy (gpu_infra e) (tasks g) (gpu_infra e)) as [Hst Htidy].
  { rewrite Hts. split; [split; [done|]; by intros t ?%elem_of_nil|split; [done|apply holds_only_refl]]. }
  destruct (plannedFrames (config g) (vsize (gpuIds g))) as [[w t]|] eqn:Hplan.
  2: { apply sets_up_failed; [apply set_up_from_refl|apply surrounded_refl|]. by apply Hundo; [apply set_up_from_refl|..]. }
  destruct (plannedFrames_spec _ _ _ _ (fits_first _ Hc) Hplan) as (Hg & _).
  rewrite (mul64_small (taskInstancesPerGpu (config g))) by (unfold two64; lia).
  set (count := taskInstancesPerGpu (config g) * vsize (gpuIds g)) in *.
  destruct (host_alloc count (machine_world e)) as [[] w1]; cbn [negb].
  2: { apply sets_up_failed; [apply set_up_from_refl|apply on_world_surrounded|]. by apply Hundo; [apply set_up_from_refl|..]. }
  destruct (makeTasks_run (gpu_infra e) (N.to_nat count) 0 g (e <| machine_world := w1 |>)) as
    (ok & g1 & e1 & -> & Hmade & Hon1 & Hst1 & Htidy1 & Hrt1 & Hok1); [done|done|by rewrite Hts; intros ? ?%elem_of_nil|].
  cbn [mbind option_bind].
  assert (surrounded e e1) as He1 by (eapply surrounded_trans; [apply (on_world_surrounded e w1)|by apply on_machine_surrounded]).
  pose proof (made_tasks_set_up _ _ Hmade) as Hg1.
  assert (staticData g1 = staticData g ∧ warmupAtoms g1 = [] ∧ timedAtoms g1 = [] ∧ atoms e1 = atoms e)
    as (Hd1 & Hwa1 & Hta1 & Ha1) by (by destruct Hmade as (? & ? & ->); destruct Hon1 as (? & ? & ->)).
  destruct ok; cbn [negb]; [|by apply sets_up_failed, Hundo].
  destruct (Hok1 eq_refl) as [Hlen1 Hctx1]. rewrite Hts in Hlen1. cbn in Hlen1, Hctx1.
  destruct (sealParameters (config g1) (graphRegistry g1)) as [[sealed snap] reg].
  set (g2 := g1 <| graphRegistry := reg |> <| graphSnapshot := snap |>).
  assert (set_up_from g g2) as Hg2.
  { eapply set_up_from_trans; [exact Hg1|]. by exists reg, snap, (tasks g1), (staticData g1), (warmupAtoms g1), (timedAtoms g1). }
  destruct sealed; cbn [negb]; [|by apply sets_up_failed, Hundo].
  destruct (loadTasks_run (gpu_infra e) (resources <$> tasks g2) reg (tasks g2) (gpu_infra e1) (machine_world e1) Hst1)
    as (ok & ts & infra & w2 & -> & Hr2 & Hkept & Hres & Hun & Hown & Hvalid & Hloaded).
  { intros c x Hx. rewrite Hctx1 in Hx. specialize (Hroom c x Hx). unfold vsize at 2. simpl. rewrite Hlen1. lia. }
  { apply Htidy1. }
  { apply Htidy1. }
  { intros u Hu. by apply list_elem_of_fmap_2. }
  cbn [mbind option_bind].
  set (g3 := g2 <| tasks := ts |>). set (e2 := e1 <| gpu_infra := infra |> <| machine_world := w2 |>).
  assert (set_up_from g g3) as Hg3.
  { eapply set_up_from_trans; [exact Hg2|]. by exists reg, snap, ts, (staticData g1), (warmupAtoms g1), (timedAtoms g1). }
  assert (surrounded e e2) as He2 by (eapply surrounded_trans; [exact He1|]; by exists (atoms e1), infra, w2).
  assert (undoable e g3 e2) as Hundo3.
  { apply Hundo; try done.
    - apply (stocked_resources (tasks g1)); [done|]. by eapply stocked_kept.
    - split; [done|]. unfold g3. simpl. rewrite Hres. exact Hown. }
  destruct ok; cbn [negb]; [|by apply sets_up_failed].
  apply (sets_up_frames this); try done.
  - assert (∃ u, u ∈ tasks g2) as [u Hu].
    { simpl. destruct (tasks g1) as [|u us]; [simpl in Hlen1; lia|]. exists u. by left. }
    specialize (Hvalid eq_refl u Hu). rewrite (Hrt1 u Hu) in Hvalid. unfold validRuntime in Hvalid.
    by destruct (isValidFactor _).
  - fold count. unfold vsize. simpl.
    assert (length ts = length (tasks g1)) as -> by (by rewrite <-(length_fmap resources ts), Hres, length_fmap).
    rewrite Hlen1. lia.
  - by apply Hloaded.
Qed.

(** [initialize] up to its threads, on a graph just constructed: whatever fails,
    it is defined; where the threads may start, the graph is set up; where they may
    not, it is not initialized, and what was made is unloaded if a thread could be
    placed for that. *)
Definition setup_done (c : GraphConfig) (g0 g : DummyGraph) (e0 e : Surroundings) : Prop :=
  (∃ c' ids r s ts d warm timed, g = with_setup g0 c' ids r s ts d warm timed (N.of_nat <$> seq 0 (length ts))
     ∧ taskInstancesPerGpu c' = taskInstancesPerGpu c ∧ 0 < graphThreads c' < two64)
  ∧ surrounded e0 e ∧ undoable e0 g e ∧ tasks g ≠ [] ∧ established c 1 g e.

Definition setup_refused (unloadPlaced : bool) (g : DummyGraph) (e0 e : Surroundings) : Prop :=
  graph_initialized g = false ∧ sink e = sink e0
  ∧ (e = e0 ∧ undone e0 g e
     ∨ cancellation e = true ∧ if unloadPlaced then undone e0 g e else undoable e0 g e).

Lemma initialize_failed_run unloadPlaced g e e0 :
  undoable e0 g e → graph_initialized g = false → sink e = sink e0 →
  ∃ g' e', initialize_failed unloadPlaced g e = Some (false, g', e') ∧ setup_refused unloadPlaced g' e0 e'.
Proof using All.
  intros Hundo Hinit Hsink. unfold initialize_failed.
  assert (undoable e0 g (cancel e)) as Hundo' by (destruct Hundo; by split).
  destruct unloadPlaced; cbn [executor_run].
  - destruct (unload_undoes e0 g (cancel e) Hundo') as (ok & g' & e' & -> & Hun & _ & Hi & _ & Hc & Hs).
    cbn [mbind option_bind]. eexists _, _. split; [done|]. split; [congruence|]. split; [by rewrite Hs|]. by right.
  - eexists _, _. split; [done|]. split; [done|]. split; [done|]. by right.
Qed.

Lemma refused_unused this unloadPlaced g e :
  unused this g → graph_initialized g = false → setup_refused unloadPlaced g e e.
Proof.
  intros (Ht & Hd & Hw & Htm) ?. split; [done|]. split; [done|]. left. split; [done|].
  unfold undone. rewrite Hd. split_and!; try done. by left.
Qed.

Lemma established_threads n c gpus g e : established (set_graphThreads n c) gpus g e → established c gpus g e.
Proof. intros [? [? ? ? ?]]. by split; [|split]. Qed.

(** The threads a graph asks for, with one GPU. *)
Definition threaded (c : GraphConfig) : GraphConfig :=
  if graphThreads c =? 0 then set_graphThreads (taskInstancesPerGpu c) c else c.

Lemma threaded_fields c :
  taskInstancesPerGpu (threaded c) = taskInstancesPerGpu c
  ∧ ∀ g e, established (threaded c) 1 g e → established c 1 g e.
Proof. unfold threaded. case_match; [|done]. split; [done|]. intros g e. apply established_threads. Qed.

Lemma threaded_fits c : taskInstancesPerGpu c < two64 → config_fits c → config_fits (threaded c).
Proof. intros ? [? ? ? ?]. unfold threaded. case_match; by split. Qed.

(** The setup proper, and what follows it. *)
Lemma setup_threaded this setupPlaced unloadPlaced ids g e :
  this ≠ nullptr → unused this g → graph_initialized g = false → registry (gpu_infra e) → config_fits (config g) →
  taskInstancesPerGpu (config g) ≠ 0 → taskInstancesPerGpu (config g) < 2147483648 →
  room (taskInstancesPerGpu (config g)) (gpu_infra e) → vsize ids = 1 → executionCycleStarted g = false →
  let g1 := with_setup g (threaded (config g)) ids (graphRegistry g) (graphSnapshot g) (tasks g) (staticData g)
              (warmupAtoms g) (timedAtoms g) (freeTasks g) in
  ∃ ok g' e', ('(ok, (g, e)) ← executor_run setupPlaced initializeOnNumaNode (g1, e);
     if negb ok then initialize_failed unloadPlaced g e
     else
       let '(reserved, w) := host_alloc (vsize (tasks g)) (machine_world e) in
       let e := e <| machine_world := w |> in
       if negb reserved then initialize_failed unloadPlaced (notify_work (g <| stopping := true |>)) e
       else Some (true, g <| freeTasks := N.of_nat <$> seq 0 (length (tasks g)) |>, e)) = Some (ok, g', e')
    ∧ if ok : bool then setup_done (config g) g g' e e' else setup_refused unloadPlaced g' e e'.
Proof using All.
  intros Hthis Hun Hinit Hr Hc Hper Hmax Hroom Hids Hcycle g1. destruct (threaded_fields (config g)) as [Hcount Hest].
  assert (sets_up g1 e (Some (false, (g1, e)))) as Hidle.
  { apply sets_up_failed; [apply set_up_from_refl|apply surrounded_refl|]. destruct Hun as (Ht & Hd & Hw & Htm).
    destruct (own_frames_none e g1 e Hw Htm eq_refl) as [? ?]. split; [|split|done|done| |done]; simpl; rewrite ?Ht, ?Hd.
    - split; [done|]. by intros t ?%elem_of_nil.
    - done.
    - apply holds_only_refl.
    - by apply start_coherent. }
  assert (sets_up g1 e (executor_run setupPlaced initializeOnNumaNode (g1, e))) as (ok & g2 & e2 & -> & Hfrom & Hsur & Hst & Hok).
  { destruct setupPlaced; [|done]. apply (initializeOnNumaNode_run this); try done.
    - apply threaded_fits; [unfold two64; lia|done].
    - simpl. by rewrite Hcount.
    - simpl. rewrite Hcount, Hids. lia.
    - simpl. by rewrite Hcount, Hids, N.mul_1_r. }
  cbn [mbind option_bind]. destruct Hfrom as (r & sn & ts & d & ws & us & ->). destruct Hsur as (store & infra & w & ->).
  assert (∀ g' e', undoable e g' e' → graph_initialized g' = false → sink e' = sink e →
    ∃ ok g'' e'', initialize_failed unloadPlaced g' e' = Some (ok, g'', e'')
      ∧ if ok : bool then setup_done (config g) g g'' e e'' else setup_refused unloadPlaced g'' e e'') as Hfailed.
  { intros g' e' ? ? ?. destruct (initialize_failed_run unloadPlaced g' e' e) as (g'' & e'' & ? & ?); try done.
    by exists false, g'', e''. }
  destruct ok; cbn [negb]; [|by apply Hfailed].
  specialize (Hok eq_refl). simpl gpuIds in Hok. rewrite Hids in Hok.
  assert (∀ g' w', tasks g' = ts → staticData g' = d → warmupAtoms g' = ws → timedAtoms g' = us →
    executionCycleStarted g' = false →
    undoable e g' (mkSurroundings store (cancellation e) (sink e) (gates_released e) infra w')) as Hmoved.
  { intros g' w' Ht Hsd Hw Hu Hcy. destruct Hst as [Hstk Htd Hold Hnew Hco _]. simpl in *.
    split; rewrite ?Ht, ?Hsd, ?Hw, ?Hu; try done. by eapply coherent_anywhere. }
  destruct (host_alloc _ _) as [[] w']; cbn [negb]; [|by apply Hfailed; [apply Hmoved|..]].
  eexists true, _, _. split; [done|]. split; [|split; [by exists store, infra, w'|split; [by apply Hmoved|]]].
  - exists (threaded (config g)), ids, r, sn, ts, d, ws, us. split; [done|]. split; [done|].
    unfold threaded. destruct (N.eqb_spec (graphThreads (config g)) 0); simpl; [unfold two64; lia|].
    pose proof (fits_threads _ Hc). lia.
  - apply Hest in Hok as [[Hlen Hl] [? ? ? ?]]. split; [|by split; [|split]].
    intros Hnil. simpl in *. rewrite Hnil in Hlen. unfold vsize in Hlen. simpl in Hlen. lia.
Qed.

Lemma initialize_setup_run this resolvePlaced setupPlaced unloadPlaced g e :
  this ≠ nullptr → unused this g → graph_initialized g = false → registry (gpu_infra e) → config_fits (config g) →
  room (taskInstancesPerGpu (config g)) (gpu_infra e) → executionCycleStarted g = false →
  ∃ ok g' e', initialize_setup resolvePlaced setupPlaced unloadPlaced g e = Some (ok, g', e')
    ∧ if ok : bool then setup_done (config g) g g' e e' else setup_refused unloadPlaced g' e e'.
Proof using All.
  intros Hthis Hun Hinit Hr Hc Hroom Hcycle. unfold initialize_setup. rewrite Hinit. simpl orb.
  destruct (N.eqb_spec (taskInstancesPerGpu (config g)) 0) as [|Hper].
  { exists false, g, e. split; [done|]. by eapply refused_unused. }
  simpl orb. destruct (_ || cancellation e).
  { exists false, g, e. split; [done|]. by eapply refused_unused. }
  destruct resolvePlaced; cbn [executor_run mbind option_bind negb].
  2: { exists false, g, e. split; [done|]. by eapply refused_unused. }
  unfold resolveGpus.
  destruct (gpuIdsForCurrentNumaNode_run (gpu_infra e) (machine_world e) Hr) as (ok & ids & -> & Hone).
  cbn [mbind option_bind]. destruct ok; cbn [negb].
  2: { eexists false, _, e. split; [done|]. by eapply refused_unused. }
  destruct (Hone eq_refl) as (gpu & -> & _).
  cbn [gpuIds config set_field set_gpuIds]. change (vsize [gpu]) with 1. cbn [N.eqb Pos.eqb].
  rewrite product_over, N.mul_1_r by lia.
  destruct (N.ltb_spec (taskInstancesPerGpu (config g)) two64) as [Hfit|]; cbn [negb].
  2: { eexists false, _, e. split; [done|]. by eapply refused_unused. }
  assert (mul64 (taskInstancesPerGpu (config g)) 1 = taskInstancesPerGpu (config g)) as ->
    by (by rewrite mul64_small, N.mul_1_r by lia).
  destruct (N.ltb_spec 2147483647 (taskInstancesPerGpu (config g))) as [|Hmax].
  { eexists false, _, e. split; [done|]. by eapply refused_unused. }
  destruct (setup_threaded this setupPlaced unloadPlaced [gpu] g e) as (ok & g' & e' & Hrun & Hres); try done; [lia|].
  exists ok, g', e'. split; [|done]. rewrite <-Hrun. unfold threaded. clear Hrun Hres.
  destruct (N.eqb_spec (graphThreads (config g)) 0) as [Hz|Hnz]; simpl.
  - rewrite (proj2 (N.eqb_neq _ _)) by done. done.
  - rewrite (proj2 (N.eqb_neq _ _)) by done. done.
Qed.

End setup.
