(* ===== verification/GraphService.v ===== *)
(** The graph from its initialization to its shutdown: the runs of its workers,
    its owner and everything around them, and what holds along every run. *)
From S2P Require Import Prelude.
From S2P Require Import Platform.
From S2P Require Import CacheTypes.
From S2P Require Import GpuTopology.
From S2P Require Import GpuContextManager.
From S2P Require Import RegistryInvariant.
From S2P Require Import StaticGpuData.
From S2P Require Import StaticData.
From S2P Require Import ParameterRegistry.
From S2P Require Import DemoTypes.
From S2P Require Import DeviceCalls.
From S2P Require Import DummyTask.
From S2P Require Import DummyGraph.
From S2P Require Import GraphScheduler.
From S2P Require Import GraphWorkers.
From S2P Require Import GraphOwner.
#[local] Open Scope N_scope.

#[local] Arguments tasks_held : simpl never.
#[local] Arguments frames_owed : simpl never.
#[local] Arguments unsubmitted : simpl never.

Section service.
Context `{IAlgo} `{!GpuDriver} `{!HostMemory}.
Implicit Types (s : Scheduler).

(** A graph that [initialize] has just put in service, with a sink of its own. *)
Record prepared (all : list ptr) s : Prop := {
  prep_fits : fits all s;
  prep_workers p : p ∈ workers s → p = AtTop ∨ p = Asleep;
  prep_frames : all = warmupAtoms (graph s) ++ timedAtoms (graph s)
    ∧ warmupSubmitted (graph s) = false ∧ timedSubmitted (graph s) = false;
  prep_atoms f : f ∈ all → is_Some (atoms (around s) !! f);
  prep_tasks : freeTasks (graph s) = N.of_nat <$> seq 0 (length (tasks (graph s)));
  prep_idle : readyFrames (graph s) = [] ∧ inFlight (graph s) = 0 ∧ phaseActive (graph s) = false
    ∧ phaseSucceeded (graph s) = true ∧ stopping (graph s) = false ∧ graph_initialized (graph s) = true
    ∧ lastMaxInFlight (graph s) = 0;
  prep_sink : sink (around s) = GraphSink_default;
  prep_equipped : equipped (tasks (graph s)) (gpu_infra (around s));
}.

Lemma held_by_nobody ws : (∀ p, p ∈ ws → p = AtTop ∨ p = Asleep) → tasks_held ws = [] ∧ frames_owed ws = [].
Proof.
  induction ws as [|p ws IH]; intros Hall; [done|]. rewrite tasks_held_cons, frames_owed_cons.
  destruct (Hall p) as [->| ->]; [by left|..]; simpl; apply IH; intros q Hq; apply Hall; by right.
Qed.

Lemma prepared_scheduled all s : prepared all s → scheduled all s.
Proof.
  intros [Hfit Hws (-> & Hw & Ht) Hatoms Hfree (Hr & Hi & Ha & Hs & Hstop & Hinit & _) Hk Heq].
  destruct (held_by_nobody _ Hws) as [Hheld Howed]. destruct s as [g e ws]. simpl in *.
  split; [|intros ?; simpl in *; congruence].
  split; simpl; rewrite ?Hheld, ?Howed, ?Hr, ?Hi; try done.
  - by rewrite Hfree, app_nil_r.
  - unfold delivered, unsubmitted. by rewrite Hk, Hw, Ht.
  - congruence.
  - intros _. split; congruence.
  - by intros [?|?]%Hws.
  - by intros p [->| ->]%Hws.
  - congruence.
  - intros _ _. rewrite Hk. split; [done|]. by intros f b ?%elem_of_nil.
  - by rewrite Hk.
  - by intros f t gate [?|?]%Hws.
Qed.

Definition ends (act : graph_action) : Prop := match act with EndShutdown _ => True | _ => False end.

Lemma after_notify_length g g' ws : length (after_notify g g' ws) = length ws.
Proof. unfold after_notify. case_match; [done|]. by rewrite length_fmap. Qed.

Lemma perform_keeps all s act :
  scheduled all s → fits all s → ¬ ends act →
  ∃ s', graph_perform s act = Some s' ∧ scheduled all s' ∧ length (workers s') = length (workers s).
Proof.
  intros [Hs Hun] (Hall & Hlen & Hnd & _) Hact. destruct s as [g e ws]. simpl in Hlen, Hun.
  assert (∀ ok g' e', arranged all (mkScheduler g' e' (after_notify g g' ws)) → unfinished g' →
    ∃ s', called (mkScheduler g e ws) (Some (ok, g', e')) = Some s' ∧ scheduled all s'
      ∧ length (workers s') = length (workers (mkScheduler g e ws))) as Hcalled.
  { intros ok g' e' Hs' Hun'. eexists. split; [done|]. split; [done|]. apply after_notify_length. }
  assert (∀ ok g' e', same_schedule g g' → harmless e e' → workCondition g' = workCondition g →
    ∃ s', called (mkScheduler g e ws) (Some (ok, g', e')) = Some s' ∧ scheduled all s'
      ∧ length (workers s') = length (workers (mkScheduler g e ws))) as Hquiet.
  { intros ok g' e' Hg He Hw. apply Hcalled; [|by eapply unfinished_same].
    rewrite after_notify_same by done. by eapply arranged_same. }
  destruct act as [i outcome outputs cache w|i|gate| |placed|phase gate|placed ps|placed| |placed];
    cbn [graph_perform]; try done.
  - destruct (ws !! i) as [p|] eqn:Hp; [|by eexists].
    destruct (insert_others ws i p p Hp) as [Hperm _].
    assert (vsize (p :: delete i ws) < two64) as Hfit by (unfold vsize in *; by rewrite <-Hperm).
    destruct (step_keeps all outcome outputs cache w p g e (delete i ws)) as (p' & g' & e' & -> & Hs' & Hun');
      [by eapply arranged_perm|done..|]. cbn [mbind option_bind].
    assert (after_notify g g' ws !! i = Some (if workCondition g' =? workCondition g then p else awake p)) as Hp'.
    { unfold after_notify. case_match; [done|]. by rewrite list_lookup_fmap, Hp. }
    destruct (insert_others _ i _ p' Hp') as [_ Hperm']. eexists. split; [done|].
    split; [split; [|done]|simpl; by rewrite length_insert, after_notify_length].
    eapply arranged_perm; [|exact Hs']. rewrite Hperm'. f_equiv.
    unfold after_notify. case_match; [done|]. by rewrite !delete_take_drop, fmap_app, fmap_take, fmap_drop.
  - destruct (ws !! i) as [p|] eqn:Hp; [|by eexists].
    eexists. split; [done|]. split; [|simpl; by rewrite length_insert]. destruct (insert_others ws i p (awake p) Hp) as [Hperm Hperm'].
    split; [|done]. eapply arranged_perm; [by symmetry|].
    apply (arranged_perm _ _ _ _ _ Hperm) in Hs. destruct p; try exact Hs. by eapply step_idle.
  - eexists. split; [done|]. split; [|done]. split; [|done].
    eapply arranged_same; [apply same_schedule_refl| |exact Hs]. split; by try left.
  - eexists. split; [done|]. split; [|done]. split; [|done].
    eapply arranged_same; [apply same_schedule_refl|apply harmless_cancel|exact Hs].
  - destruct (quiet_start placed g e) as (ok & g' & e' & -> & ? & ? & ?). by apply Hquiet.
  - destruct (N.eqb_spec gate nullptr) as [|Hgate]; [by eexists|].
    destruct (startPhase_keeps all phase gate g e ws Hs Hun Hgate) as (ok & g' & e' & -> & ? & ? & _).
    by apply Hcalled.
  - destruct (quiet_parameters placed ps g e (sched_equipped _ _ Hs)) as (ok & g' & e' & -> & ? & ? & ?).
    by apply Hquiet.
  - destruct (quiet_stop placed g e) as (ok & g' & e' & -> & ? & ? & ?). by apply Hquiet.
  - destruct (shutdown_keeps all g e ws (length ws) Hs Hun Hall) as (ok & g' & e' & -> & ? & ? & _).
    by apply Hcalled.
Qed.

(** The states of a graph in service, up to the end of its shutdown. *)
Inductive in_service (all : list ptr) : Scheduler → Prop :=
  | service_begins s : prepared all s → in_service all s
  | service_goes_on s act s' :
      in_service all s → ¬ ends act → graph_perform s act = Some s' → in_service all s'.

Lemma in_service_scheduled all s : in_service all s → scheduled all s ∧ fits all s.
Proof.
  induction 1 as [s Hs|s act s' _ [IH Hf] Hact Hrun]; [split; [by apply prepared_scheduled|apply Hs]|].
  destruct (perform_keeps all s act IH Hf Hact) as (s'' & Hrun' & Hs' & Hlen). simplify_eq.
  split; [done|]. unfold fits, vsize. rewrite Hlen. split_and!; try apply Hf.
  destruct Hf as (_ & _ & _ & Hne). destruct (workers s); [done|]. by destruct (workers s').
Qed.

End service.
