(* ===== verification/GraphProgress.v ===== *)
(** Progress of the graph's workers: a measure that every operation decreases,
    apart from the ones that wait, and when some worker has an operation. *)
From S2P Require Import Prelude.
From S2P Require Import Platform.
From S2P Require Import CacheTypes.
From S2P Require Import GpuTopology.
From S2P Require Import GpuContextManager.
From S2P Require Import RegistryInvariant.
From S2P Require Import StaticGpuData.
From S2P Require Import StaticData.
From S2P Require Import ParameterRegistry.
From S2P Require Import DemoTypes.
From S2P Require Import DeviceCalls.
From S2P Require Import DummyTask.
From S2P Require Import DummyGraph.
From S2P Require Import GraphScheduler.
From S2P Require Import GraphWorkers.
From S2P Require Import GraphOwner.
From S2P Require Import GraphService.
#[local] Open Scope N_scope.

#[local] Arguments tasks_held : simpl never.
#[local] Arguments frames_owed : simpl never.
#[local] Arguments unsubmitted : simpl never.

Section progress.
Context `{IAlgo} `{!GpuDriver} `{!HostMemory}.
Implicit Types (g : DummyGraph) (e : Surroundings) (p : Worker) (ws : list Worker) (s : Scheduler).

(** ** What a worker leaves alone *)

Record steady g e g' e' : Prop := {
  steady_stopping : stopping g' = stopping g;
  steady_gates : gates_released e' = gates_released e;
  steady_phase : phaseActive g' = true → phaseActive g = true ∧ phaseGate g' = phaseGate g;
  steady_peak : lastMaxInFlight g' = lastMaxInFlight g ∨ lastMaxInFlight g' = inFlight g';
  steady_tasks : length (tasks g') = length (tasks g);
}.

Lemma steady_refl g e : steady g e g e.
Proof. split; auto. Qed.

Lemma steady_finish g e g' e' : steady g e g' e' → steady g e (finishPhaseIfCompleteLocked g') e'.
Proof. intros []. unfold finishPhaseIfCompleteLocked. case_match; split; simpl; auto. done. Qed.

Lemma cancelFrames_gates frames n e n' e' :
  cancelFrames frames n e = Some (n', e') → gates_released e' = gates_released e.
Proof.
  revert n e. induction frames as [|f fs IH]; intros n e; simpl; [by intros [= _ <-]|].
  unfold mark_frame, deliverFrameResult. destruct (atoms e !! f); simpl; [|done].
  rewrite lookup_insert_eq. simpl. by intros ->%IH.
Qed.

Lemma steady_cancel g0 e0 g e g' e' :
  steady g0 e0 g e → cancelReadyFramesLocked g e = Some (g', e') → steady g0 e0 g' e'.
Proof.
  intros [] Hrun. unfold cancelReadyFramesLocked in Hrun.
  destruct (cancelFrames _ _ _) as [[n e1]|] eqn:Hc; [|done]. simplify_eq/=.
  apply cancelFrames_gates in Hc. split; simpl; auto. congruence.
Qed.

Lemma worker_step_steady outcome outputs cache w p g e p' g' e' :
  worker_step outcome outputs cache w p g e = Some (p', g', e') → steady g e g' e'.
Proof.
  destruct p as [b| | |f t gate|f t|f t|f t b|f t b|f t b|f t b|]; cbn [worker_step]; intros Hrun.
  - unfold worker_register in Hrun. destruct b; simpl in Hrun; simplify_eq; split; auto.
  - revert Hrun. unfold worker_claim. case_match; [intros; simplify_eq; apply steady_refl|].
    case_match; [intros; simplify_eq; apply steady_refl|]. case_match.
    + destruct (cancelReadyFramesLocked g e) as [[g1 e1]|] eqn:Hc; [|done]. intros [= <- <- <-].
      apply steady_finish. by eapply steady_cancel; [apply steady_refl|].
    + destruct (head _); [|done]. destruct (back _); [|done]. intros [= <- <- <-]. split; simpl; auto. lia.
  - simplify_eq. apply steady_refl.
  - case_match; [done|]. case_match; simplify_eq; apply steady_refl.
  - simplify_eq. apply steady_refl.
  - case_match; [|simplify_eq; apply steady_refl]. destruct (vat _ _); [|done]. cbn [mbind option_bind] in Hrun.
    unfold execute_frame in Hrun. destruct (atoms e !! f); [|done]. simplify_eq/=. split; auto.
  - simplify_eq. destruct b; split; auto.
  - revert Hrun. case_match; unfold mark_frame; [|intros; simplify_eq/=; apply steady_refl].
    destruct (atoms e !! f); [|done]. intros; simplify_eq/=. split; auto.
  - unfold deliverFrameResult in Hrun. destruct (atoms e !! f); [|done]. simplify_eq/=. split; auto.
  - revert Hrun. unfold worker_return.
    set (g1 := g <| freeTasks := freeTasks g ++ [t] |> <| inFlight := dec64 (inFlight g) |>
                 <| phaseTerminal := inc64 (phaseTerminal g) |>).
    assert (steady g e g1 e) as H1' by (split; auto).
    assert (steady g e (g1 <| phaseSucceeded := false |>) e) as H2' by (split; auto).
    case_match.
    + destruct (cancelReadyFramesLocked _ _) as [[g2 e2]|] eqn:Hc; [|done]. intros [= <- <- <-].
      destruct (steady_finish g e g2 e2); [by eapply steady_cancel|]. by split.
    + intros [= <- <- <-]. destruct (steady_finish g e g1 e H1'). by split.
  - simplify_eq. apply steady_refl.
Qed.

(** ** The measure *)

#[local] Open Scope nat_scope.

(** How far a worker is from the end of its frame; [n] bounds the workers that
    the end of a frame wakes. *)
Definition rank (n : nat) p : nat :=
  match p with
  | AtGate _ _ _ => n + 8
  | Checking _ _ => n + 7
  | Executing _ _ => n + 6
  | Executed _ _ _ => n + 5
  | Reading _ _ _ => n + 4
  | Delivering _ _ _ => n + 3
  | Delivered _ _ _ => n + 2
  | Starting _ => 2
  | AtTop => 1
  | Asleep | Exited => 0
  end.

Definition phase_cost (n : nat) g : nat :=
  (n + 9) * length (readyFrames g) + (if phaseActive g then 1 else 0).

Definition progress_measure s : nat :=
  phase_cost (length (workers s)) (graph s) + sum_list_with (rank (length (workers s))) (workers s).

(** Does the worker's operation get it anywhere?  A worker whose gate is closed
    waits, and so does one that finds a cancelled phase whose last frames other
    workers still have: it asks again. *)
Definition productive g e p : bool :=
  match p with
  | AtGate _ _ gate => bool_decide (gate ∈ gates_released e)
  | AtTop => stopping g || negb (phaseActive g) || negb (cancellation e)
             || negb (vsize (readyFrames g) =? 0)%N || (inFlight g =? 0)%N
  | Asleep | Exited => false
  | _ => true
  end.

Lemma finish_cost n g : phase_cost n (finishPhaseIfCompleteLocked g) ≤ phase_cost n g.
Proof.
  unfold finishPhaseIfCompleteLocked, phase_cost. destruct (phaseActive g) eqn:Hact; simpl; [|by rewrite Hact].
  case_match; simpl; [|by rewrite Hact]. lia.
Qed.

Lemma top_cost n all g e ws p' g' e' :
  arranged all (mkScheduler g e (AtTop :: ws)) → productive g e AtTop = true →
  worker_claim g e = Some (p', g', e') →
  workCondition g' = workCondition g ∧ (phase_cost n g' + rank n p' < phase_cost n g + rank n AtTop)%nat.
Proof.
  intros Hs Hprod. unfold worker_claim.
  destruct (has_work g e) eqn:Hwork; cbn [negb]; [|intros [= <- <- <-]; simpl; split; [done|lia]].
  destruct (stopping g) eqn:Hstop; [intros [= <- <- <-]; simpl; split; [done|lia]|].
  rewrite has_work_spec in Hwork. destruct Hwork as [|[Hact _]]; [congruence|].
  destruct (sched_active _ _ Hs Hact) as (Htot & _). simpl in Htot.
  destruct (cancellation e) eqn:Hcan.
  - unfold cancelReadyFramesLocked. destruct (cancelFrames _ _ _) as [[n' e1]|] eqn:Hc; [|done].
    cbn [mbind option_bind]. intros [= <- <- <-]. split; [unfold finishPhaseIfCompleteLocked; by case_match|].
    simpl in Hprod. rewrite Hstop, Hact, Hcan in Hprod. simpl in Hprod.
    destruct (readyFrames g) as [|f fs] eqn:Hready.
    + simpl in Hc. injection Hc as <- <-. simpl in Hprod. unfold vsize in Htot. simpl in Htot.
      unfold finishPhaseIfCompleteLocked. simpl. rewrite Hact, Hprod. apply N.eqb_eq in Hprod. simpl.
      destruct (N.eqb_spec (phaseTerminal g) (phaseTotal g)); [|lia].
      unfold phase_cost. simpl. rewrite Hact, Hready. simpl. lia.
    + eapply Nat.le_lt_trans; [apply Nat.add_le_mono_r, finish_cost|]. unfold phase_cost. simpl.
      rewrite Hact, Hready. simpl. lia.
  - destruct (readyFrames g) as [|f fs] eqn:Hready; [done|]. destruct (back _); [|done].
    intros [= <- <- <-]. split; [done|]. unfold phase_cost. simpl. rewrite Hready. simpl. lia.
Qed.

Lemma cancelReady_cost n g e g' e' :
  cancelReadyFramesLocked g e = Some (g', e') → phase_cost n g' ≤ phase_cost n g.
Proof.
  unfold cancelReadyFramesLocked. destruct (cancelFrames _ _ _) as [[n' e1]|]; [|done].
  intros [= <- <-]. unfold phase_cost. simpl. lia.
Qed.

Lemma return_cost n task b g e p' g' e' :
  worker_return task b g e = Some (p', g', e') →
  p' = AtTop ∧ phase_cost n g' ≤ phase_cost n g.
Proof.
  unfold worker_return.
  set (g1 := g <| freeTasks := freeTasks g ++ [task] |> <| inFlight := dec64 (inFlight g) |>
                 <| phaseTerminal := inc64 (phaseTerminal g) |>).
  set (g1' := g1 <| phaseSucceeded := false |>).
  assert (phase_cost n g1 = phase_cost n g ∧ phase_cost n g1' = phase_cost n g) as [Hg1 Hg1'] by done.
  clearbody g1 g1'. intros Hrun.
  assert (∃ g2, phase_cost n g2 ≤ phase_cost n g ∧ p' = AtTop
    ∧ g' = notify_work (finishPhaseIfCompleteLocked g2)) as (g2 & Hle & -> & ->).
  { case_match; [|simplify_eq/=; exists g1; rewrite Hg1; auto].
    destruct (cancelReadyFramesLocked g1' e) as [[g2 e2]|] eqn:Hc; [|done]. simplify_eq/=.
    exists g2. split; [|done]. rewrite <-Hg1'. by eapply cancelReady_cost. }
  split; [done|]. eapply Nat.le_trans; [apply (finish_cost n)|]. done.
Qed.

Lemma awake_rank n ws : sum_list_with (rank n) (awake <$> ws) ≤ sum_list_with (rank n) ws + length ws.
Proof. induction ws as [|p ws IH]; csimpl; [done|]. destruct p; csimpl; lia. Qed.

Lemma after_notify_rank n g g' ws :
  sum_list_with (rank n) (after_notify g g' ws) ≤ sum_list_with (rank n) ws + length ws.
Proof. unfold after_notify. case_match; [lia|apply awake_rank]. Qed.

Lemma step_cost n all outcome outputs cache w p g e ws p' g' e' :
  arranged all (mkScheduler g e (p :: ws)) → productive g e p = true → length ws < n →
  worker_step outcome outputs cache w p g e = Some (p', g', e') →
  phase_cost n g' + rank n p' + sum_list_with (rank n) (after_notify g g' ws)
  < phase_cost n g + rank n p + sum_list_with (rank n) ws.
Proof.
  intros Hs Hprod Hn Hrun.
  assert (workCondition g' = workCondition g →
    phase_cost n g' + rank n p' < phase_cost n g + rank n p →
    phase_cost n g' + rank n p' + sum_list_with (rank n) (after_notify g g' ws)
    < phase_cost n g + rank n p + sum_list_with (rank n) ws) as Hquiet.
  { intros Hw ?. rewrite after_notify_same by done. lia. }
  pose proof (sched_running _ _ Hs p (list_elem_of_here _ _)) as Hv. simpl in Hv.
  destruct p as [b| | |f t gate|f t|f t|f t b|f t b|f t b|f t b|]; try done; cbn [worker_step] in Hrun;
    simpl in Hprod.
  - destruct (top_cost n all g e ws p' g' e') as [? ?]; try done. by apply Hquiet.
  - case_match; [done|]. rewrite Hprod in Hrun. simplify_eq. apply Hquiet; simpl; [done|lia].
  - simplify_eq. apply Hquiet; [done|]. case_match; simpl; lia.
  - case_match; [|simplify_eq; apply Hquiet; simpl; [done|lia]].
    destruct (vat _ _); [|done]. cbn [mbind option_bind] in Hrun.
    destruct (execute_frame _ _ _ _); [|done]. simplify_eq/=. apply Hquiet; [done|]. unfold phase_cost. simpl. lia.
  - simplify_eq. apply Hquiet; simpl; [done|lia].
  - destruct (if _ || _ then _ else _); [|done]. simplify_eq/=. apply Hquiet; simpl; [done|lia].
  - destruct (deliverFrameResult _ _); [|done]. simplify_eq/=. apply Hquiet; simpl; [done|lia].
  - destruct (return_cost n _ _ _ _ _ _ _ Hrun) as [-> ?].
    pose proof (after_notify_rank n g g' ws). simpl. lia.
Qed.

(** A worker's operation that is not waiting brings the system closer to rest. *)
Lemma perform_cost all s i p outcome outputs cache w s' :
  arranged all s → workers s !! i = Some p → productive (graph s) (around s) p = true →
  graph_perform s (WorkerStep i outcome outputs cache w) = Some s' →
  (progress_measure s' < progress_measure s)%nat.
Proof.
  destruct s as [g e ws]. intros Hs Hp Hprod. cbn [graph_perform]. simpl in Hp. rewrite Hp.
  destruct (insert_others ws i p p Hp) as [Hperm _].
  destruct (worker_step _ _ _ _ _ _ _) as [[[p' g'] e']|] eqn:Hrun; [|done].
  cbn [mbind option_bind]. intros [= <-].
  assert (after_notify g g' ws !! i = Some (if (workCondition g' =? workCondition g)%N then p else awake p)) as Hp'.
  { unfold after_notify. case_match; [done|]. by rewrite list_lookup_fmap, Hp. }
  destruct (insert_others _ i _ p' Hp') as [_ Hperm'].
  assert (delete i (after_notify g g' ws) = after_notify g g' (delete i ws)) as Hdel.
  { unfold after_notify. case_match; [done|]. by rewrite !delete_take_drop, fmap_app, fmap_take, fmap_drop. }
  rewrite Hdel in Hperm'. unfold progress_measure. simpl. rewrite length_insert, after_notify_length.
  assert (∀ n, sum_list_with (rank n) (<[i:=p']> (after_notify g g' ws))
    = sum_list_with (rank n) (p' :: after_notify g g' (delete i ws))) as ->
    by (intros; by apply sum_list_with_Permutation_proper).
  assert (∀ n, sum_list_with (rank n) ws = sum_list_with (rank n) (p :: delete i ws)) as ->
    by (intros; by apply sum_list_with_Permutation_proper).
  csimpl.
  apply (arranged_perm _ _ _ _ _ Hperm) in Hs.
  pose proof (step_cost (length ws) all outcome outputs cache w p g e (delete i ws) p' g' e' Hs Hprod) as Hcost.
  rewrite !Nat.add_assoc. apply Hcost; [|done].
  rewrite length_delete by (by rewrite Hp). apply lookup_lt_Some in Hp. lia.
Qed.

(** ** Somebody can always go on *)

Definition can_go_on s : Prop :=
  ∃ i p, workers s !! i = Some p ∧ productive (graph s) (around s) p = true.

Lemma claims_productive all s p :
  arranged all s → phaseGate (graph s) ∈ gates_released (around s) →
  p ∈ workers s → worker_claims p ≠ None → productive (graph s) (around s) p = true.
Proof.
  intros Hs Hgate Hp Hc. destruct p as [b| | |f t gate|f t|f t|f t b|f t b|f t b|f t b|]; try done.
  simpl. rewrite (sched_gate _ _ Hs f t gate Hp). by apply bool_decide_eq_true.
Qed.

Lemma active_goes_on all s :
  scheduled all s → fits all s → phaseActive (graph s) = true → stopping (graph s) = false →
  phaseGate (graph s) ∈ gates_released (around s) → can_go_on s.
Proof.
  intros [Hs Hun] (_ & _ & _ & Hne) Hact Hstop Hgate.
  destruct (decide (inFlight (graph s) = 0%N)) as [Hi|Hi].
  - assert (tasks_held (workers s) = []) as Hheld.
    { apply length_zero_iff_nil. pose proof (sched_inFlight _ _ Hs). lia. }
    destruct (Hun Hact Hstop) as [Hready|]; [|done].
    destruct (workers s) as [|p ws] eqn:Hws; [done|]. exists 0, p. rewrite Hws. split; [done|].
    assert (p ∈ workers s) as Hp by (rewrite Hws; by left).
    pose proof (sched_running _ _ Hs p Hp) as Hv.
    assert (worker_claims p = None) as Hnone by (apply (tasks_held_nil (p :: ws)); [done|by left]).
    destruct p; try done.
    + simpl. rewrite vsize_0, (bool_decide_eq_false_2 _ Hready). simpl. by rewrite orb_true_r.
    + destruct (sched_asleep _ _ Hs Hp) as [_ Ha]. destruct (Ha Hact) as [|Hfree]; [done|].
      pose proof (sched_tasks _ _ Hs) as Ht. rewrite Hfree, Hws, Hheld in Ht. simpl in Ht.
      apply Permutation_nil in Ht.
      destruct (sched_equipped _ _ Hs) as (_ & Hts & _). by destruct (tasks (graph s)).
    + pose proof (sched_exited _ _ Hs Hp). congruence.
  - destruct (tasks_held (workers s)) as [|t ts] eqn:Hheld.
    { pose proof (sched_inFlight _ _ Hs) as Hin. rewrite Hheld in Hin. done. }
    assert (t ∈ tasks_held (workers s)) as Ht by (rewrite Hheld; by left).
    apply list_elem_of_omap in Ht as (p & Hp & Hc). pose proof Hp as [i Hlook]%list_elem_of_lookup.
    exists i, p. split; [done|]. apply (claims_productive all); try done. by destruct (worker_claims p).
Qed.

Lemma stopping_goes_on all s :
  arranged all s → stopping (graph s) = true →
  (phaseActive (graph s) = true → phaseGate (graph s) ∈ gates_released (around s)) →
  (∀ p, p ∈ workers s → p = Exited) ∨ can_go_on s.
Proof.
  intros Hs Hstop Hgate.
  destruct (decide (Forall (λ p, is_exited p = true) (workers s))) as [Hall|Hsome].
  { left. rewrite Forall_forall in Hall. intros p Hp. specialize (Hall p Hp). by destruct p. }
  right. apply not_Forall_Exists, Exists_exists in Hsome as (p & Hp & Hne); [|apply _].
  pose proof Hp as [i Hlook]%list_elem_of_lookup. exists i, p. split; [done|].
  pose proof (sched_running _ _ Hs p Hp) as Hv.
  destruct (worker_claims p) as [[f t]|] eqn:Hc.
  - apply (claims_productive all); [done| |done|congruence]. apply Hgate.
    destruct (phaseActive (graph s)) eqn:Hact; [done|].
    destruct (sched_inactive _ _ Hs Hact) as [_ Hheld].
    pose proof (tasks_held_nil _ _ Hheld Hp). congruence.
  - destruct p; try done; [by simpl; rewrite Hstop| |by destruct Hne].
    destruct (sched_asleep _ _ Hs Hp). congruence.
Qed.

(** ** Runs of the workers *)

Inductive productive_run : nat → Scheduler → Scheduler → Prop :=
  | run_ends s : productive_run 0 s s
  | run_goes_on k s i p outcome outputs cache w s1 s2 :
      workers s !! i = Some p → productive (graph s) (around s) p = true →
      graph_perform s (WorkerStep i outcome outputs cache w) = Some s1 →
      productive_run k s1 s2 → productive_run (S k) s s2.

Lemma step_steady s i p outcome outputs cache w s1 :
  workers s !! i = Some p → graph_perform s (WorkerStep i outcome outputs cache w) = Some s1 →
  steady (graph s) (around s) (graph s1) (around s1).
Proof.
  destruct s as [g e ws]. simpl. intros ->.
  destruct (worker_step _ _ _ _ _ _ _) as [[[p' g'] e']|] eqn:Hrun; [|done].
  cbn [mbind option_bind]. intros [= <-]. by eapply worker_step_steady.
Qed.

Lemma perform_peak all s act s' :
  scheduled all s → fits all s → ¬ ends act → graph_perform s act = Some s' →
  peak_kept (graph s) (graph s').
Proof.
  intros [Hs Hun] (Hall & Hlen & Hnd & _) Hact Hrun. destruct s as [g e ws].
  assert (∀ r ok g' e', called (mkScheduler g e ws) r = Some s' → r = Some (ok, g', e') →
    peak_kept g g' → peak_kept g (graph s')) as Hcalled by (by intros r ok g' e' Hc -> ?; simplify_eq/=).
  destruct act as [i outcome outputs cache w|i|gate| |placed|phase gate|placed ps|placed| |placed];
    try done.
  - destruct (ws !! i) as [p|] eqn:Hp.
    + destruct (step_steady (mkScheduler g e ws) _ _ _ _ _ _ _ Hp Hrun). by split.
    + simpl in Hrun. rewrite Hp in Hrun. simplify_eq/=. apply peak_kept_refl.
  - simpl in Hrun. case_match; simplify_eq/=; apply peak_kept_refl.
  - simplify_eq/=. apply peak_kept_refl.
  - simplify_eq/=. apply peak_kept_refl.
  - destruct (quiet_start placed g e) as (ok & g' & e' & Hq & Hsame & _).
    eapply Hcalled; [exact Hrun|exact Hq|by apply peak_kept_same].
  - simpl in Hrun. case_match eqn:Hgate; [simplify_eq/=; apply peak_kept_refl|].
    apply N.eqb_neq in Hgate.
    destruct (startPhase_keeps all phase gate g e ws Hs Hun Hgate) as (ok & g' & e' & Hq & _ & _ & Hpk).
    by eapply Hcalled.
  - destruct (quiet_parameters placed ps g e (sched_equipped _ _ Hs)) as (ok & g' & e' & Hq & Hsame & _).
    eapply Hcalled; [exact Hrun|exact Hq|by apply peak_kept_same].
  - destruct (quiet_stop placed g e) as (ok & g' & e' & Hq & Hsame & _).
    eapply Hcalled; [exact Hrun|exact Hq|by apply peak_kept_same].
  - destruct (shutdown_keeps all g e ws (length ws) Hs Hun Hall) as (ok & g' & e' & Hq & _ & _ & Hpk & _).
    by eapply Hcalled.
Qed.

Lemma inFlight_bounds all s :
  arranged all s → (inFlight (graph s) ≤ vsize (tasks (graph s)))%N
  ∧ (inFlight (graph s) ≤ vsize (workers s))%N.
Proof.
  intros Hs. rewrite (sched_inFlight _ _ Hs). unfold vsize.
  pose proof (tasks_held_length (workers s)). pose proof (Permutation_length (sched_tasks _ _ Hs)) as Hp.
  rewrite length_app, length_fmap, length_seq in Hp. lia.
Qed.

Lemma peak_bounds all s :
  in_service all s → (lastMaxInFlight (graph s) ≤ vsize (tasks (graph s)))%N
  ∧ (lastMaxInFlight (graph s) ≤ vsize (workers s))%N.
Proof.
  induction 1 as [s Hs|s act s' Hin IH Hact Hrun].
  { destruct (prep_idle _ _ Hs) as (_ & _ & _ & _ & _ & _ & ->). unfold vsize. lia. }
  destruct (in_service_scheduled _ _ Hin) as [Hs Hf].
  destruct (perform_keeps _ _ _ Hs Hf Hact) as (s'' & Hrun' & [Hs' _] & Hlen). simplify_eq.
  destruct (perform_peak _ _ _ _ Hs Hf Hact Hrun) as [[-> | ->] Ht].
  - unfold vsize. by rewrite Ht, Hlen.
  - by apply (inFlight_bounds all).
Qed.

(** A run of the workers keeps the system in service, says nothing of shutdown
    and opens no gate, and it is not longer than the measure. *)
Lemma productive_run_keeps all k s s' :
  in_service all s → productive_run k s s' →
  in_service all s' ∧ stopping (graph s') = stopping (graph s)
  ∧ gates_released (around s') = gates_released (around s)
  ∧ (phaseActive (graph s') = true → phaseActive (graph s) = true ∧ phaseGate (graph s') = phaseGate (graph s))
  ∧ progress_measure s' + k ≤ progress_measure s.
Proof.
  intros Hs Hrun. induction Hrun as [s|k s i p outcome outputs cache w s1 s2 Hp Hprod Hstep _ IH].
  { split_and!; try done. lia. }
  assert (in_service all s1) as Hs1 by (eapply service_goes_on; [exact Hs| |exact Hstep]; by intros []).
  destruct (step_steady _ _ _ _ _ _ _ _ Hp Hstep) as [Hstop Hgates Hphase _ _].
  destruct (IH Hs1) as (? & ? & ? & Hphase' & ?).
  destruct (in_service_scheduled _ _ Hs) as [[Harr _] _].
  pose proof (perform_cost _ _ _ _ _ _ _ _ _ Harr Hp Hprod Hstep).
  split; [done|]. split; [congruence|]. split; [congruence|]. split; [|lia].
  intros Hact. destruct (Hphase' Hact) as [Hact1 Hg]. destruct (Hphase Hact1) as [? Hg1]. split; [done|]. by rewrite Hg, Hg1.
Qed.

Lemma rank_bound n ws : sum_list_with (rank n) ws ≤ length ws * (n + 8).
Proof. induction ws as [|p ws IH]; csimpl; [done|]. destruct p; simpl; lia. Qed.

Lemma measure_bound all s :
  arranged all s →
  progress_measure s ≤ (length (workers s) + 9) * (length all + length (workers s)) + 1.
Proof.
  intros Hs. unfold progress_measure, phase_cost. pose proof (rank_bound (length (workers s)) (workers s)).
  assert (length (readyFrames (graph s)) ≤ length all).
  { rewrite <-(sched_frames _ _ Hs), !length_app. lia. }
  assert ((length (workers s) + 9) * length (readyFrames (graph s)) ≤ (length (workers s) + 9) * length all)
    by (by apply Nat.mul_le_mono_l).
  destruct (phaseActive (graph s)); lia.
Qed.

End progress.
