(* ===== verification/GraphBehaviour.v ===== *)
(** What the graph promises to its owner and to the sink. *)
From S2P Require Import Prelude.
From S2P Require Import Platform.
From S2P Require Import CacheTypes.
From S2P Require Import GpuTopology.
From S2P Require Import GpuContextManager.
From S2P Require Import RegistryInvariant.
From S2P Require Import StaticGpuData.
From S2P Require Import StaticData.
From S2P Require Import ParameterRegistry.
From S2P Require Import DemoTypes.
From S2P Require Import DeviceCalls.
From S2P Require Import DummyTask.
From S2P Require Import DummyGraph.
From S2P Require Import GraphScheduler.
From S2P Require Import GraphWorkers.
From S2P Require Import GraphOwner.
From S2P Require Import GraphSetup.
From S2P Require Import GraphService.
From S2P Require Import GraphProgress.
#[local] Open Scope N_scope.

#[local] Arguments tasks_held : simpl never.
#[local] Arguments frames_owed : simpl never.
#[local] Arguments unsubmitted : simpl never.

Section behaviour.
Context `{IAlgo} `{!GpuDriver} `{!HostMemory}.
Implicit Types (s : Scheduler).

Lemma all_exited s : (∀ p, p ∈ workers s → p = Exited) → frames_owed (workers s) = [].
Proof.
  induction (workers s) as [|p ws IH]; intros Hall; [done|]. rewrite frames_owed_cons, (Hall p) by left.
  apply IH. intros q Hq. apply Hall. by right.
Qed.

Lemma exited_delivered all s :
  arranged all s → workers s ≠ [] → (∀ p, p ∈ workers s → p = Exited) → delivered (around s) ≡ₚ all.
Proof.
  intros Hs Hne Hall. destruct (sched_stopping _ _ Hs) as [Hr Hu].
  { apply (sched_exited _ _ Hs). destruct (workers s) as [|p ws]; [done|]. rewrite <-(Hall p); by left. }
  rewrite <-(sched_frames _ _ Hs), Hr, Hu, (all_exited s Hall). by rewrite !app_nil_r.
Qed.

(** C3.  Whatever the workers, the owner and everybody else do, in any order, is
    defined.  Every frame is in one place: delivered, queued, with one worker, or
    in a phase not submitted, so none is ever delivered twice; the sink's
    counters count the frames it got and those that failed.  Once the workers
    have returned every frame was delivered. *)
Theorem frames_are_delivered_once all s :
  in_service all s →
  (∀ act, ¬ ends act → ∃ s', graph_perform s act = Some s' ∧ in_service all s')
  ∧ delivered (around s) ++ readyFrames (graph s) ++ frames_owed (workers s) ++ unsubmitted (graph s) ≡ₚ all
  ∧ NoDup (delivered (around s))
  ∧ sink_count (sink (around s)) = vsize (delivered (around s))
  ∧ failureCount (sink (around s)) = vsize (filter (λ r, r.2 = false) (history (sink (around s))))
  ∧ ((∀ p, p ∈ workers s → p = Exited) → delivered (around s) ≡ₚ all).
Proof.
  intros Hin. destruct (in_service_scheduled _ _ Hin) as [Hs Hf].
  pose proof Hs as [Ha _]. pose proof Hf as (Hall & _ & Hnd & Hne).
  pose proof (sched_frames _ _ Ha) as Hfr. split.
  { intros act Hact. destruct (perform_keeps _ _ _ Hs Hf Hact) as (s' & Hrun & _).
    exists s'. split; [done|]. by apply (service_goes_on all s act). }
  split; [done|]. rewrite <-Hfr in Hnd. split; [by apply NoDup_app in Hnd as [? _]|].
  assert (vsize (history (sink (around s))) ≤ vsize all) as Hle.
  { unfold vsize. rewrite <-Hfr, length_app. unfold delivered. rewrite length_fmap. lia. }
  destruct (sched_counts _ _ Ha) as [Hc Hc']. unfold sink_count, failureCount. rewrite Hc, Hc'.
  unfold delivered. rewrite vsize_fmap.
  pose proof (length_filter (λ r : ptr * bool, r.2 = false) (history (sink (around s)))) as Hlf.
  split; [rewrite wrap64_small; [done|lia]|].
  split; [rewrite wrap64_small; [done|unfold vsize in *; lia]|]. by apply exited_delivered.
Qed.

(** C17.  A task a worker has checked out is no other worker's and not free, and it is
    one of the graph's; the count of frames in flight is the number of tasks
    checked out, and the peak it reports never exceeds the tasks or the workers. *)
Theorem tasks_are_exclusive all s :
  in_service all s →
  NoDup (freeTasks (graph s) ++ tasks_held (workers s))
  ∧ (∀ t, t ∈ freeTasks (graph s) ++ tasks_held (workers s) ↔ is_Some (vat (tasks (graph s)) t))
  ∧ inFlight (graph s) = vsize (tasks_held (workers s))
  ∧ inFlight (graph s) ≤ vsize (tasks (graph s))
  ∧ lastMaxInFlight (graph s) ≤ vsize (tasks (graph s))
  ∧ lastMaxInFlight (graph s) ≤ vsize (workers s).
Proof.
  intros Hin. destruct (in_service_scheduled _ _ Hin) as [[Ha _] _].
  destruct (peak_bounds _ _ Hin). destruct (inFlight_bounds _ _ Ha).
  split_and!; try done.
  - rewrite (sched_tasks _ _ Ha). apply NoDup_fmap; [apply _|apply NoDup_seq].
  - intros t. rewrite (sched_tasks _ _ Ha), list_elem_of_fmap, vat_is_Some. unfold vsize. split.
    + intros (n & -> & Hn%elem_of_seq). lia.
    + intros Ht. exists (N.to_nat t). rewrite N2Nat.id, elem_of_seq. split; [done|lia].
  - apply (sched_inFlight _ _ Ha).
Qed.

(** C18.  [waitForPhase] answers [true], before a shutdown, only when every frame
    submitted so far was delivered with success and no worker has anything left
    to do; it answers [false] only after a cancellation. *)
Theorem phase_results_are_true all s answer :
  in_service all s → stopping (graph s) = false → graph_initialized (graph s) = true →
  waitForPhase (graph s) (around s) = Some answer →
  readyFrames (graph s) = [] ∧ tasks_held (workers s) = []
  ∧ delivered (around s) ++ unsubmitted (graph s) ≡ₚ all
  ∧ answer = negb (cancellation (around s))
  ∧ (answer = true → ∀ f b, (f, b) ∈ history (sink (around s)) → b = true).
Proof.
  intros Hin Hstop Hinit. destruct (in_service_scheduled _ _ Hin) as [[Ha _] _].
  unfold waitForPhase. rewrite Hinit. cbn [negb].
  destruct (phaseActive (graph s)) eqn:Hact; [done|]. intros [= <-].
  destruct (sched_inactive _ _ Ha Hact) as [Hr Hh]. split; [done|]. split; [done|].
  assert (frames_owed (workers s) = []) as Ho.
  { apply elem_of_nil_inv. intros f (p & Hp & Ho)%list_elem_of_omap.
    pose proof (tasks_held_nil _ _ Hh Hp) as Hc. by destruct p. }
  split; [rewrite <-(sched_frames _ _ Ha), Hr, Ho; done|].
  destruct (cancellation (around s)) eqn:Hcan; simpl; [by rewrite andb_false_r|].
  destruct (sched_success _ _ Ha Hcan Hstop) as [-> Hok]. split; [done|]. by intros _.
Qed.

(** C5.  A phase whose gate is open always finishes: the workers' operations that do
    not merely wait are bounded, by at most nine more than the workers for every
    frame and worker, and while the phase is active some worker has one. *)
Theorem phases_finish all s k s' :
  in_service all s → phaseActive (graph s) = true → stopping (graph s) = false →
  phaseGate (graph s) ∈ gates_released (around s) → productive_run k s s' →
  (k ≤ (length (workers s) + 9) * (length all + length (workers s)) + 1)%nat
  ∧ (phaseActive (graph s') = true → can_go_on s').
Proof.
  intros Hin Hact Hstop Hgate Hrun. destruct (in_service_scheduled _ _ Hin) as [[Ha _] _].
  pose proof (measure_bound _ _ Ha) as Hb.
  destruct (productive_run_keeps _ _ _ _ Hin Hrun) as (Hin' & Hst & Hg & Hph & Hm).
  split; [lia|]. intros Hact'. destruct (Hph Hact') as [_ Hpg].
  destruct (in_service_scheduled _ _ Hin') as [Hs' Hf'].
  apply (active_goes_on all); try done; [congruence|]. by rewrite Hpg, Hg.
Qed.

(** The last part of the shutdown. *)
Definition shut_down (all : list ptr) (placed : bool) s : Prop :=
  ∃ s', graph_perform s (EndShutdown placed) = Some s' ∧ workers s' = []
    ∧ graph_initialized (graph s') = false ∧ phaseActive (graph s') = false ∧ readyFrames (graph s') = []
    ∧ delivered (around s') ≡ₚ all
    ∧ (placed = true → tasks (graph s') = [] ∧ warmupAtoms (graph s') = [] ∧ timedAtoms (graph s') = []).

Lemma shut_down_run all placed s :
  equipped (tasks (graph s)) (gpu_infra (around s)) → stopping (graph s) = true →
  (∀ p, p ∈ workers s → p = Exited) → delivered (around s) ≡ₚ all → shut_down all placed s.
Proof.
  intros (Hr & _ & Ht) Hstop Hex Hdel. destruct s as [g e ws]. simpl in *. unfold shut_down. cbn [graph_perform].
  assert (forallb is_exited ws = true) as -> by (apply forallb_forall; by intros p ->%list_elem_of_In%Hex).
  rewrite Hstop. cbn [andb]. unfold shutdown_end. destruct placed; cbn [executor_run].
  - destruct (unload_run g e (conj Hr Ht)) as (ok & g' & e' & -> & _ & ? & ? & ? & _ & _ & _ & Hsink).
    cbn [mbind option_bind]. eexists. split; [done|]. unfold delivered in *. simpl. by rewrite Hsink.
  - cbn [mbind option_bind]. eexists. by split.
Qed.

(** C14.  Shutdown ends: after its first step the workers' operations are bounded, and
    a worker has one as long as any has not returned, also where the caller
    never opened the phase's gate; when all have returned every frame was
    delivered, and the rest of the shutdown is defined, joins them, delivers
    nothing more and, if a thread can be placed to unload, leaves no task and no
    frame. *)
Theorem shutdown_joins_workers all s s1 k s' :
  in_service all s → graph_perform s BeginShutdown = Some s1 → productive_run k s1 s' →
  (k ≤ (length (workers s1) + 9) * (length all + length (workers s1)) + 1)%nat
  ∧ stopping (graph s') = true
  ∧ ((∀ p, p ∈ workers s' → p = Exited) ∧ delivered (around s') ≡ₚ all ∧ (∀ placed, shut_down all placed s')
     ∨ can_go_on s').
Proof.
  intros Hin Hbegin Hrun. assert (in_service all s1) as Hin1 
    by (by apply (service_goes_on all s BeginShutdown); [|intros []|]).
  destruct (in_service_scheduled _ _ Hin) as [[Ha Hun] (Hall & _ & _ & Hne)].
  destruct (in_service_scheduled _ _ Hin1) as [[Ha1 _] _].
  assert (stopping (graph s1) = true
    ∧ (phaseActive (graph s1) = true → phaseGate (graph s1) ∈ gates_released (around s1))) as [Hst1 Hg1].
  { destruct s as [g e ws]. simpl in *.
    destruct (shutdown_keeps all g e ws (length ws) Ha Hun Hall) as (ok & g' & e' & Hq & _ & _ & _ & Hst).
    rewrite Hq in Hbegin. simplify_eq/=. apply Hst. destruct ok; [|done]. exfalso.
    unfold shutdown_begin in Hq. destruct ws; [done|]. simpl in Hq. rewrite andb_false_r in Hq. simpl in Hq.
    destruct (if phaseActive g then _ else _) as [[]|]; [|done]. cbn [mbind option_bind] in Hq.
    by destruct (cancelPreparedFramesLocked _ _) as [[]|]. }
  pose proof (measure_bound _ _ Ha1) as Hb.
  destruct (productive_run_keeps _ _ _ _ Hin1 Hrun) as (Hin' & Hst & Hg & Hph & Hm).
  destruct (in_service_scheduled _ _ Hin') as [[Ha' _] (_ & _ & _ & Hne')].
  split; [lia|]. split; [congruence|].
  destruct (stopping_goes_on all s' Ha') as [Hex|]; [congruence| |left|by right].
  - intros Hact'. destruct (Hph Hact') as [Hact Hpg]. rewrite Hpg, Hg. by apply Hg1.
  - split; [done|]. assert (delivered (around s') ≡ₚ all) as Hdel by (by apply exited_delivered).
    split; [done|]. intros placed. apply shut_down_run; [apply Ha'|congruence|done|done].
Qed.

End behaviour.
