(* ===== verification/GraphStartup.v ===== *)
(** The start of a graph's worker threads, in [DummyGraph::initialize]: the owner
    creates the threads, which register as they start, and waits for all of them, or,
    where one cannot be created or placed, stops and joins those there are and
    unloads.  The owner's code is a machine whose states are the points between its
    atomic operations, as a worker's is. *)
From S2P Require Import Prelude.
From S2P Require Import Platform.
From S2P Require Import CacheTypes.
From S2P Require Import GpuTopology.
From S2P Require Import GpuContextManager.
From S2P Require Import RegistryInvariant.
From S2P Require Import StaticGpuData.
From S2P Require Import StaticData.
From S2P Require Import ParameterRegistry.
From S2P Require Import DemoTypes.
From S2P Require Import DeviceCalls.
From S2P Require Import DummyTask.
From S2P Require Import TaskBehaviour.
From S2P Require Import DummyGraph.
From S2P Require Import GraphScheduler.
From S2P Require Import GraphWorkers.
From S2P Require Import GraphOwner.
From S2P Require Import GraphService.
From S2P Require Import GraphSetup.
#[local] Open Scope N_scope.

Section startup.
Context `{IAlgo} `{!PlatformLaws} `{!GpuDriver} `{!HostMemory}.

(** ** The steps *)

(** Where [initialize] is after its setup: it creates threads; it has caught what
    the creation of one threw; it has stored the cancellation; it joins; it waits
    for the workers to register; it sleeps there; it has seen all of them
    registered; it joins because one could not be placed; it has joined them; it
    unloads; it has returned. *)
Inductive StartupPoint :=
  | Creating
  | CreationCaught
  | CreationCancelled
  | JoiningCreated
  | AwaitingStartup
  | StartupAsleep
  | StartupChecked
  | JoiningStarted
  | StartupJoined
  | Unloading
  | InitializeReturned (result : bool).

Record Startup := mkStartup {
  startup_graph : DummyGraph;
  startup_around : Surroundings;
  startup_workers : list Worker;
  startup_point : StartupPoint;
}.

(** [stopping = true; workCondition.notify_all();] *)
Definition stop_workers (g : DummyGraph) : DummyGraph := notify_work (g <| stopping := true |>).

(** The critical section in which [initialize] waits, once its predicate holds. *)
Definition startup_section (g : DummyGraph) : DummyGraph :=
  if workerStartupFailed g then stop_workers g else g.

(** One atomic operation of [initialize].  [created] and [numaReady] say whether
    the next thread can be created, and placed; [placed] whether the thread that
    unloads can.  An owner that joins threads that still run, or sleeps, waits. *)
Definition owner_startup (created numaReady placed : bool) (s : Startup) : option Startup :=
  let 'mkStartup g e ws point := s in
  match point with
  | Creating =>
      if vsize ws <? graphThreads (config g) then
        if created then Some (mkStartup g e (ws ++ [Starting numaReady]) Creating)
        else Some (mkStartup g e ws CreationCaught)
      else Some (mkStartup g e ws AwaitingStartup)
  | CreationCaught => Some (mkStartup g (cancel e) ws CreationCancelled)
  | CreationCancelled =>
      Some (mkStartup (stop_workers g) e (after_notify g (stop_workers g) ws) JoiningCreated)
  | JoiningCreated => if forallb is_exited ws then Some (mkStartup g e [] Unloading) else Some s
  | AwaitingStartup =>
      if readyWorkers g =? graphThreads (config g)
      then Some (mkStartup (startup_section g) e (after_notify g (startup_section g) ws) StartupChecked)
      else Some (mkStartup g e ws StartupAsleep)
  | StartupAsleep => Some s
  | StartupChecked =>
      if workerStartupFailed g then Some (mkStartup g e ws JoiningStarted)
      else Some (mkStartup (g <| graph_initialized := true |>) e ws (InitializeReturned true))
  | JoiningStarted => if forallb is_exited ws then Some (mkStartup g e [] StartupJoined) else Some s
  | StartupJoined => Some (mkStartup g (cancel e) ws Unloading)
  | Unloading =>
      '(_, (g, e)) ← executor_run placed unloadOnNumaNode (g, e);
      Some (mkStartup g e ws (InitializeReturned false))
  | InitializeReturned _ => Some s
  end.

(** [startupCondition.notify_one()] wakes the owner. *)
Definition after_registration (g g' : DummyGraph) (point : StartupPoint) : StartupPoint :=
  match point with
  | StartupAsleep => if startupCondition g' =? startupCondition g then point else AwaitingStartup
  | _ => point
  end.

(** An operation of a worker; the task's [execute] does not occur yet. *)
Definition worker_startup (i : nat) (s : Startup) : option Startup :=
  let 'mkStartup g e ws point := s in
  match ws !! i with
  | None => Some s
  | Some q =>
      '(q, g', e') ← worker_step false [] (gpuDataCache (staticData g)) (machine_world e) q g e;
      Some (mkStartup g' e' (<[i := q]> (after_notify g g' ws)) (after_registration g g' point))
  end.

Inductive startup_action :=
  | OwnerOperation (created numaReady placed : bool)
  | WorkerOperation (worker : nat)
  | WorkerSpurious (worker : nat)
  | OwnerSpurious
  | FlagStored.

Definition startup_perform (s : Startup) (act : startup_action) : option Startup :=
  match act with
  | OwnerOperation created numaReady placed => owner_startup created numaReady placed s
  | WorkerOperation i => worker_startup i s
  | WorkerSpurious i =>
      match startup_workers s !! i with
      | None => Some s
      | Some q => Some (mkStartup (startup_graph s) (startup_around s) (<[i := awake q]> (startup_workers s)) (startup_point s))
      end
  | OwnerSpurious =>
      match startup_point s with
      | StartupAsleep => Some (mkStartup (startup_graph s) (startup_around s) (startup_workers s) AwaitingStartup)
      | _ => Some s
      end
  | FlagStored => Some (mkStartup (startup_graph s) (cancel (startup_around s)) (startup_workers s) (startup_point s))
  end.

(** [initialize] after [initialize_setup] has answered that the threads may start. *)
Definition startup_initial (g : DummyGraph) (e : Surroundings) : Startup := mkStartup g e [] Creating.

(** ** The invariant *)

Definition is_starting (q : Worker) : bool := match q with Starting _ => true | _ => false end.

(** No worker has a frame yet. *)
Definition idle_worker (q : Worker) : Prop :=
  match q with Starting _ | AtTop | Asleep | Exited => True | _ => False end.

(** The workers that have not registered. *)
Definition unregistered (ws : list Worker) : nat := sum_list_with (λ q, if is_starting q then 1 else 0)%nat ws.

(** Before any thread was created. *)
Record startable (g : DummyGraph) (e : Surroundings) : Prop := {
  startable_stocked : stocked (tasks g) (gpu_infra e);
  startable_idle : phaseActive g = false ∧ stopping g = false ∧ graph_initialized g = false;
  startable_none : readyWorkers g = 0 ∧ workerStartupFailed g = false;
  startable_threads : 0 < graphThreads (config g) < two64;
}.

(** What the startup changes of the graph, and of its surroundings. *)
Definition with_startup (g : DummyGraph) (ready : size_t) (failed : bool) (startupC : N) (stop : bool) (workC : N) :
    DummyGraph :=
  mkGraph (config g) (gpuIds g) (graphRegistry g) (graphSnapshot g) (tasks g) (staticData g)
    (warmupAtoms g) (timedAtoms g) workC (phaseCondition g) startupC
    (readyFrames g) (freeTasks g) (phaseGate g) ready (phaseTotal g) (phaseTerminal g)
    (inFlight g) (lastMaxInFlight g) failed (warmupSubmitted g)
    (timedSubmitted g) (phaseActive g) (phaseSucceeded g) (graph_initialized g)
    (executionCycleStarted g) (executionCycleStopped g) stop.
Definition started_from (g0 g : DummyGraph) : Prop :=
  ∃ ready failed startupC stop workC, g = with_startup g0 ready failed startupC stop workC.
Definition flagged_from (e0 e : Surroundings) : Prop := ∃ flag, e = e0 <| cancellation := flag |>.

(** What holds where the owner is. *)
Definition owner_at (g : DummyGraph) (e : Surroundings) (ws : list Worker) (point : StartupPoint) : Prop :=
  let all := graphThreads (config g) in
  match point with
  | Creating | CreationCaught => stopping g = false
  | CreationCancelled => stopping g = false ∧ cancellation e = true
  | JoiningCreated => stopping g = true ∧ cancellation e = true
  | AwaitingStartup => stopping g = false ∧ vsize ws = all
  | StartupAsleep => stopping g = false ∧ vsize ws = all ∧ readyWorkers g ≠ all
  | StartupChecked => vsize ws = all ∧ readyWorkers g = all ∧ stopping g = workerStartupFailed g
  | JoiningStarted => stopping g = true
  | StartupJoined => ws = []
  | Unloading => ws = [] ∧ cancellation e = true
  | InitializeReturned _ => False
  end.

(** The workers are joined. *)
Definition joined (point : StartupPoint) : bool :=
  match point with StartupJoined | Unloading | InitializeReturned _ => true | _ => false end.

Record starting (g0 : DummyGraph) (e0 : Surroundings) (s : Startup) : Prop := {
  starting_graph : started_from g0 (startup_graph s);
  starting_around : flagged_from e0 (startup_around s);
  starting_ready : joined (startup_point s) = false →
    readyWorkers (startup_graph s) + N.of_nat (unregistered (startup_workers s)) = vsize (startup_workers s);
  starting_size : vsize (startup_workers s) ≤ graphThreads (config g0);
  starting_workers q : q ∈ startup_workers s → idle_worker q;
  starting_exited : Exited ∈ startup_workers s →
    stopping (startup_graph s) = true ∨ workerStartupFailed (startup_graph s) = true;
  starting_asleep : Asleep ∈ startup_workers s → stopping (startup_graph s) = false;
  starting_owner : owner_at (startup_graph s) (startup_around s) (startup_workers s) (startup_point s);
}.

Lemma starting_initial g e : startable g e → starting g e (startup_initial g e).
Proof.
  intros [_ (_ & Hs & _) [Hr _] Ht]. unfold startup_initial. split; simpl; try by intros ? ?%elem_of_nil || intros ?%elem_of_nil.
  - exists (readyWorkers g), (workerStartupFailed g), (startupCondition g), (stopping g), (workCondition g).
    by destruct g.
  - exists (cancellation e). by destruct e.
  - intros _. by rewrite Hr.
  - unfold vsize. simpl. lia.
  - done.
Qed.

Lemma started_from_registered g0 g failed :
  started_from g0 g →
  started_from g0 (g <| readyWorkers := inc64 (readyWorkers g) |> <| workerStartupFailed := failed |>
                     <| startupCondition := startupCondition g + 1 |>).
Proof. intros (n & b & c & k & m & ->). by exists (inc64 n), failed, (c + 1), k, m. Qed.

Lemma started_from_stopped g0 g : started_from g0 g → started_from g0 (stop_workers g).
Proof. intros (n & b & c & k & m & ->). by exists n, b, c, true, (m + 1). Qed.

Lemma started_from_fields g0 g :
  started_from g0 g →
  phaseActive g = phaseActive g0 ∧ config g = config g0 ∧ tasks g = tasks g0
  ∧ graph_initialized g = graph_initialized g0 ∧ freeTasks g = freeTasks g0
  ∧ warmupAtoms g = warmupAtoms g0 ∧ timedAtoms g = timedAtoms g0.
Proof. by intros (n & b & c & k & m & ->). Qed.

Lemma flagged_from_fields e0 e : flagged_from e0 e →
  gpu_infra e = gpu_infra e0 ∧ atoms e = atoms e0 ∧ sink e = sink e0.
Proof. by intros (b & ->). Qed.

Lemma flagged_from_cancel e0 e : flagged_from e0 e → flagged_from e0 (cancel e).
Proof. intros (b & ->). by exists true. Qed.

(** ** The workers' operations *)

(** What the operation of a worker without a frame does. *)
Definition idle_step (q : Worker) (g : DummyGraph) (e : Surroundings) : Worker * DummyGraph * Surroundings :=
  match q with
  | Starting numaReady => worker_register numaReady g e
  | AtTop => (if stopping g then Exited else Asleep, g, e)
  | q => (q, g, e)
  end.

Lemma idle_step_run cache w q g e :
  phaseActive g = false → idle_worker q → worker_step false [] cache w q g e = Some (idle_step q g e).
Proof.
  intros Hact Hq. destruct q; try done; cbn [worker_step idle_step].
  unfold worker_claim, has_work. rewrite Hact. simpl. rewrite orb_false_r. by destruct (stopping g).
Qed.

(** ** The measure *)

Definition worker_rank (q : Worker) : nat := match q with Starting _ => 3 | AtTop => 1 | _ => 0 end.

(** The operations the owner has left; [n] threads are wanted, [m] were created. *)
Definition owner_rank (n m : nat) (point : StartupPoint) : nat :=
  match point with
  | Creating => 4 * (n - m) + n + 10
  | CreationCaught => n + 9
  | CreationCancelled => n + 8
  | AwaitingStartup => n + 7
  | StartupAsleep => n + 6
  | StartupChecked => 5
  | JoiningStarted => 4
  | JoiningCreated => 3
  | StartupJoined => 2
  | Unloading => 1
  | InitializeReturned _ => 0
  end.

Definition startup_measure (s : Startup) : nat :=
  (owner_rank (N.to_nat (graphThreads (config (startup_graph s)))) (length (startup_workers s)) (startup_point s)
   + sum_list_with worker_rank (startup_workers s))%nat.

Lemma unregistered_insert ws i q q' :
  ws !! i = Some q →
  (unregistered (<[i := q']> ws) + (if is_starting q then 1 else 0) = unregistered ws + (if is_starting q' then 1 else 0))%nat.
Proof. intros Hq. by apply (sum_insert (λ q, if is_starting q then 1 else 0)%nat). Qed.

Lemma elem_insert (ws : list Worker) i q x : x ∈ <[i := q]> ws → x = q ∨ x ∈ ws.
Proof.
  intros [j Hj]%list_elem_of_lookup. destruct (decide (i = j)) as [->|Hne].
  - left. assert (j < length ws)%nat as Hlt by (apply lookup_lt_Some in Hj; by rewrite length_insert in Hj).
    rewrite list_lookup_insert_eq in Hj by done. by injection Hj.
  - right. rewrite list_lookup_insert_ne in Hj by done. by eapply list_elem_of_lookup_2.
Qed.

Lemma unregistered_pos ws : (0 < unregistered ws)%nat → ∃ i b, ws !! i = Some (Starting b).
Proof.
  induction ws as [|q ws IH]; unfold unregistered; csimpl; [lia|]. intros Hpos.
  destruct q as [b| | | | | | | | | |]; [by exists O, b|..];
    destruct IH as (i & b & Hi); try exact Hpos; exists (S i), b; exact Hi.
Qed.

Lemma unregistered_lookup ws i b : ws !! i = Some (Starting b) → (0 < unregistered ws)%nat.
Proof. intros Hi. pose proof (unregistered_insert ws i _ AtTop Hi). simpl in *. lia. Qed.

Lemma after_registration_same g g' point :
  startupCondition g' = startupCondition g → after_registration g g' point = point.
Proof. unfold after_registration. intros ->. rewrite N.eqb_refl. by destruct point. Qed.

(** A worker that changes neither the graph nor what it has registered. *)
Lemma starting_replace g0 e0 g e ws point i q q' :
  starting g0 e0 (mkStartup g e ws point) → ws !! i = Some q → is_starting q = false → is_starting q' = false →
  idle_worker q' → (q' = Exited → stopping g = true) → (q' = Asleep → stopping g = false) →
  starting g0 e0 (mkStartup g e (<[i := q']> ws) point).
Proof.
  intros [Hg He Hr Hz Hw Hx Ha Ho] Hq Hs Hs' Hidle Hexit Hsleep. pose proof (unregistered_insert ws i q q' Hq) as Hun.
  rewrite Hs, Hs' in Hun. simpl in *. split; simpl; try done.
  - intros Hj. unfold vsize in *. rewrite length_insert. rewrite <-(Hr Hj). lia.
  - unfold vsize. by rewrite length_insert.
  - intros x [->|Hin]%elem_insert; [done|by apply Hw].
  - intros [Heq|Hin]%elem_insert; [left; by apply Hexit|by apply Hx].
  - intros [Heq|Hin]%elem_insert; [by apply Hsleep|by apply Ha].
  - destruct point; simpl in *; unfold vsize in *; rewrite ?length_insert; try done.
    + by rewrite Ho.
    + destruct Ho as [-> ?]. done.
Qed.

Lemma worker_register_run g0 b g e :
  ∃ failed e', worker_register b g e
    = (if b then AtTop else Exited,
       g <| readyWorkers := inc64 (readyWorkers g) |> <| workerStartupFailed := failed |>
         <| startupCondition := startupCondition g + 1 |>, e')
  ∧ (b = false → failed = true) ∧ (workerStartupFailed g = true → failed = true)
  ∧ (cancellation e = true → cancellation e' = true) ∧ (flagged_from g0 e → flagged_from g0 e').
Proof.
  destruct b; [exists (workerStartupFailed g), e|exists true, (cancel e)]; (split; [by destruct g|]); split_and!; try done.
  apply flagged_from_cancel.
Qed.

(** A worker registers; an owner that sleeps wakes. *)
Lemma registration_keeps g0 e0 g e ws point i b :
  starting g0 e0 (mkStartup g e ws point) → graphThreads (config g0) < two64 → ws !! i = Some (Starting b) →
  let '(q, g', e') := worker_register b g e in
  starting g0 e0 (mkStartup g' e' (<[i := q]> ws) (after_registration g g' point))
  ∧ workCondition g' = workCondition g ∧ config g' = config g
  ∧ (worker_rank q ≤ 1)%nat
  ∧ (∀ n m, owner_rank n m (after_registration g g' point) ≤ S (owner_rank n m point))%nat.
Proof.
  intros [Hg He Hr Hz Hw Hx Ha Ho] Hlen Hi. pose proof (unregistered_lookup _ _ _ Hi) as Hpos. simpl in *.
  assert (joined point = false) as Hj.
  { destruct point; simpl in Ho; try done; [rewrite Ho in Hi|destruct Ho as [Ho _]; rewrite Ho in Hi]; done. }
  specialize (Hr Hj). unfold vsize in Hr, Hz.
  assert (inc64 (readyWorkers g) = readyWorkers g + 1) as Hinc by (apply inc64_small; unfold two64 in *; lia).
  assert (∀ q : Worker, vsize (<[i := q]> ws) = vsize ws) as Hsize by (intros; unfold vsize; by rewrite length_insert).
  destruct (worker_register_run e0 b g e) as (failed & e' & -> & Hfail & Hkeep & Hcan & Hflag).
  set (g' := g <| readyWorkers := inc64 (readyWorkers g) |> <| workerStartupFailed := failed |>
               <| startupCondition := startupCondition g + 1 |>). set (q := if b then AtTop else Exited).
  assert (after_registration g g' point = match point with StartupAsleep => AwaitingStartup | _ => point end) as ->.
  { unfold after_registration. destruct point; try done. simpl. by rewrite (proj2 (N.eqb_neq _ _)) by lia. }
  split; [|split_and!; [done|done|by destruct b; simpl; lia|intros n m; destruct point; simpl; lia]].
  assert (is_starting q = false ∧ idle_worker q ∧ q ≠ Asleep) as (Hq1 & Hq2 & Hq3) by (by destruct b).
  pose proof (unregistered_insert ws i _ q Hi) as Hun. rewrite Hq1 in Hun. simpl in Hun.
  split; simpl.
  - by apply started_from_registered.
  - by apply Hflag.
  - intros _. rewrite Hsize, Hinc. unfold vsize. lia.
  - rewrite Hsize. unfold vsize. done.
  - intros x [->|Hin]%elem_insert; [done|by apply Hw].
  - intros [Heq|Hin]%elem_insert; [right; apply Hfail; by destruct b|]. destruct (Hx Hin); [by left|right; by apply Hkeep].
  - intros [Heq|Hin]%elem_insert; [by rewrite Heq in Hq3|by apply Ha].
  - destruct point; simpl in *; rewrite ?Hsize; try done.
    + destruct Ho as [? Hc]. split; [done|by apply Hcan].
    + destruct Ho as [? Hc]. split; [done|by apply Hcan].
    + by destruct Ho as (? & ? & _).
    + destruct Ho as (Hall & Hrw & _). unfold vsize in Hall. lia.
Qed.

(** What a step leaves: the invariant, and a smaller measure if it gets anywhere. *)
Definition steps_to (g0 : DummyGraph) (e0 : Surroundings) (gain : bool) (s : Startup) (r : option Startup) : Prop :=
  ∃ s', r = Some s' ∧ starting g0 e0 s'
    ∧ (startup_measure s' + (if gain then 1 else 0) ≤ startup_measure s)%nat.

Definition worker_gains (q : Worker) : bool := match q with Starting _ | AtTop => true | _ => false end.

Lemma worker_steps g0 e0 g e ws point i q :
  startable g0 e0 → starting g0 e0 (mkStartup g e ws point) → ws !! i = Some q →
  steps_to g0 e0 (worker_gains q) (mkStartup g e ws point) (worker_startup i (mkStartup g e ws point)).
Proof.
  intros [_ (Hact & _) _ [_ Hlt]] Hs Hi. pose proof (starting_workers _ _ _ Hs q (list_elem_of_lookup_2 _ _ _ Hi)) as Hidle.
  destruct (started_from_fields _ _ (starting_graph _ _ _ Hs)) as (Hact' & _). simpl in Hact'. rewrite Hact in Hact'.
  cbn [worker_startup]. rewrite Hi, idle_step_run by done.
  destruct q as [b| | |?|?|?|?|?|?|?|]; try done; cbn [idle_step].
  - pose proof (registration_keeps g0 e0 g e ws point i b Hs Hlt Hi) as Hreg.
    destruct (worker_register b g e) as [[q g'] e']. destruct Hreg as (Hs' & Hw & Hc & Hrank & Howner).
    cbn [mbind option_bind]. rewrite after_notify_same by done. eexists. split; [done|]. split; [done|].
    unfold startup_measure. cbn [startup_graph startup_workers startup_point]. rewrite Hc, length_insert.
    pose proof (sum_insert worker_rank ws i _ q Hi) as Hsum. simpl in Hsum.
    specialize (Howner (N.to_nat (graphThreads (config g))) (length ws)). simpl. lia.
  - cbn [mbind option_bind]. rewrite after_notify_same, after_registration_same by done.
    eexists. split; [done|]. split; [eapply starting_replace; try done; by destruct (stopping g)|].
    unfold startup_measure. cbn [startup_graph startup_workers startup_point]. rewrite length_insert.
    pose proof (sum_insert worker_rank ws i _ (if stopping g then Exited else Asleep) Hi) as Hsum.
    destruct (stopping g); simpl in *; lia.
  - cbn [mbind option_bind]. rewrite after_notify_same, after_registration_same by done.
    rewrite list_insert_id by done. eexists. split; [done|]. split; [done|]. simpl. lia.
  - cbn [mbind option_bind]. rewrite after_notify_same, after_registration_same by done.
    rewrite list_insert_id by done. eexists. split; [done|]. split; [done|]. simpl. lia.
Qed.

(** ** The owner's operations *)

Lemma awake_startup ws :
  unregistered (awake <$> ws) = unregistered ws
  ∧ (sum_list_with worker_rank (awake <$> ws) ≤ sum_list_with worker_rank ws + length ws)%nat
  ∧ ((∀ q, q ∈ ws → idle_worker q) → ∀ q, q ∈ awake <$> ws → idle_worker q)
  ∧ (Exited ∈ awake <$> ws → Exited ∈ ws) ∧ Asleep ∉ awake <$> ws.
Proof.
  split_and!.
  - induction ws as [|q ws IH]; [done|]. unfold unregistered in *. csimpl. rewrite IH. by destruct q.
  - induction ws as [|q ws IH]; [done|]. csimpl. destruct q; csimpl; lia.
  - intros Hall q (x & -> & Hx)%list_elem_of_fmap. specialize (Hall x Hx). by destruct x.
  - intros (x & Heq & Hx)%list_elem_of_fmap. by destruct x.
  - intros (x & Heq & Hx)%list_elem_of_fmap. by destruct x.
Qed.

Lemma stop_notifies g ws : after_notify g (stop_workers g) ws = awake <$> ws.
Proof. unfold after_notify. simpl. by rewrite (proj2 (N.eqb_neq _ _)) by lia. Qed.

(** The owner stops the workers and goes on to join them. *)
Lemma starting_stopped g0 e0 g e ws point point' :
  starting g0 e0 (mkStartup g e ws point) → joined point = false → joined point' = false →
  owner_at (stop_workers g) e (awake <$> ws) point' →
  starting g0 e0 (mkStartup (stop_workers g) e (after_notify g (stop_workers g) ws) point').
Proof.
  intros [Hg He Hr Hz Hw Hx Ha Ho] Hj Hj' Ho'. destruct (awake_startup ws) as (Hun & _ & Hidle & Hexit & Hsleep).
  rewrite stop_notifies. simpl in *. split; simpl; try done.
  - by apply started_from_stopped.
  - intros _. rewrite Hun. unfold vsize in *. rewrite length_fmap. by rewrite <-Hr.
  - unfold vsize. by rewrite length_fmap.
  - by apply Hidle.
  - by left.
Qed.

(** The owner moves on without touching the workers. *)
Lemma starting_moved g0 e0 g e e' ws point point' :
  starting g0 e0 (mkStartup g e ws point) → (joined point = false ∨ joined point' = true) →
  flagged_from e0 e' → owner_at g e' ws point' →
  starting g0 e0 (mkStartup g e' ws point').
Proof.
  intros [Hg He Hr Hz Hw Hx Ha Ho] Hj He' Ho'. simpl in *. split; simpl; try done.
  intros Hj'. apply Hr. destruct Hj; [done|congruence].
Qed.

(** The workers are gone. *)
Lemma starting_joined g0 e0 g e ws point point' :
  starting g0 e0 (mkStartup g e ws point) → joined point' = true → owner_at g e [] point' →
  starting g0 e0 (mkStartup g e [] point').
Proof.
  intros [Hg He Hr Hz Hw Hx Ha Ho] Hj Ho'. simpl in *.
  split; simpl; try done; try by intros ?%elem_of_nil || intros ? ?%elem_of_nil.
  - congruence.
  - unfold vsize in *. simpl. lia.
Qed.

(** The next thread. *)
Lemma starting_created g0 e0 g e ws b :
  starting g0 e0 (mkStartup g e ws Creating) → vsize ws < graphThreads (config g0) →
  starting g0 e0 (mkStartup g e (ws ++ [Starting b]) Creating).
Proof.
  intros [Hg He Hr Hz Hw Hx Ha Ho] Hlt. simpl in *. split; simpl; try done.
  - intros _. unfold unregistered, vsize in *. rewrite sum_list_with_app, length_app. csimpl. specialize (Hr eq_refl). lia.
  - unfold vsize in *. rewrite length_app. simpl. lia.
  - intros q [Hq| ->%list_elem_of_singleton]%elem_of_app; [by apply Hw|done].
  - intros [Hq|Hq%list_elem_of_singleton]%elem_of_app; [by apply Hx|done].
Qed.

Definition owner_gains (s : Startup) : bool :=
  match startup_point s with
  | JoiningCreated | JoiningStarted => forallb is_exited (startup_workers s)
  | StartupAsleep | InitializeReturned _ => false
  | _ => true
  end.

(** [initialize] has returned: the workers are there and have registered, or they
    are gone, and what there was is unloaded if a thread could be placed for it. *)
Definition finished (placed : bool) (g0 : DummyGraph) (e0 : Surroundings) (result : bool) (s : Startup) : Prop :=
  if result then
    ∃ g, startup_graph s = g <| graph_initialized := true |> ∧ workerStartupFailed g = false
      ∧ starting g0 e0 (mkStartup g (startup_around s) (startup_workers s) StartupChecked)
  else
    startup_workers s = [] ∧ cancellation (startup_around s) = true
    ∧ ∃ g e ok, started_from g0 g ∧ flagged_from e0 e
      ∧ executor_run placed unloadOnNumaNode (g, e) = Some (ok, (startup_graph s, startup_around s)).

Definition progresses_to (placed : bool) (g0 : DummyGraph) (e0 : Surroundings) (gain : bool) (s : Startup) (r : option Startup) : Prop :=
  ∃ s', r = Some s'
    ∧ match startup_point s' with InitializeReturned b => finished placed g0 e0 b s' | _ => starting g0 e0 s' end
    ∧ (startup_measure s' + (if gain then 1 else 0) ≤ startup_measure s)%nat.

Lemma sum_nobody : sum_list_with worker_rank [] = 0%nat.
Proof. done. Qed.

(** The owner's operation made the measure smaller; [n] threads are wanted. *)
#[local] Ltac measured Hcfg n :=
  cbn [startup_graph startup_workers startup_point owner_rank];
  rewrite ?stop_notifies, ?length_fmap, ?Hcfg, ?sum_nobody; fold n; cbv beta iota; lia.

Lemma owner_steps g0 e0 g e ws point created numaReady placed :
  startable g0 e0 → starting g0 e0 (mkStartup g e ws point) →
  progresses_to placed g0 e0 (owner_gains (mkStartup g e ws point)) (mkStartup g e ws point)
    (owner_startup created numaReady placed (mkStartup g e ws point)).
Proof.
  intros [Hstock (Hact & Hstop0 & Hinit0) [Hr0 Hf0] [Hpos Hlt]] Hs.
  destruct (started_from_fields _ _ (starting_graph _ _ _ Hs)) as (_ & Hcfg & Htasks & _). simpl in Hcfg, Htasks.
  pose proof (starting_owner _ _ _ Hs) as Ho. pose proof (starting_around _ _ _ Hs) as He.
  pose proof (starting_size _ _ _ Hs) as Hz. simpl in Ho, He, Hz.
  destruct (awake_startup ws) as (_ & Hwake & _).
  unfold progresses_to, startup_measure, owner_gains. cbn [startup_graph startup_workers startup_point].
  rewrite Hcfg. set (n := N.to_nat (graphThreads (config g0))).
  assert (length ws ≤ n)%nat as Hlen by (unfold vsize in Hz; lia).
  destruct point; cbn [owner_startup]; rewrite ?Hcfg; try done.
  - destruct (N.ltb_spec (vsize ws) (graphThreads (config g0))) as [Hmore|Hdone]; [destruct created|].
    + eexists. split; [done|]. split; [by apply starting_created|].
      cbn [startup_graph startup_workers startup_point owner_rank].
      rewrite Hcfg, length_app, sum_list_with_app. fold n. csimpl. unfold vsize in Hmore. lia.
    + eexists. split; [done|]. split; [by eapply starting_moved; [|left| |]|]. measured Hcfg n.
    + eexists. split; [done|]. split; [|measured Hcfg n].
      eapply starting_moved; [done|by left|done|]. simpl. rewrite Hcfg. split; [done|lia].
  - eexists. split; [done|]. split; [|measured Hcfg n].
    eapply starting_moved; [done|by left|by apply flagged_from_cancel|done].
  - eexists. split; [done|]. split; [eapply starting_stopped; [done..|]; by destruct Ho|].
    measured Hcfg n.
  - destruct (forallb is_exited ws) eqn:Hall.
    + eexists. split; [done|]. split; [eapply starting_joined; [done..|]; by destruct Ho|]. measured Hcfg n.
    + eexists. split; [done|]. split; [done|]. measured Hcfg n.
  - destruct Ho as [Hstop Hsize]. rewrite Hcfg in Hsize.
    destruct (N.eqb_spec (readyWorkers g) (graphThreads (config g0))) as [Hready|Hready].
    + eexists. split; [done|]. unfold startup_section.
      destruct (workerStartupFailed g) eqn:Hfail.
      * split; [|measured Hcfg n]. eapply starting_stopped; [done..|].
        simpl. unfold vsize in *. by rewrite length_fmap, Hcfg.
      * rewrite after_notify_same by done. split; [|measured Hcfg n]. eapply starting_moved; [done|by left|done|].
        simpl. rewrite Hcfg. split_and!; [done|done|congruence].
    + eexists. split; [done|]. split; [|measured Hcfg n].
      eapply starting_moved; [done|by left|done|]. simpl. rewrite Hcfg. by split_and!.
  - eexists. split; [done|]. split; [done|]. measured Hcfg n.
  - destruct (workerStartupFailed g) eqn:Hfail.
    + eexists. split; [done|]. split; [|measured Hcfg n].
      destruct Ho as (_ & _ & Hstop). eapply starting_moved; [done|by left|done|]. simpl. congruence.
    + eexists. split; [done|]. split; [|measured Hcfg n]. by exists g.
  - destruct (forallb is_exited ws) eqn:Hall.
    + eexists. split; [done|]. split; [by eapply starting_joined|]. measured Hcfg n.
    + eexists. split; [done|]. split; [done|]. measured Hcfg n.
  - eexists. split; [done|]. split; [|measured Hcfg n].
    eapply starting_moved; [done|by right|by apply flagged_from_cancel|by simpl].
  - destruct Ho as [-> Hcan]. destruct (flagged_from_fields _ _ He) as (Hinfra & _).
    assert (stocked (tasks g) (gpu_infra e)) as Hst by (by rewrite Htasks, Hinfra).
    assert (∃ ok g' e', executor_run placed unloadOnNumaNode (g, e) = Some (ok, (g', e'))
      ∧ cancellation e' = true) as (ok & g' & e' & Hrun & Hcan').
    { destruct placed; cbn [executor_run]; [|by eexists _, _, _].
      destruct (unload_run g e Hst) as (ok & g' & e' & Hrun & _ & _ & _ & _ & _ & _ & Hc & _).
      exists ok, g', e'. split; [done|congruence]. }
    rewrite Hrun. cbn [mbind option_bind]. eexists. split; [done|]. split; [|measured Hcfg n].
    split; [done|]. split; [done|]. exists g, e, ok. split; [apply (starting_graph _ _ _ Hs)|done].
Qed.

(** ** Runs *)

Definition has_returned (s : Startup) : bool :=
  match startup_point s with InitializeReturned _ => true | _ => false end.

(** Does the operation get anywhere?  Waking up for nothing does not, nor does
    waiting. *)
Definition startup_gains (s : Startup) (act : startup_action) : bool :=
  match act with
  | OwnerOperation _ _ _ => owner_gains s
  | WorkerOperation i => match startup_workers s !! i with Some q => worker_gains q | None => false end
  | _ => false
  end.

Definition startup_spurious (act : startup_action) : bool :=
  match act with WorkerSpurious _ | OwnerSpurious => true | _ => false end.

(** Operations in any order until [initialize] returns: how many of them got
    somewhere, and how many were spurious wakeups. *)
Inductive startup_run : nat → nat → Startup → Startup → Prop :=
  | startup_begins s : startup_run 0 0 s s
  | startup_goes_on k j s act s1 s2 :
      has_returned s = false → startup_perform s act = Some s1 → startup_run k j s1 s2 →
      startup_run (k + if startup_gains s act then 1 else 0) (j + if startup_spurious act then 1 else 0) s s2.

Lemma perform_steps g0 e0 s act :
  startable g0 e0 → starting g0 e0 s →
  ∃ s', startup_perform s act = Some s'
    ∧ match startup_point s' with InitializeReturned b => ∃ placed, finished placed g0 e0 b s' | _ => starting g0 e0 s' end
    ∧ (startup_measure s' + (if startup_gains s act then 1 else 0)
       ≤ startup_measure s + if startup_spurious act then 1 else 0)%nat.
Proof.
  intros Hst Hs. destruct s as [g e ws point].
  assert (∀ s', starting g0 e0 s' →
    match startup_point s' with InitializeReturned b => ∃ placed, finished placed g0 e0 b s' | _ => starting g0 e0 s' end) as Hkept.
  { intros s' Hs'. destruct (startup_point s') eqn:Hp; try done.
    pose proof (starting_owner _ _ _ Hs') as Ho. by rewrite Hp in Ho. }
  destruct act as [created numaReady placed|i|i| |]; cbn [startup_perform startup_gains startup_spurious startup_workers].
  - destruct (owner_steps g0 e0 g e ws point created numaReady placed Hst Hs) as (s' & -> & Hs' & ?).
    exists s'. split; [done|]. split; [|lia]. destruct (startup_point s'); by eauto.
  - destruct (ws !! i) as [q|] eqn:Hi.
    + destruct (worker_steps g0 e0 g e ws point i q Hst Hs Hi) as (s' & -> & ? & ?).
      exists s'. split; [done|]. split; [by apply Hkept|]. lia.
    + cbn [worker_startup]. rewrite Hi. eexists. split; [done|]. split; [by apply Hkept|]. lia.
  - destruct (ws !! i) as [q|] eqn:Hi; [|eexists; split; [done|]; split; [by apply Hkept|lia]].
    eexists. split; [done|]. pose proof (sum_insert worker_rank ws i _ (awake q) Hi) as Hsum.
    pose proof (starting_workers _ _ _ Hs q (list_elem_of_lookup_2 _ _ _ Hi)) as Hq.
    assert (q = Asleep ∨ awake q = q) as [->|Hsame] by (destruct q; auto).
    + split; [apply Hkept; by eapply starting_replace|]. unfold startup_measure. cbn [startup_graph startup_workers startup_point].
      rewrite length_insert. simpl awake in *. simpl worker_rank in Hsum. lia.
    + rewrite Hsame, list_insert_id by done. split; [by apply Hkept|cbn; lia].
  - destruct point; try (eexists; split; [done|]; split; [by apply Hkept|lia]). cbn [startup_point].
    eexists. split; [done|]. pose proof (starting_owner _ _ _ Hs) as (? & ? & _).
    split; [|unfold startup_measure; simpl; lia]. by eapply starting_moved; [|left|apply (starting_around _ _ _ Hs)|].
  - eexists. split; [done|]. split; [|by unfold startup_measure; simpl; lia]. apply Hkept. cbn [startup_around startup_point].
    pose proof (starting_owner _ _ _ Hs) as Ho. simpl in Ho.
    eapply starting_moved; [done| |apply flagged_from_cancel, (starting_around _ _ _ Hs)|].
    + destruct (joined point); auto.
    + destruct point; simpl in *; try done; naive_solver.
Qed.

Lemma startup_run_keeps g0 e0 k j s s' :
  startable g0 e0 → starting g0 e0 s → startup_run k j s s' →
  match startup_point s' with InitializeReturned b => ∃ placed, finished placed g0 e0 b s' | _ => starting g0 e0 s' end
  ∧ (startup_measure s' + k ≤ startup_measure s + j)%nat.
Proof.
  intros Hst Hs Hrun. induction Hrun as [s|k j s act s1 s2 Hnot Hstep Hrun IH].
  { split; [|lia]. destruct (startup_point s) eqn:Hp; try done.
    pose proof (starting_owner _ _ _ Hs) as Ho. by rewrite Hp in Ho. }
  destruct (perform_steps g0 e0 s act Hst Hs) as (s1' & Hstep' & Hs1 & Hcost). rewrite Hstep' in Hstep. injection Hstep as ->.
  destruct (startup_point s1) eqn:Hp; try (destruct (IH Hs1) as [? ?]; split; [done|lia]).
  inversion Hrun as [|? ? ? ? ? ? Hnot']; subst; [rewrite Hp; split; [done|lia]|].
  unfold has_returned in Hnot'. by rewrite Hp in Hnot'.
Qed.

(** While [initialize] has not returned, somebody can go on. *)
Lemma startup_goes g0 e0 s :
  startable g0 e0 → starting g0 e0 s → has_returned s = false → ∃ act, startup_gains s act = true.
Proof.
  intros Hst Hs Hnot. destruct s as [g e ws point]. pose proof (starting_owner _ _ _ Hs) as Ho. simpl in Ho.
  assert (stopping g = true → (∃ i q, ws !! i = Some q ∧ worker_gains q = true) ∨ forallb is_exited ws = true) as Hjoin.
  { intros Hstop. destruct (decide (Forall is_exited ws)) as [Hall|Hsome].
    - right. apply forallb_forall. intros q Hq%list_elem_of_In. by apply Is_true_eq_true, (proj1 (Forall_forall _ _) Hall).
    - left. apply not_Forall_Exists in Hsome; [|apply _]. apply Exists_exists in Hsome as (q & Hq & Hne).
      pose proof Hq as [i Hi]%list_elem_of_lookup. exists i, q. split; [done|].
      pose proof (starting_workers _ _ _ Hs q Hq) as Hidle. destruct q; try done.
      pose proof (starting_asleep _ _ _ Hs Hq). simpl in *. congruence. }
  assert ((∃ i q, ws !! i = Some q ∧ worker_gains q = true) → ∃ act, startup_gains (mkStartup g e ws point) act = true)
    as Hworker by (intros (i & q & Hi & Hq); exists (WorkerOperation i); simpl; by rewrite Hi).
  destruct point; try (exists (OwnerOperation true true true); done); try done.
  - destruct Hjoin as [Hw|Hall]; [by destruct Ho|by apply Hworker|]. by exists (OwnerOperation true true true).
  - apply Hworker. destruct Ho as (_ & Hsize & Hready). pose proof (starting_ready _ _ _ Hs eq_refl) as Hr. simpl in Hr.
    destruct (unregistered_pos ws) as (i & b & Hi); [lia|]. by exists i, (Starting b).
  - destruct (Hjoin Ho) as [Hw|Hall]; [by apply Hworker|]. by exists (OwnerOperation true true true).
Qed.

(** ** From construction *)

(** The graph and its surroundings as [initialize] finds them. *)
Record fresh (this : ptr) (c : GraphConfig) (e : Surroundings) : Prop := {
  fresh_this : this ≠ nullptr;
  fresh_registry : registry (gpu_infra e);
  fresh_config : config_fits c;
  fresh_room : room (taskInstancesPerGpu c) (gpu_infra e);
}.

(** [initialize] on a graph just constructed, as it returns: refused before its
    threads, or after they were started, with the owner's last operation.
    [unloadPlaced] says whether the thread that unloads could be placed, where one
    was asked for. *)
Inductive initialize_run (this : ptr) (c : GraphConfig) (e : Surroundings) (unloadPlaced : bool) : bool → Scheduler → Prop :=
  | initialize_refused resolvePlaced setupPlaced g e' :
      initialize_setup resolvePlaced setupPlaced unloadPlaced (DummyGraph_construct c (StaticData_default this)) e
        = Some (false, g, e') →
      initialize_run this c e unloadPlaced false (mkScheduler g e' [])
  | initialize_started resolvePlaced setupPlaced g e' k j s1 created numaReady s result :
      initialize_setup resolvePlaced setupPlaced unloadPlaced (DummyGraph_construct c (StaticData_default this)) e
        = Some (true, g, e') →
      startup_run k j (startup_initial g e') s1 → has_returned s1 = false →
      startup_perform s1 (OwnerOperation created numaReady unloadPlaced) = Some s →
      startup_point s = InitializeReturned result →
      initialize_run this c e unloadPlaced result (mkScheduler (startup_graph s) (startup_around s) (startup_workers s)).

Lemma construct_setup_run this c e resolvePlaced setupPlaced unloadPlaced :
  let g0 := DummyGraph_construct c (StaticData_default this) in
  fresh this c e →
  ∃ ok g e', initialize_setup resolvePlaced setupPlaced unloadPlaced g0 e = Some (ok, g, e')
    ∧ if ok : bool then setup_done c g0 g e e' ∧ startable g e' else setup_refused unloadPlaced g e e'.
Proof using All.
  intros g0 [Hthis Hr Hc Hroom].
  destruct (initialize_setup_run this resolvePlaced setupPlaced unloadPlaced g0 e) as (ok & g & e' & Hrun & Hres); try done.
  exists ok, g, e'. split; [done|]. destruct ok; [|done]. split; [done|].
  destruct Hres as ((c' & ids & r & sn & ts & d & ws & us & -> & _ & Hthreads) & _ & Hst & _).
  split; [apply Hst|done..].
Qed.

(** What a start that has succeeded leaves is a graph in service. *)
Lemma finished_prepared placed this c e g e' s :
  let g0 := DummyGraph_construct c (StaticData_default this) in
  sink e = GraphSink_default → setup_done c g0 g e e' → startable g e' → finished placed g e' true s →
  let s' := mkScheduler (startup_graph s) (startup_around s) (startup_workers s) in
  prepared (warmupAtoms (graph s') ++ timedAtoms (graph s')) s'
  ∧ vsize (workers s') = graphThreads (config (graph s')) ∧ established c 1 (graph s') (around s').
Proof.
  intros g0 Hsink Hdone Hst (g1 & Hg1 & Hfail & Hs) s'. destruct s as [gs es ws point]. simpl in Hg1, Hs. subst gs.
  destruct Hdone as ((c' & ids & r & sn & ts & d & wf & tf & -> & _ & Hthreads) & (store & infra & w & ->) & Hstock & Hne & Hest).
  pose proof (starting_owner _ _ _ Hs) as Howner0. pose proof (starting_ready _ _ _ Hs eq_refl) as Hun. simpl in Howner0, Hun.
  destruct Howner0 as (Hsize & Hready & Hstop). rewrite Hfail in Hstop.
  assert (∀ q, q ∈ ws → q = AtTop ∨ q = Asleep) as Hws.
  { intros q Hq. pose proof (starting_workers _ _ _ Hs q Hq) as Hidle. destruct q as [b| | | | | | | | | |]; auto; try done.
    - apply list_elem_of_lookup in Hq as [i Hi]. pose proof (unregistered_lookup _ _ _ Hi). lia.
    - destruct (starting_exited _ _ _ Hs Hq); simpl in *; congruence. }
  pose proof (starting_graph _ _ _ Hs) as (n & b & k & stop & m & Hg1). pose proof (starting_around _ _ _ Hs) as (flag & Hes).
  simpl in Hg1, Hes. subst g1 es.
  destruct Hest as [[Hcount Hloaded] [(Hw & Ht & Hall) Hnd Hids Howner]]. simpl in *.
  split; [|split; [done|split; [done|by split]]].
  split; simpl; try done.
  - unfold fits. cbn [workers]. split; [lia|]. split; [simpl; lia|]. split; [done|]. simpl. intros ->. unfold vsize in Hsize. simpl in Hsize. lia.
  - intros f [i (atom & Ha & _)%Hids]%list_elem_of_lookup. by exists atom.
  - destruct Hstock as [[? ?] _ _ _ _ _]. split; [done|by split].
Qed.

(** C16.  [initialize] always returns.  Its setup is defined whatever fails; after it,
    whatever threads cannot be created or placed, the operations that do not
    merely wait are at most [5 * graphThreads + 10] and one for each spurious
    wakeup, everything anybody does is defined, and as long as [initialize] has not
    returned somebody can go on. *)
Theorem initialize_returns this c e resolvePlaced setupPlaced unloadPlaced :
  fresh this c e →
  ∃ ok g e', initialize_setup resolvePlaced setupPlaced unloadPlaced (DummyGraph_construct c (StaticData_default this)) e
      = Some (ok, g, e')
    ∧ (ok = true → ∀ k j s, startup_run k j (startup_initial g e') s →
         (k ≤ 5 * N.to_nat (graphThreads (config g)) + 10 + j)%nat
         ∧ (has_returned s = true
            ∨ (∀ act, ∃ s', startup_perform s act = Some s') ∧ ∃ act, startup_gains s act = true)).
Proof using All.
  intros Hfresh. destruct (construct_setup_run this c e resolvePlaced setupPlaced unloadPlaced Hfresh) as (ok & g & e' & Hrun & Hres).
  exists ok, g, e'. split; [done|]. intros -> k j s Hgo. destruct Hres as [_ Hst].
  destruct (startup_run_keeps g e' k j _ s Hst (starting_initial g e' Hst) Hgo) as [Hs Hcost]. split.
  - unfold startup_measure in Hcost at 2. simpl in Hcost. lia.
  - destruct (has_returned s) eqn:Hret; [by left|right].
    assert (starting g e' s) as Hs' by (unfold has_returned in Hret; by destruct (startup_point s)).
    split; [|by eapply startup_goes]. intros act.
    destruct (perform_steps g e' s act Hst Hs') as (s' & ? & _). by exists s'.
Qed.

(** What startup leaves to be undone is what the setup had made. *)
Lemma started_undoable e0 g e g1 e1 :
  undoable e0 g e → started_from g g1 → flagged_from e e1 → undoable e0 g1 e1.
Proof. intros [? ? ? ? ? ?] (n & b & c & k & m & ->) (flag & ->). by split. Qed.

(** C15.  What [initialize] answers is so.  Where it succeeds the graph is in service:
    every thread it wants waits for work, no frame is out, the tasks are loaded, the
    owner of static data serves the configured runtime and the frames of both
    phases are there, each once and numbered from the first id.  Where it fails no
    thread is left, the graph is not initialized and nothing was delivered; either
    it was refused before anything was made and the surroundings are as they were,
    or the cancellation is set.  And if the thread that unloads could be placed,
    everything is given back ([undone]): no task or frame is left, the cache is closed,
    the frame objects are exactly those that were there before, and so are the
    resources of the registry's tasks, but for new ones that hold neither a
    registration nor anything of the machine.  If it could not be placed, what was
    made is still there to be unloaded ([undoable]). *)
Theorem initialize_outcome this c e unloadPlaced result s :
  fresh this c e → sink e = GraphSink_default → initialize_run this c e unloadPlaced result s →
  if result then
    in_service (warmupAtoms (graph s) ++ timedAtoms (graph s)) s
    ∧ (∀ q, q ∈ workers s → q = AtTop ∨ q = Asleep)
    ∧ vsize (workers s) = graphThreads (config (graph s)) ∧ established c 1 (graph s) (around s)
  else
    workers s = [] ∧ graph_initialized (graph s) = false ∧ sink (around s) = sink e
    ∧ (around s = e ∧ undone e (graph s) (around s)
       ∨ cancellation (around s) = true
         ∧ if unloadPlaced then undone e (graph s) (around s) else undoable e (graph s) (around s)).
Proof using All.
  intros Hfresh Hsink Hrun.
  destruct Hrun as [resolvePlaced setupPlaced g e' Hsetup
                   |resolvePlaced setupPlaced g e' k j s1 created numaReady s result Hsetup Hgo Hnot Hlast Hret];
    destruct (construct_setup_run this c e resolvePlaced setupPlaced unloadPlaced Hfresh) as (ok & g' & e'' & Hsetup' & Hres);
    rewrite Hsetup in Hsetup'; injection Hsetup' as <- <- <-.
  { destruct Hres as (? & ? & Hor). by split_and!. }
  destruct Hres as [Hdone Hst].
  destruct (startup_run_keeps g e' k j _ s1 Hst (starting_initial g e' Hst) Hgo) as [Hs1 _].
  assert (starting g e' s1) as Hs1' by (unfold has_returned in Hnot; by destruct (startup_point s1)).
  destruct s1 as [g1 e1 ws1 point1].
  destruct (owner_steps g e' g1 e1 ws1 point1 created numaReady unloadPlaced Hst Hs1') as (s' & Hstep & Hs & _).
  cbn [startup_perform] in Hlast. rewrite Hlast in Hstep. injection Hstep as <-. rewrite Hret in Hs.
  destruct result.
  - destruct (finished_prepared unloadPlaced this c e g e' s Hsink Hdone Hst Hs) as (Hprep & ? & ?).
    split; [by apply service_begins|]. split; [apply Hprep|done].
  - destruct Hs as (Hws & Hcan & g2 & e2 & ok & Hg2 & He2 & Hrun). simpl.
    destruct Hdone as (_ & (store & infra & w & He') & Hundo & _).
    destruct (started_from_fields _ _ Hg2) as (_ & _ & _ & Hinit & _).
    destruct (flagged_from_fields _ _ He2) as (_ & _ & Hsame). destruct (startable_idle _ _ Hst) as (_ & _ & Hoff).
    assert (sink e' = sink e) as Hk by (by rewrite He').
    pose proof (started_undoable _ _ _ _ _ Hundo Hg2 He2) as Hundo2.
    split; [done|]. destruct unloadPlaced; cbn [executor_run] in Hrun.
    + destruct (unload_undoes e g2 e2 Hundo2) as (ok' & g3 & e3 & Hun & Hundone & _ & Hi & _ & _ & Hs).
      rewrite Hrun in Hun. injection Hun as _ Hg3 He3. rewrite He3 in Hcan. rewrite Hg3, He3.
      split; [congruence|]. split; [congruence|]. by right.
    + injection Hrun as _ -> ->. split; [congruence|]. split; [congruence|]. by right.
Qed.

End startup.
