(* ===== verification/GraphScenario.v ===== *)
(** A graph in service on the machine of [StaticScenario]: two tasks, two workers,
    a warm-up frame and two timed frames of 64 bytes. *)
From stdpp Require Import strings.
From S2P Require Import Prelude.
From S2P Require Import Platform.
From S2P Require Import GpuDataKey.
From S2P Require Import CacheTypes.
From S2P Require Import GpuTopology.
From S2P Require Import GpuContextManager.
From S2P Require Import RegistryInvariant.
From S2P Require Import RegistryBehaviour.
From S2P Require Import StaticGpuData.
From S2P Require Import StaticData.
From S2P Require Import StaticOwner.
From S2P Require Import StaticScenario.
From S2P Require Import ParameterRegistry.
From S2P Require Import DemoTypes.
From S2P Require Import DeviceCalls.
From S2P Require Import DummyTask.
From S2P Require Import DummyGraph.
From S2P Require Import GraphScheduler.
From S2P Require Import GraphService.
From S2P Require Import GraphProgress.
From S2P Require Import GraphBehaviour.
From S2P Require Import GraphSetup.
From S2P Require Import GraphStartup.
#[local] Open Scope N_scope.

(** Algorithms without state that always succeed. *)
#[export] Instance PlainAlgorithms : IAlgo := {|
  algorithm := unit;
  make_algorithms := [tt; tt; tt];
  algo_init _ _ a w := (true, 16, a, w);
  notifyParameter _ a := (true, a);
  launchKernels _ _ _ _ w := (true, w);
  launchD2H _ _ _ w := (true, w);
  collectResult _ output _ _ := (true, output);
  algo_close a w := (true, a, w);
|}.

(** Host memory whose byte at an address is the address. *)
#[export] Instance PlainHostMemory : HostMemory.
Proof.
  refine (Build_HostMemory _
    (λ n w, (0%Z, mem_next w, mkMemory (mem_next w + n) (mem_blocks w) (mem_log w) (mem_host w) (mem_flight w)))
    (λ _ w, (0%Z, w)) (λ p n w, (λ i, mem_host w (p + N.of_nat i)) <$> seq 0 (N.to_nat n)) _ (λ _ _ w, w)).
  intros p n w. rewrite vsize_fmap. unfold vsize. rewrite length_seq. lia.
Defined.

Definition plain_runtime : AlgoRuntimeInfo := mkRuntime 64 1 8 8 1.

Definition plain_task (n : Z) (address : ptr) : DummyTask :=
  mkDummyTask n Batched plain_runtime address [] true 1 Loaded.

Definition two_tasks : GpuInfra :=
  let infra := one_gpu <| task_store := <[501 := TaskGpuResources_default]> (task_store one_gpu) |> in
  infra <| task_store := <[502 := TaskGpuResources_default]> (task_store infra) |>.

Definition plain_atom (n : N) : FrameCpuAtom :=
  mkAtom (mkMetadata (mkKey n 0 0) 64 8 8 1) [] (mkResult n true []).

Definition plain_data : StaticData :=
  Eval vm_compute in owned (owner_run idle_owner
    [OwnInit small_frames one_gpu; OwnUpload DetectionZones 100 4 0; OwnFinalize]).

Definition plain_config : GraphConfig :=
  mkGraphConfig 2 2 2 50%Z 1 2 1 Batched plain_runtime (mkParams "demo" []) LRU.

Definition plain_graph : DummyGraph :=
  mkGraph plain_config [0%Z] ParameterRegistry_default ParameterSnapshot_default
    [plain_task 0 501; plain_task 1 502] plain_data [601] [602; 603] 0 0 0
    [] [0; 1] nullptr 2 0 0 0 0 false false false false true true false false false.

Definition plain_surroundings : Surroundings :=
  mkSurroundings {[601 := plain_atom 1; 602 := plain_atom 2; 603 := plain_atom 3]} false
    GraphSink_default ∅ two_tasks fresh_memory.

Definition plain_start : Scheduler := mkScheduler plain_graph plain_surroundings [AtTop; AtTop].

Definition plain_frames : list ptr := [601; 602; 603].

Lemma plain_prepared : prepared plain_frames plain_start.
Proof.
  split; simpl; try done.
  - split_and!; try done. by apply (bool_decide_unpack (NoDup plain_frames)).
  - intros p. rewrite !elem_of_cons, elem_of_nil. naive_solver.
  - intros f. unfold plain_frames. rewrite !elem_of_cons, elem_of_nil.
    intros [-> |[-> |[-> |[]]]]; vm_compute; eauto.
  - split; [|split; [done|]].
    + apply new_task_registry; [|done|by vm_compute].
      apply new_task_registry; [apply reachable_registry, one_gpu_reachable|done|by vm_compute].
    + intros t. rewrite !elem_of_cons, elem_of_nil. intros [-> |[-> |[]]]; vm_compute; eauto.
Qed.

(** A run; an action that has no step ends it. *)
Fixpoint graph_run (s : Scheduler) (acts : list graph_action) : Scheduler :=
  match acts with
  | [] => s
  | act :: acts =>
      match graph_perform s act with Some s => graph_run s acts | None => s end
  end.

Lemma graph_run_in_service acts all s :
  in_service all s → Forall (λ act, ¬ ends act) acts → in_service all (graph_run s acts).
Proof.
  revert s. induction acts as [|act acts IH]; intros s Hs Hacts; simpl; [done|].
  apply Forall_cons in Hacts as [Hact Hacts]. destruct (graph_perform s act) as [s'|] eqn:Hrun; [|done].
  apply IH; [|done]. by apply (service_goes_on all s act).
Qed.

(** An operation of a worker whose task succeeds. *)
Definition works (i : nat) : graph_action :=
  WorkerStep i true [] (gpuDataCache plain_data) fresh_memory.

(** The timed phase has begun behind gate 9: the first worker waits at it, the
    second sleeps or claims as the run goes on. *)
Definition gated : Scheduler :=
  graph_run plain_start [works 0; works 1; StartCycle true; StartPhase Timed 9; works 0; works 1].

(** Both frames of the timed phase are delivered. *)
Definition phase_done : Scheduler :=
  graph_run gated (OpenGate 9 :: concat (replicate 10 [works 0; works 1])).

(** Shutdown while both workers wait at the gate. *)
Definition stopped : Scheduler := default gated (graph_perform gated BeginShutdown).
Definition joined : Scheduler := graph_run stopped (concat (replicate 10 [works 0; works 1])).

Lemma plain_in_service acts :
  Forall (λ act, ¬ ends act) acts → in_service plain_frames (graph_run plain_start acts).
Proof. apply graph_run_in_service, service_begins, plain_prepared. Qed.

Lemma gated_in_service : in_service plain_frames gated.
Proof. apply plain_in_service. repeat constructor; by intros []. Qed.

Lemma stopped_step : graph_perform gated BeginShutdown = Some stopped.
Proof.
  assert (match graph_perform gated BeginShutdown with Some _ => true | None => false end = true) as Hs
    by by vm_compute.
  unfold stopped. by destruct (graph_perform gated BeginShutdown).
Qed.

Lemma frames_are_delivered_once_witness :
  delivered (around joined) ≡ₚ [601; 602; 603] ∧ sink_count (sink (around joined)) = 3
  ∧ failureCount (sink (around joined)) = 3.
Proof.
  assert (in_service plain_frames joined) as Hin.
  { unfold joined. apply graph_run_in_service; [|repeat constructor; by intros []].
    apply (service_goes_on _ gated BeginShutdown); [apply gated_in_service|by intros []|apply stopped_step]. }
  destruct (frames_are_delivered_once plain_frames joined Hin) as (_ & _ & _ & Hc & Hf & Hd).
  split; [|split; [rewrite Hc; by vm_compute|rewrite Hf; by vm_compute]].
  apply Hd. intros p Hp.
  assert (workers joined = [Exited; Exited]) as Hw by by vm_compute.
  rewrite Hw, !elem_of_cons, elem_of_nil in Hp. by destruct Hp as [-> |[-> |[]]].
Defined.

Lemma tasks_are_exclusive_witness :
  NoDup ([] ++ [1; 0]) ∧ inFlight (graph gated) = 2 ∧ lastMaxInFlight (graph gated) ≤ 2.
Proof.
  destruct (tasks_are_exclusive plain_frames gated gated_in_service) as (Hnd & _ & _ & _ & Hmax & _).
  split; [exact Hnd|]. split; [by vm_compute|exact Hmax].
Defined.

Lemma phase_done_in_service : in_service plain_frames phase_done.
Proof. apply graph_run_in_service; [apply gated_in_service|repeat constructor; by intros []]. Qed.

Lemma phase_results_are_true_witness :
  waitForPhase (graph phase_done) (around phase_done) = Some true
  ∧ delivered (around phase_done) ++ [601] ≡ₚ [601; 602; 603].
Proof.
  split; [by vm_compute|].
  destruct (phase_results_are_true plain_frames phase_done true) as (_ & _ & Hd & _);
    [apply phase_done_in_service|by vm_compute..|].
  replace [601] with (unsubmitted (graph phase_done)) by by vm_compute. exact Hd.
Defined.

(** The gate opens: [22] operations at most per frame or worker, and now somebody
    has one. *)
Lemma phases_finish_witness : can_go_on (graph_run gated [OpenGate 9]).
Proof.
  destruct (phases_finish plain_frames (graph_run gated [OpenGate 9]) 0 (graph_run gated [OpenGate 9]))
    as [_ Hgo].
  - apply graph_run_in_service; [apply gated_in_service|repeat constructor; by intros []].
  - by vm_compute.
  - by vm_compute.
  - apply bool_decide_unpack with (decide_rel _ _ _). by vm_compute.
  - constructor.
  - apply Hgo. by vm_compute.
Defined.

Lemma shutdown_joins_workers_witness : stopping (graph stopped) = true ∧ can_go_on stopped.
Proof.
  destruct (shutdown_joins_workers plain_frames gated stopped 0 stopped) as (_ & Hs & Hor).
  - apply gated_in_service.
  - apply stopped_step.
  - constructor.
  - split; [exact Hs|]. destruct Hor as [[Hall _]|Hgo]; [|exact Hgo].
    assert (head (workers stopped) = Some (AtGate 602 1 9)) as Hw by by vm_compute.
    destruct (workers stopped) as [|p ws]; [discriminate|]. injection Hw as ->.
    specialize (Hall (AtGate 602 1 9) (list_elem_of_here _ _)). discriminate.
Defined.

(** ** Initialization

    A graph of two tasks and as many threads, without frames: a valid runtime's
    frames have at least 16384 bytes. *)

Definition start_runtime : AlgoRuntimeInfo := mkRuntime 16384 16 128 128 1.
Definition start_config : GraphConfig :=
  mkGraphConfig 2 0 2 50%Z 0 0 7 Batched start_runtime (mkParams "demo" []) LRU.
Definition start_surroundings : Surroundings :=
  mkSurroundings ∅ false GraphSink_default ∅ one_gpu fresh_memory.

Definition setup_result : option (bool * DummyGraph * Surroundings) :=
  initialize_setup true true true (DummyGraph_construct start_config (StaticData_default 900)) start_surroundings.

Definition set_up_start : Startup :=
  match setup_result with
  | Some (_, g, e) => startup_initial g e
  | None => startup_initial plain_graph plain_surroundings
  end.

Definition setup_facts (r : option (bool * DummyGraph * Surroundings)) : option (bool * N) :=
  match r with Some (ok, g, _) => Some (ok, graphThreads (config g)) | None => None end.

Lemma start_set_up : ∃ g e, setup_result = Some (true, g, e) ∧ graphThreads (config g) = 2.
Proof.
  assert (setup_facts setup_result = Some (true, 2)) as Hfacts by (vm_compute; reflexivity).
  destruct setup_result as [[[ok g] e]|]; [|discriminate]. injection Hfacts as -> Hthreads. by exists g, e.
Qed.

Lemma start_fresh : fresh 900 start_config start_surroundings.
Proof.
  split; [done|apply reachable_registry, one_gpu_reachable|by split|].
  intros c x Hx. apply elem_of_map_to_list in Hx.
  assert (forallb (λ p, vsize (taskResources p.2) =? 0) (map_to_list (context_store one_gpu)) = true) as Hall
    by by vm_compute.
  rewrite forallb_forall in Hall. specialize (Hall (c, x) (proj1 (list_elem_of_In _ _) Hx)).
  apply N.eqb_eq in Hall. simpl in Hall. rewrite Hall. by vm_compute.
Qed.

(** Operations until [initialize] returns, and how many of them got somewhere; an
    operation that has no step ends the run. *)
Fixpoint startup_session (s : Startup) (acts : list startup_action) : nat * Startup :=
  match acts with
  | [] => (0%nat, s)
  | act :: acts =>
      if has_returned s then (0%nat, s)
      else
        match startup_perform s act with
        | None => (0%nat, s)
        | Some s1 =>
            let '(k, s2) := startup_session s1 acts in
            ((k + if startup_gains s act then 1 else 0)%nat, s2)
        end
  end.

Lemma startup_session_run s acts : ∃ j, startup_run (fst (startup_session s acts)) j s (snd (startup_session s acts)).
Proof.
  revert s. induction acts as [|act acts IH]; intros s; simpl; [exists 0%nat; constructor|].
  destruct (has_returned s) eqn:Hret; [exists 0%nat; constructor|].
  destruct (startup_perform s act) as [s1|] eqn:Hstep; [|exists 0%nat; constructor].
  destruct (IH s1) as [j Hrun]. destruct (startup_session s1 acts) as [k s2]. simpl in *.
  eexists. by eapply startup_goes_on.
Qed.

Definition owner_works : startup_action := OwnerOperation true true true.

(** Both threads are created; the owner sleeps until they have registered. *)
Definition good_start : list startup_action :=
  [owner_works; owner_works; owner_works; owner_works; WorkerOperation 0; WorkerOperation 1;
   owner_works; owner_works].

(** The second thread cannot be created; the first is stopped and joined, and the
    owner's last operation unloads. *)
Definition bad_start : list startup_action :=
  [owner_works; OwnerOperation false true true; owner_works; WorkerOperation 0; owner_works;
   WorkerOperation 0; owner_works].

Lemma start_returned acts result s2 :
  has_returned (snd (startup_session set_up_start acts)) = false →
  startup_perform (snd (startup_session set_up_start acts)) owner_works = Some s2 →
  startup_point s2 = InitializeReturned result →
  initialize_run 900 start_config start_surroundings true result
    (mkScheduler (startup_graph s2) (startup_around s2) (startup_workers s2)).
Proof.
  intros Hnot Hlast Hret. destruct (startup_session_run set_up_start acts) as [j Hrun].
  destruct start_set_up as (g & e & Hsetup & _). unfold set_up_start in *. rewrite Hsetup in *.
  exact (initialize_started 900 start_config start_surroundings true true true g e _ _ _ true true s2 result
           Hsetup Hrun Hnot Hlast Hret).
Qed.

(** What is left to see once the owner's last operation is done. *)
Definition last_facts (acts : list startup_action) : option (bool * StartupPoint * nat) :=
  let s := snd (startup_session set_up_start acts) in
  match startup_perform s owner_works with
  | Some s2 => Some (has_returned s, startup_point s2, length (startup_workers s2))
  | None => None
  end.

Lemma start_facts acts result n :
  last_facts acts = Some (false, InitializeReturned result, n) →
  ∃ s, initialize_run 900 start_config start_surroundings true result s ∧ length (workers s) = n.
Proof.
  unfold last_facts. destruct (startup_perform _ _) as [s2|] eqn:Hlast; [|done]. intros [= Hnot Hret Hn].
  eexists. split; [by eapply start_returned|done].
Qed.

Lemma initialize_outcome_witness :
  (∃ s, initialize_run 900 start_config start_surroundings true true s ∧ vsize (workers s) = 2
     ∧ in_service (warmupAtoms (graph s) ++ timedAtoms (graph s)) s)
  ∧ ∃ s, initialize_run 900 start_config start_surroundings true false s ∧ workers s = [] ∧ tasks (graph s) = []
     ∧ atoms (around s) = ∅ ∧ sink (around s) = GraphSink_default.
Proof.
  split.
  - destruct (start_facts (take 7 good_start) true 2) as (s & Hrun & Hws); [vm_compute; reflexivity|]. exists s. split; [done|].
    split; [unfold vsize; by rewrite Hws|].
    by apply (initialize_outcome 900 start_config start_surroundings true true s start_fresh eq_refl Hrun).
  - destruct (start_facts bad_start false 0) as (s & Hrun & Hws); [vm_compute; reflexivity|]. exists s. split; [done|].
    destruct (initialize_outcome 900 start_config start_surroundings true false s start_fresh eq_refl Hrun)
      as (? & _ & Hs & Hor).
    assert (undone start_surroundings (graph s) (around s)) as (Ht & _ & _ & Ha & _) by (by destruct Hor as [[_ ?]|[_ ?]]).
    by split.
Defined.

Lemma initialize_returns_witness :
  fst (startup_session set_up_start good_start) = 8%nat
  ∧ ∃ j, (fst (startup_session set_up_start good_start) ≤ 20 + j)%nat.
Proof.
  split; [vm_compute; reflexivity|].
  destruct (initialize_returns 900 start_config start_surroundings true true true start_fresh) as (ok & g & e & Hsetup & Hall).
  destruct (startup_session_run set_up_start good_start) as [j Hrun]. exists j.
  destruct start_set_up as (g' & e' & Hsetup' & Hthreads).
  assert (set_up_start = startup_initial g' e') as Hs by (unfold set_up_start; rewrite Hsetup'; reflexivity).
  unfold setup_result in Hsetup'. rewrite Hsetup in Hsetup'. injection Hsetup' as -> -> ->. rewrite Hs in *.
  destruct (Hall eq_refl _ _ _ Hrun) as [Hbound _]. rewrite Hthreads in Hbound. exact Hbound.
Defined.
