(* ===== verification/Program.v ===== *)
(** The demo's program ([demo/main.cpp]): the command line, the plan of one graph
    per NUMA node, the run of all graphs and the verdict.  The graphs' own calls are
    modelled in [DummyGraph]; here a call is an event, answered by an environment
    that may answer anything, and a run is the sequence of its calls. *)
From Stdlib Require Import Ascii.
From stdpp Require Import strings.
From S2P Require Import Prelude.
From S2P Require Import CacheTypes.
From S2P Require Import GpuTopology.
From S2P Require Import StaticData.
From S2P Require Import DemoTypes.
From S2P Require Import DummyTask.
From S2P Require Import DummyGraph.
From S2P Require Import NumberText.
#[local] Open Scope N_scope.

Definition TASKS_PER_GPU : size_t := 4.
Definition DEFAULT_TIMED_FRAMES_PER_GPU : uint64 := 200.
Definition DEFAULT_WARMUP_FRAMES_PER_GPU : uint64 := 20.
Definition DEFAULT_FACTOR : Z := 128.

(** ** The command line *)

Definition parseFrameCount (value : text) (allowZero : bool) : option uint64 :=
  '(parsed, rest) ← stoull value;
  match rest with
  | [] => if negb allowZero && (parsed =? 0) then None else Some parsed
  | _ => None
  end.

Definition parseExecutionModel (value : text) : option ExecutionModel :=
  if bool_decide (value = String.list_ascii_of_string "batched") then Some Batched
  else if bool_decide (value = String.list_ascii_of_string "interleaved") then Some Interleaved
  else None.

Definition parseSizeFactor (value : text) : option Z :=
  '(parsed, rest) ← stoull value;
  match rest with
  | [] =>
      if Z.to_N MAX_FACTOR <? parsed then None
      else
        let factor := Z.of_N parsed in
        if negb (isValidFactor factor) then None else Some factor
  | _ => None
  end.

Record Options := mkOptions {
  timedFrames : uint64;
  warmupFrames : uint64;
  option_model : ExecutionModel;
  option_factor : Z;
}.

(** An argument that may be left out. *)
Definition argument {A} (args : list text) (index : nat) (default : A) (parse : text → option A) : option A :=
  match args !! index with None => Some default | Some value => parse value end.

(** [argv] after the program's name; [None] is exit code 2. *)
Definition parseOptions (args : list text) : option Options :=
  if (4 <? vsize args) then None
  else
    timed ← argument args 0 DEFAULT_TIMED_FRAMES_PER_GPU (λ v, parseFrameCount v false);
    warmup ← argument args 1 DEFAULT_WARMUP_FRAMES_PER_GPU (λ v, parseFrameCount v true);
    model ← argument args 2 Batched parseExecutionModel;
    factor ← argument args 3 DEFAULT_FACTOR parseSizeFactor;
    if sub64 SIZE_MAX timed <? warmup then None else Some (mkOptions timed warmup model factor).

(** ** The graphs *)

(** [gpusByNumaNode[location.numaNode].push_back(location.gpuId)], in a map that is
    ordered by the node. *)
Fixpoint addLocation (location : GpuLocation) (nodes : list (Z * list Z)) : list (Z * list Z) :=
  match nodes with
  | [] => [(location_numaNode location, [location_gpuId location])]
  | (node, gpus) :: rest =>
      if (location_numaNode location =? node)%Z then (node, gpus ++ [location_gpuId location]) :: rest
      else if (location_numaNode location <? node)%Z
      then (location_numaNode location, [location_gpuId location]) :: nodes
      else (node, gpus) :: addLocation location rest
  end.

Definition groupLocations (locations : list GpuLocation) : list (Z * list Z) :=
  foldl (λ nodes location, addLocation location nodes) [] locations.

(** [GraphConfig()] with what [main] sets; the cache's members keep their
    defaults. *)
Definition graphConfigFor (options : Options) (runtime : AlgoRuntimeInfo) (gpus : list Z) (first : uint64) :
    GraphConfig :=
  mkGraphConfig TASKS_PER_GPU (mul64 TASKS_PER_GPU (vsize gpus)) 4 50 (warmupFrames options) (timedFrames options)
    first (option_model options) runtime (mkParams "demo" []) LRU.

(** The loop over the nodes: whether every graph's frames can be numbered, and the
    graphs made so far, with their nodes. *)
Fixpoint planGraphs (options : Options) (runtime : AlgoRuntimeInfo) (nodes : list (Z * list Z)) (first : uint64) :
    bool * list (Z * GraphConfig) :=
  match nodes with
  | [] => (true, [])
  | (node, gpus) :: rest =>
      let total := add64 (warmupFrames options) (timedFrames options) in
      if SIZE_MAX / vsize gpus <? total then (false, [])
      else
        let count := mul64 total (vsize gpus) in
        if sub64 SIZE_MAX count <? first then (false, [])
        else
          let '(ok, graphs) := planGraphs options runtime rest (add64 first count) in
          (ok, (node, graphConfigFor options runtime gpus first) :: graphs)
  end.

(** [runtime], from the size factor; [None] is an overflow of [int]. *)
Definition runtimeFor (factor : Z) : option AlgoRuntimeInfo :=
  width ← scaledDimension factor INPUT_MULTIPLIER;
  Some (mkRuntime (squareBytes width 1) factor width width 1).

(** ** The run *)

(** What [main] calls, in the order it does.  A graph is named by its index in the
    vector. *)
Inductive call :=
  | InitManager
  | Initialize (graph : nat)
  | Start (graph : nat)
  | StartPhase (phase : FramePhase) (graph : nat)
  | ReleaseGate (phase : FramePhase)
  | WaitForPhase (phase : FramePhase) (graph : nat)
  | LoadCancellation
  | StoreCancellation
  | Stop (graph : nat)
  | PrintStatistics (graph : nat)
  | Shutdown (graph : nat)
  | ShutdownManager.

(** The calls made so far, and a computation that makes more of them. *)
Abbreviation history := (list call).
Definition Run (A : Type) : Type := history → A * history.
#[export] Instance Run_ret : MRet Run := λ A x h, (x, h).
#[export] Instance Run_bind : MBind Run := λ A B f m h, let '(x, h) := m h in f x h.

Section run.
(** The answer to a call, after those made before it. *)
Context (env : history → call → bool).

Definition ask (c : call) : Run bool := λ h, (env h c, h ++ [c]).
Definition tell (c : call) : Run unit := λ h, ((), h ++ [c]).

(** The loop of [startPhase], which [runPhase] has, too: the flags of the graphs
    that accepted. *)
Fixpoint startPhases (phase : FramePhase) (graphs : list nat) : Run (bool * list (nat * bool)) :=
  match graphs with
  | [] => mret (true, [])
  | graph :: rest =>
      started ← ask (StartPhase phase graph);
      _ ← (if negb started then tell StoreCancellation else mret ());
      '(ok, flags) ← startPhases phase rest;
      mret (started && ok, (graph, started) :: flags)
  end.

(** [waitForPhase] *)
Fixpoint waitPhases (phase : FramePhase) (flags : list (nat * bool)) : Run bool :=
  match flags with
  | [] => mret true
  | (graph, started) :: rest =>
      finished ← (if started : bool then ask (WaitForPhase phase graph) else mret true);
      ok ← waitPhases phase rest;
      mret (finished && ok)
  end.

Definition runPhase (phase : FramePhase) (graphs : list nat) : Run bool :=
  '(ok, flags) ← startPhases phase graphs;
  _ ← tell (ReleaseGate phase);
  finished ← waitPhases phase flags;
  if ok && finished then cancelled ← ask LoadCancellation; mret (negb cancelled) else mret false.

(** The timed phase in [main]. *)
Definition runTimedPhase (graphs : list nat) : Run bool :=
  '(ok, flags) ← startPhases Timed graphs;
  _ ← tell (ReleaseGate Timed);
  finished ← waitPhases Timed flags;
  cancelled ← ask LoadCancellation;
  mret (ok && finished && negb cancelled).

(** The loops over the graphs that stop at the first failure. *)
Fixpoint initializeGraphs (graphs : list nat) : Run bool :=
  match graphs with
  | [] => mret true
  | graph :: rest =>
      ok ← ask (Initialize graph);
      if ok : bool then initializeGraphs rest else _ ← tell StoreCancellation; mret false
  end.

Fixpoint startGraphs (graphs : list nat) : Run (bool * list (nat * bool)) :=
  match graphs with
  | [] => mret (true, [])
  | graph :: rest =>
      started ← ask (Start graph);
      if started : bool then
        '(ok, flags) ← startGraphs rest; mret (ok, (graph, true) :: flags)
      else _ ← tell StoreCancellation; mret (false, (λ graph, (graph, false)) <$> graph :: rest)
  end.

Fixpoint stopGraphs (flags : list (nat * bool)) : Run bool :=
  match flags with
  | [] => mret true
  | (graph, started) :: rest =>
      stopped ← (if started : bool then ask (Stop graph) else mret true);
      ok ← stopGraphs rest;
      mret (stopped && ok)
  end.

Fixpoint printGraphs (graphs : list nat) : Run unit :=
  match graphs with
  | [] => mret ()
  | graph :: rest => _ ← tell (PrintStatistics graph); printGraphs rest
  end.

Fixpoint shutdownGraphs (graphs : list nat) : Run bool :=
  match graphs with
  | [] => mret true
  | graph :: rest =>
      down ← ask (Shutdown graph);
      ok ← shutdownGraphs rest;
      mret (down && ok)
  end.

(** The calls on the graphs that were made, from [initialize] to the shutdown of
    the manager: whether all of them succeeded.  [valid] is the flag the plan and
    the comparison with the number of nodes leave. *)
Definition runGraphs (valid : bool) (count : nat) : Run bool :=
  let graphs := seq 0 count in
  initialized ← (if valid then initializeGraphs graphs else mret false);
  '(ok, flags) ← (if initialized : bool then startGraphs graphs
                  else mret (false, (λ graph, (graph, false)) <$> graphs));
  ok ← (if ok : bool then runPhase Warmup graphs else mret false);
  ok ← (if ok : bool then runTimedPhase graphs else mret false);
  stopped ← stopGraphs flags;
  _ ← printGraphs graphs;
  down ← shutdownGraphs graphs;
  _ ← tell ShutdownManager;
  mret (ok && stopped && down).

(** [main]: the exit code.  [locations] are the GPUs the manager knows once it is
    up; [sink_counts] are the results the sink counts in the end, and those of them
    that failed.  The destructors of the graphs repeat their shutdown, which does
    nothing then, after the last call here.  [None] is a division by zero, for a manager without GPUs, or an
    overflow of [int]. *)
Definition main (args : list text) (locations : list GpuLocation) (sink_counts : history → size_t * size_t)
    (h : history) : option (Z * history) :=
  match parseOptions args with
  | None => Some (2%Z, h)
  | Some options =>
      runtime ← runtimeFor (option_factor options);
      let '(up, h) := ask InitManager h in
      if negb up then Some (1%Z, h)
      else
        let nodes := groupLocations locations in
        let '(valid, graphs) := planGraphs options runtime nodes 0 in
        let valid := valid && negb (vsize graphs =? 0) && (vsize graphs =? vsize nodes) in
        let '(ok, h) := runGraphs valid (length graphs) h in
        let total := add64 (warmupFrames options) (timedFrames options) in
        let gpuCount := vsize locations in
        if gpuCount =? 0 then None
        else
          let '(delivered, failedResults) := sink_counts h in
          let expectedFits := total <=? SIZE_MAX / gpuCount in
          let expected := if expectedFits then mul64 gpuCount total else 0 in
          Some (if ok && expectedFits && (delivered =? expected) && (failedResults =? 0) then 0%Z else 1%Z, h)
  end.

End run.
