(* ===== verification/ProgramBehaviour.v ===== *)
(** What the program promises: the graphs' frames are numbered without overlap, its
    calls respect the graphs' protocol whatever they answer, and it reports success
    only if everything succeeded. *)
From Stdlib Require Import Ascii Sorted.
From stdpp Require Import strings.
From S2P Require Import Prelude.
From S2P Require Import CacheTypes.
From S2P Require Import GpuTopology.
From S2P Require Import StaticData.
From S2P Require Import DemoTypes.
From S2P Require Import DummyTask.
From S2P Require Import DummyGraph.
From S2P Require Import NumberText.
From S2P Require Import Program.
#[local] Open Scope N_scope.

(** ** The plan *)

Definition total_of (options : Options) : N := warmupFrames options + timedFrames options.

(** The GPUs of some nodes. *)
Definition gpus_of (nodes : list (Z * list Z)) : N := foldr (λ node n, vsize node.2 + n) 0 nodes.

(** The graphs' frames are numbered one after the other, from [first] on. *)
Fixpoint numbered (total first : N) (nodes : list (Z * list Z)) (graphs : list (Z * GraphConfig)) : Prop :=
  match nodes, graphs with
  | _, [] => True
  | (node, gpus) :: nodes, (node', c) :: graphs =>
      node' = node ∧ firstFrameId c = first ∧ first + total * vsize gpus < two64
      ∧ numbered total (first + total * vsize gpus) nodes graphs
  | [], _ :: _ => False
  end.

Lemma planGraphs_run options runtime nodes first :
  total_of options < two64 → first < two64 → Forall (λ node, node.2 ≠ []) nodes →
  let '(ok, graphs) := planGraphs options runtime nodes first in
  numbered (total_of options) first nodes graphs
  ∧ (ok = true → length graphs = length nodes)
  ∧ (ok = true ↔ first + total_of options * gpus_of nodes < two64).
Proof.
  intros Htot. revert first. induction nodes as [|[node gpus] nodes IH]; intros first Hfirst Hne; simpl.
  { rewrite N.mul_0_r. by rewrite N.add_0_r. }
  apply Forall_cons in Hne as [Hg Hne]. simpl in Hg.
  assert (0 < vsize gpus) as Hsize by (destruct gpus; [done|unfold vsize; simpl; lia]).
  fold (gpus_of nodes). rewrite (add64_small (warmupFrames options)) by done. fold (total_of options).
  set (t := total_of options) in *. set (n := vsize gpus) in *.
  rewrite product_over by done. destruct (N.ltb_spec (t * n) two64) as [Hprod|Hbig]; cbn [negb].
  2: { split; [done|]. split; [done|]. split; [done|]. unfold SIZE_MAX, two64 in *. nia. }
  rewrite (mul64_small t n) by (unfold SIZE_MAX, two64 in *; lia).
  rewrite sub64_max by (unfold SIZE_MAX, two64 in *; lia).
  destruct (N.ltb_spec (SIZE_MAX - t * n) first) as [Hbig|Hfits2].
  { split; [done|]. split; [done|]. split; [done|]. unfold SIZE_MAX, two64 in *. nia. }
  assert (first + t * n < two64) as Hnext by (unfold SIZE_MAX, two64 in *; lia).
  rewrite add64_small by done. specialize (IH (first + t * n) Hnext Hne).
  destruct (planGraphs options runtime nodes (first + t * n)) as [ok graphs]. destruct IH as (Hnum & Hlen & Hok).
  split; [by split_and!|]. split; [intros Ht; simpl; by rewrite Hlen|]. rewrite Hok. fold n.
  by replace (first + t * n + t * gpus_of nodes) with (first + t * (n + gpus_of nodes)) by lia.
Qed.

(** ** The nodes *)

Lemma addLocation_gpus location nodes : gpus_of (addLocation location nodes) = gpus_of nodes + 1.
Proof.
  induction nodes as [|[node gpus] nodes IH]; simpl; [done|]. fold (gpus_of nodes).
  case_match; [|case_match]; simpl; fold (gpus_of nodes); fold (gpus_of (addLocation location nodes)).
  - unfold vsize. rewrite length_app. simpl. lia.
  - unfold vsize. simpl. lia.
  - rewrite IH. lia.
Qed.

Lemma addLocation_nonempty location nodes :
  Forall (λ node, node.2 ≠ []) nodes → Forall (λ node : Z * list Z, node.2 ≠ []) (addLocation location nodes).
Proof.
  induction nodes as [|[node gpus] nodes IH]; intros Hne; simpl; [by constructor|].
  apply Forall_cons in Hne as [Hg Hne]. case_match; [|case_match]; repeat constructor; simpl in *; auto.
  by destruct gpus.
Qed.

(** The GPUs a node has in the map. *)
Definition on (node : Z) (gpu : Z) (nodes : list (Z * list Z)) : Prop := ∃ gpus, (node, gpus) ∈ nodes ∧ gpu ∈ gpus.

Lemma addLocation_on location nodes node gpu :
  on node gpu (addLocation location nodes)
  ↔ on node gpu nodes ∨ node = location_numaNode location ∧ gpu = location_gpuId location.
Proof.
  induction nodes as [|[x gpus] nodes IH]; simpl.
  { unfold on. setoid_rewrite list_elem_of_singleton. setoid_rewrite elem_of_nil. naive_solver set_solver. }
  assert (∀ y ys l, on node gpu ((y, ys) :: l) ↔ node = y ∧ gpu ∈ ys ∨ on node gpu l) as Hcons.
  { intros y ys l. unfold on. setoid_rewrite elem_of_cons. naive_solver. }
  destruct (Z.eqb_spec (location_numaNode location) x) as [->|Hne].
  { rewrite !Hcons, elem_of_app, list_elem_of_singleton. naive_solver. }
  case_match; rewrite !Hcons, ?IH, ?list_elem_of_singleton; naive_solver.
Qed.

Lemma addLocation_sorted location nodes :
  StronglySorted Z.lt nodes.*1 → StronglySorted Z.lt (addLocation location nodes).*1.
Proof.
  assert (∀ nodes x, Forall (Z.lt x) nodes.*1 → (x < location_numaNode location)%Z →
    Forall (Z.lt x) (addLocation location nodes).*1) as Hall.
  { clear. induction nodes as [|[y gpus] nodes IH]; intros x Hx Hlt; simpl; [by constructor|].
    apply Forall_cons in Hx as [Hy Hx]. case_match; [|case_match]; repeat constructor; simpl; auto. }
  induction nodes as [|[x gpus] nodes IH]; intros Hs; simpl; [by repeat constructor|].
  inversion_clear Hs as [|? ? Hs' Hx].
  destruct (Z.eqb_spec (location_numaNode location) x) as [_|Hne]; [by constructor|].
  destruct (Z.ltb_spec (location_numaNode location) x) as [Hlt|Hge]; simpl; constructor.
  - by constructor.
  - constructor; [done|]. eapply Forall_impl; [exact Hx|]. intros y ?. cbv beta. lia.
  - by apply IH.
  - apply Hall; [done|lia].
Qed.

Lemma groupLocations_run locations :
  gpus_of (groupLocations locations) = vsize locations
  ∧ Forall (λ node, node.2 ≠ []) (groupLocations locations)
  ∧ StronglySorted Z.lt (groupLocations locations).*1
  ∧ ∀ node gpu, on node gpu (groupLocations locations) ↔ mkLocation gpu node ∈ locations.
Proof.
  unfold groupLocations. induction locations as [|location locations IH] using rev_ind.
  { split_and!; [done|by constructor|by constructor|]. intros node gpu. unfold on. simpl.
    setoid_rewrite elem_of_nil. naive_solver. }
  destruct IH as (Hg & Hne & Hs & Hon). rewrite foldl_app. simpl. split_and!.
  - rewrite addLocation_gpus, Hg. unfold vsize. rewrite length_app. simpl. lia.
  - by apply addLocation_nonempty.
  - by apply addLocation_sorted.
  - intros node gpu. rewrite addLocation_on, Hon, elem_of_app, list_elem_of_singleton. destruct location. naive_solver.
Qed.

Lemma parseFrameCount_bound value allowZero n : parseFrameCount value allowZero = Some n → n < two64.
Proof.
  unfold parseFrameCount, stoull. destruct (scan_integer value) as [[[negative digits] rest]|]; [|done]. simpl.
  destruct (N.ltb_spec SIZE_MAX (Z.to_N (decimal digits))) as [|Hle]; [done|]. simpl.
  destruct rest; [|done]. destruct (_ && _); [done|]. intros [= <-].
  destruct negative; [apply wrap64_lt|]. unfold SIZE_MAX, two64 in *. lia.
Qed.

(** The program never runs with more frames than it can number. *)
Lemma parseOptions_total args options : parseOptions args = Some options → total_of options < two64.
Proof.
  unfold parseOptions, argument. destruct (4 <? vsize args); [done|].
  destruct (match args !! 0%nat with Some _ => _ | None => _ end) as [timed|] eqn:Ht; [|done].
  destruct (match args !! 1%nat with Some _ => _ | None => _ end) as [warmup|] eqn:Hw; [|done].
  destruct (match args !! 2%nat with Some _ => _ | None => _ end) as [model|]; [|done].
  destruct (match args !! 3%nat with Some _ => _ | None => _ end) as [factor|]; [|done].
  cbn [mbind option_bind]. destruct (N.ltb_spec (sub64 SIZE_MAX timed) warmup) as [|Hle]; [done|].
  intros [= <-]. unfold total_of. simpl.
  assert (timed < two64) as Hb by (destruct (args !! 0%nat); [by eapply parseFrameCount_bound|by simplify_eq]).
  rewrite sub64_max in Hle by done. unfold SIZE_MAX, two64 in *. lia.
Qed.

(** The frames of a graph, and of those before another. *)
Lemma numbered_lookup total first nodes graphs i node gpus node' c :
  numbered total first nodes graphs → nodes !! i = Some (node, gpus) → graphs !! i = Some (node', c) →
  node' = node ∧ first ≤ firstFrameId c ∧ firstFrameId c + total * vsize gpus < two64
  ∧ ∀ j node'' c', (i < j)%nat → graphs !! j = Some (node'', c') →
      firstFrameId c + total * vsize gpus ≤ firstFrameId c'.
Proof.
  assert (∀ nodes first graphs j node c, numbered total first nodes graphs → graphs !! j = Some (node, c) →
    first ≤ firstFrameId c) as Hlow.
  { clear. induction nodes as [|[x gpus] nodes IH]; intros first [|[x' c0] graphs] j node c Hn Hj; try done.
    destruct Hn as (-> & <- & _ & Hn). destruct j as [|j]; [by injection Hj as <- <-|].
    specialize (IH _ graphs j node c Hn Hj). lia. }
  revert first graphs i. induction nodes as [|[x xs] nodes IH]; intros first [|[x' c0] graphs] i Hn Hi Hc; try done.
  destruct Hn as (-> & <- & Hlt & Hn). destruct i as [|i]; simpl in Hi, Hc.
  - injection Hi as -> ->. injection Hc as <- ->. split_and!; try done.
    intros [|j] node'' c' Hj Hc'; [lia|]. by apply (Hlow nodes _ graphs j node'').
  - destruct (IH _ graphs i Hn Hi Hc) as (-> & Hfirst & Hc' & Hlater). split_and!; try done; [lia|].
    intros [|j] node'' c' Hj Hget; [lia|]. apply (Hlater j node''); [lia|done].
Qed.

(** C29.  The plan makes one graph per NUMA node, in the nodes' order and with all of the
    node's GPUs, and numbers the graphs' frames without a gap that could wrap: a
    graph's frames end before the next one's begin, and all of them are below
    [2 ^ 64].  It is given up exactly where the frames of all GPUs cannot be
    numbered. *)
Theorem frames_are_numbered args options runtime locations ok graphs :
  parseOptions args = Some options →
  planGraphs options runtime (groupLocations locations) 0 = (ok, graphs) →
  (ok = true ↔ total_of options * vsize locations < two64)
  ∧ (ok = true → length graphs = length (groupLocations locations))
  ∧ StronglySorted Z.lt (groupLocations locations).*1
  ∧ (∀ node gpu, on node gpu (groupLocations locations) ↔ mkLocation gpu node ∈ locations)
  ∧ ∀ i node gpus node' c,
      groupLocations locations !! i = Some (node, gpus) → graphs !! i = Some (node', c) →
      node' = node ∧ firstFrameId c + total_of options * vsize gpus < two64
      ∧ ∀ j node'' c', (i < j)%nat → graphs !! j = Some (node'', c') →
          firstFrameId c + total_of options * vsize gpus ≤ firstFrameId c'.
Proof.
  intros Hopt Hplan. apply parseOptions_total in Hopt.
  destruct (groupLocations_run locations) as (Hg & Hne & Hs & Hon).
  pose proof (planGraphs_run options runtime _ 0 Hopt ltac:(done) Hne) as Hrun. rewrite Hplan in Hrun.
  destruct Hrun as (Hnum & Hlen & Hok). rewrite N.add_0_l, Hg in Hok. split_and!; try done.
  intros i node gpus node' c Hi Hc. destruct (numbered_lookup _ _ _ _ _ _ _ _ _ Hnum Hi Hc) as (? & _ & ? & ?).
  by split_and!.
Qed.

(** ** The protocol *)

Section protocol.
Context (env : history → call → bool) (n : nat).

(** The call was made, and answered with success. *)
Definition accepted (h : history) (c : call) : Prop := ∃ a b, h = a ++ c :: b ∧ env a c = true.

(** What must have happened before a call. *)
Definition justified (h : history) (c : call) : Prop :=
  match c with
  | InitManager => h = []
  | Initialize i => accepted h InitManager ∧ ∀ j, (j < i)%nat → accepted h (Initialize j)
  | Start i => (∀ j, (j < n)%nat → accepted h (Initialize j)) ∧ ∀ j, (j < i)%nat → accepted h (Start j)
  | StartPhase phase i =>
      (∀ j, (j < n)%nat → accepted h (Start j))
      ∧ (phase = Timed → ∀ j, (j < n)%nat → accepted h (WaitForPhase Warmup j))
  | ReleaseGate phase => ∀ j, (j < n)%nat → StartPhase phase j ∈ h
  | WaitForPhase phase i => ReleaseGate phase ∈ h ∧ accepted h (StartPhase phase i)
  | Stop i =>
      accepted h (Start i) ∧ ∀ phase j, accepted h (StartPhase phase j) → WaitForPhase phase j ∈ h
  | Shutdown i => ∀ j, accepted h (Start j) → Stop j ∈ h
  | ShutdownManager => ∀ j, (j < n)%nat → Shutdown j ∈ h
  | _ => True
  end.

Definition follows (h : history) : Prop := ∀ a c b, h = a ++ c :: b → justified a c.

Lemma follows_snoc h c : follows h → justified h c → follows (h ++ [c]).
Proof.
  intros Hh Hc a c' b Heq. destruct b as [|x b _] using rev_ind.
  - apply app_inj_tail in Heq as [<- <-]. done.
  - rewrite app_comm_cons, app_assoc in Heq. apply app_inj_tail in Heq as [-> _]. by apply (Hh a c' b).
Qed.

Lemma accepted_in h c : accepted h c → c ∈ h.
Proof. intros (a & b & -> & _). rewrite elem_of_app, elem_of_cons. auto. Qed.

Lemma accepted_snoc h c c' : accepted (h ++ [c]) c' ↔ accepted h c' ∨ c' = c ∧ env h c = true.
Proof.
  split.
  - intros (a & b & Heq & Ha). destruct b as [|x b _] using rev_ind.
    + apply app_inj_tail in Heq as [<- ->]. auto.
    + rewrite app_comm_cons, app_assoc in Heq. apply app_inj_tail in Heq as [-> _]. left. by exists a, b.
  - intros [(a & b & -> & Ha)|[-> Ha]]; [|by exists h, []].
    exists a, (b ++ [c]). by rewrite <-app_assoc.
Qed.

(** A computation that follows the protocol and makes only calls of some kind. *)
Record steps (kind : call → Prop) (h h' : history) : Prop := {
  steps_follows : follows h';
  steps_in c : c ∈ h → c ∈ h';
  steps_accepted c : accepted h c → accepted h' c;
  steps_new c : accepted h' c → accepted h c ∨ kind c;
}.

Lemma steps_refl (kind : call → Prop) h : follows h → steps kind h h.
Proof. intros. split; auto. Qed.

Lemma steps_trans (kind : call → Prop) h h1 h2 : steps kind h h1 → steps kind h1 h2 → steps kind h h2.
Proof.
  intros [_ ? ? Hn1] [? ? ? Hn2]. split; auto. intros c Hc. destruct (Hn2 c Hc) as [Hc1|]; [|by right]. by apply Hn1.
Qed.

Lemma steps_weaken (kind kind' : call → Prop) h h' : (∀ c, kind c → kind' c) → steps kind h h' → steps kind' h h'.
Proof. intros Hk [? ? ? Hn]. split; auto. intros c Hc. destruct (Hn c Hc); auto. Qed.

(** One call. *)
Lemma steps_call (kind : call → Prop) h c : follows h → justified h c → kind c → steps kind h (h ++ [c]).
Proof.
  intros Hh Hc Hk. split.
  - by apply follows_snoc.
  - intros x Hx. rewrite elem_of_app. auto.
  - intros x Hx. rewrite accepted_snoc. auto.
  - intros x [?|[-> _]]%accepted_snoc; auto.
Qed.

Lemma ask_run c h : ask env c h = (env h c, h ++ [c]).
Proof. done. Qed.

Lemma in_snoc (h : history) c : c ∈ h ++ [c].
Proof. rewrite elem_of_app, list_elem_of_singleton. auto. Qed.


(** *** The loops *)

Definition opening (c : call) : Prop := match c with Initialize _ | StoreCancellation => True | _ => False end.
Definition starting (c : call) : Prop := match c with Start _ | StoreCancellation => True | _ => False end.
Definition phasing (phase : FramePhase) (c : call) : Prop :=
  match c with
  | StartPhase phase' _ | WaitForPhase phase' _ => phase' = phase
  | ReleaseGate _ | LoadCancellation | StoreCancellation => True
  | _ => False
  end.
Definition closing (c : call) : Prop :=
  match c with Stop _ | PrintStatistics _ | Shutdown _ | ShutdownManager => True | _ => False end.

Lemma bind_run {A B} (m : Run A) (f : A → Run B) h : (m ≫= f) h = let '(x, h1) := m h in f x h1.
Proof. done. Qed.

Lemma ret_run {A} (x : A) (h : history) : mret (M:=Run) x h = (x, h).
Proof. done. Qed.

Lemma tell_run c h : tell c h = ((), h ++ [c]).
Proof. done. Qed.

Ltac run_call := repeat (rewrite bind_run || rewrite ret_run || rewrite ask_run || rewrite tell_run); cbv beta iota.

Lemma initializeGraphs_run k m h ok h' :
  (k + m = n)%nat → follows h → accepted h InitManager → (∀ j, (j < k)%nat → accepted h (Initialize j)) →
  initializeGraphs env (seq k m) h = (ok, h') →
  steps opening h h' ∧ (ok = true → ∀ j, (j < n)%nat → accepted h' (Initialize j)).
Proof.
  revert k h. induction m as [|m IH]; intros k h Hk Hf Hup Hprev; cbn [seq initializeGraphs]; run_call.
  { intros [= <- <-]. split; [by apply steps_refl|]. intros _ j Hj. apply Hprev. lia. }
  assert (steps opening h (h ++ [Initialize k])) as Hcall by (by apply steps_call).
  destruct (env h (Initialize k)) eqn:He; run_call.
  - intros Hrun. destruct (IH (S k) (h ++ [Initialize k])) as [Hs Hall]; [lia|apply Hcall|by apply Hcall| |exact Hrun|].
    + intros j Hj. destruct (decide (j = k)) as [->|]; [rewrite accepted_snoc; by right|].
      apply Hcall, Hprev. lia.
    + split; [by eapply steps_trans|done].
  - intros [= <- <-]. split; [|done]. eapply steps_trans; [exact Hcall|]. apply steps_call; [apply Hcall|done..].
Qed.

(** Flags that tell which graphs accepted a call. *)
Definition flags_of (call_of : nat → call) (h h' : history) (flags : list (nat * bool)) : Prop :=
  (∀ j, (j, true) ∈ flags → accepted h' (call_of j))
  ∧ ∀ j, accepted h' (call_of j) → accepted h (call_of j) ∨ (j, true) ∈ flags.

Lemma startGraphs_run k m h ok flags h' :
  (k + m = n)%nat → follows h → (∀ j, (j < n)%nat → accepted h (Initialize j)) →
  (∀ j, (j < k)%nat → accepted h (Start j)) →
  startGraphs env (seq k m) h = ((ok, flags), h') →
  steps starting h h' ∧ flags_of Start h h' flags ∧ (ok = true → ∀ j, (j < n)%nat → accepted h' (Start j)).
Proof.
  revert k h ok flags. induction m as [|m IH]; intros k h ok flags Hk Hf Hinit Hprev; cbn [seq startGraphs]; run_call.
  { intros [= <- <- <-]. split; [by apply steps_refl|]. split; [by split; [intros j ?%elem_of_nil|auto]|].
    intros _ j Hj. apply Hprev. lia. }
  assert (steps starting h (h ++ [Start k])) as Hcall by (by apply steps_call).
  destruct (env h (Start k)) eqn:He; run_call.
  - destruct (startGraphs env (seq (S k) m) (h ++ [Start k])) as [[ok1 flags1] h1] eqn:Hrun. intros [= <- <- <-].
    destruct (IH (S k) (h ++ [Start k]) ok1 flags1) as (Hs & [Hin Hout] & Hall); [lia|apply Hcall| | |exact Hrun|].
    + intros j Hj. by apply Hcall, Hinit.
    + intros j Hj. destruct (decide (j = k)) as [->|]; [rewrite accepted_snoc; by right|].
      apply Hcall, Hprev. lia.
    + split; [by eapply steps_trans|]. split; [|done]. split.
      * intros j [[= ->]|Hj]%elem_of_cons; [|by apply Hin]. apply Hs. rewrite accepted_snoc. by right.
      * intros j Hj. rewrite elem_of_cons. destruct (Hout j Hj) as [[?|[[= ->] _]]%accepted_snoc|]; auto.
  - intros [= <- <- <-]. split.
    { eapply steps_trans; [exact Hcall|]. apply steps_call; [apply Hcall|done..]. }
    split; [|done]. split.
    + intros j Hj. exfalso. apply elem_of_cons in Hj as [?|(? & ? & _)%list_elem_of_fmap]; simplify_eq.
    + intros j [[?|[[= ->] ?]]%accepted_snoc|[? _]]%accepted_snoc; [by left|congruence|done].
Qed.

Lemma startPhases_run phase k m h ok flags h' :
  (k + m = n)%nat → follows h → (∀ j, (j < n)%nat → accepted h (Start j)) →
  (phase = Timed → ∀ j, (j < n)%nat → accepted h (WaitForPhase Warmup j)) →
  (∀ j, (j < k)%nat → StartPhase phase j ∈ h) →
  startPhases env phase (seq k m) h = ((ok, flags), h') →
  steps (phasing phase) h h' ∧ flags_of (StartPhase phase) h h' flags
  ∧ (∀ j, (j < n)%nat → StartPhase phase j ∈ h')
  ∧ (ok = true → ∀ j, (k ≤ j < n)%nat → (j, true) ∈ flags).
Proof.
  revert k h ok flags. induction m as [|m IH]; intros k h ok flags Hk Hf Hst Hw Hprev; cbn [seq startPhases]; run_call.
  { intros [= <- <- <-]. split; [by apply steps_refl|]. split; [by split; [intros j ?%elem_of_nil|auto]|].
    split; [intros j Hj; apply Hprev; lia|]. intros _ j Hj. lia. }
  set (h1 := h ++ [StartPhase phase k]).
  assert (steps (phasing phase) h h1) as Hcall by (by apply steps_call).
  assert (∃ h2, (if negb (env h (StartPhase phase k)) then tell StoreCancellation else mret ()) h1 = ((), h2)
    ∧ steps (phasing phase) h h2 ∧ StartPhase phase k ∈ h2
    ∧ ∀ j, accepted h2 (StartPhase phase j) ↔ accepted h1 (StartPhase phase j)) as (h2 & Heq2 & Hs2 & Hin2 & Hacc2).
  { destruct (env h (StartPhase phase k)); cbn [negb]; run_call.
    - exists h1. split; [done|]. split; [done|]. split; [apply in_snoc|done].
    - exists (h1 ++ [StoreCancellation]). split; [done|]. split.
      + eapply steps_trans; [exact Hcall|]. apply steps_call; [apply Hcall|done..].
      + split; [rewrite elem_of_app; left; apply in_snoc|]. intros j. rewrite accepted_snoc. naive_solver. }
  fold h1. rewrite Heq2. run_call.
  destruct (startPhases env phase (seq (S k) m) h2) as [[ok1 flags1] h3] eqn:Hrun; run_call. intros [= <- <- <-].
  destruct (IH (S k) h2 ok1 flags1) as (Hs & [Hin Hout] & Hall & Hok); [lia|apply Hs2|..|exact Hrun|].
  - intros j Hj. by apply Hs2, Hst.
  - intros Ht j Hj. by apply Hs2, Hw.
  - intros j Hj. destruct (decide (j = k)) as [->|]; [done|]. apply Hs2, Hprev. lia.
  - split; [by eapply steps_trans|]. split; [|split; [done|]].
    + split.
      * intros j [[= -> He]|Hj]%elem_of_cons; [|by apply Hin]. apply Hs, Hacc2. unfold h1. rewrite accepted_snoc. auto.
      * intros j Hj. rewrite elem_of_cons. destruct (Hout j Hj) as [Hj2|]; [|by auto].
        apply Hacc2 in Hj2. unfold h1 in Hj2. apply accepted_snoc in Hj2 as [?|[[= ->] <-]]; auto.
    + intros [He ->]%andb_true_iff j Hj. rewrite He, elem_of_cons.
      destruct (decide (j = k)) as [->|]; [by left|]. right. apply Hok; [done|lia].
Qed.

Lemma waitPhases_run phase flags h ok h' :
  follows h → ReleaseGate phase ∈ h → (∀ j, (j, true) ∈ flags → accepted h (StartPhase phase j)) →
  waitPhases env phase flags h = (ok, h') →
  steps (phasing phase) h h' ∧ (∀ j, (j, true) ∈ flags → WaitForPhase phase j ∈ h')
  ∧ (ok = true → ∀ j, (j, true) ∈ flags → accepted h' (WaitForPhase phase j))
  ∧ ∀ j, accepted h' (StartPhase phase j) → accepted h (StartPhase phase j).
Proof.
  revert h ok. induction flags as [|[i started] flags IH]; intros h ok Hf Hg Hacc; cbn [waitPhases]; run_call.
  { intros [= <- <-]. split; [by apply steps_refl|]. split; [by intros j ?%elem_of_nil|].
    split; [by intros _ j ?%elem_of_nil|done]. }
  assert (∃ finished h1, (if started then ask env (WaitForPhase phase i) else mret true) h = (finished, h1)
    ∧ steps (phasing phase) h h1 ∧ (started = true → WaitForPhase phase i ∈ h1)
    ∧ (finished = true → started = true → accepted h1 (WaitForPhase phase i))
    ∧ ∀ j, accepted h1 (StartPhase phase j) → accepted h (StartPhase phase j))
    as (finished & h1 & Heq1 & Hs1 & Hin1 & Hacc1 & Hback1).
  { destruct started; run_call.
    - eexists _, _. split; [done|]. split; [apply steps_call; [done| |done]; split; [done|apply Hacc; by left]|].
      split; [intros _; apply in_snoc|]. split; [intros He _; rewrite accepted_snoc; auto|].
      intros j [?|[? _]]%accepted_snoc; done.
    - eexists _, _. split; [done|]. split; [by apply steps_refl|]. done. }
  rewrite Heq1. run_call. destruct (waitPhases env phase flags h1) as [ok1 h2] eqn:Hrun; run_call. intros [= <- <-].
  destruct (IH h1 ok1) as (Hs & Hin & Hok & Hback); [apply Hs1|by apply Hs1| |exact Hrun|].
  { intros j Hj. apply Hs1, Hacc. by right. }
  split; [by eapply steps_trans|]. split; [|split].
  - intros j [[= -> <-]|Hj]%elem_of_cons; [by apply Hs, Hin1|by apply Hin].
  - intros [Hfin ->]%andb_true_iff j [[= -> <-]|Hj]%elem_of_cons; [by apply Hs, Hacc1|by apply Hok].
  - intros j Hj. by apply Hback1, Hback.
Qed.

(** A phase as a whole. *)
Definition phase_done (phase : FramePhase) (h : history) : Prop :=
  ∀ j, accepted h (StartPhase phase j) → WaitForPhase phase j ∈ h.
Definition phase_passed (phase : FramePhase) (h : history) : Prop :=
  ∀ j, (j < n)%nat → accepted h (StartPhase phase j) ∧ accepted h (WaitForPhase phase j).

Lemma phase_run phase h ok flags h1 finished h2 :
  follows h → (∀ j, (j < n)%nat → accepted h (Start j)) →
  (phase = Timed → ∀ j, (j < n)%nat → accepted h (WaitForPhase Warmup j)) →
  (∀ j, ¬ accepted h (StartPhase phase j)) →
  startPhases env phase (seq 0 n) h = ((ok, flags), h1) →
  waitPhases env phase flags (h1 ++ [ReleaseGate phase]) = (finished, h2) →
  steps (phasing phase) h h2 ∧ phase_done phase h2 ∧ (ok && finished = true → phase_passed phase h2).
Proof.
  intros Hf Hst Hw Hnone Hrun Hwait.
  destruct (startPhases_run phase 0 n h ok flags h1) as (Hs1 & [Hin Hout] & Hall & Hok); [done..|by intros j ?; lia|done|].
  assert (steps (phasing phase) h1 (h1 ++ [ReleaseGate phase])) as Hs2 by (apply steps_call; [apply Hs1|done..]).
  destruct (waitPhases_run phase flags (h1 ++ [ReleaseGate phase]) finished h2) as (Hs3 & Hdone & Hfin & Hback);
    [apply Hs2|apply in_snoc| |exact Hwait|].
  { intros j Hj. by apply Hs2, Hin. }
  split; [by eapply steps_trans; [exact Hs1|]; eapply steps_trans|]. split.
  - intros j Hj. apply Hdone. apply Hback in Hj as [Hj|[? _]]%accepted_snoc; [|done].
    destruct (Hout j Hj) as [?|]; [by destruct (Hnone j)|done].
  - intros [-> ->]%andb_true_iff j Hj. pose proof (Hok eq_refl j ltac:(lia)) as Hflag. split.
    + by apply Hs3, Hs2, Hin.
    + by apply Hfin.
Qed.

Lemma stopGraphs_run flags h ok h' :
  follows h → (∀ j, (j, true) ∈ flags → accepted h (Start j)) →
  (∀ phase j, accepted h (StartPhase phase j) → WaitForPhase phase j ∈ h) →
  stopGraphs env flags h = (ok, h') →
  steps closing h h' ∧ (∀ j, (j, true) ∈ flags → Stop j ∈ h')
  ∧ (ok = true → ∀ j, (j, true) ∈ flags → accepted h' (Stop j)).
Proof.
  revert h ok. induction flags as [|[i started] flags IH]; intros h ok Hf Hst Hw; cbn [stopGraphs]; run_call.
  { intros [= <- <-]. split; [by apply steps_refl|]. split; [by intros j ?%elem_of_nil|].
    by intros _ j ?%elem_of_nil. }
  assert (∃ stopped h1, (if started then ask env (Stop i) else mret true) h = (stopped, h1)
    ∧ steps closing h h1 ∧ (started = true → Stop i ∈ h1)
    ∧ (stopped = true → started = true → accepted h1 (Stop i)))
    as (stopped & h1 & Heq1 & Hs1 & Hin1 & Hacc1).
  { destruct started; run_call.
    - eexists _, _. split; [done|]. split; [apply steps_call; [done| |done]; split; [apply Hst; by left|done]|].
      split; [intros _; apply in_snoc|]. intros He _. rewrite accepted_snoc. auto.
    - eexists _, _. split; [done|]. split; [by apply steps_refl|done]. }
  rewrite Heq1. run_call. destruct (stopGraphs env flags h1) as [ok1 h2] eqn:Hrun; run_call. intros [= <- <-].
  destruct (IH h1 ok1) as (Hs & Hin & Hok); [apply Hs1|..|exact Hrun|].
  { intros j Hj. apply Hs1, Hst. by right. }
  { intros phase j Hj. apply Hs1, Hw. by destruct (steps_new _ _ _ Hs1 _ Hj). }
  split; [by eapply steps_trans|]. split.
  - intros j [[= -> <-]|Hj]%elem_of_cons; [by apply Hs, Hin1|by apply Hin].
  - intros [Hfin ->]%andb_true_iff j [[= -> <-]|Hj]%elem_of_cons; [by apply Hs, Hacc1|by apply Hok].
Qed.

Lemma printGraphs_run graphs h u h' : follows h → printGraphs graphs h = (u, h') → steps closing h h'.
Proof.
  revert h. induction graphs as [|i graphs IH]; intros h Hf; cbn [printGraphs]; run_call.
  { intros [= <- <-]. by apply steps_refl. }
  assert (steps closing h (h ++ [PrintStatistics i])) as Hcall by (by apply steps_call).
  intros Hrun. eapply steps_trans; [exact Hcall|]. apply IH; [apply Hcall|done].
Qed.

Lemma shutdownGraphs_run graphs h ok h' :
  follows h → (∀ j, accepted h (Start j) → Stop j ∈ h) →
  shutdownGraphs env graphs h = (ok, h') →
  steps closing h h' ∧ (∀ j, j ∈ graphs → Shutdown j ∈ h') ∧ (ok = true → ∀ j, j ∈ graphs → accepted h' (Shutdown j)).
Proof.
  revert h ok. induction graphs as [|i graphs IH]; intros h ok Hf Hst; cbn [shutdownGraphs]; run_call.
  { intros [= <- <-]. split; [by apply steps_refl|]. split; [by intros j ?%elem_of_nil|].
    by intros _ j ?%elem_of_nil. }
  assert (steps closing h (h ++ [Shutdown i])) as Hcall by (by apply steps_call).
  destruct (shutdownGraphs env graphs (h ++ [Shutdown i])) as [ok1 h2] eqn:Hrun; run_call. intros [= <- <-].
  destruct (IH (h ++ [Shutdown i]) ok1) as (Hs & Hin & Hok); [apply Hcall| |exact Hrun|].
  { intros j Hj. apply Hcall, Hst. by destruct (steps_new _ _ _ Hcall _ Hj). }
  split; [by eapply steps_trans|]. split.
  - intros j [->|Hj]%elem_of_cons; [|by apply Hin]. apply Hs, in_snoc.
  - intros [He ->]%andb_true_iff j [->|Hj]%elem_of_cons; [|by apply Hok]. apply Hs. rewrite accepted_snoc. auto.
Qed.

(** Everything succeeded. *)
Record all_accepted (h : history) : Prop := {
  all_initialized j : (j < n)%nat → accepted h (Initialize j);
  all_started j : (j < n)%nat → accepted h (Start j);
  all_warm : phase_passed Warmup h;
  all_timed : phase_passed Timed h;
  all_stopped j : (j < n)%nat → accepted h (Stop j);
  all_down j : (j < n)%nat → accepted h (Shutdown j);
}.

(** *** The whole run *)

(** The flag's load at the end of a phase. *)
Lemma phase_loaded phase h h2 (passed : bool) :
  steps (phasing phase) h h2 → phase_done phase h2 → (passed = true → phase_passed phase h2) →
  let h3 := h2 ++ [LoadCancellation] in
  steps (phasing phase) h h3 ∧ phase_done phase h3 ∧ (passed = true → phase_passed phase h3).
Proof.
  intros Hs Hdone Hpass. assert (steps (phasing phase) h2 (h2 ++ [LoadCancellation])) as Hload
    by (apply steps_call; [apply Hs|done..]).
  split; [by eapply steps_trans|]. split.
  - intros j [Hj|[? _]]%accepted_snoc; [|done]. by apply Hload, Hdone.
  - intros Hp j Hj. destruct (Hpass Hp j Hj). by split; apply Hload.
Qed.

Lemma runPhase_run h ok h' :
  follows h → (∀ j, (j < n)%nat → accepted h (Start j)) → (∀ j, ¬ accepted h (StartPhase Warmup j)) →
  runPhase env Warmup (seq 0 n) h = (ok, h') →
  steps (phasing Warmup) h h' ∧ phase_done Warmup h' ∧ (ok = true → phase_passed Warmup h').
Proof.
  intros Hf Hst Hnone. unfold runPhase. run_call.
  destruct (startPhases env Warmup (seq 0 n) h) as [[ok1 flags] h1] eqn:Hrun; run_call.
  destruct (waitPhases env Warmup flags (h1 ++ [ReleaseGate Warmup])) as [finished h2] eqn:Hwait; run_call.
  destruct (phase_run Warmup h ok1 flags h1 finished h2) as (Hs & Hdone & Hpass); [done..|].
  destruct (ok1 && finished); run_call; intros [= <- <-]; [|by split_and!].
  destruct (phase_loaded Warmup h h2 true Hs Hdone Hpass) as (? & ? & ?). split_and!; auto.
Qed.

Lemma runTimedPhase_run h ok h' :
  follows h → (∀ j, (j < n)%nat → accepted h (Start j)) →
  (∀ j, (j < n)%nat → accepted h (WaitForPhase Warmup j)) → (∀ j, ¬ accepted h (StartPhase Timed j)) →
  runTimedPhase env (seq 0 n) h = (ok, h') →
  steps (phasing Timed) h h' ∧ phase_done Timed h' ∧ (ok = true → phase_passed Timed h').
Proof.
  intros Hf Hst Hw Hnone. unfold runTimedPhase. run_call.
  destruct (startPhases env Timed (seq 0 n) h) as [[ok1 flags] h1] eqn:Hrun; run_call.
  destruct (waitPhases env Timed flags (h1 ++ [ReleaseGate Timed])) as [finished h2] eqn:Hwait; run_call.
  destruct (phase_run Timed h ok1 flags h1 finished h2) as (Hs & Hdone & Hpass); [done..|].
  intros [= <- <-]. destruct (phase_loaded Timed h h2 _ Hs Hdone Hpass) as (? & ? & Hok).
  split_and!; [done..|]. intros [Hp _]%andb_true_iff. by apply Hok.
Qed.

(** A phase that was done stays so. *)
Lemma phase_done_later kind phase h h' :
  steps kind h h' → (∀ j, ¬ kind (StartPhase phase j)) → phase_done phase h → phase_done phase h'.
Proof.
  intros Hs Hk Hdone j Hj. apply Hs, Hdone. destruct (steps_new _ _ _ Hs _ Hj) as [|Hkind]; [done|].
  by destruct (Hk j).
Qed.

(** The phases: either may be skipped. *)
Lemma phases_run h (ready ok : bool) h' :
  follows h → (ready = true → ∀ j, (j < n)%nat → accepted h (Start j)) →
  (∀ phase j, ¬ accepted h (StartPhase phase j)) →
  (ok1 ← (if ready then runPhase env Warmup (seq 0 n) else mret false);
   if ok1 : bool then runTimedPhase env (seq 0 n) else mret false) h = (ok, h') →
  steps (λ c, phasing Warmup c ∨ phasing Timed c) h h'
  ∧ phase_done Warmup h' ∧ phase_done Timed h'
  ∧ (ok = true → ready = true ∧ phase_passed Warmup h' ∧ phase_passed Timed h').
Proof.
  intros Hf Hst Hnone. run_call.
  assert (∀ phase, phase_done phase h) as Hd0 by (intros phase j Hj; by destruct (Hnone phase j)).
  destruct ready; run_call.
  2: { intros [= <- <-]. split; [by apply steps_refl|]. by split_and!. }
  destruct (runPhase env Warmup (seq 0 n) h) as [ok1 h1] eqn:Hrun.
  destruct (runPhase_run h ok1 h1) as (Hs1 & Hd1 & Hp1); [done|by apply Hst|done..|].
  assert (phase_done Timed h1) as Hd1' by (eapply phase_done_later; [exact Hs1|done|done]).
  destruct ok1; run_call.
  2: { intros [= <- <-]. split; [by eapply steps_weaken; [|exact Hs1]; auto|]. by split_and!. }
  intros Hrun2. specialize (Hp1 eq_refl).
  destruct (runTimedPhase_run h1 ok h') as (Hs2 & Hd2 & Hp2); [apply Hs1| | | |done|].
  - intros j Hj. by apply Hs1, Hst.
  - intros j Hj. by apply Hp1.
  - intros j Hj. destruct (steps_new _ _ _ Hs1 _ Hj) as [Hj'|Hj']; [by destruct (Hnone Timed j)|done].
  - split; [eapply steps_trans; eapply steps_weaken; [|exact Hs1| |exact Hs2]; auto|].
    split; [eapply phase_done_later; [exact Hs2|done|done]|]. split; [done|]. intros Hok.
    split; [done|]. split; [|by apply Hp2]. intros j Hj. destruct (Hp1 j Hj). by split; apply Hs2.
Qed.

(** Before the phases: initialization and start. *)
Lemma opening_run (valid : bool) h ok flags h' :
  follows h → accepted h InitManager → (∀ c, accepted h c → c = InitManager) →
  (initialized ← (if valid then initializeGraphs env (seq 0 n) else mret false);
   if initialized : bool then startGraphs env (seq 0 n)
   else mret (false, (λ graph, (graph, false)) <$> seq 0 n)) h = ((ok, flags), h') →
  steps (λ c, opening c ∨ starting c) h h'
  ∧ (∀ j, (j, true) ∈ flags ↔ accepted h' (Start j))
  ∧ (ok = true → valid = true ∧ ∀ j, (j < n)%nat → accepted h' (Initialize j) ∧ accepted h' (Start j)).
Proof.
  intros Hf Hup Honly. run_call.
  assert (∀ h1, (∀ c, accepted h1 c → c = InitManager ∨ opening c) →
    ∀ j, (j, true) ∈ ((λ graph, (graph, false)) <$> seq 0 n) ↔ accepted h1 (Start j)) as Hnone.
  { intros h1 H1 j. split.
    - intros (? & ? & _)%list_elem_of_fmap. simplify_eq.
    - intros Hj. by destruct (H1 _ Hj). }
  destruct valid; run_call.
  2: { intros [= <- <- <-]. split; [by apply steps_refl|]. split; [|done]. apply Hnone. intros c Hc. left. by apply Honly. }
  destruct (initializeGraphs env (seq 0 n) h) as [initialized h1] eqn:Hinit.
  destruct (initializeGraphs_run 0 n h initialized h1) as [Hs1 Hall]; [done..|by intros j ?; lia|done|].
  assert (∀ c, accepted h1 c → c = InitManager ∨ opening c) as Honly1.
  { intros c Hc. destruct (steps_new _ _ _ Hs1 _ Hc) as [Hc'|]; [left; by apply Honly|by right]. }
  destruct initialized; run_call.
  2: { intros [= <- <- <-]. split; [by eapply steps_weaken; [|exact Hs1]; auto|]. split; [|done]. by apply Hnone. }
  intros Hstart. destruct (startGraphs_run 0 n h1 ok flags h') as (Hs2 & [Hin Hout] & Hok);
    [done|apply Hs1|by apply Hall|by intros j ?; lia|done|].
  split; [eapply steps_trans; eapply steps_weaken; [|exact Hs1| |exact Hs2]; auto|]. split.
  - intros j. split; [apply Hin|]. intros Hj. destruct (Hout j Hj) as [Hj'|]; [|done]. by destruct (Honly1 _ Hj').
  - intros Ht. split; [done|]. intros j Hj. split; [by apply Hs2, Hall|by apply Hok].
Qed.

(** Whatever the calls answer, the protocol is followed, every graph is shut down,
    and the manager last. *)
Lemma runGraphs_run (valid : bool) h ok h' :
  follows h → accepted h InitManager → (∀ c, accepted h c → c = InitManager) →
  runGraphs env valid n h = (ok, h') →
  follows h' ∧ (∃ a, h' = a ++ [ShutdownManager]) ∧ (∀ j, (j < n)%nat → Shutdown j ∈ h')
  ∧ (ok = true → valid = true ∧ all_accepted h').
Proof.
  intros Hf Hup Honly. unfold runGraphs.
  set (begin := (initialized ← (if valid then initializeGraphs env (seq 0 n) else mret false);
    if initialized : bool then startGraphs env (seq 0 n)
    else mret (false, (λ graph, (graph, false)) <$> seq 0 n))).
  set (phases := λ ready : bool, ok1 ← (if ready then runPhase env Warmup (seq 0 n) else mret (M:=Run) false);
    if ok1 : bool then runTimedPhase env (seq 0 n) else mret false).
  intros Hrun.
  assert ((let '((ok0, flags), h2) := begin h in let '(ok2, h4) := phases ok0 h2 in
    let '(stopped, h5) := stopGraphs env flags h4 in let '(_, h6) := printGraphs (seq 0 n) h5 in
    let '(down, h7) := shutdownGraphs env (seq 0 n) h6 in
    (ok2 && stopped && down, h7 ++ [ShutdownManager])) = (ok, h')) as Hrun'.
  { rewrite <-Hrun. unfold begin, phases. run_call.
    destruct ((if valid then initializeGraphs env (seq 0 n) else mret false) h) as [initialized h1]. run_call.
    match goal with |- context [if initialized then ?f else ?g] =>
      destruct ((if initialized then f else g) h1) as [[ok0 flags] h2] end. run_call.
    destruct ((if ok0 then runPhase env Warmup (seq 0 n) else mret false) h2) as [ok1 h3]. run_call.
    destruct ((if ok1 then runTimedPhase env (seq 0 n) else mret false) h3) as [ok2 h4]. run_call.
    destruct (stopGraphs env flags h4) as [stopped h5]. run_call.
    destruct (printGraphs (seq 0 n) h5) as [u h6]. run_call.
    by destruct (shutdownGraphs env (seq 0 n) h6) as [down h7]. }
  clear Hrun. destruct (begin h) as [[ok0 flags] h2] eqn:Hbegin.
  destruct (opening_run valid h ok0 flags h2 Hf Hup Honly Hbegin) as (Hs2 & Hflags & Hok0).
  destruct (phases ok0 h2) as [ok2 h4] eqn:Hphases.
  destruct (phases_run h2 ok0 ok2 h4) as (Hs4 & Hd1 & Hd2 & Hok2); [apply Hs2| | |exact Hphases|].
  { intros Ht j Hj. by apply Hok0. }
  { intros phase j Hj. destruct (steps_new _ _ _ Hs2 _ Hj) as [Hc|[?|?]]; [|done..]. by apply Honly in Hc. }
  destruct (stopGraphs env flags h4) as [stopped h5] eqn:Hstop.
  destruct (stopGraphs_run flags h4 stopped h5) as (Hs5 & Hst & Hok5); [apply Hs4| | |exact Hstop|].
  { intros j Hj. by apply Hs4, Hflags. }
  { intros phase j Hj. destruct phase; [by apply Hd1|by apply Hd2|].
    destruct (steps_new _ _ _ Hs4 _ Hj) as [Hj'|[|]]; [|done..].
    destruct (steps_new _ _ _ Hs2 _ Hj') as [Hc|[?|?]]; [|done..]. by apply Honly in Hc. }
  destruct (printGraphs (seq 0 n) h5) as [u h6] eqn:Hprint.
  pose proof (printGraphs_run _ _ _ _ (steps_follows _ _ _ Hs5) Hprint) as Hs6.
  destruct (shutdownGraphs env (seq 0 n) h6) as [down h7] eqn:Hdown.
  destruct (shutdownGraphs_run (seq 0 n) h6 down h7) as (Hs7 & Hsh & Hok7); [apply Hs6| |exact Hdown|].
  { intros j Hj. apply Hs6, Hst, Hflags. destruct (steps_new _ _ _ Hs6 _ Hj) as [Hj6|]; [|done].
    destruct (steps_new _ _ _ Hs5 _ Hj6) as [Hj5|]; [|done].
    by destruct (steps_new _ _ _ Hs4 _ Hj5) as [|[|]]. }
  injection Hrun' as <- <-.
  assert (steps closing h7 (h7 ++ [ShutdownManager])) as Hs8.
  { apply steps_call; [apply Hs7| |done]. intros j Hj. apply Hsh, elem_of_seq. lia. }
  split; [apply Hs8|]. split; [by exists h7|].
  split; [intros j Hj; apply Hs8, Hsh, elem_of_seq; lia|].
  intros [[Hp Hstopped]%andb_true_iff Hd]%andb_true_iff. destruct (Hok2 Hp) as (Ht & Hw & Htm).
  destruct (Hok0 Ht) as [Hv Hall]. split; [done|].
  assert (∀ c, accepted h4 c → accepted (h7 ++ [ShutdownManager]) c) as Hlater by (intros c ?; by apply Hs8, Hs7, Hs6, Hs5).
  split.
  - intros j Hj. apply Hlater, Hs4. by apply Hall.
  - intros j Hj. apply Hlater, Hs4. by apply Hall.
  - intros j Hj. destruct (Hw j Hj). by split; apply Hlater.
  - intros j Hj. destruct (Htm j Hj). by split; apply Hlater.
  - intros j Hj. apply Hs8, Hs7, Hs6, Hok5; [done|]. apply Hflags. by apply Hall.
  - intros j Hj. apply Hs8, Hok7; [done|]. apply elem_of_seq. lia.
Qed.

End protocol.

(** ** The program *)

Lemma parseSizeFactor_valid value factor : parseSizeFactor value = Some factor → isValidFactor factor = true.
Proof.
  unfold parseSizeFactor. destruct (stoull value) as [[parsed [|]]|]; [|done..]. simpl.
  case_match; [done|]. by destruct (isValidFactor (Z.of_N parsed)) eqn:Hv; simpl; [intros [= <-]|].
Qed.

Lemma parseOptions_factor args options : parseOptions args = Some options → isValidFactor (option_factor options) = true.
Proof.
  unfold parseOptions. destruct (4 <? vsize args); [done|].
  destruct (argument args 0 _ _) as [timed|]; [|done]. destruct (argument args 1 _ _) as [warmup|]; [|done].
  destruct (argument args 2 _ _) as [model|]; [|done].
  destruct (argument args 3 DEFAULT_FACTOR parseSizeFactor) as [factor|] eqn:Hf; [|done].
  cbn [mbind option_bind]. case_match; [done|]. intros [= <-]. simpl. unfold argument in Hf.
  destruct (args !! 3%nat); [by eapply parseSizeFactor_valid|by simplify_eq].
Qed.

Lemma runtimeFor_valid factor : isValidFactor factor = true → ∃ runtime, runtimeFor factor = Some runtime.
Proof.
  intros Hv. unfold runtimeFor. rewrite scaledDimension_run by (done || unfold INPUT_MULTIPLIER; lia). by eexists.
Qed.

(** How many graphs are made. *)
Definition graphs_made (options : Options) (locations : list GpuLocation) : nat :=
  match runtimeFor (option_factor options) with
  | None => 0
  | Some runtime => length (planGraphs options runtime (groupLocations locations) 0).2
  end.

Section program.
Context (env : history → call → bool).

(** The run of the program, cut at its calls. *)
Lemma main_run args options locations sinks code h :
  parseOptions args = Some options → main env args locations sinks [] = Some (code, h) →
  let n := graphs_made options locations in
  env [] InitManager = false ∧ code = 1%Z ∧ h = [InitManager]
  ∨ ∃ valid ok, env [] InitManager = true ∧ locations ≠ []
    ∧ (valid = true → n = length (groupLocations locations)
                      ∧ total_of options * vsize locations < two64)
    ∧ runGraphs env valid n [InitManager] = (ok, h)
    ∧ (code = 0 ∨ code = 1)%Z
    ∧ (code = 0%Z → ok = true ∧ sinks h = (vsize locations * total_of options, 0)).
Proof.
  intros Hopt. unfold main, graphs_made. rewrite Hopt.
  destruct (runtimeFor_valid _ (parseOptions_factor _ _ Hopt)) as [runtime ->]. cbn [mbind option_bind].
  rewrite ask_run. simpl app. destruct (env [] InitManager); simpl negb; cbv iota.
  2: { intros [= <- <-]. by left. }
  pose proof (parseOptions_total _ _ Hopt) as Htot.
  destruct (groupLocations_run locations) as (Hg & Hne & _).
  pose proof (planGraphs_run options runtime _ 0 Htot ltac:(done) Hne) as Hplan.
  destruct (planGraphs options runtime (groupLocations locations) 0) as [fits graphs]. simpl.
  destruct Hplan as (_ & Hlen & Hfit). rewrite N.add_0_l, Hg, N.mul_comm in Hfit.
  set (valid := _ && (vsize graphs =? _)). destruct (runGraphs env valid _ _) as [ok h1] eqn:Hrun.
  destruct (N.eqb_spec (vsize locations) 0) as [|Hloc]; [done|].
  destruct (sinks h1) as [delivered failed] eqn:Hsinks. intros [= <- <-]. right. exists valid, ok.
  split; [done|]. split; [by intros ->|]. split.
  { unfold valid. rewrite !andb_true_iff. intros [[-> _] _]. split; [by rewrite Hlen|]. by rewrite N.mul_comm, <-Hfit. }
  split; [done|]. split; [case_match; auto|]. rewrite (add64_small (warmupFrames options)) by done. fold (total_of options).
  rewrite Hsinks.
  destruct (N.leb_spec (total_of options) (SIZE_MAX / vsize locations)) as [Hle|]; [|by rewrite andb_false_r].
  assert (vsize locations * total_of options < two64) as Hprod.
  { assert (vsize locations * total_of options ≤ SIZE_MAX); [|unfold SIZE_MAX, two64 in *; lia].
    etrans; [apply N.mul_le_mono_l, Hle|]. apply (N.Div0.mul_div_le SIZE_MAX (vsize locations)). }
  rewrite mul64_small by done. rewrite andb_true_r.
  destruct ok, (N.eqb_spec delivered (vsize locations * total_of options)) as [->|], (N.eqb_spec failed 0) as [->|]; simpl; done.
Qed.

Lemma opened n : env [] InitManager = true →
  follows env n [InitManager] ∧ accepted env [InitManager] InitManager
  ∧ ∀ c, accepted env [InitManager] c → c = InitManager.
Proof.
  intros Hup. split; [|split].
  - apply (follows_snoc env n [] InitManager); [by intros [|] ? ?|done].
  - by exists [], [].
  - intros c (a & b & Heq & _). destruct a as [|x [|]]; simplify_eq/=; done.
Qed.

(** The only input without an exit code. *)
Lemma main_stuck args locations sinks :
  main env args locations sinks [] = None → env [] InitManager = true ∧ locations = [].
Proof.
  unfold main. destruct (parseOptions args) as [options|] eqn:Hopt; [|done].
  destruct (runtimeFor_valid _ (parseOptions_factor _ _ Hopt)) as [runtime ->]. cbn [mbind option_bind].
  rewrite ask_run. destruct (env [] InitManager); simpl negb; cbv iota; [|done].
  destruct (planGraphs _ _ _ _) as [fits graphs]. destruct (runGraphs _ _ _ _) as [ok h1].
  destruct (N.eqb_spec (vsize locations) 0) as [Hz|]; [|by destruct (sinks h1)].
  intros _. split; [done|]. by destruct locations.
Qed.

(** C9.  Whatever its calls answer, the program ends, unless the manager comes up without
    a GPU, where it divides by zero, and it makes its calls in an order the graphs
    allow: the manager first; a graph is started when all are initialized, given a
    phase when all are started and, for the timed phase, all have come through the
    warmup; the gate is opened when every graph was asked, and only then waited at; a
    graph is stopped only where it was started, and after the wait for each phase it
    accepted, and shut down when all started ones were stopped.  Once the manager is
    up every graph is shut down, and the manager last, whichever of the calls
    failed. *)
Theorem main_follows_protocol args locations sinks :
  match main env args locations sinks [], parseOptions args with
  | None, _ => env [] InitManager = true ∧ locations = []
  | Some (code, h), None => code = 2%Z ∧ h = []
  | Some (code, h), Some options =>
      let n := graphs_made options locations in
      (code = 0 ∨ code = 1)%Z ∧ follows env n h
      ∧ (env [] InitManager = true →
         (∃ a, h = a ++ [ShutdownManager]) ∧ ∀ j, (j < n)%nat → Shutdown j ∈ h)
  end.
Proof.
  destruct (main env args locations sinks []) as [[code h]|] eqn:Hmain; [|by apply main_stuck in Hmain].
  destruct (parseOptions args) as [options|] eqn:Hopt.
  2: { revert Hmain. unfold main. rewrite Hopt. by intros [= <- <-]. }
  destruct (main_run args options locations sinks code h Hopt Hmain)
    as [(Hup & -> & ->)|(valid & ok & Hup & _ & _ & Hrun & Hcode & _)]; cbv zeta.
  - split; [by right|]. split; [|by rewrite Hup].
    by apply (follows_snoc env _ [] InitManager); [intros [|] ? ?|].
  - destruct (opened (graphs_made options locations) Hup) as (Hf & Hacc & Honly).
    destruct (runGraphs_run env _ valid _ ok h Hf Hacc Honly Hrun) as (? & ? & ? & _). by split_and!.
Qed.

(** C10.  Exit code 0 means what it says: the manager was up, there was a graph for
    every NUMA node, each was initialized, started, taken through both phases,
    stopped and shut down with success, and the sink counted, without a failure,
    exactly one result for each frame of each GPU, a number that did not wrap. *)
Theorem main_success args locations sinks h :
  main env args locations sinks [] = Some (0%Z, h) →
  ∃ options, parseOptions args = Some options
  ∧ env [] InitManager = true ∧ locations ≠ []
  ∧ graphs_made options locations = length (groupLocations locations)
  ∧ all_accepted env (length (groupLocations locations)) h
  ∧ sinks h = (vsize locations * total_of options, 0)
  ∧ vsize locations * total_of options < two64.
Proof.
  destruct (parseOptions args) as [options|] eqn:Hopt; [|unfold main; by rewrite Hopt].
  intros Hmain. exists options. split; [done|].
  destruct (main_run args options locations sinks 0 h Hopt Hmain)
    as [(? & ? & ?)|(valid & ok & Hup & Hloc & Hvalid & Hrun & _ & Hzero)]; [done|].
  destruct (Hzero eq_refl) as [-> Hsinks].
  destruct (opened (graphs_made options locations) Hup) as (Hf & Hacc & Honly).
  destruct (runGraphs_run env _ valid _ true h Hf Hacc Honly Hrun) as (_ & _ & _ & Hok).
  destruct (Hok eq_refl) as [Hv Hall]. destruct (Hvalid Hv) as [Hn Hfit].
  rewrite Hn in Hall. rewrite N.mul_comm in Hfit. by split_and!.
Qed.

End program.

(** ** What the command line accepts *)

(** [std::stoull] negates a number with a minus sign in 64 bits: a negative frame
    count is a huge one, and some negative numbers are size factors. *)
Lemma negative_arguments_accepted :
  parseFrameCount (String.list_ascii_of_string "-100") false = Some (two64 - 100)
  ∧ parseSizeFactor (String.list_ascii_of_string "-18446744073709551600") = Some 16%Z.
Proof. split; by vm_compute. Qed.
