(* ===== verification/TaskScenario.v ===== *)
(** The tasks of [GraphScenario], loaded, run and unloaded. *)
From Stdlib Require Import Bool.
From stdpp Require Import strings.
From S2P Require Import Prelude.
From S2P Require Import Platform.
From S2P Require Import GpuDataKey.
From S2P Require Import CacheTypes.
From S2P Require Import GpuDataCache.
From S2P Require Import GpuDataAccess.
From S2P Require Import CacheSpec.
From S2P Require Import CacheRefinement.
From S2P Require Import CacheFailure.
From S2P Require Import CacheLeases.
From S2P Require Import CacheLifetime.
From S2P Require Import CacheProtocol.
From S2P Require Import GpuTopology.
From S2P Require Import GpuContextManager.
From S2P Require Import RegistryInvariant.
From S2P Require Import RegistryBehaviour.
From S2P Require Import StaticData.
From S2P Require Import StaticScenario.
From S2P Require Import ParameterRegistry.
From S2P Require Import DemoTypes.
From S2P Require Import DummyTask.
From S2P Require Import DummyGraph.
From S2P Require Import GraphScenario.
From S2P Require Import TaskBehaviour.
#[local] Open Scope N_scope.

Lemma two_tasks_registry : registry two_tasks.
Proof.
  apply new_task_registry; [|done|by vm_compute].
  apply new_task_registry; [apply reachable_registry, one_gpu_reachable|done|by vm_compute].
Qed.

Lemma task_unload_outcome_witness :
  ∃ r', (match task_unload (plain_task 0 501) two_tasks fresh_memory with
         | Some (_, _, infra', _) => task_store infra' !! 501 | None => None end) = Some r'
    ∧ task_stream r' = nullptr ∧ ctx r' = nullptr.
Proof.
  destruct (task_unload_outcome (plain_task 0 501) two_tasks fresh_memory TaskGpuResources_default
    two_tasks_registry) as (ok & t' & infra' & w' & Hrun & _ & _ & Hout); [by vm_compute|].
  destruct Hout as ((r' & Hr' & Hs & _ & _ & _ & Hc & _) & _); [done|done|].
  exists r'. rewrite Hrun. by split_and!.
Defined.

Definition smallest_runtime : AlgoRuntimeInfo := mkRuntime 16384 16 128 128 1.

Definition sealed_parameters : ParameterRegistry :=
  (sealParameters plain_config
     (registerParameters (DummyTask_construct 0 Batched smallest_runtime 501)
        ParameterRegistry_default).2).2.

Definition registered_task : DummyTask :=
  mkDummyTask 0 Batched smallest_runtime 501 [] true 0 Registered.

Lemma two_tasks_slots : slots two_tasks.
Proof.
  assert (slots_left two_tasks = true) as Hs by by vm_compute.
  unfold slots_left in Hs. by apply bool_decide_eq_true in Hs.
Qed.

Lemma task_load_outcome_witness :
  ∃ infra' w' t' r', task_load sealed_parameters registered_task two_tasks fresh_memory
      = Some (true, t', infra', w')
    ∧ length (algorithms t') = 3%nat ∧ task_store infra' !! 501 = Some r' ∧ ctx r' ≠ nullptr
    ∧ inBytes r' = 16384.
Proof.
  assert (match task_load sealed_parameters registered_task two_tasks fresh_memory with
          | Some (ok, _, _, _) => ok | None => false end = true) as Hok by by vm_compute.
  destruct (task_load_outcome sealed_parameters registered_task two_tasks fresh_memory
    TaskGpuResources_default two_tasks_registry) as [Hl|[Hl|Hl]]; [by vm_compute|apply two_tasks_slots|..].
  - destruct Hl as (_ & _ & _ & t' & infra' & w' & r' & Hrun & _ & _ & _ & _ & Hlen & Hr' & Hc & _ & Hb).
    exists infra', w', t', r'. split; [exact Hrun|]. split; [exact Hlen|]. split; [exact Hr'|].
    split; [exact Hc|exact Hb].
  - rewrite Hl in Hok. cbv beta iota in Hok. destruct (diff_false_true Hok).
  - destruct Hl as (t' & infra' & w' & r' & Hl & _). rewrite Hl in Hok. cbv beta iota in Hok.
    destruct (diff_false_true Hok).
Defined.

(** The first task, bound to the GPU and with its buffers. *)
Definition bound_tasks : GpuInfra :=
  match registerTask 0 501 two_tasks with Some (_, infra) => infra | None => two_tasks end.
Definition bound_resources : TaskGpuResources :=
  (default TaskGpuResources_default (task_store bound_tasks !! 501))
    <| task_stream := 11 |> <| d_input := 900 |> <| h_in := 950 |> <| inBytes := 64 |>.
Definition running_tasks : GpuInfra :=
  bound_tasks <| task_store := <[501 := bound_resources]> (task_store bound_tasks) |>.
Definition started_task : DummyTask :=
  mkDummyTask 0 Batched plain_runtime 501 [] true 1 Started.
Definition full_atom : FrameCpuAtom :=
  mkAtom (mkMetadata (mkKey 7 1 0) 64 8 8 1) (replicate 64 0) (mkResult 0 true []).

Lemma running_tasks_registry : registry running_tasks.
Proof.
  assert (is_Some (task_store bound_tasks !! 501)) as [r Hr] by (by vm_compute; eauto).
  unfold running_tasks, bound_resources. rewrite Hr. simpl default.
  apply (registry_contents bound_tasks 501 r); [|exact Hr|done..].
  unfold bound_tasks.
  destruct (registerTask_result two_tasks 0 501 TaskGpuResources_default two_tasks_registry)
    as (ok & infra' & -> & Hreg & _); [by vm_compute|apply two_tasks_slots|apply Hreg].
Qed.

(** A cache in service, and the access its first request gets. *)
Definition asked_acts : list action :=
  [Initialize [0%Z] 64 2 10 LRU; Request small_frame small_request 1000 1000 1000].
Definition asked : System :=
  default (CacheProtocol.start 77 fresh_memory) (run (CacheProtocol.start 77 fresh_memory) asked_acts).
Definition filled : GpuDataAccess := default GpuDataAccess_default (head (live asked)).

Lemma filled_held : ∃ d, represents (manager asked) d ∧ holds_lease d filled.
Proof.
  destruct (reachable_in_service asked) as (d & Hc & Hag).
  - exists 77, fresh_memory, asked_acts. split; [done|].
    destruct (run_invariant (CacheProtocol.start 77 fresh_memory) asked_acts) as (s & Hrun & _);
      [by apply start_invariant|]. unfold asked. by rewrite Hrun.
  - by vm_compute.
  - exists d. split; [done|]. eapply agree_holds; [done|].
    assert (live asked = [filled]) as -> by (by vm_compute). by left.
Qed.

Lemma execute_outcome_witness :
  ∃ request atom1 w1, execute_begin started_task full_atom running_tasks fresh_memory
      = Some (Some request, atom1, w1)
    ∧ request = mkRequest 0 11 900 64
    ∧ ∃ ok atom2 c' w', execute_finish started_task filled atom1 running_tasks (manager asked) w1
          = Some (ok, atom2, c', w') ∧ judged full_atom ok atom2 ∧ ok = true.
Proof.
  destruct (execute_outcome started_task full_atom running_tasks fresh_memory bound_resources
    running_tasks_registry) as (request & atom1 & w1 & Hrun & _ & _ & Hasked & _ & Hq); [by vm_compute|].
  assert (match execute_begin started_task full_atom running_tasks fresh_memory with
          | Some (Some _, _, _) => true | _ => false end = true) as Hsome by by vm_compute.
  rewrite Hrun in Hsome. destruct request as [q|]; [|destruct (diff_false_true Hsome)].
  assert (q = mkRequest 0 11 900 64) as Heq.
  { case_decide as Hfit; [|by destruct Hasked]. destruct Hasked as [_ Hq']. rewrite (Hq' q eq_refl). by vm_compute. }
  exists q, atom1, w1. split; [exact Hrun|]. split; [exact Heq|].
  destruct filled_held as (d & Hc & Hl).
  assert (match execute_finish started_task filled atom1 running_tasks (manager asked) w1 with
          | Some (ok, _, _, _) => ok | None => false end = true) as Hok.
  { assert (match execute_begin started_task full_atom running_tasks fresh_memory with
            | Some (_, atom1, w1) =>
                match execute_finish started_task filled atom1 running_tasks (manager asked) w1 with
                | Some (ok, _, _, _) => ok | None => false end
            | None => false end = true) as Hboth by by vm_compute.
    by rewrite Hrun in Hboth. }
  specialize (Hq ltac:(done) filled (manager asked) d w1 Hc Hl ltac:(by vm_compute) ltac:(by vm_compute) ltac:(by vm_compute)).
  destruct (in_order _ w1) as [computed w3]. destruct (cudaStreamSynchronize _ w3) as [status w4].
  destruct Hq as (ok & atom2 & c' & Hrun2 & Hj & _). rewrite Hrun2 in Hok.
  exists ok, atom2, c', w4. split; [exact Hrun2|]. split; [exact Hj|exact Hok].
Defined.
