(* ===== verification/ResultTasks.v ===== *)
(** The tasks of the result pipeline ([demo/ResultPipeline/ResultTasks.h] and
    [.cpp], [ResultKernel.cu]): a producer computes a frame's result on the device
    and leaves it in the cache and in the frame's atom, CPU tasks read the atom,
    and a consumer finds the result in the cache again, or uploads it.  As with
    [DummyTask], a call that asks the cache is its part up to the request and its
    part from the access the request returned. *)
From S2P Require Import Prelude.
From S2P Require Import Platform.
From S2P Require Import GpuDataKey.
From S2P Require Import CacheTypes.
From S2P Require Import GpuDataCache.
From S2P Require Import GpuDataAccess.
From S2P Require Import GpuTopology.
From S2P Require Import GpuContextManager.
From S2P Require Import DemoTypes.
From S2P Require Import DeviceCalls.
From S2P Require Import DummyTask.
#[local] Open Scope N_scope.

Definition uchar (x : N) : N := x mod 256.

(** ** Atoms *)

Record ResultAtom := mkResultAtom {
  ra_metadata : FrameMetadata;
  ra_frame : list N;
  ra_result : list N;
  ra_cpuStages : size_t;
  ra_checksum : uint64;
  ra_ready : bool;
  ra_started : Z;
}.

Definition ResultAtom_eta a :=
  mkResultAtom (ra_metadata a) (ra_frame a) (ra_result a) (ra_cpuStages a) (ra_checksum a)
    (ra_ready a) (ra_started a).
#[export] Instance set_ra_metadata : Setter ra_metadata := ltac:(make_setter ra_metadata ResultAtom_eta).
#[export] Instance set_ra_frame : Setter ra_frame := ltac:(make_setter ra_frame ResultAtom_eta).
#[export] Instance set_ra_result : Setter ra_result := ltac:(make_setter ra_result ResultAtom_eta).
#[export] Instance set_ra_cpuStages : Setter ra_cpuStages := ltac:(make_setter ra_cpuStages ResultAtom_eta).
#[export] Instance set_ra_checksum : Setter ra_checksum := ltac:(make_setter ra_checksum ResultAtom_eta).
#[export] Instance set_ra_ready : Setter ra_ready := ltac:(make_setter ra_ready ResultAtom_eta).
#[export] Instance set_ra_started : Setter ra_started := ltac:(make_setter ra_started ResultAtom_eta).
#[global] Arguments set_ra_metadata _ _ / : assert.
#[global] Arguments set_ra_frame _ _ / : assert.
#[global] Arguments set_ra_result _ _ / : assert.
#[global] Arguments set_ra_cpuStages _ _ / : assert.
#[global] Arguments set_ra_checksum _ _ / : assert.
#[global] Arguments set_ra_ready _ _ / : assert.
#[global] Arguments set_ra_started _ _ / : assert.

(** The loop that writes a frame's bytes, here and in the producer's stage: the
    byte at an index is the id plus the index, mod 256. *)
Definition atom_bytes (id : uint64) (bytes : size_t) : list N :=
  (λ index, N.land (add64 id (N.of_nat index)) 255) <$> seq 0 (N.to_nat bytes).

Definition makeAtom (id : uint64) (bytes : size_t) : ResultAtom :=
  mkResultAtom (mkMetadata (mkKey id 0 0) bytes (to_int bytes) 1 1)
    (atom_bytes id bytes) (replicate (N.to_nat bytes) 0) 0 0 false 0.

(** [std::accumulate(result.begin(), result.end(), std::uint64_t{0})] *)
Definition accumulate (bytes : list N) : uint64 := foldl add64 0 bytes.

(** What the kernel makes of a byte. *)
Definition transformed (byte : N) : N := uchar (N.lxor byte 90).

(** The last check of the consumer, byte by byte. *)
Fixpoint expectedOutput (h_result frame : list N) : bool :=
  match h_result, frame with
  | [], _ => true
  | r :: h_result, f :: frame => (r =? transformed f) && expectedOutput h_result frame
  | _ :: _, [] => false
  end.

(** The atom is of the size a task has buffers for. *)
Definition fits_task (bytes : size_t) (atom : ResultAtom) : bool :=
  (vsize (ra_frame atom) =? bytes) && (vsize (ra_result atom) =? bytes)
  && (md_bytes (ra_metadata atom) =? bytes).

(** ** The CPU task *)

(** [DummyCPUTask::execute]; the delay has no effect on the state. *)
Definition cpu_execute (atom : ResultAtom) : bool * ResultAtom :=
  if negb (ra_ready atom) || (vsize (ra_result atom) =? 0) then (false, atom)
  else
    let atom := atom <| ra_checksum := accumulate (ra_result atom) |> in
    (true, atom <| ra_cpuStages := inc64 (ra_cpuStages atom) |>).

Section tasks.
Context `{KernelDevice} `{!GpuDriver}.

(** ** The kernel *)

(** One thread of [transformResultKernel], on the contents of device memory. *)
Definition transformResultKernel (input output : ptr) (bytes : size_t)
    (blockIdx blockDim threadIdx : dim3) (m : memory) : memory :=
  let index := add64 (mul64 (dim_x blockIdx) (dim_x blockDim)) (dim_x threadIdx) in
  if bytes <=? index then m else <[output + index := transformed (m (input + index))]> m.

(** [dim3 grid(static_cast<unsigned int>((bytes + 255) / 256))] *)
Definition kernel_grid (bytes : size_t) : dim3 := mkDim3 ((add64 bytes 255 / 256) mod 4294967296) 1.
Definition kernel_block : dim3 := mkDim3 256 1.

Definition runResultKernel (input output : ptr) (bytes : size_t) (stream : ptr) (w : world) :
    bool * world :=
  let w := cudaLaunch (kernel_grid bytes) kernel_block
             (transformResultKernel input output bytes) stream w in
  let '(status, w) := cudaGetLastError w in
  (cuda_ok status, w).

(** ** The resources of a task, at their address in the registry's store *)

Definition INT_MAX : N := 2147483647.

(** The stream and the buffers. *)
Definition result_buffers (bytes : size_t) (r : TaskGpuResources) (w : world) :
    bool * TaskGpuResources * world :=
  let r := r <| inBytes := bytes |> <| scratchBytes := bytes |> in
  let '(status, stream, w) := cudaStreamCreate w in
  let r := r <| task_stream := stream |> in
  if negb (cuda_ok status) then (false, r, w)
  else
    let '(status, h, w) := cudaHostAlloc bytes w in
    let r := r <| h_in := h |> in
    if negb (cuda_ok status) then (false, r, w)
    else
      let '(status, d, w) := cudaMalloc bytes w in
      let r := r <| d_input := d |> in
      if negb (cuda_ok status) then (false, r, w)
      else
        let '(status, d, w) := cudaMalloc bytes w in
        (cuda_ok status, r <| d_scratch := d |>, w).

Definition resources_load (bytes : size_t) (t : ptr) (infra : GpuInfra) (w : world) :
    option (bool * GpuInfra * world) :=
  r ← task_store infra !! t;
  if negb (ctx r =? nullptr) || (bytes =? 0) || (INT_MAX <? bytes) then Some (false, infra, w)
  else
    '(resolved, gpuIds) ← gpuIdsForCurrentNumaNode infra w;
    '(registered, infra) ←
      (if resolved : bool then gpuId ← head gpuIds; registerTask gpuId t infra
       else Some (false, infra));
    if negb registered then Some (false, infra, w)
    else
      '(current, w) ← makeTaskCurrent t infra w;
      if negb current then Some (false, infra, w)
      else
        r ← task_store infra !! t;
        let '(ok, r, w) := result_buffers bytes r w in
        Some (ok, infra <| task_store := <[t := r]> (task_store infra) |>, w).

Definition resources_unload (t : ptr) (infra : GpuInfra) (w : world) :
    option (bool * GpuInfra * world) :=
  r ← task_store infra !! t;
  if ctx r =? nullptr then Some (true, infra, w)
  else
    '(current, w) ← makeTaskCurrent t infra w;
    if negb current then Some (false, infra, w)
    else
      let '(drained, w) := released_by cudaStreamSynchronize (task_stream r) w in
      let '(freed_scratch, w) := released_by cudaFree (d_scratch r) w in
      let '(freed_input, w) := released_by cudaFree (d_input r) w in
      let '(freed_host, w) := released_by cudaFreeHost (h_in r) w in
      let '(destroyed, w) := released_by cudaStreamDestroy (task_stream r) w in
      let r := r <| d_scratch := nullptr |> <| d_input := nullptr |> <| h_in := nullptr |>
                 <| task_stream := nullptr |> in
      let infra := infra <| task_store := <[t := r]> (task_store infra) |> in
      '(unregistered, infra) ← unregisterTask t infra;
      Some (unregistered && (drained && freed_scratch && freed_input && freed_host && destroyed),
            infra, w).

(** [~ResultTaskResources()] *)
Definition resources_destruct (t : ptr) (infra : GpuInfra) (w : world) : option (GpuInfra * world) :=
  '(_, infra, w) ← resources_unload t infra w;
  Some (infra, w).

Definition request (r : TaskGpuResources) : GpuCacheRequest :=
  mkRequest (task_gpuId r) (task_stream r) (d_input r) (inBytes r).

(** [call] unless an earlier call failed. *)
Definition submit (submitted : bool) (call : world → cuda_status * world) (w : world) : bool * world :=
  if submitted then let '(status, w) := call w in (cuda_ok status, w) else (false, w).

(** ** The producer *)

(** [TaskA::execute] up to the request, which it may not make. *)
Definition taskA_begin (t : ptr) (atom : ResultAtom) (infra : GpuInfra) (w : world) :
    option (option GpuCacheRequest * world) :=
  r ← task_store infra !! t;
  if ra_ready atom || negb (fits_task (inBytes r) atom) then Some (None, w)
  else
    '(current, w) ← makeTaskCurrent t infra w;
    Some (if negb current then None else Some (request r), w).

(** The transfers and the kernel, up to the first failure. *)
Definition taskA_submit (r : TaskGpuResources) (access : GpuDataAccess) (atom : ResultAtom) (w : world) :
    bool * world :=
  let w := host_store (h_in r) (ra_frame atom) w in
  let '(submitted, w) :=
    submit true (cudaMemcpyAsync (d_input r) (h_in r) (inBytes r) (task_stream r)) w in
  let '(submitted, w) :=
    if submitted then runResultKernel (d_input r) (d_scratch r) (inBytes r) (task_stream r) w
    else (false, w) in
  let '(submitted, w) :=
    submit submitted
      (cudaMemcpyDeviceToDevice (writableData access) (d_scratch r) (inBytes r) (task_stream r)) w in
  submit submitted (cudaMemcpyDeviceToHost (h_in r) (d_scratch r) (inBytes r) (task_stream r)) w.

Definition taskA_finish (t : ptr) (access : GpuDataAccess) (atom : ResultAtom) (infra : GpuInfra)
    (c : GpuDataCache) (w : world) : option (bool * ResultAtom * GpuDataCache * world) :=
  r ← task_store infra !! t;
  if negb (access_bool access) || status_eqb (accessStatus access) CacheHit then
    '(c, w) ← access_destruct access c w;
    Some (false, atom, c, w)
  else
    let '(submitted, w) := taskA_submit r access atom w in
    '(finished, access, c, w) ← freeCacheData access submitted Keep c w;
    let '(ok, atom) :=
      if negb submitted || negb finished then (false, atom)
      else (true, atom <| ra_result := host_bytes (h_in r) (inBytes r) w |> <| ra_ready := true |>) in
    '(c, w) ← access_destruct access c w;
    Some (ok : bool, atom, c, w).

(** ** The consumer *)

Record TaskB := mkTaskB {
  hits : uint64;
  uploadedBytes : uint64;
  taskB_resources : ptr;
}.

Definition TaskB_eta b := mkTaskB (hits b) (uploadedBytes b) (taskB_resources b).
#[export] Instance set_hits : Setter hits := ltac:(make_setter hits TaskB_eta).
#[export] Instance set_uploadedBytes : Setter uploadedBytes := ltac:(make_setter uploadedBytes TaskB_eta).
#[global] Arguments set_hits _ _ / : assert.
#[global] Arguments set_uploadedBytes _ _ / : assert.

Definition taskB_load (bytes : size_t) (b : TaskB) (infra : GpuInfra) (w : world) :
    option (bool * TaskB * GpuInfra * world) :=
  let b := b <| hits := 0 |> <| uploadedBytes := 0 |> in
  '(ok, infra, w) ← resources_load bytes (taskB_resources b) infra w;
  Some (ok, b, infra, w).

Definition taskB_begin (b : TaskB) (atom : ResultAtom) (requiredCpuStages : size_t)
    (infra : GpuInfra) (w : world) : option (option GpuCacheRequest * world) :=
  r ← task_store infra !! taskB_resources b;
  if negb (ra_ready atom) || negb (ra_cpuStages atom =? requiredCpuStages) || negb (fits_task (inBytes r) atom)
  then Some (None, w)
  else
    '(current, w) ← makeTaskCurrent (taskB_resources b) infra w;
    Some (if negb current then None else Some (request r), w).

(** What comes before the copies back: a hit is counted; otherwise the result
    goes to the buffer the access offers. *)
Definition taskB_refill (r : TaskGpuResources) (access : GpuDataAccess) (atom : ResultAtom) (b : TaskB)
    (w : world) : bool * TaskB * world :=
  if status_eqb (accessStatus access) CacheHit then (true, b <| hits := inc64 (hits b) |>, w)
  else
    let w := host_store (h_in r) (ra_result atom) w in
    let '(submitted, w) :=
      submit true (cudaMemcpyAsync (writableData access) (h_in r) (inBytes r) (task_stream r)) w in
    (submitted,
     if submitted then b <| uploadedBytes := add64 (uploadedBytes b) (inBytes r) |> else b, w).

Definition taskB_submit (r : TaskGpuResources) (access : GpuDataAccess) (atom : ResultAtom) (b : TaskB)
    (w : world) : bool * TaskB * world :=
  let '(submitted, b, w) := taskB_refill r access atom b w in
  let '(submitted, w) :=
    submit submitted
      (cudaMemcpyDeviceToDevice (d_scratch r) (d_data access) (inBytes r) (task_stream r)) w in
  let '(submitted, w) :=
    submit submitted (cudaMemcpyDeviceToHost (h_in r) (d_scratch r) (inBytes r) (task_stream r)) w in
  (submitted, b, w).

(** The verdict on what came back. *)
Definition taskB_verify (h_result : list N) (atom : ResultAtom) (requiredCpuStages : size_t) : bool :=
  bool_decide (h_result = ra_result atom) && expectedOutput h_result (ra_frame atom)
  && ((requiredCpuStages =? 0) || (ra_checksum atom =? accumulate (ra_result atom))).

Definition taskB_finish (access : GpuDataAccess) (atom : ResultAtom) (requiredCpuStages : size_t)
    (retention : CacheRetention) (b : TaskB) (infra : GpuInfra) (c : GpuDataCache) (w : world) :
    option (bool * TaskB * GpuDataCache * world) :=
  r ← task_store infra !! taskB_resources b;
  if negb (access_bool access) then
    '(c, w) ← access_destruct access c w;
    Some (false, b, c, w)
  else
    let '(submitted, b, w) := taskB_submit r access atom b w in
    '(finished, access, c, w) ← freeCacheData access submitted retention c w;
    let ok :=
      if negb submitted || negb finished then false
      else taskB_verify (host_bytes (h_in r) (inBytes r) w) atom requiredCpuStages in
    '(c, w) ← access_destruct access c w;
    Some (ok : bool, b, c, w).

End tasks.
