(* ===== verification/ResultTaskBehaviour.v ===== *)
(** What the tasks of the result pipeline promise to it: the producer's and the
    consumer's calls implement an abstract step of the atom, give every lease
    back, and the consumer's verdict can be relied on; the kernel writes every
    byte; the buffers are given back. *)
From S2P Require Import Prelude.
From S2P Require Import Platform.
From S2P Require Import GpuDataKey.
From S2P Require Import CacheTypes.
From S2P Require Import GpuDataCache.
From S2P Require Import GpuDataAccess.
From S2P Require Import CacheSpec.
From S2P Require Import CacheRefinement.
From S2P Require Import CacheFailure.
From S2P Require Import DeviceMemory.
From S2P Require Import GpuTopology.
From S2P Require Import GpuContextManager.
From S2P Require Import RegistryInvariant.
From S2P Require Import RegistryBehaviour.
From S2P Require Import DemoTypes.
From S2P Require Import DeviceCalls.
From S2P Require Import DummyTask.
From S2P Require Import TaskBehaviour.
From S2P Require Import ResultTasks.
#[local] Open Scope N_scope.

(** ** The abstract steps *)

(** The bytes of a result of a given size. *)
Definition bytes_of (bytes : size_t) (content : N → N) : list N :=
  (λ index, content (N.of_nat index)) <$> seq 0 (N.to_nat bytes).

(** The producer on an atom: [ok] says whether the cache and the device did their
    part, [content] what was read back. *)
Definition producer_step (bytes : size_t) (ok : bool) (content : N → N) (atom : ResultAtom) :
    bool * ResultAtom :=
  if negb (ra_ready atom) && fits_task bytes atom && ok
  then (true, atom <| ra_result := bytes_of bytes content |> <| ra_ready := true |>)
  else (false, atom).

(** The consumer, which only reads the atom. *)
Definition consumer_step (bytes : size_t) (requiredCpuStages : size_t) (ok : bool) (atom : ResultAtom) :
    bool :=
  ra_ready atom && (ra_cpuStages atom =? requiredCpuStages) && fits_task bytes atom
  && taskB_verify (ra_result atom) atom requiredCpuStages && ok.

Lemma bytes_of_size bytes content : vsize (bytes_of bytes content) = bytes.
Proof. unfold bytes_of. rewrite vsize_fmap. unfold vsize. rewrite length_seq. lia. Qed.

(** Any bytes of that size are the bytes of some content. *)
Lemma bytes_of_lookup bytes l : vsize l = bytes → l = bytes_of bytes (λ i, default 0 (vat l i)).
Proof.
  intros Hl. apply list_eq. intros i. unfold bytes_of. rewrite list_lookup_fmap.
  destruct (decide (i < N.to_nat bytes)%nat) as [Hi|Hi].
  - rewrite lookup_seq_lt by done. simpl. rewrite vat_lookup, Nat2N.id.
    destruct (lookup_lt_is_Some_2 l i) as [x ->]; [unfold vsize in *; lia|done].
  - rewrite lookup_seq_ge by lia. simpl. apply lookup_ge_None. unfold vsize in Hl. lia.
Qed.

Lemma expectedOutput_correct h_result frame :
  length h_result = length frame → expectedOutput h_result frame = true ↔ h_result = transformed <$> frame.
Proof.
  revert frame. induction h_result as [|x l IH]; intros [|y frame] Hl; simpl in *; try done.
  rewrite andb_true_iff, N.eqb_eq, IH by lia. split; [by intros [-> ->]|by intros [= -> ->]].
Qed.

(** What the consumer has verified. *)
Lemma taskB_verify_true h_result atom stages :
  vsize (ra_frame atom) = vsize (ra_result atom) → taskB_verify h_result atom stages = true →
  h_result = ra_result atom ∧ ra_result atom = transformed <$> ra_frame atom
  ∧ (stages ≠ 0 → ra_checksum atom = accumulate (ra_result atom)).
Proof.
  unfold taskB_verify. intros Hl. rewrite !andb_true_iff, bool_decide_eq_true, orb_true_iff, !N.eqb_eq.
  intros [[-> Hexp] Hsum]. apply expectedOutput_correct in Hexp; [|unfold vsize in Hl; lia].
  split_and!; try done. by intros ?; destruct Hsum.
Qed.

Section behaviour.
Context `{KernelDevice} `{!GpuDriver}.
Implicit Types (infra : GpuInfra) (r : TaskGpuResources) (w : world).

(** *** The kernel *)

(** A thread's index, which no launch of the program wraps. *)
Lemma kernel_index bytes (b t : dim3) :
  bytes ≤ INT_MAX → (b, t) ∈ threads_of (kernel_grid bytes) kernel_block →
  add64 (mul64 (dim_x b) (dim_x kernel_block)) (dim_x t) = dim_x b * 256 + dim_x t ∧ dim_x t < 256.
Proof.
  rewrite threads_of_spec, !indices_spec. unfold kernel_grid, kernel_block, INT_MAX, add64, mul64, wrap64, two64.
  cbn [dim_x dim_y]. intros Hle [[Hb _] [Ht _]].
  rewrite (N.mod_small (bytes + 255)) in Hb by lia.
  rewrite (N.mod_small _ 4294967296) in Hb by (apply N.Div0.div_lt_upper_bound; lia).
  assert ((bytes + 255) / 256 < 8388609) by (apply N.Div0.div_lt_upper_bound; lia).
  rewrite (N.mod_small (dim_x b * 256)) by lia. split; [apply N.mod_small; lia|done].
Qed.

(** The thread of an index. *)
Definition index_thread (i : N) : dim3 * dim3 := (mkDim3 (i / 256) 0, mkDim3 (i mod 256) 0).

Lemma kernel_covers bytes i :
  bytes ≤ INT_MAX → i < bytes → index_thread i ∈ threads_of (kernel_grid bytes) kernel_block.
Proof.
  unfold INT_MAX, index_thread. intros Hle Hi. rewrite threads_of_spec, !indices_spec.
  unfold kernel_grid, kernel_block, add64, wrap64, two64. cbn [dim_x dim_y].
  rewrite (N.mod_small (bytes + 255)) by lia.
  rewrite (N.mod_small _ 4294967296) by (apply N.Div0.div_lt_upper_bound; lia).
  split; [|by split; [apply N.mod_lt|]]. split; [|done].
  assert (i / 256 * 256 ≤ i) by (rewrite N.mul_comm; by apply N.Div0.mul_div_le).
  apply N.lt_le_trans with ((i / 256 * 256 + 256) / 256).
  - rewrite <-(N.mul_1_l 256) at 4. rewrite <-N.mul_add_distr_r, N.div_mul by done. lia.
  - apply N.Div0.div_le_mono. lia.
Qed.

(** The thread writes this address. *)
Definition writes (output : ptr) (bytes : size_t) (thread : dim3 * dim3) (a : N) : bool :=
  let k := dim_x thread.1 * 256 + dim_x thread.2 in (k <? bytes) && (a =? output + k).

Lemma writes_spec output bytes thread a :
  writes output bytes thread a = true ↔
  dim_x thread.1 * 256 + dim_x thread.2 < bytes ∧ a = output + (dim_x thread.1 * 256 + dim_x thread.2).
Proof. unfold writes. by rewrite andb_true_iff, N.ltb_lt, N.eqb_eq. Qed.

(** The launch writes every byte of the output, and no other, with the transform
    of the input's byte, in whatever order the device runs the threads. *)
Lemma result_kernel_run input output bytes threads (m : memory) :
  bytes ≤ INT_MAX → apart input bytes output bytes →
  threads ≡ₚ threads_of (kernel_grid bytes) kernel_block →
  ∀ a, run_threads (transformResultKernel input output bytes) kernel_block threads m a
    = if in_range output bytes a then transformed (m (input + (a - output))) else m a.
Proof.
  intros Hle Hap Hp a.
  rewrite (run_threads_spec _ _ _ _ (writes output bytes) (λ a, transformed (m (input + (a - output))))
    (λ a, in_range input bytes a = true)).
  - destruct (in_range_spec output bytes a) as [Ha|Ha], (existsb _ threads) eqn:Hex; try done.
    + apply not_true_iff_false in Hex. destruct Hex. apply existsb_exists.
      exists (index_thread (a - output)). rewrite <-list_elem_of_In, Hp, writes_spec.
      split; [apply kernel_covers; [done|lia]|]. simpl.
      rewrite (N.mul_comm _ 256), <-N.div_mod'. lia.
    + apply existsb_exists in Hex as (u & _ & Hu). apply writes_spec in Hu as [? ->]. lia.
  - intros b t m' Hin Hm a'. rewrite Hp in Hin. unfold transformResultKernel, writes. cbn [fst snd].
    destruct (kernel_index bytes b t Hle Hin) as [-> _]. set (k := dim_x b * 256 + dim_x t).
    destruct (N.leb_spec bytes k) as [Hk|Hk]; [by rewrite (proj2 (N.ltb_ge _ _))|].
    rewrite (proj2 (N.ltb_lt _ _)) by done. simpl. destruct (N.eqb_spec a' (output + k)) as [->|Hne].
    + rewrite fn_lookup_insert, Hm by (destruct (in_range_spec input bytes (input + k)); [done|lia]).
      do 3 f_equal. lia.
    + by rewrite fn_lookup_insert_ne.
  - intros thread a' _ [Hk ->]%writes_spec. unfold apart in Hap.
    destruct (in_range_spec input bytes (output + (dim_x thread.1 * 256 + dim_x thread.2))); [lia|done].
Qed.

(** The launch writes every byte of the output, and no other, with the transform
    of the input's byte, in whatever order the device runs the threads. *)
Theorem result_kernel_transforms input output bytes threads (m : memory) :
  bytes ≤ INT_MAX → apart input bytes output bytes →
  threads ≡ₚ threads_of (kernel_grid bytes) kernel_block →
  ∀ a, run_threads (transformResultKernel input output bytes) kernel_block threads m a
    = if in_range output bytes a then transformed (m (input + (a - output))) else m a.
Proof. apply result_kernel_run. Qed.

(** A lease that was asked for comes back whatever became of the work. *)
Definition lease_returned (access : GpuDataAccess) d c' (published discardNow : bool) (status : cuda_status) :
    Prop :=
  represents c' (end_access access published discardNow (synchronized status d))
  ∧ (published = true → cuda_ok status = true) ∧ (cuda_ok status = false → failed c' = true).

Lemma destruct_default c w : access_destruct GpuDataAccess_default c w = Some (c, w).
Proof. done. Qed.

(** The producer implements its abstract step.  It refuses, before it asks the
    cache, an atom that is already computed or not of its size; what it asks for
    is its own GPU, stream and buffer.  Whatever access it gets, the lease is
    returned: a hit, which can only be a stale result, is dropped and fails the
    step, and the atom takes the result and becomes ready exactly when everything
    was submitted and synchronized. *)
Theorem producer_implements_step (t : ptr) atom infra w r :
  registry infra → task_store infra !! t = Some r →
  ∃ q w1, taskA_begin t atom infra w = Some (q, w1)
    ∧ (q = None → ∀ content, ra_ready atom || negb (fits_task (inBytes r) atom) = true →
         producer_step (inBytes r) true content atom = (false, atom))
    ∧ ∀ asked, q = Some asked →
        asked = request r
        ∧ (∀ access c w2, owner access = nullptr →
             taskA_finish t access atom infra c w2 = Some (false, atom, c, w2))
        ∧ ∀ access c d w2,
            represents c d → holds_lease d access → owner access ≠ nullptr → stream access ≠ nullptr →
            ∃ ok content c' w3 published status,
              taskA_finish t access atom infra c w2
                = Some (producer_step (inBytes r) ok content atom, c', w3)
              ∧ lease_returned access d c' published false status
              ∧ (ok = true ↔ accessStatus access ≠ CacheHit ∧ published = true).
Proof.
  intros Hr Ht. unfold taskA_begin, producer_step. rewrite Ht. cbn [mbind option_bind].
  destruct (ra_ready atom || negb (fits_task (inBytes r) atom)) eqn:Hguard.
  { eexists _, _. split; [done|]. split; [|done]. intros _ content _.
    apply orb_true_iff in Hguard as [->|Hf%negb_true_iff]; [done|]. by rewrite Hf, andb_false_r. }
  apply orb_false_iff in Hguard as [Hready Hfits%negb_false_iff].
  rewrite (makeTaskCurrent_run infra t r w Hr Ht). cbn [mbind option_bind].
  destruct (if decide _ then _ else _) as [current w1].
  eexists _, _. split; [done|]. split; [done|]. intros asked Hasked. destruct current; [|done].
  injection Hasked as <-. split; [done|]. rewrite Hready, Hfits. cbn [negb andb].
  unfold taskA_finish. rewrite Ht. cbn [mbind option_bind]. split.
  { intros access c w2 Hown. unfold access_bool, access_destruct, abortUnfinishedAccess.
    rewrite Hown. done. }
  intros access c d w2 Hc Hl Hown Hstr. unfold access_bool. rewrite (proj2 (N.eqb_neq _ _) Hown).
  cbn [negb orb]. destruct (status_eqb (accessStatus access) CacheHit) eqn:Hhit.
  - destruct (cudaStreamSynchronize (stream access) w2) as [status w3] eqn:Hsync.
    destruct (access_destruct_run c d access w2 status w3 Hc Hl Hown Hsync) as (_ & c' & _ & -> & Hc' & Hf).
    cbn [mbind option_bind]. exists false, (λ _, 0), c', w3, false, status. split; [done|].
    split; [by split|]. apply bool_decide_eq_true in Hhit. split; [done|]. by intros [? _].
  - destruct (taskA_submit r access atom w2) as [submitted w3].
    destruct (cudaStreamSynchronize (stream access) w3) as [status w4] eqn:Hsync.
    destruct (freeCacheData_run c d access submitted Keep w3 status w4 Hc Hl Hown Hstr Hsync)
      as (c' & -> & Hc' & Hf). cbn [mbind option_bind]. simpl in Hc'. rewrite andb_true_r in *.
    exists (submitted && cuda_ok status), (λ i, default 0 (vat (host_bytes (h_in r) (inBytes r) w4) i)),
      c', w4, (submitted && cuda_ok status), status.
    rewrite <-(bytes_of_lookup _ _ (host_bytes_size (h_in r) (inBytes r) w4)).
    split; [by destruct submitted, (cuda_ok status)|].
    split; [split; [done|split; [|done]]; by rewrite andb_true_iff; intros [_ ?]|].
    apply bool_decide_eq_false in Hhit. naive_solver.
Qed.

Lemma taskB_submit_counters r access atom b w :
  let '(submitted, b', _) := taskB_submit r access atom b w in
  taskB_resources b' = taskB_resources b
  ∧ if decide (accessStatus access = CacheHit) then b' = b <| hits := inc64 (hits b) |>
    else b' = b <| uploadedBytes := add64 (uploadedBytes b) (inBytes r) |>
         ∨ b' = b ∧ submitted = false.
Proof.
  unfold taskB_submit, taskB_refill, status_eqb, submit. case_decide as Hhit.
  - rewrite bool_decide_eq_true_2 by done. by repeat case_match; simplify_eq/=.
  - rewrite bool_decide_eq_false_2 by done.
    destruct (cudaMemcpyAsync _ _ _ _ _) as [st w1]. destruct (cuda_ok st); simpl.
    + repeat case_match; simplify_eq/=; split; auto.
    + split; auto.
Qed.

Lemma taskB_verify_read h_result atom stages :
  taskB_verify h_result atom stages
  = bool_decide (h_result = ra_result atom) && taskB_verify (ra_result atom) atom stages.
Proof.
  unfold taskB_verify. case_bool_decide as Heq; [|done]. rewrite Heq. by rewrite bool_decide_eq_true_2.
Qed.

(** C26.  The consumer implements its abstract step: its verdict is [true] only for an
    atom that is ready, went through the required CPU stages, and holds the
    transformed frame and its checksum; and then everything was submitted and
    synchronized and the result came back from the device unchanged.  It counts a
    hit, or the bytes it uploaded, and the lease is returned with the caller's
    retention. *)
Theorem consumer_implements_step b atom stages retention infra w r :
  registry infra → task_store infra !! taskB_resources b = Some r →
  ∃ q w1, taskB_begin b atom stages infra w = Some (q, w1)
    ∧ ∀ asked, q = Some asked →
        asked = request r
        ∧ (∀ access c w2, owner access = nullptr →
             taskB_finish access atom stages retention b infra c w2 = Some (false, b, c, w2))
        ∧ ∀ access c d w2,
            represents c d → holds_lease d access → owner access ≠ nullptr → stream access ≠ nullptr →
            ∃ ok b' c' w3 published status,
              taskB_finish access atom stages retention b infra c w2
                = Some (consumer_step (inBytes r) stages ok atom, b', c', w3)
              ∧ lease_returned access d c' published (retention_eqb retention Discard) status
              ∧ (ok = true → published = true ∧ valid_retention retention = true)
              ∧ (ok = true → consumer_step (inBytes r) stages ok atom = true →
                   ra_result atom = transformed <$> ra_frame atom)
              ∧ if decide (accessStatus access = CacheHit) then b' = b <| hits := inc64 (hits b) |>
                else b' = b <| uploadedBytes := add64 (uploadedBytes b) (inBytes r) |>
                     ∨ b' = b ∧ published = false.
Proof.
  intros Hr Ht. unfold taskB_begin, consumer_step. rewrite Ht. cbn [mbind option_bind].
  destruct (negb (ra_ready atom) || _ || _) eqn:Hguard; [eexists _, _; split; [done|done]|].
  rewrite !orb_false_iff, !negb_false_iff in Hguard. destruct Hguard as [[Hready Hstages] Hfits].
  rewrite (makeTaskCurrent_run infra _ r w Hr Ht). cbn [mbind option_bind].
  destruct (if decide _ then _ else _) as [current w1].
  eexists _, _. split; [done|]. intros asked Hasked. destruct current; [|done].
  injection Hasked as <-. split; [done|]. rewrite Hready, Hstages, Hfits. cbn [negb andb].
  unfold taskB_finish. rewrite Ht. cbn [mbind option_bind]. split.
  { intros access c w2 Hown. unfold access_bool, access_destruct, abortUnfinishedAccess.
    rewrite Hown. done. }
  intros access c d w2 Hc Hl Hown Hstr. unfold access_bool. rewrite (proj2 (N.eqb_neq _ _) Hown).
  cbn [negb]. pose proof (taskB_submit_counters r access atom b w2) as Hcount.
  destruct (taskB_submit r access atom b w2) as [[submitted b'] w3]. destruct Hcount as [_ Hcount].
  destruct (cudaStreamSynchronize (stream access) w3) as [status w4] eqn:Hsync.
  destruct (freeCacheData_run c d access submitted retention w3 status w4 Hc Hl Hown Hstr Hsync)
    as (c' & -> & Hc' & Hf). cbn [mbind option_bind].
  set (published := submitted && valid_retention retention && cuda_ok status) in *.
  rewrite taskB_verify_read. set (read_back := bool_decide (host_bytes _ _ w4 = ra_result atom)).
  assert (vsize (ra_frame atom) = vsize (ra_result atom)) as Hsizes.
  { unfold fits_task in Hfits. rewrite !andb_true_iff, !N.eqb_eq in Hfits. naive_solver congruence. }
  exists (published && read_back), b', c', w4, published, status.
  split; [|split; [|split; [|split]]].
  - rewrite destruct_default. cbn [mbind option_bind]. do 4 f_equal. unfold published.
    destruct submitted, (valid_retention retention), (cuda_ok status), read_back,
      (taskB_verify (ra_result atom) atom stages); done.
  - split; [exact Hc'|split; [|done]]. unfold published. by rewrite !andb_true_iff; intros [_ ?].
  - rewrite andb_true_iff. intros [Hp _]. split; [done|]. unfold published in Hp.
    by rewrite !andb_true_iff in Hp; destruct Hp as [[_ ?] _].
  - intros _ [Hv _]%andb_true_iff. by apply taskB_verify_true in Hv as (_ & ? & _).
  - case_decide; [done|]. destruct Hcount as [|[-> ->]]; [by left|by right].
Qed.

(** *** The buffers *)

(** Resources that are not registered hold nothing of the machine. *)
Definition nothing_held r : Prop :=
  task_stream r = nullptr ∧ h_in r = nullptr ∧ d_input r = nullptr ∧ d_scratch r = nullptr.
Definition tidy r : Prop := ctx r = nullptr → nothing_held r.

Lemma result_buffers_binding bytes r w :
  same_binding r (result_buffers bytes r w).1.2 ∧ inBytes (result_buffers bytes r w).1.2 = bytes.
Proof. unfold result_buffers, same_binding. repeat case_match; simplify_eq/=; by split_and!. Qed.

Lemma resources_load_run bytes (t : ptr) infra w r :
  registry infra → task_store infra !! t = Some r → slots infra → tidy r →
  ∃ ok infra' w' r', resources_load bytes t infra w = Some (ok, infra', w')
    ∧ touched t 1 infra infra' ∧ task_store infra' !! t = Some r' ∧ tidy r'
    ∧ (ok = true → 0 < bytes ≤ INT_MAX ∧ ctx r' ≠ nullptr ∧ inBytes r' = bytes
         ∧ gpuIdsForCurrentNumaNode infra w = Some (true, [task_gpuId r']))
    ∧ (ctx r ≠ nullptr → ok = false ∧ infra' = infra).
Proof.
  intros Hr Ht Hslots Htidy. unfold resources_load. rewrite Ht. cbn [mbind option_bind].
  assert (touched t 1 infra infra) as Htouch by (by eapply touched_weaken; [apply touched_refl|]).
  destruct (negb (ctx r =? nullptr) || _ || _) eqn:Hguard; [by eexists _, _, _, r|].
  rewrite !orb_false_iff, negb_false_iff, N.eqb_eq, N.eqb_neq, N.ltb_ge in Hguard.
  destruct Hguard as [[Hctx Hpos] Hmax].
  destruct (gpuIdsForCurrentNumaNode_run infra w Hr) as (resolved & ids & Hids & Hone).
  rewrite Hids. cbn [mbind option_bind].
  destruct resolved; cbn [negb mbind option_bind]; [|by eexists _, _, _, r].
  destruct (Hone eq_refl) as (gpu & -> & _). cbn [head mbind option_bind].
  destruct (registerTask_result infra gpu t r Hr Ht Hslots)
    as (registered & infra1 & -> & Htouch1 & Hno & r1 & Ht1 & Hreg1). cbn [mbind option_bind].
  pose proof (touched_registry _ _ _ _ Htouch1) as Hr1.
  destruct registered; cbn [negb].
  2: { rewrite (Hno eq_refl). by eexists _, _, _, r. }
  destruct (Hreg1 eq_refl) as [Hctx1 Hgpu1].
  rewrite (makeTaskCurrent_run infra1 t r1 w Hr1 Ht1). cbn [mbind option_bind].
  destruct (if decide _ then _ else _) as [current w1]. destruct current; cbn [negb].
  2: { eexists _, _, _, r1. by split_and!. }
  rewrite Ht1. cbn [mbind option_bind]. pose proof (result_buffers_binding bytes r1 w1) as [(Hi & Hg & Hc) Hb].
  destruct (result_buffers bytes r1 w1) as [[ok r2] w2]. simpl in Hi, Hg, Hc, Hb.
  eexists _, _, _, r2. split; [done|]. split.
  { apply (touched_trans _ 1 0 infra infra1); [done|]. by apply (touched_contents infra1 _ r1). }
  split; [apply lookup_insert_eq|]. split; [by intros ?; destruct Hctx1; congruence|].
  split; [|done]. intros _. split; [lia|]. split; [congruence|]. split; [done|]. congruence.
Qed.

Lemma resources_unload_run (t : ptr) infra w r :
  registry infra → task_store infra !! t = Some r → tidy r →
  ∃ ok infra' w' r', resources_unload t infra w = Some (ok, infra', w')
    ∧ touched t 0 infra infra' ∧ task_store infra' !! t = Some r' ∧ tidy r'
    ∧ (ok = true → ctx r' = nullptr)
    ∧ (ctx r' = nullptr ∨ ok = false ∧ r' = r ∧ infra' = infra
         ∧ ∃ status w1, cudaSetDevice (task_gpuId r) w = (status, w1) ∧ cuda_ok status = false).
Proof.
  intros Hr Ht Htidy. unfold resources_unload. rewrite Ht. cbn [mbind option_bind].
  destruct (N.eqb_spec (ctx r) nullptr) as [Hctx|Hctx].
  { eexists _, _, _, r. split; [done|]. split; [by apply touched_refl|]. split_and!; auto. }
  rewrite (makeTaskCurrent_run infra t r w Hr Ht). cbn [mbind option_bind]. rewrite decide_False by done.
  destruct (cudaSetDevice (task_gpuId r) w) as [status w1] eqn:Hset. cbn [mbind option_bind].
  destruct (cuda_ok status) eqn:Hok; cbn [negb].
  2: { eexists _, _, _, r. split; [done|]. split; [by apply touched_refl|]. split_and!; try done. right. by split_and!; eauto. }
  destruct (released_by cudaStreamSynchronize _ _) as [drained w2].
  destruct (released_by cudaFree _ _) as [f1 w3]. destruct (released_by cudaFree _ _) as [f2 w4].
  destruct (released_by cudaFreeHost _ _) as [f3 w5].
  destruct (released_by cudaStreamDestroy _ _) as [f4 w6].
  set (r1 := r <| d_scratch := nullptr |> <| d_input := nullptr |> <| h_in := nullptr |>
               <| task_stream := nullptr |>).
  set (infra1 := infra <| task_store := <[t := r1]> (task_store infra) |>).
  assert (touched t 0 infra infra1) as Htouch by (by apply (touched_contents infra _ r)).
  pose proof (touched_registry _ _ _ _ Htouch) as Hr1.
  assert (task_store infra1 !! t = Some r1) as Ht1 by (apply lookup_insert_eq).
  destruct (unregisterTask_result infra1 t r1 Hr1 Ht1)
    as (infra2 & r2 & -> & Htouch2 & Ht2 & Hc2 & Hs & Hh & Hd & Hsc & _).
  cbn [mbind option_bind]. eexists _, _, _, r2. split; [done|].
  split; [by apply (touched_trans _ 0 0 infra infra1)|]. split; [done|].
  split; [|by auto]. intros _. unfold nothing_held. by rewrite Hs, Hh, Hd, Hsc.
Qed.

(** A load binds the task to its NUMA node's GPU with buffers of the size asked
    for, or reports failure, possibly with a part of them.  Whatever it did, a
    later unload gives back all of it, except where the device cannot be selected:
    then it reports that and leaves everything in place, to be unloaded again. *)
Theorem result_resources_given_back bytes (t : ptr) infra w r :
  registry infra → task_store infra !! t = Some r → slots infra →
  ctx r = nullptr → nothing_held r →
  ∃ ok infra1 w1 r1, resources_load bytes t infra w = Some (ok, infra1, w1)
    ∧ touched t 1 infra infra1 ∧ task_store infra1 !! t = Some r1
    ∧ (ok = true → 0 < bytes ≤ INT_MAX ∧ ctx r1 ≠ nullptr ∧ inBytes r1 = bytes
         ∧ gpuIdsForCurrentNumaNode infra w = Some (true, [task_gpuId r1]))
    ∧ ∀ w2, ∃ ok2 infra2 w3 r2, resources_unload t infra1 w2 = Some (ok2, infra2, w3)
        ∧ touched t 0 infra1 infra2 ∧ task_store infra2 !! t = Some r2
        ∧ (ctx r2 = nullptr ∧ nothing_held r2
           ∨ ok2 = false ∧ infra2 = infra1
             ∧ ∃ status w4, cudaSetDevice (task_gpuId r1) w2 = (status, w4) ∧ cuda_ok status = false).
Proof.
  intros Hr Ht Hslots Hctx Hheld.
  destruct (resources_load_run bytes t infra w r) as (ok & infra1 & w1 & r1 & Hrun & Htouch & Ht1 & Htidy & Hok & _);
    [done|done|done|by intros _|]. exists ok, infra1, w1, r1. split_and!; try done.
  intros w2. pose proof (touched_registry _ _ _ _ Htouch) as Hr1.
  destruct (resources_unload_run t infra1 w2 r1 Hr1 Ht1 Htidy)
    as (ok2 & infra2 & w3 & r2 & Hrun2 & Htouch2 & Ht2 & Htidy2 & _ & Hor).
  exists ok2, infra2, w3, r2. split_and!; try done.
  destruct Hor as [Hc|(? & _ & ? & ?)]; [left; by split; [|apply Htidy2]|by right].
Qed.

End behaviour.
