(* ===== verification/ResultCompute.v ===== *)
(** What the tasks of the result pipeline compute, on a device that behaves as
    documented: the producer's result is the transform of its frame, on the device
    where the cache keeps it and in the atom; the consumer judges what it read. *)
From S2P Require Import Prelude.
From S2P Require Import Platform.
From S2P Require Import GpuDataKey.
From S2P Require Import CacheTypes.
From S2P Require Import GpuDataCache.
From S2P Require Import GpuDataAccess.
From S2P Require Import CacheSpec.
From S2P Require Import CacheRefinement.
From S2P Require Import CacheFailure.
From S2P Require Import DeviceMemory.
From S2P Require Import GpuContextManager.
From S2P Require Import DemoTypes.
From S2P Require Import DeviceCalls.
From S2P Require Import DummyTask.
From S2P Require Import ResultTasks.
From S2P Require Import ResultTaskBehaviour.
#[local] Open Scope N_scope.

Section compute.
Context `{KM : KernelMemory} `{!GpuDriver}.
Implicit Types (r : TaskGpuResources) (w : world).

(** The bytes are on the device, from an address on. *)
Definition device_holds (p : ptr) (l : list N) w : Prop := bytes_at (device_byte w) p (vsize l) = l.

(** The buffers of a task are its own, and its access is elsewhere than its
    scratch buffer. *)
Record buffers r (access : GpuDataAccess) w : Prop := {
  buffers_size : inBytes r ≤ INT_MAX;
  buffers_input : allocated blocks w (d_input r) (inBytes r);
  buffers_scratch : apart (d_input r) (inBytes r) (d_scratch r) (inBytes r);
  buffers_access : apart (d_data access) (inBytes r) (d_scratch r) (inBytes r);
}.

Lemma submit_true submitted call w w' :
  submit submitted call w = (true, w') →
  submitted = true ∧ ∃ st, call w = (st, w') ∧ cuda_ok st = true.
Proof using Type.
  unfold submit. destruct submitted; [|done]. destruct (call w) as [st w1] eqn:Hcall.
  intros [= Hok <-]. split; [done|]. by exists st.
Qed.

(** The submitted work, once it is done: the transform of the frame is in the
    access's buffer and on its way to the host. *)
Lemma taskA_submit_run r access atom w w' :
  buffers r access w → vsize (ra_frame atom) = inBytes r → accessStatus access = CacheFill ∨ accessStatus access = TaskFallback →
  taskA_submit r access atom w = (true, w') →
  device_holds (d_data access) (transformed <$> ra_frame atom) w'
  ∧ bytes_at (host_byte w') (h_in r) (inBytes r) = transformed <$> ra_frame atom
  ∧ ∀ a, in_range (h_in r) (inBytes r) a = true → host_writer w' a = task_stream r.
Proof using KM.
  intros [Hmax Hal Hsc Hac] Hsize Hst. unfold taskA_submit.
  set (wf := host_store (h_in r) (ra_frame atom) w).
  assert (writableData access = d_data access) as -> by (unfold writableData, status_eqb; by destruct Hst as [-> | ->]).
  destruct (memory_store (h_in r) (ra_frame atom) w) as ((Hbf & _) & Hhf). fold wf in Hbf, Hhf.
  destruct (submit true _ wf) as [s1 w1] eqn:Hup.
  destruct (if s1 then _ else _) as [s2 w2] eqn:Hrun.
  destruct (submit s2 _ w2) as [s3 w3] eqn:Hdd. intros Hdh.
  apply submit_true in Hdh as [-> (st4 & Hdh & Hok4)].
  apply submit_true in Hdd as [-> (st3 & Hdd & Hok3)]. destruct s1; [|done].
  apply submit_true in Hup as [_ (st1 & Hup & Hok1)].
  destruct (memory_memcpy _ _ _ _ _ _ _ Hup Hok1) as (_ & _ & _ & Hd1); [unfold allocated; by rewrite Hbf|].
  unfold runResultKernel in Hrun. destruct (cudaGetLastError _) as [st2 w2'] eqn:Hlaunch.
  injection Hrun as Hok2 <-.
  destruct (memory_launch _ _ _ _ _ _ _ Hlaunch Hok2) as (threads & Hp & _ & _ & _ & Hd2).
  destruct (memory_device_copy _ _ _ _ _ _ _ Hdd Hok3) as (_ & _ & _ & Hd3).
  destruct (memory_to_host _ _ _ _ _ _ _ Hdh Hok4) as (_ & Hd4 & Hh4 & Hw4).
  assert (∀ i, i < inBytes r → device_byte w2' (d_scratch r + i) = transformed (default 0 (vat (ra_frame atom) i))) as Hscratch.
  { intros i Hi. rewrite Hd2, result_kernel_run by done. rewrite in_range_offset by done.
    replace (d_scratch r + i - d_scratch r) with i by lia. rewrite Hd1, in_range_offset by done.
    replace (d_input r + i - d_input r) with i by lia. rewrite Hhf, Hsize, in_range_offset by done.
    by replace (h_in r + i - h_in r) with i by lia. }
  assert (bytes_at (λ i, transformed (default 0 (vat (ra_frame atom) i))) 0 (inBytes r) = transformed <$> ra_frame atom) as Hlist.
  { trans (transformed <$> bytes_at (λ i, default 0 (vat (ra_frame atom) i)) 0 (inBytes r)).
    - unfold bytes_at. by rewrite <-list_fmap_compose.
    - by rewrite (bytes_at_list _ _ Hsize). }
  split; [|split].
  - unfold device_holds. rewrite vsize_fmap, Hsize. rewrite <-Hlist. apply bytes_at_ext. intros i Hi.
    rewrite Hd4, Hd3, in_range_offset by done. replace (d_data access + i - d_data access) with i by lia. by apply Hscratch.
  - rewrite <-Hlist. apply bytes_at_ext. intros i Hi. rewrite Hh4, in_range_offset by done.
    replace (h_in r + i - h_in r) with i by lia. rewrite Hd3, (apart_out _ (inBytes r)) by (done || by apply apart_sym).
    by apply Hscratch.
  - intros a Ha. by rewrite Hw4, Ha.
Qed.

(** C23.  A producer that reports success has left the transform of its frame in the
    atom, and on the device where the cache serves it from. *)
Theorem producer_computes (t : ptr) access atom infra c dir w r ok atom' c' w' :
  represents c dir → holds_lease dir access → owner access ≠ nullptr → stream access ≠ nullptr →
  accessStatus access ≠ Invalid → stream access = task_stream r → task_store infra !! t = Some r →
  buffers r access w → vsize (ra_frame atom) = inBytes r →
  taskA_finish t access atom infra c w = Some (ok, atom', c', w') → ok = true →
  atom' = atom <| ra_result := transformed <$> ra_frame atom |> <| ra_ready := true |>
  ∧ device_holds (d_data access) (transformed <$> ra_frame atom) w'.
Proof using KM.
  intros Hc Hl Hown Hstr Hst Hsame Ht Hbuf Hsize Hrun ->. unfold taskA_finish in Hrun.
  rewrite Ht in Hrun. cbn [mbind option_bind] in Hrun. unfold access_bool in Hrun.
  rewrite (proj2 (N.eqb_neq _ _) Hown) in Hrun. cbn [negb orb] in Hrun.
  destruct (status_eqb (accessStatus access) CacheHit) eqn:Hhit.
  { by destruct (access_destruct access c w) as [[c1 w1]|]. }
  destruct (taskA_submit r access atom w) as [submitted w1] eqn:Hsub.
  destruct (cudaStreamSynchronize (stream access) w1) as [status w2] eqn:Hsync.
  destruct (freeCacheData_run c dir access submitted Keep w1 status w2 Hc Hl Hown Hstr Hsync) as (c1 & Hfree & _).
  rewrite Hfree in Hrun. cbn [mbind option_bind] in Hrun.
  change (access_destruct GpuDataAccess_default c1 w2) with (Some (c1, w2)) in Hrun.
  destruct submitted; [|done]. destruct (cuda_ok status) eqn:Hok; [|done].
  cbn [negb orb andb valid_retention retention_eqb mbind option_bind] in Hrun. injection Hrun as <- <- <-.
  apply bool_decide_eq_false in Hhit.
  assert (accessStatus access = CacheFill ∨ accessStatus access = TaskFallback) as Hfill
    by (destruct (accessStatus access); auto; done).
  destruct (taskA_submit_run r access atom w w1 Hbuf Hsize Hfill Hsub) as (Hdev & Hhost & Hwr). split.
  - rewrite (memory_read _ _ _ _ _ _ Hsync Hok), Hhost; [done|]. by rewrite Hsame.
  - unfold device_holds in *. rewrite <-Hdev at 2. apply memory_synchronize in Hsync; [|done].
    by destruct Hsync as [(_ & -> & _) _].
Qed.

(** What the consumer copies back is what the access's buffer held: the payload on
    a hit, and the result it uploads itself otherwise. *)
Lemma taskB_submit_run r access atom b b' w w' :
  buffers r access w → allocated blocks w (d_data access) (inBytes r) → vsize (ra_result atom) = inBytes r →
  accessStatus access ≠ Invalid → taskB_submit r access atom b w = (true, b', w') →
  bytes_at (host_byte w') (h_in r) (inBytes r)
    = (if status_eqb (accessStatus access) CacheHit then bytes_at (device_byte w) (d_data access) (inBytes r)
       else ra_result atom)
  ∧ ∀ a, in_range (h_in r) (inBytes r) a = true → host_writer w' a = task_stream r.
Proof using KM.
  intros [_ _ _ Hac] Hal Hsize Hst. unfold taskB_submit.
  destruct (taskB_refill r access atom b w) as [[s1 b1] w1] eqn:Hre.
  destruct (submit s1 _ w1) as [s2 w2] eqn:Hdd. destruct (submit s2 _ w2) as [s3 w3] eqn:Hdh.
  intros [= -> <- <-]. apply submit_true in Hdh as [-> (st3 & Hdh & Hok3)].
  apply submit_true in Hdd as [-> (st2 & Hdd & Hok2)].
  destruct (memory_device_copy _ _ _ _ _ _ _ Hdd Hok2) as (_ & _ & _ & Hd2).
  destruct (memory_to_host _ _ _ _ _ _ _ Hdh Hok3) as (_ & _ & Hh3 & Hw3).
  split; [|intros a Ha; by rewrite Hw3, Ha].
  assert (bytes_at (host_byte w3) (h_in r) (inBytes r) = bytes_at (device_byte w1) (d_data access) (inBytes r)) as ->.
  { apply bytes_at_ext. intros i Hi. rewrite Hh3, in_range_offset by done.
    replace (h_in r + i - h_in r) with i by lia. rewrite Hd2, in_range_offset by done.
    by replace (d_scratch r + i - d_scratch r) with i by lia. }
  unfold taskB_refill in Hre. destruct (status_eqb (accessStatus access) CacheHit) eqn:Hhit; [by simplify_eq|].
  destruct (submit true _ _) as [s w'] eqn:Hup. destruct s; [|done]. injection Hre as _ <-.
  apply submit_true in Hup as [_ (st1 & Hup & Hok1)].
  assert (writableData access = d_data access) as Hwd.
  { apply bool_decide_eq_false in Hhit. unfold writableData, status_eqb. by destruct (accessStatus access). }
  rewrite Hwd in Hup. destruct (memory_store (h_in r) (ra_result atom) w) as ((Hb & _) & Hh).
  destruct (memory_memcpy _ _ _ _ _ _ _ Hup Hok1) as (_ & _ & _ & Hd1); [unfold allocated; by rewrite Hb|].
  rewrite <-(bytes_at_list _ _ Hsize). apply bytes_at_ext. intros i Hi. rewrite Hd1, in_range_offset by done.
  replace (d_data access + i - d_data access) with i by lia. rewrite Hh, Hsize, in_range_offset by done.
  rewrite N.add_0_l. by replace (h_in r + i - h_in r) with i by lia.
Qed.

(** C24.  The consumer accepts a hit only if the device holds the transform of the
    frame; it accepts no atom whose result is not that. *)
Theorem consumer_checks_payload access atom stages retention b infra c dir w r ok b' c' w' :
  represents c dir → holds_lease dir access → owner access ≠ nullptr → stream access ≠ nullptr →
  accessStatus access ≠ Invalid → stream access = task_stream r →
  task_store infra !! taskB_resources b = Some r →
  buffers r access w → allocated blocks w (d_data access) (inBytes r) →
  vsize (ra_frame atom) = inBytes r → vsize (ra_result atom) = inBytes r →
  taskB_finish access atom stages retention b infra c w = Some (ok, b', c', w') → ok = true →
  ra_result atom = transformed <$> ra_frame atom
  ∧ (accessStatus access = CacheHit → device_holds (d_data access) (transformed <$> ra_frame atom) w).
Proof using KM.
  intros Hc Hl Hown Hstr Hst Hsame Ht Hbuf Hal Hsf Hsr Hrun ->. unfold taskB_finish in Hrun.
  rewrite Ht in Hrun. cbn [mbind option_bind] in Hrun. unfold access_bool in Hrun.
  rewrite (proj2 (N.eqb_neq _ _) Hown) in Hrun. cbn [negb] in Hrun.
  destruct (taskB_submit r access atom b w) as [[submitted b1] w1] eqn:Hsub.
  destruct (cudaStreamSynchronize (stream access) w1) as [status w2] eqn:Hsync.
  destruct (freeCacheData_run c dir access submitted retention w1 status w2 Hc Hl Hown Hstr Hsync) as (c1 & Hfree & _).
  rewrite Hfree in Hrun. cbn [mbind option_bind] in Hrun.
  change (access_destruct GpuDataAccess_default c1 w2) with (Some (c1, w2)) in Hrun.
  cbn [mbind option_bind] in Hrun. destruct submitted; [|done].
  destruct (true && valid_retention retention && cuda_ok status) eqn:Hfin; [|done]. cbn [negb orb] in Hrun.
  rewrite !andb_true_iff in Hfin. destruct Hfin as [_ Hok]. injection Hrun as Hver _ _ _.
  destruct (taskB_submit_run r access atom b b1 w w1 Hbuf Hal Hsr Hst Hsub) as [Hhost Hwr].
  rewrite (memory_read _ _ _ _ _ _ Hsync Hok) in Hver by (by rewrite Hsame).
  apply taskB_verify_true in Hver as (Hread & Hres & _); [|congruence]. split; [done|]. intros Hhit.
  rewrite Hhost, Hhit in Hread. unfold status_eqb in Hread. rewrite bool_decide_eq_true_2 in Hread by done.
  unfold device_holds. rewrite vsize_fmap, Hsf. by rewrite Hread, Hres.
Qed.

End compute.
