(* ===== verification/ResultPipeline.v ===== *)
(** The result pipeline ([demo/ResultPipeline/ResultPipeline.h] and [.cpp]): three
    threads, a producer, a chain of CPU tasks and a consumer, pass a fixed set of
    atoms around through queues under one mutex.  A thread is a machine whose
    states are the points between its critical sections and its calls of a task;
    the calls of the tasks are the abstract steps of [ResultTaskBehaviour]. *)
From stdpp Require Import sorting.
From S2P Require Import Prelude.
From S2P Require Import Platform.
From S2P Require Import GpuDataKey.
From S2P Require Import CacheTypes.
From S2P Require Import GpuDataCache.
From S2P Require Import CacheLifecycle.
From S2P Require Import GpuContextManager.
From S2P Require Import DeviceCalls.
From S2P Require Import DummyTask.
From S2P Require Import ResultTasks.
From S2P Require Import ResultTaskBehaviour.
#[local] Open Scope N_scope.

Record PipelineConfig := mkPipelineConfig {
  cfg_frames : size_t;
  cfg_entries : size_t;
  cfg_inFlight : size_t;
  cfg_bytes : size_t;
  cfg_cpuStages : size_t;
  cfg_cpuDelay : Z;
  cfg_cacheWait : Z;
  cfg_policy : CacheEvictionPolicy;
  cfg_retention : CacheRetention;
}.

Definition PipelineConfig_default : PipelineConfig := mkPipelineConfig 1000 16 32 4096 3 50 50 LRU Keep.

(** The guard of [runPipeline]. *)
Definition config_rejects (c : PipelineConfig) : bool :=
  (cfg_frames c =? 0) || (1000000 <? cfg_frames c) || (cfg_entries c =? 0) || (65536 <? cfg_entries c)
  || (cfg_inFlight c =? 0) || (65536 <? cfg_inFlight c) || (cfg_bytes c =? 0)
  || (16777216 <? cfg_bytes c) || (cfg_cpuStages c =? 0) || (100 <? cfg_cpuStages c)
  || (cfg_cpuDelay c <? 0)%Z || (cfg_cacheWait c <? 0)%Z.

(** ** [Scheduler] *)

(** [sch_changed] counts the notifications of [changed]. *)
Record PipelineScheduler := mkPipelineScheduler {
  freeSlots : list size_t;
  cpuQueue : list size_t;
  consumerQueue : list size_t;
  sch_ready : size_t;
  sch_active : size_t;
  sch_peak : size_t;
  sch_start : bool;
  sch_failed : bool;
  sch_changed : N;
}.

Definition PipelineScheduler_eta s :=
  mkPipelineScheduler (freeSlots s) (cpuQueue s) (consumerQueue s) (sch_ready s) (sch_active s)
    (sch_peak s) (sch_start s) (sch_failed s) (sch_changed s).
#[export] Instance set_freeSlots : Setter freeSlots := ltac:(make_setter freeSlots PipelineScheduler_eta).
#[export] Instance set_cpuQueue : Setter cpuQueue := ltac:(make_setter cpuQueue PipelineScheduler_eta).
#[export] Instance set_consumerQueue : Setter consumerQueue := ltac:(make_setter consumerQueue PipelineScheduler_eta).
#[export] Instance set_sch_ready : Setter sch_ready := ltac:(make_setter sch_ready PipelineScheduler_eta).
#[export] Instance set_sch_active : Setter sch_active := ltac:(make_setter sch_active PipelineScheduler_eta).
#[export] Instance set_sch_peak : Setter sch_peak := ltac:(make_setter sch_peak PipelineScheduler_eta).
#[export] Instance set_sch_start : Setter sch_start := ltac:(make_setter sch_start PipelineScheduler_eta).
#[export] Instance set_sch_failed : Setter sch_failed := ltac:(make_setter sch_failed PipelineScheduler_eta).
#[export] Instance set_sch_changed : Setter sch_changed := ltac:(make_setter sch_changed PipelineScheduler_eta).
#[global] Arguments set_freeSlots _ _ / : assert.
#[global] Arguments set_cpuQueue _ _ / : assert.
#[global] Arguments set_consumerQueue _ _ / : assert.
#[global] Arguments set_sch_ready _ _ / : assert.
#[global] Arguments set_sch_active _ _ / : assert.
#[global] Arguments set_sch_peak _ _ / : assert.
#[global] Arguments set_sch_start _ _ / : assert.
#[global] Arguments set_sch_failed _ _ / : assert.
#[global] Arguments set_sch_changed _ _ / : assert.

Implicit Types (s : PipelineScheduler).

Definition sch_notify s := s <| sch_changed := sch_changed s + 1 |>.

Definition sch_cancel s : PipelineScheduler := sch_notify (s <| sch_failed := true |>).

(** [awaitStart] up to its wait, the predicate it waits for and its result. *)
Definition awaitStart_enter (loaded : bool) s : PipelineScheduler :=
  let s := s <| sch_ready := inc64 (sch_ready s) |> in
  sch_notify (if negb loaded then s <| sch_failed := true |> else s).
Definition awaitStart_predicate s : bool := sch_start s || sch_failed s.
Definition awaitStart_result s : bool := negb (sch_failed s).

Inductive Queue := FreeSlots | CpuQueue | ConsumerQueue.

Definition queue (q : Queue) s : list size_t :=
  match q with FreeSlots => freeSlots s | CpuQueue => cpuQueue s | ConsumerQueue => consumerQueue s end.
Definition set_queue (q : Queue) (l : list size_t) s : PipelineScheduler :=
  match q with
  | FreeSlots => s <| freeSlots := l |>
  | CpuQueue => s <| cpuQueue := l |>
  | ConsumerQueue => s <| consumerQueue := l |>
  end.

(** [take]: the predicate it waits for, and what follows the wait. *)
Definition take_predicate (q : Queue) s : bool := sch_failed s || negb (vsize (queue q s) =? 0).

Definition sch_take (q : Queue) (producing : bool) s : option (option size_t * PipelineScheduler) :=
  if sch_failed s then Some (None, s)
  else
    slot ← head (queue q s);
    let s := set_queue q (tail (queue q s)) s in
    let s :=
      if producing then
        let s := s <| sch_active := inc64 (sch_active s) |> in
        s <| sch_peak := N.max (sch_peak s) (sch_active s) |>
      else s in
    Some (Some slot, s).

Definition sch_pass (q : Queue) (slot : size_t) (completed : bool) s : PipelineScheduler :=
  let s := set_queue q (queue q s ++ [slot]) s in
  let s := if completed then s <| sch_active := dec64 (sch_active s) |> else s in
  sch_notify s.

(** ** The threads *)

(** Where a thread is: before it loads its task; before and in the wait of
    [awaitStart]; before and in the wait of [take]; working on a slot; about to
    pass it on; about to cancel; returned. *)
Inductive StagePc :=
  | AtLoad | AtStart | StartAsleep | AtTake | TakeAsleep | AtWork | AtPass | AtCancel | Returned.

#[export] Instance StagePc_eq_dec : EqDecision StagePc.
Proof. solve_decision. Defined.

(** A thread with the locals of its loop: the frame, the slot it has not passed
    on, and the next CPU task. *)
Record StageThread := mkThread {
  pc : StagePc;
  thread_frame : size_t;
  thread_slot : option size_t;
  thread_cpu : size_t;
}.

Definition new_thread : StageThread := mkThread AtLoad 0 None 0.

(** Where the thread that starts the others is. *)
Inductive OwnerPc := Spawning | OwnerWaiting | OwnerAsleep | OwnerCancelling | Joining | Joined.

#[export] Instance OwnerPc_eq_dec : EqDecision OwnerPc.
Proof. solve_decision. Defined.

(** What the threads share, and the threads, in the order of their stages. *)
Record Pipeline := mkPipeline {
  pl_sched : PipelineScheduler;
  pl_atoms : list ResultAtom;
  pl_latency : list Z;
  pl_completed : uint64;
  pl_threads : list StageThread;
  pl_owner : OwnerPc;
}.

Definition Pipeline_eta p :=
  mkPipeline (pl_sched p) (pl_atoms p) (pl_latency p) (pl_completed p) (pl_threads p) (pl_owner p).
#[export] Instance set_pl_sched : Setter pl_sched := ltac:(make_setter pl_sched Pipeline_eta).
#[export] Instance set_pl_atoms : Setter pl_atoms := ltac:(make_setter pl_atoms Pipeline_eta).
#[export] Instance set_pl_latency : Setter pl_latency := ltac:(make_setter pl_latency Pipeline_eta).
#[export] Instance set_pl_completed : Setter pl_completed := ltac:(make_setter pl_completed Pipeline_eta).
#[export] Instance set_pl_threads : Setter pl_threads := ltac:(make_setter pl_threads Pipeline_eta).
#[export] Instance set_pl_owner : Setter pl_owner := ltac:(make_setter pl_owner Pipeline_eta).
#[global] Arguments set_pl_sched _ _ / : assert.
#[global] Arguments set_pl_atoms _ _ / : assert.
#[global] Arguments set_pl_latency _ _ / : assert.
#[global] Arguments set_pl_completed _ _ / : assert.
#[global] Arguments set_pl_threads _ _ / : assert.
#[global] Arguments set_pl_owner _ _ / : assert.

Definition slot_count (c : PipelineConfig) : size_t := N.min (cfg_inFlight c) (cfg_frames c).

(** The state before the first thread is started. *)
Definition pipeline_start (c : PipelineConfig) : Pipeline :=
  let slots := seq 0 (N.to_nat (slot_count c)) in
  mkPipeline (mkPipelineScheduler (N.of_nat <$> slots) [] [] 0 0 0 false false 0)
    ((λ _, makeAtom 0 (cfg_bytes c)) <$> slots) (replicate (N.to_nat (cfg_frames c)) 0%Z) 0 [] Spawning.

(** What a step takes from outside: how the task's call ended, the bytes it read
    back, and the time. *)
Inductive Outcome := Answers (ok : bool) | Throws.

Record StepInput := mkInput {
  outcome : Outcome;
  content : N → N;
  now : Z;
}.

Section steps.
Context (c : PipelineConfig).

Definition source (stage : nat) : Queue :=
  match stage with O => FreeSlots | S O => CpuQueue | _ => ConsumerQueue end.
Definition target (stage : nat) : Queue :=
  match stage with O => CpuQueue | S O => ConsumerQueue | _ => FreeSlots end.

(** The condition of the loop over the frames. *)
Definition loop_head (frame : size_t) : StageThread :=
  mkThread (if frame <? cfg_frames c then AtTake else Returned) frame None 0.

(** The producer's reuse of an atom; the loop over the frame's bytes writes
    [cfg_bytes] of them. *)
Definition reset_atom (frame : size_t) (now : Z) (atom : ResultAtom) : option ResultAtom :=
  let md := ra_metadata atom in
  if vsize (ra_frame atom) <? cfg_bytes c then None
  else
    Some (mkResultAtom
      (mkMetadata (mkKey (inc64 frame) (cameraId (md_key md)) (variantId (md_key md)))
        (md_bytes md) (md_width md) (md_height md) (md_dtype md))
      (atom_bytes (inc64 frame) (cfg_bytes c) ++ drop (N.to_nat (cfg_bytes c)) (ra_frame atom))
      (ra_result atom) 0 0 false now).

(** The body of the loop after [take]. *)
Definition stage_work (stage : nat) (ok : bool) (input : StepInput) (slot : size_t) (t : StageThread)
    (p : Pipeline) : option (StageThread * Pipeline) :=
  let goto (pc : StagePc) := mkThread pc (thread_frame t) (Some slot) (thread_cpu t) in
  atom ← vat (pl_atoms p) slot;
  match stage with
  | O =>
      atom ← reset_atom (thread_frame t) (now input) atom;
      let '(ok, atom) := producer_step (cfg_bytes c) ok (content input) atom in
      Some (goto (if ok then AtPass else AtCancel), p <| pl_atoms := vset (pl_atoms p) slot atom |>)
  | S O =>
      if thread_cpu t <? cfg_cpuStages c then
        let '(ok, atom) := cpu_execute atom in
        Some (if ok then mkThread AtWork (thread_frame t) (Some slot) (inc64 (thread_cpu t))
              else goto AtCancel,
              p <| pl_atoms := vset (pl_atoms p) slot atom |>)
      else Some (goto AtPass, p)
  | _ =>
      if negb (consumer_step (cfg_bytes c) (cfg_cpuStages c) ok atom) then Some (goto AtCancel, p)
      else
        _ ← vat (pl_latency p) (thread_frame t);
        Some (goto AtPass,
              p <| pl_latency := vset (pl_latency p) (thread_frame t) (now input - ra_started atom)%Z |>
                <| pl_completed := inc64 (pl_completed p) |>)
  end.

(** One operation of a thread; a sleeping one and one that has returned have
    none. *)
Definition thread_step (stage : nat) (input : StepInput) (t : StageThread) (p : Pipeline) :
    option (StageThread * Pipeline) :=
  let s := pl_sched p in
  let goto (pc : StagePc) := mkThread pc (thread_frame t) (thread_slot t) (thread_cpu t) in
  match pc t with
  | AtLoad =>
      match outcome input with
      | Answers loaded => Some (goto AtStart, p <| pl_sched := awaitStart_enter loaded s |>)
      | Throws => Some (goto AtCancel, p)
      end
  | AtStart =>
      if negb (awaitStart_predicate s) then Some (goto StartAsleep, p)
      else if negb (awaitStart_result s) then Some (goto Returned, p)
      else Some (loop_head 0, p)
  | AtTake =>
      if negb (take_predicate (source stage) s) then Some (goto TakeAsleep, p)
      else
        '(taken, s) ← sch_take (source stage) (Nat.eqb stage 0) s;
        Some (match taken with
              | None => goto Returned
              | Some slot => mkThread AtWork (thread_frame t) (Some slot) 0
              end, p <| pl_sched := s |>)
  | AtWork =>
      slot ← thread_slot t;
      match outcome input with
      | Answers ok => stage_work stage ok input slot t p
      | Throws => Some (goto AtCancel, p)
      end
  | AtPass =>
      slot ← thread_slot t;
      Some (loop_head (inc64 (thread_frame t)),
            p <| pl_sched := sch_pass (target stage) slot (Nat.eqb stage 2) s |>)
  | AtCancel => Some (goto Returned, p <| pl_sched := sch_cancel s |>)
  | StartAsleep | TakeAsleep | Returned => Some (t, p)
  end.

(** [notify_all] wakes every sleeper. *)
Definition wake_thread (t : StageThread) : StageThread :=
  let goto (pc : StagePc) := mkThread pc (thread_frame t) (thread_slot t) (thread_cpu t) in
  match pc t with StartAsleep => goto AtStart | TakeAsleep => goto AtTake | _ => t end.
Definition wake_owner (o : OwnerPc) : OwnerPc :=
  match o with OwnerAsleep => OwnerWaiting | _ => o end.

Definition notified (before after : Pipeline) : Pipeline :=
  if sch_changed (pl_sched after) =? sch_changed (pl_sched before) then after
  else after <| pl_threads := wake_thread <$> pl_threads after |>
             <| pl_owner := wake_owner (pl_owner after) |>.

Definition has_returned (t : StageThread) : bool := bool_decide (pc t = Returned).

(** One operation of the starting thread: [created] says whether the thread it
    starts could be created. *)
Definition owner_step (created : bool) (p : Pipeline) : Pipeline :=
  let s := pl_sched p in
  match pl_owner p with
  | Spawning =>
      if vsize (pl_threads p) <? 3 then
        if created then p <| pl_threads := pl_threads p ++ [new_thread] |>
        else p <| pl_owner := OwnerCancelling |>
      else p <| pl_owner := OwnerWaiting |>
  | OwnerWaiting =>
      if (sch_ready s =? 3) || sch_failed s
      then p <| pl_sched := sch_notify (s <| sch_start := true |>) |> <| pl_owner := Joining |>
      else p <| pl_owner := OwnerAsleep |>
  | OwnerCancelling => p <| pl_sched := sch_cancel s |> <| pl_owner := Joining |>
  | Joining => if forallb has_returned (pl_threads p) then p <| pl_owner := Joined |> else p
  | OwnerAsleep | Joined => p
  end.

Inductive pipeline_action :=
  | StageStep (stage : nat) (input : StepInput)
  | OwnerStep (created : bool)
  | WakeThread (stage : nat)
  | WakeOwner.

(** One step; the last two are spurious wakeups. *)
Definition pipeline_perform (p : Pipeline) (act : pipeline_action) : option Pipeline :=
  match act with
  | StageStep stage input =>
      match pl_threads p !! stage with
      | None => Some p
      | Some t =>
          '(t, p') ← thread_step stage input t p;
          Some (notified p (p' <| pl_threads := <[stage := t]> (pl_threads p') |>))
      end
  | OwnerStep created => Some (notified p (owner_step created p))
  | WakeThread stage => Some (p <| pl_threads := alter wake_thread stage (pl_threads p) |>)
  | WakeOwner => Some (p <| pl_owner := wake_owner (pl_owner p) |>)
  end.

End steps.

(** ** The call *)

(** [framesPerSecond] is a floating-point quotient and is left out; latencies are
    in the clock's unit. *)
Record PipelineMeasurement := mkMeasurement {
  ms_cache : CacheStatistics;
  ms_completed : uint64;
  ms_consumerHits : uint64;
  ms_consumerUploadedBytes : uint64;
  ms_peakInFlight : size_t;
  ms_latencyP50 : Z;
  ms_latencyP95 : Z;
}.

(** [latency[(latency.size() - 1) * percent / 100]] of the sorted latencies. *)
Definition percentile (percent : N) (sorted : list Z) : option Z :=
  vat sorted (mul64 (dec64 (vsize sorted)) percent / 100).

Section run.
Context `{KernelDevice} `{!GpuDriver}.

(** Up to the scheduler: [None] inside is the early [return false]. *)
Definition pipeline_setup (c : PipelineConfig) (cache : GpuDataCache) (infra : GpuInfra) (w : world) :
    option (option Pipeline * GpuDataCache * world) :=
  if config_rejects c then Some (None, cache, w)
  else
    '(resolved, gpuIds) ← gpuIdsForCurrentNumaNode infra w;
    if negb resolved then Some (None, cache, w)
    else
      '(ok, cache, w) ←
        initialize cache gpuIds (cfg_bytes c) (cfg_entries c) (cfg_cacheWait c) (cfg_policy c) w;
      Some (if negb ok then None else Some (pipeline_start c), cache, w).

(** After the joins: the result and the measurement. *)
Definition pipeline_finish (c : PipelineConfig) (p : Pipeline) (producer : ptr) (consumer : TaskB)
    (cache : GpuDataCache) (infra : GpuInfra) (w : world) :
    option (bool * PipelineMeasurement * GpuDataCache * GpuInfra * world) :=
  let measured := mkMeasurement (statistics cache) (pl_completed p) (hits consumer)
    (uploadedBytes consumer) (sch_peak (pl_sched p)) in
  '(producerReleased, infra, w) ← resources_unload producer infra w;
  '(consumerReleased, infra, w) ← resources_unload (taskB_resources consumer) infra w;
  let '(cacheReleased, cache, w) := release cache w in
  if sch_failed (pl_sched p) || negb (pl_completed p =? cfg_frames c) || negb producerReleased
     || negb consumerReleased || negb cacheReleased
  then Some (false, measured 0%Z 0%Z, cache, infra, w)
  else
    let sorted := merge_sort Z.le (pl_latency p) in
    p50 ← percentile 50 sorted;
    p95 ← percentile 95 sorted;
    Some (true, measured p50 p95, cache, infra, w).

(** The destructors of the tasks and of the cache. *)
Definition pipeline_destruct (producer : ptr) (consumer : TaskB) (cache : GpuDataCache)
    (infra : GpuInfra) (w : world) : option (GpuDataCache * GpuInfra * world) :=
  '(infra, w) ← resources_destruct (taskB_resources consumer) infra w;
  '(infra, w) ← resources_destruct producer infra w;
  let '(_, cache, w) := release cache w in
  Some (cache, infra, w).

End run.
