(* ===== verification/ResultPipelineInvariant.v ===== *)
(** The invariant of the result pipeline: every slot is in one place, the frames
    move through the stages in order, and an atom has what its place says. *)
From S2P Require Import Prelude.
From S2P Require Import GpuDataKey.
From S2P Require Import CacheTypes.
From S2P Require Import ResultTasks.
From S2P Require Import ResultTaskBehaviour.
From S2P Require Import ResultPipeline.
#[local] Open Scope N_scope.

Section invariant.
Context (c : PipelineConfig).
Implicit Types (s : PipelineScheduler) (t : StageThread) (p : Pipeline) (atoms : list ResultAtom).

(** ** Places *)

(** The atom carries this frame, computed, after this many CPU tasks. *)
Definition carries atoms (slot frame stages : N) : Prop :=
  ∃ atom, vat atoms slot = Some atom
    ∧ frameId (md_key (ra_metadata atom)) = frame + 1
    ∧ ra_frame atom = atom_bytes (frame + 1) (cfg_bytes c)
    ∧ ra_ready atom = true ∧ ra_cpuStages atom = stages
    ∧ (stages ≠ 0 → ra_checksum atom = accumulate (ra_result atom)).

(** The slots carry consecutive frames. *)
Definition carry atoms (slots : list N) (frame stages : N) : Prop :=
  ∀ i x, slots !! i = Some x → carries atoms x (frame + N.of_nat i) stages.

Lemma carry_nil atoms frame stages : carry atoms [] frame stages.
Proof. intros i x. by rewrite lookup_nil. Qed.

Lemma carry_cons atoms x l frame stages :
  carry atoms (x :: l) frame stages ↔ carries atoms x frame stages ∧ carry atoms l (frame + 1) stages.
Proof.
  split.
  - intros Hc. split; [rewrite <-(N.add_0_r frame); by apply (Hc 0%nat)|]. intros i y Hi.
    replace (frame + 1 + N.of_nat i) with (frame + N.of_nat (S i)) by lia. by apply (Hc (S i)).
  - intros [Hx Hl] [|i] y; [intros [= <-]; by rewrite N.add_0_r|]. intros Hi.
    replace (frame + N.of_nat (S i)) with (frame + 1 + N.of_nat i) by lia. by apply Hl.
Qed.

Lemma carry_snoc atoms x l frame stages :
  carry atoms l frame stages → carries atoms x (frame + vsize l) stages → carry atoms (l ++ [x]) frame stages.
Proof.
  intros Hl Hx i y [[_ Hi]|[-> <-]]%lookup_snoc_Some; [by apply Hl|done].
Qed.

Lemma carry_update atoms slots frame stages x atom :
  carry atoms slots frame stages → x ∉ slots → carry (vset atoms x atom) slots frame stages.
Proof.
  intros Hc Hx i y Hi. destruct (Hc i y Hi) as (a & Ha & Hrest). exists a. split; [|done].
  rewrite vat_vset_ne; [done|]. intros ->. exact (Hx (list_elem_of_lookup_2 _ _ _ Hi)).
Qed.

(** The slots on their way, the first to be completed first. *)
Definition flight s t0 t1 t2 : list size_t :=
  option_list (thread_slot t2) ++ consumerQueue s ++ option_list (thread_slot t1) ++ cpuQueue s
  ++ option_list (thread_slot t0).

Abbreviation held t := (option_list (thread_slot t)).

Record flow s atoms (latency : list Z) (completed : uint64) t0 t1 t2 : Prop := {
  flow_slots : freeSlots s ++ flight s t0 t1 t2 ≡ₚ N.of_nat <$> seq 0 (N.to_nat (slot_count c));
  flow_active : sch_active s = vsize (flight s t0 t1 t2);
  flow_peak : sch_active s ≤ sch_peak s ∧ sch_peak s ≤ slot_count c;
  flow_made : thread_frame t0 = thread_frame t1 + vsize (held t1) + vsize (cpuQueue s);
  flow_checked : thread_frame t1 = thread_frame t2 + vsize (held t2) + vsize (consumerQueue s);
  flow_frames : thread_frame t0 + vsize (held t0) ≤ cfg_frames c;
  flow_completed : completed = thread_frame t2 + (if decide (pc t2 = AtPass) then 1 else 0);
  flow_latency : vsize latency = cfg_frames c;
  flow_atoms : vsize atoms = slot_count c ∧ Forall (λ a, fits_task (cfg_bytes c) a = true) atoms;
  flow_producer : pc t0 = AtPass → carry atoms (held t0) (thread_frame t0) 0;
  flow_cpuQueue : carry atoms (cpuQueue s) (thread_frame t1 + vsize (held t1)) 0;
  flow_cpu : carry atoms (held t1) (thread_frame t1) (thread_cpu t1);
  flow_cpu_done : thread_cpu t1 ≤ cfg_cpuStages c
    ∧ (pc t1 = AtPass → thread_cpu t1 = cfg_cpuStages c);
  flow_consumerQueue : carry atoms (consumerQueue s) (thread_frame t2 + vsize (held t2)) (cfg_cpuStages c);
  flow_consumer : carry atoms (held t2) (thread_frame t2) (cfg_cpuStages c);
}.

(** ** Control *)

(** Where the locals of a thread can be. *)
Definition thread_ok t : Prop :=
  match pc t with
  | AtLoad | AtStart | StartAsleep => thread_frame t = 0 ∧ thread_slot t = None
  | AtTake | TakeAsleep => thread_frame t < cfg_frames c ∧ thread_slot t = None
  | AtWork | AtPass => is_Some (thread_slot t)
  | AtCancel | Returned => True
  end.

(** A sleeper's predicate is false, and a thread returns for a reason. *)
Definition wait_ok s (stage : nat) t : Prop :=
  match pc t with
  | StartAsleep => sch_start s = false ∧ sch_failed s = false
  | TakeAsleep => sch_failed s = false ∧ queue (source stage) s = []
  | Returned => sch_failed s = true ∨ thread_frame t = cfg_frames c ∧ thread_slot t = None
  | _ => True
  end.

Definition early t : Prop := pc t = AtLoad ∨ pc t = AtStart ∨ pc t = StartAsleep ∨ pc t = AtCancel.
Definition entered t : bool := bool_decide (pc t = AtStart ∨ pc t = StartAsleep).
Definition entered_count (threads : list StageThread) : N :=
  N.of_nat (length (filter (λ t, entered t = true) threads)).

Definition owner_ok s (threads : list StageThread) (o : OwnerPc) : Prop :=
  match o with
  | Spawning | OwnerCancelling => sch_start s = false
  | OwnerWaiting => sch_start s = false ∧ length threads = 3%nat
  | OwnerAsleep => sch_start s = false ∧ length threads = 3%nat ∧ sch_ready s ≠ 3 ∧ sch_failed s = false
  | Joining => sch_start s = true ∨ sch_failed s = true
  | Joined => (sch_start s = true ∨ sch_failed s = true) ∧ Forall (λ t, pc t = Returned) threads
  end.

Record control s (threads : list StageThread) (o : OwnerPc) : Prop := {
  ctl_length : (length threads ≤ 3)%nat;
  ctl_threads k t : threads !! k = Some t → thread_ok t ∧ wait_ok s k t;
  ctl_owner : owner_ok s threads o;
  ctl_started : sch_start s = true → length threads = 3%nat;
  ctl_begin : sch_start s = false → sch_failed s = false →
    Forall early threads ∧ sch_ready s = entered_count threads;
}.

(** The thread of a stage; one that is not started is where it will start. *)
Definition stage_thread p (stage : nat) : StageThread := default new_thread (pl_threads p !! stage).

Record valid p : Prop := {
  valid_config : config_rejects c = false;
  valid_flow : flow (pl_sched p) (pl_atoms p) (pl_latency p) (pl_completed p)
    (stage_thread p 0) (stage_thread p 1) (stage_thread p 2);
  valid_control : control (pl_sched p) (pl_threads p) (pl_owner p);
}.

(** ** The flow under each operation *)

(** What the guard of [runPipeline] leaves. *)
Lemma config_bounds :
  config_rejects c = false →
  0 < cfg_frames c ≤ 1000000 ∧ 0 < slot_count c ≤ 65536 ∧ 0 < cfg_bytes c ≤ 16777216
  ∧ 0 < cfg_cpuStages c ≤ 100.
Proof.
  unfold config_rejects, slot_count. rewrite !orb_false_iff, !N.eqb_neq, !N.ltb_ge. intros. lia.
Qed.

Lemma flow_places s atoms latency completed t0 t1 t2 :
  flow s atoms latency completed t0 t1 t2 →
  NoDup (freeSlots s ++ flight s t0 t1 t2)
  ∧ (∀ x, x ∈ freeSlots s ++ flight s t0 t1 t2 → is_Some (vat atoms x))
  ∧ vsize (freeSlots s) + vsize (flight s t0 t1 t2) = slot_count c.
Proof.
  intros Hf. split; [|split].
  - rewrite (flow_slots _ _ _ _ _ _ _ Hf). apply NoDup_fmap; [apply _|apply NoDup_seq].
  - intros x. rewrite (flow_slots _ _ _ _ _ _ _ Hf), list_elem_of_fmap. intros (n & -> & Hn%elem_of_seq).
    apply vat_is_Some. rewrite (proj1 (flow_atoms _ _ _ _ _ _ _ Hf)). lia.
  - pose proof (Permutation_length (flow_slots _ _ _ _ _ _ _ Hf)) as Hl.
    rewrite length_app, length_fmap, length_seq in Hl. unfold vsize. lia.
Qed.

(** A thread that stays at its place. *)
Definition moves t t' : Prop :=
  thread_frame t' = thread_frame t ∧ thread_slot t' = thread_slot t
  ∧ (thread_cpu t' = thread_cpu t ∨ thread_slot t = None ∧ thread_cpu t' = 0 ∧ pc t' ≠ AtPass)
  ∧ (pc t' = AtPass ↔ pc t = AtPass).

Lemma moves_refl t : moves t t.
Proof. split_and!; auto. Qed.

Definition same_queues s s' : Prop :=
  freeSlots s' = freeSlots s ∧ cpuQueue s' = cpuQueue s ∧ consumerQueue s' = consumerQueue s
  ∧ sch_active s' = sch_active s ∧ sch_peak s' = sch_peak s.

Lemma flow_moves s s' atoms latency completed t0 t1 t2 t0' t1' t2' :
  flow s atoms latency completed t0 t1 t2 → same_queues s s' →
  moves t0 t0' → moves t1 t1' → moves t2 t2' → flow s' atoms latency completed t0' t1' t2'.
Proof.
  intros [] (Hq0 & Hq1 & Hq2 & Ha & Hp) (Hf0 & Hs0 & _ & Hp0) (Hf1 & Hs1 & Hc1 & Hp1) (Hf2 & Hs2 & _ & Hp2).
  assert (flight s' t0' t1' t2' = flight s t0 t1 t2) as Hfl.
  { unfold flight. by rewrite Hs0, Hs1, Hs2, Hq1, Hq2. }
  split; rewrite ?Hfl, ?Hq0, ?Hq1, ?Hq2, ?Ha, ?Hp, ?Hf0, ?Hf1, ?Hf2, ?Hs0, ?Hs1, ?Hs2, ?Hp0; try done.
  - rewrite flow_completed0. by destruct (decide (pc t2 = AtPass)), (decide (pc t2' = AtPass)); naive_solver.
  - destruct Hc1 as [-> |(-> & _)]; [done|apply carry_nil].
  - rewrite Hp1. destruct Hc1 as [-> |(_ & -> & Hn)]; [done|]. split; [lia|]. by intros ?%Hp1.
Qed.

(** Taking a slot. *)
Lemma flow_take0 s atoms latency completed t0 t1 t2 x rest :
  flow s atoms latency completed t0 t1 t2 → config_rejects c = false →
  freeSlots s = x :: rest → thread_slot t0 = None → thread_frame t0 < cfg_frames c →
  flow (let s := s <| freeSlots := rest |> <| sch_active := inc64 (sch_active s) |> in
        s <| sch_peak := N.max (sch_peak s) (sch_active s) |>)
    atoms latency completed (mkThread AtWork (thread_frame t0) (Some x) 0) t1 t2.
Proof.
  intros Hf Hc Hx Hn Hlt. destruct (flow_places _ _ _ _ _ _ _ Hf) as (_ & _ & Hsum).
  destruct (config_bounds Hc) as (_ & ? & _). destruct Hf. rewrite Hx, vsize_cons in Hsum.
  assert (inc64 (sch_active s) = sch_active s + 1) as Hinc by (apply inc64_small; unfold two64; lia).
  set (s' := s <| freeSlots := rest |> <| sch_active := _ |> <| sch_peak := _ |>).
  assert (flight s' (mkThread AtWork (thread_frame t0) (Some x) 0) t1 t2 = flight s t0 t1 t2 ++ [x]) as Hfl.
  { unfold flight. simpl. rewrite Hn. simpl. by rewrite app_nil_r, <-!(assoc_L (++)). }
  split; rewrite ?Hfl; try done; simpl.
  - rewrite <-flow_slots0, Hx. simpl. by rewrite (assoc (++)), <-Permutation_cons_append.
  - rewrite Hinc, flow_active0. unfold vsize. rewrite length_app. simpl. lia.
  - rewrite Hinc. lia.
  - unfold vsize. simpl. lia.
Qed.

Lemma flow_take1 s atoms latency completed t0 t1 t2 x rest :
  flow s atoms latency completed t0 t1 t2 → cpuQueue s = x :: rest → thread_slot t1 = None →
  flow (s <| cpuQueue := rest |>) atoms latency completed t0
    (mkThread AtWork (thread_frame t1) (Some x) 0) t2.
Proof.
  intros [] Hx Hn.
  assert (flight (s <| cpuQueue := rest |>) t0 (mkThread AtWork (thread_frame t1) (Some x) 0) t2
    = flight s t0 t1 t2) as Hfl by (unfold flight; simpl; by rewrite Hn, Hx).
  rewrite Hx, Hn in *. unfold vsize in flow_made0, flow_cpuQueue0. simpl in flow_made0, flow_cpuQueue0.
  apply carry_cons in flow_cpuQueue0 as [Hcarry Hrest].
  split; rewrite ?Hfl; try done; simpl.
  - unfold vsize. simpl. lia.
  - unfold vsize. simpl. by rewrite N.add_0_r in Hrest.
  - apply carry_cons. rewrite N.add_0_r in Hcarry. by split; [|apply carry_nil].
  - by split; [lia|].
Qed.

Lemma flow_take2 s atoms latency completed t0 t1 t2 x rest :
  flow s atoms latency completed t0 t1 t2 → consumerQueue s = x :: rest → thread_slot t2 = None →
  pc t2 ≠ AtPass →
  flow (s <| consumerQueue := rest |>) atoms latency completed t0 t1
    (mkThread AtWork (thread_frame t2) (Some x) 0).
Proof.
  intros [] Hx Hn Hpc.
  assert (flight (s <| consumerQueue := rest |>) t0 t1 (mkThread AtWork (thread_frame t2) (Some x) 0)
    = flight s t0 t1 t2) as Hfl by (unfold flight; simpl; by rewrite Hn, Hx).
  rewrite Hx, Hn in *. unfold vsize in flow_checked0, flow_consumerQueue0.
  simpl in flow_checked0, flow_consumerQueue0. rewrite N.add_0_r in flow_consumerQueue0.
  apply carry_cons in flow_consumerQueue0 as [Hcarry Hrest].
  split; rewrite ?Hfl; try done; simpl.
  - unfold vsize. simpl. lia.
  - by rewrite decide_False in flow_completed0.
  - apply carry_cons. by split; [|apply carry_nil].
Qed.

(** Passing a slot on. *)
Lemma flow_pass0 s s' atoms latency completed t0 t1 t2 x t0' :
  flow s atoms latency completed t0 t1 t2 → pc t0 = AtPass → thread_slot t0 = Some x →
  t0' = loop_head c (thread_frame t0 + 1) → same_queues (s <| cpuQueue := cpuQueue s ++ [x] |>) s' →
  flow s' atoms latency completed t0' t1 t2.
Proof.
  intros [] Hpc Hx -> (Hq0 & Hq1 & Hq2 & Ha & Hp). simpl in Hq0, Hq1, Hq2, Ha, Hp.
  assert (flight s' (loop_head c (thread_frame t0 + 1)) t1 t2 = flight s t0 t1 t2) as Hfl.
  { unfold flight. simpl. by rewrite Hq1, Hq2, Hx, app_nil_r. }
  rewrite Hx in *. unfold vsize in flow_frames0. simpl in flow_frames0.
  specialize (flow_producer0 Hpc). apply carry_cons in flow_producer0 as [Hcarry _].
  split; rewrite ?Hfl, ?Hq0, ?Hq1, ?Hq2, ?Ha, ?Hp; try done; simpl.
  - unfold vsize in *. rewrite length_app. simpl. lia.
  - unfold vsize. simpl. lia.
  - apply carry_snoc; [done|]. by rewrite <-flow_made0.
Qed.

Lemma flow_pass1 s s' atoms latency completed t0 t1 t2 x t1' :
  flow s atoms latency completed t0 t1 t2 → pc t1 = AtPass → thread_slot t1 = Some x →
  t1' = loop_head c (thread_frame t1 + 1) →
  same_queues (s <| consumerQueue := consumerQueue s ++ [x] |>) s' →
  flow s' atoms latency completed t0 t1' t2.
Proof.
  intros [] Hpc Hx -> (Hq0 & Hq1 & Hq2 & Ha & Hp). simpl in Hq0, Hq1, Hq2, Ha, Hp.
  assert (flight s' t0 (loop_head c (thread_frame t1 + 1)) t2 = flight s t0 t1 t2) as Hfl.
  { unfold flight. simpl. by rewrite Hq1, Hq2, Hx, <-!(assoc_L (++)). }
  rewrite Hx in *. unfold vsize in flow_made0, flow_cpuQueue0. simpl in flow_made0, flow_cpuQueue0.
  apply carry_cons in flow_cpu0 as [Hcarry _]. destruct flow_cpu_done0 as [_ Hcpu].
  rewrite (Hcpu Hpc) in Hcarry.
  split; rewrite ?Hfl, ?Hq0, ?Hq1, ?Hq2, ?Ha, ?Hp; try done; simpl.
  - unfold vsize. simpl. lia.
  - unfold vsize in *. rewrite length_app. simpl. lia.
  - by rewrite N.add_0_r.
  - split; [lia|]. by destruct (_ <? _).
  - apply carry_snoc; [done|]. by rewrite <-flow_checked0.
Qed.

Lemma flow_pass2 s s' atoms latency completed t0 t1 t2 x t2' :
  flow s atoms latency completed t0 t1 t2 → config_rejects c = false →
  pc t2 = AtPass → thread_slot t2 = Some x → t2' = loop_head c (thread_frame t2 + 1) →
  same_queues (s <| freeSlots := freeSlots s ++ [x] |> <| sch_active := dec64 (sch_active s) |>) s' →
  flow s' atoms latency completed t0 t1 t2'.
Proof.
  intros Hf Hc Hpc Hx -> (Hq0 & Hq1 & Hq2 & Ha & Hp). simpl in Hq0, Hq1, Hq2, Ha, Hp.
  destruct (flow_places _ _ _ _ _ _ _ Hf) as (_ & _ & Hsum).
  destruct (config_bounds Hc) as (_ & ? & _). destruct Hf.
  assert (x :: flight s' t0 t1 (loop_head c (thread_frame t2 + 1)) = flight s t0 t1 t2) as Hfl.
  { unfold flight. simpl. by rewrite Hq1, Hq2, Hx. }
  rewrite <-Hfl, vsize_cons in Hsum, flow_active0.
  rewrite Hx in *. unfold vsize in flow_checked0, flow_consumerQueue0.
  simpl in flow_checked0, flow_consumerQueue0. rewrite decide_True in flow_completed0 by done.
  assert (dec64 (sch_active s) = vsize (flight s' t0 t1 (loop_head c (thread_frame t2 + 1)))) as Hdec.
  { rewrite dec64_small by (unfold two64; lia). lia. }
  split; rewrite ?Hq0, ?Hq1, ?Hq2, ?Ha, ?Hp, ?Hdec; try done.
  - rewrite <-flow_slots0, <-Hfl, <-(assoc (++)). done.
  - lia.
  - unfold vsize. simpl. lia.
  - simpl. unfold loop_head. rewrite decide_False by (simpl; by case_match). lia.
  - simpl. by rewrite N.add_0_r.
Qed.

(** Working on a slot. *)
Lemma fits_store atoms x a :
  vsize atoms = slot_count c ∧ Forall (λ a, fits_task (cfg_bytes c) a = true) atoms →
  fits_task (cfg_bytes c) a = true →
  vsize (vset atoms x a) = slot_count c ∧ Forall (λ a, fits_task (cfg_bytes c) a = true) (vset atoms x a).
Proof.
  intros [Hl Hall] Ha. rewrite vsize_vset. split; [done|]. rewrite vset_insert. by apply Forall_insert.
Qed.

(** A slot a thread has is nowhere else. *)
Lemma held_elsewhere s atoms latency completed t0 t1 t2 x :
  flow s atoms latency completed t0 t1 t2 →
  (thread_slot t0 = Some x → x ∉ (held t2 ++ consumerQueue s ++ held t1 ++ cpuQueue s) ++ [])
  ∧ (thread_slot t1 = Some x → x ∉ (held t2 ++ consumerQueue s) ++ cpuQueue s ++ held t0).
Proof.
  intros Hf. destruct (flow_places _ _ _ _ _ _ _ Hf) as (Hnd & _ & _).
  apply NoDup_app in Hnd as (_ & _ & Hnd).
  assert (∀ l1 l2 : list N, NoDup (l1 ++ x :: l2) → x ∉ l1 ++ l2) as Hmid.
  { intros l1 l2. rewrite <-Permutation_middle. by intros [? _]%NoDup_cons. }
  split; intros Hx; unfold flight in Hnd; rewrite Hx in Hnd; apply Hmid; by rewrite <-!(assoc_L (++)).
Qed.

Lemma flow_work0 s atoms latency completed t0 t1 t2 x a t0' :
  flow s atoms latency completed t0 t1 t2 → thread_slot t0 = Some x →
  thread_frame t0' = thread_frame t0 → thread_slot t0' = Some x → fits_task (cfg_bytes c) a = true →
  (pc t0' = AtPass → carries (vset atoms x a) x (thread_frame t0) 0) →
  flow s (vset atoms x a) latency completed t0' t1 t2.
Proof.
  intros Hf Hx Hfr Hx' Hfits Hcarry.
  destruct (held_elsewhere _ _ _ _ _ _ _ x Hf) as [Hnot _]. specialize (Hnot Hx).
  rewrite !not_elem_of_app in Hnot. destruct Hnot as [(? & ? & ? & ?) _]. destruct Hf.
  assert (flight s t0' t1 t2 = flight s t0 t1 t2) as Hfl by (unfold flight; by rewrite Hx, Hx').
  split; rewrite ?Hfl, ?Hfr, ?Hx'; try done; try by apply carry_update.
  - by rewrite Hx in flow_frames0.
  - by apply fits_store.
  - intros Hpc. apply carry_cons. split; [by apply Hcarry|apply carry_nil].
Qed.

Lemma flow_work1 s atoms latency completed t0 t1 t2 x a t1' :
  flow s atoms latency completed t0 t1 t2 → thread_slot t1 = Some x →
  thread_frame t1' = thread_frame t1 → thread_slot t1' = Some x → fits_task (cfg_bytes c) a = true →
  pc t1' ≠ AtPass → thread_cpu t1' ≤ cfg_cpuStages c →
  carries (vset atoms x a) x (thread_frame t1) (thread_cpu t1') →
  flow s (vset atoms x a) latency completed t0 t1' t2.
Proof.
  intros Hf Hx Hfr Hx' Hfits Hpc Hle Hcarry.
  destruct (held_elsewhere _ _ _ _ _ _ _ x Hf) as [_ Hnot]. specialize (Hnot Hx).
  rewrite !not_elem_of_app in Hnot. destruct Hnot as [[? ?] [? ?]]. destruct Hf.
  assert (flight s t0 t1' t2 = flight s t0 t1 t2) as Hfl by (unfold flight; by rewrite Hx, Hx').
  split; rewrite ?Hfl, ?Hfr, ?Hx'; rewrite ?Hx in *; try done; try by apply carry_update.
  - by apply fits_store.
  - intros Hp. apply carry_update; [by apply flow_producer0|done].
  - apply carry_cons. split; [done|apply carry_nil].
Qed.

Lemma flow_work2 s atoms latency completed t0 t1 t2 t2' l :
  flow s atoms latency completed t0 t1 t2 → config_rejects c = false → pc t2 ≠ AtPass →
  thread_slot t2' = thread_slot t2 → is_Some (thread_slot t2) →
  thread_frame t2' = thread_frame t2 → pc t2' = AtPass → vsize l = vsize latency →
  flow s atoms l (inc64 completed) t0 t1 t2'.
Proof.
  intros Hf Hc Hpc Hx [x Hs] Hfr Hpc' Hl. destruct (config_bounds Hc) as (? & _ & _ & _). destruct Hf.
  assert (flight s t0 t1 t2' = flight s t0 t1 t2) as Hfl by (unfold flight; by rewrite Hx).
  rewrite decide_False in flow_completed0 by done.
  split; rewrite ?Hfl, ?Hfr, ?Hx; rewrite ?Hl; try done.
  rewrite decide_True, flow_completed0, N.add_0_r by done. apply inc64_small. unfold two64. lia.
Qed.

(** ** The flow under a thread's operation *)

(** The flow where the thread of stage [k] is [t]. *)
Definition flow_at p (k : nat) t : Prop :=
  flow (pl_sched p) (pl_atoms p) (pl_latency p) (pl_completed p)
    (if Nat.eqb k 0 then t else stage_thread p 0) (if Nat.eqb k 1 then t else stage_thread p 1)
    (if Nat.eqb k 2 then t else stage_thread p 2).

Definition same_data p p' : Prop :=
  pl_atoms p' = pl_atoms p ∧ pl_latency p' = pl_latency p ∧ pl_completed p' = pl_completed p
  ∧ pl_threads p' = pl_threads p.

Lemma flow_quiet p p' k t t' :
  flow_at p k t → moves t t' → same_queues (pl_sched p) (pl_sched p') → same_data p p' → flow_at p' k t'.
Proof.
  unfold flow_at, stage_thread. intros Hf Hm Hq (-> & -> & -> & ->).
  destruct k as [|[|[|k]]]; simpl in Hf |- *; (eapply flow_moves; [exact Hf|exact Hq|..]);
    done || apply moves_refl.
Qed.

Lemma moves_goto t (x : StagePc) :
  pc t ≠ AtPass → x ≠ AtPass → moves t (mkThread x (thread_frame t) (thread_slot t) (thread_cpu t)).
Proof. intros. split_and!; simpl; auto. done. Qed.

Lemma flow_take p k t input :
  flow_at p k t → config_rejects c = false → (k < 3)%nat → pc t = AtTake → thread_ok t →
  ∃ t' p', thread_step c k input t p = Some (t', p') ∧ flow_at p' k t' ∧ pl_threads p' = pl_threads p.
Proof.
  intros Hf Hc Hk Hpc Hok. unfold thread_ok in Hok. unfold thread_step. rewrite Hpc in *. destruct Hok as [Hlt Hn].
  unfold take_predicate, sch_take. destruct (sch_failed (pl_sched p)); cbn [orb negb].
  { eexists _, _. split; [done|]. split; [|done]. eapply flow_quiet; [exact Hf| |done|done].
    apply moves_goto; congruence. }
  destruct (queue (source k) (pl_sched p)) as [|x rest] eqn:Hq; cbn [vsize length negb].
  { eexists _, _. split; [done|]. split; [|done]. eapply flow_quiet; [exact Hf| |done|done].
    apply moves_goto; congruence. }
  cbn [head mbind option_bind tail]. replace (negb (negb (N.of_nat (S (length rest)) =? 0))) with false
    by (symmetry; apply negb_false_iff, negb_true_iff, N.eqb_neq; lia).
  eexists _, _. split; [done|]. split; [|done]. unfold flow_at in *.
  destruct k as [|[|[|]]]; [..|lia]; simpl in Hf, Hq |- *.
  - by apply (flow_take0 _ _ _ _ t).
  - by apply (flow_take1 _ _ _ _ _ t).
  - apply (flow_take2 _ _ _ _ _ _ t); try done. congruence.
Qed.

Lemma fits_task_spec bytes a :
  fits_task bytes a = true ↔
  vsize (ra_frame a) = bytes ∧ vsize (ra_result a) = bytes ∧ md_bytes (ra_metadata a) = bytes.
Proof. unfold fits_task. rewrite !andb_true_iff, !N.eqb_eq. naive_solver. Qed.

Lemma atom_bytes_size id bytes : vsize (atom_bytes id bytes) = bytes.
Proof. unfold atom_bytes. rewrite vsize_fmap. unfold vsize. rewrite length_seq. lia. Qed.

Lemma reset_atom_run frame time a :
  fits_task (cfg_bytes c) a = true → frame < 1000000 →
  ∃ a', reset_atom c frame time a = Some a' ∧ fits_task (cfg_bytes c) a' = true ∧ ra_ready a' = false
    ∧ frameId (md_key (ra_metadata a')) = frame + 1 ∧ ra_frame a' = atom_bytes (frame + 1) (cfg_bytes c)
    ∧ ra_cpuStages a' = 0.
Proof.
  rewrite fits_task_spec. intros (Hf & Hr & Hm) Hlt. unfold reset_atom. rewrite Hf, N.ltb_irrefl.
  eexists. split; [done|]. rewrite fits_task_spec. simpl.
  rewrite inc64_small by (unfold two64; lia). rewrite drop_ge by (unfold vsize in Hf; lia).
  rewrite app_nil_r. split_and!; try done. apply atom_bytes_size.
Qed.

Lemma flow_at_slot p k t x :
  flow_at p k t → (k < 3)%nat → thread_slot t = Some x →
  ∃ atom, vat (pl_atoms p) x = Some atom ∧ fits_task (cfg_bytes c) atom = true.
Proof.
  intros Hf Hk Hx. unfold flow_at in Hf. destruct (flow_places _ _ _ _ _ _ _ Hf) as (_ & Hall & _).
  destruct (Hall x) as [atom Hatom].
  { apply elem_of_app. right. unfold flight. rewrite !elem_of_app.
    destruct k as [|[|[|]]]; [..|lia]; simpl; rewrite Hx; simpl; rewrite list_elem_of_singleton; auto 10. }
  exists atom. split; [done|]. destruct (flow_atoms _ _ _ _ _ _ _ Hf) as [_ Hfits].
  rewrite Forall_forall in Hfits. eapply Hfits, vat_elem_of, Hatom.
Qed.

Lemma flow_produce p t x ok input :
  flow_at p 0 t → config_rejects c = false → pc t = AtWork → thread_slot t = Some x →
  ∃ t' p', stage_work c 0 ok input x t p = Some (t', p') ∧ flow_at p' 0 t' ∧ pl_threads p' = pl_threads p
    ∧ (pc t' = AtPass ∨ pc t' = AtCancel) ∧ thread_slot t' = Some x ∧ pl_sched p' = pl_sched p.
Proof.
  intros Hf Hc Hpc Hx. destruct (flow_at_slot p 0 t x Hf ltac:(lia) Hx) as (atom & Hatom & Hfits).
  unfold stage_work. rewrite Hatom. cbn [mbind option_bind]. destruct (config_bounds Hc) as (? & _).
  unfold flow_at in Hf. simpl in Hf. assert (thread_frame t < 1000000) as Hlt.
  { pose proof (flow_frames _ _ _ _ _ _ _ Hf) as Hle. rewrite Hx in Hle. unfold vsize in Hle. simpl in Hle. lia. }
  destruct (reset_atom_run (thread_frame t) (now input) atom Hfits Hlt)
    as (a & -> & Hfa & Hready & Hid & Hframe & Hstages). cbn [mbind option_bind].
  unfold producer_step. rewrite Hready, Hfa. cbn [negb andb].
  destruct ok; eexists _, _; (split; [done|]); (split; [|by auto]); unfold flow_at; simpl.
  - eapply (flow_work0 _ _ _ _ _ _ _ x _ _ Hf Hx); try done.
    + apply fits_task_spec in Hfa as (? & ? & ?). apply fits_task_spec. simpl.
      by rewrite bytes_of_size.
    + intros _. eexists. rewrite vat_vset_eq by (by eapply vat_lt). split; [done|]. by split_and!.
  - by eapply (flow_work0 _ _ _ _ _ _ _ x _ _ Hf Hx).
Qed.

Lemma flow_cpu_task p t x ok input :
  flow_at p 1 t → config_rejects c = false → pc t = AtWork → thread_slot t = Some x →
  ∃ t' p', stage_work c 1 ok input x t p = Some (t', p') ∧ flow_at p' 1 t' ∧ pl_threads p' = pl_threads p
    ∧ (pc t' = AtPass ∨ pc t' = AtWork ∧ thread_cpu t < cfg_cpuStages c ∧ thread_cpu t' = thread_cpu t + 1)
    ∧ thread_slot t' = Some x ∧ thread_frame t' = thread_frame t ∧ pl_sched p' = pl_sched p.
Proof.
  intros Hf Hc Hpc Hx. destruct (flow_at_slot p 1 t x Hf ltac:(lia) Hx) as (atom & Hatom & Hfits).
  unfold stage_work. rewrite Hatom. cbn [mbind option_bind]. destruct (config_bounds Hc) as (_ & _ & ? & ?).
  unfold flow_at in Hf. simpl in Hf.
  pose proof (flow_cpu _ _ _ _ _ _ _ Hf) as Hcarry. rewrite Hx in Hcarry.
  apply carry_cons in Hcarry as [(a & Ha & Hid & Hframe & Hready & Hstages & Hsum) _].
  rewrite Hatom in Ha. injection Ha as <-. pose proof (flow_cpu_done _ _ _ _ _ _ _ Hf) as [Hle _].
  destruct (N.ltb_spec (thread_cpu t) (cfg_cpuStages c)) as [Hlt|Hge].
  - unfold cpu_execute. apply fits_task_spec in Hfits as (Hfr & Hre & Hmd).
    rewrite Hready, Hre, (proj2 (N.eqb_neq _ _)) by lia. simpl.
    rewrite Hstages, !inc64_small by (unfold two64; lia).
    eexists _, _. split; [done|]. split; [|by auto 10]. unfold flow_at. simpl.
    eapply (flow_work1 _ _ _ _ _ _ _ x _ _ Hf Hx); try done; simpl.
    + by apply fits_task_spec.
    + lia.
    + eexists. rewrite vat_vset_eq by (by eapply vat_lt). split; [done|]. by split_and!.
  - eexists _, _. split; [done|]. split; [|by auto 10]. unfold flow_at. simpl. rewrite <-Hx.
    destruct Hf. split; try done. split; [done|]. simpl. intros _. lia.
Qed.

Lemma flow_consume p t x ok input :
  flow_at p 2 t → config_rejects c = false → pc t = AtWork → thread_slot t = Some x →
  ∃ t' p', stage_work c 2 ok input x t p = Some (t', p') ∧ flow_at p' 2 t' ∧ pl_threads p' = pl_threads p
    ∧ (pc t' = AtPass ∨ pc t' = AtCancel) ∧ thread_slot t' = Some x ∧ pl_sched p' = pl_sched p.
Proof.
  intros Hf Hc Hpc Hx. destruct (flow_at_slot p 2 t x Hf ltac:(lia) Hx) as (atom & Hatom & Hfits).
  unfold stage_work. rewrite Hatom. cbn [mbind option_bind].
  destruct (consumer_step _ _ _ _); cbn [negb].
  - pose proof Hf as Hf'. unfold flow_at in Hf'. simpl in Hf'.
    pose proof (flow_frames _ _ _ _ _ _ _ Hf') as Hle. pose proof (flow_made _ _ _ _ _ _ _ Hf').
    pose proof (flow_checked _ _ _ _ _ _ _ Hf') as Hch. rewrite Hx in Hch. unfold vsize in Hch. simpl in Hch.
    destruct (vat_exists (pl_latency p) (thread_frame t)) as [z ->].
    { rewrite (flow_latency _ _ _ _ _ _ _ Hf'). lia. }
    cbn [mbind option_bind]. eexists _, _. split; [done|]. split; [|by auto]. unfold flow_at. simpl.
    rewrite <-Hx. apply (flow_work2 _ _ _ _ _ _ t _ _ Hf' Hc); try done; [congruence|].
    apply vsize_vset.
  - eexists _, _. split; [done|]. split; [|by auto].
    eapply flow_quiet; [exact Hf| |done|done]. split_and!; simpl; auto. rewrite Hpc. done.
Qed.

Lemma flow_pass p k t x :
  flow_at p k t → config_rejects c = false → (k < 3)%nat → pc t = AtPass → thread_slot t = Some x →
  thread_frame t < cfg_frames c
  ∧ flow_at (p <| pl_sched := sch_pass (target k) x (Nat.eqb k 2) (pl_sched p) |>) k
      (loop_head c (thread_frame t + 1)).
Proof.
  intros Hf Hc Hk Hpc Hx. unfold flow_at in *.
  assert (thread_frame t < cfg_frames c) as Hlt.
  { pose proof (flow_frames _ _ _ _ _ _ _ Hf). pose proof (flow_made _ _ _ _ _ _ _ Hf).
    pose proof (flow_checked _ _ _ _ _ _ _ Hf). 
    destruct k as [|[|[|]]]; [..|lia]; simpl in *; rewrite Hx in *; unfold vsize in *; simpl in *; lia. }
  split; [done|]. destruct k as [|[|[|]]]; [..|lia]; simpl in Hf |- *.
  - by eapply (flow_pass0 _ _ _ _ _ t _ _ x).
  - by eapply (flow_pass1 _ _ _ _ _ _ t _ x).
  - by eapply (flow_pass2 _ _ _ _ _ _ _ t x).
Qed.

(** A thread touches neither the other threads nor their starter. *)
Lemma thread_step_others p k t input t' p' :
  thread_step c k input t p = Some (t', p') → pl_threads p' = pl_threads p ∧ pl_owner p' = pl_owner p.
Proof.
  unfold thread_step, stage_work. destruct (pc t); try by intros [= <- <-].
  - destruct (outcome input); by intros [= <- <-].
  - destruct (negb _); [by intros [= <- <-]|]. destruct (negb _); by intros [= <- <-].
  - destruct (negb _); [by intros [= <- <-]|]. destruct (sch_take _ _ _) as [[]|]; by intros [= <- <-].
  - destruct (thread_slot t); cbn [mbind option_bind]; [|done]. destruct (outcome input); [|by intros [= <- <-]].
    destruct (vat (pl_atoms p) _); cbn [mbind option_bind]; [|done]. destruct k as [|[|k]].
    + destruct (reset_atom _ _ _ _); cbn [mbind option_bind]; [|done].
      destruct (producer_step _ _ _ _). by intros [= <- <-].
    + destruct (_ <? _); [|by intros [= <- <-]]. destruct (cpu_execute _). by intros [= <- <-].
    + destruct (negb _); [by intros [= <- <-]|]. destruct (vat _ _); cbn [mbind option_bind]; [|done]. by intros [= <- <-].
  - destruct (thread_slot t); cbn [mbind option_bind]; [|done]. by intros [= <- <-].
Qed.

(** A thread's operation is defined and keeps the flow. *)
Lemma flow_step p k t input :
  flow_at p k t → config_rejects c = false → (k < 3)%nat → thread_ok t →
  ∃ t' p', thread_step c k input t p = Some (t', p') ∧ flow_at p' k t'.
Proof.
  intros Hf Hc Hk Hok. pose proof Hok as Hat. unfold thread_ok in Hat.
  assert (∀ x s' , pc t ≠ AtPass → x ≠ AtPass → same_queues (pl_sched p) s' →
    flow_at (p <| pl_sched := s' |>) k (mkThread x (thread_frame t) (thread_slot t) (thread_cpu t))) as Hquiet.
  { intros x s' Hpc Hx Hq. eapply flow_quiet; [exact Hf|by apply moves_goto|exact Hq|done]. }
  assert (∀ x, pc t ≠ AtPass → x ≠ AtPass →
    flow_at p k (mkThread x (thread_frame t) (thread_slot t) (thread_cpu t))) as Hstay.
  { intros x Hpc Hx. eapply flow_quiet; [exact Hf|by apply moves_goto|done|done]. }
  destruct (decide (pc t = AtTake)) as [Htake|Htake].
  { destruct (flow_take p k t input Hf Hc Hk Htake Hok) as (t' & p' & ? & ? & _). by exists t', p'. }
  unfold thread_step. destruct (pc t) eqn:Hpc; try done; try (by eexists _, _).
  - destruct (outcome input) as [loaded|]; eexists _, _; (split; [done|]).
    + apply Hquiet; try done. by destruct loaded.
    + by apply Hstay.
  - destruct (awaitStart_predicate _); cbn [negb]; [|eexists _, _; split; [done|by apply Hstay]].
    destruct (awaitStart_result _); cbn [negb]; eexists _, _; (split; [done|]); [|by apply Hstay].
    eapply flow_quiet; [exact Hf| |done|done]. destruct Hat as [Hfr Hn].
    unfold loop_head. split_and!; simpl; auto.
    + right. split_and!; try done. by destruct (_ <? _).
    + rewrite Hpc. by destruct (_ <? _).
  - destruct Hat as [x Hx]. rewrite Hx. cbn [mbind option_bind]. destruct (outcome input) as [ok|].
    2: { eexists _, _. split; [done|]. rewrite <-Hx. by apply Hstay. }
    destruct k as [|[|[|]]]; [..|lia].
    + destruct (flow_produce p t x ok input Hf Hc Hpc Hx) as (t' & p' & ? & ? & _). by exists t', p'.
    + destruct (flow_cpu_task p t x ok input Hf Hc Hpc Hx) as (t' & p' & ? & ? & _). by exists t', p'.
    + destruct (flow_consume p t x ok input Hf Hc Hpc Hx) as (t' & p' & ? & ? & _). by exists t', p'.
  - destruct Hat as [x Hx]. rewrite Hx. cbn [mbind option_bind].
    destruct (flow_pass p k t x Hf Hc Hk Hpc Hx) as [Hlt Hf']. destruct (config_bounds Hc) as (? & _).
    rewrite inc64_small by (unfold two64; lia). by eexists _, _.
  - eexists _, _. split; [done|]. by apply Hquiet.
Qed.

End invariant.
