(* ===== verification/ResultPipelineControl.v ===== *)
(** The control of the result pipeline: no wakeup is lost, a thread returns only
    when it is done or the pipeline has failed, and every step is defined. *)
From S2P Require Import Prelude.
From S2P Require Import CacheTypes.
From S2P Require Import ResultTasks.
From S2P Require Import ResultTaskBehaviour.
From S2P Require Import ResultPipeline.
From S2P Require Import ResultPipelineInvariant.
#[local] Open Scope N_scope.

Section control.
Context (c : PipelineConfig).
Implicit Types (s : PipelineScheduler) (t : StageThread) (p : Pipeline).

(** ** Waking *)

Lemma wake_moves t : moves t (wake_thread t).
Proof. unfold wake_thread. destruct (pc t) eqn:Hpc; try apply moves_refl; split_and!; simpl; auto; by rewrite Hpc. Qed.

Lemma wake_ok t : thread_ok c t → thread_ok c (wake_thread t).
Proof. unfold thread_ok, wake_thread. destruct (pc t) eqn:Hpc; simpl; by rewrite ?Hpc. Qed.

Lemma wake_early t : early t → early (wake_thread t).
Proof. unfold early, wake_thread. destruct (pc t) eqn:Hpc; simpl; rewrite ?Hpc; naive_solver. Qed.

Lemma wake_entered t : entered (wake_thread t) = entered t.
Proof. unfold entered, wake_thread. destruct (pc t) eqn:Hpc; simpl; by rewrite ?Hpc. Qed.

Lemma wake_not_asleep t : pc (wake_thread t) ≠ StartAsleep ∧ pc (wake_thread t) ≠ TakeAsleep.
Proof. unfold wake_thread. destruct (pc t) eqn:Hpc; simpl; by rewrite ?Hpc. Qed.

Lemma wake_returned t : pc (wake_thread t) = Returned ↔ pc t = Returned.
Proof. unfold wake_thread. destruct (pc t) eqn:Hpc; simpl; by rewrite ?Hpc. Qed.

Lemma wake_new : wake_thread new_thread = new_thread.
Proof. done. Qed.

(** A waiting condition survives waking, and whatever keeps a failure. *)
Lemma wake_wait s s' k t :
  wait_ok c s k t → (sch_failed s = true → sch_failed s' = true) → wait_ok c s' k (wake_thread t).
Proof.
  unfold wait_ok, wake_thread. intros Hw Hf. destruct (pc t) eqn:Hpc; simpl; rewrite ?Hpc; try done.
  destruct Hw; auto.
Qed.

Definition wakes (changed : bool) (threads : list StageThread) : list StageThread :=
  if changed then wake_thread <$> threads else threads.

Lemma entered_count_cons t threads :
  entered_count (t :: threads) = (if entered t then 1 else 0) + entered_count threads.
Proof. unfold entered_count. rewrite filter_cons. destruct (entered t); simpl; lia. Qed.

Lemma entered_count_insert threads k t t' :
  threads !! k = Some t →
  entered_count (<[k := t']> threads) + (if entered t then 1 else 0)
  = entered_count threads + (if entered t' then 1 else 0).
Proof.
  revert k. induction threads as [|u threads IH]; intros [|k] Hk; simplify_eq/=.
  - rewrite !entered_count_cons. lia.
  - rewrite !entered_count_cons. specialize (IH k Hk). lia.
Qed.

Lemma entered_count_wake threads : entered_count (wake_thread <$> threads) = entered_count threads.
Proof.
  induction threads as [|t threads IH]; [done|]. rewrite fmap_cons, !entered_count_cons, IH.
  by rewrite wake_entered.
Qed.

Lemma entered_count_alter k threads : entered_count (alter wake_thread k threads) = entered_count threads.
Proof.
  revert k. induction threads as [|t threads IH]; intros [|k]; [done|done|..].
  - change (alter wake_thread 0%nat (t :: threads)) with (wake_thread t :: threads).
    by rewrite !entered_count_cons, wake_entered.
  - change (alter wake_thread (S k) (t :: threads)) with (t :: alter wake_thread k threads).
    by rewrite !entered_count_cons, IH.
Qed.

Lemma entered_count_le threads : entered_count threads ≤ vsize threads.
Proof. unfold entered_count, vsize. pose proof (length_filter (λ t, entered t = true) threads). lia. Qed.

(** ** Control under a thread's operation *)

Lemma control_thread s s' threads o k t t' :
  control c s threads o → threads !! k = Some t → pc t ≠ Returned →
  sch_start s' = sch_start s → (sch_failed s = true → sch_failed s' = true) →
  thread_ok c t' → wait_ok c s' k t' →
  (sch_changed s' = sch_changed s →
     sch_ready s' = sch_ready s ∧ sch_failed s' = sch_failed s ∧ ∀ q, queue q s = [] → queue q s' = []) →
  (sch_start s = false → sch_failed s = false → sch_failed s' = false → early t →
     early t' ∧ sch_ready s' + (if entered t then 1 else 0) = sch_ready s + (if entered t' then 1 else 0)) →
  let changed := negb (sch_changed s' =? sch_changed s) in
  control c s' (wakes changed (<[k := t']> threads)) (if changed then wake_owner o else o).
Proof.
  intros [Hlen Hts Ho Hst Hb] Hk Hpc Hstart Hfail Hok Hwait Hsame Hbegin changed.
  assert (changed = false → sch_changed s' = sch_changed s) as Hch
    by (unfold changed; by intros ?%negb_false_iff%N.eqb_eq). clearbody changed.
  assert (length (wakes changed (<[k := t']> threads)) = length threads) as Hlen'.
  { unfold wakes. by destruct changed; rewrite ?length_fmap, length_insert. }
  assert (∀ t, t ∈ threads → ¬ (Forall (λ t, pc t = Returned) threads ∧ pc t ≠ Returned)) as Hjoined.
  { intros u Hu [Hall Hn]. rewrite Forall_forall in Hall. by apply Hn, Hall. }
  specialize (Hjoined t (list_elem_of_lookup_2 _ _ _ Hk)).
  split; rewrite ?Hlen', ?Hstart; try done.
  - intros j u Hu.
    assert (∀ v, <[k := t']> threads !! j = Some v → thread_ok c v
      ∧ (wait_ok c s' j v ∨ wait_ok c s j v ∧ j ≠ k)) as Hall.
    { intros v. destruct (decide (j = k)) as [->|Hne].
      - rewrite list_lookup_insert_eq by (by eapply lookup_lt_Some). intros [= <-]. auto.
      - rewrite list_lookup_insert_ne by done. intros [? ?]%Hts. auto. }
    unfold wakes in Hu. destruct changed.
    + apply list_lookup_fmap_Some in Hu as (v & -> & [Hv Hw]%Hall). split; [by apply wake_ok|].
      destruct Hw as [Hw|[Hw _]]; by eapply wake_wait; [exact Hw|].
    + apply Hall in Hu as [Hv Hw]. split; [done|]. destruct Hw as [|[Hw _]]; [done|].
      destruct (Hsame (Hch eq_refl)) as (_ & Hf & Hq).
      unfold wait_ok in *. destruct (pc u); rewrite ?Hstart, ?Hf; try done.
      destruct Hw as [? ?]. by auto.
  - unfold owner_ok in *. destruct changed.
    + destruct o; cbn [wake_owner]; rewrite ?Hstart, ?Hlen'; try done.
      * by destruct Ho as (? & ? & _).
      * destruct Ho; auto.
      * by destruct Hjoined; destruct Ho.
    + destruct (Hsame (Hch eq_refl)) as (Hr & Hf & _).
      destruct o; rewrite ?Hstart, ?Hlen', ?Hr, ?Hf; try done. by destruct Hjoined; destruct Ho.
  - intros Hs Hf. assert (sch_failed s = false) as Hf0.
    { destruct (sch_failed s); [|done]. by rewrite Hfail in Hf. }
    destruct (Hb Hs Hf0) as [Hearly Hr].
    destruct (Hbegin Hs Hf0 Hf) as [He Hr']; [by eapply Forall_lookup_1|].
    pose proof (entered_count_insert threads k t t' Hk). split.
    + assert (Forall early (<[k := t']> threads)) by (by apply Forall_insert).
      unfold wakes. destruct changed; [|done]. apply Forall_fmap. eapply Forall_impl; [done|].
      apply wake_early.
    + unfold wakes. destruct changed; rewrite ?entered_count_wake; lia.
Qed.

(** The same, for an operation outside the mutex or one that only reads. *)
Lemma control_stay s threads o k t t' :
  control c s threads o → threads !! k = Some t → pc t ≠ Returned →
  thread_ok c t' → wait_ok c s k t' →
  (sch_start s = false → sch_failed s = false → early t → early t' ∧ entered t' = entered t) →
  let changed := negb (sch_changed s =? sch_changed s) in
  control c s (wakes changed (<[k := t']> threads)) (if changed then wake_owner o else o).
Proof.
  intros Hctl Hk Hpc Hok Hw He. apply (control_thread s s threads o k t t'); try done.
  intros Hs Hf _ Hearly. destruct (He Hs Hf Hearly) as [? ->]. by split; [|lia].
Qed.

Lemma loop_head_ok frame : thread_ok c (loop_head c frame).
Proof.
  unfold thread_ok, loop_head. simpl. destruct (N.ltb_spec frame (cfg_frames c)); simpl; [|done]. by split.
Qed.

Lemma loop_head_wait s k frame : frame ≤ cfg_frames c → wait_ok c s k (loop_head c frame).
Proof.
  intros Hle. unfold wait_ok, loop_head. simpl. destruct (N.ltb_spec frame (cfg_frames c)); simpl; [done|].
  right. split; [lia|done].
Qed.

Lemma not_early t : early t → pc t ≠ AtTake ∧ pc t ≠ AtWork ∧ pc t ≠ AtPass.
Proof. unfold early. destruct (pc t); naive_solver. Qed.

(** What is left of a control after a thread's operation. *)
Definition control_after p k t' p' : Prop :=
  let changed := negb (sch_changed (pl_sched p') =? sch_changed (pl_sched p)) in
  control c (pl_sched p') (wakes changed (<[k := t']> (pl_threads p)))
    (if changed then wake_owner (pl_owner p) else pl_owner p).

Lemma control_start p k t input t' p' :
  control c (pl_sched p) (pl_threads p) (pl_owner p) → pl_threads p !! k = Some t →
  config_rejects c = false → pc t = AtLoad ∨ pc t = AtStart ∨ pc t = AtCancel →
  thread_step c k input t p = Some (t', p') → control_after p k t' p'.
Proof.
  intros Hctl Hk Hc Hpc. pose proof (ctl_threads _ _ _ _ Hctl k t Hk) as [Hok Hw].
  unfold thread_step, control_after. destruct Hpc as [Hpc|[Hpc|Hpc]]; rewrite Hpc; unfold thread_ok in Hok; rewrite Hpc in Hok.
  - destruct (outcome input) as [loaded|]; intros [= <- <-].
    + apply (control_thread _ _ _ _ _ t); try done; try congruence.
      * by destruct loaded.
      * by destruct loaded.
      * destruct loaded; simpl; lia.
      * intros Hs Hf Hf' _. split; [right; by left|]. unfold entered. rewrite Hpc. simpl.
        destruct loaded; [|done]. simpl.
        pose proof (entered_count_le (pl_threads p)). pose proof (ctl_length _ _ _ _ Hctl).
        destruct (ctl_begin _ _ _ _ Hctl Hs Hf) as [_ Hr]. unfold vsize in *.
        rewrite inc64_small by (unfold two64; lia). lia.
    + apply (control_stay _ _ _ _ t); try done; [congruence|]. intros _ _ _.
      split; [right; right; by right|]. unfold entered. by rewrite Hpc.
  - destruct (awaitStart_predicate _) eqn:Hpred; cbn [negb].
    2: { intros [= <- <-]. apply orb_false_iff in Hpred. apply (control_stay _ _ _ _ t); try done; [congruence|].
         intros _ _ _. split; [right; right; by left|]. unfold entered. by rewrite Hpc. }
    unfold awaitStart_predicate in Hpred. unfold awaitStart_result.
    destruct (sch_failed (pl_sched p)) eqn:Hf; cbn [negb]; intros [= <- <-].
    + apply (control_stay _ _ _ _ t); try done; [congruence|by left|by rewrite Hf].
    + rewrite orb_false_r in Hpred. apply (control_stay _ _ _ _ t); try done; [congruence|..].
      * apply loop_head_ok.
      * apply loop_head_wait. lia.
      * by rewrite Hpred.
  - intros [= <- <-]. apply (control_thread _ _ _ _ _ t); try done; try congruence.
    + by left.
    + simpl. lia.
Qed.

Lemma control_take p k t input t' p' :
  control c (pl_sched p) (pl_threads p) (pl_owner p) → pl_threads p !! k = Some t → pc t = AtTake →
  thread_step c k input t p = Some (t', p') → control_after p k t' p'.
Proof.
  intros Hctl Hk Hpc. pose proof (ctl_threads _ _ _ _ Hctl k t Hk) as [Hok Hw].
  unfold thread_step, control_after, take_predicate, sch_take. rewrite Hpc. unfold thread_ok in Hok. rewrite Hpc in Hok.
  assert (early t → False) as Hnot by (by intros [? _]%not_early).
  destruct (sch_failed (pl_sched p)) eqn:Hf; cbn [orb negb mbind option_bind].
  { intros [= <- <-]. apply (control_stay _ _ _ _ t); try done; [congruence|by left]. }
  destruct (vsize (queue (source k) (pl_sched p)) =? 0) eqn:Hq; cbn [negb].
  { intros [= <- <-]. apply (control_stay _ _ _ _ t); try done; [congruence|]. split; [done|].
    destruct (queue _ _); [done|]. by apply N.eqb_eq in Hq; rewrite vsize_cons in Hq; lia. }
  destruct (queue (source k) (pl_sched p)) as [|x rest] eqn:Hqueue; [done|]. cbn [head tail mbind option_bind].
  intros [= <- <-]. apply (control_thread _ _ _ _ _ t); try done; try congruence.
  - by destruct (source k), (Nat.eqb k 0).
  - unfold thread_ok. simpl. by eexists.
  - intros _. split; [by destruct (source k), (Nat.eqb k 0)|]. split; [by destruct (source k), (Nat.eqb k 0)|].
    intros q. clear - Hqueue. destruct (source k), q, (Nat.eqb k 0); simpl in *; congruence.
Qed.

Lemma stage_work_result p k t x ok input :
  flow_at c p k t → config_rejects c = false → (k < 3)%nat → pc t = AtWork → thread_slot t = Some x →
  ∃ t' p', stage_work c k ok input x t p = Some (t', p') ∧ thread_slot t' = Some x ∧ pl_sched p' = pl_sched p
    ∧ (pc t' = AtPass ∨ pc t' = AtWork ∨ pc t' = AtCancel).
Proof.
  intros Hf Hc Hk Hpc Hx. destruct k as [|[|[|]]]; [..|lia].
  - destruct (flow_produce c p t x ok input Hf Hc Hpc Hx) as (t' & p' & ? & _ & _ & [?|?] & ? & ?);
      exists t', p'; split_and!; auto.
  - destruct (flow_cpu_task c p t x ok input Hf Hc Hpc Hx) as (t' & p' & ? & _ & _ & [?|(? & _)] & ? & _ & ?);
      exists t', p'; split_and!; auto.
  - destruct (flow_consume c p t x ok input Hf Hc Hpc Hx) as (t' & p' & ? & _ & _ & [?|?] & ? & ?);
      exists t', p'; split_and!; auto.
Qed.

Lemma control_work p k t input t' p' :
  control c (pl_sched p) (pl_threads p) (pl_owner p) → pl_threads p !! k = Some t →
  config_rejects c = false → flow_at c p k t → (k < 3)%nat → pc t = AtWork ∨ pc t = AtPass →
  thread_step c k input t p = Some (t', p') → control_after p k t' p'.
Proof.
  intros Hctl Hk Hc Hf Hlt Hpc. pose proof (ctl_threads _ _ _ _ Hctl k t Hk) as [Hok _].
  assert (early t → False) as Hnot by (intros (? & ? & ?)%not_early; tauto).
  unfold thread_step, control_after. unfold thread_ok in Hok.
  destruct Hpc as [Hpc|Hpc]; rewrite Hpc in *; destruct Hok as [x Hx]; rewrite Hx; cbn [mbind option_bind].
  - destruct (outcome input) as [ok|].
    2: { intros [= <- <-]. apply (control_stay _ _ _ _ t); try done; congruence. }
    destruct (stage_work_result p k t x ok input Hf Hc Hlt Hpc Hx) as (u & q & -> & Hu & Hs & Hor).
    intros [= <- <-]. rewrite Hs. apply (control_stay _ _ _ _ t); try done; [congruence|..].
    + unfold thread_ok. by destruct Hor as [-> |[-> | ->]]; [exists x|exists x|].
    + unfold wait_ok. by destruct Hor as [-> |[-> | ->]].
  - intros [= <- <-]. destruct (flow_pass c p k t x Hf Hc Hlt Hpc Hx) as [Hfr _].
    destruct (config_bounds c Hc) as (? & _). rewrite inc64_small by (unfold two64; lia).
    apply (control_thread _ _ _ _ _ t); try done; try congruence.
    + by destruct (target k), (Nat.eqb k 2).
    + by destruct (target k), (Nat.eqb k 2).
    + apply loop_head_ok.
    + apply loop_head_wait. lia.
    + destruct (target k), (Nat.eqb k 2); simpl; lia.
Qed.

(** ** Every step is defined and keeps the invariant *)

Lemma stage_thread_insert p q k j t t' changed :
  pl_threads p !! k = Some t → pl_threads q = wakes changed (<[k := t']> (pl_threads p)) →
  moves (if Nat.eqb k j then t' else stage_thread p j) (stage_thread q j).
Proof.
  intros Hk Hq. unfold stage_thread at 2. rewrite Hq.
  assert (default new_thread (<[k:=t']> (pl_threads p) !! j) = if Nat.eqb k j then t' else stage_thread p j) as Hj.
  { destruct (Nat.eqb_spec k j) as [<-|Hne].
    - by rewrite list_lookup_insert_eq by (by eapply lookup_lt_Some).
    - by rewrite list_lookup_insert_ne. }
  rewrite <-Hj. unfold wakes. destruct changed; [|apply moves_refl].
  rewrite list_lookup_fmap. destruct (<[k:=t']> (pl_threads p) !! j); [apply wake_moves|apply moves_refl].
Qed.

Lemma stage_step_valid p k t input :
  valid c p → pl_threads p !! k = Some t →
  ∃ t' p', thread_step c k input t p = Some (t', p')
    ∧ valid c (notified p (p' <| pl_threads := <[k := t']> (pl_threads p') |>)).
Proof.
  intros [Hc Hf Hctl] Hk. pose proof (ctl_threads _ _ _ _ Hctl k t Hk) as [Hok _].
  assert (k < 3)%nat as Hlt by (pose proof (ctl_length _ _ _ _ Hctl); apply lookup_lt_Some in Hk; lia).
  assert (flow_at c p k t) as Hfk.
  { unfold flow_at, stage_thread in *. destruct k as [|[|[|]]]; [..|lia]; simpl; by rewrite Hk in Hf. }
  destruct (flow_step c p k t input Hfk Hc Hlt Hok) as (t' & p' & Hrun & Hf').
  exists t', p'. split; [done|]. pose proof (thread_step_others c p k t input t' p' Hrun) as [Hts Ho].
  assert (control_after p k t' p' ∨ t' = t ∧ p' = p) as Hafter.
  { destruct (pc t) eqn:Hpc;
      try (left; eapply control_start; eauto; fail);
      try (left; by eapply control_take);
      try (left; eapply control_work; eauto; fail);
      unfold thread_step in Hrun; rewrite Hpc in Hrun; simplify_eq; by right. }
  destruct Hafter as [Hafter|[-> ->]].
  2: { rewrite list_insert_id by done. unfold notified. simpl. rewrite N.eqb_refl. by destruct p. }
  unfold control_after in Hafter.
  set (changed := negb (sch_changed (pl_sched p') =? sch_changed (pl_sched p))) in *.
  set (q := notified p _).
  assert (pl_sched q = pl_sched p' ∧ pl_atoms q = pl_atoms p' ∧ pl_latency q = pl_latency p'
    ∧ pl_completed q = pl_completed p' ∧ pl_threads q = wakes changed (<[k:=t']> (pl_threads p))
    ∧ pl_owner q = if changed then wake_owner (pl_owner p) else pl_owner p)
    as (Hqs & Hqa & Hql & Hqc & Hqt & Hqo).
  { unfold q, notified, changed. simpl. rewrite <-Hts, <-Ho. by destruct (_ =? _). }
  split; [done| |by rewrite Hqs, Hqt, Hqo].
  rewrite Hqs, Hqa, Hql, Hqc. eapply flow_moves; [exact Hf'|done|..]; unfold flow_at, stage_thread in *;
    rewrite Hts; by apply (stage_thread_insert p q k _ t t' changed).
Qed.

Lemma notified_same p q :
  sch_changed (pl_sched q) = sch_changed (pl_sched p) → notified p q = q.
Proof. unfold notified. intros ->. by rewrite N.eqb_refl. Qed.

Lemma control_owner s threads o o' :
  control c s threads o → owner_ok s threads o' → control c s threads o'.
Proof. intros []. by split. Qed.

Lemma valid_owner p o :
  valid c p → owner_ok (pl_sched p) (pl_threads p) o → valid c (p <| pl_owner := o |>).
Proof. intros [? Hf Hctl] Ho. split; [done|exact Hf|by eapply control_owner]. Qed.

(** A notification by the starting thread. *)
Lemma valid_announced p s' o :
  valid c p → same_queues (pl_sched p) s' → sch_ready s' = sch_ready (pl_sched p) →
  sch_changed s' = sch_changed (pl_sched p) + 1 →
  (sch_failed (pl_sched p) = true → sch_failed s' = true) →
  (sch_start s' = true → length (pl_threads p) = 3%nat) → sch_start s' = true ∨ sch_failed s' = true →
  o = Joining → valid c (notified p (p <| pl_sched := s' |> <| pl_owner := o |>)).
Proof.
  intros [Hc Hf Hctl] Hq Hr Hch Hfail Hlen Hor ->. unfold notified. simpl.
  rewrite Hch, (proj2 (N.eqb_neq _ _)) by lia. split; simpl; [done| |].
  - eapply flow_moves; [exact Hf|done|..]; unfold stage_thread; simpl; rewrite list_lookup_fmap;
      (destruct (pl_threads p !! _); [apply wake_moves|apply moves_refl]).
  - destruct Hctl as [Hl Hts _ _ _]. split; rewrite ?length_fmap; try done.
    + intros k t Ht. apply list_lookup_fmap_Some in Ht as (u & -> & [Hu Hw]%Hts).
      split; [by apply wake_ok|by eapply wake_wait].
    + destruct Hor; congruence.
Qed.

(** A thread that is started is where one that is not started was said to be. *)
Lemma stage_thread_spawn p j :
  stage_thread (p <| pl_threads := pl_threads p ++ [new_thread] |>) j = stage_thread p j.
Proof.
  unfold stage_thread. simpl. destruct (pl_threads p !! j) as [t|] eqn:Hj.
  - by rewrite (lookup_app_l_Some _ _ _ _ Hj).
  - rewrite lookup_app_r by (by apply lookup_ge_None). by destruct (_ - _)%nat as [|[]].
Qed.

Lemma owner_step_valid p created : valid c p → valid c (notified p (owner_step created p)).
Proof.
  intros Hv. pose proof Hv as [Hc Hf Hctl]. pose proof (ctl_owner _ _ _ _ Hctl) as Ho.
  pose proof (ctl_length _ _ _ _ Hctl) as Hlen.
  unfold owner_step. destruct (pl_owner p) eqn:Howner; simpl in Ho.
  - destruct (N.ltb_spec (vsize (pl_threads p)) 3) as [Hlt|Hge].
    2: { rewrite notified_same by done. apply valid_owner; [done|]. split; [done|]. unfold vsize in Hge. lia. }
    destruct created; rewrite notified_same by done; [|by apply valid_owner].
    assert (∀ j, stage_thread (p <| pl_threads := pl_threads p ++ [new_thread] |>) j = stage_thread p j) as Hst.
    { intros j. apply stage_thread_spawn. }
    split; [done|by rewrite !Hst|]. destruct Hctl as [_ Hts _ Hs3 Hb]. unfold vsize in Hlt. split; simpl.
    + rewrite length_app. simpl. lia.
    + intros k t [[_ Ht]|[_ <-]]%lookup_snoc_Some; [by apply Hts|]. by repeat split.
    + by rewrite Howner.
    + congruence.
    + intros Hs Hfail. destruct (Hb Hs Hfail) as [He Hr]. split.
      * apply Forall_app. split; [done|]. apply Forall_singleton. by left.
      * unfold entered_count in *. rewrite filter_app, length_app. simpl. rewrite Hr. simpl. lia.
  - destruct ((sch_ready _ =? 3) || _) eqn:Hready.
    + apply valid_announced; try done; [by intros _; apply Ho|by left].
    + rewrite notified_same by done. apply orb_false_iff in Hready as [Hready Hfail].
      apply valid_owner; [done|]. apply N.eqb_neq in Hready. by destruct Ho.
  - by rewrite notified_same.
  - apply valid_announced; try done; [|by right]. simpl. congruence.
  - destruct (forallb _ _) eqn:Hall; rewrite notified_same by done; [|done]. apply valid_owner; [done|].
    split; [done|]. apply Forall_forall. intros t Ht. rewrite forallb_forall in Hall.
    apply list_elem_of_In, Hall in Ht. by apply bool_decide_eq_true in Ht.
  - by rewrite notified_same.
Qed.

Lemma wake_thread_valid p k : valid c p → valid c (p <| pl_threads := alter wake_thread k (pl_threads p) |>).
Proof.
  intros [Hc Hf Hctl]. split; [done|..]; simpl.
  - eapply flow_moves; [exact Hf|done|..]; unfold stage_thread; simpl;
      match goal with |- moves (default _ (_ !! ?j)) _ => destruct (decide (j = k)) as [->|Hne] end;
      rewrite ?list_lookup_alter_eq, ?list_lookup_alter_ne by done;
      try apply moves_refl; destruct (pl_threads p !! _); apply wake_moves || apply moves_refl.
  - destruct Hctl as [Hl Hts Ho Hs Hb]. split; rewrite ?length_alter; try done.
    + intros j t. destruct (decide (j = k)) as [->|Hne].
      * rewrite list_lookup_alter_eq. intros (u & Hu & ->)%fmap_Some. destruct (Hts k u Hu) as [Hok Hw].
        split; [by apply wake_ok|by eapply wake_wait].
      * rewrite list_lookup_alter_ne by done. apply Hts.
    + unfold owner_ok in *. rewrite length_alter. destruct (pl_owner p); try done.
      destruct Ho as [? Hall]. split; [done|]. apply Forall_alter; [done|]. intros t _ Ht. by apply wake_returned.
    + intros Hst Hf'. destruct (Hb Hst Hf') as [He Hr]. split.
      * apply Forall_alter; [done|]. intros t _. apply wake_early.
      * by rewrite entered_count_alter.
Qed.

Lemma wake_owner_valid p : valid c p → valid c (p <| pl_owner := wake_owner (pl_owner p) |>).
Proof.
  intros Hv. apply valid_owner; [done|]. pose proof (ctl_owner _ _ _ _ (valid_control _ _ Hv)) as Ho.
  destruct (pl_owner p); try done. by destruct Ho as (? & ? & _).
Qed.

Lemma perform_valid p act : valid c p → ∃ p', pipeline_perform c p act = Some p' ∧ valid c p'.
Proof.
  intros Hv. destruct act as [k input|created|k|]; cbn [pipeline_perform].
  - destruct (pl_threads p !! k) as [t|] eqn:Hk; [|by exists p].
    destruct (stage_step_valid p k t input Hv Hk) as (t' & p' & -> & Hv'). by eexists.
  - eexists. split; [done|]. by apply owner_step_valid.
  - eexists. split; [done|]. by apply wake_thread_valid.
  - eexists. split; [done|]. by apply wake_owner_valid.
Qed.

Lemma start_valid : config_rejects c = false → valid c (pipeline_start c).
Proof.
  intros Hc. destruct (config_bounds c Hc) as (? & ? & ? & ?). split; [done|..].
  - unfold pipeline_start, stage_thread. simpl. split; simpl; try done.
    + by rewrite app_nil_r.
    + lia.
    + unfold vsize. simpl. lia.
    + unfold vsize. rewrite length_replicate. lia.
    + split; [unfold vsize; rewrite length_fmap, length_seq; lia|].
      apply Forall_fmap, Forall_forall. intros n _. simpl. apply fits_task_spec.
      unfold makeAtom. simpl. rewrite atom_bytes_size. unfold vsize. rewrite length_replicate. split_and!; lia.
    + split; [lia|done].
  - unfold pipeline_start. simpl. split; simpl; try done. lia.
Qed.

(** The states of a call of [runPipeline], from the first thread on. *)
Inductive running : Pipeline → Prop :=
  | running_start : config_rejects c = false → running (pipeline_start c)
  | running_step p act p' : running p → pipeline_perform c p act = Some p' → running p'.

Lemma running_valid p : running p → valid c p.
Proof.
  induction 1 as [|p act p' _ IH Hrun]; [by apply start_valid|].
  destruct (perform_valid p act IH) as (q & Hq & Hv). congruence.
Qed.

End control.
