(* ===== verification/ResultPipelineProgress.v ===== *)
(** Progress of the result pipeline: a measure that every operation decreases,
    and somebody who has one until the threads are joined. *)
From S2P Require Import Prelude.
From S2P Require Import CacheTypes.
From S2P Require Import ResultTasks.
From S2P Require Import ResultTaskBehaviour.
From S2P Require Import ResultPipeline.
From S2P Require Import ResultPipelineInvariant.
From S2P Require Import ResultPipelineControl.
#[local] Open Scope nat_scope.

Section progress.
Context (c : PipelineConfig).
Implicit Types (s : PipelineScheduler) (t : StageThread) (p : Pipeline).

(** ** The measure *)

(** The operations of one turn of the loop, at most. *)
Definition turn : nat := N.to_nat (cfg_cpuStages c) + 4.
Definition frames_left t : nat := N.to_nat (cfg_frames c) - N.to_nat (thread_frame t).

(** How many operations a thread has left, evaluations of a predicate that put
    it to sleep apart. *)
Definition thread_left t : nat :=
  match pc t with
  | AtLoad => frames_left t * turn + 3
  | AtStart | StartAsleep => frames_left t * turn + 2
  | AtTake | TakeAsleep => frames_left t * turn + 1
  | AtWork => (frames_left t - 1) * turn + (N.to_nat (cfg_cpuStages c) - N.to_nat (thread_cpu t)) + 4
  | AtPass => (frames_left t - 1) * turn + 3
  | AtCancel => 1
  | Returned => 0
  end.

Definition owner_left (threads : nat) (o : OwnerPc) : nat :=
  match o with
  | Spawning => (3 - threads) + 4
  | OwnerWaiting | OwnerAsleep | OwnerCancelling => 3
  | Joining => 1
  | Joined => 0
  end.

(** Who may evaluate its predicate in vain. *)
Definition thread_awake t : nat := match pc t with AtStart | AtTake => 1 | _ => 0 end.
Definition owner_awake (o : OwnerPc) : nat := match o with OwnerWaiting => 1 | _ => 0 end.

Definition left p : nat :=
  thread_left (stage_thread p 0) + thread_left (stage_thread p 1) + thread_left (stage_thread p 2)
  + owner_left (length (pl_threads p)) (pl_owner p).
Definition awake p : nat :=
  thread_awake (stage_thread p 0) + thread_awake (stage_thread p 1) + thread_awake (stage_thread p 2)
  + owner_awake (pl_owner p).

Definition pipeline_measure p : nat := 5 * left p + awake p.

(** Does the operation get anywhere?  A sleeper and a thread that has returned
    have none, and the join waits for the threads. *)
Definition productive p (act : pipeline_action) : bool :=
  match act with
  | StageStep k _ =>
      match pl_threads p !! k with
      | Some t => match pc t with StartAsleep | TakeAsleep | Returned => false | _ => true end
      | None => false
      end
  | OwnerStep _ =>
      match pl_owner p with
      | OwnerAsleep | Joined => false
      | Joining => forallb has_returned (pl_threads p)
      | _ => true
      end
  | WakeThread _ | WakeOwner => false
  end.

Lemma thread_awake_le t : thread_awake t ≤ 1.
Proof. unfold thread_awake. destruct (pc t); lia. Qed.

Lemma awake_le p : awake p ≤ 4.
Proof.
  unfold awake. pose proof (thread_awake_le (stage_thread p 0)). pose proof (thread_awake_le (stage_thread p 1)).
  pose proof (thread_awake_le (stage_thread p 2)). destruct (pl_owner p); simpl; lia.
Qed.

Lemma wake_left t : thread_left (wake_thread t) = thread_left t.
Proof. unfold thread_left, wake_thread, frames_left. destruct (pc t) eqn:Hpc; simpl; by rewrite ?Hpc. Qed.

Lemma wake_owner_left n o : owner_left n (wake_owner o) = owner_left n o.
Proof. by destruct o. Qed.

(** A decrease of what is left decreases the measure whoever is woken. *)
Lemma measure_left p q : left q < left p → pipeline_measure q < pipeline_measure p.
Proof. intros. unfold pipeline_measure. pose proof (awake_le q). lia. Qed.

Lemma stage_thread_wake p threads changed j :
  pl_threads p = wakes changed threads →
  thread_left (stage_thread p j) = thread_left (default new_thread (threads !! j)).
Proof.
  unfold stage_thread, wakes. intros ->. destruct changed; [|done].
  rewrite list_lookup_fmap. destruct (threads !! j); simpl; [by rewrite wake_left|done].
Qed.

Lemma left_notified p q : left (notified p q) = left q.
Proof.
  unfold notified. case_match; [done|].
  match goal with |- left ?r = _ =>
    assert (∀ j, thread_left (stage_thread r j) = thread_left (stage_thread q j)) as Hts
      by (intros j; by apply (stage_thread_wake r (pl_threads q) true))
  end.
  unfold left. rewrite !Hts. simpl. by rewrite length_fmap, wake_owner_left.
Qed.

(** What a thread's operation does to the measure. *)
Lemma loop_head_left frame :
  thread_left (loop_head c frame) ≤ (N.to_nat (cfg_frames c) - N.to_nat frame) * turn + 1.
Proof. unfold loop_head, thread_left, frames_left. simpl. by destruct (frame <? cfg_frames c)%N; [|apply Nat.le_0_l]. Qed.

Lemma turn_split n : 0 < n → n * turn = (n - 1) * turn + turn.
Proof. intros. replace n with (S (n - 1)) at 1 by lia. simpl. lia. Qed.

(** Arithmetic up to the products with [turn]. *)
Ltac turn_lia :=
  repeat match goal with
  | |- context [?n * turn] => let m := fresh "m" in set (m := n * turn) in *; clearbody m
  | H : context [?n * turn] |- _ => let m := fresh "m" in set (m := n * turn) in *; clearbody m
  end; lia.

Lemma frames_left_pos t : (thread_frame t < cfg_frames c)%N → 0 < frames_left t.
Proof. unfold frames_left. lia. Qed.

Lemma stage_work_left p k t x ok input t' p' :
  flow_at c p k t → config_rejects c = false → k < 3 → pc t = AtWork → thread_slot t = Some x →
  stage_work c k ok input x t p = Some (t', p') → thread_left t' < thread_left t.
Proof.
  intros Hf Hc Hk Hpc Hx Hrun.
  assert (∀ t', thread_frame t' = thread_frame t → pc t' = AtPass ∨ pc t' = AtCancel →
    thread_left t' < thread_left t) as Hdone.
  { intros u Hu Hor. unfold thread_left, frames_left. rewrite Hpc, Hu. destruct Hor as [-> | ->]; turn_lia. }
  destruct k as [|[|[|]]]; [..|lia].
  - assert (thread_frame t' = thread_frame t) as Hfr.
    { revert Hrun. unfold stage_work. destruct (vat _ _); [|done]. cbn [mbind option_bind].
      destruct (reset_atom _ _ _ _); [|done]. cbn [mbind option_bind]. destruct (producer_step _ _ _ _).
      by intros [= <- _]. }
    destruct (flow_produce c p t x ok input Hf Hc Hpc Hx) as (u & q & Hrun' & _ & _ & Hor & _).
    simplify_eq. by apply Hdone.
  - destruct (flow_cpu_task c p t x ok input Hf Hc Hpc Hx) as (u & q & Hrun' & _ & _ & Hor & _ & Hfr & _).
    simplify_eq. destruct Hor as [|(Hw & Hlt & Hcpu)]; [apply Hdone; auto|].
    unfold thread_left, frames_left. rewrite Hpc, Hw, Hfr, Hcpu. turn_lia.
  - assert (thread_frame t' = thread_frame t) as Hfr.
    { revert Hrun. unfold stage_work. destruct (vat (pl_atoms p) _); [|done]. cbn [mbind option_bind].
      destruct (negb _); [by intros [= <- _]|]. destruct (vat _ _); [|done]. by intros [= <- _]. }
    destruct (flow_consume c p t x ok input Hf Hc Hpc Hx) as (u & q & Hrun' & _ & _ & Hor & _).
    simplify_eq. by apply Hdone.
Qed.

(** An operation of a thread that has one leaves it fewer, or puts it to sleep. *)
Lemma thread_step_left p k t input t' p' :
  flow_at c p k t → config_rejects c = false → k < 3 → thread_ok c t →
  thread_step c k input t p = Some (t', p') → pc t ≠ StartAsleep → pc t ≠ TakeAsleep → pc t ≠ Returned →
  thread_left t' < thread_left t
  ∨ thread_left t' = thread_left t ∧ thread_awake t' = 0 ∧ thread_awake t = 1 ∧ p' = p.
Proof.
  intros Hf Hc Hk Hok Hrun Ha Hb Hr. unfold thread_step, thread_ok in *.
  destruct (pc t) eqn:Hpc; try done.
  - left. destruct Hok as [Hfr _].
    destruct (outcome input); simplify_eq; unfold thread_left, frames_left; rewrite Hpc; simpl; turn_lia.
  - destruct Hok as [Hfr _]. destruct (negb (awaitStart_predicate _)).
    { right. simplify_eq. unfold thread_left, thread_awake. by rewrite Hpc. }
    left. destruct (negb _); simplify_eq.
    + unfold thread_left. rewrite Hpc. simpl. turn_lia.
    + pose proof (loop_head_left 0). unfold thread_left at 2, frames_left. rewrite Hpc, Hfr. turn_lia.
  - destruct Hok as [Hlt _]. pose proof (turn_split (frames_left t) (frames_left_pos t Hlt)).
    destruct (negb (take_predicate _ _)).
    { right. simplify_eq. unfold thread_left, thread_awake. by rewrite Hpc. }
    left. destruct (sch_take _ _ _) as [[[x|] s']|]; [| |done]; cbn [mbind option_bind] in Hrun; simplify_eq.
    + unfold thread_left. rewrite Hpc. unfold frames_left in *. cbn [pc thread_frame thread_cpu] in *. assert (turn = N.to_nat (cfg_cpuStages c) + 4) by done. turn_lia.
    + unfold thread_left. rewrite Hpc. simpl. turn_lia.
  - left. destruct Hok as [x Hx]. rewrite Hx in Hrun. cbn [mbind option_bind] in Hrun.
    destruct (outcome input) as [ok|]; [by eapply stage_work_left|]. simplify_eq.
    unfold thread_left. rewrite Hpc. simpl. turn_lia.
  - left. destruct Hok as [x Hx]. rewrite Hx in Hrun. cbn [mbind option_bind] in Hrun. simplify_eq.
    destruct (flow_pass c p k t x Hf Hc Hk Hpc Hx) as [Hlt _]. destruct (config_bounds c Hc) as (? & _).
    rewrite inc64_small by (unfold two64; lia). pose proof (loop_head_left (thread_frame t + 1)).
    unfold thread_left at 2, frames_left. rewrite Hpc.
    replace (N.to_nat (cfg_frames c) - N.to_nat (thread_frame t + 1))
      with (N.to_nat (cfg_frames c) - N.to_nat (thread_frame t) - 1) in * by lia. turn_lia.
  - left. simplify_eq. unfold thread_left. rewrite Hpc. simpl. turn_lia.
Qed.

(** Replacing one thread. *)
Lemma left_replace p q k t t' :
  k < 3 → pl_threads p !! k = Some t → pl_threads q = <[k := t']> (pl_threads p) → pl_owner q = pl_owner p →
  left q + thread_left t = left p + thread_left t'
  ∧ awake q + thread_awake t = awake p + thread_awake t'.
Proof.
  intros Hlt Hk Hq Ho. unfold left, awake. rewrite Hq, Ho, length_insert.
  assert (stage_thread q k = t' ∧ stage_thread p k = t) as [Hqk Hpk].
  { unfold stage_thread. by rewrite Hq, Hk, list_lookup_insert_eq by (by eapply lookup_lt_Some). }
  assert (∀ j, j ≠ k → stage_thread q j = stage_thread p j) as Hne.
  { intros j Hj. unfold stage_thread. by rewrite Hq, list_lookup_insert_ne. }
  destruct k as [|[|[|]]]; [..|lia]; rewrite Hqk, Hpk.
  - rewrite !(Hne 1), !(Hne 2) by done. lia.
  - rewrite !(Hne 0), !(Hne 2) by done. lia.
  - rewrite !(Hne 0), !(Hne 1) by done. lia.
Qed.

Lemma valid_flow_at p k t : valid c p → k < 3 → pl_threads p !! k = Some t → flow_at c p k t.
Proof.
  intros [_ Hf _] Hlt Hk. unfold flow_at, stage_thread in *.
  destruct k as [|[|[|]]]; [..|lia]; simpl; by rewrite Hk in Hf.
Qed.

Lemma valid_index p k t : valid c p → pl_threads p !! k = Some t → k < 3.
Proof. intros Hv Hk. pose proof (ctl_length _ _ _ _ (valid_control _ _ Hv)). apply lookup_lt_Some in Hk. lia. Qed.

Lemma perform_decreases p act p' :
  valid c p → productive p act = true → pipeline_perform c p act = Some p' →
  pipeline_measure p' < pipeline_measure p.
Proof.
  intros Hv Hprod. destruct act as [k input|created|k|]; try done; cbn [pipeline_perform]; simpl in Hprod.
  - destruct (pl_threads p !! k) as [t|] eqn:Hk; [|done].
    pose proof (valid_index p k t Hv Hk) as Hlt. pose proof (valid_flow_at p k t Hv Hlt Hk) as Hf.
    destruct (ctl_threads _ _ _ _ (valid_control _ _ Hv) k t Hk) as [Hok _].
    destruct (thread_step c k input t p) as [[t' q]|] eqn:Hrun; [|done]. cbn [mbind option_bind]. intros [= <-].
    change (pipeline_measure (notified p (q <| pl_threads := <[k := t']> (pl_threads q) |>)) < pipeline_measure p).
    destruct (thread_step_others c p k t input t' q Hrun) as [Hts Ho].
    pose proof (left_replace p (q <| pl_threads := <[k := t']> (pl_threads q) |>) k t t' Hlt Hk) as Hrep.
    destruct Hrep as [Hleft Hawake]; [by rewrite <-Hts|done|].
    destruct (thread_step_left p k t input t' q Hf (valid_config _ _ Hv) Hlt Hok Hrun)
      as [Hless|(Hsame & Ha & Ha' & ->)]; [by destruct (pc t)..| |].
    + apply measure_left. rewrite left_notified. lia.
    + rewrite notified_same by done. unfold pipeline_measure. lia.
  - intros [= <-]. unfold owner_step. pose proof (ctl_length _ _ _ _ (valid_control _ _ Hv)) as Hlen.
    destruct (pl_owner p) eqn:Ho; try done.
    + destruct (N.ltb_spec (vsize (pl_threads p)) 3) as [Hlt|Hge]; [destruct created|];
        apply measure_left; rewrite left_notified; unfold left, vsize in *.
      * rewrite !stage_thread_spawn. simpl. rewrite Ho, length_app. simpl. lia.
      * unfold stage_thread. simpl. rewrite Ho. simpl. lia.
      * unfold stage_thread. simpl. rewrite Ho. simpl. lia.
    + destruct (_ || _).
      * apply measure_left. rewrite left_notified. unfold left. simpl. rewrite Ho. simpl. unfold stage_thread. simpl. lia.
      * rewrite notified_same by done. unfold pipeline_measure, left, awake, stage_thread. simpl. rewrite Ho. simpl. lia.
    + apply measure_left. rewrite left_notified. unfold left, stage_thread. simpl. rewrite Ho. simpl. lia.
    + rewrite Hprod, notified_same by done. unfold pipeline_measure, left, awake, stage_thread. simpl.
      rewrite Ho. simpl. lia.
Qed.

(** ** Somebody can always go on *)

Definition can_proceed p : Prop := ∀ input created, ∃ act, productive p act = true
  ∧ (act = OwnerStep created ∨ ∃ k, act = StageStep k input).

(** A thread that neither sleeps nor has returned has an operation. *)
Lemma thread_proceeds p k t :
  pl_threads p !! k = Some t → pc t ≠ StartAsleep → pc t ≠ TakeAsleep → pc t ≠ Returned → can_proceed p.
Proof.
  intros Hk ? ? ? input created. exists (StageStep k input). simpl. rewrite Hk.
  split; [by destruct (pc t)|eauto].
Qed.

Definition blocked t : bool := bool_decide (pc t = StartAsleep ∨ pc t = TakeAsleep ∨ pc t = Returned).

Lemma all_blocked_or_proceeds p : can_proceed p ∨ Forall (λ t, blocked t = true) (pl_threads p).
Proof.
  destruct (decide (Forall (λ t, blocked t = true) (pl_threads p))) as [|Hn]; [by right|left].
  apply not_Forall_Exists, Exists_exists in Hn as (t & Ht & Hb); [|apply _].
  apply list_elem_of_lookup in Ht as [k Hk]. apply not_true_is_false, bool_decide_eq_false in Hb.
  apply (thread_proceeds p k t Hk); tauto.
Qed.

Lemma entered_count_all threads :
  Forall (λ t, entered t = true) threads → entered_count threads = vsize threads.
Proof.
  induction 1 as [|t threads Ht _ IH]; [done|]. rewrite entered_count_cons, IH, Ht. by rewrite vsize_cons.
Qed.

(** Three sleeping or finished threads cannot keep each other from going on. *)
Lemma quiet_threads_returned p :
  valid c p → Forall (λ t, blocked t = true) (pl_threads p) →
  sch_start (pl_sched p) = true → sch_failed (pl_sched p) = false →
  Forall (λ t, pc t = Returned) (pl_threads p).
Proof.
  intros [Hc Hf Hctl] Hall Hs Hfail. pose proof (ctl_started _ _ _ _ Hctl Hs) as Hlen.
  destruct (config_bounds c Hc) as (? & ? & _).
  assert (∀ k t, pl_threads p !! k = Some t → thread_slot t = None
    ∧ (pc t = Returned ∧ thread_frame t = cfg_frames c
       ∨ (thread_frame t < cfg_frames c)%N ∧ queue (source k) (pl_sched p) = [])) as Hat.
  { intros k t Hk. destruct (ctl_threads _ _ _ _ Hctl k t Hk) as [Hok Hw].
    rewrite Forall_lookup in Hall. specialize (Hall k t Hk). apply bool_decide_eq_true in Hall.
    unfold thread_ok, wait_ok in *. destruct Hall as [Hpc|[Hpc|Hpc]]; rewrite Hpc in *.
    - destruct Hw. congruence.
    - destruct Hok, Hw. auto.
    - destruct Hw as [|[? ?]]; [congruence|auto]. }
  destruct (flow_places _ _ _ _ _ _ _ _ Hf) as (_ & _ & Hsum).
  destruct Hf as [_ _ _ Hmade Hchecked _ _ _ _ _ _ _ _ _ _]. unfold flight, stage_thread in *.
  destruct (pl_threads p) as [|t0 [|t1 [|t2 [|]]]]; try done. simpl in Hmade, Hchecked, Hsum.
  destruct (Hat 0 t0 eq_refl) as [Hs0 Hor0], (Hat 1 t1 eq_refl) as [Hs1 Hor1], (Hat 2 t2 eq_refl) as [Hs2 Hor2].
  simpl in Hor0, Hor1, Hor2. rewrite ?Hs0, ?Hs1, ?Hs2 in *. simpl in *. unfold vsize in *. simpl in *.
  destruct Hor2 as [[Hr2 Hf2]|[Hf2 Hq2]].
  - repeat constructor; [destruct Hor0 as [[]|[? _]]|destruct Hor1 as [[]|[? _]]|]; try done; lia.
  - rewrite Hq2 in *. destruct Hor1 as [[Hr1 Hf1]|[Hf1 Hq1]]; [simpl in *; lia|]. rewrite Hq1 in *.
    destruct Hor0 as [[Hr0 Hf0]|[Hf0 Hq0]]; [simpl in *; lia|]. rewrite Hq0 in *. simpl in *. lia.
Qed.

Lemma goes_on p : valid c p → pl_owner p ≠ Joined → can_proceed p.
Proof.
  intros Hv Hjoined. destruct (all_blocked_or_proceeds p) as [|Hall]; [done|].
  intros input created. pose proof (valid_control _ _ Hv) as Hctl. pose proof (ctl_owner _ _ _ _ Hctl) as Ho.
  destruct (pl_owner p) eqn:Howner; try done;
    try (exists (OwnerStep created); simpl; rewrite Howner; by split; [|left]).
  - exfalso. destruct Ho as (Hs & Hlen & Hr & Hf). destruct (ctl_begin _ _ _ _ Hctl Hs Hf) as [He Hr'].
    apply Hr. rewrite Hr', entered_count_all; [unfold vsize; by rewrite Hlen|].
    rewrite Forall_forall in *. intros t Ht. specialize (He t Ht). specialize (Hall t Ht).
    apply bool_decide_eq_true in Hall. apply bool_decide_eq_true. unfold early in He.
    destruct (pc t); naive_solver.
  - exists (OwnerStep created). split; [|by left]. simpl. rewrite Howner. apply forallb_forall.
    intros t Ht. apply list_elem_of_In in Ht. apply bool_decide_eq_true.
    rewrite Forall_forall in Hall. pose proof (Hall t Ht) as Hb. apply bool_decide_eq_true in Hb.
    apply list_elem_of_lookup in Ht as [k Hk]. destruct (ctl_threads _ _ _ _ Hctl k t Hk) as [_ Hw].
    assert (sch_failed (pl_sched p) = false → pc t = Returned) as Hret.
    { intros Hf. destruct Ho as [Hs|]; [|congruence].
      pose proof (quiet_threads_returned p Hv ltac:(by apply Forall_forall) Hs Hf) as Hq.
      rewrite Forall_forall in Hq. eapply Hq, list_elem_of_lookup_2, Hk. }
    unfold wait_ok in Hw. destruct Hb as [Hb|[Hb|Hb]]; rewrite Hb in Hw; [by apply Hret, Hw..|done].
Qed.

(** ** Runs *)

(** Operations one after the other, each of somebody who has one. *)
Inductive productive_steps : nat → Pipeline → Pipeline → Prop :=
  | steps_end p : productive_steps 0 p p
  | steps_more n p act q r :
      productive p act = true → pipeline_perform c p act = Some q → productive_steps n q r →
      productive_steps (S n) p r.

Lemma productive_steps_valid n p q :
  valid c p → productive_steps n p q → valid c q ∧ pipeline_measure q + n ≤ pipeline_measure p.
Proof.
  intros Hv Hrun. induction Hrun as [|n p act q r Hprod Hstep _ IH]; [by split; [|lia]|].
  destruct (perform_valid c p act Hv) as (q' & Hq & Hv'). rewrite Hstep in Hq. injection Hq as <-.
  destruct (IH Hv') as [? ?]. pose proof (perform_decreases p act q Hv Hprod Hstep). split; [done|lia].
Qed.

Lemma measure_start :
  pipeline_measure (pipeline_start c) = 5 * (3 * (N.to_nat (cfg_frames c) * turn + 3) + 7).
Proof.
  unfold pipeline_measure, left, awake, stage_thread, pipeline_start. simpl.
  unfold thread_left, thread_awake, frames_left. simpl. rewrite Nat.sub_0_r. turn_lia.
Qed.

End progress.
