(* ===== verification/ResultPipelineBehaviour.v ===== *)
(** What the result pipeline promises: its threads never work on the same atom,
    the frames are completed in order and verified, a call always ends, and its
    result says whether everything went well. *)
From stdpp Require Import sorting.
From S2P Require Import Prelude.
From S2P Require Import Platform.
From S2P Require Import GpuDataKey.
From S2P Require Import CacheTypes.
From S2P Require Import CacheLifecycle.
From S2P Require Import GpuTopology.
From S2P Require Import GpuContextManager.
From S2P Require Import RegistryInvariant.
From S2P Require Import DeviceCalls.
From S2P Require Import DummyTask.
From S2P Require Import TaskBehaviour.
From S2P Require Import ResultTasks.
From S2P Require Import ResultTaskBehaviour.
From S2P Require Import ResultPipeline.
From S2P Require Import ResultPipelineInvariant.
From S2P Require Import ResultPipelineControl.
From S2P Require Import ResultPipelineProgress.
#[local] Open Scope N_scope.

Section behaviour.
Context (c : PipelineConfig).
Implicit Types (p : Pipeline) (t : StageThread).

Definition slots_held p : list size_t := omap thread_slot (pl_threads p).

(** Only the consumer's verdict counts a frame. *)
Lemma thread_step_completed p k t input t' q :
  thread_step c k input t p = Some (t', q) → pl_completed q ≠ pl_completed p →
  (2 ≤ k)%nat ∧ pc t = AtWork ∧ pl_completed q = inc64 (pl_completed p)
  ∧ ∃ ok x atom, thread_slot t = Some x ∧ vat (pl_atoms p) x = Some atom
      ∧ consumer_step (cfg_bytes c) (cfg_cpuStages c) ok atom = true.
Proof.
  unfold thread_step, stage_work. destruct (pc t); try by intros [= <- <-].
  - destruct (outcome input); by intros [= <- <-].
  - destruct (negb _); [by intros [= <- <-]|]. destruct (negb _); by intros [= <- <-].
  - destruct (negb _); [by intros [= <- <-]|]. destruct (sch_take _ _ _) as [[]|]; by intros [= <- <-].
  - destruct (thread_slot t) as [x|]; cbn [mbind option_bind]; [|done].
    destruct (outcome input) as [ok|]; [|by intros [= <- <-]].
    destruct (vat (pl_atoms p) _) as [atom|] eqn:Hatom; cbn [mbind option_bind]; [|done]. destruct k as [|[|k]].
    + destruct (reset_atom _ _ _ _); cbn [mbind option_bind]; [|done].
      destruct (producer_step _ _ _ _). by intros [= <- <-].
    + destruct (_ <? _); [|by intros [= <- <-]]. destruct (cpu_execute _). by intros [= <- <-].
    + destruct (consumer_step _ _ _ _) eqn:Hstep; cbn [negb]; [|by intros [= <- <-]].
      destruct (vat (pl_latency p) _); cbn [mbind option_bind]; [|done]. intros [= <- <-] _.
      split; [lia|]. split; [done|]. split; [done|]. by eexists _, _, _.
  - destruct (thread_slot t); cbn [mbind option_bind]; [|done]. by intros [= <- <-].
Qed.

Lemma notified_data p q : pl_completed (notified p q) = pl_completed q ∧ pl_atoms (notified p q) = pl_atoms q
  ∧ pl_sched (notified p q) = pl_sched q.
Proof. unfold notified. by case_match. Qed.

Lemma owner_step_completed p created :
  pl_completed (owner_step created p) = pl_completed p ∧ pl_atoms (owner_step created p) = pl_atoms p.
Proof. unfold owner_step. by repeat case_match. Qed.

(** C11.  A frame is counted as completed only after the consumer has verified it, and
    the frames are completed in order: the atom is the one of the next frame, with
    that frame's bytes, their transform as result, all CPU tasks done and the
    result's checksum. *)
Theorem completed_frames_are_verified p act p' :
  running c p → pipeline_perform c p act = Some p' → pl_completed p' ≠ pl_completed p →
  pl_completed p' = pl_completed p + 1 ∧ pl_completed p' ≤ cfg_frames c
  ∧ ∃ t x atom, pl_threads p !! 2%nat = Some t ∧ thread_slot t = Some x
      ∧ thread_frame t = pl_completed p ∧ vat (pl_atoms p) x = Some atom
      ∧ frameId (md_key (ra_metadata atom)) = pl_completed p + 1
      ∧ ra_frame atom = atom_bytes (pl_completed p + 1) (cfg_bytes c)
      ∧ ra_result atom = transformed <$> ra_frame atom
      ∧ ra_cpuStages atom = cfg_cpuStages c ∧ ra_checksum atom = accumulate (ra_result atom).
Proof.
  intros Hrun Hact Hne. pose proof (running_valid c p Hrun) as Hv.
  destruct act as [k input|created|k|]; cbn [pipeline_perform] in Hact.
  2: { simplify_eq. destruct (notified_data p (owner_step created p)) as [Hd _].
       rewrite Hd in Hne. destruct (owner_step_completed p created). congruence. }
  2-3: by simplify_eq.
  destruct (pl_threads p !! k) as [t|] eqn:Hk; [|by simplify_eq].
  destruct (thread_step c k input t p) as [[t' q]|] eqn:Hstep; [|done]. cbn [mbind option_bind] in Hact.
  injection Hact as <-.
  match goal with |- context [notified p ?r] => destruct (notified_data p r) as [Hd _] end.
  rewrite Hd in *. simpl in *.
  destruct (thread_step_completed p k t input t' q Hstep Hne) as (Hk2 & Hpc & Hinc & ok & x & atom & Hx & Hatom & Hcons).
  pose proof (valid_index c p k t Hv Hk). assert (k = 2%nat) as -> by lia.
  pose proof (valid_flow_at c p 2 t Hv ltac:(lia) Hk) as Hf. unfold flow_at in Hf. simpl in Hf.
  destruct (config_bounds c (valid_config _ _ Hv)) as (? & _ & _ & Hstages).
  pose proof (flow_completed _ _ _ _ _ _ _ _ Hf) as Hcompl. rewrite Hpc in Hcompl. simpl in Hcompl.
  rewrite N.add_0_r in Hcompl.
  pose proof (flow_frames _ _ _ _ _ _ _ _ Hf). pose proof (flow_made _ _ _ _ _ _ _ _ Hf).
  pose proof (flow_checked _ _ _ _ _ _ _ _ Hf) as Hch. rewrite Hx in Hch. unfold vsize in Hch at 1. simpl in Hch.
  rewrite Hinc, inc64_small by (unfold two64; lia).
  split; [done|]. split; [lia|]. exists t, x, atom.
  pose proof (flow_consumer _ _ _ _ _ _ _ _ Hf) as Hcarry. rewrite Hx in Hcarry.
  apply carry_cons in Hcarry as [(a & Ha & Hid & Hframe & _ & Hcpu & Hsum) _].
  rewrite Hatom in Ha. injection Ha as <-. rewrite Hcompl.
  unfold consumer_step in Hcons. rewrite !andb_true_iff in Hcons.
  destruct Hcons as ((((_ & _) & Hfits) & Hver) & _). apply fits_task_spec in Hfits as (Hfr & Hre & _).
  apply taskB_verify_true in Hver as (_ & Hres & _); [|congruence].
  split_and!; try done. apply Hsum. lia.
Qed.

(** C13.  Every step anybody takes is defined.  Each of the slots is in one place: free,
    in one of the queues, or with one thread, so no two threads ever touch one
    atom; the count of slots in flight is right and its peak never exceeds the
    slots. *)
Theorem slots_are_exclusive p :
  running c p →
  (∀ act, ∃ p', pipeline_perform c p act = Some p' ∧ running c p')
  ∧ freeSlots (pl_sched p) ++ cpuQueue (pl_sched p) ++ consumerQueue (pl_sched p) ++ slots_held p
      ≡ₚ N.of_nat <$> seq 0 (N.to_nat (slot_count c))
  ∧ (∀ j k t u x, pl_threads p !! j = Some t → pl_threads p !! k = Some u →
       thread_slot t = Some x → thread_slot u = Some x → j = k)
  ∧ sch_active (pl_sched p) + vsize (freeSlots (pl_sched p)) = slot_count c
  ∧ sch_active (pl_sched p) ≤ sch_peak (pl_sched p) ∧ sch_peak (pl_sched p) ≤ slot_count c.
Proof.
  intros Hrun. pose proof (running_valid c p Hrun) as Hv. pose proof (valid_flow _ _ Hv) as Hf.
  split.
  { intros act. destruct (perform_valid c p act Hv) as (p' & Hp & _). exists p'. split; [done|].
    by eapply running_step. }
  assert (slots_held p = option_list (thread_slot (stage_thread p 0))
    ++ option_list (thread_slot (stage_thread p 1)) ++ option_list (thread_slot (stage_thread p 2))) as Hheld.
  { pose proof (ctl_length _ _ _ _ (valid_control _ _ Hv)). unfold slots_held, stage_thread.
    destruct (pl_threads p) as [|t0 [|t1 [|t2 [|]]]]; simpl in *; try lia; [done|..];
      by repeat (case_match; simpl). }
  pose proof (flow_slots _ _ _ _ _ _ _ _ Hf) as Hslots. unfold flight in Hslots.
  destruct (flow_places _ _ _ _ _ _ _ _ Hf) as (Hnd & _ & Hsum).
  split; [|split].
  - rewrite <-Hslots. f_equiv. rewrite Hheld.
    set (q1 := cpuQueue _). set (q2 := consumerQueue _). set (h0 := option_list _).
    set (h1 := option_list _). set (h2 := option_list _).
    rewrite (Permutation_app_comm h0), (Permutation_app_comm h1), <-!(assoc (++)).
    rewrite (Permutation_app_swap_app q1 q2), (Permutation_app_swap_app q1 h2), (Permutation_app_swap_app q2 h2).
    by rewrite (Permutation_app_swap_app q1 h1).
  - intros j k t u x Hj Hk Ht Hu. destruct (decide (j = k)) as [|Hne]; [done|exfalso].
    assert (∀ j k t u, pl_threads p !! j = Some t → pl_threads p !! k = Some u →
      thread_slot t = Some x → thread_slot u = Some x → (j < k)%nat → False) as Hlt.
    { clear - Hv Hf. intros j k t u Hj Hk Ht Hu Hlt.
      pose proof (valid_index c p k u Hv Hk).
      destruct (held_elsewhere _ _ _ _ _ _ _ _ x Hf) as [H0 H1]. unfold stage_thread in H0, H1.
      destruct j as [|[|[|]]]; [..|lia]; rewrite ?Hj in *; simpl in *.
      - apply H0; [done|]. rewrite !elem_of_app.
        destruct k as [|[|[|]]]; [lia|..|lia]; rewrite Hk; simpl; rewrite Hu; simpl; rewrite list_elem_of_singleton; auto.
      - apply H1; [done|]. rewrite !elem_of_app.
        destruct k as [|[|[|]]]; [lia|lia|..|lia]; rewrite Hk; simpl; rewrite Hu; simpl; rewrite list_elem_of_singleton; auto.
      - lia. }
    destruct (Nat.lt_gt_cases j k) as [[Hl|Hl] _]; [done|exact (Hlt j k t u Hj Hk Ht Hu Hl)|exact (Hlt k j u t Hk Hj Hu Ht Hl)].
  - rewrite (flow_active _ _ _ _ _ _ _ _ Hf). split; [lia|]. rewrite <-(flow_active _ _ _ _ _ _ _ _ Hf).
    apply (flow_peak _ _ _ _ _ _ _ _ Hf).
Qed.

(** C12.  A call always ends: between its steps its threads and their starter have at
    most so many operations that do not merely wait, whatever fails on the way,
    and until all threads are joined some of them has one. *)
Theorem pipeline_terminates n p :
  config_rejects c = false → productive_steps c n (pipeline_start c) p →
  (n ≤ 15 * (N.to_nat (cfg_frames c) * (N.to_nat (cfg_cpuStages c) + 4) + 3) + 35)%nat
  ∧ (pl_owner p = Joined ∨ can_proceed p).
Proof.
  intros Hc Hrun. destruct (productive_steps_valid c n _ _ (start_valid c Hc) Hrun) as [Hv Hle].
  rewrite measure_start in Hle. unfold turn in Hle. split; [lia|].
  destruct (decide (pl_owner p = Joined)) as [|Hne]; [by left|right]. by eapply goes_on.
Qed.

(** The percentiles of a run are latencies of it, in order. *)
Lemma sorted_lookup (l : list Z) i j x y :
  StronglySorted Z.le l → (i ≤ j)%nat → l !! i = Some x → l !! j = Some y → (x ≤ y)%Z.
Proof.
  intros Hs. revert i j. induction Hs as [|z l _ IH Hall]; intros i j Hle Hi Hj; [done|].
  destruct i as [|i], j as [|j]; simplify_eq/=; [lia| |lia|].
  - rewrite Forall_lookup in Hall. by eapply Hall.
  - eapply IH; [|done|done]. lia.
Qed.

Lemma percentiles_run (l : list Z) :
  0 < vsize l → vsize l ≤ 1000000 →
  ∃ x y, percentile 50 (merge_sort Z.le l) = Some x ∧ percentile 95 (merge_sort Z.le l) = Some y
    ∧ x ∈ l ∧ y ∈ l ∧ (x ≤ y)%Z.
Proof.
  intros Hpos Hmax. unfold percentile.
  assert (vsize (merge_sort Z.le l) = vsize l) as Hl by (unfold vsize; by rewrite merge_sort_Permutation).
  rewrite Hl, dec64_small by (unfold two64; lia). unfold mul64.
  rewrite !wrap64_small by (unfold two64; lia).
  assert (∀ q, q ≤ 100 → (vsize l - 1) * q / 100 < vsize l) as Hlt
    by (intros q Hq; apply N.Div0.div_lt_upper_bound; nia).
  destruct (vat_exists (merge_sort Z.le l) ((vsize l - 1) * 50 / 100)) as [x Hx]; [rewrite Hl; apply Hlt; lia|].
  destruct (vat_exists (merge_sort Z.le l) ((vsize l - 1) * 95 / 100)) as [y Hy]; [rewrite Hl; apply Hlt; lia|].
  exists x, y. split_and!; try done.
  - rewrite <-(merge_sort_Permutation Z.le l). by eapply vat_elem_of.
  - rewrite <-(merge_sort_Permutation Z.le l). by eapply vat_elem_of.
  - rewrite vat_lookup in Hx, Hy. eapply sorted_lookup; [apply StronglySorted_merge_sort; apply _| |exact Hx|exact Hy].
    assert ((vsize l - 1) * 50 / 100 ≤ (vsize l - 1) * 95 / 100) by (apply N.Div0.div_le_mono; lia). lia.
Qed.

(** After a call that has not failed, all frames are completed and all slots free. *)
Lemma joined_complete p :
  running c p → pl_owner p = Joined → sch_failed (pl_sched p) = false →
  length (pl_threads p) = 3%nat ∧ Forall (λ t, pc t = Returned) (pl_threads p)
  ∧ pl_completed p = cfg_frames c ∧ freeSlots (pl_sched p) ≡ₚ N.of_nat <$> seq 0 (N.to_nat (slot_count c)).
Proof.
  intros Hrun Ho Hfail. pose proof (running_valid c p Hrun) as [Hc Hf Hctl].
  pose proof (ctl_owner _ _ _ _ Hctl) as Hown. rewrite Ho in Hown. destruct Hown as [[Hs|] Hall]; [|congruence].
  pose proof (ctl_started _ _ _ _ Hctl Hs) as Hlen. split; [done|]. split; [done|].
  assert (∀ k t, pl_threads p !! k = Some t → pc t = Returned ∧ thread_frame t = cfg_frames c ∧ thread_slot t = None)
    as Hat.
  { intros k t Hk. destruct (ctl_threads _ _ _ _ Hctl k t Hk) as [_ Hw].
    rewrite Forall_lookup in Hall. unfold wait_ok in Hw. rewrite (Hall k t Hk) in Hw.
    split; [by eapply Hall|]. destruct Hw; [congruence|done]. }
  destruct Hf as [Hslots _ _ Hmade Hchecked _ Hcompl _ _ _ _ _ _ _ _]. unfold flight, stage_thread in *.
  destruct (pl_threads p) as [|t0 [|t1 [|t2 [|]]]]; try done. simpl in *.
  destruct (Hat 0%nat t0 eq_refl) as (_ & Hf0 & Hs0), (Hat 1%nat t1 eq_refl) as (_ & Hf1 & Hs1),
    (Hat 2%nat t2 eq_refl) as (Hp2 & Hf2 & Hs2).
  rewrite Hs0, Hs1, Hs2, Hp2 in *. simpl in *. unfold vsize in *. simpl in *. split; [lia|].
  assert (cpuQueue (pl_sched p) = [] ∧ consumerQueue (pl_sched p) = []) as [Hq1 Hq2]
    by (split; apply length_zero_iff_nil; lia).
  by rewrite Hq1, Hq2, app_nil_r in Hslots.
Qed.

(** *** Without failures *)

(** What the rest of the program does when nothing fails: the tasks' calls
    succeed, the bytes the producer reads back are the kernel's, and the threads
    can be created. *)
Definition healthy p (act : pipeline_action) : Prop :=
  match act with
  | StageStep k input =>
      outcome input = Answers true
      ∧ ∀ t, pl_threads p !! k = Some t →
          bytes_of (cfg_bytes c) (content input)
            = transformed <$> atom_bytes (inc64 (thread_frame t)) (cfg_bytes c)
  | OwnerStep created => created = true
  | _ => True
  end.

Definition computed (atom : ResultAtom) : Prop :=
  ra_ready atom = true → ra_result atom = transformed <$> ra_frame atom.

Record unharmed p : Prop := {
  unharmed_failed : sch_failed (pl_sched p) = false;
  unharmed_threads t : t ∈ pl_threads p → pc t ≠ AtCancel;
  unharmed_owner : pl_owner p ≠ OwnerCancelling;
  unharmed_atoms : Forall computed (pl_atoms p);
}.

Lemma taskB_verify_complete atom stages :
  ra_result atom = transformed <$> ra_frame atom → ra_checksum atom = accumulate (ra_result atom) →
  taskB_verify (ra_result atom) atom stages = true.
Proof.
  intros Hres Hsum. unfold taskB_verify. rewrite bool_decide_eq_true_2 by done.
  assert (expectedOutput (ra_result atom) (ra_frame atom) = true) as ->
    by (apply expectedOutput_correct; [by rewrite Hres, length_fmap|done]).
  by rewrite Hsum, N.eqb_refl, orb_true_r.
Qed.

Lemma computed_store atoms x a : Forall computed atoms → computed a → Forall computed (vset atoms x a).
Proof. intros. rewrite vset_insert. by apply Forall_insert. Qed.

Lemma unharmed_work p k t x input t' q :
  valid c p → unharmed p → pl_threads p !! k = Some t → healthy p (StageStep k input) → pc t = AtWork →
  thread_slot t = Some x → stage_work c k true input x t p = Some (t', q) →
  pc t' ≠ AtCancel ∧ Forall computed (pl_atoms q).
Proof.
  intros Hv [_ _ _ Hatoms] Hk [_ Hcontent] Hpc Hx Hrun.
  pose proof (valid_index c p k t Hv Hk) as Hlt. pose proof (valid_flow_at c p k t Hv Hlt Hk) as Hf.
  pose proof (valid_config _ _ Hv) as Hc. destruct (config_bounds c Hc) as (? & _ & _ & ? & _).
  destruct (flow_at_slot c p k t x Hf Hlt Hx) as (atom & Hatom & Hfits).
  pose proof (proj1 (Forall_forall _ _) Hatoms atom (vat_elem_of _ _ _ Hatom)) as Hcomputed.
  unfold stage_work in Hrun. rewrite Hatom in Hrun. cbn [mbind option_bind] in Hrun.
  destruct k as [|[|[|]]]; [..|lia].
  - unfold flow_at in Hf. simpl in Hf. pose proof (flow_frames _ _ _ _ _ _ _ _ Hf) as Hle.
    rewrite Hx in Hle. unfold vsize in Hle. simpl in Hle.
    destruct (reset_atom_run c (thread_frame t) (now input) atom Hfits ltac:(lia))
      as (a & Ha & Hfa & Hready & _ & Hframe & _). rewrite Ha in Hrun. cbn [mbind option_bind] in Hrun.
    unfold producer_step in Hrun. rewrite Hready, Hfa in Hrun. cbn [negb andb] in Hrun. simplify_eq.
    split; [done|]. simpl. apply computed_store; [done|]. intros _. simpl.
    rewrite (Hcontent t Hk), Hframe, inc64_small by (unfold two64; lia). done.
  - destruct (flow_cpu_task c p t x true input Hf Hc Hpc Hx) as (u & r & Hrun' & _ & _ & Hor & _).
    unfold stage_work in Hrun'. rewrite Hatom in Hrun'. cbn [mbind option_bind] in Hrun'.
    rewrite Hrun in Hrun'. simplify_eq. split; [destruct Hor as [-> |[-> _]]; done|].
    destruct (_ <? _); [|by simplify_eq]. unfold cpu_execute in Hrun.
    destruct (_ || _); simplify_eq; simpl; by apply computed_store.
  - destruct (consumer_step _ _ _ _) eqn:Hstep; cbn [negb] in Hrun.
    { destruct (vat (pl_latency p) _); [|done]. by simplify_eq/=. }
    exfalso. unfold flow_at in Hf. simpl in Hf. pose proof (flow_consumer _ _ _ _ _ _ _ _ Hf) as Hcarry.
    rewrite Hx in Hcarry. apply carry_cons in Hcarry as [(a & Ha & _ & _ & Hready & Hcpu & Hsum) _].
    rewrite Hatom in Ha. injection Ha as <-. unfold consumer_step in Hstep.
    rewrite Hready, Hcpu, N.eqb_refl, Hfits, taskB_verify_complete in Hstep; [done|by apply Hcomputed|].
    apply Hsum. lia.
Qed.

Lemma unharmed_thread_step p k t input t' q :
  valid c p → unharmed p → pl_threads p !! k = Some t → healthy p (StageStep k input) →
  thread_step c k input t p = Some (t', q) →
  pc t' ≠ AtCancel ∧ sch_failed (pl_sched q) = false ∧ Forall computed (pl_atoms q).
Proof.
  intros Hv Hu Hk Hh Hrun. pose proof Hh as [Hout _].
  pose proof (valid_index c p k t Hv Hk) as Hlt. pose proof (valid_flow_at c p k t Hv Hlt Hk) as Hf.
  destruct Hu as [Hfail Hts Ho Hatoms] eqn:Heq. pose proof (Hts t (list_elem_of_lookup_2 _ _ _ Hk)) as Hpc0.
  unfold thread_step in Hrun. rewrite Hout in Hrun. destruct (pc t) eqn:Hpc; try done;
    try (simplify_eq/=; by rewrite ?Hpc).
  - destruct (negb _); [by simplify_eq/=|]. unfold loop_head in Hrun.
    destruct (negb _); simplify_eq/=; [done|]. by destruct (0 <? cfg_frames c).
  - destruct (negb _); [by simplify_eq/=|]. unfold sch_take in Hrun. rewrite Hfail in Hrun.
    destruct (head _) as [x|]; [|done]. cbn [mbind option_bind] in Hrun. simplify_eq/=.
    split; [done|]. split; [|done]. by destruct (source k), (Nat.eqb k 0).
  - destruct (thread_slot t) as [x|] eqn:Hx; [|done]. cbn [mbind option_bind] in Hrun.
    destruct (unharmed_work p k t x input t' q Hv Hu Hk Hh Hpc Hx Hrun) as [? ?].
    destruct (stage_work_result c p k t x true input Hf (valid_config _ _ Hv) Hlt Hpc Hx)
      as (u & r & Hrun' & _ & Hs & _). rewrite Hrun in Hrun'. injection Hrun' as <- <-. by rewrite Hs.
  - destruct (thread_slot t) as [x|]; [|done]. cbn [mbind option_bind] in Hrun. simplify_eq/=.
    unfold loop_head. simpl. split; [by destruct (_ <? _)|]. split; [|done].
    by destruct (target k), (Nat.eqb k 2).
Qed.

Lemma unharmed_notified p q : unharmed q → unharmed (notified p q).
Proof.
  intros [Hf Hts Ho Ha]. unfold notified. case_match; [by split|]. split; simpl; try done.
  - intros t (u & -> & Hu)%list_elem_of_fmap. specialize (Hts u Hu). unfold wake_thread. by destruct (pc u) eqn:Hpc; rewrite ?Hpc.
  - by destruct (pl_owner q).
Qed.

Lemma unharmed_step p act p' :
  valid c p → unharmed p → healthy p act → pipeline_perform c p act = Some p' → unharmed p'.
Proof.
  intros Hv Hu Hh. pose proof Hu as [Hf Hts Ho Ha]. destruct act as [k input|created|k|]; cbn [pipeline_perform].
  - destruct (pl_threads p !! k) as [t|] eqn:Hk; [|by intros [= <-]].
    destruct (thread_step c k input t p) as [[t' q]|] eqn:Hrun; [|done]. cbn [mbind option_bind]. intros [= <-].
    destruct (unharmed_thread_step p k t input t' q Hv Hu Hk Hh Hrun) as (? & ? & ?).
    destruct (thread_step_others c p k t input t' q Hrun) as [Hq Hqo].
    apply unharmed_notified. split; simpl; try done; [|by rewrite Hqo].
    rewrite Hq. intros u [j Hj]%list_elem_of_lookup.
    apply list_lookup_insert_Some in Hj as [(_ & <- & _)|[_ Hj]]; [done|].
    by apply Hts, (list_elem_of_lookup_2 _ j).
  - simpl in Hh. subst created. intros [= <-]. apply unharmed_notified. unfold owner_step.
    destruct (pl_owner p) eqn:Howner; try done.
    + destruct (_ <? _); split; simpl; try done; [|by rewrite Howner].
      intros t [?|Hin]%elem_of_app; [by apply Hts|]. by apply list_elem_of_singleton in Hin as ->.
    + destruct (_ || _); by split.
    + destruct (forallb _ _); [by split|done].
  - intros [= <-]. split; simpl; try done. intros t Hin.
    apply list_elem_of_lookup in Hin as [j Hj]. destruct (decide (j = k)) as [->|Hne].
    + rewrite list_lookup_alter_eq in Hj. apply fmap_Some in Hj as (u & Hu' & ->).
      pose proof (Hts u (list_elem_of_lookup_2 _ _ _ Hu')). unfold wake_thread. by destruct (pc u) eqn:Hpc; rewrite ?Hpc.
    + rewrite list_lookup_alter_ne in Hj by done. by apply Hts, (list_elem_of_lookup_2 _ j).
  - intros [= <-]. split; simpl; try done. by destruct (pl_owner p).
Qed.

(** The states of a call in which nothing fails. *)
Inductive running_well : Pipeline → Prop :=
  | well_start : config_rejects c = false → running_well (pipeline_start c)
  | well_step p act p' :
      running_well p → healthy p act → pipeline_perform c p act = Some p' → running_well p'.

Lemma running_well_unharmed p : running_well p → running c p ∧ unharmed p.
Proof.
  induction 1 as [Hc|p act p' _ [Hr Hu] Hh Hrun].
  - split; [by apply running_start|]. split; simpl; try done; [by intros t ?%elem_of_nil|].
    apply Forall_fmap, Forall_forall. intros n _. done.
  - split; [by eapply running_step|]. eapply unharmed_step; try done. by apply running_valid.
Qed.

(** C25.  If nothing outside the pipeline fails it does not fail: neither the CPU tasks
    nor the consumer's checks ever stop it, and when its threads are joined all
    frames are completed and every slot is free again. *)
Theorem healthy_pipeline_completes p :
  running_well p →
  sch_failed (pl_sched p) = false
  ∧ (pl_owner p = Joined → pl_completed p = cfg_frames c
       ∧ freeSlots (pl_sched p) ≡ₚ N.of_nat <$> seq 0 (N.to_nat (slot_count c))).
Proof.
  intros Hw. destruct (running_well_unharmed p Hw) as [Hr Hu]. split; [apply Hu|]. intros Ho.
  apply (joined_complete p Hr Ho (unharmed_failed _ Hu)).
Qed.

End behaviour.

(** ** The result of the call *)
Section verdict.
Context (c : PipelineConfig).
Context `{KernelDevice} `{!GpuDriver}.

(** The result is [true] exactly if no stage failed and the tasks and the cache
    gave everything back; then all frames were completed, and the percentiles are
    latencies of the run.  The peak it reports is within the slots. *)
Theorem pipeline_verdict p (producer : ptr) consumer cache infra w rA rB :
  running c p → pl_owner p = Joined → registry infra →
  task_store infra !! producer = Some rA → task_store infra !! taskB_resources consumer = Some rB →
  producer ≠ taskB_resources consumer → tidy rA → tidy rB →
  ∃ okA infra1 w1 okB infra2 w2 okC cache' w3 m,
    resources_unload producer infra w = Some (okA, infra1, w1)
    ∧ resources_unload (taskB_resources consumer) infra1 w1 = Some (okB, infra2, w2)
    ∧ release cache w2 = (okC, cache', w3) ∧ registry infra2
    ∧ pipeline_finish c p producer consumer cache infra w
        = Some (negb (sch_failed (pl_sched p)) && okA && okB && okC, m, cache', infra2, w3)
    ∧ ms_completed m = pl_completed p ∧ ms_peakInFlight m ≤ slot_count c
    ∧ ms_cache m = statistics cache ∧ ms_consumerHits m = hits consumer
    ∧ (negb (sch_failed (pl_sched p)) && okA && okB && okC = true →
         ms_completed m = cfg_frames c ∧ ms_latencyP50 m ∈ pl_latency p
         ∧ ms_latencyP95 m ∈ pl_latency p ∧ (ms_latencyP50 m ≤ ms_latencyP95 m)%Z).
Proof.
  intros Hrun Ho Hreg HA HB Hne HtA HtB. unfold pipeline_finish.
  destruct (resources_unload_run producer infra w rA Hreg HA HtA)
    as (okA & infra1 & w1 & rA' & -> & [Hreg1 Honly _] & _). cbn [mbind option_bind].
  destruct (resources_unload_run (taskB_resources consumer) infra1 w1 rB Hreg1)
    as (okB & infra2 & w2 & rB' & HrunB & [Hreg2 _ _] & _); [by rewrite Honly|done|].
  rewrite HrunB. cbn [mbind option_bind]. destruct (release cache w2) as [[okC cache'] w3] eqn:Hrel.
  pose proof (running_valid c p Hrun) as [Hc Hf _].
  destruct (flow_peak _ _ _ _ _ _ _ _ Hf) as [_ Hpeak].
  destruct (sch_failed (pl_sched p)) eqn:Hfail; cbn [orb negb andb].
  { eexists _, _, _, _, _, _, _, _, _, _. split; [done|]. split; [exact HrunB|]. split; [exact Hrel|]. by split_and!. }
  destruct (joined_complete c p Hrun Ho Hfail) as (_ & _ & Hcompl & _).
  rewrite Hcompl, N.eqb_refl. cbn [orb negb].
  destruct (okA && okB && okC) eqn:Hall.
  - rewrite !andb_true_iff in Hall. destruct Hall as [[-> ->] ->]. cbn [orb negb].
    destruct (config_bounds c Hc) as (? & _). pose proof (flow_latency _ _ _ _ _ _ _ _ Hf) as Hlat.
    destruct (percentiles_run (pl_latency p)) as (x & y & -> & -> & ? & ? & ?); [lia..|].
    cbn [mbind option_bind]. eexists _, _, _, _, _, _, _, _, _, _.
    split; [done|]. split; [exact HrunB|]. split; [exact Hrel|]. by split_and!.
  - assert (negb okA || negb okB || negb okC = true) as -> by (by destruct okA, okB, okC).
    eexists _, infra1, w1, _, infra2, w2, _, _, _, _. rewrite Hall.
    split; [done|]. split; [exact HrunB|]. split; [exact Hrel|]. by split_and!.
Qed.

End verdict.
