(* ===== verification/Benchmarks.v ===== *)
(** The benchmark programs.  The one of the cache's eviction policies
    ([tools/cache_policy_benchmark.cpp]) is a client of the cache with threads of its
    own: [measure] fills the cache, holds
    readers of its oldest entries, and lets workers ask for new payloads, each of
    which must replace an old one.  A thread is a machine whose states are the points
    between its critical sections; where a stream fails, the two sections of
    [freeCacheData] are one operation.  The one of the result pipeline
    ([tools/result_pipeline_benchmark.cpp]) calls [runPipeline]; at the end of the
    file both programs are the sequences of calls they make. *)
From Stdlib Require Import Ascii.
From S2P Require Import Prelude.
From S2P Require Import ResultPipeline.
From S2P Require Import Platform.
From S2P Require Import GpuDataKey.
From S2P Require Import CacheTypes.
From S2P Require Import GpuDataCache.
From S2P Require Import GpuDataAccess.
From S2P Require Import CacheLifecycle.
From S2P Require Import GpuTopology.
From S2P Require Import NumberText.
#[local] Open Scope N_scope.

Definition PAYLOAD_BYTES : size_t := 64.
Definition WARMUP_REQUESTS : size_t := 100.

(** ** The command line *)

(** [std::from_chars] on the whole text: digits only, no sign and no space. *)
Definition parseSize (s : list ascii) : option size_t :=
  match span is_digit s with
  | ([], _) => None
  | (digits, []) => let value := Z.to_N (decimal digits) in if SIZE_MAX <? value then None else Some value
  | _ => None
  end.

Record BenchArguments := mkBenchArguments {
  bench_capacity : size_t;
  bench_heldCount : size_t;
  bench_workerCount : size_t;
  bench_iterations : size_t;
  bench_repeats : size_t;
}.

(** The numbers [main] accepts. *)
Definition accepts_numbers (b : BenchArguments) : bool :=
  let 'mkBenchArguments capacity heldCount workerCount iterations repeats := b in
  negb ((capacity =? 0) || (65536 <? capacity) || (capacity <=? heldCount) || (workerCount =? 0)
        || (32 <? workerCount) || (sub64 capacity heldCount <? workerCount) || (iterations =? 0)
        || (1000000 <? iterations) || (repeats =? 0) || (20 <? repeats)).

(** The arguments after the program's name; [None] is the usage message. *)
Definition parseArguments (args : list (list ascii)) : option BenchArguments :=
  '(capacity, heldCount, workerCount, iterations, last) ←
    match args with
    | [c; h; w; i] => Some (c, h, w, i, None)
    | [c; h; w; i; r] => Some (c, h, w, i, Some r)
    | _ => None
    end;
  capacity ← parseSize capacity;
  heldCount ← parseSize heldCount;
  workerCount ← parseSize workerCount;
  iterations ← parseSize iterations;
  repeats ← match last with None => Some 3 | Some r => parseSize r end;
  let b := mkBenchArguments capacity heldCount workerCount iterations repeats in
  if accepts_numbers b then Some b else None.

(** The measurements of a run, in their order: the policy and the number printed. *)
Definition benchPolicy (repeat order : size_t) : CacheEvictionPolicy :=
  if (repeat + order) mod 2 =? 0 then LRU else FIFO.
Definition measurements (b : BenchArguments) : list (CacheEvictionPolicy * size_t) :=
  repeat ← N.of_nat <$> seq 0 (N.to_nat (bench_repeats b));
  order ← [0; 1];
  mret (benchPolicy repeat order, add64 repeat 1).

(** [makeMetadata] *)
Definition bench_metadata (id : uint64) : FrameMetadata :=
  mkMetadata (mkKey id 0 0) PAYLOAD_BYTES 8 8 1.

(** [cudaMemsetAsync(pointer, value, bytes, stream)], the value in a byte. *)
Class MemsetDevice `{Platform} := {
  cudaMemsetValueAsync : ptr → N → N → ptr → world → cuda_status * world;
}.

Section benchmark.
Context `{MemsetDevice}.
(** The clock as a call reads it for a payload, to fill the cache or to hold a reader:
    when it began, at its first attempt and when it would begin to wait. *)
Context (clock : bool → uint64 → Z * Z * Z).
Implicit Types (c : GpuDataCache) (a : GpuDataAccess) (w : world).

(** [Caller::initialize]; its last member is the array of its results. *)
Definition Caller_initialize (gpuId : Z) (iterations : size_t) w : option GpuCacheRequest * world :=
  let '(resized, w) := host_alloc iterations w in
  if negb resized then (None, w)
  else
    let '(status, stream, w) := cudaStreamCreate w in
    if negb (cuda_ok status) then (None, w)
    else
      let '(status, d, w) := cudaMalloc PAYLOAD_BYTES w in
      if negb (cuda_ok status) then (None, w) else (Some (mkRequest gpuId stream d PAYLOAD_BYTES), w).

(** *** A fill *)

(** [fill] up to the access it gets, and the same call for a reader to hold. *)
Definition fill_begin (holding : bool) (request : GpuCacheRequest) (id : uint64) c :
    option (LookupResult * GpuDataCache) :=
  let '(started, now, waitStarted) := clock holding id in
  getCacheData (bench_metadata id) request started now waitStarted c.

(** The rest, the access's destructor included, which has work to do only where the
    access is not a fill. *)
Definition fill_end (id : uint64) a c w : option (bool * GpuDataCache * world) :=
  if negb (status_eqb (accessStatus a) CacheFill) then
    '(c, w) ← access_destruct a c w; Some (false, c, w)
  else
    let '(status, w) := cudaMemsetValueAsync (writableData a) (N.land id 255) PAYLOAD_BYTES (stream a) w in
    '(result, a, c, w) ← freeCacheData a (cuda_ok status) Keep c w;
    '(c, w) ← access_destruct a c w;
    Some (result : bool, c, w).

(** A call alone in the cache; one that sleeps does not return. *)
Definition fill_alone (request : GpuCacheRequest) (id : uint64) c w : option (bool * GpuDataCache * world) :=
  '(r, c) ← fill_begin false request id c;
  match r with Returned a => fill_end id a c w | Sleeping _ => None end.

(** *** Before the workers *)

(** The callers, one more than the workers; the first keeps no results. *)
Fixpoint makeCallers (n : nat) (first : bool) (gpuId : Z) (iterations : size_t) w : option (list GpuCacheRequest) * world :=
  match n with
  | O => (Some [], w)
  | S n =>
      let '(made, w) := host_alloc 1 w in
      if negb made then (None, w)
      else
        let '(request, w) := Caller_initialize gpuId (if first then 0 else iterations) w in
        match request with
        | None => (None, w)
        | Some request =>
            let '(rest, w) := makeCallers n false gpuId iterations w in
            (cons request <$> rest, w)
        end
  end.

(** The loop that fills the cache with the payloads from [next]. *)
Fixpoint prefill (n : nat) (next : uint64) (request : GpuCacheRequest) c w : option (bool * GpuDataCache * world) :=
  match n with
  | O => Some (true, c, w)
  | S n =>
      '(ok, c, w) ← fill_alone request next c w;
      if negb ok then Some (false, c, w) else prefill n (inc64 next) request c w
  end.

(** The loop that holds readers of the payloads from [next]. *)
Fixpoint hold (n : nat) (next : uint64) (request : GpuCacheRequest) (held : list GpuDataAccess) c :
    option (bool * list GpuDataAccess * GpuDataCache) :=
  match n with
  | O => Some (true, held, c)
  | S n =>
      '(r, c) ← fill_begin true request next c;
      match r with
      | Sleeping _ => None
      | Returned a =>
          let held := held ++ [a] in
          if negb (status_eqb (accessStatus a) CacheHit) then Some (false, held, c)
          else hold n (inc64 next) request held c
      end
  end.

(** *** The machine *)

(** Where a worker is: created; at the head of its loop for the [n]th payload, of the
    measurement or of the warm-up; with an access for it; asleep in the cache; about
    to enter the gate; waiting there; returned. *)
Inductive BenchPoint :=
  | BenchCreated (numaReady : bool)
  | Asking (measured : bool) (n : size_t)
  | Filling (measured : bool) (n : size_t) (access : GpuDataAccess)
  | Blocked (pending : PendingRequest)
  | Arriving (ready : bool)
  | AwaitingStart (ready : bool)
  | BenchFinished (succeeded : bool).

(** Where the thread of [measure] is after the setup: it creates the workers, waits
    for them at the gate, joins them; an exception, or a verdict against the
    measurement, ends it; it returns the held accesses; it has returned. *)
Inductive BenchOwner :=
  | Spawning
  | AwaitingReady
  | JoiningWorkers (thrown : bool)
  | Rejected
  | Closing
  | Closed (released : bool).

Record Bench := mkBench {
  bench_cache : GpuDataCache;
  bench_world : world;
  bench_held : list GpuDataAccess;
  bench_workers : list BenchPoint;
  gate_ready : size_t;
  gate_start : bool;
  bench_before : CacheStatistics;
  bench_owner : BenchOwner;
}.

(** [measure] up to its threads, for a cache at [this]: the callers' requests and
    where the machine begins, or an exception. *)
Definition measure_setup (this : ptr) (gpuId : Z) (policy : CacheEvictionPolicy) (b : BenchArguments) w :
    option (option (list GpuCacheRequest * Bench)) :=
  '(ok, c, w) ← initialize (GpuDataCache_default this) [gpuId] PAYLOAD_BYTES (bench_capacity b) 0 policy w;
  if negb ok then Some None
  else
    let '(requests, w) := makeCallers (S (N.to_nat (bench_workerCount b))) true gpuId (bench_iterations b) w in
    match requests with
    | None => Some None
    | Some requests =>
        first ← head requests;
        '(ok, c, w) ← prefill (N.to_nat (bench_capacity b)) 1 first c w;
        if negb ok then Some None
        else
          let '(reserved, w) := host_alloc (bench_heldCount b) w in
          if negb reserved then Some None
          else
            '(ok, held, c) ← hold (N.to_nat (bench_heldCount b)) 1 first [] c;
            if negb ok then Some None
            else
              let '(reserved, w) := host_alloc (bench_workerCount b) w in
              if negb reserved then Some None
              else Some (Some (requests, mkBench c w held [] 0 false CacheStatistics_default Spawning))
    end.

(** The payloads of worker [i]. *)
Definition firstId (b : BenchArguments) (i : size_t) : uint64 :=
  add64 (add64 (bench_capacity b) 1) (mul64 i (add64 WARMUP_REQUESTS (bench_iterations b))).
Definition bench_id (b : BenchArguments) (i : size_t) (measured : bool) (n : size_t) : uint64 :=
  if measured then add64 (add64 (firstId b i) WARMUP_REQUESTS) n else add64 (firstId b i) n.

(** One operation of worker [i], at [point]; [ready] and [start] are the gate's. *)
Definition bench_worker_step (gpuId : Z) (b : BenchArguments) (request : GpuCacheRequest) (i : size_t) (point : BenchPoint)
    (ready : size_t) (start : bool) c w : option (BenchPoint * size_t * GpuDataCache * world) :=
  match point with
  | BenchCreated numaReady =>
      let '(status, w) := cudaSetDevice gpuId w in
      Some (if numaReady && cuda_ok status then Asking false 0 else Arriving false, ready, c, w)
  | Asking measured n =>
      if n <? (if measured then bench_iterations b else WARMUP_REQUESTS) then
        '(r, c) ← fill_begin false request (bench_id b i measured n) c;
        Some (match r with Returned a => Filling measured n a | Sleeping p => Blocked p end, ready, c, w)
      else Some (if measured then BenchFinished true else Arriving true, ready, c, w)
  | Filling measured n a =>
      '(ok, c, w) ← fill_end (bench_id b i measured n) a c w;
      Some (if ok : bool then Asking measured (inc64 n)
            else if measured then BenchFinished false else Arriving false, ready, c, w)
  | Blocked p => Some (Blocked p, ready, c, w)
  | Arriving ok => Some (AwaitingStart ok, inc64 ready, c, w)
  | AwaitingStart ok =>
      Some (if start then if ok then Asking true 0 else BenchFinished false else AwaitingStart ok, ready, c, w)
  | BenchFinished ok => Some (BenchFinished ok, ready, c, w)
  end.

Definition is_finished (point : BenchPoint) : bool := match point with BenchFinished _ => true | _ => false end.
Definition has_succeeded (point : BenchPoint) : bool := match point with BenchFinished ok => ok | _ => false end.

(** What [measure] requires of the statistics. *)
Definition only_replacements (requests : size_t) (before after : CacheStatistics) : bool :=
  (sub64 (stat_fill after) (stat_fill before) =? requests)
  && (sub64 (stat_fillSucceeded after) (stat_fillSucceeded before) =? requests)
  && (sub64 (stat_eviction after) (stat_eviction before) =? requests)
  && (stat_fallback after =? 0) && (stat_invalid after =? 0).

(** The loop that returns the held accesses; it stops at the first failure. *)
Fixpoint return_held (held : list GpuDataAccess) c w : option (bool * list GpuDataAccess * GpuDataCache * world) :=
  match held with
  | [] => Some (true, [], c, w)
  | a :: held =>
      '(ok, a, c, w) ← freeCacheData a true Keep c w;
      if negb (ok : bool) then Some (false, a :: held, c, w)
      else '(ok, held, c, w) ← return_held held c w; Some (ok, a :: held, c, w)
  end.

(** One operation of [measure]; [created] and [numaReady] say whether the next
    thread can be created, and placed.  An owner that waits stays. *)
Definition bench_owner_step (b : BenchArguments) (created numaReady : bool) (s : Bench) : option Bench :=
  let 'mkBench c w held ws ready start before owner := s in
  match owner with
  | Spawning =>
      if vsize ws <? bench_workerCount b then
        if created then Some (mkBench c w held (ws ++ [BenchCreated numaReady]) ready start before Spawning)
        else Some (mkBench c w held ws ready true before (JoiningWorkers true))
      else Some (mkBench c w held ws ready start before AwaitingReady)
  | AwaitingReady =>
      if ready =? bench_workerCount b
      then Some (mkBench c w held ws ready true (statistics c) (JoiningWorkers false))
      else Some s
  | JoiningWorkers thrown =>
      if forallb is_finished ws then
        let requests := mul64 (bench_workerCount b) (bench_iterations b) in
        if thrown || negb (only_replacements requests before (statistics c))
        then Some (mkBench c w held ws ready start before Rejected)
        else
          let '(reserved, w) := host_alloc requests w in
          Some (mkBench c w held ws ready start before
                  (if reserved && forallb has_succeeded ws then Closing else Rejected))
      else Some s
  | Closing =>
      '(returned, held, c, w) ← return_held held c w;
      if negb returned then Some (mkBench c w held ws ready start before Rejected)
      else
        let '(released, c, w) := release c w in
        Some (mkBench c w held ws ready start before (Closed released))
  | Rejected => Some s
  | Closed _ => Some s
  end.

Inductive bench_action :=
  | BenchOwnerStep (created numaReady : bool)
  | BenchWorkerStep (worker : nat).

Definition bench_perform (gpuId : Z) (b : BenchArguments) (requests : list GpuCacheRequest) (s : Bench) (act : bench_action) :
    option Bench :=
  match act with
  | BenchOwnerStep created numaReady => bench_owner_step b created numaReady s
  | BenchWorkerStep i =>
      let 'mkBench c w held ws ready start before owner := s in
      match ws !! i with
      | None => Some s
      | Some point =>
          request ← requests !! S i;
          '(point, ready, c, w) ← bench_worker_step gpuId b request (N.of_nat i) point ready start c w;
          Some (mkBench c w held (<[i := point]> ws) ready start before owner)
      end
  end.

(** *** The way out *)

(** [Caller::~Caller] *)
Definition Caller_destruct (request : GpuCacheRequest) w : world :=
  let stream := request_stream request in
  let fallback := request_d_fallback request in
  let w := if negb (stream =? nullptr) then snd (cudaStreamSynchronize stream w) else w in
  let w := if negb (fallback =? nullptr) then snd (cudaFree fallback w) else w in
  if negb (stream =? nullptr) then snd (cudaStreamDestroy stream w) else w.

Fixpoint held_destruct (held : list GpuDataAccess) c w : option (GpuDataCache * world) :=
  match held with
  | [] => Some (c, w)
  | a :: held => '(c, w) ← access_destruct a c w; held_destruct held c w
  end.

(** The destructors of [measure] once its threads are joined, whether it returns or
    throws: the held accesses, the callers, the cache. *)
Definition measure_leave (requests : list GpuCacheRequest) (s : Bench) : option world :=
  '(c, w) ← held_destruct (bench_held s) (bench_cache s) (bench_world s);
  let w := foldl (λ w request, Caller_destruct request w) w requests in
  let '(_, _, w) := release c w in Some w.

End benchmark.

(** ** The programs *)

(** What a program calls: the manager is initialized; a thread is created and placed
    on the node; the calls of that program; the manager is shut down. *)
Inductive program_call (work : Type) :=
  | ManagerInit
  | PlaceThread (numaNode : Z)
  | Work (call : work)
  | ManagerShutdown.
Arguments ManagerInit {work}.
Arguments PlaceThread {work} numaNode.
Arguments Work {work} call.
Arguments ManagerShutdown {work}.

Section programs.
Context {work : Type}.
(** The answer to a call, after those made before it; a call that throws answers no. *)
Context (env : list (program_call work) → program_call work → bool).

(** The calls of a program's thread, up to the first that fails. *)
Fixpoint workAll (calls : list work) (h : list (program_call work)) : bool * list (program_call work) :=
  match calls with
  | [] => (true, h)
  | call :: calls => if env h (Work call) then workAll calls (h ++ [Work call]) else (false, h ++ [Work call])
  end.

(** Both programs after their arguments: the exit code, and the calls. *)
Definition runProgram (locations : list GpuLocation) (calls : GpuLocation → list work) : Z * list (program_call work) :=
  if negb (env [] ManagerInit) then (1%Z, [ManagerInit])
  else
    let h := [ManagerInit] in
    let '(ok, h) :=
      match locations with
      | [] => (false, h)
      | location :: _ =>
          let place := PlaceThread (location_numaNode location) in
          if env h place then workAll (calls location) (h ++ [place]) else (false, h ++ [place])
      end in
    (if ok then 0%Z else 1%Z, h ++ [ManagerShutdown]).

End programs.

(** The thread of the eviction policies' benchmark: the device, what the log says of
    it, and the measurements. *)
Inductive PolicyCall :=
  | SetDevice (gpuId : Z)
  | GetDeviceProperties (gpuId : Z)
  | RuntimeGetVersion
  | DriverGetVersion
  | Measure (location : GpuLocation) (policy : CacheEvictionPolicy) (b : BenchArguments) (number : size_t).

Definition policyCalls (b : BenchArguments) (location : GpuLocation) : list PolicyCall :=
  [SetDevice (location_gpuId location); GetDeviceProperties (location_gpuId location); RuntimeGetVersion; DriverGetVersion]
  ++ ((λ '(policy, number), Measure location policy b number) <$> measurements b).

Definition policyMain (env : list (program_call PolicyCall) → program_call PolicyCall → bool)
    (args : list (list ascii)) (locations : list GpuLocation) : Z * list (program_call PolicyCall) :=
  match parseArguments args with None => (2%Z, []) | Some b => runProgram env locations (policyCalls b) end.

(** The arguments of the result pipeline's benchmark: a configuration, the delay in
    it, and the repeats. *)
Definition parsePipelineArguments (args : list (list ascii)) : option (PipelineConfig * size_t) :=
  match args with
  | [entries; inFlight; frames; bytes; cpuStages; delay; repeats] =>
      entries ← parseSize entries;
      inFlight ← parseSize inFlight;
      frames ← parseSize frames;
      bytes ← parseSize bytes;
      cpuStages ← parseSize cpuStages;
      delay ← parseSize delay;
      repeats ← parseSize repeats;
      if (100000 <? delay) || (repeats =? 0) || (20 <? repeats) then None
      else
        let default := PipelineConfig_default in
        Some (mkPipelineConfig frames entries inFlight bytes cpuStages (Z.of_N delay) (cfg_cacheWait default)
                (cfg_policy default) (cfg_retention default), repeats)
  | _ => None
  end.

(** Its calls of [runPipeline]: one to warm up, then every combination of policy and
    retention in each repeat, beginning with the next one each time. *)
Definition warmupConfig (c : PipelineConfig) : PipelineConfig :=
  mkPipelineConfig 16 (cfg_entries c) (cfg_inFlight c) (cfg_bytes c) (cfg_cpuStages c) 0 (cfg_cacheWait c)
    (cfg_policy c) (cfg_retention c).
Definition combine (combination : size_t) (c : PipelineConfig) : PipelineConfig :=
  mkPipelineConfig (cfg_frames c) (cfg_entries c) (cfg_inFlight c) (cfg_bytes c) (cfg_cpuStages c) (cfg_cpuDelay c)
    (cfg_cacheWait c) (if combination <? 2 then LRU else FIFO) (if combination mod 2 =? 0 then Keep else Discard).
Definition pipelineCalls (c : PipelineConfig) (repeats : size_t) (location : GpuLocation) : list (Z * PipelineConfig) :=
  (location_numaNode location, warmupConfig c)
  :: (repeat ← N.of_nat <$> seq 0 (N.to_nat repeats);
      order ← [0; 1; 2; 3];
      mret (location_numaNode location, combine ((repeat + order) mod 4) c)).

Definition pipelineMain (env : list (program_call (Z * PipelineConfig)) → program_call (Z * PipelineConfig) → bool)
    (args : list (list ascii)) (locations : list GpuLocation) : Z * list (program_call (Z * PipelineConfig)) :=
  match parsePipelineArguments args with
  | None => (2%Z, [])
  | Some (c, repeats) => runProgram env locations (pipelineCalls c repeats)
  end.
