(* ===== verification/BenchmarkBehaviour.v ===== *)
(** What the benchmark of the eviction policies measures: with the numbers its command
    line accepts, and a machine that answers its calls, every request of every
    worker replaces an old payload, in any order of the workers' operations, so that
    its verdict on the statistics never rejects a measurement.  And that it ends: on any
    machine, whichever threads cannot be created or placed, until [measure] has
    returned or thrown one of its threads does not wait, and then all of them have
    finished. *)
From Stdlib Require Import Ascii.
From S2P Require Import Prelude.
From S2P Require Import Platform.
From S2P Require Import GpuDataKey.
From S2P Require Import GpuResidencyTable.
From S2P Require Import CacheTypes.
From S2P Require Import GpuDataCache.
From S2P Require Import GpuDataAccess.
From S2P Require Import CacheLifecycle.
From S2P Require Import CacheSpec.
From S2P Require Import CacheRefinement.
From S2P Require Import CacheCriticalSections.
From S2P Require Import CacheLookup.
From S2P Require Import CacheCompletion.
From S2P Require Import CacheLeases.
From S2P Require Import CacheLifetime.
From S2P Require Import CacheProtocol.
From S2P Require Import CacheAccounting.
From S2P Require Import CacheFailure.
From S2P Require Import GpuTopology.
From S2P Require Import Benchmarks.
#[local] Open Scope N_scope.

(** ** A directory only the benchmark uses *)

Implicit Types (d : Directory) (a : GpuDataAccess).

(** [free] cells are free, [fills] fills were begun, [completed] published, and
    [evicted] took an old payload's cell; every key in the cache was [issued]. *)
Record bench_dir (gpu : Z) (capacity free fills completed evicted : N) (issued : GpuDataKey → Prop)
    (lv : list GpuDataAccess) d : Prop := {
  bd_wf : wf d;
  bd_agree : agree d lv [];
  bd_plain : d_failed d = false ∧ d_waitTimeout d = 0%Z ∧ d_gpu d = gpu ∧ d_bytes d = 64 ∧ (0 ≤ gpu)%Z;
  bd_size : vsize (d_cells d) = capacity;
  bd_free : vsize (d_free d) = free;
  bd_stats : stat_fill (d_stats d) = fills ∧ stat_fillSucceeded (d_stats d) = completed
    ∧ stat_eviction (d_stats d) = evicted ∧ stat_fallback (d_stats d) = 0 ∧ stat_invalid (d_stats d) = 0;
  bd_keys k i : d_index d !! k = Some i → issued k;
}.

Lemma bench_dir_weaken gpu capacity free fills completed evicted (issued issued' : GpuDataKey → Prop) lv lv' d :
  lv ≡ₚ lv' → (∀ k, issued k → issued' k) →
  bench_dir gpu capacity free fills completed evicted issued lv d →
  bench_dir gpu capacity free fills completed evicted issued' lv' d.
Proof. intros Hp Hi [? ? ? ? ? ? Hk]. split; try done; [by eapply agree_perm|]. intros k i ?%Hk. by apply Hi. Qed.

(** Where nothing is free, a cell that no access leases can be taken. *)
Lemma idle_cell d lv :
  wf d → agree d lv [] → d_free d = [] → vsize lv < vsize (d_cells d) → d_lru d ≠ [].
Proof.
  intros Hwf Hag Hfree Hlt Hlru.
  assert (∀ i, i < vsize (d_cells d) → i ∈ entryIndex <$> lv) as Hall.
  { intros i [[q u] Hq]%vat_exists. pose proof (use_at_vat _ _ _ _ Hq) as Hu.
    pose proof (agree_readers _ _ _ Hag i) as Hr. pose proof (agree_fills _ _ _ Hag i) as Hf.
    rewrite Hu in Hr, Hf. apply list_elem_of_fmap. destruct u as [|md|md readers discard].
    - apply (wf_free _ Hwf) in Hu. rewrite Hfree in Hu. by apply elem_of_nil in Hu.
    - destruct (tally_pos (leases_of CacheFill i) lv) as (a & Ha & [_ ?]%leases_of_spec); [|by exists a].
      unfold fills_of in Hf. rewrite Hf. done.
    - destruct (decide (readers = 0)) as [->|Hne].
      + assert (i ∈ d_lru d) as Hin by (apply (wf_lru _ Hwf); by exists md, discard).
        rewrite Hlru in Hin. by apply elem_of_nil in Hin.
      + destruct (tally_pos (leases_of CacheHit i) lv) as (a & Ha & [_ ?]%leases_of_spec); [|by exists a].
        unfold readers_of in Hr. by rewrite Hr. }
  assert ((N.of_nat <$> seq 0 (length (d_cells d))) ⊆+ (entryIndex <$> lv)) as Hsub.
  { apply NoDup_submseteq.
    - apply NoDup_fmap; [by intros ? ? ?%Nat2N.inj|apply NoDup_seq].
    - intros i (n & -> & [_ Hn]%elem_of_seq)%list_elem_of_fmap. apply Hall. unfold vsize. lia. }
  apply submseteq_length in Hsub. rewrite !length_fmap, length_seq in Hsub. unfold vsize in Hlt. lia.
Qed.

Lemma victim_exists d lv :
  wf d → agree d lv [] → (0 < vsize (d_free d) ∨ vsize lv < vsize (d_cells d)) →
  ∃ i q u, victim d = Some (i, negb (vsize (d_free d) =? 0)) ∧ vat (d_cells d) i = Some (mkCell q u)
    ∧ (0 < vsize (d_free d) → u = Free).
Proof.
  intros Hwf Hag Hor. unfold victim. destruct (last (d_free d)) as [i|] eqn:Hlast.
  - assert (i ∈ d_free d) as Hin by (by apply list_elem_of_In, last_Some_In || (apply last_Some in Hlast as [l' ->]; apply elem_of_app; right; by left)).
    pose proof Hin as Hu%(wf_free _ Hwf). destruct (use_at_Some _ _ _ Hu) as [q Hq]. exists i, q, Free. split; [|done].
    destruct (d_free d); [by apply elem_of_nil in Hin|]. by rewrite (proj2 (N.eqb_neq _ _)) by (rewrite vsize_cons; lia).
  - apply last_None in Hlast. rewrite Hlast in *. unfold vsize at 1 in Hor. simpl in Hor.
    assert (d_lru d ≠ []) as Hlru by (apply (idle_cell d lv); try done; by destruct Hor).
    assert (∃ i, (if policy_eqb (d_policy d) FIFO then head (filter (λ i, is_idle d i = true) (d_fifo d)) else head (d_lru d))
      = Some i ∧ is_idle d i = true) as (i & -> & Hi).
    { destruct (d_lru d) as [|j l] eqn:Hl; [done|].
      assert (is_idle d j = true) as Hj by (apply is_idle_lru; [done|]; rewrite Hl; by left).
      destruct (policy_eqb (d_policy d) FIFO) eqn:Hp; [|by exists j].
      assert (j ∈ filter (λ i, is_idle d i = true) (d_fifo d)) as Hin.
      { apply list_elem_of_filter. split; [done|]. apply (wf_fifo _ Hwf). split; [by apply policy_eqb_FIFO|].
        assert (j ∈ d_lru d) as (md & discard & Hu)%(wf_lru _ Hwf) by (rewrite Hl; by left). by exists md, 0, discard. }
      destruct (filter _ _) as [|i rest] eqn:Hfilter; [by apply elem_of_nil in Hin|]. exists i. split; [done|].
      assert (i ∈ filter (λ i, is_idle d i = true) (d_fifo d)) as [? _]%list_elem_of_filter by (rewrite Hfilter; by left). done. }
    unfold is_idle in Hi. destruct (use_at d i) as [u|] eqn:Hu; [|done]. destruct (use_at_Some _ _ _ Hu) as [q Hq].
    exists i, q, u. split_and!; [done..|]. unfold vsize. simpl. lia.
Qed.

(** A request the cache accepts from the benchmark. *)
Definition good_request (gpu : Z) (request : GpuCacheRequest) : Prop :=
  request_gpuId request = gpu ∧ request_stream request ≠ nullptr ∧ request_d_fallback request ≠ nullptr
  ∧ request_fallbackBytes request = 64.

Lemma good_request_valid gpu request id d :
  good_request gpu request → d_gpu d = gpu → d_bytes d = 64 → (0 ≤ gpu)%Z →
  valid_request (bench_metadata id) request d = true.
Proof.
  intros (Hg & Hs & Hf & Hb) Hdg Hdb Hpos. unfold valid_request, bench_metadata, PAYLOAD_BYTES. simpl.
  rewrite Hg, Hdg, Hdb, Hb, Z.eqb_refl. rewrite (proj2 (N.eqb_neq _ _) Hs), (proj2 (N.eqb_neq _ _) Hf).
  by rewrite (proj2 (Z.leb_le _ _) Hpos).
Qed.

(** What taking a cell changes. *)
Lemma reserve_fields d i wasEmpty md q u :
  vat (d_cells d) i = Some (mkCell q u) →
  let d' := reserve i wasEmpty md d in
  d_index d' = <[md_key md := i]> (d_index (take_victim i wasEmpty d))
  ∧ d_free d' = (if wasEmpty then removelast (d_free d) else d_free d)
  ∧ (d_failed d' = d_failed d ∧ d_waitTimeout d' = d_waitTimeout d)
  ∧ stat_fill (d_stats d') = inc64 (stat_fill (d_stats d))
  ∧ stat_fillSucceeded (d_stats d') = stat_fillSucceeded (d_stats d)
  ∧ stat_eviction (d_stats d') = (if wasEmpty then stat_eviction (d_stats d) else inc64 (stat_eviction (d_stats d)))
  ∧ stat_fallback (d_stats d') = stat_fallback (d_stats d) ∧ stat_invalid (d_stats d') = stat_invalid (d_stats d).
Proof.
  intros Hq d'. unfold d', reserve. rewrite (set_use_cells _ i q u) by (simpl; by rewrite take_victim_cells).
  by destruct wasEmpty.
Qed.

Lemma take_victim_index d i wasEmpty k j :
  d_index (take_victim i wasEmpty d) !! k = Some j → d_index d !! k = Some j.
Proof.
  unfold take_victim. destruct wasEmpty; [done|]. simpl.
  destruct (use_at d i) as [u|]; [|done]. destruct (resident_md u) as [md|]; [|done]. by intros [_ ?]%lookup_delete_Some.
Qed.

(** Payload [id] is being filled through [a]; it is in the cache. *)
Definition loading d (id : N) a : Prop :=
  d_index d !! mkKey id 0 0 = Some (entryIndex a)
  ∧ vat (d_cells d) (entryIndex a) = Some (mkCell (d_data a) (Reserved (bench_metadata id))).
Definition published d (id : N) : Prop :=
  ∃ i q readers, d_index d !! mkKey id 0 0 = Some i
    ∧ vat (d_cells d) i = Some (mkCell q (Ready (bench_metadata id) readers false)).

(** A request for a new payload takes a free cell or an idle one. *)
Lemma request_takes gpu capacity free fills completed evicted issued lv d request id started now waitStarted :
  bench_dir gpu capacity free fills completed evicted issued lv d → good_request gpu request →
  (0 < free ∨ vsize lv < capacity) → ¬ issued (mkKey id 0 0) →
  ∃ i q u, vat (d_cells d) i = Some (mkCell q u) ∧ (0 < free → u = Free)
    ∧ request_access (bench_metadata id) request started now waitStarted d
      = (Returned (lease i q (bench_metadata id) request CacheFill d), reserve i (negb (free =? 0)) (bench_metadata id) d).
Proof.
  intros [Hwf Hag (Hok & Hwait & Hgpu & Hbytes & Hpos) Hsize Hfree Hstats Hkeys] Hreq Hroom Hnew.
  destruct (victim_exists d lv Hwf Hag) as (i & q & u & Hv & Hq & Hu); [by rewrite Hfree, Hsize|].
  pose proof (good_request_valid gpu request id d Hreq Hgpu Hbytes Hpos) as Hvalid.
  rewrite Hfree in Hu, Hv. exists i, q, u. split_and!; [done..|].
  unfold request_access, attempt. rewrite Hok, Hvalid. cbn [negb andb new_request pending_metadata pending_request].
  cbn [md_key bench_metadata]. destruct (d_index d !! mkKey id 0 0) as [j|] eqn:Hj; [by apply Hkeys in Hj|].
  by rewrite Hv, Hq.
Qed.

Lemma new_payload_fills gpu capacity free fills completed evicted issued lv d request id started now waitStarted :
  bench_dir gpu capacity free fills completed evicted issued lv d → good_request gpu request →
  (0 < free ∨ vsize lv < capacity) → ¬ issued (mkKey id 0 0) → vsize lv + 1 < two64 →
  fills + 1 < two64 → evicted + 1 < two64 →
  ∃ a d', request_access (bench_metadata id) request started now waitStarted d = (Returned a, d')
    ∧ accessStatus a = CacheFill ∧ stream a = request_stream request
    ∧ bench_dir gpu capacity (free - 1) (fills + 1) completed (if free =? 0 then evicted + 1 else evicted)
        (λ k, issued k ∨ k = mkKey id 0 0) (a :: lv) d'
    ∧ loading d' id a ∧ (0 < free → ∀ id', published d id' → published d' id').
Proof.
  intros Hd Hreq Hroom Hnew Hlen Hmaxf Hmaxe.
  destruct (request_takes _ _ _ _ _ _ _ _ _ request id started now waitStarted Hd Hreq Hroom Hnew) as (i & q & u & Hq & Hu & Hrun).
  destruct Hd as [Hwf Hag (Hok & Hwait & Hgpu & Hbytes & Hpos) Hsize Hfree (Hfi & Hco & Hev & Hfb & Hin) Hkeys].
  pose proof (request_access_agree (bench_metadata id) request started now waitStarted d lv [] Hwf Hag Hlen ltac:(done)) as Hag'.
  pose proof (request_access_wf (bench_metadata id) request started now waitStarted d Hwf ltac:(by eapply agree_reader_room)) as Hwf'.
  cbn zeta in Hag'. rewrite Hrun in Hag', Hwf'. cbn [fst snd granted sleeping] in Hag', Hwf'.
  assert (access_bool (lease i q (bench_metadata id) request CacheFill d) = true) as Hbool.
  { unfold access_bool. simpl. by rewrite (proj2 (N.eqb_neq _ _) (agree_self _ _ _ Hag)). }
  rewrite Hbool in Hag'. eexists _, _. split; [done|]. split; [done|]. split; [done|].
  pose proof (reserve_frame d i (negb (free =? 0)) (bench_metadata id) q u Hq) as (_ & Hg & Hb & _ & _ & Hcells).
  pose proof (reserve_fields d i (negb (free =? 0)) (bench_metadata id) q u Hq)
    as (Hindex & Hfree' & (Hfail' & Hwait') & Hfi' & Hco' & Hev' & Hfb' & Hin').
  set (d' := reserve i (negb (free =? 0)) (bench_metadata id) d) in *. split; [|split].
  - split; [done|done| | | | |].
    + by rewrite Hfail', Hwait', Hg, Hb.
    + by rewrite Hcells, vsize_vset.
    + rewrite Hfree'. destruct (N.eqb_spec free 0) as [->|Hne]; cbn [negb]; [done|].
      rewrite <-Hfree in *. destruct (d_free d) as [|x l _] using rev_ind; [done|].
      rewrite removelast_last. unfold vsize. rewrite length_app. simpl. lia.
    + rewrite Hfi', Hco', Hev', Hfb', Hin', Hfi, Hev, !inc64_small by done. by destruct (free =? 0).
    + intros k j. rewrite Hindex. destruct (decide (k = mkKey id 0 0)) as [->|Hne]; [by right|].
      rewrite lookup_insert_ne by done. intros Hj%take_victim_index. left. by eapply Hkeys.
  - split; [by rewrite Hindex, lookup_insert_eq|]. by rewrite Hcells, vat_vset_eq by (by eapply vat_lt).
  - intros Hpos' id' (j & q' & readers & Hj & Hq'). specialize (Hu Hpos'). subst u. exists j, q', readers. split.
    + rewrite Hindex, (proj2 (N.eqb_neq _ _)) by lia. simpl. rewrite lookup_insert_ne; [done|].
      intros [= ->]. apply Hnew. by eapply Hkeys.
    + rewrite Hcells, vat_vset_ne; [done|]. intros ->. by rewrite Hq in Hq'.
Qed.

(** The fill is published. *)
Lemma completion_fields d a md :
  accessStatus a = CacheFill → vat (d_cells d) (entryIndex a) = Some (mkCell (d_data a) (Reserved md)) →
  let d' := end_access a true false d in
  (d_failed d' = d_failed d ∧ d_waitTimeout d' = d_waitTimeout d ∧ d_gpu d' = d_gpu d ∧ d_bytes d' = d_bytes d)
  ∧ d_free d' = d_free d ∧ d_index d' = d_index d
  ∧ d_stats d' = set_field stat_fillSucceeded inc64 (d_stats d)
  ∧ d_cells d' = vset (d_cells d) (entryIndex a) (mkCell (d_data a) (Ready md 0 false)).
Proof.
  intros Hst Hq d'. destruct (finish_fill_frame d _ _ _ true false Hq) as (_ & _ & _ & _ & _ & Hcells).
  unfold d', end_access. rewrite Hst. split_and!; try done.
  all: unfold finish_fill; rewrite (use_at_vat _ _ _ _ Hq); unfold make_evictable, make_filled;
    rewrite (set_use_cells _ _ _ _ (Ready md 0 false) Hq); simpl; by destruct (policy_eqb _ _).
Qed.

Lemma completion_publishes gpu capacity free fills completed evicted issued lv d a :
  bench_dir gpu capacity free fills completed evicted issued (a :: lv) d → accessStatus a = CacheFill →
  completed + 1 < two64 →
  bench_dir gpu capacity free fills (completed + 1) evicted issued lv (end_access a true false d).
Proof.
  intros [Hwf Hag Hplain Hsize Hfree (Hfi & Hco & Hev & Hfb & Hin) Hkeys] Hst Hmax.
  pose proof (agree_holds _ _ _ a Hag ltac:(left)) as Hholds.
  pose proof (end_access_wf d a true false Hwf Hholds) as Hwf'.
  pose proof (end_access_agree d a lv [] true false Hwf Hag) as Hag'.
  destruct Hholds as (_ & _ & _ & Hm). rewrite Hst in Hm. destruct Hm as (md & Hq & _).
  destruct (completion_fields d a md Hst Hq) as ((H1 & H2 & H3 & H4) & H5 & H6 & H7 & Hcells).
  split; [done|done| | | | |].
  - by rewrite H1, H2, H3, H4.
  - by rewrite Hcells, vsize_vset.
  - by rewrite H5.
  - rewrite H7. simpl. rewrite Hco, inc64_small by done. done.
  - rewrite H6. done.
Qed.

Lemma completion_keeps d a id id' :
  accessStatus a = CacheFill → loading d id a →
  published (end_access a true false d) id
  ∧ (published d id' → published (end_access a true false d) id').
Proof.
  intros Hst [Hi Hq]. destruct (completion_fields d a _ Hst Hq) as (_ & _ & Hindex & _ & Hcells).
  unfold published. rewrite Hindex, Hcells. split.
  - eexists _, _, _. split; [done|]. by rewrite vat_vset_eq by (by eapply vat_lt).
  - intros (j & q' & readers & Hj & Hq'). exists j, q', readers. split; [done|].
    rewrite vat_vset_ne; [done|]. intros <-. by rewrite Hq in Hq'.
Qed.

(** A reader of a payload in the cache is granted, and takes nothing away. *)
Lemma reader_granted gpu capacity free fills completed evicted issued lv d request id started now waitStarted :
  bench_dir gpu capacity free fills completed evicted issued lv d → good_request gpu request →
  vsize lv + 1 < two64 → published d id →
  ∃ a d', request_access (bench_metadata id) request started now waitStarted d = (Returned a, d')
    ∧ accessStatus a = CacheHit ∧ stream a = request_stream request
    ∧ bench_dir gpu capacity free fills completed evicted issued (a :: lv) d'
    ∧ (∀ id', published d id' → published d' id').
Proof.
  intros [Hwf Hag (Hok & Hwait & Hgpu & Hbytes & Hpos) Hsize Hfree Hstats Hkeys] Hreq Hlen (i & q & readers & Hi & Hq).
  pose proof (request_access_agree (bench_metadata id) request started now waitStarted d lv [] Hwf Hag Hlen ltac:(done)) as Hag'.
  pose proof (request_access_wf (bench_metadata id) request started now waitStarted d Hwf ltac:(by eapply agree_reader_room)) as Hwf'.
  pose proof (good_request_valid gpu request id d Hreq Hgpu Hbytes Hpos) as Hvalid.
  assert (request_access (bench_metadata id) request started now waitStarted d
    = (Returned (lease i q (bench_metadata id) request CacheHit d),
       set_use i (Ready (bench_metadata id) (inc64 readers) false)
         (bump stat_hit inc64 (d <| d_lru := IntrusiveList.unlink i (d_lru d) |>)))) as Hrun.
  { unfold request_access, attempt. rewrite Hok, Hvalid. cbn [negb andb new_request pending_metadata pending_request].
    cbn [md_key bench_metadata]. rewrite Hi, Hq. by rewrite decide_True. }
  cbn zeta in Hag'. rewrite Hrun in Hag', Hwf'. cbn [fst snd granted sleeping] in Hag', Hwf'.
  assert (access_bool (lease i q (bench_metadata id) request CacheHit d) = true) as Hbool.
  { unfold access_bool. simpl. by rewrite (proj2 (N.eqb_neq _ _) (agree_self _ _ _ Hag)). }
  rewrite Hbool in Hag'. eexists _, _. split; [done|]. split; [done|]. split; [done|].
  rewrite (set_use_cells _ i q (Ready (bench_metadata id) readers false)) in * by done. split.
  - split; try done. simpl. by rewrite vsize_vset.
  - intros id' (j & q' & r & Hj & Hq'). unfold published. simpl. destruct (decide (j = i)) as [->|Hne].
    + rewrite Hq in Hq'. injection Hq' as <- Hid <-. eexists i, q, _. split; [done|].
      rewrite vat_vset_eq by (by eapply vat_lt). by rewrite Hid.
    + exists j, q', r. split; [done|]. by rewrite vat_vset_ne.
Qed.

(** ** The benchmark's operations on the cache *)

(** A machine on which the benchmark's calls succeed: the host has memory, work can
    be submitted, streams finish it, a device can be chosen, and a stream is not the
    null one. *)
Record ReliableMachine `{MemsetDevice} : Prop := {
  host_allocates n w : fst (host_alloc n w) = true;
  memset_submits p v n st w : cuda_ok (fst (cudaMemsetValueAsync p v n st w)) = true;
  stream_finishes st w : cuda_ok (fst (cudaStreamSynchronize st w)) = true;
  device_chosen gpu w : cuda_ok (fst (cudaSetDevice gpu w)) = true;
  stream_nonnull w status st w' : cudaStreamCreate w = (status, st, w') → cuda_ok status = true → st ≠ nullptr;
}.

(** The cache lays out such a directory. *)
Definition bench_laid `{Platform} (gpu : Z) (capacity free fills completed evicted : N) (issued : GpuDataKey → Prop)
    (lv : list GpuDataAccess) (c : GpuDataCache) : Prop :=
  ∃ d, represents c d ∧ bench_dir gpu capacity free fills completed evicted issued lv d.

(** An access to a payload being filled, on a stream that exists. *)
Definition open_fill (a : GpuDataAccess) : Prop := accessStatus a = CacheFill ∧ stream a ≠ nullptr.

Section operations.
Context `{PlatformLaws} `{!MemsetDevice} (clock : bool → uint64 → Z * Z * Z).
Context (Hmachine : ReliableMachine).
Implicit Types (c : GpuDataCache) (w : world).

Lemma bench_laid_statistics gpu capacity free fills completed evicted issued lv c :
  bench_laid gpu capacity free fills completed evicted issued lv c →
  stat_fill (statistics c) = fills ∧ stat_fillSucceeded (statistics c) = completed
  ∧ stat_eviction (statistics c) = evicted ∧ stat_fallback (statistics c) = 0 ∧ stat_invalid (statistics c) = 0.
Proof. intros (d & (_ & t & _ & ->) & Hd). apply Hd. Qed.

(** A call of the cache, by what the directory says. *)
Lemma lookup_run c d holding request id (P : GpuDataAccess → Directory → Prop) :
  represents c d →
  (∀ started now waitStarted, ∃ a d',
    request_access (bench_metadata id) request started now waitStarted d = (Returned a, d') ∧ P a d' ∧ wf d') →
  ∃ a c' d', fill_begin clock holding request id c = Some (Returned a, c') ∧ represents c' d' ∧ P a d'.
Proof.
  intros Hc Hrequest. unfold fill_begin. destruct (clock holding id) as [[started now] waitStarted].
  destruct (Hrequest started now waitStarted) as (a & d' & Hrun & Hp & Hwf).
  pose proof (getCacheData_refines (bench_metadata id) request started now waitStarted d (proj1 Hc)) as Href.
  rewrite Hrun in Href. destruct (represents_run _ _ _ _ _ Hc Href Hwf) as (c' & -> & Hc'). by exists a, c', d'.
Qed.

Lemma fill_begin_dir gpu capacity free fills completed evicted issued lv c d request id :
  represents c d → bench_dir gpu capacity free fills completed evicted issued lv d → good_request gpu request →
  (0 < free ∨ vsize lv < capacity) → ¬ issued (mkKey id 0 0) → vsize lv + 1 < two64 →
  fills + 1 < two64 → evicted + 1 < two64 →
  ∃ a c' d', fill_begin clock false request id c = Some (Returned a, c') ∧ represents c' d' ∧ open_fill a
    ∧ bench_dir gpu capacity (free - 1) (fills + 1) completed (if free =? 0 then evicted + 1 else evicted)
        (λ k, issued k ∨ k = mkKey id 0 0) (a :: lv) d'
    ∧ loading d' id a ∧ (0 < free → ∀ id', published d id' → published d' id').
Proof.
  intros Hc Hd Hreq Hroom Hnew Hlen Hf He. apply lookup_run with (d := d); [done|]. intros started now waitStarted.
  destruct (new_payload_fills _ _ _ _ _ _ _ _ _ request id started now waitStarted Hd Hreq Hroom Hnew Hlen Hf He)
    as (a & d' & Hrun & Hst & Hstream & Hd' & Hl & Hp).
  exists a, d'. split; [done|]. split; [|apply Hd'].
  split; [split; [done|rewrite Hstream; apply Hreq]|done].
Qed.

Lemma fill_end_dir gpu capacity free fills completed evicted issued lv c d id a w :
  represents c d → bench_dir gpu capacity free fills completed evicted issued (a :: lv) d → open_fill a →
  completed + 1 < two64 →
  ∃ c' w', fill_end id a c w = Some (true, c', w') ∧ represents c' (end_access a true false d)
    ∧ bench_dir gpu capacity free fills (completed + 1) evicted issued lv (end_access a true false d).
Proof using All.
  intros Hc Hd [Hst Hstream] Hmax. unfold fill_end. rewrite Hst. cbn [negb status_eqb].
  change (status_eqb CacheFill CacheFill) with true. cbn [negb].
  pose proof (memset_submits Hmachine (writableData a) (N.land id 255) PAYLOAD_BYTES (stream a) w) as Hok.
  destruct (cudaMemsetValueAsync _ _ _ _ _) as [status w1]. simpl in Hok. rewrite Hok.
  pose proof (agree_holds _ _ _ a (bd_agree _ _ _ _ _ _ _ _ _ Hd) ltac:(left)) as Hholds.
  assert (owner a ≠ nullptr) as Hown.
  { destruct Hholds as [-> _]. by eapply agree_self, bd_agree. }
  pose proof (stream_finishes Hmachine (stream a) w1) as Hsync.
  destruct (cudaStreamSynchronize (stream a) w1) as [status' w2] eqn:Hs. simpl in Hsync.
  destruct (freeCacheData_run c d a true Keep w1 status' w2 Hc Hholds Hown Hstream Hs) as (c' & -> & Hc' & _).
  rewrite Hsync in Hc' |- *. cbn in Hc' |- *. exists c', w2. split; [done|].
  unfold synchronized in Hc'. rewrite Hsync in Hc'. split; [done|]. by apply completion_publishes.
Qed.

(** A fill by the only thread. *)
Lemma fill_alone_run gpu capacity free fills completed evicted issued c d request id w :
  represents c d → bench_dir gpu capacity free fills completed evicted issued [] d → good_request gpu request →
  0 < free → ¬ issued (mkKey id 0 0) → fills + 1 < two64 → completed + 1 < two64 → evicted + 1 < two64 →
  ∃ c' w' d', fill_alone clock request id c w = Some (true, c', w') ∧ represents c' d'
    ∧ bench_dir gpu capacity (free - 1) (fills + 1) (completed + 1) evicted (λ k, issued k ∨ k = mkKey id 0 0) [] d'
    ∧ published d' id ∧ (∀ id', published d id' → published d' id').
Proof using All.
  intros Hc Hd Hreq Hfree Hnew Hf Hco He. unfold fill_alone.
  destruct (fill_begin_dir _ _ _ _ _ _ _ [] c d request id Hc Hd Hreq ltac:(by left) Hnew ltac:(done) Hf He)
    as (a & c1 & d1 & -> & Hc1 & Ha & Hd1 & Hl & Hp). cbn [mbind option_bind].
  rewrite (proj2 (N.eqb_neq free 0)) in Hd1 by lia.
  destruct (fill_end_dir _ _ _ _ _ _ _ _ _ _ id a w Hc1 Hd1 Ha Hco) as (c2 & w2 & -> & Hc2 & Hd2).
  eexists c2, w2, _. split_and!; [done..| |].
  - exact (proj1 (completion_keeps d1 a id id (proj1 Ha) Hl)).
  - intros id' Hid'. by apply (proj2 (completion_keeps d1 a id id' (proj1 Ha) Hl)), Hp.
Qed.

(** The payloads whose numbers are below [n]. *)
Definition ids_below (n : N) (k : GpuDataKey) : Prop := ∃ id, k = mkKey id 0 0 ∧ id < n.

(** The loop that fills the cache fills it. *)
Lemma prefill_run gpu capacity n next request c d w :
  represents c d → capacity ≤ 65536 → 1 ≤ next → next + N.of_nat n = capacity + 1 →
  bench_dir gpu capacity (N.of_nat n) (next - 1) (next - 1) 0 (ids_below next) [] d → good_request gpu request →
  (∀ id, 1 ≤ id → id < next → published d id) →
  ∃ c' w' d', prefill clock n next request c w = Some (true, c', w') ∧ represents c' d'
    ∧ bench_dir gpu capacity 0 capacity capacity 0 (ids_below (capacity + 1)) [] d'
    ∧ (∀ id, 1 ≤ id → id < capacity + 1 → published d' id).
Proof using All.
  revert next c d w. induction n as [|n IH]; intros next c d w Hc Hcap Hpos Hnext Hd Hreq Hpub; cbn [prefill].
  { assert (next = capacity + 1) as -> by lia. exists c, w, d.
    by rewrite N.add_sub in Hd. }
  assert (capacity + 2 < two64) as Hmax by (change two64 with 18446744073709551616; lia).
  destruct (fill_alone_run _ _ _ _ _ _ _ c d request next w Hc Hd Hreq) as (c1 & w1 & d1 & -> & Hc1 & Hd1 & Hn & Hp);
    [lia|intros (id & [= ->] & ?); lia|lia..|].
  cbn [mbind option_bind negb]. rewrite inc64_small by lia.
  apply (IH (next + 1) c1 d1 w1); [done|done|lia|lia| |done|].
  - replace (N.of_nat (S n) - 1) with (N.of_nat n) in Hd1 by lia.
    replace (next + 1 - 1) with (next - 1 + 1) by lia. eapply bench_dir_weaken; [done| |done].
    intros k [(id & -> & ?)| ->]; eexists; (split; [done|lia]).
  - intros id Hid Hid'. destruct (decide (id = next)) as [->|Hne]; [done|]. apply Hp, Hpub; lia.
Qed.

(** A reader of the payloads already there, held on a stream that exists. *)
Definition held_reader (a : GpuDataAccess) : Prop := accessStatus a = CacheHit ∧ stream a ≠ nullptr.

Lemma hold_run gpu capacity n next request held c d :
  represents c d → capacity ≤ 65536 → 1 ≤ next → next + N.of_nat n ≤ capacity + 1 → vsize held < next →
  bench_dir gpu capacity 0 capacity capacity 0 (ids_below (capacity + 1)) held d → good_request gpu request →
  (∀ id, 1 ≤ id → id < capacity + 1 → published d id) → Forall held_reader held →
  ∃ held' c' d', hold clock n next request held c = Some (true, held', c') ∧ represents c' d'
    ∧ bench_dir gpu capacity 0 capacity capacity 0 (ids_below (capacity + 1)) held' d'
    ∧ Forall held_reader held' ∧ vsize held' = vsize held + N.of_nat n.
Proof using All.
  revert next held c d. induction n as [|n IH]; intros next held c d Hc Hcap Hpos Hnext Hlen Hd Hreq Hpub Hheld; cbn [hold].
  { exists held, c, d. by rewrite N.add_0_r. }
  assert (capacity + 2 < two64) as Hmax by (change two64 with 18446744073709551616; lia).
  destruct (lookup_run c d true request next (λ a d', held_reader a
    ∧ bench_dir gpu capacity 0 capacity capacity 0 (ids_below (capacity + 1)) (a :: held) d'
    ∧ (∀ id', published d id' → published d' id')) Hc) as (a & c1 & d1 & -> & Hc1 & Ha & Hd1 & Hp).
  { intros started now waitStarted.
    destruct (reader_granted _ _ _ _ _ _ _ _ _ request next started now waitStarted Hd Hreq)
      as (a & d' & Hrun & Hst & Hstream & Hd' & Hp); [lia|apply Hpub; lia|].
    exists a, d'. split; [done|]. split; [|apply Hd']. split; [|done].
    split; [done|]. rewrite Hstream. apply Hreq. }
  cbn [mbind option_bind]. rewrite (proj1 Ha). change (status_eqb CacheHit CacheHit) with true. cbn [negb].
  rewrite inc64_small by lia.
  assert (vsize (held ++ [a]) = vsize held + 1) as Hsize by (unfold vsize; rewrite length_app; simpl; lia).
  destruct (IH (next + 1) (held ++ [a]) c1 d1) as (held' & c' & d' & -> & Hc' & Hd' & Hall & Hv);
    [done|done|lia|lia|lia| |done|by intros; apply Hp, Hpub|by apply Forall_app_2; [|constructor]|].
  - eapply bench_dir_weaken; [|done|exact Hd1]. by rewrite Permutation_cons_append.
  - exists held', c', d'. split_and!; [done..|]. lia.
Qed.

End operations.

(** ** What the workers have asked for *)

(** The numbers [main] lets through. *)
Record accepted (b : BenchArguments) : Prop := {
  ac_capacity : 1 ≤ bench_capacity b ≤ 65536;
  ac_workers : 1 ≤ bench_workerCount b ≤ 32;
  ac_room : bench_heldCount b + bench_workerCount b ≤ bench_capacity b;
  ac_iterations : 1 ≤ bench_iterations b ≤ 1000000;
}.

Lemma accepts_accepted b : accepts_numbers b = true → accepted b.
Proof.
  destruct b as [capacity held workers iterations repeats]. unfold accepts_numbers.
  rewrite negb_true_iff, !orb_false_iff, !N.eqb_neq, !N.ltb_ge, N.leb_gt.
  intros (((((((((Hc & Hc') & Hh) & Hw) & Hw') & Hr) & Hi) & Hi') & _) & _).
  rewrite sub64_small in Hr by (unfold two64; lia). split; simpl; lia.
Qed.

Lemma parseArguments_accepted args b : parseArguments args = Some b → accepted b.
Proof.
  unfold parseArguments. intros Hparse. repeat (case_match; simplify_option_eq); by apply accepts_accepted.
Qed.

Section workers.
Context (b : BenchArguments).
Implicit Types (ws : list BenchPoint) (x y : BenchPoint).

(** The payloads of a worker, and the [n]th payload of worker [i]. *)
Definition rounds : N := WARMUP_REQUESTS + bench_iterations b.
Definition payload (i n : N) : N := bench_capacity b + 1 + i * rounds + n.

(** The fills a worker began and published, the access it has, and whether it has
    been counted at the gate. *)
Definition started_of x : N :=
  match x with
  | Asking measured n => (if measured then WARMUP_REQUESTS else 0) + n
  | Filling measured n _ => (if measured then WARMUP_REQUESTS else 0) + n + 1
  | Arriving true | AwaitingStart true => WARMUP_REQUESTS
  | BenchFinished true => rounds
  | _ => 0
  end.
Definition completed_of x : N :=
  match x with Filling measured n _ => (if measured then WARMUP_REQUESTS else 0) + n | _ => started_of x end.
Definition open_of x : option GpuDataAccess := match x with Filling _ _ a => Some a | _ => None end.
Definition arrived_of x : N :=
  match x with Asking true _ | Filling true _ _ | AwaitingStart _ | BenchFinished _ => 1 | _ => 0 end.

(** The points of a worker nothing has failed for. *)
Definition point_ok (start : bool) x : Prop :=
  match x with
  | BenchCreated numaReady => numaReady = true
  | Asking measured n => n ≤ (if measured then bench_iterations b else WARMUP_REQUESTS) ∧ (measured = true → start = true)
  | Filling measured n a =>
      n < (if measured then bench_iterations b else WARMUP_REQUESTS) ∧ (measured = true → start = true) ∧ open_fill a
  | Blocked _ => False
  | Arriving ok | AwaitingStart ok => ok = true
  | BenchFinished ok => ok = true ∧ start = true
  end.

Lemma point_ok_started start x : point_ok start x → started_of x ≤ rounds ∧ completed_of x ≤ started_of x.
Proof.
  unfold rounds. destruct x as [|[] n|[] n a| |[]|[]|[]]; simpl; unfold WARMUP_REQUESTS in *;
    intros; destruct_and?; try done; lia.
Qed.

Lemma point_ok_start x : point_ok false x → point_ok true x.
Proof. by destruct x as [|[] n|[] n a| |[]|[]|[]]; simpl; naive_solver. Qed.

(** The operations a worker has left. *)
Definition work_of x : N :=
  match x with
  | BenchCreated _ => 2 * rounds + 5
  | Asking measured n => 2 * (rounds - started_of x) + (if measured then 1 else 4)
  | Filling measured n _ => 2 * (rounds - completed_of x) + (if measured then 0 else 3)
  | Arriving _ => 2 * bench_iterations b + 3
  | AwaitingStart _ => 2 * bench_iterations b + 2
  | Blocked _ | BenchFinished _ => 0
  end.

(** A worker that only waits, and one that does not wait. *)
Definition waits (start : bool) x : bool :=
  match x with AwaitingStart _ => negb start | BenchFinished _ => true | _ => false end.

(** What a payload in the cache was: one of the first, or a worker's. *)
Definition issued_by ws (k : GpuDataKey) : Prop :=
  ids_below (bench_capacity b + 1) k
  ∨ ∃ i x n, ws !! i = Some x ∧ n < started_of x ∧ k = mkKey (payload (N.of_nat i) n) 0 0.

Lemma payload_inj i n j m : n < rounds → m < rounds → payload i n = payload j m → i = j ∧ n = m.
Proof.
  unfold payload. generalize rounds. intros r Hn Hm Heq.
  assert (∀ u v n m : N, u < v → n < r → u * r + n ≠ v * r + m) as Hlt.
  { intros u v n' m' Huv Hn'. pose proof (N.mul_le_mono_r (u + 1) v r ltac:(lia)). lia. }
  destruct (N.lt_trichotomy i j) as [Hij|[->|Hij]]; [|lia|].
  - pose proof (Hlt i j n m Hij Hn). lia.
  - pose proof (Hlt j i m n Hij Hm). lia.
Qed.

Lemma payload_fresh ws start i x :
  Forall (point_ok start) ws → ws !! i = Some x → started_of x < rounds →
  ¬ issued_by ws (mkKey (payload (N.of_nat i) (started_of x)) 0 0).
Proof.
  intros Hok Hx Hlt [(id & [= <-] & Hid)|(j & y & n & Hy & Hn & [= Heq])].
  - unfold payload in Hid. lia.
  - pose proof (proj1 (point_ok_started _ _ (proj1 (Forall_lookup _ _) Hok _ _ Hy))) as Hmax.
    apply payload_inj in Heq as [<-%Nat2N.inj <-]; [|lia..]. simplify_eq. lia.
Qed.

Lemma issued_insert ws i x y k :
  ws !! i = Some x → started_of x ≤ started_of y → issued_by ws k → issued_by (<[i := y]> ws) k.
Proof.
  intros Hx Hle [?|(j & z & n & Hz & Hn & ->)]; [by left|]. right.
  destruct (decide (i = j)) as [<-|Hne].
  - simplify_eq. exists i, y, n. rewrite list_lookup_insert_eq by (by eapply lookup_lt_Some). split_and!; [done|lia|done].
  - exists j, z, n. by rewrite list_lookup_insert_ne.
Qed.

Lemma issued_next ws i x y :
  ws !! i = Some x → started_of y = started_of x + 1 → issued_by (<[i := y]> ws) (mkKey (payload (N.of_nat i) (started_of x)) 0 0).
Proof.
  intros Hx Hy. right. exists i, y, (started_of x).
  rewrite list_lookup_insert_eq by (by eapply lookup_lt_Some). split_and!; [done|lia|done].
Qed.

(** The accesses the workers have. *)
Lemma vsize_insert {A} (l : list A) (i : nat) (z : A) : vsize (<[i := z]> l) = vsize l.
Proof. unfold vsize. by rewrite length_insert. Qed.

Lemma open_insert ws i x y :
  ws !! i = Some x →
  omap open_of ws ≡ₚ option_list (open_of x) ++ omap open_of (delete i ws)
  ∧ omap open_of (<[i := y]> ws) ≡ₚ option_list (open_of y) ++ omap open_of (delete i ws).
Proof.
  intros Hx. destruct (insert_others ws i x y Hx) as [Hp Hp'].
  split; (etrans; [by apply omap_Permutation|]); simpl; [by destruct (open_of x)|by destruct (open_of y)].
Qed.

Lemma omap_length_le {A B} (f : A → option B) (l : list A) : (length (omap f l) ≤ length l)%nat.
Proof. induction l as [|z l IH]; [done|]. csimpl. destruct (f z); simpl; lia. Qed.

Lemma open_bound ws i x : ws !! i = Some x → open_of x = None → vsize (omap open_of ws) + 1 ≤ vsize ws.
Proof.
  intros Hx Hopen. destruct (insert_others ws i x x Hx) as [Hp _].
  assert (vsize (omap open_of ws) = vsize (omap open_of (delete i ws))) as ->.
  { unfold vsize. rewrite (Permutation_length (omap_Permutation open_of _ _ Hp)). simpl. by rewrite Hopen. }
  assert (vsize ws = vsize (delete i ws) + 1) as ->.
  { unfold vsize. rewrite (Permutation_length Hp). simpl. lia. }
  pose proof (omap_length_le open_of (delete i ws)). unfold vsize. lia.
Qed.

End workers.

(** ** Whatever the machine answers

    The benchmark's operations on the cache where streams may fail, so that a request
    may be refused: all of them are defined, and none waits. *)

Definition grants (held : list GpuDataAccess) : list GpuDataAccess := filter (λ a, access_bool a = true) held.

Lemma grants_live a held : access_bool a = true → grants (a :: held) = a :: grants held.
Proof. intros Ha. unfold grants. by rewrite filter_cons_True. Qed.
Lemma grants_dead a held : access_bool a = false → grants (a :: held) = grants held.
Proof. intros Ha. unfold grants. rewrite filter_cons_False; [done|]. by rewrite Ha. Qed.

Lemma live_owner a : access_bool a = true → owner a ≠ nullptr.
Proof. unfold access_bool. by intros Ha%negb_true_iff%N.eqb_neq. Qed.
Lemma dead_owner a : access_bool a = false → (owner a =? nullptr) = true.
Proof. unfold access_bool. by intros Ha%negb_false_iff. Qed.

(** A cache nobody waits for, with the leases of [held] out. *)
Definition lends `{Platform} (held : list GpuDataAccess) (c : GpuDataCache) : Prop :=
  ∃ d, represents c d ∧ agree d (grants held) [] ∧ d_waitTimeout d = 0%Z.

#[local] Instance lends_perm `{Platform} : Proper ((≡ₚ) ==> (=) ==> iff) lends.
Proof.
  intros l l' Hl c ? <-. unfold lends, grants. split; intros (d & Hc & Hag & Hwait); exists d; (split; [done|]; split; [|done]).
  - eapply agree_perm; [|done|done]. by rewrite Hl.
  - eapply agree_perm; [|done|done]. by rewrite Hl.
Qed.

(** No operation changes how long a request may wait. *)
Lemma attempt_patience p now waitStarted d : d_waitTimeout (snd (attempt p now waitStarted d)) = d_waitTimeout d.
Proof.
  assert (∀ o, d_waitTimeout (snd (obstructed o p now waitStarted d)) = d_waitTimeout d) as Hobstructed.
  { intros o. unfold obstructed. by destruct (pending_blocked p), o, (_ || _), (pending_waited p). }
  assert (∀ i u d', d_waitTimeout (set_use i u d') = d_waitTimeout d') as Huse.
  { intros i u d'. unfold set_use. by destruct (vat (d_cells d') i). }
  unfold attempt. destruct (d_failed d); [done|]. destruct (d_index d !! _) as [i|].
  - destruct (vat (d_cells d) i) as [[q [|md|md readers discard]]|]; try done; (case_decide; [|done]); [done|].
    simpl. by rewrite Huse.
  - destruct (victim d) as [[i wasEmpty]|].
    + destruct (vat (d_cells d) i); [|done]. simpl. unfold reserve, take_victim.
      by destruct wasEmpty; unfold bump; simpl; rewrite Huse.
    + by destruct (vsize (d_cells d) =? 0).
Qed.

Lemma request_patience md request started now waitStarted d :
  d_waitTimeout (snd (request_access md request started now waitStarted d)) = d_waitTimeout d.
Proof. unfold request_access. case_match; [apply attempt_patience|done]. Qed.

Lemma end_access_patience a succeeded discardNow d : d_waitTimeout (end_access a succeeded discardNow d) = d_waitTimeout d.
Proof.
  assert (∀ i u d', d_waitTimeout (set_use i u d') = d_waitTimeout d') as Huse.
  { intros i u d'. unfold set_use. by destruct (vat (d_cells d') i). }
  unfold end_access, finish_hit, finish_fill.
  destruct (accessStatus a), (use_at d (entryIndex a)) as [[|md|md r disc]|]; try done.
  - destruct (negb _); [by rewrite Huse|]. destruct (disc || discardNow); simpl; by rewrite ?Huse.
  - unfold bump, make_evictable, make_filled, notify.
    destruct succeeded, discardNow; simpl; try destruct (policy_eqb _ _); simpl; by rewrite Huse.
Qed.

(** With no time to wait, a request is answered at once. *)
Lemma impatient_returns md request started now waitStarted d :
  d_waitTimeout d = 0%Z → ∃ a, fst (request_access md request started now waitStarted d) = Returned a.
Proof.
  intros Hwait. unfold request_access. case_match; [|by eexists]. unfold attempt.
  assert (∀ o p, ∃ a, fst (obstructed o p now waitStarted d) = Returned a) as Hobstructed.
  { intros o p. unfold obstructed. destruct (pending_blocked p), o; simpl; rewrite Hwait; by eexists. }
  destruct (d_failed d); [by eexists|]. destruct (d_index d !! _) as [i|].
  - destruct (vat (d_cells d) i) as [[q [|md'|md' readers discard]]|]; try (by eexists);
      (case_decide; [|by eexists]); [done|by eexists].
  - destruct (victim d) as [[i wasEmpty]|]; [destruct (vat (d_cells d) i); by eexists|].
    destruct (vsize (d_cells d) =? 0); [by eexists|done].
Qed.

Section lending.
Context `{PlatformLaws} `{!MemsetDevice} (clock : bool → uint64 → Z * Z * Z).
Implicit Types (c : GpuDataCache) (w : world) (held : list GpuDataAccess).

Lemma lends_dead a held c : access_bool a = false → lends (a :: held) c ↔ lends held c.
Proof. intros Ha. unfold lends. by rewrite grants_dead. Qed.

Lemma grants_length held : vsize (grants held) ≤ vsize held.
Proof. unfold vsize, grants. pose proof (length_filter (λ a, access_bool a = true) held). lia. Qed.

Lemma fill_begin_lends held c holding request id :
  lends held c → vsize held + 1 < two64 →
  ∃ a c', fill_begin clock holding request id c = Some (Returned a, c') ∧ lends (a :: held) c'.
Proof.
  intros (d & Hc & Hag & Hwait) Hroom. pose proof (grants_length held).
  destruct (lookup_run clock c d holding request id
    (λ a d', agree d' (grants (a :: held)) [] ∧ d_waitTimeout d' = 0%Z)) as (a & c' & d' & Hrun & Hc' & ?); [done| |].
  2: { exists a, c'. split; [done|]. by exists d'. }
  intros started now waitStarted. pose proof (proj1 Hc) as Hwf.
  destruct (impatient_returns (bench_metadata id) request started now waitStarted d Hwait) as [a Ha].
  pose proof (request_access_agree (bench_metadata id) request started now waitStarted d (grants held) []
    Hwf Hag ltac:(lia) ltac:(done)) as Hag'.
  pose proof (request_access_wf (bench_metadata id) request started now waitStarted d Hwf
    ltac:(eapply agree_reader_room; [done|lia])) as Hwf'.
  pose proof (request_patience (bench_metadata id) request started now waitStarted d) as Hwait'.
  destruct (request_access _ _ _ _ _ d) as [r d']. simpl in Ha, Hag', Hwf', Hwait'. subst r.
  exists a, d'. split; [done|]. split; [|done]. split; [|by rewrite Hwait'].
  simpl in Hag'. destruct (access_bool a) eqn:Hbool; [by rewrite grants_live|by rewrite grants_dead].
Qed.

(** What [lends] says of an access that is out. *)
Lemma lends_live a held c :
  lends (a :: held) c → access_bool a = true →
  ∃ d, represents c d ∧ agree d (a :: grants held) [] ∧ d_waitTimeout d = 0%Z ∧ holds_lease d a ∧ owner a ≠ nullptr.
Proof.
  intros (d & Hc & Hag & Hwait) Ha. rewrite grants_live in Hag by done. exists d. split_and!; [done..| |by apply live_owner].
  eapply agree_holds; [done|left].
Qed.

Lemma returned_lends d a held c status succeeded discardNow :
  represents c (end_access a succeeded discardNow (synchronized status d)) →
  wf d → agree d (a :: grants held) [] → d_waitTimeout d = 0%Z → lends held c.
Proof.
  intros Hc Hwf Hag Hwait. eexists. split; [exact Hc|]. split.
  - apply end_access_agree; [by apply synchronized_wf|]. unfold synchronized. case_match; [done|by eapply agree_same].
  - rewrite end_access_patience. unfold synchronized. by case_match.
Qed.

Lemma access_destruct_lends a held c w :
  lends (a :: held) c → ∃ c' w', access_destruct a c w = Some (c', w') ∧ lends held c'.
Proof.
  intros Hl. destruct (access_bool a) eqn:Ha.
  - destruct (lends_live _ _ _ Hl Ha) as (d & Hc & Hag & Hwait & Hholds & Hown).
    destruct (cudaStreamSynchronize (stream a) w) as [status w'] eqn:Hs.
    destruct (access_destruct_run c d a w status w' Hc Hholds Hown Hs) as (a' & c' & _ & -> & Hc' & _).
    exists c', w'. split; [done|]. eapply returned_lends; [done|apply Hc|done..].
  - exists c, w. split; [|by apply (lends_dead a)]. unfold access_destruct, abortUnfinishedAccess.
    by rewrite dead_owner.
Qed.

(** Where [freeCacheData] does not succeed for want of a stream, the lease stays. *)
Lemma freeCacheData_lends a held c w submitted retention :
  lends (a :: held) c →
  ∃ ok a' c' w', freeCacheData a submitted retention c w = Some (ok, a', c', w') ∧ lends (a' :: held) c'
    ∧ (ok = true → access_bool a' = false).
Proof.
  intros Hl. destruct ((owner a =? nullptr) || (stream a =? nullptr)) eqn:Hnull.
  { exists false, a, c, w. split; [|done]. unfold freeCacheData. by rewrite Hnull. }
  apply orb_false_iff in Hnull as [Ha Hstream%N.eqb_neq].
  destruct (lends_live a held c Hl) as (d & Hc & Hag & Hwait & Hholds & Hown); [unfold access_bool; by rewrite Ha|].
  destruct (cudaStreamSynchronize (stream a) w) as [status w'] eqn:Hs.
  destruct (freeCacheData_run c d a submitted retention w status w' Hc Hholds Hown Hstream Hs) as (c' & -> & Hc' & _).
  eexists _, _, c', w'. split; [done|]. split; [|done]. apply lends_dead; [done|].
  eapply returned_lends; [done|apply Hc|done..].
Qed.

Lemma fill_end_lends a held c w id :
  lends (a :: held) c → ∃ ok c' w', fill_end id a c w = Some (ok, c', w') ∧ lends held c'.
Proof.
  intros Hl. unfold fill_end. destruct (negb _).
  - destruct (access_destruct_lends a held c w Hl) as (c' & w' & -> & ?). by exists false, c', w'.
  - destruct (cudaMemsetValueAsync _ _ _ _ w) as [status w1].
    destruct (freeCacheData_lends a held c w1 (cuda_ok status) Keep Hl) as (ok & a' & c1 & w2 & -> & Hl1 & _).
    cbn [mbind option_bind]. destruct (access_destruct_lends a' held c1 w2 Hl1) as (c' & w' & -> & ?).
    by exists ok, c', w'.
Qed.

Lemma fill_alone_lends c w request id :
  lends [] c → ∃ ok c' w', fill_alone clock request id c w = Some (ok, c', w') ∧ lends [] c'.
Proof.
  intros Hl. unfold fill_alone. destruct (fill_begin_lends [] c false request id Hl) as (a & c1 & -> & Hl1); [done|].
  by apply fill_end_lends.
Qed.

Lemma prefill_lends n next request c w :
  lends [] c → ∃ ok c' w', prefill clock n next request c w = Some (ok, c', w') ∧ lends [] c'.
Proof.
  revert next c w. induction n as [|n IH]; intros next c w Hl; cbn [prefill]; [by exists true, c, w|].
  destruct (fill_alone_lends c w request next Hl) as (ok & c1 & w1 & -> & Hl1). cbn [mbind option_bind].
  destruct ok; [by apply IH|by exists false, c1, w1].
Qed.

Lemma hold_lends n next request held c :
  lends held c → vsize held + N.of_nat n < two64 →
  ∃ ok held' c', hold clock n next request held c = Some (ok, held', c') ∧ lends held' c'
    ∧ vsize held' ≤ vsize held + N.of_nat n.
Proof.
  revert next held c. induction n as [|n IH]; intros next held c Hl Hroom; cbn [hold].
  { exists true, held, c. split_and!; [done..|lia]. }
  destruct (fill_begin_lends held c true request next Hl) as (a & c1 & -> & Hl1); [lia|]. cbn [mbind option_bind].
  assert (vsize (held ++ [a]) = vsize held + 1) as Hsize by (unfold vsize; rewrite length_app; simpl; lia).
  rewrite (Permutation_cons_append held a) in Hl1.
  destruct (negb _); [exists false, (held ++ [a]), c1; split_and!; [done..|lia]|].
  destruct (IH (inc64 next) (held ++ [a]) c1 Hl1) as (ok & held' & c' & -> & ? & ?); [lia|].
  exists ok, held', c'. split_and!; [done..|lia].
Qed.

Lemma return_held_lends held c w :
  lends held c →
  ∃ ok held' c' w', return_held held c w = Some (ok, held', c', w') ∧ lends held' c' ∧ (ok = true → grants held' = []).
Proof.
  revert c w. induction held as [|a held IH]; intros c w Hl; cbn [return_held]; [by exists true, [], c, w|].
  destruct (freeCacheData_lends a held c w true Keep Hl) as (ok & a' & c1 & w1 & -> & Hl1 & Hok). cbn [mbind option_bind].
  destruct ok; cbn [negb]; [|by exists false, (a' :: held), c1, w1].
  specialize (Hok eq_refl). apply lends_dead in Hl1; [|done].
  destruct (IH c1 w1 Hl1) as (ok & held' & c' & w' & -> & Hl' & Hall). cbn [mbind option_bind].
  exists ok, (a' :: held'), c', w'. split; [done|]. split; [by apply lends_dead|]. intros Htrue. rewrite grants_dead; auto.
Qed.

Lemma held_destruct_lends held c w : lends held c → ∃ c' w', held_destruct held c w = Some (c', w').
Proof.
  revert c w. induction held as [|a held IH]; intros c w Hl; cbn [held_destruct]; [by eexists _, _|].
  destruct (access_destruct_lends a held c w Hl) as (c1 & w1 & -> & Hl1). by apply IH.
Qed.

Lemma held_destruct_dead held c w : grants held = [] → held_destruct held c w = Some (c, w).
Proof.
  induction held as [|a held IH]; intros Hg; cbn [held_destruct]; [done|].
  destruct (access_bool a) eqn:Ha; [by rewrite grants_live in Hg|]. rewrite grants_dead in Hg by done.
  unfold access_destruct, abortUnfinishedAccess. rewrite dead_owner by done. by apply IH.
Qed.

End lending.

(** ** Operations in any order *)
Section run.
Context `{MemsetDevice} (clock : bool → uint64 → Z * Z * Z) (gpu : Z) (b : BenchArguments) (requests : list GpuCacheRequest).
Implicit Types (s : Bench).

Fixpoint bench_run s (acts : list bench_action) : option Bench :=
  match acts with
  | [] => Some s
  | act :: acts => s' ← bench_perform clock gpu b requests s act; bench_run s' acts
  end.

End run.

(** ** The invariant of a measurement *)

(** The operations of threads that can all be created and placed. *)
Definition placed (act : bench_action) : Prop :=
  match act with BenchOwnerStep created numaReady => created = true ∧ numaReady = true | BenchWorkerStep _ => True end.

Section invariant.
Context `{PlatformLaws} `{!MemsetDevice} (clock : bool → uint64 → Z * Z * Z).
Context (Hmachine : ReliableMachine) (gpu : Z) (b : BenchArguments) (Hb : accepted b).
Context (requests : list GpuCacheRequest).
Context (Hrequests : Forall (good_request gpu) requests) (Hcount : vsize requests = bench_workerCount b + 1).
Implicit Types (c : GpuDataCache) (w : world) (s : Bench) (ws : list BenchPoint) (x y : BenchPoint).

(** The cache while [ws] are at work and [held] are out. *)
Definition cache_at ws (held : list GpuDataAccess) c : Prop :=
  bench_laid gpu (bench_capacity b) 0 (bench_capacity b + nsum (started_of b) ws)
    (bench_capacity b + nsum (completed_of b) ws) (nsum (started_of b) ws) (issued_by b ws) (omap open_of ws ++ held) c.

Definition gate_counts (before : CacheStatistics) : Prop :=
  let warmups := bench_workerCount b * WARMUP_REQUESTS in
  stat_fill before = bench_capacity b + warmups ∧ stat_fillSucceeded before = bench_capacity b + warmups
  ∧ stat_eviction before = warmups.

Record bench_inv s : Prop := {
  bi_points : Forall (point_ok b (gate_start s)) (bench_workers s);
  bi_size : vsize (bench_workers s) ≤ bench_workerCount b;
  bi_ready : gate_ready s = nsum arrived_of (bench_workers s);
  bi_cache : (∀ ok, bench_owner s ≠ Closed ok) →
    cache_at (bench_workers s) (bench_held s) (bench_cache s)
    ∧ Forall held_reader (bench_held s) ∧ vsize (bench_held s) = bench_heldCount b;
  bi_owner :
    match bench_owner s with
    | Spawning => gate_start s = false
    | AwaitingReady => gate_start s = false ∧ vsize (bench_workers s) = bench_workerCount b
    | JoiningWorkers thrown =>
        thrown = false ∧ gate_start s = true ∧ vsize (bench_workers s) = bench_workerCount b ∧ gate_counts (bench_before s)
    | Rejected => False
    | Closing | Closed _ => forallb is_finished (bench_workers s) = true
    end;
}.

Lemma started_total ws start :
  Forall (point_ok b start) ws → vsize ws ≤ bench_workerCount b →
  nsum (started_of b) ws ≤ bench_workerCount b * rounds b ∧ nsum (completed_of b) ws ≤ nsum (started_of b) ws
  ∧ bench_capacity b + bench_workerCount b * rounds b + 1 < two64.
Proof using All.
  intros Hok Hsize. pose proof Hb as [Hc Hw _ Hi]. rewrite Forall_forall in Hok. split; [|split].
  - etrans; [apply nsum_le with (n := rounds b); intros x Hx%Hok; by eapply point_ok_started|].
    unfold vsize in Hsize. by apply N.mul_le_mono_r.
  - clear Hsize. induction ws as [|x ws IH]; simpl; [done|].
    pose proof (proj2 (point_ok_started b start x (Hok x ltac:(left)))).
    specialize (IH (λ y Hy, Hok y ltac:(by right))). lia.
  - unfold rounds, WARMUP_REQUESTS. change two64 with 18446744073709551616. nia.
Qed.

(** How the cache follows a worker that moves: nothing, a fill begun, one ended. *)
Lemma cache_quiet ws held c i x y :
  cache_at ws held c → ws !! i = Some x → started_of b y = started_of b x → completed_of b y = completed_of b x →
  open_of y = open_of x → cache_at (<[i := y]> ws) held c.
Proof using All.
  intros (d & Hc & Hd) Hx Hs Hco Ho. exists d. split; [done|].
  pose proof (nsum_insert (started_of b) ws i x y Hx). pose proof (nsum_insert (completed_of b) ws i x y Hx).
  replace (nsum (started_of b) (<[i := y]> ws)) with (nsum (started_of b) ws) by lia.
  replace (nsum (completed_of b) (<[i := y]> ws)) with (nsum (completed_of b) ws) by lia.
  eapply bench_dir_weaken; [| |exact Hd].
  - destruct (open_insert ws i x y Hx) as [Hp Hp']. by rewrite Hp, Hp', Ho.
  - intros k. apply (issued_insert b ws i x y); [done|lia].
Qed.

Lemma cache_begins ws held c start i x request :
  cache_at ws held c → Forall (point_ok b start) ws → vsize ws ≤ bench_workerCount b → vsize held = bench_heldCount b →
  ws !! i = Some x → open_of x = None → started_of b x < rounds b → good_request gpu request →
  ∃ a c', fill_begin clock false request (payload b (N.of_nat i) (started_of b x)) c = Some (Returned a, c') ∧ open_fill a
    ∧ ∀ y, started_of b y = started_of b x + 1 → completed_of b y = completed_of b x → open_of y = Some a →
        cache_at (<[i := y]> ws) held c'.
Proof using All.
  intros (d & Hc & Hd) Hok Hsize Hheld Hx Hopen Hlt Hreq. pose proof (started_total ws start Hok Hsize) as (Hs & Hco & Hmax).
  pose proof (open_bound ws i x Hx Hopen) as Hroom. pose proof (ac_room b Hb). pose proof (ac_capacity b Hb).
  assert (vsize (omap open_of ws ++ held) < bench_capacity b) as Hlen.
  { unfold vsize in *. rewrite length_app. lia. }
  destruct (fill_begin_dir clock _ _ _ _ _ _ _ _ c d request (payload b (N.of_nat i) (started_of b x)) Hc Hd Hreq)
    as (a & c' & d' & Hrun & Hc' & Ha & Hd' & _); [by right|by eapply payload_fresh|lia..|].
  exists a, c'. split; [done|]. split; [done|]. intros y Hys Hyc Hyo. exists d'. split; [done|].
  pose proof (nsum_insert (started_of b) ws i x y Hx). pose proof (nsum_insert (completed_of b) ws i x y Hx).
  change (0 - 1) with 0 in Hd'. change (0 =? 0) with true in Hd'. cbv iota in Hd'.
  replace (nsum (started_of b) (<[i := y]> ws)) with (nsum (started_of b) ws + 1) by lia.
  replace (nsum (completed_of b) (<[i := y]> ws)) with (nsum (completed_of b) ws) by lia.
  rewrite N.add_assoc. eapply bench_dir_weaken; [| |exact Hd'].
  - destruct (open_insert ws i x y Hx) as [Hp Hp']. by rewrite Hp, Hp', Hopen, Hyo.
  - intros k [Hk| ->]; [|by apply issued_next]. apply (issued_insert b ws i x y); [done|lia|done].
Qed.

Lemma cache_ends ws held c start i x a id w :
  cache_at ws held c → Forall (point_ok b start) ws → vsize ws ≤ bench_workerCount b →
  ws !! i = Some x → open_of x = Some a → open_fill a →
  ∃ c' w', fill_end id a c w = Some (true, c', w')
    ∧ ∀ y, started_of b y = started_of b x → completed_of b y = completed_of b x + 1 → open_of y = None →
        cache_at (<[i := y]> ws) held c'.
Proof using All.
  intros (d & Hc & Hd) Hok Hsize Hx Hopen Ha. pose proof (started_total ws start Hok Hsize) as (Hs & Hco & Hmax).
  destruct (open_insert ws i x x Hx) as [Hp _]. rewrite Hopen in Hp.
  assert (bench_dir gpu (bench_capacity b) 0 (bench_capacity b + nsum (started_of b) ws)
    (bench_capacity b + nsum (completed_of b) ws) (nsum (started_of b) ws) (issued_by b ws)
    (a :: (omap open_of (delete i ws) ++ held)) d) as Hd1.
  { eapply bench_dir_weaken; [|done|exact Hd]. by rewrite Hp. }
  destruct (fill_end_dir clock Hmachine _ _ _ _ _ _ _ _ c d id a w Hc Hd1 Ha) as (c' & w' & Hrun & Hc' & Hd'); [lia|].
  exists c', w'. split; [done|]. intros y Hys Hyc Hyo. eexists. split; [exact Hc'|].
  pose proof (nsum_insert (started_of b) ws i x y Hx). pose proof (nsum_insert (completed_of b) ws i x y Hx).
  replace (nsum (started_of b) (<[i := y]> ws)) with (nsum (started_of b) ws) by lia.
  replace (nsum (completed_of b) (<[i := y]> ws)) with (nsum (completed_of b) ws + 1) by lia.
  rewrite N.add_assoc. eapply bench_dir_weaken; [| |exact Hd'].
  - destruct (open_insert ws i x y Hx) as [_ Hp']. by rewrite Hp', Hyo.
  - intros k. apply (issued_insert b ws i x y); [done|lia].
Qed.

Lemma bench_id_payload i (measured : bool) n :
  i < bench_workerCount b → n ≤ (if measured then bench_iterations b else WARMUP_REQUESTS) →
  bench_id b i measured n = payload b i ((if measured then WARMUP_REQUESTS else 0) + n).
Proof using All.
  intros Hi Hn. pose proof Hb as [Hc Hw _ Hit]. unfold bench_id, firstId, payload, rounds.
  assert (WARMUP_REQUESTS = 100 ∧ two64 = 18446744073709551616) as [HW H64] by done.
  assert (i * (WARMUP_REQUESTS + bench_iterations b) ≤ 32 * 1000100) as Hmax.
  { rewrite HW. apply N.mul_le_mono; lia. }
  revert Hmax. rewrite (add64_small WARMUP_REQUESTS (bench_iterations b)) by lia.
  intros Hmax. rewrite mul64_small by lia. revert Hmax. generalize (i * (WARMUP_REQUESTS + bench_iterations b)).
  intros m Hmax. rewrite (add64_small (bench_capacity b) 1), (add64_small _ m) by lia.
  destruct measured; [rewrite (add64_small _ WARMUP_REQUESTS) by lia|]; rewrite add64_small by lia; lia.
Qed.

(** A worker moves from [x] to [y]. *)
Lemma worker_moves s i x y ready' c' w' :
  bench_inv s → bench_workers s !! i = Some x → is_finished x = false → point_ok b (gate_start s) y →
  ready' + arrived_of x = gate_ready s + arrived_of y →
  cache_at (<[i := y]> (bench_workers s)) (bench_held s) c' →
  bench_inv (mkBench c' w' (bench_held s) (<[i := y]> (bench_workers s)) ready' (gate_start s) (bench_before s) (bench_owner s)).
Proof using All.
  intros [Hpoints Hsize Hready Hcache Howner] Hx Hrun Hy Hready' Hc'.
  assert (forallb is_finished (bench_workers s) = false) as Hat.
  { apply not_true_iff_false. rewrite forallb_forall. intros Hall.
    rewrite (Hall x) in Hrun; [done|]. apply list_elem_of_In. by eapply list_elem_of_lookup_2. }
  split; simpl.
  - by apply Forall_insert.
  - by rewrite vsize_insert.
  - pose proof (nsum_insert arrived_of (bench_workers s) i x y Hx). lia.
  - intros Hopen. split; [done|]. by apply Hcache.
  - rewrite vsize_insert. destruct (bench_owner s); try done; by rewrite Howner in Hat.
Qed.

Lemma working s i x :
  bench_inv s → bench_workers s !! i = Some x → is_finished x = false → ∀ ok, bench_owner s ≠ Closed ok.
Proof using All.
  intros [_ _ _ _ Howner] Hx Hrun ok Hclosed. rewrite Hclosed in Howner. rewrite forallb_forall in Howner.
  rewrite Howner in Hrun; [done|]. apply list_elem_of_In. by eapply list_elem_of_lookup_2.
Qed.

Lemma worker_request ws i x :
  vsize ws ≤ bench_workerCount b → ws !! i = Some x →
  N.of_nat i < bench_workerCount b ∧ ∃ request, requests !! S i = Some request ∧ good_request gpu request.
Proof using All.
  intros Hsize Hx%lookup_lt_Some. unfold vsize in *. split; [lia|].
  destruct (lookup_lt_is_Some_2 requests (S i)) as [request Hr]; [lia|]. exists request. split; [done|].
  by eapply Forall_lookup_1.
Qed.

(** The head of a worker's loop, and its body. *)
Lemma asking_step ws held c w ready start i measured n request :
  cache_at ws held c → Forall (point_ok b start) ws → vsize ws ≤ bench_workerCount b → vsize held = bench_heldCount b →
  ws !! i = Some (Asking measured n) → N.of_nat i < bench_workerCount b → good_request gpu request →
  ∃ y ready' c' w', bench_worker_step clock gpu b request (N.of_nat i) (Asking measured n) ready start c w = Some (y, ready', c', w')
    ∧ point_ok b start y ∧ ready' + arrived_of (Asking measured n) = ready + arrived_of y
    ∧ cache_at (<[i := y]> ws) held c'.
Proof using All.
  intros Hlaid Hpoints Hsize Hheld Hx Hi Hreq.
  destruct (Forall_lookup_1 _ _ _ _ Hpoints Hx) as [Hn Hstart]. simpl.
  destruct (N.ltb_spec n (if measured then bench_iterations b else WARMUP_REQUESTS)) as [Hlt|Hge].
  - rewrite bench_id_payload by done.
    destruct (cache_begins ws held c start i (Asking measured n) request) as (a & c' & Hbegin & Ha & Hc'); try done.
    { unfold rounds. simpl. destruct measured; lia. }
    cbn [started_of] in Hbegin. rewrite Hbegin.
    eexists _, _, _, _. split; [done|]. split; [exact (conj Hlt (conj Hstart Ha))|]. split; [by destruct measured|].
    apply Hc'; simpl; lia || done.
  - eexists _, _, _, _. split; [done|].
    destruct measured; simpl in *; (split_and!; [by auto..|lia|]);
      eapply cache_quiet; try done; simpl; unfold rounds; lia.
Qed.

Lemma filling_step ws held c w ready start i measured n a request :
  cache_at ws held c → Forall (point_ok b start) ws → vsize ws ≤ bench_workerCount b →
  ws !! i = Some (Filling measured n a) →
  ∃ y ready' c' w', bench_worker_step clock gpu b request (N.of_nat i) (Filling measured n a) ready start c w = Some (y, ready', c', w')
    ∧ point_ok b start y ∧ ready' + arrived_of (Filling measured n a) = ready + arrived_of y
    ∧ cache_at (<[i := y]> ws) held c'.
Proof using All.
  intros Hlaid Hpoints Hsize Hx. destruct (Forall_lookup_1 _ _ _ _ Hpoints Hx) as (Hn & Hstart & Ha). simpl.
  destruct (cache_ends ws held c start i (Filling measured n a) a (bench_id b (N.of_nat i) measured n) w)
    as (c' & w' & -> & Hc'); try done.
  pose proof Hb as [_ _ _ Hit]. cbn [mbind option_bind].
  rewrite inc64_small by (unfold two64; destruct measured; unfold WARMUP_REQUESTS in *; lia).
  eexists _, _, _, _. split; [done|]. split; [simpl; split; [lia|done]|]. split; [by destruct measured|].
  apply Hc'; simpl; lia || done.
Qed.

(** The invariant holds where a worker comes to. *)
Lemma point_step s i x request :
  bench_inv s → bench_workers s !! i = Some x → is_finished x = false →
  N.of_nat i < bench_workerCount b → good_request gpu request →
  ∃ y ready' c' w', bench_worker_step clock gpu b request (N.of_nat i) x (gate_ready s) (gate_start s) (bench_cache s) (bench_world s)
      = Some (y, ready', c', w')
    ∧ point_ok b (gate_start s) y ∧ ready' + arrived_of x = gate_ready s + arrived_of y
    ∧ cache_at (<[i := y]> (bench_workers s)) (bench_held s) c'.
Proof using All.
  intros Hinv Hx Hrun Hi Hreq. pose proof Hinv as [Hpoints Hsize Hready Hcache Howner].
  destruct (Hcache (working s i x Hinv Hx Hrun)) as (Hlaid & Hheld & Hnheld).
  pose proof (Forall_lookup_1 _ _ _ _ Hpoints Hx) as Hok.
  destruct s as [c w held ws ready start before owner]. simpl in *.
  destruct x as [numa|measured n|measured n a|p|ok|ok|ok]; simpl in Hok |- *; [| | |done| | |done].
  - subst numa. pose proof (device_chosen Hmachine gpu w) as Hset. destruct (cudaSetDevice gpu w) as [status w'].
    simpl in Hset. rewrite Hset. eexists _, _, _, _. split; [done|]. split_and!; try done. by eapply cache_quiet.
  - by apply asking_step.
  - by apply (filling_step ws held c w ready start i measured n a request).
  - subst ok. rewrite inc64_small.
    2: { rewrite Hready. pose proof (ac_workers b Hb). pose proof (nsum_le arrived_of ws 1) as Hle.
         unfold vsize in Hsize. unfold two64. assert (∀ x, x ∈ ws → arrived_of x ≤ 1); [|specialize (Hle ltac:(done)); lia].
         intros x _. by destruct x as [|[]|[]| | | |]. }
    eexists _, _, _, _. split; [done|]. split_and!; [done|simpl; lia|by eapply cache_quiet].
  - subst ok. destruct start; (eexists _, _, _, _; split; [done|]; split; [simpl; by try (split; [lia|])|]).
    all: split; [done|]; by eapply cache_quiet.
Qed.

Lemma worker_step s i :
  bench_inv s → ∃ s', bench_perform clock gpu b requests s (BenchWorkerStep i) = Some s' ∧ bench_inv s'.
Proof using All.
  intros Hinv. destruct (bench_workers s !! i) as [x|] eqn:Hx.
  2: { exists s. split; [|done]. destruct s. simpl in *. by rewrite Hx. }
  destruct (worker_request _ _ _ (bi_size _ Hinv) Hx) as (Hi & request & Hr & Hreq).
  destruct (is_finished x) eqn:Hrun.
  - exists s. destruct x; try done. split; [|done]. destruct s as [c w held ws ready start before owner]. simpl in *.
    rewrite Hx, Hr. simpl. by rewrite list_insert_id.
  - destruct (point_step s i x request Hinv Hx Hrun Hi Hreq) as (y & ready' & c' & w' & Hstep & Hy & Hready & Hc').
    eexists. split; [|by eapply (worker_moves s i x y)].
    destruct s as [c w held ws ready start before owner]. simpl in *. rewrite Hx, Hr. simpl. by rewrite Hstep.
Qed.

(** *** The thread of [measure] *)

Lemma created_inv s :
  bench_inv s → bench_owner s = Spawning → vsize (bench_workers s) < bench_workerCount b →
  bench_inv (mkBench (bench_cache s) (bench_world s) (bench_held s) (bench_workers s ++ [BenchCreated true])
    (gate_ready s) (gate_start s) (bench_before s) Spawning).
Proof using All.
  intros [Hpoints Hsize Hready Hcache Howner] Hspawning Hlt. rewrite Hspawning in *.
  destruct (Hcache ltac:(done)) as ((d & Hc & Hd) & Hheld).
  assert (∀ f, f (BenchCreated true) = 0 → nsum f (bench_workers s ++ [BenchCreated true]) = nsum f (bench_workers s)) as Hsum.
  { intros f Hf. rewrite nsum_app. simpl. rewrite Hf. lia. }
  split; simpl; [|unfold vsize in *; rewrite length_app; simpl; lia|by rewrite Hsum| |done].
  - apply Forall_app. split; [done|]. by constructor.
  - intros _. split; [|done]. exists d. split; [done|]. rewrite !Hsum by done. eapply bench_dir_weaken; [| |exact Hd].
    + by rewrite omap_app, app_nil_r.
    + intros k [?|(i & x & n & Hx & ?)]; [by left|]. right. exists i, x, n. split; [|done]. by apply lookup_app_l_Some.
Qed.

(** When the gate has counted every worker and is closed, each has warmed up. *)
Lemma warmed_up ws x :
  Forall (point_ok b false) ws → nsum arrived_of ws = vsize ws → x ∈ ws →
  started_of b x = WARMUP_REQUESTS ∧ completed_of b x = WARMUP_REQUESTS.
Proof using All.
  intros Hok Hsum Hx. assert (arrived_of x = 1) as Harrived.
  { apply list_elem_of_lookup in Hx as [i Hx]. destruct (insert_others ws i x x Hx) as [Hp _].
    rewrite (nsum_perm _ _ _ Hp) in Hsum. unfold vsize in Hsum. rewrite (Permutation_length Hp) in Hsum. simpl in Hsum.
    pose proof (nsum_le arrived_of (delete i ws) 1) as Hle.
    assert (∀ z, arrived_of z ≤ 1) as Hone by (by intros [|[]|[]| | | |]).
    specialize (Hle ltac:(auto)). specialize (Hone x). lia. }
  rewrite Forall_forall in Hok. apply Hok in Hx.
  destruct x as [|[] n|[] n a|p|ok|ok|ok]; simpl in *; try done.
  - destruct Hx as [_ Hstart]. by specialize (Hstart eq_refl).
  - destruct Hx as (_ & Hstart & _). by specialize (Hstart eq_refl).
  - by subst ok.
  - by destruct Hx.
Qed.

Lemma finished_points ws start x :
  Forall (point_ok b start) ws → forallb is_finished ws = true → x ∈ ws → x = BenchFinished true.
Proof using All.
  intros Hok Hall Hx. rewrite forallb_forall in Hall. rewrite Forall_forall in Hok.
  pose proof (Hok x Hx) as Hpoint. pose proof (Hall x (proj1 (list_elem_of_In _ _) Hx)) as Hfin.
  destruct x; try done. by destruct Hpoint as [-> _].
Qed.

Lemma finished_open ws start : Forall (point_ok b start) ws → forallb is_finished ws = true → omap open_of ws = [].
Proof using All.
  intros Hok Hall. assert (∀ x, x ∈ ws → open_of x = None) as Hopen.
  { intros x Hx. by rewrite (finished_points ws start x Hok Hall Hx). }
  clear Hok Hall. induction ws as [|x ws IH]; [done|]. csimpl. rewrite (Hopen x) by left. apply IH. intros y Hy. apply Hopen. by right.
Qed.

(** The verdict on a measurement. *)
Lemma verdict_accepts s :
  bench_inv s → bench_owner s = JoiningWorkers false → forallb is_finished (bench_workers s) = true →
  only_replacements (mul64 (bench_workerCount b) (bench_iterations b)) (bench_before s) (statistics (bench_cache s)) = true
  ∧ forallb has_succeeded (bench_workers s) = true.
Proof using All.
  intros [Hpoints Hsize Hready Hcache Howner] Hjoining Hall. rewrite Hjoining in *.
  destruct Howner as (_ & _ & Hn & Hf & Hco & He). destruct (Hcache ltac:(done)) as [Hlaid _].
  pose proof (λ x, finished_points _ _ x Hpoints Hall) as Hfin.
  apply bench_laid_statistics in Hlaid as (Hf' & Hco' & He' & Hfb & Hin).
  assert (nsum (started_of b) (bench_workers s) = bench_workerCount b * rounds b) as Hs.
  { rewrite (nsum_const _ _ (rounds b)); [unfold vsize in Hn; by rewrite <-Hn|]. by intros x ->%Hfin. }
  assert (nsum (completed_of b) (bench_workers s) = bench_workerCount b * rounds b) as Hs'.
  { rewrite (nsum_const _ _ (rounds b)); [unfold vsize in Hn; by rewrite <-Hn|]. by intros x ->%Hfin. }
  pose proof (started_total _ _ Hpoints Hsize) as (_ & _ & Hmax). rewrite Hs in *. rewrite Hs' in *.
  assert (bench_workerCount b * rounds b = bench_workerCount b * WARMUP_REQUESTS + bench_workerCount b * bench_iterations b)
    as Hsplit by (unfold rounds; lia). rewrite Hsplit in *.
  split.
  - unfold only_replacements. rewrite Hf, Hco, He, Hf', Hco', He', Hfb, Hin. rewrite mul64_small by lia.
    rewrite !sub64_small by lia. rewrite !andb_true_iff, !N.eqb_eq. lia.
  - apply forallb_forall. intros x Hx%list_elem_of_In. by rewrite (Hfin x Hx).
Qed.

Lemma return_held_run held d c w :
  represents c d → agree d held [] → Forall held_reader held →
  ∃ held' c' w', return_held held c w = Some (true, held', c', w').
Proof using All.
  revert d c w. induction held as [|a held IH]; intros d c w Hc Hag Hheld; cbn [return_held]; [by eexists _, _, _|].
  apply Forall_cons in Hheld as [[Hst Hstream] Hheld].
  pose proof (agree_holds _ _ _ a Hag ltac:(left)) as Hholds.
  assert (owner a ≠ nullptr) as Hown by (destruct Hholds as [-> _]; by eapply agree_self).
  pose proof (stream_finishes Hmachine (stream a) w) as Hsync.
  destruct (cudaStreamSynchronize (stream a) w) as [status w1] eqn:Hs. simpl in Hsync.
  destruct (freeCacheData_run c d a true Keep w status w1 Hc Hholds Hown Hstream Hs) as (c1 & -> & Hc1 & _).
  unfold synchronized in Hc1. rewrite Hsync in *. cbn in Hc1 |- *.
  destruct (IH _ c1 w1 Hc1) as (held' & c' & w' & ->); [|done|by eexists _, _, _].
  apply (end_access_agree d a held [] true false); [apply Hc|done].
Qed.

Lemma gate_opens s :
  bench_inv s → bench_owner s = AwaitingReady → gate_ready s = bench_workerCount b →
  bench_inv (mkBench (bench_cache s) (bench_world s) (bench_held s) (bench_workers s) (gate_ready s) true
    (statistics (bench_cache s)) (JoiningWorkers false)).
Proof using All.
  intros [Hpoints Hsize Hready Hcache Howner] Hawaiting Hr. rewrite Hawaiting in *. destruct Howner as [Hstart Hn].
  rewrite Hstart in Hpoints. destruct (Hcache ltac:(done)) as [Hlaid _].
  assert (∀ x, x ∈ bench_workers s → started_of b x = WARMUP_REQUESTS ∧ completed_of b x = WARMUP_REQUESTS) as Hwarm.
  { intros x. apply warmed_up; [done|lia]. }
  split; simpl; try done; [by eapply Forall_impl, point_ok_start|intros _; by apply Hcache|]. split_and!; [done..|].
  apply bench_laid_statistics in Hlaid as (Hf & Hco & He & _). unfold gate_counts. rewrite Hf, Hco, He.
  rewrite !(nsum_const _ (bench_workers s) WARMUP_REQUESTS) by naive_solver. unfold vsize in Hn. by rewrite Hn.
Qed.

Lemma owner_step s :
  bench_inv s → ∃ s', bench_owner_step b true true s = Some s' ∧ bench_inv s'.
Proof using All.
  intros Hinv. pose proof Hinv as [Hpoints Hsize Hready Hcache Howner].
  destruct s as [c w held ws ready start before owner]. simpl in *.
  destruct owner as [| |thrown| | |released].
  - destruct (N.ltb_spec (vsize ws) (bench_workerCount b)) as [Hlt|Hge]; eexists; (split; [done|]).
    + exact (created_inv _ Hinv eq_refl Hlt).
    + split; try done; [intros _; by apply Hcache|]. simpl. split; [done|lia].
  - destruct (N.eqb_spec ready (bench_workerCount b)) as [Hr|Hr]; [|by eexists].
    eexists. split; [done|]. exact (gate_opens _ Hinv eq_refl Hr).
  - destruct Howner as (-> & Hstart & Hn & Hcounts). destruct (forallb is_finished ws) eqn:Hall; [|by eexists].
    destruct (verdict_accepts _ Hinv eq_refl Hall) as [Honly Hsucceeded]. simpl in Honly, Hsucceeded.
    rewrite Honly, Hsucceeded. cbn [orb negb].
    pose proof (host_allocates Hmachine (mul64 (bench_workerCount b) (bench_iterations b)) w) as Halloc.
    destruct (host_alloc _ w) as [reserved w']. simpl in Halloc. subst reserved. eexists. split; [done|].
    split; try done. intros _. by apply Hcache.
  - done.
  - destruct (Hcache ltac:(done)) as ((d & Hc & Hd) & Hheld & _).
    rewrite (finished_open ws start Hpoints Howner) in Hd.
    destruct (return_held_run held d c w Hc (bd_agree _ _ _ _ _ _ _ _ _ Hd) Hheld) as (held1 & c1 & w1 & ->).
    cbn [mbind option_bind negb]. destruct (release c1 w1) as [[released c2] w2]. eexists. split; [done|].
    split; try done. simpl. intros Hopen. by specialize (Hopen released).
  - by eexists.
Qed.

Lemma bench_step s act :
  bench_inv s → placed act → ∃ s', bench_perform clock gpu b requests s act = Some s' ∧ bench_inv s'.
Proof using All.
  intros Hinv Hact. destruct act as [created numaReady|i].
  - destruct Hact as [-> ->]. exact (owner_step s Hinv).
  - exact (worker_step s i Hinv).
Qed.

Lemma bench_run_inv acts s :
  bench_inv s → Forall placed acts → ∃ s', bench_run clock gpu b requests s acts = Some s' ∧ bench_inv s'.
Proof using All.
  revert s. induction acts as [|act acts IH]; intros s Hinv Hplaced; [by exists s|].
  apply Forall_cons in Hplaced as [Hact Hplaced]. destruct (bench_step s act Hinv Hact) as (s1 & Hrun & Hinv1).
  cbn [bench_run]. rewrite Hrun. by apply IH.
Qed.

End invariant.

(** ** From the command line to the end *)
Section measurement.
Context `{PlatformLaws} `{!MemsetDevice} (clock : bool → uint64 → Z * Z * Z).
Context (Hmachine : ReliableMachine).
Implicit Types (w : world).

Lemma makeCallers_good n first gpu iterations w requests w' :
  makeCallers n first gpu iterations w = (Some requests, w') →
  length requests = n ∧ Forall (good_request gpu) requests.
Proof using All.
  revert first w requests w'. induction n as [|n IH]; intros first w requests w'; cbn [makeCallers]; [by intros [= <- _]|].
  destruct (host_alloc 1 w) as [[] w0]; cbn [negb]; [|done].
  unfold Caller_initialize. destruct (host_alloc _ w0) as [[] w1]; cbn [negb]; [|done].
  destruct (cudaStreamCreate w1) as [[status st] w2] eqn:Hstream. destruct (cuda_ok status) eqn:Hok; cbn [negb]; [|done].
  destruct (cudaMalloc PAYLOAD_BYTES w2) as [[status' d] w3] eqn:Hmalloc.
  destruct (cuda_ok status') eqn:Hok'; cbn [negb]; [|done].
  destruct (makeCallers n false gpu iterations w3) as [[rest|] w4] eqn:Hrest; [|done]. intros [= <- <-].
  apply IH in Hrest as [Hlen Hall]. split; [simpl; lia|]. constructor; [|done].
  split_and!; [done|by eapply stream_nonnull|by eapply malloc_nonnull|done].
Qed.

(** Why a measurement can fail before it has threads. *)
Definition setup_fails (this : ptr) (gpu : Z) (policy : CacheEvictionPolicy) (b : BenchArguments) w : Prop :=
  ∃ ok c w1, initialize (GpuDataCache_default this) [gpu] PAYLOAD_BYTES (bench_capacity b) 0 policy w = Some (ok, c, w1)
    ∧ if (ok : bool) then ∃ w2, makeCallers (S (N.to_nat (bench_workerCount b))) true gpu (bench_iterations b) w1 = (None, w2) else True.

Lemma initial_bench_dir c gpu capacity policy cells :
  self c ≠ nullptr → waitingAccesses c = 0 → fresh_cells cells → vsize cells = capacity → (0 ≤ gpu)%Z →
  wf (initial_directory c gpu PAYLOAD_BYTES 0 policy cells) →
  bench_dir gpu capacity capacity 0 0 0 (ids_below 1) [] (initial_directory c gpu PAYLOAD_BYTES 0 policy cells).
Proof using All.
  intros Hself Hwaiting Hfresh Hsize Hgpu Hwf. split; try done.
  - by apply initial_directory_agree.
  - simpl. rewrite Hsize. unfold vsize, initialEmptyEntries. rewrite length_fmap, length_reverse, length_seq. lia.
Qed.

Lemma measure_setup_run this gpu policy b w :
  accepted b → this ≠ nullptr →
  (measure_setup clock this gpu policy b w = Some None ∧ setup_fails this gpu policy b w)
  ∨ ∃ requests s0, measure_setup clock this gpu policy b w = Some (Some (requests, s0))
      ∧ Forall (good_request gpu) requests ∧ vsize requests = bench_workerCount b + 1 ∧ bench_inv gpu b s0.
Proof using All.
  intros Hb Hthis. pose proof Hb as [Hcap Hworkers Hroom _]. unfold measure_setup, setup_fails.
  destruct (initialize_refines (GpuDataCache_default this) [gpu] PAYLOAD_BYTES (bench_capacity b) 0 policy w eq_refl)
    as (ok & c & w1 & Hinit & _ & Hok). rewrite Hinit. cbn [mbind option_bind].
  destruct ok; cbn [negb]; [|left; split; [done|by exists false, c, w1]].
  destruct (Hok eq_refl) as (gpu' & cells & [= <-] & Hsize & Hfresh & ((gpu'' & [= <-] & Hgpu) & _) & Hc).
  destruct (makeCallers _ true gpu (bench_iterations b) w1) as [[requests|] w2] eqn:Hcallers;
    [|left; split; [done|exists true, c, w1; eauto]].
  right. destruct (makeCallers_good _ _ _ _ _ _ _ Hcallers) as [Hlen Hreqs].
  destruct requests as [|first rest]; [done|]. cbn [head mbind option_bind].
  pose proof (proj1 (proj1 (Forall_cons _ _ _) Hreqs)) as Hfirst.
  destruct (prefill_run clock Hmachine gpu (bench_capacity b) (N.to_nat (bench_capacity b)) 1 first c _ w2 Hc)
    as (c3 & w3 & d3 & -> & Hc3 & Hd3 & Hpub); [lia|lia|lia| |done|intros; lia|].
  { rewrite N2Nat.id. apply initial_bench_dir; try done. apply Hc. }
  cbn [mbind option_bind negb]. pose proof (host_allocates Hmachine (bench_heldCount b) w3) as Halloc.
  destruct (host_alloc (bench_heldCount b) w3) as [reserved w4]. simpl in Halloc. subst reserved. cbn [negb].
  destruct (hold_run clock Hmachine gpu (bench_capacity b) (N.to_nat (bench_heldCount b)) 1 first [] c3 d3 Hc3)
    as (held & c4 & d4 & -> & Hc4 & Hd4 & Hheld & Hnheld); try done; [lia..|].
  cbn [mbind option_bind negb]. pose proof (host_allocates Hmachine (bench_workerCount b) w4) as Halloc.
  destruct (host_alloc (bench_workerCount b) w4) as [reserved w5]. simpl in Halloc. subst reserved. eexists _, _. split; [done|]. split; [done|].
  split; [unfold vsize; rewrite Hlen; lia|].
  split; simpl; try done; try (unfold vsize; simpl; lia). intros _. split; [|split; [done|]].
  - exists d4. split; [done|]. simpl. rewrite N.add_0_r. eapply bench_dir_weaken; [done| |exact Hd4]. intros k Hk. by left.
  - rewrite Hnheld. unfold vsize. simpl. lia.
Qed.

(** C27.  With the numbers the command line accepts and a machine that answers, a
    measurement throws before its threads only where the cache or a caller could not
    be initialized; after that, in any order of its threads' operations, each of them
    is defined, every request of every worker is a fill, none waits in the cache, no
    worker fails, and the verdict on the statistics accepts: the requests measured
    replaced old payloads, and did nothing else. *)
Theorem benchmark_measures_replacements args b this gpu policy w :
  parseArguments args = Some b → this ≠ nullptr →
  match measure_setup clock this gpu policy b w with
  | None => False
  | Some None => setup_fails this gpu policy b w
  | Some (Some (requests, s0)) =>
      ∀ acts, Forall placed acts →
      ∃ s, bench_run clock gpu b requests s0 acts = Some s
        ∧ bench_owner s ≠ Rejected ∧ bench_owner s ≠ JoiningWorkers true
        ∧ (∀ i measured n a, bench_workers s !! i = Some (Filling measured n a) → accessStatus a = CacheFill)
        ∧ (∀ i p, bench_workers s !! i ≠ Some (Blocked p))
        ∧ (∀ i ok, bench_workers s !! i = Some (BenchFinished ok) → ok = true)
  end.
Proof using All.
  intros Hb%parseArguments_accepted Hthis.
  destruct (measure_setup_run this gpu policy b w Hb Hthis) as [[-> ?]|(requests & s0 & -> & Hreqs & Hn & Hinv)]; [done|].
  intros acts Hacts.
  destruct (bench_run_inv clock Hmachine gpu b Hb requests Hreqs Hn acts s0 Hinv Hacts) as (s & Hrun & [Hpoints _ _ _ Howner]).
  exists s. split; [done|]. split_and!.
  - by intros Hr; rewrite Hr in Howner.
  - intros Hj. rewrite Hj in Howner. by destruct Howner.
  - intros i measured n a Hi. by apply (Forall_lookup_1 _ _ _ _ Hpoints) in Hi as (_ & _ & ? & _).
  - intros i p Hi. by apply (Forall_lookup_1 _ _ _ _ Hpoints) in Hi.
  - intros i ok Hi. by apply (Forall_lookup_1 _ _ _ _ Hpoints) in Hi as [? _].
Qed.

End measurement.

Lemma arrived_le (ws : list BenchPoint) : nsum arrived_of ws ≤ vsize ws.
Proof.
  pose proof (nsum_le arrived_of ws 1) as Hle. unfold vsize.
  specialize (Hle ltac:(intros x _; by destruct x as [|[]|[]| | | |])). lia.
Qed.

(** ** How a measurement ends

    The threads of a measurement, whatever the machine answers, whichever thread cannot
    be created or placed. *)
Section ending.
Context `{PlatformLaws} `{!MemsetDevice} (clock : bool → uint64 → Z * Z * Z).
Context (gpu : Z) (b : BenchArguments) (Hb : accepted b).
Context (requests : list GpuCacheRequest) (Hcount : vsize requests = bench_workerCount b + 1).
Implicit Types (c : GpuDataCache) (w : world) (s : Bench) (ws : list BenchPoint) (x y : BenchPoint).

(** Where a worker can be: past the gate only when it is open. *)
Definition point_possible (start : bool) x : Prop :=
  match x with
  | Asking measured n => n ≤ (if measured then bench_iterations b else WARMUP_REQUESTS) ∧ (measured = true → start = true)
  | Filling measured n _ => n < (if measured then bench_iterations b else WARMUP_REQUESTS) ∧ (measured = true → start = true)
  | Blocked _ => False
  | BenchFinished _ => start = true
  | BenchCreated _ | Arriving _ | AwaitingStart _ => True
  end.

Lemma point_possible_start start x : point_possible start x → point_possible true x.
Proof. intros Hx. destruct x; try done; by destruct Hx. Qed.

(** [measure] has returned, or has thrown and joined its threads. *)
Definition measure_over s : bool := match bench_owner s with Rejected | Closed _ => true | _ => false end.

Record under_way s : Prop := {
  uw_points : Forall (point_possible (gate_start s)) (bench_workers s);
  uw_size : vsize (bench_workers s) ≤ bench_workerCount b;
  uw_ready : gate_ready s = nsum arrived_of (bench_workers s);
  uw_cache :
    match bench_owner s with
    | Closed _ => grants (bench_held s) = []
    | Rejected | Closing => lends (bench_held s) (bench_cache s)
    | _ => lends (omap open_of (bench_workers s) ++ bench_held s) (bench_cache s) ∧ vsize (bench_held s) ≤ bench_heldCount b
    end;
  uw_owner :
    match bench_owner s with
    | Spawning => gate_start s = false
    | AwaitingReady => gate_start s = false ∧ vsize (bench_workers s) = bench_workerCount b
    | JoiningWorkers _ => gate_start s = true
    | Rejected | Closing | Closed _ => forallb is_finished (bench_workers s) = true
    end;
}.

(** The operations left to the whole benchmark. *)
Definition work_left s : N :=
  nsum (work_of b) (bench_workers s)
  + match bench_owner s with
    | Spawning => (bench_workerCount b - vsize (bench_workers s)) * (2 * rounds b + 6) + 5
    | AwaitingReady => 4
    | JoiningWorkers _ => 3
    | Closing => 2
    | Rejected => 1
    | Closed _ => 0
    end.

(** An operation is defined, and one fewer is left after it. *)
Definition progresses s act : Prop :=
  ∃ s', bench_perform clock gpu b requests s act = Some s' ∧ work_left s' < work_left s.
Definition stays s act : Prop := bench_perform clock gpu b requests s act = Some s.

(** *** A worker *)

Lemma waiting_stays request i x ready start c w :
  waits start x = true → bench_worker_step clock gpu b request i x ready start c w = Some (x, ready, c, w).
Proof. intros Hw. destruct x; try done. simpl in *. by destruct start. Qed.

(** A worker that does not wait does one of its operations. *)
Lemma point_progresses ws held c w ready start i x request :
  lends (omap open_of ws ++ held) c → vsize ws ≤ bench_workerCount b → vsize held ≤ bench_heldCount b →
  ws !! i = Some x → point_possible start x → waits start x = false → ready ≤ bench_workerCount b →
  ∃ y ready' c' w',
    bench_worker_step clock gpu b request (N.of_nat i) x ready start c w = Some (y, ready', c', w')
    ∧ point_possible start y ∧ ready' + arrived_of x = ready + arrived_of y
    ∧ lends (omap open_of (<[i := y]> ws) ++ held) c' ∧ work_of b y < work_of b x.
Proof using All.
  intros Hl Hsize Hheld Hx Hok Hw Hready. pose proof Hb as [Hcap Hwc Hroom Hit].
  assert (∀ y, omap open_of (<[i := y]> ws) ++ held
    ≡ₚ option_list (open_of y) ++ (omap open_of (delete i ws) ++ held)) as Hopen'.
  { intros y. destruct (open_insert ws i x y Hx) as [_ Hp]. by rewrite Hp, app_assoc. }
  assert (lends (option_list (open_of x) ++ (omap open_of (delete i ws) ++ held)) c) as Hl'.
  { destruct (open_insert ws i x x Hx) as [Hp _]. by rewrite app_assoc, <-Hp. }
  destruct x as [numaReady|measured n|measured n a|p|ok|ok|ok]; cbn [bench_worker_step]; try done.
  - destruct (cudaSetDevice gpu w) as [status w']. eexists _, _, _, _. split; [done|].
    destruct (_ && _); simpl; (split_and!; [by auto..|by rewrite Hopen'|unfold rounds, WARMUP_REQUESTS; lia]).
  - destruct Hok as [Hn Hstart].
    destruct (N.ltb_spec n (if measured then bench_iterations b else WARMUP_REQUESTS)) as [Hlt|Hge].
    + destruct (fill_begin_lends clock (omap open_of ws ++ held) c false request (bench_id b (N.of_nat i) measured n))
        as (a & c' & -> & Hl1); [done| |].
      { pose proof (open_bound ws i _ Hx eq_refl). unfold vsize in *. rewrite length_app. unfold two64. lia. }
      eexists _, _, _, _. split; [done|]. split_and!; [done|by destruct measured| |].
      * rewrite Hopen'. simpl. destruct (open_insert ws i _ (Asking measured n) Hx) as [Hp _]. simpl in Hp.
        by rewrite <-Hp.
      * unfold rounds. simpl. destruct measured; lia.
    + eexists _, _, _, _. split; [done|].
      destruct measured; simpl in *; (split_and!; [by auto..|by rewrite Hopen'|unfold rounds; lia]).
  - destruct Hok as [Hn Hstart].
    destruct (fill_end_lends a _ c w (bench_id b (N.of_nat i) measured n) Hl') as (ok & c' & w' & -> & Hl1).
    cbn [mbind option_bind]. eexists _, _, _, _. split; [done|].
    rewrite inc64_small by (unfold two64; destruct measured; unfold WARMUP_REQUESTS in *; lia).
    destruct ok, measured; simpl in *; rewrite ?Hopen'; simpl; unfold rounds; (split_and!; [lia || done || by auto..]).
  - rewrite inc64_small by (unfold two64; lia). eexists _, _, _, _. split; [done|]. simpl.
    split_and!; [done|lia|by rewrite Hopen'|lia].
  - simpl in Hw. apply negb_false_iff in Hw. subst start. eexists _, _, _, _. split; [done|].
    destruct ok; simpl; rewrite ?Hopen'; unfold rounds; (split_and!; [lia || done || by auto..]).
Qed.

Lemma workers_leased s i x :
  under_way s → bench_workers s !! i = Some x → is_finished x = false →
  lends (omap open_of (bench_workers s) ++ bench_held s) (bench_cache s) ∧ vsize (bench_held s) ≤ bench_heldCount b
  ∧ match bench_owner s with Rejected | Closing | Closed _ => False | _ => True end.
Proof using All.
  intros [_ _ _ Hcache Howner] Hx Hrun.
  assert (forallb is_finished (bench_workers s) = true → False) as Hat.
  { intros Hall. rewrite forallb_forall in Hall. rewrite (Hall x) in Hrun; [done|].
    apply list_elem_of_In. by eapply list_elem_of_lookup_2. }
  destruct (bench_owner s); try (by destruct (Hat Howner)); by destruct Hcache.
Qed.

Lemma worker_goes s i :
  under_way s →
  ∃ s', bench_perform clock gpu b requests s (BenchWorkerStep i) = Some s' ∧ under_way s'
    ∧ match bench_workers s !! i with
      | Some x => if waits (gate_start s) x then s' = s else work_left s' < work_left s
      | None => s' = s
      end.
Proof using All.
  intros Hinv. pose proof Hinv as [Hpoints Hsize Hready Hcache Howner].
  destruct (bench_workers s !! i) as [x|] eqn:Hx.
  2: { exists s. split; [|done]. destruct s. simpl in *. by rewrite Hx. }
  destruct (lookup_lt_is_Some_2 requests (S i)) as [request Hr].
  { apply lookup_lt_Some in Hx. unfold vsize in *. lia. }
  destruct (waits (gate_start s) x) eqn:Hw.
  { exists s. split; [|done]. destruct s as [c w held ws ready start before owner]. simpl in *.
    rewrite Hx, Hr. cbn [mbind option_bind]. rewrite waiting_stays by done. cbn [mbind option_bind]. by rewrite list_insert_id. }
  destruct (workers_leased s i x Hinv Hx) as (Hl & Hheld & Hat); [by destruct x|].
  pose proof (arrived_le (bench_workers s)).
  destruct (point_progresses (bench_workers s) (bench_held s) (bench_cache s) (bench_world s) (gate_ready s) (gate_start s) i x request)
    as (y & ready' & c' & w' & Hstep & Hy & Hready' & Hl' & Hwork); try done; [by eapply Forall_lookup_1|lia|].
  pose proof (nsum_insert arrived_of _ i x y Hx). pose proof (nsum_insert (work_of b) _ i x y Hx).
  destruct s as [c w held ws ready start before owner]. simpl in *.
  eexists. rewrite Hx, Hr. cbn [mbind option_bind]. rewrite Hstep. split; [done|]. split.
  - split; simpl; [by apply Forall_insert|by rewrite vsize_insert|lia|by destruct owner|].
    rewrite vsize_insert. by destruct owner.
  - unfold work_left. simpl. rewrite vsize_insert. lia.
Qed.

(** *** The thread of [measure] *)

(** What that thread waits for, or nothing once it is done. *)
Definition owner_waits s : bool :=
  match bench_owner s with
  | AwaitingReady => negb (gate_ready s =? bench_workerCount b)
  | JoiningWorkers _ => negb (forallb is_finished (bench_workers s))
  | Rejected | Closed _ => true
  | Spawning | Closing => false
  end.

Lemma finished_closed ws : forallb is_finished ws = true → omap open_of ws = [].
Proof.
  induction ws as [|x ws IH]; [done|]. simpl. intros [Hx Hall]%andb_prop. csimpl. destruct x; try done. by apply IH.
Qed.

(** It creates a worker, or gives up for want of a thread and opens the gate. *)
Lemma spawning_goes s created numaReady :
  under_way s → bench_owner s = Spawning →
  ∃ s', bench_owner_step b created numaReady s = Some s' ∧ under_way s' ∧ work_left s' < work_left s.
Proof using All.
  intros [Hpoints Hsize Hready Hcache Howner] Hspawning.
  destruct s as [c w held ws ready start before owner]. simpl in *. subst owner. destruct Hcache as [Hl Hheld].
  assert (∀ f : BenchPoint → N, nsum f (ws ++ [BenchCreated numaReady]) = nsum f ws + f (BenchCreated numaReady)) as Hsum.
  { intros f. rewrite nsum_app. simpl. lia. }
  destruct (N.ltb_spec (vsize ws) (bench_workerCount b)) as [Hlt|Hge]; [destruct created|]; eexists; (split; [done|]).
  - assert (vsize (ws ++ [BenchCreated numaReady]) = vsize ws + 1) as Hn by (unfold vsize; rewrite length_app; simpl; lia).
    split; [split; simpl|unfold work_left; simpl; rewrite Hsum, Hn; simpl].
    + apply Forall_app. split; [done|]. by constructor.
    + lia.
    + rewrite Hsum. simpl. lia.
    + by rewrite omap_app, app_nil_r.
    + done.
    + replace (bench_workerCount b - vsize ws) with (bench_workerCount b - (vsize ws + 1) + 1) by lia. lia.
  - split; [split; simpl; try done; eapply Forall_impl; [done|apply point_possible_start]|unfold work_left; simpl].
    generalize ((bench_workerCount b - vsize ws) * (2 * rounds b + 6)). lia.
  - split; [split; simpl; try done; split; [done|lia]|unfold work_left; simpl].
    generalize ((bench_workerCount b - vsize ws) * (2 * rounds b + 6)). lia.
Qed.

Lemma owner_goes s created numaReady :
  under_way s →
  ∃ s', bench_owner_step b created numaReady s = Some s' ∧ under_way s'
    ∧ (if owner_waits s then s' = s else work_left s' < work_left s).
Proof using All.
  intros Hinv. pose proof Hinv as [Hpoints Hsize Hready Hcache Howner]. unfold owner_waits.
  destruct (bench_owner s) as [| |thrown| | |released] eqn:Howns; [by apply spawning_goes|..].
  all: destruct s as [c w held ws ready start before owner]; simpl in *; subst owner.
  3, 5: by eexists.
  - destruct (N.eqb_spec ready (bench_workerCount b)) as [Hr|Hr]; [|by eexists]. eexists. split; [done|].
    split; [split; simpl; try done; eapply Forall_impl; [done|apply point_possible_start]|unfold work_left; simpl; lia].
  - destruct (forallb is_finished ws) eqn:Hall; [|by eexists]. destruct Hcache as [Hl Hheld].
    rewrite finished_closed in Hl by done. cbn [negb].
    destruct (thrown || _); [eexists; split; [done|]; split; [done|unfold work_left; simpl; lia]|].
    destruct (host_alloc _ w) as [reserved w']. eexists. split; [done|].
    destruct (reserved && _); (split; [done|unfold work_left; simpl; lia]).
  - destruct (return_held_lends held c w Hcache) as (ok & held' & c' & w' & -> & Hl & Hok). cbn [mbind option_bind].
    destruct ok; cbn [negb].
    + destruct (release c' w') as [[released c2] w2]. eexists. split; [done|].
      split; [split; simpl; try done; by apply Hok|unfold work_left; simpl; lia].
    + eexists. split; [done|]. split; [done|unfold work_left; simpl; lia].
Qed.

(** Somebody does not wait until [measure] is over. *)
Lemma somebody_goes s :
  under_way s → measure_over s = false →
  owner_waits s = false ∨ ∃ i x, bench_workers s !! i = Some x ∧ waits (gate_start s) x = false.
Proof using All.
  intros [Hpoints Hsize Hready _ Howner] Hopen.
  destruct (decide (Exists (λ x, waits (gate_start s) x = false) (bench_workers s))) as [Hmoves|Hwait].
  { right. apply Exists_exists in Hmoves as (x & [i Hx]%list_elem_of_lookup & Hw). by exists i, x. }
  left. rewrite <-Forall_Exists_neg in Hwait. rewrite Forall_forall in Hwait. rewrite Forall_forall in Hpoints.
  assert (∀ x, x ∈ bench_workers s → waits (gate_start s) x = true) as Hwaits.
  { intros x Hx. specialize (Hwait x Hx). simpl in Hwait. by destruct (waits _ x). }
  unfold owner_waits, measure_over in *. destruct (bench_owner s) as [| |thrown| | |released]; try done.
  - destruct Howner as [Hstart Hn]. rewrite Hready, (nsum_const _ _ 1).
    + unfold vsize in Hn. by rewrite N.mul_1_r, Hn, N.eqb_refl.
    + intros x Hx. specialize (Hwaits x Hx). by destruct x.
  - apply negb_false_iff, forallb_forall. intros x Hx%list_elem_of_In.
    specialize (Hwaits x Hx). rewrite Howner in Hwaits. by destruct x.
Qed.

(** *** The whole measurement *)

Lemma any_step s act :
  under_way s →
  ∃ s', bench_perform clock gpu b requests s act = Some s' ∧ under_way s' ∧ (s' = s ∨ work_left s' < work_left s).
Proof using All.
  intros Hinv. destruct act as [created numaReady|i].
  - destruct (owner_goes s created numaReady Hinv) as (s' & ? & ? & Hm). exists s'. split_and!; [done..|]. case_match; auto.
  - destruct (worker_goes s i Hinv) as (s' & ? & ? & Hm). exists s'. split_and!; [done..|]. repeat case_match; auto.
Qed.

Lemma any_run acts s :
  under_way s → ∃ s', bench_run clock gpu b requests s acts = Some s' ∧ under_way s'.
Proof using All.
  revert s. induction acts as [|act acts IH]; intros s Hinv; [by exists s|].
  destruct (any_step s act Hinv) as (s1 & Hrun & Hinv1 & _). cbn [bench_run]. rewrite Hrun. by apply IH.
Qed.

(** A thread progresses whatever is answered to it. *)
Definition can_go s : Prop :=
  (∀ created numaReady, progresses s (BenchOwnerStep created numaReady)) ∨ ∃ i, progresses s (BenchWorkerStep i).

Lemma measurement_goes_on s : under_way s → measure_over s = false → can_go s.
Proof using All.
  intros Hinv Hopen. destruct (somebody_goes s Hinv Hopen) as [Hmoves|(i & x & Hx & Hmoves)].
  - left. intros created numaReady. destruct (owner_goes s created numaReady Hinv) as (s' & ? & _ & Hm).
    rewrite Hmoves in Hm. by exists s'.
  - right. exists i. destruct (worker_goes s i Hinv) as (s' & ? & _ & Hm). rewrite Hx, Hmoves in Hm. by exists s'.
Qed.

Lemma leaves s :
  under_way s → measure_over s = true →
  forallb is_finished (bench_workers s) = true ∧ ∃ w, measure_leave requests s = Some w.
Proof using All.
  intros [_ _ _ Hcache Howner] Hover. unfold measure_over, measure_leave in *.
  destruct (bench_owner s) as [| |thrown| | |released]; try done; (split; [done|]).
  - destruct (held_destruct_lends _ _ (bench_world s) Hcache) as (c & w & ->). cbn [mbind option_bind].
    destruct (release c _) as [[? ?] w']. by exists w'.
  - rewrite held_destruct_dead by done. cbn [mbind option_bind].
    destruct (release _ _) as [[? ?] w']. by exists w'.
Qed.

End ending.

Section setup.
Context `{PlatformLaws} `{!MemsetDevice} (clock : bool → uint64 → Z * Z * Z).
Implicit Types (w : world).

Lemma makeCallers_length n first gpu iterations w requests w' :
  makeCallers n first gpu iterations w = (Some requests, w') → length requests = n.
Proof.
  revert first w requests w'. induction n as [|n IH]; intros first w requests w'; cbn [makeCallers]; [by intros [= <- _]|].
  destruct (host_alloc 1 w) as [[] w0]; cbn [negb]; [|done].
  destruct (Caller_initialize _ _ w0) as [[request|] w1]; [|done].
  destruct (makeCallers n false gpu iterations w1) as [[rest|] w2] eqn:Hrest; [|done]. intros [= <- <-].
  apply IH in Hrest. simpl. lia.
Qed.

(** The setup throws, or leaves a cache and the requests of as many callers. *)
Lemma measure_setup_begins this gpu policy b w :
  accepted b → this ≠ nullptr →
  measure_setup clock this gpu policy b w = Some None
  ∨ ∃ requests s0, measure_setup clock this gpu policy b w = Some (Some (requests, s0))
      ∧ vsize requests = bench_workerCount b + 1 ∧ under_way b s0.
Proof using All.
  intros Hb Hthis. pose proof Hb as [Hcap Hworkers Hroom _]. unfold measure_setup.
  destruct (initialize_refines (GpuDataCache_default this) [gpu] PAYLOAD_BYTES (bench_capacity b) 0 policy w eq_refl)
    as (ok & c & w1 & -> & _ & Hok). cbn [mbind option_bind].
  destruct ok; cbn [negb]; [|by left].
  destruct (Hok eq_refl) as (gpu' & cells & [= <-] & Hsize & Hfresh & _ & Hc).
  assert (lends [] c) as Hl0.
  { eexists. split; [exact Hc|]. split; [by apply initial_directory_agree|done]. }
  destruct (makeCallers _ true gpu (bench_iterations b) w1) as [[requests|] w2] eqn:Hcallers; [|by left].
  apply makeCallers_length in Hcallers as Hlen. destruct requests as [|first rest]; [done|]. cbn [head mbind option_bind].
  destruct (prefill_lends clock (N.to_nat (bench_capacity b)) 1 first c w2 Hl0) as (ok1 & c1 & w3 & -> & Hl1).
  cbn [mbind option_bind]. destruct ok1; cbn [negb]; [|by left].
  destruct (host_alloc (bench_heldCount b) w3) as [[] w4]; cbn [negb]; [|by left].
  destruct (hold_lends clock (N.to_nat (bench_heldCount b)) 1 first [] c1 Hl1) as (ok2 & held & c2 & -> & Hl2 & Hheld).
  { unfold vsize, two64. simpl. lia. }
  cbn [mbind option_bind]. destruct ok2; cbn [negb]; [|by left].
  destruct (host_alloc (bench_workerCount b) w4) as [[] w5]; cbn [negb]; [|by left].
  right. eexists _, _. split; [done|]. split; [unfold vsize; rewrite Hlen; lia|].
  split; simpl; try done; [unfold vsize; simpl; lia|]. split; [done|]. unfold vsize in *. simpl in *. lia.
Qed.


End setup.

(** ** The programs *)
Section programs.
Context {work : Type} (env : list (program_call work) → program_call work → bool).
Implicit Types (h : list (program_call work)) (calls : list work).

(** Every call of [h] after the first [from] was answered yes, but for the last one
    of all, which has no answer. *)
Definition answered (from : nat) h : Prop :=
  ∀ n call, (from ≤ n)%nat → h !! n = Some call → call = ManagerShutdown ∨ env (take n h) call = true.

Lemma workAll_outcome calls h ok h' :
  workAll env calls h = (ok, h') →
  ∃ made, h' = h ++ (Work <$> made) ∧ made `prefix_of` calls
    ∧ (ok = true → made = calls ∧ answered (length h) h').
Proof.
  revert h. induction calls as [|call calls IH]; intros h; simpl.
  { intros [= <- <-]. exists []. rewrite app_nil_r. split_and!; [done..|]. intros _. split; [done|].
    intros n c Hn Hc%lookup_lt_Some. lia. }
  destruct (env h (Work call)) eqn:Hok.
  - intros (made & -> & Hprefix & Hall)%IH. exists (call :: made). rewrite <-app_assoc. split; [done|].
    split; [by apply prefix_cons|]. intros [-> Hans]%Hall. split; [done|]. intros n c Hn Hc.
    destruct (decide (n = length h)) as [->|Hne].
    + rewrite lookup_app_r, Nat.sub_diag in Hc by done. injection Hc as <-. right. by rewrite take_app_length.
    + rewrite <-app_assoc in Hans. apply Hans; [rewrite length_app; simpl; lia|done].
  - intros [= <- <-]. exists [call]. split; [done|]. split; [by exists calls|done].
Qed.

(** A program that is not given the usage message brings the manager up and, if it
    came up, shuts it down in the end; exit code 0 means that its thread was placed and made
    all of its calls, and that every one succeeded. *)
Theorem runProgram_outcome locations (calls : GpuLocation → list work) code h :
  runProgram env locations calls = (code, h) →
  head h = Some ManagerInit ∧ (code = 0 ∨ code = 1)%Z
  ∧ (env [] ManagerInit = true → last h = Some ManagerShutdown)
  ∧ (code = 0%Z → answered 0 h ∧ ∃ location rest, locations = location :: rest
       ∧ h = ManagerInit :: PlaceThread (location_numaNode location) :: (Work <$> calls location) ++ [ManagerShutdown]).
Proof.
  unfold runProgram. destruct (env [] ManagerInit) eqn:Hup; cbn [negb]; [|intros [= <- <-]; by split_and!; [|right| |]].
  destruct locations as [|location rest]; [intros [= <- <-]; by split_and!; [|right| |]|].
  destruct (env [ManagerInit] _) eqn:Hplace; [|intros [= <- <-]; by split_and!; [|right| |]].
  destruct (workAll env _ _) as [ok h1] eqn:Hwork. apply workAll_outcome in Hwork as (made & Hh & _ & Hall).
  intros [= <- <-]. split; [by rewrite Hh|]. split; [destruct ok; auto|]. split; [intros _; by rewrite last_snoc|].
  destruct ok; [|done]. intros _. destruct (Hall eq_refl) as [-> Hans]. split; [|exists location, rest; by rewrite Hh].
  intros n call _ Hc. apply lookup_app_Some in Hc as [Hc|[_ Hc]]; [|left; by apply list_lookup_singleton_Some in Hc as [_ <-]].
  right. rewrite take_app_le by (apply lookup_lt_Some in Hc; lia).
  destruct n as [|[|n]]; [rewrite Hh in Hc |- *; by injection Hc as <-..|].
  destruct (Hans (S (S n)) call ltac:(simpl; lia) Hc) as [->|]; [|done].
  rewrite Hh in Hc. simpl in Hc. rewrite list_lookup_fmap in Hc. by destruct (calls location !! n).
Qed.

End programs.

(** ** A measurement of six entries, two of them held, by three workers *)

(** A machine that hands out device memory and streams from an address on. *)
#[export] Instance BenchPlatform : Platform := {|
  world := N;
  host_alloc _ w := (true, w);
  std_hash_u64 x := x;
  std_hash_u32 x := x;
  cudaGetDevice w := (0%Z, 0%Z, w);
  cudaSetDevice _ w := (0%Z, w);
  cudaMalloc size w := if w =? 0 then (2%Z, nullptr, w) else (0%Z, w, w + size);
  cudaFree _ w := (0%Z, w);
  cudaStreamSynchronize _ w := (0%Z, w);
  cudaStreamCreate w := (0%Z, w + 1, w + 1);
  cudaStreamDestroy _ w := (0%Z, w);
  cudaMemsetAsync _ _ _ w := (0%Z, w);
  cudaMemcpyAsync _ _ _ _ w := (0%Z, w);
  cudaMemGetInfo w := (0%Z, 1073741824, 8589934592, w);
|}.

#[export] Instance BenchPlatform_laws : PlatformLaws.
Proof. split; simpl; intros bytes w st p w' Hm Hok; destruct (N.eqb_spec w 0); by simplify_eq. Qed.

#[export] Instance BenchPlatform_memset : MemsetDevice := {| cudaMemsetValueAsync _ _ _ _ w := (0%Z, w) |}.

Lemma BenchPlatform_reliable : ReliableMachine.
Proof. split; try done. simpl. intros w status st w' [= <- <- <-] _. unfold nullptr. lia. Qed.

Definition bench_command : list (list ascii) := [["6"]; ["2"]; ["3"]; ["2"]]%char.
Definition small_bench : BenchArguments := mkBenchArguments 6 2 3 2 3.
Definition ticks (holding : bool) (id : uint64) : Z * Z * Z := (Z.of_N id, Z.of_N id, Z.of_N id).
Definition bench_world_0 : @world BenchPlatform := 8192.
Abbreviation bench_setup := (measure_setup ticks 4096 0 FIFO small_bench bench_world_0).

(** Every thread in turn, [n] times. *)
Definition in_turn (n : nat) : list bench_action :=
  mjoin (replicate n [BenchOwnerStep true true; BenchWorkerStep 0; BenchWorkerStep 1; BenchWorkerStep 2]).

Lemma in_turn_placed n : Forall placed (in_turn n).
Proof. apply Forall_join, Forall_replicate. by repeat constructor. Qed.

Lemma bench_setup_begins : match bench_setup with Some (Some _) => true | _ => false end = true.
Proof. vm_compute. reflexivity. Qed.

Lemma small_bench_closes :
  match bench_setup with
  | Some (Some (requests, s0)) => bench_owner <$> bench_run ticks 0 small_bench requests s0 (in_turn 220)
  | _ => None
  end = Some (Closed true).
Proof. vm_compute. reflexivity. Qed.

Lemma benchmark_measures_replacements_witness :
  match bench_setup with
  | Some (Some (requests, s0)) =>
      ∃ s, bench_run ticks 0 small_bench requests s0 (in_turn 100) = Some s
        ∧ bench_owner s ≠ Rejected ∧ bench_owner s ≠ JoiningWorkers true
        ∧ (∀ i measured n a, bench_workers s !! i = Some (Filling measured n a) → accessStatus a = CacheFill)
        ∧ (∀ i p, bench_workers s !! i ≠ Some (Blocked p))
        ∧ (∀ i ok, bench_workers s !! i = Some (BenchFinished ok) → ok = true)
  | _ => False
  end.
Proof.
  assert (parseArguments bench_command = Some small_bench) as Hparse by (vm_compute; reflexivity).
  assert (4096 ≠ nullptr) as Hthis by done.
  pose proof (benchmark_measures_replacements ticks BenchPlatform_reliable _ _ 4096 0 FIFO bench_world_0 Hparse Hthis) as Hrun.
  generalize bench_setup_begins.
  destruct (measure_setup _ _ _ _ _ _) as [[[requests s0]|]|]; [|discriminate|discriminate].
  intros _. apply Hrun, in_turn_placed.
Defined.

(** The same machine, on which the second payload of worker 1 cannot be written; and
    operations that find no thread for worker 2. *)
Definition BenchPlatform_faulty : MemsetDevice := {|
  cudaMemsetValueAsync _ value _ _ w := (if value =? 110 then 700%Z else 0%Z, w);
|}.

Abbreviation faulty_setup := (@measure_setup BenchPlatform BenchPlatform_faulty ticks 4096 0 FIFO small_bench bench_world_0).
Definition short_of_threads (n : nat) : list bench_action :=
  [BenchOwnerStep true true; BenchOwnerStep true true; BenchOwnerStep false false] ++ in_turn n.

Lemma faulty_setup_begins : match faulty_setup with Some (Some _) => true | _ => false end = true.
Proof. vm_compute. reflexivity. Qed.

Lemma short_of_threads_ends :
  match faulty_setup with
  | Some (Some (requests, s0)) =>
      (λ s, (bench_owner s, bench_workers s))
        <$> @bench_run BenchPlatform BenchPlatform_faulty ticks 0 small_bench requests s0 (short_of_threads 220)
  | _ => None
  end = Some (Rejected, [BenchFinished true; BenchFinished false]).
Proof. vm_compute. reflexivity. Qed.

