(* ===== verification/ResultScenario.v ===== *)
(** The result pipeline on concrete machines: two frames of four bytes through one
    slot, and its tasks on the registry of [TaskScenario]. *)
From Stdlib Require Import Bool.
From S2P Require Import Prelude.
From S2P Require Import Platform.
From S2P Require Import GpuDataKey.
From S2P Require Import CacheTypes.
From S2P Require Import GpuDataCache.
From S2P Require Import GpuDataAccess.
From S2P Require Import CacheSpec.
From S2P Require Import CacheRefinement.
From S2P Require Import CacheFailure.
From S2P Require Import CacheLifecycle.
From S2P Require Import CacheLeases.
From S2P Require Import CacheLifetime.
From S2P Require Import CacheProtocol.
From S2P Require Import GpuTopology.
From S2P Require Import GpuContextManager.
From S2P Require Import RegistryInvariant.
From S2P Require Import DeviceMemory.
From S2P Require Import StaticScenario.
From S2P Require Import DeviceCalls.
From S2P Require Import DummyTask.
From S2P Require Import GraphScenario.
From S2P Require Import TaskBehaviour.
From S2P Require Import TaskScenario.
From S2P Require Import ResultTasks.
From S2P Require Import ResultTaskBehaviour.
From S2P Require Import ResultPipeline.
From S2P Require Import ResultPipelineInvariant.
From S2P Require Import ResultPipelineControl.
From S2P Require Import ResultPipelineProgress.
From S2P Require Import ResultPipelineBehaviour.
#[local] Open Scope N_scope.

(** Transfers and launches that always succeed. *)
#[export] Instance PlainKernelDevice : KernelDevice := {|
  cudaMemcpyDeviceToDevice _ _ _ _ w := (0%Z, w);
  cudaMemcpyDeviceToHost _ _ _ _ w := (0%Z, w);
  cudaLaunch _ _ _ _ w := w;
  cudaGetLastError w := (0%Z, w);
|}.

(** *** The tasks *)

Definition small_atom : ResultAtom := makeAtom 7 64.
Definition ready_atom : ResultAtom :=
  small_atom <| ra_result := transformed <$> ra_frame small_atom |> <| ra_ready := true |>
    <| ra_cpuStages := 1 |> <| ra_checksum := accumulate (transformed <$> ra_frame small_atom) |>.

Lemma producer_implements_step_witness :
  ∃ w1, taskA_begin 501 small_atom running_tasks fresh_memory = Some (Some (mkRequest 0 11 900 64), w1)
    ∧ ∃ ok content c' w3, taskA_finish 501 filled small_atom running_tasks (manager asked) w1
        = Some (producer_step 64 ok content small_atom, c', w3).
Proof.
  destruct (producer_implements_step 501 small_atom running_tasks fresh_memory bound_resources
    running_tasks_registry) as (q & w1 & Hrun & _ & Hq); [by vm_compute|].
  assert (match taskA_begin 501 small_atom running_tasks fresh_memory with
          | Some (Some _, _) => true | _ => false end = true) as Hsome by by vm_compute.
  rewrite Hrun in Hsome. destruct q as [q|]; [|destruct (diff_false_true Hsome)].
  destruct (Hq q eq_refl) as (Heq & _ & Hfinish). exists w1.
  split; [rewrite Hrun, Heq; by vm_compute|].
  destruct filled_held as (d & Hc & Hl).
  destruct (Hfinish filled (manager asked) d w1 Hc Hl)
    as (ok & content & c' & w3 & published & status & Hrun2 & _); [by vm_compute..|].
  exists ok, content, c', w3. exact Hrun2.
Defined.

Lemma consumer_implements_step_witness :
  ∃ w1, taskB_begin (mkTaskB 0 0 501) ready_atom 1 running_tasks fresh_memory
      = Some (Some (mkRequest 0 11 900 64), w1)
    ∧ ∃ ok b' c' w3, taskB_finish filled ready_atom 1 Keep (mkTaskB 0 0 501) running_tasks (manager asked) w1
        = Some (consumer_step 64 1 ok ready_atom, b', c', w3).
Proof.
  destruct (consumer_implements_step (mkTaskB 0 0 501) ready_atom 1 Keep running_tasks fresh_memory
    bound_resources running_tasks_registry) as (q & w1 & Hrun & Hq); [by vm_compute|].
  assert (match taskB_begin (mkTaskB 0 0 501) ready_atom 1 running_tasks fresh_memory with
          | Some (Some _, _) => true | _ => false end = true) as Hsome by by vm_compute.
  rewrite Hrun in Hsome. destruct q as [q|]; [|destruct (diff_false_true Hsome)].
  destruct (Hq q eq_refl) as (Heq & _ & Hfinish). exists w1.
  split; [rewrite Hrun, Heq; by vm_compute|].
  destruct filled_held as (d & Hc & Hl).
  destruct (Hfinish filled (manager asked) d w1 Hc Hl)
    as (ok & b' & c' & w3 & published & status & Hrun2 & _); [by vm_compute..|].
  exists ok, b', c', w3. exact Hrun2.
Defined.

(** Two blocks for 300 bytes. *)
Lemma result_kernel_transforms_witness :
  run_threads (transformResultKernel 0 1000 300) kernel_block (reverse (threads_of (kernel_grid 300) kernel_block))
    (λ a, a) 1299 = transformed 299
  ∧ run_threads (transformResultKernel 0 1000 300) kernel_block (reverse (threads_of (kernel_grid 300) kernel_block))
    (λ a, a) 1300 = 1300.
Proof.
  split.
  - rewrite (result_kernel_transforms 0 1000 300); [reflexivity|done|by left|apply reverse_Permutation].
  - rewrite (result_kernel_transforms 0 1000 300); [reflexivity|done|by left|apply reverse_Permutation].
Defined.

Lemma result_resources_given_back_witness :
  ∃ infra1 w1 r1, resources_load 64 501 two_tasks fresh_memory = Some (true, infra1, w1)
    ∧ task_store infra1 !! 501 = Some r1 ∧ ctx r1 ≠ nullptr ∧ inBytes r1 = 64.
Proof.
  destruct (result_resources_given_back 64 501 two_tasks fresh_memory TaskGpuResources_default
    two_tasks_registry) as (ok & infra1 & w1 & r1 & Hrun & _ & Hr1 & Hok & _);
    [by vm_compute|apply two_tasks_slots|done|done|].
  assert (match resources_load 64 501 two_tasks fresh_memory with Some (ok, _, _) => ok | None => false end = true)
    as Hloaded by by vm_compute.
  rewrite Hrun in Hloaded. cbv beta iota in Hloaded. destruct (Hok Hloaded) as (_ & ? & ? & _).
  exists infra1, w1, r1. split; [by rewrite Hrun, Hloaded|]. by split_and!.
Defined.

(** *** The pipeline *)

Definition small_pipeline : PipelineConfig := mkPipelineConfig 2 2 1 4 1 0 50 LRU Keep.

(** A task's call that succeeds, for the frame of that number. *)
Definition succeeds (stage : nat) (frame : N) : pipeline_action :=
  StageStep stage (mkInput (Answers true) (λ i, transformed (N.land (add64 frame i) 255)) 0).

Definition begin_acts : list pipeline_action :=
  [OwnerStep true; OwnerStep true; OwnerStep true; OwnerStep true;
   succeeds 0 1; succeeds 1 1; succeeds 2 1; OwnerStep true; succeeds 0 1; succeeds 1 1; succeeds 2 1].
Definition produce_acts (frame : N) : list pipeline_action :=
  [succeeds 0 frame; succeeds 0 frame; succeeds 0 frame;
   succeeds 1 frame; succeeds 1 frame; succeeds 1 frame; succeeds 1 frame; succeeds 2 frame].
Definition consume_acts (frame : N) : list pipeline_action := [succeeds 2 frame; succeeds 2 frame].

Fixpoint pipeline_run (p : Pipeline) (acts : list pipeline_action) : Pipeline :=
  match acts with
  | [] => p
  | act :: acts =>
      match pipeline_perform small_pipeline p act with Some p => pipeline_run p acts | None => p end
  end.

Lemma pipeline_run_running p acts : running small_pipeline p → running small_pipeline (pipeline_run p acts).
Proof.
  revert p. induction acts as [|act acts IH]; intros p Hp; simpl; [done|].
  destruct (pipeline_perform _ p act) as [q|] eqn:Hrun; [|done]. apply IH. by eapply running_step.
Qed.

(** The first frame is with the consumer. *)
Definition before_consumer : Pipeline :=
  pipeline_run (pipeline_start small_pipeline) (begin_acts ++ produce_acts 1).
Definition after_consumer : Pipeline := pipeline_run before_consumer [succeeds 2 1].
Definition all_acts : list pipeline_action :=
  begin_acts ++ produce_acts 1 ++ consume_acts 1 ++ produce_acts 2 ++ consume_acts 2 ++ [OwnerStep true].
Definition all_done : Pipeline := pipeline_run (pipeline_start small_pipeline) all_acts.

Lemma small_running acts : running small_pipeline (pipeline_run (pipeline_start small_pipeline) acts).
Proof. by apply pipeline_run_running, running_start. Qed.

Lemma slots_are_exclusive_witness :
  slots_held before_consumer = [0] ∧ sch_active (pl_sched before_consumer) = 1
  ∧ sch_active (pl_sched before_consumer) + vsize (freeSlots (pl_sched before_consumer)) = 1.
Proof.
  destruct (slots_are_exclusive small_pipeline before_consumer (small_running _)) as (_ & _ & _ & Hsum & _).
  split; [by vm_compute|]. split; [by vm_compute|]. exact Hsum.
Defined.

Lemma completed_frames_are_verified_witness :
  pl_completed after_consumer = 1
  ∧ ∃ atom, vat (pl_atoms before_consumer) 0 = Some atom ∧ ra_result atom = [91; 88; 89; 94].
Proof.
  split; [by vm_compute|].
  destruct (completed_frames_are_verified small_pipeline before_consumer (succeeds 2 1) after_consumer)
    as (_ & _ & t & x & atom & Ht & Hx & _ & Hatom & _ & Hframe & Hres & _).
  - apply small_running.
  - by vm_compute.
  - by vm_compute.
  - assert (thread_slot <$> pl_threads before_consumer !! 2%nat = Some (Some 0)) as Hslot by by vm_compute.
    rewrite Ht in Hslot. simpl in Hslot. rewrite Hx in Hslot. injection Hslot as ->.
    exists atom. split; [exact Hatom|]. rewrite Hres, Hframe. by vm_compute.
Defined.

(** [15 * (2 * 5 + 3) + 35] operations at most; at the start there is one. *)
Lemma pipeline_terminates_witness : can_proceed (pipeline_start small_pipeline).
Proof.
  destruct (pipeline_terminates small_pipeline 0 (pipeline_start small_pipeline)) as [_ [Ho|Hgo]].
  - by vm_compute.
  - constructor.
  - by vm_compute in Ho.
  - exact Hgo.
Defined.

(** [healthy], decided. *)
Definition healthyb (p : Pipeline) (act : pipeline_action) : bool :=
  match act with
  | StageStep k input =>
      match outcome input with Answers ok => ok | Throws => false end
      && match pl_threads p !! k with
         | Some t => bool_decide (bytes_of 4 (content input) = transformed <$> atom_bytes (inc64 (thread_frame t)) 4)
         | None => true
         end
  | OwnerStep created => created
  | _ => true
  end.

Lemma healthyb_healthy p act : healthyb p act = true → healthy small_pipeline p act.
Proof.
  destruct act as [k input|[]|k|]; simpl; try done. rewrite andb_true_iff. intros [Hout Hc].
  split; [by destruct (outcome input) as [[]|]|]. intros t Ht. rewrite Ht in Hc. by apply bool_decide_eq_true in Hc.
Qed.

Fixpoint healthy_run (p : Pipeline) (acts : list pipeline_action) : bool :=
  match acts with
  | [] => true
  | act :: acts =>
      healthyb p act
      && match pipeline_perform small_pipeline p act with Some p => healthy_run p acts | None => true end
  end.

Lemma healthy_run_well p acts :
  running_well small_pipeline p → healthy_run p acts = true → running_well small_pipeline (pipeline_run p acts).
Proof.
  revert p. induction acts as [|act acts IH]; intros p Hp; simpl; [done|]. rewrite andb_true_iff.
  intros [Hh Hacts]. destruct (pipeline_perform _ p act) as [q|] eqn:Hrun; [|done]. apply IH; [|done].
  eapply well_step; [exact Hp| |exact Hrun]. by apply healthyb_healthy.
Qed.

(** Two frames take at most one more turn each; all are completed. *)
Lemma healthy_pipeline_completes_witness :
  pl_owner all_done = Joined ∧ sch_failed (pl_sched all_done) = false ∧ pl_completed all_done = 2.
Proof.
  destruct (healthy_pipeline_completes small_pipeline all_done) as [Hf Hc].
  - apply healthy_run_well; [by apply well_start|by vm_compute].
  - assert (pl_owner all_done = Joined) as Ho by by vm_compute.
    split; [exact Ho|]. split; [exact Hf|]. apply Hc, Ho.
Defined.

Lemma pipeline_verdict_witness :
  ∃ m cache' infra' w', pipeline_finish small_pipeline all_done 501 (mkTaskB 2 0 502) (GpuDataCache_default 77)
      two_tasks fresh_memory = Some (true, m, cache', infra', w')
    ∧ ms_completed m = 2 ∧ ms_latencyP50 m ∈ pl_latency all_done.
Proof.
  destruct (pipeline_verdict small_pipeline all_done 501 (mkTaskB 2 0 502) (GpuDataCache_default 77) two_tasks
    fresh_memory TaskGpuResources_default TaskGpuResources_default)
    as (okA & infra1 & w1 & okB & infra2 & w2 & okC & cache' & w3 & m & _ & _ & _ & _ & Hrun & _ & _ & _ & _ & Hok).
  - apply small_running.
  - by vm_compute.
  - apply two_tasks_registry.
  - by vm_compute.
  - by vm_compute.
  - by vm_compute.
  - by intros _.
  - by intros _.
  - assert (match pipeline_finish small_pipeline all_done 501 (mkTaskB 2 0 502) (GpuDataCache_default 77)
      two_tasks fresh_memory with Some (ok, _, _, _, _) => ok | None => false end = true) as Htrue by by vm_compute.
    rewrite Hrun in Htrue. cbv beta iota in Htrue. destruct (Hok Htrue) as (Hm & Hp & _).
    exists m, cache', infra2, w3. split; [by rewrite Hrun, Htrue|]. split; [exact Hm|exact Hp].
Defined.
