(* ===== verification/KernelScenario.v ===== *)
(** A concrete machine with a device that runs kernels, on which what the
    algorithms and the tasks of the result pipeline compute is witnessed: memory is a function from addresses to bytes, a launch runs its
    threads block by block, and every call takes effect at once. *)
From Stdlib Require Import Ascii.
From stdpp Require Import strings.
From S2P Require Import Prelude.
From S2P Require Import Platform.
From S2P Require Import GpuDataKey.
From S2P Require Import CacheTypes.
From S2P Require Import GpuDataCache.
From S2P Require Import GpuDataAccess.
From S2P Require Import CacheSpec.
From S2P Require Import CacheRefinement.
From S2P Require Import CacheLifecycle.
From S2P Require Import CacheLeases.
From S2P Require Import CacheLifetime.
From S2P Require Import CacheProtocol.
From S2P Require Import GpuTopology.
From S2P Require Import GpuContextManager.
From S2P Require Import StaticData.
From S2P Require Import DeviceMemory.
From S2P Require Import DemoTypes.
From S2P Require Import DeviceCalls.
From S2P Require Import DummyTask.
From S2P Require Import MatrixAlgo.
From S2P Require Import MatrixKernel.
From S2P Require Import MatrixBehaviour.
From S2P Require Import ResultTasks.
From S2P Require Import ResultTaskBehaviour.
From S2P Require Import ResultCompute.
#[local] Open Scope N_scope.

Record kernel_machine := mkKernelMachine {
  km_next : N;
  km_blocks : list (N * N);
  km_device : memory;
  km_host : memory;
  km_writer : N → ptr;
}.

Definition km_room (w : kernel_machine) : bool :=
  negb (km_next w =? 0)
  && forallb (λ '(q, m), (q <? km_next w) && (q + m <=? km_next w)) (km_blocks w).

(** [n] bytes from [p] become what [value] says. *)
Definition patch {A} (p n : N) (value : N → A) (content : N → A) : N → A :=
  λ a, if in_range p n a then value (a - p) else content a.

Definition on_km_device (f : memory → memory) (w : kernel_machine) : kernel_machine :=
  mkKernelMachine (km_next w) (km_blocks w) (f (km_device w)) (km_host w) (km_writer w).

#[export] Instance KernelPlatform : Platform := {|
  world := kernel_machine;
  host_alloc _ w := (true, w);
  std_hash_u64 x := x;
  std_hash_u32 x := x;
  cudaGetDevice w := (0%Z, 0%Z, w);
  cudaSetDevice _ w := (0%Z, w);
  cudaMalloc n w :=
    if km_room w
    then (0%Z, km_next w,
          mkKernelMachine (km_next w + n) ((km_next w, n) :: km_blocks w) (km_device w) (km_host w) (km_writer w))
    else (2%Z, nullptr, w);
  cudaFree _ w := (0%Z, w);
  cudaStreamSynchronize _ w := (0%Z, w);
  cudaStreamCreate w := (0%Z, 77, w);
  cudaStreamDestroy _ w := (0%Z, w);
  cudaMemsetAsync p n _ w := (0%Z, on_km_device (patch p n (λ _, 0)) w);
  cudaMemcpyAsync p source n _ w := (0%Z, on_km_device (patch p n (λ i, km_host w (source + i))) w);
  cudaMemGetInfo w := (0%Z, 1073741824, 8589934592, w);
|}.

Lemma km_room_spec w :
  km_room w = true → km_next w ≠ 0 ∧ ∀ q m, (q, m) ∈ km_blocks w → q < km_next w ∧ q + m ≤ km_next w.
Proof.
  unfold km_room. rewrite andb_true_iff, negb_true_iff, N.eqb_neq, forallb_forall.
  intros [? Hall]. split; [done|]. intros q m Hin%list_elem_of_In.
  specialize (Hall _ Hin). simpl in Hall. by rewrite andb_true_iff, N.ltb_lt, N.leb_le in Hall.
Qed.

#[export] Instance KernelPlatform_laws : PlatformLaws.
Proof.
  split; simpl; intros bytes w st p w' Hm Hok; destruct (km_room w) eqn:Hr; simplify_eq; auto.
  intros _. by apply km_room_spec.
Qed.

#[export] Instance KernelPlatform_memory : DeviceMemory.
Proof.
  refine (Build_DeviceMemory KernelPlatform (λ w, list_to_map (km_blocks w)) km_device km_host (λ _, []) _ _ _ _ _ _ _);
    simpl; intros; simplify_eq; try done.
  - split; [done|]. by intros t ?%elem_of_nil.
  - destruct (km_room w) eqn:Hr; simplify_eq. apply km_room_spec in Hr as (? & Hall).
    split_and!; try done.
    + apply not_elem_of_list_to_map_1. intros ([q m] & Hq & Hin)%list_elem_of_fmap. simpl in Hq.
      apply Hall in Hin. lia.
    + intros q m Hq%elem_of_list_to_map_2. right. by apply Hall.
    + by intros t ?%elem_of_nil.
  - split_and!; try done. apply list_subseteq_nil.
  - split_and!; try done. apply list_subseteq_nil.
Defined.

#[export] Instance KernelHostMemory : HostMemory.
Proof.
  refine (Build_HostMemory KernelPlatform
    (λ n w, (0%Z, km_next w, mkKernelMachine (km_next w + n) (km_blocks w) (km_device w) (km_host w) (km_writer w)))
    (λ _ w, (0%Z, w)) (λ p n w, bytes_at (km_host w) p n) _
    (λ p l w, mkKernelMachine (km_next w) (km_blocks w) (km_device w)
       (patch p (vsize l) (λ i, default 0 (vat l i)) (km_host w)) (km_writer w))).
  intros p n w. apply bytes_at_size.
Defined.

#[export] Instance RunningDevice : KernelDevice := {|
  cudaMemcpyDeviceToDevice p source n _ w :=
    (0%Z, on_km_device (patch p n (λ i, km_device w (source + i))) w);
  cudaMemcpyDeviceToHost p source n stream w :=
    (0%Z, mkKernelMachine (km_next w) (km_blocks w) (km_device w)
       (patch p n (λ i, km_device w (source + i)) (km_host w)) (patch p n (λ _, stream) (km_writer w)));
  cudaLaunch grid block k _ w := on_km_device (run_threads k block (threads_of grid block)) w;
  cudaGetLastError w := (0%Z, w);
|}.

#[export] Instance RunningDevice_memory : KernelMemory.
Proof.
  refine (Build_KernelMemory _ _ _ _ km_writer _ _ _ _ _ _); simpl; intros; simplify_eq; try done.
  by eexists.
Defined.

(** Blocks of 16 by 16 threads over a region of 20 by 20. *)
Lemma matrix_kernel_squares_witness :
  run_threads (matrixMultiplicationKernel 0 10000 (Z.of_N 20) (Z.of_N 32)) matrix_block
    (reverse (threads_of (matrix_grid 20) matrix_block)) (λ a, a mod 251) 11599
  = square_byte (λ a, a mod 251) 20 32 1599.
Proof.
  rewrite (matrix_kernel_squares 0 10000 20 32); [reflexivity|done..|by left|apply reverse_Permutation].
Defined.

Definition fresh_machine : @world KernelPlatform := mkKernelMachine 4096 [] (λ _, 255) (λ _, 0) (λ _, 0).
Definition demo_runtime : AlgoRuntimeInfo := mkRuntime 16384 16 128 128 1.
Definition demo_resources : TaskGpuResources :=
  TaskGpuResources_default <| resourceId := 0%Z |> <| task_gpuId := 0%Z |> <| task_stream := 11 |>
    <| h_in := 950 |> <| inBytes := 16384 |>.

Lemma matrix_init_outcome_witness :
  ∃ a' w', matrix_init CEL_MULTIPLIER demo_runtime demo_resources MatrixAlgo_default fresh_machine
      = Some (true, 0, a', w')
    ∧ size_of a' = 32 ∧ sized a' ∧ bound_to demo_resources a' = true.
Proof.
  destruct (matrix_init_outcome CEL_MULTIPLIER demo_runtime demo_resources MatrixAlgo_default fresh_machine)
    as (ok & a' & w' & Hrun & Hok & _); [done..|].
  assert (match matrix_init CEL_MULTIPLIER demo_runtime demo_resources MatrixAlgo_default fresh_machine with
          | Some (ok, _, _, _) => ok | None => false end = true) as Htrue by by vm_compute.
  rewrite Hrun in Htrue. cbv beta iota in Htrue. destruct (Hok Htrue) as [[Hb Hs Hsize _ _] _].
  exists a', w'. split; [by rewrite Hrun, Htrue|]. split; [|by split].
  apply N2Z.inj. rewrite Hsize. reflexivity.
Defined.

(** *** A task on a frame of 8 by 8 pixels *)

#[export] Instance KernelDriver : GpuDriver := {|
  cuInit w := (0%Z, w);
  cudaGetDeviceCount w := (0%Z, 1%Z, w);
  cudaDeviceGetPCIBusId _ w := (0%Z, ["0"%char], w);
  read_file _ _ := Some ["0"%char];
  cuDeviceGet g w := (0%Z, g, w);
  cuDevicePrimaryCtxRetain _ w := (0%Z, 700, w);
  cuDevicePrimaryCtxRelease _ w := (0%Z, w);
  cuCtxGetId _ w := (0%Z, 1, w);
  cudaGetDeviceProperties _ w := (0%Z, w);
  getcpu _ := (0%Z, 0%Z);
|}.

Definition kernel_frame : FrameMetadata := mkMetadata (mkKey 7 1 0) 64 8 8 1.
Definition kernel_request : GpuCacheRequest := mkRequest 0 11 900 64.

(** A cache in service, and the access its first request gets. *)
Definition kernel_acts : list action :=
  [Initialize [0%Z] 64 2 10 LRU; Request kernel_frame kernel_request 1000 1000 1000].
Definition kernel_system : System :=
  default (CacheProtocol.start 77 fresh_machine) (run (CacheProtocol.start 77 fresh_machine) kernel_acts).
Definition kernel_access : GpuDataAccess := default GpuDataAccess_default (head (live kernel_system)).

Lemma kernel_access_held : ∃ d, represents (manager kernel_system) d ∧ holds_lease d kernel_access.
Proof.
  destruct (reachable_in_service kernel_system) as (d & Hc & Hag).
  - exists 77, fresh_machine, kernel_acts. split; [done|].
    destruct (run_invariant (CacheProtocol.start 77 fresh_machine) kernel_acts) as (s & Hrun & _);
      [by apply start_invariant|]. unfold kernel_system. by rewrite Hrun.
  - by vm_compute.
  - exists d. split; [done|]. eapply agree_holds; [done|].
    assert (live kernel_system = [kernel_access]) as -> by (by vm_compute). by left.
Qed.

(** Regions of 2 by 2 and 3 by 3. *)
Definition small_cel : MatrixAlgo :=
  mkMatrixAlgo 0 0 8 8 2 64 16 20000 30000 true (mkParams "" []).
Definition small_sdd : MatrixAlgo :=
  mkMatrixAlgo 0 0 8 8 3 64 36 21000 31000 true (mkParams "" []).
Definition kernel_resources : TaskGpuResources :=
  demo_resources <| inBytes := 64 |> <| d_input := 900 |>.
Definition kernel_task (model : ExecutionModel) : DummyTask :=
  mkDummyTask 0 model (mkRuntime 64 1 8 8 1) 501 [(Cel, small_cel); (Sdd, small_sdd)] true 1 Started.
Definition kernel_atom : FrameCpuAtom :=
  mkAtom kernel_frame (N.of_nat <$> seq 1 64)
    (mkResult 7 true [mkOutput "cel" (replicate 16 0) 2 2; mkOutput "sdd" (replicate 36 0) 3 3]).
Definition kernel_infra : GpuInfra := GpuInfra_initial <| task_store := {[501 := kernel_resources]} |>.

Definition kernel_execution (model : ExecutionModel) : option (bool * FrameCpuAtom * GpuDataCache * world) :=
  execute_finish (kernel_task model) kernel_access kernel_atom kernel_infra (manager kernel_system)
    (outside kernel_system).

(** [1 2; 9 10] squared is [19 22; 99 118]. *)
Lemma execute_computes_witness :
  ∃ atom' c' w' out, kernel_execution Interleaved = Some (true, atom', c', w')
    ∧ result_outputs (atom_result atom') !! 0%nat = Some out
    ∧ output_data out = [19; 0; 0; 0; 22; 0; 0; 0; 99; 0; 0; 0; 118; 0; 0; 0].
Proof.
  assert (match kernel_execution Interleaved with Some (ok, _, _, _) => ok | None => false end = true) as Hok
    by by vm_compute.
  destruct (kernel_execution Interleaved) as [[[[ok atom'] c'] w']|] eqn:Hrun; [|destruct (diff_false_true Hok)].
  cbv beta iota in Hok. destruct kernel_access_held as (d & Hc & Hl).
  destruct (execute_computes (kernel_task Interleaved) kernel_access kernel_atom kernel_infra
    (manager kernel_system) d (outside kernel_system) kernel_resources ok atom' c' w' Hc Hl) as [Hall _].
  - by vm_compute.
  - by vm_compute.
  - by vm_compute.
  - by vm_compute.
  - split; [|split; [|split; [|split; [|done]]]].
    + split; [by eexists _, _|]. split; [by unfold sized; split_and!; vm_compute|].
      split; [by vm_compute|by left; vm_compute].
    + constructor; [|done]. split; left; by vm_compute.
    + split; [by eexists _, _|]. split; [by unfold sized; split_and!; vm_compute|].
      split; [by vm_compute|by left; vm_compute].
    + done.
  - by vm_compute.
  - exists (d_data kernel_access), 64. split_and!; by vm_compute.
  - exact Hrun.
  - exact Hok.
  - destruct (Hall 0%nat Cel small_cel eq_refl) as (out & Hout & Hdata).
    exists atom', c', w', out. split; [by rewrite Hok|]. split; [exact Hout|]. rewrite Hdata. by vm_compute.
Defined.

(** *** The tasks of the result pipeline *)

(** The machine with the buffers of a task. *)
Definition buffers_machine : @world KernelPlatform :=
  let '(_, _, w) := cudaMalloc 64 (outside kernel_system) in
  let '(_, _, w) := cudaMalloc 64 w in w.
Definition result_resources : TaskGpuResources :=
  kernel_resources <| d_input := km_next (outside kernel_system) |>
    <| d_scratch := km_next (outside kernel_system) + 64 |>.
Definition result_infra : GpuInfra := GpuInfra_initial <| task_store := {[501 := result_resources]} |>.
Definition result_atom : ResultAtom := makeAtom 7 64.

Lemma result_buffers_apart : buffers result_resources kernel_access buffers_machine.
Proof.
  split.
  - by vm_compute.
  - exists (d_input result_resources), 64. split_and!; by vm_compute.
  - left. by vm_compute.
  - left. by vm_compute.
Qed.

Definition produced : option (bool * ResultAtom * GpuDataCache * world) :=
  taskA_finish 501 kernel_access result_atom result_infra (manager kernel_system) buffers_machine.

Lemma producer_computes_witness :
  ∃ atom' c' w', produced = Some (true, atom', c', w')
    ∧ take 4 (ra_result atom') = [93; 82; 83; 80]
    ∧ device_holds (d_data kernel_access) (transformed <$> ra_frame result_atom) w'.
Proof.
  assert (match produced with Some (ok, _, _, _) => ok | None => false end = true) as Hok by by vm_compute.
  destruct produced as [[[[ok atom'] c'] w']|] eqn:Hrun; [|destruct (diff_false_true Hok)].
  cbv beta iota in Hok. destruct kernel_access_held as (d & Hc & Hl).
  destruct (producer_computes 501 kernel_access result_atom result_infra (manager kernel_system) d
    buffers_machine result_resources ok atom' c' w' Hc Hl) as [Hatom Hdev];
    [by vm_compute..|apply result_buffers_apart|by vm_compute|exact Hrun|exact Hok|].
  exists atom', c', w'. split; [by rewrite Hok|]. split; [|exact Hdev]. rewrite Hatom. by vm_compute.
Defined.

Definition checked_atom : ResultAtom :=
  result_atom <| ra_result := transformed <$> ra_frame result_atom |> <| ra_ready := true |>
    <| ra_cpuStages := 1 |> <| ra_checksum := accumulate (transformed <$> ra_frame result_atom) |>.

Definition consumed : option (bool * TaskB * GpuDataCache * world) :=
  taskB_finish kernel_access checked_atom 1 Keep (mkTaskB 0 0 501) result_infra (manager kernel_system)
    buffers_machine.

Lemma consumer_checks_payload_witness :
  ∃ b' c' w', consumed = Some (true, b', c', w') ∧ uploadedBytes b' = 64
    ∧ ra_result checked_atom = transformed <$> ra_frame checked_atom.
Proof.
  assert (match consumed with Some (ok, b, _, _) => ok && (uploadedBytes b =? 64) | None => false end = true) as Hok
    by by vm_compute.
  destruct consumed as [[[[ok b'] c'] w']|] eqn:Hrun; [|destruct (diff_false_true Hok)].
  cbv beta iota in Hok. apply andb_true_iff in Hok as [Hok Hup].
  destruct kernel_access_held as (d & Hc & Hl).
  destruct (consumer_checks_payload kernel_access checked_atom 1 Keep (mkTaskB 0 0 501) result_infra
    (manager kernel_system) d buffers_machine result_resources ok b' c' w' Hc Hl) as [Hres _];
    [by vm_compute..|apply result_buffers_apart| |by vm_compute|by vm_compute|exact Hrun|exact Hok|].
  - exists (d_data kernel_access), 64. split_and!; by vm_compute.
  - exists b', c', w'. split; [by rewrite Hok|]. split; [by apply N.eqb_eq|exact Hres].
Defined.
