(* ===== verification/ProgramScenario.v ===== *)
(** Concrete runs on which the properties of the program and of the placement of
    its threads are witnessed: a machine with three GPUs on two NUMA nodes whose
    graphs do all they are asked, and a thread that may use four CPUs. *)
From Stdlib Require Import Ascii.
From stdpp Require Import gmap pretty strings.
From S2P Require Import Prelude.
From S2P Require Import Platform.
From S2P Require Import CacheTypes.
From S2P Require Import GpuTopology.
From S2P Require Import GpuContextManager.
From S2P Require Import TopologyBehaviour.
From S2P Require Import StaticData.
From S2P Require Import DemoTypes.
From S2P Require Import DummyTask.
From S2P Require Import DummyGraph.
From S2P Require Import NumberText.
From S2P Require Import NumaExecutor.
From S2P Require Import Program.
From S2P Require Import ProgramBehaviour.

(** ** The program *)

Section program.
#[local] Open Scope N_scope.

Definition word (s : string) : text := String.list_ascii_of_string s.
Definition three_gpus : list GpuLocation := [mkLocation 0 1; mkLocation 1 0; mkLocation 2 1].
Definition short_run : list text := [word "5"; word "2"; word "interleaved"; word "16"].

(** Every call succeeds, and the flag is never set. *)
Definition obliging (h : history) (c : call) : bool :=
  match c with LoadCancellation => false | _ => true end.
Definition complete (_ : history) : size_t * size_t := (21, 0).

Definition short_options : Options := mkOptions 5 2 Interleaved 16.
Definition short_runtime : AlgoRuntimeInfo := mkRuntime 16384 16 128 128 1.
Definition short_plan : list (Z * GraphConfig) :=
  [(0%Z, graphConfigFor short_options short_runtime [1%Z] 0);
   (1%Z, graphConfigFor short_options short_runtime [0%Z; 2%Z] 7)].

(** The frames of the first graph are 0 to 6, those of the second start at 7. *)
Lemma frames_are_numbered_witness :
  parseOptions short_run = Some short_options
  ∧ planGraphs short_options short_runtime (groupLocations three_gpus) 0 = (true, short_plan)
  ∧ 0 + total_of short_options * 1 ≤ 7.
Proof.
  assert (parseOptions short_run = Some short_options) as Hopt by by vm_compute.
  assert (planGraphs short_options short_runtime (groupLocations three_gpus) 0 = (true, short_plan)) as Hplan
    by by vm_compute.
  split; [done|]. split; [done|].
  destruct (frames_are_numbered short_run short_options short_runtime three_gpus true short_plan Hopt Hplan)
    as (_ & _ & _ & _ & Hframes).
  destruct (Hframes 0%nat 0%Z [1%Z] 0%Z _ eq_refl eq_refl) as (_ & _ & Hnext).
  exact (Hnext 1%nat 1%Z _ (Nat.lt_0_succ 0) eq_refl).
Defined.

Definition full_run : history :=
  InitManager :: (Initialize <$> [0%nat; 1%nat]) ++ (Start <$> [0%nat; 1%nat])
  ++ (StartPhase Warmup <$> [0%nat; 1%nat]) ++ ReleaseGate Warmup :: (WaitForPhase Warmup <$> [0%nat; 1%nat])
  ++ LoadCancellation :: (StartPhase Timed <$> [0%nat; 1%nat])
  ++ ReleaseGate Timed :: (WaitForPhase Timed <$> [0%nat; 1%nat])
  ++ LoadCancellation :: (Stop <$> [0%nat; 1%nat]) ++ (PrintStatistics <$> [0%nat; 1%nat])
  ++ (Shutdown <$> [0%nat; 1%nat]) ++ [ShutdownManager].

Lemma main_success_witness :
  main obliging short_run three_gpus complete [] = Some (0%Z, full_run)
  ∧ all_accepted obliging 2 full_run ∧ 3 * total_of short_options = 21.
Proof.
  assert (main obliging short_run three_gpus complete [] = Some (0%Z, full_run)) as Hmain by by vm_compute.
  destruct (main_success obliging short_run three_gpus complete full_run Hmain)
    as (options & _ & _ & _ & _ & Hall & _).
  split; [done|]. split; [done|].
  by vm_compute.
Defined.

End program.

(** ** The placement *)

Section placement.
#[local] Open Scope Z_scope.

(** The world is the calling thread's affinity. *)
#[local] Instance ThreadPlatform : Platform := {|
  world := gset Z;
  host_alloc _ w := (true, w);
  std_hash_u64 x := x;
  std_hash_u32 x := x;
  cudaGetDevice w := (0, 0, w);
  cudaSetDevice _ w := (0, w);
  cudaMalloc _ w := (2, nullptr, w);
  cudaFree _ w := (0, w);
  cudaStreamSynchronize _ w := (0, w);
  cudaStreamCreate w := (2, nullptr, w);
  cudaStreamDestroy _ w := (0, w);
  cudaMemsetAsync _ _ _ w := (0, w);
  cudaMemcpyAsync _ _ _ _ w := (0, w);
  cudaMemGetInfo w := (0, 0%N, 0%N, w);
|}.

Definition nine_cpus : text := word "0-3,8".

#[local] Instance ThreadDriver : GpuDriver := {|
  cuInit w := (0, w);
  cudaGetDeviceCount w := (0, 0, w);
  cudaDeviceGetPCIBusId g w := (101, [], w);
  read_file path _ := if bool_decide (path = cpulist_path 1) then Some (nine_cpus ++ ["010"%char]) else None;
  cuDeviceGet g w := (101, 0, w);
  cuDevicePrimaryCtxRetain d w := (101, nullptr, w);
  cuDevicePrimaryCtxRelease d w := (101, w);
  cuCtxGetId _ w := (101, 1%N, w);
  cudaGetDeviceProperties _ w := (101, w);
  getcpu _ := (0, 1);
|}.

#[local] Instance PlacedThread : ThreadAffinity := {|
  getaffinity w := (0, w, w);
  setaffinity cpus _ := (0, cpus);
|}.

Lemma numeral_digit (c : ascii) n : is_digit c = true → decimal [c] = n → n ≤ INT_MAX → numeral [c] n.
Proof. intros. split_and!; [by constructor|done..]. Qed.

Definition four_cpus : gset Z := {[2; 3; 8; 9]}.
Definition three_cpus : gset Z := {[2; 3; 8]}.
Definition before_pin : world := four_cpus.
Definition after_pin : world := three_cpus.

Lemma placement_is_exact_witness : pinToNumaNode 1 before_pin = (true, after_pin).
Proof.
  destruct (placement_is_exact 1 [] nine_cpus ["010"%char] [(0, 3); (8, 8)] before_pin)
    as (cpus & Hcpus & Hrun).
  - done.
  - by vm_compute.
  - constructor.
  - apply (more_ranges (word "0-3") 0 3 (word "8") [(8, 8)]).
    + apply (cpu_range (word "0") (word "3") 0 3); [apply numeral_digit..|done]; by vm_compute.
    + apply one_range_text, one_cpu, numeral_digit; by vm_compute.
  - by repeat constructor.
  - rewrite Hrun. simpl. assert (cpus ∩ before_pin = after_pin) as ->.
    { unfold before_pin, after_pin, four_cpus, three_cpus. apply set_eq. intros cpu. rewrite elem_of_intersection, Hcpus. unfold in_ranges, CPU_SETSIZE.
      setoid_rewrite elem_of_cons. setoid_rewrite list_elem_of_singleton. split.
      - intros [[_ (a & b & [[= -> ->]|[= -> ->]] & ?)] Hin]; set_unfold; lia.
      - intros Hin. split; [|set_solver]. split; [set_unfold; lia|].
        destruct (decide (cpu = 8)) as [->|]; [exists 8, 8; split; [auto|lia]|exists 0, 3; split; [auto|set_unfold; lia]]. }
    rewrite decide_False; [done|]. intros [?|Hempty]; [done|]. unfold after_pin, three_cpus in Hempty. set_solver.
Defined.

End placement.
